(* ===== verification/_CoqProject ===== *)
-Q . S2P
Prelude.v
Monad.v
GoString.v
GoTime.v
Windows.v
Evaluate.v
CronSpec.v
ScheduleSpec.v
GraceSpec.v
ExceptionSpec.v
ScheduleClaims.v
Planner.v
Types.v
Recovery.v
Cluster.v
Memory.v
Restore.v
RestoreSpec.v
World.v
ExecutionUtils.v
Execution.v
Dispatch.v
Handlers.v
Timer.v
Worker.v
StateFrame.v
PhaseSpec.v
DispatchSpec.v
RecoverySpec.v
InvariantSpec.v
ExecutionSpec.v
WorkerSpec.v
StatusWriter.v
Pool.v
PoolSpec.v
StateSamples.v
StateWitnesses.v
StatusWriterSpec.v
PlanWebhook.v
PlanWebhookSpec.v
ExceptionWebhook.v
ExceptionWebhookSpec.v
ExceptionLifecycle.v
ExceptionLifecycleSpec.v
Delivery.v
Provider.v
ProviderSpec.v
Requeue.v
DeliverySpec.v
RequeueSpec.v
Params.v
Executor.v
Operation.v
Threads.v
GoPath.v
AwsUtil.v
ParamsValidation.v
ExecutorSamples.v
WorkloadScaler.v
Runner.v
Cycle.v
ScalerSpec.v
ScalerWake.v
RunnerSamples.v
EKS.v
EKSSpec.v
Karpenter.v
KarpenterSpec.v
EC2.v
EC2Spec.v
RDS.v
RDSSpec.v
ParamsSpec.v
Notification.v
NotificationSpec.v
Pipeline.v
Cache.v
Slack.v
Dispatcher.v
DispatcherSpec.v
