(* ===== verification/Prelude.v ===== *)
(** * Hibernator: a verification development

    Hibernator is a Kubernetes operator.  A [HibernatePlan] names a schedule of
    off-hours and a list of targets (clusters, databases, workloads); the
    controller shuts the targets down when the off-hours begin and restores them
    when they end, in stages that respect the dependencies between the targets.
    A [ScheduleException] changes the schedule of one plan for some days, and a
    [HibernateNotification] says who hears of it.

    ** The program and its parts

    - The scheduler ([src/internal/scheduler]) turns windows into cron lines,
      decides from them and the exceptions whether a plan is to be hibernated
      now, and orders the targets into stages.
    - The provider ([src/internal/provider]) composes, for each plan, a plan
      context (the plan, its exceptions, the decision), and the processors act
      on it.  The plan processor runs one worker per plan: a loop over the latest
      context and the timers, which hands the plan to the handler of its phase.
      The handlers create runner Jobs, observe them and move the plan from phase
      to phase.  They change the cached plan at once and queue the same change
      for the status writer, which retries it against the API server.  The
      exception processor keeps the states of the exceptions and the references
      to them in the plan, the notification processor which plans a notification
      watches and what became of its deliveries.
    - The hooks of the handlers submit requests to the notification dispatcher
      ([src/internal/notification]), which sends them through a sink such as Slack.
    - The restore manager ([src/internal/restore]) keeps, in a ConfigMap per
      plan, what each target was before it was shut down.
    - The admission webhooks ([src/internal/validationwebhook]) reject plans and
      exceptions that the controller could not execute.
    - The keyed worker pool ([src/pkg/keyedworker]) carries the contexts and the
      status updates to their goroutines.
    - The runner ([src/cmd/runner]) is the process of a Job.  It calls one
      operation of an executor ([src/internal/executor]), the code that knows how
      to shut down one kind of target, and stores what the executor reports
      through the restore manager, or gives it back to the executor at wakeup.

    ** The files

    What all parts share:
    - [Prelude] (this file): outcomes of Go calls ([res]: a value, an error, a
      panic, no return), loops and lists, the tactics and the hint databases.
    - [Monad]: the state and error monad of the code that talks to the API
      server.
    - [GoString], [GoTime], [GoPath]: what the program uses of Go's [strings],
      [strconv], [fmt] and slices (sorting, the order of map iteration), of [time]
      ([time.ParseDuration] with its floating-point product, RFC 3339) together
      with [k8sutil/naming.go], and of [path.Match].
    - [Types]: [api/v1alpha1]; [Cluster]: the requests to the API server as an
      interface ([KubeApi]) with the laws the program relies on ([KubeLaws]);
      [Memory]: an instance, with faults to be injected.

    The schedule:
    - [Windows] (windows.go), [Evaluate] (schedule.go, evaluate.go): windows, cron
      lines, last and next occurrences, grace, the three kinds of exceptions and
      the requeue time.  The cron library is the class [Cron], the zone database
      [TimezoneDB].
    - [CronSpec]: the laws of the library, and an implementation that has them.
    - [ScheduleSpec], [ExceptionSpec], [GraceSpec], [ScheduleClaims]: without a
      schedule buffer the decision equals the test of the weekday and the minute
      of the day ([off_hours]) at instants that are not within ten seconds of an
      edge, and [buffer_delays] says what a buffer changes; the exceptions combine
      as replace, extend and suspend; the next event announced is the first one.
    - [Planner] (planner.go): the four strategies; Kahn's algorithm against the
      layers of the dependency graph, and its answer on cycles.
    - [Provider], [ProviderSpec]: how a decision is made for a delivery
      (provider.go); [Delivery], [DeliverySpec]: when a delivery counts as new and
      what the subscribers see of it (message); [Requeue], [RequeueSpec]: when the
      next one is due (requeue/processor.go).

    The execution of a plan:
    - [World]: the state of one worker (the cached plan, the requests, the queue
      of status updates, the clock); [ExecutionUtils] (utils.go), [Execution]
      (state.go and the first half of state_execution.go), [Dispatch] (the
      second), [Handlers] (the phases), [Recovery] (recovery.go), [Timer]
      (timer.go), [Worker] (worker.go and coordinator.go as a step relation).
    - [StateFrame], [PhaseSpec], [DispatchSpec], [RecoverySpec], [InvariantSpec], [ExecutionSpec], [WorkerSpec]: the phase machine, the
      concurrency of Jobs, suspension, retries, invariants of every reachable
      worker, the locked intent of a cycle.  [StateSamples] and [StateWitnesses]
      evaluate the handlers on small plans.
    - [StatusWriter], [StatusWriterSpec] (processor/status): an
      update reaches the server unless it is refused for good, and the phase that
      a handler has put into the cache is the phase that is written.

    The data beside a plan:
    - [Restore], [RestoreSpec] (internal/restore).
    - [ExceptionLifecycle], [ExceptionLifecycleSpec]
      (processor/scheduleexception).
    - [PlanWebhook], [PlanWebhookSpec] and [ExceptionWebhook],
      [ExceptionWebhookSpec] (validationwebhook): what is admitted, and what follows from it in the other
      components: a plan that was admitted can be planned and executed, and
      admitted exceptions never leave open which override applies.
    - [Pool], [PoolSpec] (pkg/keyedworker): threads that take one
      step at a time, a step being a critical section or one channel operation;
      [Pipeline]: the slot that keeps the latest value (pkg/conflate).

    Notifications:
    - [Notification] (hibernatenotification_types.go and its validator,
      state_notify.go, the bindings of message/types.go, their publication by
      provider.go, processor/notification): from the hooks of a handler to the
      requests they submit, and from a reconciliation to the plans that are
      watched.  [NotificationSpec]: the history of deliveries is bounded and keeps
      the newest, the state of a notification agrees with the plans it watches, and
      a reconciliation makes it watch the plans it selects.
    - [Cache] (pkg/cache), [Slack] (sink/slack: config.go, delivery.go, slack.go)
      and [Dispatcher] (dispatcher.go): what is sent for a request, and what is
      remembered of it.  [DispatcherSpec]: the notifications of an operation stay in
      one thread.

    The execution of one target:
    - [Params] (executorparams/params.go, awsutil/tagselector.go): the parameters
      of the executors; [ParamsValidation] (executorparams/validation.go) and
      [ParamsSpec]: which of them are admitted, and that no executor refuses what
      was admitted, the noop executor apart; the validation of the gke, cloudsql and
      noop executors.  [AwsUtil] (pkg/awsutil): tag selectors, resource filters and
      the configuration of the AWS clients.
    - [Executor] (executor/interface.go): the interface of the executors and their
      registry; [Operation]: the wait for a condition (pkg/waiter), and what the
      executors have in common, their counts, reports, requests and loops;
      [Threads]: goroutines that share a client and a callback, and a logic for
      their interleavings.
    - [Runner] (cmd/runner): one run of one operation, with the restore manager
      before or after it.
    - [Cycle]: the contract between the runner and an executor ([Hibernation],
      [HibernationLaws]), the invariant of a cycle of runs under it, and the theorem
      [cycle_restores]: a wakeup brings every resource back.
    - [WorkloadScaler] (executor/workloadscaler), with [ScalerSpec] (shutdown) and
      [ScalerWake] (wakeup and the contract); [EKS], [Karpenter], [EC2] and [RDS]
      (the directories of [executor] of these names), each with its [...Spec]: what
      the operations make of replica counts, node groups, NodePools, instances and
      databases, whichever requests fail, and the cycle of each executor.
    - [ExecutorSamples], [RunnerSamples], and the last part of each [...Spec]:
      services in memory, and runs on them.

    ** Interfaces

    Code outside the repository, and the parts that a component only calls, are
    classes: [KubeApi]/[KubeLaws], [StatusApi]/[StatusLaws] and [ConflictRetry]
    (requests of the status writer), [ExceptionReader]/[ReaderLaws],
    [ExceptionClient]/[ClientLaws], [Cron]/[CronLaws], [TimezoneDB],
    [JSON]/[JSONLaws], [Validator] (parameters of executors; [params_validator] is the
    program's), [LabelValidation] (selectors of Kubernetes), [ExecutorInfra]
    (names and service accounts of runners), [MapOrder] and [SortSlice] (the order
    of Go's map iteration and of its unstable sort), [Cmp]/[CmpLaws] (equality of
    values that contain times), [Watchable]/[WatchableLaws] (what the message
    queue compares), [ProviderClient] (reads of the provider), [Service] (requests
    of an executor), with [ScaleClient]/[ScaleLaws], [EKSClients]/[EKSLaws] and
    [PoolClients]/[PoolLaws], [EC2Clients]/[EC2Laws] and [RDSClients]/[RDSLaws] for
    the executors, [AWSLoader] (configuration of the AWS SDK), [LabelMatching]
    (selectors), [ConnectorReader], [NotificationClient]/[NotificationLaws] and
    [DispatchClient] (requests for connectors, notifications, secrets and
    templates), [LRU]/[LRULaws] (the library's cache), [SlackApi]/[SlackLaws],
    [JSONText]/[JSONTextLaws] and [ParamsJSON] (encodings), [RunnerEnv].
    [Executor] is an interface of the program: the runner is written against it,
    and [workloadscaler], [eks_executor], [karpenter_executor], [ec2_executor] and
    [rds_executor] are instances.  Each class with laws has an instance, on which
    the samples are evaluated.  Requests may fail at any time, and a request that
    fails may have been carried out; theorems hold for every answer the laws
    allow.

    ** Bounds and fuel

    - [Handle] calls itself at most [maxHandleDepth] (5) times; the bound is the
      program's.
    - [backoff_loop] runs [attempt] times at most, each iteration doubling the
      delay; [CalculateBackoff_spec] gives its value.
    - [dag_loop] and [visit_loop] have as much fuel as there are targets; each
      iteration removes one at least, and [PlanDAG_decides] and
      [validateDAG_decides] show that they end with an answer.
    - [occurrence_fuel], 10082, is the number of minutes of a week and two more:
      every cron line the program generates is active once a week at least.
    - [duration_loop] has the length of the text as fuel; each iteration reads a
      character.
    - [poll_thread] waits for [await_ticks] ticks, the timeout divided by the
      interval of the ticker; after them its context is done.
    - [Memory] and its like answer from a finite list of faults and succeed after
      it; the theorems quantify over all answers.
    - The channel of the requeue processor holds 128 events, as in the program.
    - Integers that can wrap around (durations, the attempts of a retry, the
      fields of [time.ParseDuration]) are reduced explicitly.

    ** What is abstracted

    The clock is read once per handler; an answer to a patch replaces the cached
    object.  The patch of a ConfigMap by [Restore.Save] is an update of the whole: no
    other writer comes between its read and its write.  A queued update is a function of the status, taken when it is
    queued: that a queued closure and the cached plan may share a slice is not
    modelled.  [SetControllerReference] succeeds, as it does for registered types.
    Nil and empty slices are the same list.  Case mapping is that of ASCII.  In
    [Pool] buffers have a positive capacity, [Register] is called once, and
    [Recv]'s test of the length with its re-arming is one step.  A wait of the AWS
    SDK is one request; callbacks do not panic; the loaders of configurations that
    tests inject are left out.  An operation of [Cache] is one step, and a caller
    does not share its fetch; a message is what it is rendered from; in
    [stream_run] the cache keeps the states of a stream between two of its
    requests, which is what its ten minutes are for.  Logs, metrics,
    events, the texts of messages and the warnings of the webhooks are left out.

    ** What is not modelled

    Of the notifications the templates, the layouts of Slack messages, the Telegram
    and webhook sinks, and the start and stop of the dispatcher, whose workers are
    those of [Pool]; of the runner its flags, its connectors and the streaming of its
    progress; the operations, but not the validation, of the executors that are
    placeholders (GKE, CloudSQL) or simulations (noop); the command line client; rate limits and log sinks; registration
    with controller-runtime and metrics.  Generated code is left out. *)
From stdpp Require Export base tactics list gmap strings sorting.
From Stdlib Require Export ZArith.
From Stdlib Require Import Lia.

#[export] Set Default Goal Selector "!".

(** ** Outcomes of Go code

    A Go call either returns normally, returns a non-nil error, panics, or does
    not return at all.  [res E A] keeps the four apart; functions that cannot
    fail are plain functions. *)
Inductive res (E A : Type) : Type :=
| Ok (a : A)
| Err (e : E)
| Panic
| NoReturn.
Arguments Ok {E A} a.
Arguments Err {E A} e.
Arguments Panic {E A}.
Arguments NoReturn {E A}.

Definition res_bind {E A B} (m : res E A) (k : A -> res E B) : res E B :=
  match m with
  | Ok a => k a
  | Err e => Err e
  | Panic => Panic
  | NoReturn => NoReturn
  end.

(** [fmt.Errorf("...: %w", err)]: the error is decorated, everything else kept. *)
Definition res_map_err {E E' A} (f : E -> E') (m : res E A) : res E' A :=
  match m with
  | Ok a => Ok a
  | Err e => Err (f e)
  | Panic => Panic
  | NoReturn => NoReturn
  end.

(** What [if err != nil { continue }] sees of a call that may fail. *)
Definition res_ok {E A} (m : res E A) : option A :=
  match m with Ok a => Some a | _ => None end.

Declare Scope hib_scope.
Delimit Scope hib_scope with hib.
Notation "'let*' x := m 'in' k" := (res_bind m (fun x => k))
  (at level 10, x name, m at level 100, k at level 200) : hib_scope.
Notation "'let*' ' p := m 'in' k" := (res_bind m (fun x => match x with p => k end))
  (at level 10, p pattern, m at level 100, k at level 200) : hib_scope.
Open Scope hib_scope.

(** ** Machine integers *)

(** Go's [int32(x)] conversion: two's complement truncation. *)
Definition int32 (x : Z) : Z := (x + 2 ^ 31) mod 2 ^ 32 - 2 ^ 31.

(** Wrap-around of [int64] (and of [time.Duration]) arithmetic. *)
Definition int64 (x : Z) : Z := (x + 2 ^ 63) mod 2 ^ 64 - 2 ^ 63.

Definition in_int32 (x : Z) : Prop := (- 2 ^ 31 <= x < 2 ^ 31)%Z.
Definition in_int64 (x : Z) : Prop := (- 2 ^ 63 <= x < 2 ^ 63)%Z.

(** ** Automation *)

Create HintDb hib.

(** Case analysis on the discriminee of a [match] or [if] of the goal. *)
Ltac split_match :=
  match goal with
  | |- context [match ?x with _ => _ end] => destruct x eqn:?
  end.

(** The same in a hypothesis. *)
Ltac split_match_in H :=
  match type of H with
  | context [match ?x with _ => _ end] => destruct x eqn:?
  end.

(** Turn boolean tests of the model into propositions. *)
Ltac reflect :=
  repeat match goal with
  | H : (_ && _) = true |- _ => apply andb_true_iff in H; destruct H
  | H : (_ || _) = false |- _ => apply orb_false_iff in H; destruct H
  | H : negb _ = true |- _ => apply negb_true_iff in H
  | H : negb _ = false |- _ => apply negb_false_iff in H
  | H : (_ =? _)%Z = true |- _ => apply Z.eqb_eq in H
  | H : (_ =? _)%Z = false |- _ => apply Z.eqb_neq in H
  | H : (_ <? _)%Z = true |- _ => apply Z.ltb_lt in H
  | H : (_ <? _)%Z = false |- _ => apply Z.ltb_ge in H
  | H : (_ <=? _)%Z = true |- _ => apply Z.leb_le in H
  | H : (_ <=? _)%Z = false |- _ => apply Z.leb_gt in H
  | H : (_ =? _)%string = true |- _ => apply String.eqb_eq in H
  | H : (_ =? _)%string = false |- _ => apply String.eqb_neq in H
  | H : bool_decide _ = true |- _ => apply bool_decide_eq_true in H
  | H : bool_decide _ = false |- _ => apply bool_decide_eq_false in H
  end.

(** Linear arithmetic with division and remainder by constants. *)
Ltac divmod := Z.to_euclidean_division_equations; lia.

(** ** Shared lemmas *)

Section res_lemmas.
Context {E A B : Type}.
Implicit Types m : res E A.

Lemma res_bind_Ok m (k : A -> res E B) b :
  res_bind m k = Ok b <-> exists a, m = Ok a /\ k a = Ok b.
Proof. destruct m; simpl; naive_solver. Qed.

Lemma res_bind_Err m (k : A -> res E B) e :
  res_bind m k = Err e <-> m = Err e \/ exists a, m = Ok a /\ k a = Err e.
Proof. destruct m; simpl; naive_solver. Qed.

Lemma res_map_err_Ok {E'} (f : E -> E') m a :
  res_map_err f m = Ok a <-> m = Ok a.
Proof. destruct m; simpl; naive_solver. Qed.

Lemma res_ok_Some m a : res_ok m = Some a <-> m = Ok a.
Proof. destruct m; simpl; naive_solver. Qed.

Lemma res_ok_None m : res_ok m = None <-> forall a, m <> Ok a.
Proof. destruct m; simpl; naive_solver. Qed.
End res_lemmas.

Lemma int32_id x : in_int32 x -> int32 x = x.
Proof. unfold in_int32, int32. intros. rewrite Z.mod_small; lia. Qed.

Lemma int64_id x : in_int64 x -> int64 x = x.
Proof. unfold in_int64, int64. intros. rewrite Z.mod_small; lia. Qed.

Lemma int32_range x : in_int32 (int32 x).
Proof.
  unfold in_int32, int32.
  pose proof (Z.mod_pos_bound (x + 2 ^ 31) (2 ^ 32) eq_refl). lia.
Qed.

Lemma int64_range x : in_int64 (int64 x).
Proof.
  unfold in_int64, int64.
  pose proof (Z.mod_pos_bound (x + 2 ^ 63) (2 ^ 64) eq_refl). lia.
Qed.

#[export] Hint Resolve int32_range int64_range : hib.

Section list_lemmas.
Context {A : Type}.
Implicit Types (l : list A) (f : A -> bool).

Lemma existsb_spec f l : existsb f l = true <-> exists x, x ∈ l /\ f x = true.
Proof.
  rewrite existsb_exists. setoid_rewrite list_elem_of_In. done.
Qed.

Lemma forallb_spec f l : forallb f l = true <-> forall x, x ∈ l -> f x = true.
Proof.
  rewrite forallb_forall. setoid_rewrite list_elem_of_In. done.
Qed.

Lemma existsb_false f l : existsb f l = false <-> forall x, x ∈ l -> f x = false.
Proof.
  rewrite <- not_true_iff_false, existsb_spec. split.
  - intros H x Hx. apply not_true_is_false. intros Hf. apply H. by exists x.
  - intros H (x & Hx & Hf). rewrite (H x Hx) in Hf. done.
Qed.
End list_lemmas.

(** Errors that are collected element by element. *)
Lemma concat_imap_nil {A B} (f : nat -> A -> list B) l :
  concat (imap f l) = [] <-> forall i x, l !! i = Some x -> f i x = [].
Proof.
  revert f. induction l as [|y l IH]; intros f; [done|]. cbn. rewrite app_nil, IH. split.
  - intros [H1 H2] [|i] x; [by intros [= <-]|]. apply (H2 i).
  - intros H. split; [by apply (H 0%nat)|]. intros i x. apply (H (S i)).
Qed.


(** Filters by tests that agree on the list. *)
Lemma filter_true_ext {A} (p q : A -> bool) (l : list A) :
  (forall x, x ∈ l -> p x = q x) -> filter (fun x => p x = true) l = filter (fun x => q x = true) l.
Proof.
  induction l as [|x l IH]; intros H; [done|]. rewrite !filter_cons, (H x) by (by left).
  rewrite IH by (intros y Hy; apply H; by right). by repeat case_decide.
Qed.

(** The first element of a list that satisfies a test, as Go's search loops
    ([for ... { if test { return x } }]) find it. *)
Fixpoint find_first {A} (f : A -> bool) (l : list A) : option A :=
  match l with
  | [] => None
  | x :: l' => if f x then Some x else find_first f l'
  end.

Lemma find_first_Some {A} (f : A -> bool) l x :
  find_first f l = Some x -> x ∈ l /\ f x = true.
Proof.
  induction l as [|y l IH]; simpl; [done|].
  destruct (f y) eqn:Hy; intros; simplify_eq; set_solver.
Qed.

Lemma find_first_None {A} (f : A -> bool) l :
  find_first f l = None <-> forall x, x ∈ l -> f x = false.
Proof.
  induction l as [|y l IH]; simpl; [set_solver|].
  setoid_rewrite elem_of_cons. destruct (f y) eqn:Hy.
  - split; [done|]. intros H. rewrite (H y) in Hy by (by left). done.
  - rewrite IH. split.
    + intros H x [->|Hx]; auto.
    + intros H x Hx. apply H. by right.
Qed.

(** Update of the first element that satisfies a test
    ([for i := range s { if test { s[i] = ...; break } }]). *)
Fixpoint update_first {A} (f : A -> bool) (g : A -> A) (l : list A) : list A :=
  match l with
  | [] => []
  | x :: l' => if f x then g x :: l' else x :: update_first f g l'
  end.

Lemma length_update_first {A} (f : A -> bool) g l :
  length (update_first f g l) = length l.
Proof. induction l as [|x l IH]; simpl; [done|]. destruct (f x); simpl; congruence. Qed.

Lemma map_update_first {A B} (p : A -> B) (f : A -> bool) g l :
  (forall x, p (g x) = p x) -> map p (update_first f g l) = map p l.
Proof.
  intros Hg. induction l as [|x l IH]; simpl; [done|].
  destruct (f x); simpl; congruence.
Qed.

(** A search loop whose test may panic or not return:
    [for _, x := range l { if test(x) { return true } }; return false]. *)
Fixpoint any_res {E A} (f : A -> res E bool) (l : list A) : res E bool :=
  match l with
  | [] => Ok false
  | x :: l' => let* b := f x in if b then Ok true else any_res f l'
  end.

Lemma any_res_total {E A} (f : A -> res E bool) (g : A -> bool) l :
  (forall x, x ∈ l -> f x = Ok (g x)) -> any_res f l = Ok (existsb g l).
Proof.
  induction l as [|x l IH]; simpl; [done|]. intros H.
  rewrite (H x) by (by left). simpl.
  destruct (g x); [done|]. apply IH. intros y Hy. apply H. by right.
Qed.

(** Membership in an interval of integers, as a decidable enumeration: a
    property of all the integers of a small interval can be evaluated. *)
Definition Zrange (lo : Z) (n : nat) : list Z := map (fun i => (lo + Z.of_nat i)%Z) (seq 0 n).

Lemma elem_of_Zrange lo n x : x ∈ Zrange lo n <-> (lo <= x < lo + Z.of_nat n)%Z.
Proof.
  unfold Zrange. rewrite list_elem_of_In, in_map_iff. setoid_rewrite in_seq. split.
  - intros (i & <- & Hi). lia.
  - intros H. exists (Z.to_nat (x - lo)). lia.
Qed.

Lemma Zrange_forallb (P : Z -> bool) lo n :
  forallb P (Zrange lo n) = true -> forall x, (lo <= x < lo + Z.of_nat n)%Z -> P x = true.
Proof. rewrite forallb_spec. intros H x Hx. apply H. by apply elem_of_Zrange. Qed.

Lemma Zrange_S lo n : Zrange lo (S n) = lo :: Zrange (lo + 1)%Z n.
Proof.
  unfold Zrange. simpl. f_equal; [lia|]. rewrite <- seq_shift, map_map.
  apply map_ext. intros. lia.
Qed.

(** A search through consecutive integers finds the least hit. *)
Lemma find_first_Zrange f lo n k :
  find_first f (Zrange lo n) = Some k ->
  (lo <= k < lo + Z.of_nat n)%Z /\ f k = true /\ forall j, (lo <= j < k)%Z -> f j = false.
Proof.
  revert lo. induction n as [|n IH]; intros lo; [done|]. rewrite Zrange_S. simpl.
  destruct (f lo) eqn:Hlo.
  - intros [= ->]. split; [lia|]. split; [done|]. lia.
  - intros H. apply IH in H as (Hk & Hf & Hj). split; [lia|]. split; [done|].
    intros j Hjk. destruct (Z.eq_dec j lo) as [->|]; [done|]. apply Hj. lia.
Qed.
