(* ===== verification/Monad.v ===== *)
(** * State and errors

    The monad of the code that talks to the API server and mutates objects in
    memory: a state is threaded through, and stays as it is when a call returns
    an error or panics. *)
From S2P Require Import Prelude.
From Stdlib Require Import Lia.

Definition ST (S E A : Type) : Type := S -> res E A * S.

Definition st_ret {S E A} (a : A) : ST S E A := fun s => (Ok a, s).
Definition st_throw {S E A} (e : E) : ST S E A := fun s => (Err e, s).
Definition st_panic {S E A} : ST S E A := fun s => (Panic, s).
Definition st_get {S E} : ST S E S := fun s => (Ok s, s).
Definition st_gets {S E A} (f : S -> A) : ST S E A := fun s => (Ok (f s), s).
Definition st_modify {S E} (f : S -> S) : ST S E unit := fun s => (Ok tt, f s).

Definition st_bind {S E A B} (m : ST S E A) (k : A -> ST S E B) : ST S E B :=
  fun s =>
    match m s with
    | (Ok a, s') => k a s'
    | (Err e, s') => (Err e, s')
    | (Panic, s') => (Panic, s')
    | (NoReturn, s') => (NoReturn, s')
    end.

(** [x, err := m(); ...]: the continuation sees the error. *)
Definition st_try {S E E' A} (m : ST S E A) : ST S E' (E + A) :=
  fun s =>
    match m s with
    | (Ok a, s') => (Ok (inr a), s')
    | (Err e, s') => (Ok (inl e), s')
    | (Panic, s') => (Panic, s')
    | (NoReturn, s') => (NoReturn, s')
    end.

(** Decoration of an error. *)
Definition st_wrap {S E E' A} (f : E -> E') (m : ST S E A) : ST S E' A :=
  fun s => let '(r, s') := m s in (res_map_err f r, s').

(** A computation on a part of the state. *)
Definition st_lift {S T E A} (get : S -> T) (set : T -> S -> S) (m : ST T E A) : ST S E A :=
  fun s => let '(r, t) := m (get s) in (r, set t s).

Notation "'let!' x := m 'in' k" := (st_bind m (fun x => k))
  (at level 10, x name, m at level 100, k at level 200) : hib_scope.
Notation "'let!' ' p := m 'in' k" := (st_bind m (fun x => match x with p => k end))
  (at level 10, p pattern, m at level 100, k at level 200) : hib_scope.
Notation "'do!' m 'in' k" := (st_bind m (fun _ => k))
  (at level 10, m at level 100, k at level 200) : hib_scope.

(** The state and the result of a run. *)
Definition run_state {S E A} (m : ST S E A) (s : S) : S := (m s).2.
Definition run_result {S E A} (m : ST S E A) (s : S) : res E A := (m s).1.

Fixpoint st_iter {S E A} (f : A -> ST S E unit) (l : list A) : ST S E unit :=
  match l with
  | [] => st_ret tt
  | x :: l' => do! f x in st_iter f l'
  end.

(** ** Invariants

    [preserves I m]: every run of [m] from a state that satisfies [I] ends in
    one, whatever the outcome. *)
Section invariants.
Context {S : Type} (I : S -> Prop).

Definition preserves {E A} (m : ST S E A) : Prop := forall s, I s -> I (m s).2.

Lemma preserves_ret {E A} (a : A) : preserves (st_ret (E:=E) a).
Proof. by intros s. Qed.

Lemma preserves_throw {E A} (e : E) : preserves (st_throw (A:=A) e).
Proof. by intros s. Qed.

Lemma preserves_panic {E A} : preserves (st_panic (E:=E) (A:=A)).
Proof. by intros s. Qed.

Lemma preserves_get {E} : preserves (st_get (E:=E)).
Proof. by intros s. Qed.

Lemma preserves_gets {E A} (f : S -> A) : preserves (st_gets (E:=E) f).
Proof. by intros s. Qed.

Lemma preserves_modify {E} (f : S -> S) :
  (forall s, I s -> I (f s)) -> preserves (st_modify (E:=E) f).
Proof. intros H s Hs. by apply H. Qed.

Lemma preserves_bind {E A B} (m : ST S E A) (k : A -> ST S E B) :
  preserves m -> (forall a, preserves (k a)) -> preserves (st_bind m k).
Proof.
  intros Hm Hk s Hs. unfold st_bind. specialize (Hm s Hs).
  destruct (m s) as [ [a|e| |] s']; simpl in *; try done. by apply Hk.
Qed.

Lemma preserves_try {E E' A} (m : ST S E A) : preserves m -> preserves (st_try (E':=E') m).
Proof.
  intros Hm s Hs. unfold st_try. specialize (Hm s Hs).
  by destruct (m s) as [ [a|e| |] s'].
Qed.

Lemma preserves_wrap {E E' A} (f : E -> E') (m : ST S E A) :
  preserves m -> preserves (st_wrap f m).
Proof.
  intros Hm s Hs. unfold st_wrap. specialize (Hm s Hs). by destruct (m s) as [r s'].
Qed.

Lemma preserves_iter {E A} (f : A -> ST S E unit) l :
  (forall x, x ∈ l -> preserves (f x)) -> preserves (st_iter f l).
Proof.
  induction l as [|x l IH]; intros H; [apply preserves_ret|].
  simpl. apply preserves_bind; [apply H; by left|]. intros _. apply IH.
  intros y Hy. apply H. by right.
Qed.
End invariants.

(** ** Triples

    [hoare P m Q X]: a run of [m] from [P] that returns ends in [Q], one that
    fails in [X]; a panic ends the process. *)
Section triples.
Context {S : Type}.

Definition hoare {E A} (P : S -> Prop) (m : ST S E A) (Q : A -> S -> Prop) (X : E -> S -> Prop) : Prop :=
  forall s, P s ->
    match m s with
    | (Ok a, s') => Q a s'
    | (Err e, s') => X e s'
    | (Panic, _) | (NoReturn, _) => True
    end.

Lemma hoare_ret {E A} (a : A) (P : S -> Prop) (Q : A -> S -> Prop) (X : E -> S -> Prop) :
  (forall s, P s -> Q a s) -> hoare P (st_ret a) Q X.
Proof. intros H s Hs. by apply H. Qed.

Lemma hoare_throw {E A} (e : E) (P : S -> Prop) (Q : A -> S -> Prop) (X : E -> S -> Prop) :
  (forall s, P s -> X e s) -> hoare P (st_throw e) Q X.
Proof. intros H s Hs. by apply H. Qed.

Lemma hoare_panic {E A} (P : S -> Prop) (Q : A -> S -> Prop) (X : E -> S -> Prop) : hoare P st_panic Q X.
Proof. by intros s Hs. Qed.

Lemma hoare_bind {E A B} (R : A -> S -> Prop) (m : ST S E A) (k : A -> ST S E B) P Q X :
  hoare P m R X -> (forall a, hoare (R a) (k a) Q X) -> hoare P (st_bind m k) Q X.
Proof.
  intros Hm Hk s Hs. specialize (Hm s Hs). unfold st_bind.
  destruct (m s) as [ [a|e| |] s']; try done. by apply Hk.
Qed.

(** Reading: the continuation runs from the state that was read. *)
Lemma hoare_get {E B} (k : S -> ST S E B) (P : S -> Prop) Q X :
  (forall s, P s -> hoare (fun s' => s' = s) (k s) Q X) -> hoare P (st_bind st_get k) Q X.
Proof. intros H s Hs. by apply (H s Hs s). Qed.

Lemma hoare_gets {E A B} (f : S -> A) (k : A -> ST S E B) (P : S -> Prop) Q X :
  (forall a, hoare (fun s => P s /\ f s = a) (k a) Q X) -> hoare P (st_bind (st_gets f) k) Q X.
Proof. intros H s Hs. by apply (H (f s) s). Qed.

Lemma hoare_modify {E} (f : S -> S) (P : S -> Prop) (Q : unit -> S -> Prop) (X : E -> S -> Prop) :
  (forall s, P s -> Q tt (f s)) -> hoare P (st_modify f) Q X.
Proof. intros H s Hs. by apply H. Qed.

Lemma hoare_try {E E' A} (m : ST S E A) P Q (X : E' -> S -> Prop) :
  hoare P m (fun a => Q (inr a)) (fun e => Q (inl e)) -> hoare P (st_try m) Q X.
Proof. intros H s Hs. specialize (H s Hs). unfold st_try. by destruct (m s) as [ [a|e| |] s']. Qed.

Lemma hoare_wrap {E E' A} (f : E -> E') (m : ST S E A) P Q X :
  hoare P m Q (fun e => X (f e)) -> hoare P (st_wrap f m) Q X.
Proof. intros H s Hs. specialize (H s Hs). unfold st_wrap. by destruct (m s) as [ [a|e| |] s']. Qed.

Lemma hoare_conseq {E A} (m : ST S E A) (P P' : S -> Prop) (Q Q' : A -> S -> Prop) (X X' : E -> S -> Prop) :
  hoare P' m Q' X' -> (forall s, P s -> P' s) -> (forall a s, Q' a s -> Q a s) ->
  (forall e s, X' e s -> X e s) -> hoare P m Q X.
Proof.
  intros H HP HQ HX s Hs. specialize (H s (HP s Hs)). destruct (m s) as [ [a|e| |] s']; auto.
Qed.

Lemma hoare_preserves {E A} (I : S -> Prop) (m : ST S E A) :
  preserves I m -> hoare I m (fun _ => I) (fun _ => I).
Proof. intros H s Hs. specialize (H s Hs). by destruct (m s) as [ [a|e| |] s']. Qed.

Lemma hoare_pre {E A} (m : ST S E A) (P P' : S -> Prop) (Q : A -> S -> Prop) (X : E -> S -> Prop) :
  hoare P' m Q X -> (forall s, P s -> P' s) -> hoare P m Q X.
Proof. intros H HP s Hs. apply H, HP, Hs. Qed.

(** [succeeds P m Q]: a run of [m] from [P] returns without an error, in [Q]. *)
Definition succeeds {E A} (P : S -> Prop) (m : ST S E A) (Q : A -> S -> Prop) : Prop :=
  forall s, P s -> exists a s', m s = (Ok a, s') /\ Q a s'.

Lemma succeeds_ret {E A} (a : A) (P : S -> Prop) (Q : A -> S -> Prop) :
  (forall s, P s -> Q a s) -> succeeds P (st_ret (E:=E) a) Q.
Proof. intros H s Hs. exists a, s. split; [done|by apply H]. Qed.

Lemma succeeds_bind {E A B} (R : A -> S -> Prop) (m : ST S E A) (k : A -> ST S E B) P Q :
  succeeds P m R -> (forall a, succeeds (R a) (k a) Q) -> succeeds P (st_bind m k) Q.
Proof.
  intros Hm Hk s Hs. destruct (Hm s Hs) as (a & s' & Hr & Ha). unfold st_bind. rewrite Hr. by apply Hk.
Qed.

Lemma succeeds_pre {E A} (m : ST S E A) (P P' : S -> Prop) (Q : A -> S -> Prop) :
  succeeds P' m Q -> (forall s, P s -> P' s) -> succeeds P m Q.
Proof. intros H HP s Hs. apply H, HP, Hs. Qed.

Lemma succeeds_conseq {E A} (m : ST S E A) (P : S -> Prop) (Q Q' : A -> S -> Prop) :
  succeeds P m Q' -> (forall a s, Q' a s -> Q a s) -> succeeds P m Q.
Proof. intros H HQ s Hs. destruct (H s Hs) as (a & s' & Hr & Ha). exists a, s'. split; [done|by apply HQ]. Qed.

Lemma succeeds_run {E A} (P : S -> Prop) (m : ST S E A) (Q : A -> S -> Prop) s :
  succeeds P m Q -> P s -> exists a, run_result m s = Ok a /\ Q a (run_state m s).
Proof. intros H Hs. destruct (H s Hs) as (a & s' & Hr & Ha). unfold run_result, run_state. rewrite Hr. by exists a. Qed.

(** What a triple says of a run. *)
Lemma hoare_ok {E A} P (m : ST S E A) Q X s a s' : hoare P m Q X -> P s -> m s = (Ok a, s') -> Q a s'.
Proof. intros H Hs Hm. specialize (H s Hs). by rewrite Hm in H. Qed.
End triples.

(** ** Completion

    [completes m]: no run of [m] panics or fails to return. *)
Section completion.
Context {S : Type}.

Definition completed {E A} (r : res E A) : Prop := match r with Panic | NoReturn => False | _ => True end.
Definition completes {E A} (m : ST S E A) : Prop := forall s, completed (m s).1.

Lemma completes_ret {E A} (a : A) : completes (st_ret (S:=S) (E:=E) a).
Proof. done. Qed.

Lemma completes_throw {E A} (e : E) : completes (st_throw (S:=S) (A:=A) e).
Proof. done. Qed.

Lemma completes_modify {E} (f : S -> S) : completes (st_modify (E:=E) f).
Proof. done. Qed.

Lemma completes_gets {E A} (f : S -> A) : completes (st_gets (E:=E) f).
Proof. done. Qed.

Lemma completes_bind {E A B} (m : ST S E A) (k : A -> ST S E B) :
  completes m -> (forall a, completes (k a)) -> completes (st_bind m k).
Proof.
  intros Hm Hk s. specialize (Hm s). unfold st_bind.
  destruct (m s) as [ [a|e| |] s']; try done. apply Hk.
Qed.

Lemma completes_try {E E' A} (m : ST S E A) : completes m -> completes (st_try (E':=E') m).
Proof. intros Hm s. specialize (Hm s). unfold st_try. by destruct (m s) as [ [a|e| |] s']. Qed.

Lemma completes_wrap {E E' A} (f : E -> E') (m : ST S E A) : completes m -> completes (st_wrap f m).
Proof. intros Hm s. specialize (Hm s). unfold st_wrap. by destruct (m s) as [ [a|e| |] s']. Qed.

Lemma completes_lift {T E A} (get : S -> T) (set : T -> S -> S) (m : T -> res E A * T) :
  (forall t, completed (m t).1) -> completes (st_lift get set m).
Proof. intros Hm s. specialize (Hm (get s)). unfold st_lift. by destruct (m (get s)). Qed.

(** With a triple: the state at the end of a run, whatever the outcome. *)
Lemma hoare_completes {E A} (P : S -> Prop) (m : ST S E A) (Q : S -> Prop) s :
  completes m -> hoare P m (fun _ => Q) (fun _ => Q) -> P s -> Q (m s).2.
Proof. intros Hc Hm Hs. specialize (Hm s Hs). specialize (Hc s). by destruct (m s) as [ [a|e| |] s']. Qed.
End completion.

(** [ends P m Q X]: a run of [m] from [P] returns, with a value in [Q] or with an
    error in [X]. *)
Section ends.
Context {S : Type}.

Definition ends {E A} (P : S -> Prop) (m : ST S E A) (Q : A -> S -> Prop) (X : S -> Prop) : Prop :=
  forall s, P s ->
    match m s with
    | (Ok a, s') => Q a s'
    | (Err _, s') => X s'
    | (Panic, _) | (NoReturn, _) => False
    end.

Lemma ends_ret {E A} (a : A) (P : S -> Prop) (Q : A -> S -> Prop) (X : S -> Prop) :
  (forall s, P s -> Q a s) -> ends P (st_ret (E:=E) a) Q X.
Proof. intros H s Hs. by apply H. Qed.

Lemma ends_throw {E A} (e : E) (P : S -> Prop) (Q : A -> S -> Prop) (X : S -> Prop) :
  (forall s, P s -> X s) -> ends P (st_throw e) Q X.
Proof. intros H s Hs. by apply H. Qed.

Lemma ends_bind {E A B} (R : A -> S -> Prop) (m : ST S E A) (k : A -> ST S E B) P Q X :
  ends P m R X -> (forall a, ends (R a) (k a) Q X) -> ends P (st_bind m k) Q X.
Proof.
  intros Hm Hk s Hs. specialize (Hm s Hs). unfold st_bind.
  destruct (m s) as [ [a|e| |] s']; try done. by apply Hk.
Qed.

Lemma ends_wrap {E E' A} (f : E -> E') (m : ST S E A) P Q X : ends P m Q X -> ends P (st_wrap f m) Q X.
Proof. intros H s Hs. specialize (H s Hs). unfold st_wrap. by destruct (m s) as [ [a|e| |] s']. Qed.

Lemma ends_conseq {E A} (m : ST S E A) (P P' : S -> Prop) (Q Q' : A -> S -> Prop) (X X' : S -> Prop) :
  ends P' m Q' X' -> (forall s, P s -> P' s) -> (forall a s, Q' a s -> Q a s) -> (forall s, X' s -> X s) -> ends P m Q X.
Proof. intros H HP HQ HX s Hs. specialize (H s (HP s Hs)). destruct (m s) as [ [a|e| |] s']; auto. Qed.
End ends.

#[export] Hint Resolve completes_ret completes_throw completes_modify completes_gets completes_try
  completes_wrap : hib.

Ltac complete :=
  repeat (first
    [ progress intros
    | apply completes_bind
    | match goal with
      | |- completes (match ?x with _ => _ end) => destruct x eqn:?
      end
    | solve [eauto with hib] ]).

#[export] Hint Resolve preserves_ret preserves_throw preserves_panic preserves_get preserves_gets
  preserves_try preserves_wrap : hib.

(** Case analysis along the binds of a computation. *)
Ltac preserve :=
  repeat (first
    [ progress intros
    | apply preserves_bind
    | match goal with
      | |- preserves _ (match ?x with _ => _ end) => destruct x eqn:?
      | |- preserves _ (let '(_, _) := ?x in _) => destruct x eqn:?
      end
    | solve [eauto with hib] ]).
