(* ===== verification/GoString.v ===== *)
(** * Go strings

    The part of Go's [strings], [strconv] and [fmt] packages that the modelled
    code uses, on byte strings ([String.string] is a sequence of 8-bit
    characters, like a Go string).  Case mapping is given on ASCII, which is
    what the day names, operation names and error texts of the program are. *)
From S2P Require Import Prelude.
From stdpp Require Export pretty.
From Stdlib Require Export Ascii.
From Stdlib Require Import Lia.

Local Open Scope Z_scope.

(** [strings.Split(s, sep)] for a one-byte separator. *)
Fixpoint Split (sep : ascii) (s : string) : list string :=
  match s with
  | EmptyString => [EmptyString]
  | String c s' =>
      if Ascii.eqb c sep then EmptyString :: Split sep s'
      else match Split sep s' with
           | [] => [String c EmptyString]
           | w :: ws => String c w :: ws
           end
  end.

(** The value of an ASCII digit. *)
Definition digit_value (c : ascii) : option Z :=
  let n := Z.of_N (N_of_ascii c) in
  if (48 <=? n) && (n <=? 57) then Some (n - 48) else None.

Fixpoint digits_value (acc : Z) (s : string) : option Z :=
  match s with
  | EmptyString => Some acc
  | String c s' =>
      match digit_value c with
      | Some d => digits_value (10 * acc + d) s'
      | None => None
      end
  end.

(** [strconv.Atoi]: an optional sign, then at least one decimal digit and
    nothing else, and the value must fit a 64-bit [int]. *)
Definition Atoi (s : string) : option Z :=
  let unsigned (neg : bool) (s' : string) :=
    match s' with
    | EmptyString => None
    | _ =>
        match digits_value 0 s' with
        | Some n =>
            let v := if neg then - n else n in
            if (- 2 ^ 63 <=? v) && (v <? 2 ^ 63) then Some v else None
        | None => None
        end
    end in
  match s with
  | String "-" s' => unsigned true s'
  | String "+" s' => unsigned false s'
  | _ => unsigned false s
  end.

Definition ascii_upper (c : ascii) : ascii :=
  let n := N_of_ascii c in
  if ((97 <=? n) && (n <=? 122))%N then ascii_of_N (n - 32) else c.

Definition ascii_lower (c : ascii) : ascii :=
  let n := N_of_ascii c in
  if ((65 <=? n) && (n <=? 90))%N then ascii_of_N (n + 32) else c.

Fixpoint string_map (f : ascii -> ascii) (s : string) : string :=
  match s with
  | EmptyString => EmptyString
  | String c s' => String (f c) (string_map f s')
  end.

(** [strings.ToUpper], [strings.ToLower], [strings.EqualFold]. *)
Definition ToUpper (s : string) : string := string_map ascii_upper s.
Definition ToLower (s : string) : string := string_map ascii_lower s.
Definition EqualFold (s t : string) : bool := (ToLower s =? ToLower t)%string.

(** [s[:n]]: panics when the string is shorter than [n]. *)
Fixpoint slice_to (n : nat) (s : string) : option string :=
  match n, s with
  | O, _ => Some EmptyString
  | S _, EmptyString => None
  | S n', String c s' => String c <$> slice_to n' s'
  end.

Fixpoint has_prefix (p s : string) : bool :=
  match p, s with
  | EmptyString, _ => true
  | String a p', String b s' => Ascii.eqb a b && has_prefix p' s'
  | _, EmptyString => false
  end.

(** [strings.TrimPrefix]. *)
Definition TrimPrefix (s prefix : string) : string :=
  if has_prefix prefix s then String.substring (String.length prefix) (String.length s) s else s.

(** [strings.Contains(s, sub)]. *)
Fixpoint Contains (s sub : string) : bool :=
  has_prefix sub s ||
  match s with
  | EmptyString => false
  | String _ s' => Contains s' sub
  end.

(** [strings.Join]. *)
Fixpoint Join (sep : string) (l : list string) : string :=
  match l with
  | [] => EmptyString
  | [s] => s
  | s :: l' => (s ++ sep ++ Join sep l')%string
  end.

(** [fmt.Sprintf("%d", n)]. *)
Definition sprint_d (n : Z) : string := pretty n.

(** [sort.Strings]: byte-wise lexicographic order. *)
Definition string_le (s t : string) : Prop := String.leb s t = true.
#[export] Instance string_le_dec : forall s t, Decision (string_le s t).
Proof. intros s t. unfold string_le. apply _. Defined.

Definition sort_strings (l : list string) : list string := merge_sort string_le l.

(** ** Lemmas *)

#[export] Instance string_le_total : Total string_le.
Proof. intros s t. apply String.leb_total. Qed.

Lemma sort_strings_perm l : sort_strings l ≡ₚ l.
Proof. apply merge_sort_Permutation. Qed.

Lemma elem_of_sort_strings x l : x ∈ sort_strings l <-> x ∈ l.
Proof. by rewrite sort_strings_perm. Qed.

Lemma sort_strings_sorted l : Sorted string_le (sort_strings l).
Proof. apply Sorted_merge_sort. apply _. Qed.

Lemma length_sort_strings l : length (sort_strings l) = length l.
Proof. by rewrite sort_strings_perm. Qed.

#[export] Hint Resolve sort_strings_perm sort_strings_sorted : hib.

Lemma Split_not_nil sep s : Split sep s <> [].
Proof.
  destruct s as [|c s]; simpl; [done|].
  destruct (Ascii.eqb c sep); [done|]. by destruct (Split sep s).
Qed.

Lemma ascii_lower_upper c : ascii_lower (ascii_upper c) = ascii_lower c.
Proof. destruct c as [[] [] [] [] [] [] [] []]; reflexivity. Qed.

Lemma EqualFold_ToUpper s t : EqualFold (ToUpper s) t = EqualFold s t.
Proof.
  unfold EqualFold. f_equal. induction s as [|c s IH]; [done|].
  unfold ToLower, ToUpper in *. simpl. by rewrite ascii_lower_upper, IH.
Qed.

Lemma ascii_upper_lower c : ascii_upper (ascii_lower c) = ascii_upper c.
Proof. destruct c as [[] [] [] [] [] [] [] []]; reflexivity. Qed.

Lemma ToUpper_ToLower s : ToUpper (ToLower s) = ToUpper s.
Proof.
  unfold ToUpper, ToLower. induction s as [|c s IH]; simpl; [done|].
  by rewrite ascii_upper_lower, IH.
Qed.

Lemma ToLower_ToUpper s : ToLower (ToUpper s) = ToLower s.
Proof.
  unfold ToUpper, ToLower. induction s as [|c s IH]; simpl; [done|].
  by rewrite ascii_lower_upper, IH.
Qed.

(** Folding case and upper-casing identify the same strings. *)
Lemma EqualFold_spec s t : EqualFold s t = true <-> ToUpper s = ToUpper t.
Proof.
  unfold EqualFold. rewrite String.eqb_eq. split; intros H.
  - by rewrite <- (ToUpper_ToLower s), H, ToUpper_ToLower.
  - by rewrite <- (ToLower_ToUpper s), H, ToLower_ToUpper.
Qed.

(** *** Splitting and joining *)

Fixpoint free_of (sep : ascii) (s : string) : bool :=
  match s with
  | EmptyString => true
  | String c s' => negb (Ascii.eqb c sep) && free_of sep s'
  end.

Lemma Split_free sep s : free_of sep s = true -> Split sep s = [s].
Proof.
  induction s as [|c s IH]; simpl; [done|]. intros H; reflect.
  by rewrite H, IH.
Qed.

Lemma Split_app sep s t :
  free_of sep s = true -> Split sep (s ++ String sep t)%string = s :: Split sep t.
Proof.
  induction s as [|c s IH]; simpl.
  - by rewrite Ascii.eqb_refl.
  - intros H; reflect. by rewrite H, IH.
Qed.

Lemma Split_Join sep l :
  l <> [] -> Forall (fun s => free_of sep s = true) l ->
  Split sep (Join (String sep EmptyString) l) = l.
Proof.
  intros Hne Hl. induction Hl as [|s l Hs Hl IH]; [done|].
  destruct l as [|s' l]; [by apply Split_free|].
  change (Join (String sep "") (s :: s' :: l))
    with (s ++ String sep (Join (String sep "") (s' :: l)))%string.
  rewrite Split_app by done. by rewrite IH.
Qed.

Lemma free_of_app sep s t :
  free_of sep (s ++ t)%string = free_of sep s && free_of sep t.
Proof. induction s as [|c s IH]; simpl; [done|]. by rewrite IH, andb_assoc. Qed.

Lemma length_append s t : String.length (s ++ t) = (String.length s + String.length t)%nat.
Proof. induction s as [|c s IH]; simpl; [done|]. by rewrite IH. Qed.

Lemma append_inj_l (s t u : string) : (s ++ u)%string = (t ++ u)%string -> s = t.
Proof.
  revert t. induction s as [|c s IH]; intros [|d t] H.
  - done.
  - apply (f_equal String.length) in H. rewrite !length_append in H. simpl in H. lia.
  - apply (f_equal String.length) in H. rewrite !length_append in H. simpl in H. lia.
  - injection H as -> H. f_equal. by apply IH.
Qed.

Lemma has_prefix_append p t : has_prefix p (p ++ t)%string = true.
Proof. induction p as [|c p IH]; simpl; [done|]. by rewrite Ascii.eqb_refl. Qed.

(** ** Decimal numbers *)

Lemma digit_value_pretty (x : N) : (x < 10)%N -> digit_value (pretty_N_char x) = Some (Z.of_N x).
Proof.
  intros H. assert (x = 0 \/ x = 1 \/ x = 2 \/ x = 3 \/ x = 4 \/ x = 5 \/ x = 6 \/ x = 7 \/ x = 8 \/ x = 9)%N
    as Hx by lia. destruct Hx as [->|[->|[->|[->|[->|[->|[->|[->|[->| ->]]]]]]]]]; done.
Qed.

Lemma digits_value_pretty_go (x : N) s : digits_value 0 (pretty_N_go x s) = digits_value (Z.of_N x) s.
Proof.
  revert s. induction (N.lt_wf_0 x) as [x _ IH]. intros s.
  destruct (decide (0 < x)%N) as [Hx|Hx].
  - rewrite pretty_N_go_step by done. rewrite IH by (apply N.div_lt; lia). simpl.
    rewrite digit_value_pretty by (apply N.mod_lt; lia). f_equal.
    pose proof (N.div_mod x 10 ltac:(lia)). lia.
  - assert (x = 0%N) as -> by lia. by rewrite pretty_N_go_0.
Qed.

Lemma digits_value_pretty (x : N) : digits_value 0 (pretty x) = Some (Z.of_N x).
Proof.
  unfold pretty, pretty_N. case_decide as H; [by rewrite H|]. apply digits_value_pretty_go.
Qed.

(** Digits that have a value do not start with a sign. *)
Lemma digits_value_cons (x : N) s :
  digits_value 0 s = Some (Z.of_N x) -> s <> EmptyString ->
  match s with String "-" _ => False | String "+" _ => False | _ => True end.
Proof.
  destruct s as [|c s]; [done|]. intros H _.
  assert (forall c', digit_value c' = None -> c <> c') as Hc.
  { intros c' Hd ->. simpl in H. by rewrite Hd in H. }
  pose proof (Hc "-"%char eq_refl). pose proof (Hc "+"%char eq_refl).
  repeat (split_match; try done).
Qed.

(** [strconv.Atoi] reads what [%d] prints. *)
Lemma Atoi_sprint_d n : in_int64 n -> Atoi (sprint_d n) = Some n.
Proof.
  intros Hn. unfold in_int64 in Hn. unfold sprint_d.
  assert (forall x : N, (0 < x)%N -> (pretty x : string) <> EmptyString) as Hne.
  { intros x Hx He. pose proof (digits_value_pretty x) as H. rewrite He in H. simpl in H.
    injection H. lia. }
  assert (forall (x : N) (neg : bool), (0 < x)%N -> in_int64 (if neg then - Z.of_N x else Z.of_N x) ->
    match (pretty x : string) with
    | EmptyString => None
    | _ => match digits_value 0 (pretty x) with
           | Some n => let v := if neg then - n else n in
                       if (- 2 ^ 63 <=? v) && (v <? 2 ^ 63) then Some v else None
           | None => None
           end
    end = Some (if neg then - Z.of_N x else Z.of_N x)) as Hun.
  { intros x neg Hx Hr. rewrite digits_value_pretty. specialize (Hne x Hx). unfold in_int64 in Hr.
    destruct (pretty x : string); [done|]. cbv zeta.
    destruct neg; cbv iota in Hr; (destruct (_ && _) eqn:E; [done|]); apply andb_false_iff in E as [E|E]; reflect; lia. }
  destruct n as [|p|p]; [done| |].
  - pose proof (Hun (N.pos p) false ltac:(lia) ltac:(unfold in_int64; lia)) as H.
    change (pretty (Z.pos p)) with (pretty (N.pos p)).
    pose proof (digits_value_cons (N.pos p) (pretty (N.pos p)) (digits_value_pretty _) (Hne (N.pos p) eq_refl)) as Hc.
    unfold Atoi. revert Hc H. generalize (pretty (N.pos p)). intros s Hc H.
    repeat (split_match; try done).
  - pose proof (Hun (N.pos p) true ltac:(lia) ltac:(unfold in_int64; lia)) as H.
    exact H.
Qed.

(** ** Slices and maps ([slices.EqualFunc], [sort.Slice], [range] over a map)

    The package's sort is not stable and its order of equal elements is not
    specified: it is a class, of which merge sort is an instance.  So is the order
    in which a map is iterated. *)

(** The iteration order of a map with these keys, which the language leaves open. *)
Class MapOrder := {
  map_order : list string -> list string;
  map_order_perm l : map_order l ≡ₚ l;
}.

(** [slices.EqualFunc]. *)
Fixpoint EqualFunc {A} (eq : A -> A -> bool) (l k : list A) : bool :=
  match l, k with
  | [], [] => true
  | x :: l', y :: k' => eq x y && EqualFunc eq l' k'
  | _, _ => false
  end.

(** [sort.Slice]: for a strict weak order it sorts; which of the sorted orders it
    finds is left open. *)
Class SortSlice := {
  sort_Slice {A} (less : A -> A -> bool) (l : list A) : list A;
  sort_Slice_perm {A} (less : A -> A -> bool) l : sort_Slice less l ≡ₚ l;
  sort_Slice_sorted {A} (less : A -> A -> bool) l :
    (forall x y, less x y = true -> less y x = false) ->
    (forall x y z, less x y = false -> less y z = false -> less x z = false) ->
    StronglySorted (fun x y => less y x = false) (sort_Slice less l);
}.

Module MergeSort.
Definition not_after {A} (less : A -> A -> bool) (x y : A) : Prop := less y x = false.
#[export] Instance not_after_dec {A} (less : A -> A -> bool) : RelDecision (not_after less).
Proof. unfold RelDecision, not_after. apply _. Defined.

Lemma merge_sort_sorted {A} (less : A -> A -> bool) l :
  (forall x y, less x y = true -> less y x = false) ->
  (forall x y z, less x y = false -> less y z = false -> less x z = false) ->
  StronglySorted (not_after less) (merge_sort (not_after less) l).
Proof.
  intros Hasym Htrans. assert (Transitive (not_after less)) by (intros x y z Hxy Hyz; exact (Htrans z y x Hyz Hxy)).
  assert (Total (not_after less)) by (intros x y; unfold not_after; destruct (less y x) eqn:E; [right; by apply Hasym|by left]).
  apply (StronglySorted_merge_sort (not_after less)).
Qed.

(** Merge sort is one of the ways to sort. *)
#[export] Instance merge_sort_slice : SortSlice := {|
  sort_Slice A less l := merge_sort (not_after less) l;
  sort_Slice_perm A less l := merge_sort_Permutation (not_after less) l;
  sort_Slice_sorted A less l := merge_sort_sorted less l;
|}.
End MergeSort.
