(* ===== verification/GoTime.v ===== *)
(** * Go times

    The part of Go's [time] package that the modelled code uses.

    A [time] is an instant (nanoseconds since the Unix epoch) together with the
    location it is displayed in, as in Go.  A location is the list of its
    offset transitions, as in a tz database entry.  Year, month and day are
    represented by the civil day number (days since 1970-01-01), which is what
    [time.Date] computes from them and what they are computed from; the code
    only ever passes the three of one time on to [time.Date] together.
    [time.Duration] is a [Z] in the range of [int64]. *)
From S2P Require Import Prelude GoString.
From Stdlib Require Import Lia.
From Stdlib Require Import SpecFloat Lia.

Local Open Scope Z_scope.

Definition Nanosecond : Z := 1.
Definition Second : Z := 10 ^ 9.
Definition Minute : Z := 60 * Second.
Definition Hour : Z := 60 * Minute.

(** ** Locations *)

Record Location := mkLocation {
  loc_first : Z;              (* offset before the first transition, seconds *)
  loc_trans : list (Z * Z);   (* (unix second, offset from then on), ascending *)
}.

Definition UTC : Location := mkLocation 0 [].

(** [Location.lookup]: the offset in force at a Unix second, and the half-open
    interval on which it is ([None]: unbounded). *)
Fixpoint lookup_from (off : Z) (start : option Z) (trans : list (Z * Z)) (sec : Z)
  : Z * option Z * option Z :=
  match trans with
  | [] => (off, start, None)
  | (t, off') :: trans' =>
      if sec <? t then (off, start, Some t)
      else lookup_from off' (Some t) trans' sec
  end.

Definition zone_lookup (l : Location) (sec : Z) : Z * option Z * option Z :=
  lookup_from (loc_first l) None (loc_trans l) sec.

Definition zone_offset (l : Location) (sec : Z) : Z := (zone_lookup l sec).1.1.

(** ** Instants *)

Record time := mkTime { unix_ns : Z; zone : Location }.

(** [time.Time{}]: January 1, year 1, 00:00:00 UTC. *)
Definition zero_ns : Z := -62135596800 * Second.
Definition zero_time : time := mkTime zero_ns UTC.

Definition IsZero (t : time) : bool := unix_ns t =? zero_ns.
Definition Before (a b : time) : bool := unix_ns a <? unix_ns b.
Definition After (a b : time) : bool := unix_ns b <? unix_ns a.
Definition Equal (a b : time) : bool := unix_ns a =? unix_ns b.
Definition Add (t : time) (d : Z) : time := mkTime (unix_ns t + d) (zone t).
Definition In (t : time) (l : Location) : time := mkTime (unix_ns t) l.

(** [t.Sub(u)] saturates at the bounds of [time.Duration]. *)
Definition Sub (t u : time) : Z :=
  Z.max (- 2 ^ 63) (Z.min (2 ^ 63 - 1) (unix_ns t - unix_ns u)).

(** Seconds on the local clock, and what the accessors derive from them. *)
Definition local_sec (t : time) : Z :=
  let sec := unix_ns t / Second in sec + zone_offset (zone t) sec.
Definition civil_day (t : time) : Z := local_sec t / 86400.
Definition sec_of_day (t : time) : Z := local_sec t mod 86400.
Definition time_Hour (t : time) : Z := sec_of_day t / 3600.
Definition time_Minute (t : time) : Z := sec_of_day t mod 3600 / 60.
Definition time_Nanosecond (t : time) : Z := unix_ns t mod Second.

(** [Weekday]: 0 is Sunday; 1970-01-01 was a Thursday. *)
Definition Weekday (t : time) : Z := (civil_day t + 4) mod 7.

(** [strings.ToUpper(t.Weekday().String()[:3])]. *)
Definition weekday_abbrev (d : Z) : string :=
  match d with
  | 0 => "SUN" | 1 => "MON" | 2 => "TUE" | 3 => "WED"
  | 4 => "THU" | 5 => "FRI" | _ => "SAT"
  end.

(** [time.Date(y, m, d, ...)] for the civil day [day] and [secs] seconds into
    it: the offset is guessed by reading the wall clock as UTC, and looked up
    again when the guess does not cover the instant it yields. *)
Definition Date (day secs nsec : Z) (l : Location) : time :=
  let u := day * 86400 + secs in
  let '(off, start, stop) := zone_lookup l u in
  if off =? 0 then mkTime (u * Second + nsec) l
  else
    let utc := u - off in
    let before_start := match start with Some s => utc <? s | None => false end in
    let past_end := match stop with Some e => e <=? utc | None => false end in
    let off' := if before_start || past_end then zone_offset l utc else off in
    mkTime ((u - off') * Second + nsec) l.

(** [t.AddDate(0, 0, n)]. *)
Definition AddDate (t : time) (n : Z) : time :=
  Date (civil_day t + n) (sec_of_day t) (time_Nanosecond t) (zone t).

(** ** Lemmas *)

Lemma Second_pos : 0 < Second.
Proof. reflexivity. Qed.

Lemma sec_of_day_bound t : 0 <= sec_of_day t < 86400.
Proof. apply Z.mod_pos_bound. lia. Qed.

Lemma time_Hour_bound t : 0 <= time_Hour t <= 23.
Proof. unfold time_Hour. pose proof (sec_of_day_bound t). divmod. Qed.

Lemma time_Minute_bound t : 0 <= time_Minute t <= 59.
Proof. unfold time_Minute. pose proof (sec_of_day_bound t). divmod. Qed.

Lemma Weekday_bound t : 0 <= Weekday t < 7.
Proof. apply Z.mod_pos_bound. lia. Qed.

(** The minute of the day is what the code computes as [Hour()*60+Minute()]. *)
Lemma minute_of_day t : time_Hour t * 60 + time_Minute t = sec_of_day t / 60.
Proof. unfold time_Hour, time_Minute. pose proof (sec_of_day_bound t). divmod. Qed.

#[export] Hint Resolve time_Hour_bound time_Minute_bound Weekday_bound sec_of_day_bound : hib.

(** *** Locations without transitions *)

Definition fixed_zone (l : Location) : Prop := loc_trans l = [].

Section fixed.
Context (l : Location) (Hl : fixed_zone l).

Lemma fixed_lookup sec : zone_lookup l sec = (loc_first l, None, None).
Proof using Hl. unfold zone_lookup. by rewrite Hl. Qed.

Lemma fixed_offset sec : zone_offset l sec = loc_first l.
Proof using Hl. unfold zone_offset. by rewrite fixed_lookup. Qed.

Lemma fixed_Date day secs nsec :
  Date day secs nsec l =
  mkTime ((day * 86400 + secs - loc_first l) * Second + nsec) l.
Proof using Hl.
  unfold Date. rewrite fixed_lookup. destruct (loc_first l =? 0) eqn:H; reflect.
  - rewrite H. do 2 f_equal. lia.
  - done.
Qed.

Lemma fixed_local_sec ns : local_sec (mkTime ns l) = ns / Second + loc_first l.
Proof using Hl. unfold local_sec. simpl. by rewrite fixed_offset. Qed.

Lemma fixed_Date_local day secs nsec :
  0 <= nsec < Second ->
  local_sec (Date day secs nsec l) = day * 86400 + secs.
Proof using Hl.
  intros Hn. rewrite fixed_Date, fixed_local_sec.
  rewrite Z.div_add_l by (unfold Second; lia).
  rewrite (Z.div_small nsec) by done. lia.
Qed.

Lemma fixed_Date_day day secs nsec :
  0 <= secs < 86400 -> 0 <= nsec < Second ->
  civil_day (Date day secs nsec l) = day.
Proof using Hl.
  intros. unfold civil_day. rewrite fixed_Date_local by done.
  rewrite Z.div_add_l by lia. rewrite Z.div_small; lia.
Qed.

Lemma fixed_Date_sec day secs nsec :
  0 <= secs < 86400 -> 0 <= nsec < Second ->
  sec_of_day (Date day secs nsec l) = secs.
Proof using Hl.
  intros. unfold sec_of_day. rewrite fixed_Date_local by done.
  rewrite Z.add_comm, Z_mod_plus_full. apply Z.mod_small. lia.
Qed.

(** A time and the civil fields it displays determine each other. *)
Lemma fixed_Date_fields t :
  zone t = l ->
  Date (civil_day t) (sec_of_day t) (time_Nanosecond t) l = t.
Proof using Hl.
  intros Ht. rewrite fixed_Date. destruct t as [ns z]; simpl in *; subst z.
  f_equal. unfold civil_day, sec_of_day, time_Nanosecond. simpl.
  rewrite fixed_local_sec. unfold Second in *. divmod.
Qed.
End fixed.

(** ** [time.Parse(time.RFC3339, s)] and [k8sutil.ShortenName]

    The timestamps of the annotations: YYYY-MM-DDTHH:MM:SS, an optional fraction
    of a second, and Z or a numeric offset; and the shortening of names
    ([pkg/k8sutil/naming.go]).  Two leniencies of Go's parser are left out: a
    comma before the fraction and a one-digit hour. *)

(** Days since 1970-01-01 of a civil date of the proleptic Gregorian calendar. *)
Definition days_from_civil (y m d : Z) : Z :=
  let y' := if m <=? 2 then y - 1 else y in
  let era := y' / 400 in
  let yoe := y' - era * 400 in
  let doy := (153 * (if 2 <? m then m - 3 else m + 9) + 2) / 5 + d - 1 in
  let doe := yoe * 365 + yoe / 4 - yoe / 100 + doy in
  era * 146097 + doe - 719468.

Definition leap_year (y : Z) : bool :=
  (y mod 4 =? 0) && (negb (y mod 100 =? 0) || (y mod 400 =? 0)).

Definition days_in_month (y m : Z) : Z :=
  if m =? 2 then (if leap_year y then 29 else 28)
  else if (m =? 4) || (m =? 6) || (m =? 9) || (m =? 11) then 30 else 31.

(** The next [n] digits. *)
Fixpoint take_digits (n : nat) (acc : Z) (s : string) : option (Z * string) :=
  match n with
  | O => Some (acc, s)
  | S n' =>
      match s with
      | String c s' => d ← digit_value c; take_digits n' (10 * acc + d) s'
      | EmptyString => None
      end
  end.

Definition expect (c : ascii) (s : string) : option string :=
  match s with
  | String c' s' => if Ascii.eqb c c' then Some s' else None
  | EmptyString => None
  end.

(** The digits of a fraction, as nanoseconds: what follows the ninth is dropped. *)
Fixpoint fraction (weight acc : Z) (s : string) : Z * string :=
  match s with
  | String c s' =>
      match digit_value c with
      | Some d => fraction (weight / 10) (acc + weight * d) s'
      | None => (acc, s)
      end
  | EmptyString => (acc, s)
  end.

(** The offset east of UTC in seconds, at the end of the text. *)
Definition parse_offset (s : string) : option Z :=
  match s with
  | String "Z" EmptyString => Some 0
  | String sign s' =>
      '(h, s1) ← take_digits 2 0 s'; s2 ← expect ":" s1; '(m, s3) ← take_digits 2 0 s2;
      if (24 <? h) || (60 <? m) || negb (s3 =? "")%string then None
      else if Ascii.eqb sign "+" then Some (h * 3600 + m * 60)
      else if Ascii.eqb sign "-" then Some (- (h * 3600 + m * 60))
      else None
  | EmptyString => None
  end.

Definition parse_RFC3339 (s : string) : option time :=
  '(y, s) ← take_digits 4 0 s; s ← expect "-" s;
  '(mo, s) ← take_digits 2 0 s; s ← expect "-" s;
  '(d, s) ← take_digits 2 0 s; s ← expect "T" s;
  '(h, s) ← take_digits 2 0 s; s ← expect ":" s;
  '(mi, s) ← take_digits 2 0 s; s ← expect ":" s;
  '(sec, s) ← take_digits 2 0 s;
  let '(ns, s) :=
    match s with
    | String "." (String c s' as f) =>
        match digit_value c with Some _ => fraction 100000000 0 f | None => (0, s) end
    | _ => (0, s)
    end in
  off ← parse_offset s;
  if (mo <? 1) || (12 <? mo) || (d <? 1) || (days_in_month y mo <? d)
     || (23 <? h) || (59 <? mi) || (59 <? sec) then None
  else
    Some (mkTime ((days_from_civil y mo d * 86400 + h * 3600 + mi * 60 + sec - off) * Second + ns)
            (mkLocation off [])).

Example parse_epoch : parse_RFC3339 "1970-01-01T00:00:00Z" = Some (mkTime 0 UTC).
Proof. reflexivity. Qed.
Example parse_offset_example :
  option_map unix_ns (parse_RFC3339 "2024-02-29T23:59:59.5+07:00") = Some 1709225999500000000.
Proof. reflexivity. Qed.
Example parse_not_a_date : parse_RFC3339 "2023-02-29T00:00:00Z" = None.
Proof. reflexivity. Qed.

(** ** [ShortenName] *)

Definition isVowel (c : ascii) : bool :=
  Ascii.eqb c "a" || Ascii.eqb c "e" || Ascii.eqb c "i" || Ascii.eqb c "o" || Ascii.eqb c "u".

Fixpoint drop_vowels (s : string) : string :=
  match s with
  | EmptyString => EmptyString
  | String c s' => if isVowel c then drop_vowels s' else String c (drop_vowels s')
  end.

Definition shorten_part (part : string) : string :=
  match part with
  | EmptyString => EmptyString
  | String c rest => String c (drop_vowels rest)
  end.

(** [res[:maxLen]] of a longer string. *)
Fixpoint truncate (n : nat) (s : string) : string :=
  match n, s with
  | S n', String c s' => String c (truncate n' s')
  | _, _ => EmptyString
  end.

Definition ShortenName (s : string) (maxLen : nat) : string :=
  if (String.length s <=? maxLen)%nat then s
  else
    let res := Join "-" (map shorten_part (Split "-" s)) in
    if (String.length res <=? maxLen)%nat then res else truncate maxLen res.

Example shorten_vowels : ShortenName "runner-hibernateplan-shutdown" 25 = "rnnr-hbrntpln-shtdwn".
Proof. reflexivity. Qed.

Lemma length_truncate n s : (String.length (truncate n s) <= n)%nat.
Proof.
  revert s. induction n as [|n IH]; intros [|c s]; simpl; try lia. specialize (IH s). lia.
Qed.

Lemma length_ShortenName s n : (String.length (ShortenName s n) <= n)%nat.
Proof.
  unfold ShortenName. destruct (Nat.leb_spec (String.length s) n); [done|].
  set (res := Join "-" (map shorten_part (Split "-" s))).
  destruct (Nat.leb_spec (String.length res) n); [done|]. apply length_truncate.
Qed.

(** ** Durations ([time.ParseDuration])

    The floating-point product of a fraction with its unit is computed with the
    binary64 arithmetic of the library. *)

Definition uint64 (n : Z) : Z := n mod 2 ^ 64.

(** [float64(n)], and the conversion of a number of that type to an integer. *)
Definition float64_of (n : Z) : spec_float := binary_normalize 53 1024 n 0 false.
Definition float64_trunc (x : spec_float) : Z :=
  match x with
  | S754_finite neg m e => let n := Z.shiftl (Zpos m) e in if neg then - n else n
  | _ => 0
  end.

(** [leadingInt]: [None] is an overflow. *)
Fixpoint leadingInt (x : Z) (s : string) : option (Z * string) :=
  match s with
  | EmptyString => Some (x, s)
  | String c s' =>
      match digit_value c with
      | None => Some (x, s)
      | Some d =>
          if 2 ^ 63 / 10 <? x then None
          else if 2 ^ 63 <? 10 * x + d then None
          else leadingInt (10 * x + d) s'
      end
  end.

(** [leadingFraction]: what no longer fits is dropped. *)
Fixpoint leadingFraction (overflow : bool) (x : Z) (scale : spec_float) (s : string) : Z * spec_float * string :=
  match s with
  | EmptyString => (x, scale, s)
  | String c s' =>
      match digit_value c with
      | None => (x, scale, s)
      | Some d =>
          if overflow then leadingFraction true x scale s'
          else if (2 ^ 63 - 1) / 10 <? x then leadingFraction true x scale s'
          else if 2 ^ 63 <? 10 * x + d then leadingFraction true x scale s'
          else leadingFraction false (10 * x + d) (SFmul 53 1024 scale (float64_of 10)) s'
      end
  end.

(** The unit: everything up to the next digit or point. *)
Fixpoint span_unit (s : string) : string * string :=
  match s with
  | EmptyString => ("", s)%string
  | String c s' =>
      if Ascii.eqb c "." || bool_decide (is_Some (digit_value c)) then ("", s)%string
      else let '(u, r) := span_unit s' in (String c u, r)
  end.

Definition unitMap (u : string) : option Z :=
  if (u =? "ns")%string then Some Nanosecond
  else if (u =? "us")%string || (u =? "µs")%string || (u =? "μs")%string then Some 1000
  else if (u =? "ms")%string then Some 1000000
  else if (u =? "s")%string then Some Second
  else if (u =? "m")%string then Some Minute
  else if (u =? "h")%string then Some Hour
  else None.

(** The point and the fraction, and whether there were digits. *)
Definition fraction_part (s : string) : Z * spec_float * string * bool :=
  match s with
  | String "." s' =>
      let '(f, scale, r) := leadingFraction false 0 (float64_of 1) s' in
      (f, scale, r, negb (String.length s' =? String.length r)%nat)
  | _ => (0, float64_of 1, s, false)
  end.

(** One number with its unit. *)
Definition duration_part (s : string) : option (Z * string) :=
  match s with
  | EmptyString => None
  | String c _ =>
      if negb (Ascii.eqb c "." || bool_decide (is_Some (digit_value c))) then None
      else
        '(v, s1) ← leadingInt 0 s;
        let pre := negb (String.length s =? String.length s1)%nat in
        let '(f, scale, s2, post) := fraction_part s1 in
        if negb (pre || post) then None
        else
          let '(u, s3) := span_unit s2 in
          if (u =? "")%string then None
          else
            unit ← unitMap u;
            if 2 ^ 63 / unit <? v then None
            else
              let v := v * unit in
              let v :=
                if 0 <? f
                then uint64 (v + float64_trunc (SFmul 53 1024 (float64_of f) (SFdiv 53 1024 (float64_of unit) scale)))
                else v in
              if 2 ^ 63 <? v then None else Some (v, s3)
  end.

Fixpoint duration_loop (fuel : nat) (d : Z) (s : string) : res unit Z :=
  match s with
  | EmptyString => Ok d
  | _ =>
      match fuel with
      | O => NoReturn
      | S fuel' =>
          match duration_part s with
          | None => Err tt
          | Some (v, s') => if 2 ^ 63 <? uint64 (d + v) then Err tt else duration_loop fuel' (uint64 (d + v)) s'
          end
      end
  end.

Definition duration_sign (s : string) : bool * string :=
  match s with
  | String "-" s' => (true, s')
  | String "+" s' => (false, s')
  | _ => (false, s)
  end.

(** The texts of the errors are left out. *)
Definition ParseDuration (s : string) : res unit Z :=
  let '(neg, s') := duration_sign s in
  if (s' =? "0")%string then Ok 0
  else if (s' =? "")%string then Err tt
  else
    match duration_loop (String.length s') 0 s' with
    | Ok d => if neg then Ok (- d) else if 2 ^ 63 - 1 <? d then Err tt else Ok d
    | r => r
    end.

(** [Duration.Hours]; the division and the remainder of Go truncate. *)
Definition Hours (d : Z) : spec_float :=
  SFadd 53 1024 (float64_of (Z.quot d Hour)) (SFdiv 53 1024 (float64_of (Z.rem d Hour)) (float64_of (3600 * 1000000000))).

(** ** It ends *)

Lemma leadingInt_length x s v r : leadingInt x s = Some (v, r) -> (String.length r <= String.length s)%nat.
Proof.
  revert x. induction s as [|c s IH]; intros x; cbn [leadingInt]; [by intros [= <- <-]|].
  destruct (digit_value c); [|by intros [= <- <-] ].
  destruct (_ <? x); [done|]. destruct (_ <? _); [done|]. intros H%IH. cbn. lia.
Qed.

Lemma leadingFraction_length o x sc s : (String.length (leadingFraction o x sc s).2 <= String.length s)%nat.
Proof.
  revert o x sc. induction s as [|c s IH]; intros o x sc; cbn [leadingFraction]; [done|].
  destruct (digit_value c); [|done].
  destruct o; [|destruct (_ <? x); [|destruct (_ <? _)] ]; (etrans; [apply IH|cbn; lia]).
Qed.

Lemma span_unit_length s u r : span_unit s = (u, r) -> (String.length u + String.length r = String.length s)%nat.
Proof.
  revert u r. induction s as [|c s IH]; intros u r; cbn [span_unit]; [by intros [= <- <-]|].
  destruct (_ || _); [by intros [= <- <-]|]. destruct (span_unit s) as [u' r'].
  intros [= <- <-]. cbn. by rewrite (IH u' r').
Qed.

Lemma fraction_part_length s : (String.length (fraction_part s).1.2 <= String.length s)%nat.
Proof.
  destruct s as [|[ [] [] [] [] [] [] [] [] ] s]; try (cbn; lia). cbn [fraction_part].
  pose proof (leadingFraction_length false 0 (float64_of 1) s) as Hl.
  destruct (leadingFraction _ _ _ _) as [ [f scale] r]. cbn in *. lia.
Qed.

(** Each part takes at least one character. *)
Lemma duration_part_length s v r : duration_part s = Some (v, r) -> (String.length r < String.length s)%nat.
Proof.
  unfold duration_part. destruct s as [|c s]; [done|]. destruct (negb _); [done|].
  destruct (leadingInt 0 (String c s)) as [ [i s1]|] eqn:E1; [|done]. cbn [mbind option_bind].
  apply leadingInt_length in E1.
  pose proof (fraction_part_length s1) as Hq.
  destruct (fraction_part s1) as [ [ [f scale] s2] post]. cbn [fst snd] in Hq. destruct (negb _); [done|].
  destruct (span_unit s2) as [u s3] eqn:Eu. apply span_unit_length in Eu.
  destruct (String.eqb_spec u ""); [done|]. destruct (unitMap u) as [n0|]; [|done]. cbn [mbind option_bind].
  destruct (_ <? i); [done|]. case_match; [done|]. intros [= _ <-].
  destruct u; [done|]. cbn [String.length] in *. lia.
Qed.

Lemma duration_loop_returns fuel d s : (String.length s <= fuel)%nat -> duration_loop fuel d s <> NoReturn.
Proof.
  revert d s. induction fuel as [|fuel IH]; intros d s Hs; [destruct s; [done|cbn in Hs; lia]|].
  destruct s as [|c s]; [done|]. cbn [duration_loop].
  destruct (duration_part (String c s)) as [ [v r]|] eqn:E; [|done]. apply duration_part_length in E.
  destruct (_ <? _); [done|]. apply IH. lia.
Qed.

Lemma ParseDuration_returns s : ParseDuration s <> NoReturn.
Proof.
  unfold ParseDuration. destruct (duration_sign s) as [neg s'].
  destruct (s' =? "0")%string; [done|]. destruct (s' =? "")%string; [done|].
  pose proof (duration_loop_returns (String.length s') 0 s' ltac:(done)) as H.
  destruct (duration_loop _ _ _); [|done|done|done]. destruct neg; [done|]. by destruct (_ <? _).
Qed.

Lemma ParseDuration_no_panic s : ParseDuration s <> Panic.
Proof.
  assert (forall fuel d t, duration_loop fuel d t <> Panic) as Hl.
  { induction fuel as [|fuel IH]; intros d t; [by destruct t|]. destruct t; [done|]. cbn [duration_loop].
    destruct (duration_part _) as [[v r]|]; [|done]. destruct (_ <? _); [done|]. apply IH. }
  unfold ParseDuration. destruct (duration_sign s) as [neg s'].
  destruct (s' =? "0")%string; [done|]. destruct (s' =? "")%string; [done|].
  specialize (Hl (String.length s') 0 s').
  destruct (duration_loop _ _ _); [|done|done|done]. destruct neg; [done|]. by destruct (_ <? _).
Qed.

Example duration_samples :
  map ParseDuration ["90m"; "1h30m"; "1.5h"; "-2s"; "0"; "1"; "1d"; ""; ".5ms"; "100us"; "9223372036854775808ns"] =
  [Ok (90 * Minute); Ok (90 * Minute); Ok (90 * Minute); Ok (-2 * Second); Ok 0; Err tt; Err tt; Err tt;
   Ok 500000; Ok 100000; Err tt].
Proof. vm_compute. reflexivity. Qed.
