(* ===== verification/Windows.v ===== *)
(** * Off-hour windows ([internal/scheduler/windows.go])

    Parsing of "HH:MM" times and day names, the wall-clock tests for "inside a
    window", "inside the lead time before a window" and "inside the grace period
    of a window boundary", and the translation of a window to a pair of cron
    expressions. *)
From S2P Require Import Prelude GoString GoTime.
From Stdlib Require Import Lia.

Local Open Scope Z_scope.

(** The errors of [parseTime], and of the schedule evaluation built on it. *)
Inductive TimeError : Type :=
| ErrTimeFormat (s : string)
| ErrHour (s : string)
| ErrMinute (s : string)
| ErrHourRange (h : Z)
| ErrMinuteRange (m : Z).

Inductive SchedError : Type :=
| ErrNoDays
| ErrStartTime (e : TimeError)
| ErrEndTime (e : TimeError)
| ErrSameTimes (start stop : string)
| ErrInvalidDay (day : string)
| ErrConvertWindow (e : SchedError)
| ErrTimezone (tz : string)
| ErrHibernateCron (c : string)
| ErrWakeUpCron (c : string)
| ErrExceptionWindows (e : SchedError).

Record OffHourWindow := mkWindow {
  Start : string;               (* HH:MM *)
  Stop : string;                (* HH:MM; the field End *)
  DaysOfWeek : list string;     (* MON, TUE, ... *)
}.

Record ScheduleWindow := mkScheduleWindow {
  sw_Windows : list OffHourWindow;
  HibernateCron : string;
  WakeUpCron : string;
  Timezone : string;
}.

Inductive WindowBoundary := StartBoundary | EndBoundary.

(** ** Parsing *)

Definition parseTime (timeStr : string) : res TimeError (Z * Z) :=
  match Split ":"%char timeStr with
  | [h; m] =>
      match Atoi h with
      | None => Err (ErrHour timeStr)
      | Some hour =>
          match Atoi m with
          | None => Err (ErrMinute timeStr)
          | Some min =>
              if (hour <? 0) || (23 <? hour) then Err (ErrHourRange hour)
              else if (min <? 0) || (59 <? min) then Err (ErrMinuteRange min)
              else Ok (hour, min)
          end
      end
  | _ => Err (ErrTimeFormat timeStr)
  end.

(** [day[:3]] panics on a shorter string. *)
Definition parseWeekday (day : string) : res SchedError (option Z) :=
  match slice_to 3 day with
  | None => Panic
  | Some prefix =>
      let d := ToUpper prefix in
      Ok (if (d =? "SUN")%string then Some 0
          else if (d =? "MON")%string then Some 1
          else if (d =? "TUE")%string then Some 2
          else if (d =? "WED")%string then Some 3
          else if (d =? "THU")%string then Some 4
          else if (d =? "FRI")%string then Some 5
          else if (d =? "SAT")%string then Some 6
          else None)
  end.

(** The map literal of [convertDaysToCron]. *)
Definition dayMap (dayUpper : string) : option Z :=
  if (dayUpper =? "SUN")%string then Some 0
  else if (dayUpper =? "MON")%string then Some 1
  else if (dayUpper =? "TUE")%string then Some 2
  else if (dayUpper =? "WED")%string then Some 3
  else if (dayUpper =? "THU")%string then Some 4
  else if (dayUpper =? "FRI")%string then Some 5
  else if (dayUpper =? "SAT")%string then Some 6
  else None.

Fixpoint convertDays_loop (days : list string) : res SchedError (list string) :=
  match days with
  | [] => Ok []
  | day :: days' =>
      match dayMap (ToUpper day) with
      | None => Err (ErrInvalidDay day)
      | Some cronDay =>
          let* rest := convertDays_loop days' in
          Ok (sprint_d cronDay :: rest)
      end
  end.

Definition convertDaysToCron (days : list string) : res SchedError string :=
  match days with
  | [] => Err ErrNoDays
  | _ => let* cronDays := convertDays_loop days in Ok (Join "," cronDays)
  end.

Definition cron_line (min hour : Z) (cronDays : string) : string :=
  (sprint_d min ++ " " ++ sprint_d hour ++ " * * " ++ cronDays)%string.

Definition ParseWindowToCron (start stop : string) (days : list string)
  : res SchedError (string * string) :=
  match days with
  | [] => Err ErrNoDays
  | _ =>
      let* '(startHour, startMin) := res_map_err ErrStartTime (parseTime start) in
      let* '(endHour, endMin) := res_map_err ErrEndTime (parseTime stop) in
      if (startHour =? endHour) && (startMin =? endMin)
      then Err (ErrSameTimes start stop)
      else
        let* cronDays := convertDaysToCron days in
        Ok (cron_line startMin startHour cronDays, cron_line endMin endHour cronDays)
  end.

(** ** Wall-clock tests *)

(** The day loop shared by the tests: [strings.EqualFold(day, currentDay)]. *)
Definition dayMatch (w : OffHourWindow) (day : string) : bool :=
  existsb (fun d => EqualFold d day) (DaysOfWeek w).

(** The comparison of the minute of the day against a window: a same-day
    window when it ends after it starts, an overnight window otherwise. *)
Definition minutes_in_window (startMinutes endMinutes current : Z) : bool :=
  if startMinutes <? endMinutes
  then (startMinutes <=? current) && (current <? endMinutes)
  else (startMinutes <=? current) || (current <? endMinutes).

(** One iteration of the loop of [isInTimeWindows]. *)
Definition in_window (now : time) (w : OffHourWindow) : bool :=
  let currentDay := weekday_abbrev (Weekday now) in
  let currentTimeMinutes := time_Hour now * 60 + time_Minute now in
  if negb (dayMatch w currentDay) then false
  else
    match res_ok (parseTime (Start w)), res_ok (parseTime (Stop w)) with
    | Some (startHour, startMin), Some (endHour, endMin) =>
        minutes_in_window (startHour * 60 + startMin) (endHour * 60 + endMin)
          currentTimeMinutes
    | _, _ => false
    end.

Definition isInTimeWindows (windows : list OffHourWindow) (now : time) : bool :=
  existsb (in_window now) windows.

(** One iteration of the loop of [isInLeadTimeWindow].  After noon the next
    day's windows are considered too. *)
Definition in_lead_time (now : time) (leadTimeMinutes : Z) (w : OffHourWindow) : bool :=
  let currentDay := weekday_abbrev (Weekday now) in
  let currentHour := time_Hour now in
  let currentTimeMinutes := currentHour * 60 + time_Minute now in
  let checkDays :=
    currentDay ::
    (if 12 <? currentHour then [weekday_abbrev (Weekday (Add now (24 * Hour)))] else []) in
  if negb (existsb (dayMatch w) checkDays) then false
  else
    match res_ok (parseTime (Start w)) with
    | None => false
    | Some (startHour, startMin) =>
        let startMinutes := startHour * 60 + startMin in
        let lead := startMinutes - leadTimeMinutes in
        let leadStartMinutes := if lead <? 0 then lead + 24 * 60 else lead in
        if leadStartMinutes <? startMinutes
        then (leadStartMinutes <=? currentTimeMinutes) && (currentTimeMinutes <? startMinutes)
        else (leadStartMinutes <=? currentTimeMinutes) || (currentTimeMinutes <? startMinutes)
    end.

(** [int(leadTime.Minutes())] truncates to whole minutes. *)
Definition isInLeadTimeWindow (windows : list OffHourWindow) (now : time) (leadTime : Z) : bool :=
  existsb (in_lead_time now (Z.quot leadTime Minute)) windows.

Definition mostRecentWeekday (now : time) (target : Z) : time :=
  AddDate now (- ((Weekday now - target + 7) mod 7)).

(** [now] is between [t] and [t.Add(grace)], bounds included. *)
Definition within_grace (now t : time) (grace : Z) : bool :=
  (After now t || Equal now t) &&
  (Before now (Add t grace) || Equal now (Add t grace)).

(** One iteration of the inner loop of [isInGraceTimeWindow]. *)
Definition in_grace_day (boundary : WindowBoundary) (w : OffHourWindow)
  (now : time) (grace : Z) (day : string) : res SchedError bool :=
  let* weekday := parseWeekday day in
  match weekday with
  | None => Ok false
  | Some targetDay =>
      let baseDate := mostRecentWeekday now targetDay in
      match boundary with
      | StartBoundary =>
          match res_ok (parseTime (Start w)) with
          | None => Ok false
          | Some (h, m) =>
              let startTime := Date (civil_day baseDate) (h * 3600 + m * 60) 0 (zone now) in
              Ok (within_grace now startTime grace)
          end
      | EndBoundary =>
          match res_ok (parseTime (Stop w)) with
          | None => Ok false
          | Some (h, m) =>
              let endTime := Date (civil_day baseDate) (h * 3600 + m * 60) 0 (zone now) in
              Ok ((Weekday now =? targetDay) && within_grace now endTime grace)
          end
      end
  end.

Definition isInGraceTimeWindow (boundary : WindowBoundary) (windows : list OffHourWindow)
  (now : time) (grace : Z) : res SchedError bool :=
  any_res (fun w => any_res (in_grace_day boundary w now grace) (DaysOfWeek w)) windows.

(** ** Lemmas *)

Lemma parseTime_bounds s h m :
  parseTime s = Ok (h, m) -> 0 <= h <= 23 /\ 0 <= m <= 59.
Proof.
  unfold parseTime. intros H. repeat (split_match_in H; simplify_eq). reflect. lia.
Qed.

#[export] Hint Resolve parseTime_bounds : hib.

(** The number of a day name, as [convertDaysToCron] reads it. *)
Definition dayNumber (day : string) : option Z := dayMap (ToUpper day).

Lemma weekday_cases n :
  0 <= n <= 6 -> n = 0 \/ n = 1 \/ n = 2 \/ n = 3 \/ n = 4 \/ n = 5 \/ n = 6.
Proof. lia. Qed.

Lemma dayMap_abbrev s n : dayMap s = Some n <-> 0 <= n <= 6 /\ s = weekday_abbrev n.
Proof.
  unfold dayMap. split.
  - intros H.
    repeat match type of H with
    | (if String.eqb ?x ?y then _ else _) = _ =>
        destruct (String.eqb_spec x y); [simplify_eq; split; [lia|done]|]
    end. done.
  - intros [Hn ->].
    by destruct (weekday_cases n Hn) as [-> | [-> | [-> | [-> | [-> | [-> | -> ] ] ] ] ] ].
Qed.

Lemma weekday_abbrev_upper n : 0 <= n <= 6 -> ToUpper (weekday_abbrev n) = weekday_abbrev n.
Proof.
  intros Hn. by destruct (weekday_cases n Hn) as [-> | [-> | [-> | [-> | [-> | [-> | -> ] ] ] ] ] ].
Qed.

Lemma dayNumber_bound d n : dayNumber d = Some n -> 0 <= n <= 6.
Proof. intros H. by apply dayMap_abbrev in H as [? _]. Qed.

(** A day name folds to the abbreviation of a weekday exactly when
    [convertDaysToCron] maps it to that weekday. *)
Lemma EqualFold_abbrev d n :
  0 <= n <= 6 -> EqualFold d (weekday_abbrev n) = true <-> dayNumber d = Some n.
Proof.
  intros Hn. unfold dayNumber.
  rewrite EqualFold_spec, weekday_abbrev_upper, dayMap_abbrev by done. naive_solver.
Qed.

Lemma dayMatch_spec w n :
  0 <= n <= 6 ->
  dayMatch w (weekday_abbrev n) = true <-> exists d, d ∈ DaysOfWeek w /\ dayNumber d = Some n.
Proof.
  intros Hn. unfold dayMatch. rewrite existsb_spec.
  by setoid_rewrite EqualFold_abbrev.
Qed.

(** ** Well-formed windows

    What the CRD's validation markers and the admission webhook establish: both
    times parse, they differ, and the days are a non-empty list of day names. *)
Record window_view := mkView { startMin : Z; endMin : Z; dayNums : list Z }.

Definition window_ok (w : OffHourWindow) (v : window_view) : Prop :=
  exists sh sm eh em,
    parseTime (Start w) = Ok (sh, sm) /\ parseTime (Stop w) = Ok (eh, em) /\
    startMin v = sh * 60 + sm /\ endMin v = eh * 60 + em /\
    startMin v <> endMin v /\
    mapM dayNumber (DaysOfWeek w) = Some (dayNums v) /\ dayNums v <> [].

Definition minutes_line (minutes : Z) (days : list Z) : string :=
  cron_line (minutes mod 60) (minutes / 60) (Join "," (map sprint_d days)).

Lemma mapM_dayNumber_elem l ns n :
  mapM dayNumber l = Some ns -> n ∈ ns <-> exists d, d ∈ l /\ dayNumber d = Some n.
Proof.
  intros H. apply mapM_Some in H. induction H as [|d m l ns Hd H IH]; [set_solver|].
  rewrite elem_of_cons, IH. setoid_rewrite elem_of_cons. naive_solver.
Qed.

Lemma window_ok_days w v n :
  window_ok w v -> 0 <= n <= 6 ->
  dayMatch w (weekday_abbrev n) = bool_decide (n ∈ dayNums v).
Proof.
  intros (?&?&?&?&_&_&_&_&_&Hd&_) Hn. apply eq_true_iff_eq.
  rewrite dayMatch_spec, bool_decide_eq_true by done.
  by rewrite (mapM_dayNumber_elem _ _ _ Hd).
Qed.

Lemma window_ok_days_bound w v :
  window_ok w v -> Forall (fun n => 0 <= n <= 6) (dayNums v).
Proof.
  intros (?&?&?&?&_&_&_&_&_&Hd&_). apply Forall_forall. intros n Hn.
  apply (mapM_dayNumber_elem _ _ _ Hd) in Hn as (d & _ & Hn).
  by eapply dayNumber_bound.
Qed.

Lemma window_ok_bounds w v :
  window_ok w v -> 0 <= startMin v < 1440 /\ 0 <= endMin v < 1440.
Proof.
  intros (sh&sm&eh&em&Hs&He&->&->&_).
  apply parseTime_bounds in Hs, He. lia.
Qed.

Lemma convertDays_loop_ok l ns :
  mapM dayNumber l = Some ns -> convertDays_loop l = Ok (map sprint_d ns).
Proof.
  intros H. apply mapM_Some in H. induction H as [|d m l ns Hd H IH]; [done|].
  simpl. unfold dayNumber in Hd. by rewrite Hd, IH.
Qed.

Lemma ParseWindowToCron_ok w v :
  window_ok w v ->
  ParseWindowToCron (Start w) (Stop w) (DaysOfWeek w) =
  Ok (minutes_line (startMin v) (dayNums v), minutes_line (endMin v) (dayNums v)).
Proof.
  intros (sh&sm&eh&em&Hs&He&Hvs&Hve&Hne&Hd&Hnil).
  unfold ParseWindowToCron, minutes_line.
  rewrite Hs, He. simpl. rewrite Hvs, Hve.
  apply parseTime_bounds in Hs, He.
  destruct ((sh =? eh) && (sm =? em)) eqn:E; reflect; [lia|].
  unfold convertDaysToCron. rewrite (convertDays_loop_ok _ _ Hd).
  destruct (DaysOfWeek w) eqn:E'; [exfalso; apply Hnil; by injection Hd|].
  simpl.
  assert (forall h m, 0 <= m <= 59 ->
            (h * 60 + m) mod 60 = m /\ (h * 60 + m) / 60 = h) as Hdm by (intros; divmod).
  destruct (Hdm sh sm) as [-> ->]; [lia|].
  by destruct (Hdm eh em) as [-> ->]; [lia|].
Qed.

(** The wall-clock test on a well-formed window. *)
Lemma in_window_ok w v now :
  window_ok w v ->
  in_window now w =
  bool_decide (Weekday now ∈ dayNums v) &&
  minutes_in_window (startMin v) (endMin v) (sec_of_day now / 60).
Proof.
  intros Hok. unfold in_window. pose proof (Weekday_bound now).
  rewrite (window_ok_days w v) by (done || lia). rewrite minute_of_day.
  destruct Hok as (sh&sm&eh&em&->&->&->&->&_).
  destruct (bool_decide (Weekday now ∈ dayNums v)); done.
Qed.
