(* ===== verification/Evaluate.v ===== *)
(** * Schedule evaluation ([internal/scheduler/schedule.go], [evaluate.go])

    Whether a plan should be hibernated now, and when the next transitions are:
    the evaluation of one window through its pair of cron expressions, the
    OR-combination of several windows, and the composition with the schedule
    exceptions of the plan (replace, then extend, then suspend).

    The cron library and the tz database are outside the repository: they are
    the two classes below.  The instant read from the evaluator's clock is the
    field [Clock] of the evaluator: one evaluation is made at one instant. *)
From S2P Require Import Prelude GoString GoTime Windows.
From Stdlib Require Import Lia.

Local Open Scope Z_scope.

(** The cron library ([github.com/robfig/cron/v3]): a parser for five-field
    expressions and the next activation strictly after a time. *)
Class Cron := {
  CronSchedule : Type;
  cron_Parse : string -> option CronSchedule;
  cron_Next : CronSchedule -> time -> time;
}.

(** [time.LoadLocation]. *)
Class TimezoneDB := { LoadLocation : string -> option Location }.

(** The string type [ExceptionType] has three constants; [ExceptionOther] is any
    other string. *)
Inductive ExceptionType := ExceptionExtend | ExceptionSuspend | ExceptionReplace | ExceptionOther (s : string).
#[export] Instance ExceptionType_eq_dec : EqDecision ExceptionType.
Proof. solve_decision. Defined.

Record Exception := mkException {
  exc_Type : ExceptionType;
  ValidFrom : time;
  ValidUntil : time;
  LeadTime : Z;
  exc_Windows : list OffHourWindow;
}.

Record EvaluationResult := mkResult {
  ShouldHibernate : bool;
  NextHibernateTime : time;
  NextWakeUpTime : time;
  CurrentState : string;
  InGracePeriod : bool;
  GracePeriodEnd : time;
}.

Record ScheduleEvaluator := mkEvaluator { Clock : time; scheduleBuffer : Z }.

Definition state_of (shouldHibernate : bool) : string :=
  if shouldHibernate then "hibernated" else "active".

(** [earlierTime]: the earlier of two times, a zero time being ignored. *)
Definition earlierTime (a b : time) : time :=
  if IsZero a then b else if IsZero b then a else if Before a b then a else b.

(** ** Merging exceptions *)

Definition merge_step (merged m : Exception) : Exception :=
  mkException (exc_Type merged)
    (if Before (ValidFrom m) (ValidFrom merged) then ValidFrom m else ValidFrom merged)
    (if After (ValidUntil m) (ValidUntil merged) then ValidUntil m else ValidUntil merged)
    (if LeadTime merged <? LeadTime m then LeadTime m else LeadTime merged)
    (exc_Windows merged ++ exc_Windows m).

Definition mergeByType (exceptions : list Exception) (t : ExceptionType) : option Exception :=
  match filter (fun e => exc_Type e = t) exceptions with
  | [] => None
  | [m] => Some m
  | (m :: _) as matches =>
      Some (fold_left merge_step matches (mkException t (ValidFrom m) (ValidUntil m) 0 []))
  end.

Definition isExceptionActive (e : ScheduleEvaluator) (exc : Exception) : bool :=
  negb (Before (Clock e) (ValidFrom exc)) && negb (After (Clock e) (ValidUntil exc)).

(** [filterActive]: nil entries and exceptions out of their period are dropped. *)
Fixpoint filterActive (e : ScheduleEvaluator) (exceptions : list (option Exception))
  : list Exception :=
  match exceptions with
  | [] => []
  | Some exc :: l =>
      if isExceptionActive e exc then exc :: filterActive e l else filterActive e l
  | None :: l => filterActive e l
  end.

(** ** The pipeline *)

Definition evaluationStep : Type :=
  option EvaluationResult -> res SchedError (option EvaluationResult).

Definition evaluateWhen (active : bool) (fn : evaluationStep) : evaluationStep :=
  if active then fn else fun prev => Ok prev.

Fixpoint run_stages (stages : list evaluationStep) (result : option EvaluationResult)
  : res SchedError (option EvaluationResult) :=
  match stages with
  | [] => Ok result
  | stage :: stages' => let* result' := stage result in run_stages stages' result'
  end.

Definition runEvaluationPipeline (stages : list evaluationStep) :=
  run_stages stages None.

(** A stage that dereferences its input: a nil pointer panics. *)
Definition deref_stage (f : EvaluationResult -> res SchedError EvaluationResult)
  : evaluationStep :=
  fun prev => match prev with
              | None => Panic
              | Some r => let* r' := f r in Ok (Some r')
              end.

(** ** Suspension windows *)

(** One iteration of the inner loop of [findNextSuspensionStart]. *)
Definition next_start_step (now : time) (daysAhead : Z) (nextStart : time)
  (w : OffHourWindow) : time :=
  let currentTimeMinutes := time_Hour now * 60 + time_Minute now in
  let checkDay := AddDate now daysAhead in
  if negb (dayMatch w (weekday_abbrev (Weekday checkDay))) then nextStart
  else
    match res_ok (parseTime (Start w)) with
    | None => nextStart
    | Some (startHour, startMin) =>
        let startMinutes := startHour * 60 + startMin in
        let startTime :=
          Date (civil_day checkDay) (startHour * 3600 + startMin * 60) 0 (zone now) in
        if (daysAhead =? 0) && (startMinutes <=? currentTimeMinutes) then nextStart
        else if IsZero nextStart || Before startTime nextStart then startTime
        else nextStart
    end.

Definition findNextSuspensionStart (windows : list OffHourWindow) (now : time) : time :=
  let today := fold_left (next_start_step now 0) windows zero_time in
  fold_left (next_start_step now 1) windows today.

(** One iteration of [findSuspensionEnd]: the end of the window when [now] is
    inside it. *)
Definition suspension_end (now : time) (w : OffHourWindow) : option time :=
  let currentDay := weekday_abbrev (Weekday now) in
  let currentTimeMinutes := time_Hour now * 60 + time_Minute now in
  if negb (dayMatch w currentDay) then None
  else
    match res_ok (parseTime (Start w)), res_ok (parseTime (Stop w)) with
    | Some (startHour, startMin), Some (endHour, endMin) =>
        let startMinutes := startHour * 60 + startMin in
        let endMinutes := endHour * 60 + endMin in
        if minutes_in_window startMinutes endMinutes currentTimeMinutes then
          let endTime :=
            Date (civil_day now) (endHour * 3600 + endMin * 60) 0 (zone now) in
          Some (if (endMinutes <=? startMinutes) && (startMinutes <=? currentTimeMinutes)
                then Add endTime (24 * Hour) else endTime)
        else None
    | _, _ => None
    end.

Fixpoint findSuspensionEnd (windows : list OffHourWindow) (now : time) : time :=
  match windows with
  | [] => zero_time
  | w :: windows' =>
      match suspension_end now w with
      | Some t => t
      | None => findSuspensionEnd windows' now
      end
  end.

Section evaluator.
Context `{!Cron, !TimezoneDB}.
Implicit Types e : ScheduleEvaluator.

(** The loop of [findLastOccurrence].  The code has no bound; the fuel is the
    number of minutes of the longest search, one week. *)
Fixpoint last_occurrence_loop (fuel : nat) (sched : CronSchedule) (now : time)
  (lastOccurrence current : time) : res SchedError time :=
  match fuel with
  | O => NoReturn
  | S fuel' =>
      if Before current now || Equal current now
      then last_occurrence_loop fuel' sched now current (cron_Next sched current)
      else Ok lastOccurrence
  end.

Definition occurrence_fuel : nat := Z.to_nat 10082.

Definition findLastOccurrence (sched : CronSchedule) (now : time) : res SchedError time :=
  let searchStart := Add now (- (24 * Hour)) in
  let* lastOccurrence :=
    last_occurrence_loop occurrence_fuel sched now zero_time (cron_Next sched searchStart) in
  if IsZero lastOccurrence then
    let searchStart := Add now (- (7 * 24 * Hour)) in
    last_occurrence_loop occurrence_fuel sched now lastOccurrence (cron_Next sched searchStart)
  else Ok lastOccurrence.

(** The grace-period part of [eval]. *)
Definition eval_grace e (windows : list OffHourWindow) (localNow : time)
  (lastHibernate lastWakeUp nextHibernate nextWakeUp : time) (shouldHibernate : bool)
  : res SchedError EvaluationResult :=
  let buffer := scheduleBuffer e in
  let plain :=
    mkResult shouldHibernate nextHibernate nextWakeUp (state_of shouldHibernate)
      false zero_time in
  if 0 <? buffer then
    let prevWindowEndGrace := Add lastWakeUp buffer in
    let isContinuous := negb (Before prevWindowEndGrace lastHibernate) in
    let* startGrace :=
      (if shouldHibernate && negb isContinuous
       then isInGraceTimeWindow StartBoundary windows localNow buffer else Ok false) in
    if startGrace then
      let gracePeriodEnd := Add lastHibernate buffer in
      let nextHibernate' :=
        if Before gracePeriodEnd nextHibernate then gracePeriodEnd else nextHibernate in
      Ok (mkResult false nextHibernate' nextWakeUp (state_of false) true gracePeriodEnd)
    else
      let* endGrace :=
        (if negb shouldHibernate
         then isInGraceTimeWindow EndBoundary windows localNow buffer else Ok false) in
      if endGrace then
        let gracePeriodEnd := Add lastWakeUp buffer in
        let nextWakeUp' :=
          if Before gracePeriodEnd nextWakeUp then gracePeriodEnd else nextWakeUp in
        Ok (mkResult true nextHibernate nextWakeUp' (state_of true) true gracePeriodEnd)
      else Ok plain
  else Ok plain.

Definition eval e (window : ScheduleWindow) : res SchedError EvaluationResult :=
  match LoadLocation (Timezone window) with
  | None => Err (ErrTimezone (Timezone window))
  | Some loc =>
      let localNow := In (Clock e) loc in
      match cron_Parse (HibernateCron window) with
      | None => Err (ErrHibernateCron (HibernateCron window))
      | Some hibernateSched =>
          match cron_Parse (WakeUpCron window) with
          | None => Err (ErrWakeUpCron (WakeUpCron window))
          | Some wakeUpSched =>
              let* lastHibernate := findLastOccurrence hibernateSched localNow in
              let* lastWakeUp := findLastOccurrence wakeUpSched localNow in
              eval_grace e (sw_Windows window) localNow lastHibernate lastWakeUp
                (cron_Next hibernateSched localNow) (cron_Next wakeUpSched localNow)
                (After lastHibernate lastWakeUp)
          end
      end
  end.

(** The evaluation of one window of [evaluateWindows]. *)
Definition evaluate_window e (timezone : string) (w : OffHourWindow)
  : res SchedError EvaluationResult :=
  let* '(hibernateCron, wakeUpCron) :=
    res_map_err ErrConvertWindow (ParseWindowToCron (Start w) (Stop w) (DaysOfWeek w)) in
  eval e (mkScheduleWindow [w] hibernateCron wakeUpCron timezone).

(** The OR-combination of two results in [evaluateWindows]. *)
Definition or_combine (combined result : EvaluationResult) : EvaluationResult :=
  let should := ShouldHibernate combined || ShouldHibernate result in
  mkResult should
    (earlierTime (NextHibernateTime combined) (NextHibernateTime result))
    (earlierTime (NextWakeUpTime combined) (NextWakeUpTime result))
    (if should then "hibernated" else CurrentState combined)
    (InGracePeriod combined || InGracePeriod result)
    (if InGracePeriod result && negb (IsZero (GracePeriodEnd result)) then
       if IsZero (GracePeriodEnd combined) then GracePeriodEnd result
       else earlierTime (GracePeriodEnd combined) (GracePeriodEnd result)
     else GracePeriodEnd combined).

Fixpoint evaluate_loop e (timezone : string) (windows : list OffHourWindow)
  (combined : option EvaluationResult) : res SchedError (option EvaluationResult) :=
  match windows with
  | [] => Ok combined
  | w :: windows' =>
      let* result := evaluate_window e timezone w in
      evaluate_loop e timezone windows'
        (Some match combined with
              | None => result
              | Some c => or_combine c result
              end)
  end.

Definition no_windows_result : EvaluationResult :=
  mkResult false zero_time zero_time "active" false zero_time.

Definition evaluateWindows e (windows : list OffHourWindow) (timezone : string)
  : res SchedError (option EvaluationResult) :=
  match windows with
  | [] => Ok (Some no_windows_result)
  | _ => evaluate_loop e timezone windows None
  end.

Definition applyExtend e (exceptionWindows : list OffHourWindow) (timezone : string)
  (baseResult : EvaluationResult) : res SchedError EvaluationResult :=
  let* evaluated :=
    res_map_err ErrExceptionWindows (evaluateWindows e exceptionWindows timezone) in
  match evaluated with
  | None => Panic
  | Some exceptionResult =>
      let shouldHibernate :=
        ShouldHibernate baseResult || ShouldHibernate exceptionResult in
      let nextHibernate :=
        earlierTime (NextHibernateTime baseResult) (NextHibernateTime exceptionResult) in
      let baseWakeUp := NextWakeUpTime baseResult in
      let nextWakeUp :=
        if negb (IsZero baseWakeUp) && isInTimeWindows exceptionWindows baseWakeUp
        then NextWakeUpTime exceptionResult
        else earlierTime baseWakeUp (NextWakeUpTime exceptionResult) in
      let gracePeriodEnd :=
        if InGracePeriod baseResult && InGracePeriod exceptionResult
        then earlierTime (GracePeriodEnd baseResult) (GracePeriodEnd exceptionResult)
        else if InGracePeriod baseResult then GracePeriodEnd baseResult
        else if InGracePeriod exceptionResult then GracePeriodEnd exceptionResult
        else zero_time in
      Ok (mkResult shouldHibernate nextHibernate nextWakeUp (state_of shouldHibernate)
            (InGracePeriod baseResult || InGracePeriod exceptionResult) gracePeriodEnd)
  end.

(** The decision part of [applySuspend]. *)
Definition suspend_decision (windows : list OffHourWindow) (localNow : time)
  (inSuspensionWindow inSuspensionGrace inLeadTimeWindow : bool)
  (baseResult : EvaluationResult) : bool :=
  if inSuspensionWindow || inSuspensionGrace then false
  else if inLeadTimeWindow && negb (ShouldHibernate baseResult)
  then ShouldHibernate baseResult
  else if inLeadTimeWindow && ShouldHibernate baseResult then
    let nextSuspStart := findNextSuspensionStart windows localNow in
    let clusterWakesBeforeSusp :=
      negb (IsZero nextSuspStart) &&
      negb (IsZero (NextWakeUpTime baseResult)) &&
      negb (After (NextWakeUpTime baseResult) nextSuspStart) in
    if negb clusterWakesBeforeSusp then false else ShouldHibernate baseResult
  else ShouldHibernate baseResult.

(** The computation of the next hibernation in [applySuspend]. *)
Definition suspend_nextHibernate (windows : list OffHourWindow) (localNow : time)
  (suspended shouldHibernate : bool) (base : time) : time :=
  let n1 :=
    if suspended then
      let suspensionEnd := findSuspensionEnd windows localNow in
      if negb (IsZero suspensionEnd) && After suspensionEnd localNow then
        if Before suspensionEnd base || IsZero base then suspensionEnd else base
      else base
    else base in
  if negb shouldHibernate && negb (IsZero n1) then
    if isInTimeWindows windows n1 then
      let stop := findSuspensionEnd windows n1 in
      if negb (IsZero stop) then stop else n1
    else n1
  else n1.

Definition applySuspend e (exception : Exception) (timezone : string)
  (baseResult : EvaluationResult) : res SchedError EvaluationResult :=
  match LoadLocation timezone with
  | None => Err (ErrTimezone timezone)
  | Some loc =>
      let localNow := In (Clock e) loc in
      let windows := exc_Windows exception in
      match windows with
      | [] => Ok baseResult
      | _ =>
          let inSuspensionWindow := isInTimeWindows windows localNow in
          let* inSuspensionGrace :=
            (if negb inSuspensionWindow && (0 <? scheduleBuffer e)
             then isInGraceTimeWindow EndBoundary windows localNow (scheduleBuffer e)
             else Ok false) in
          let inLeadTimeWindow :=
            (0 <? LeadTime exception) &&
            isInLeadTimeWindow windows localNow (LeadTime exception) in
          let shouldHibernate :=
            suspend_decision windows localNow inSuspensionWindow inSuspensionGrace
              inLeadTimeWindow baseResult in
          let nextHibernate :=
            suspend_nextHibernate windows localNow
              (inSuspensionWindow || inLeadTimeWindow || inSuspensionGrace)
              shouldHibernate (NextHibernateTime baseResult) in
          let nextWakeUp :=
            if shouldHibernate then
              let next := findNextSuspensionStart windows localNow in
              if negb (IsZero next) then earlierTime (NextWakeUpTime baseResult) next
              else NextWakeUpTime baseResult
            else NextWakeUpTime baseResult in
          Ok (mkResult shouldHibernate nextHibernate nextWakeUp (state_of shouldHibernate)
                inSuspensionGrace (GracePeriodEnd baseResult))
      end
  end.

Definition Evaluate e (baseWindows : list OffHourWindow) (timezone : string)
  (exceptions : list (option Exception)) : res SchedError (option EvaluationResult) :=
  let activeExceptions := filterActive e exceptions in
  let rep := mergeByType activeExceptions ExceptionReplace in
  let ext := mergeByType activeExceptions ExceptionExtend in
  let sus := mergeByType activeExceptions ExceptionSuspend in
  runEvaluationPipeline
    [ (fun _ =>
         let baseWindows' :=
           match rep with Some r => exc_Windows r | None => baseWindows end in
         evaluateWindows e baseWindows' timezone);
      match ext with
      | Some x => evaluateWhen true (deref_stage (applyExtend e (exc_Windows x) timezone))
      | None => evaluateWhen false (fun _ => Panic)
      end;
      match sus with
      | Some x => evaluateWhen true (deref_stage (applySuspend e x timezone))
      | None => evaluateWhen false (fun _ => Panic)
      end ].

(** [NextRequeueTime], on 64-bit durations. *)
Definition NextRequeueTime e (result : EvaluationResult) : Z :=
  let now := Clock e in
  let safetyBuffer := 10 * Second in
  if InGracePeriod result then
    let duration := Sub (GracePeriodEnd result) now in
    let duration' := if duration <? 0 then 0 else duration in
    int64 (duration' + safetyBuffer)
  else
    let nextEvent :=
      if ShouldHibernate result then NextWakeUpTime result else NextHibernateTime result in
    let duration := Sub nextEvent now in
    let duration' := if duration <? 0 then Minute else duration in
    int64 (int64 (duration' + scheduleBuffer e) + safetyBuffer).
End evaluator.
