(* ===== verification/CronSpec.v ===== *)
(** * What the evaluator expects of the cron library

    [CronLaws] states the documented behaviour of [cron.Parser.Parse] and
    [Schedule.Next] on the only expressions the program generates, the lines
    "m h * * d1,...,dn" of [ParseWindowToCron]: the line parses, and [Next]
    returns the least activation later than its argument, in the same location.
    [RefCron] is an implementation of the interface that satisfies the laws; the
    lemmas of [last_occurrence] are proved against the laws only. *)
From S2P Require Import Prelude GoString GoTime Windows Evaluate.
From Stdlib Require Import Lia.

Local Open Scope Z_scope.

(** Locations with one offset, in whole minutes. *)
Definition regular_zone (l : Location) : Prop :=
  fixed_zone l /\ loc_first l mod 60 = 0.

(** An activation of the line [minutes_line minutes days]. *)
Definition activation (minutes : Z) (days : list Z) (t : time) : Prop :=
  sec_of_day t = minutes * 60 /\ time_Nanosecond t = 0 /\ Weekday t ∈ days.

Definition valid_days (days : list Z) : Prop :=
  days <> [] /\ Forall (fun n => 0 <= n <= 6) days.

Class CronLaws `{!Cron} : Prop := {
  cron_line_next minutes days :
    0 <= minutes < 1440 -> valid_days days ->
    exists s, cron_Parse (minutes_line minutes days) = Some s /\
      forall t, regular_zone (zone t) ->
        let n := cron_Next s t in
        zone n = zone t /\ activation minutes days n /\ unix_ns t < unix_ns n /\
        forall u, zone u = zone t -> activation minutes days u ->
                  unix_ns t < unix_ns u -> unix_ns n <= unix_ns u
}.

Definition Day : Z := 24 * Hour.

(** ** Activations in a regular zone *)

Section activations.
Context (l : Location) (Hl : regular_zone l).
Implicit Types t u now : time.

Lemma zone_local_sec t : zone t = l -> local_sec t = unix_ns t / Second + loc_first l.
Proof using Hl. destruct t. simpl. intros ->. by rewrite (fixed_local_sec l (proj1 Hl)). Qed.

Lemma local_sec_day t : local_sec t = civil_day t * 86400 + sec_of_day t.
Proof. unfold civil_day, sec_of_day. divmod. Qed.

(** An activation and the day it falls on determine each other. *)
Lemma activation_ns minutes days t :
  zone t = l -> activation minutes days t ->
  unix_ns t = (civil_day t * 86400 + minutes * 60 - loc_first l) * Second.
Proof using Hl.
  intros Hz (Hs & Hn & _). pose proof (zone_local_sec t Hz) as H.
  rewrite local_sec_day, Hs in H. unfold time_Nanosecond in Hn.
  unfold Second in *. divmod.
Qed.

Lemma time_ns t :
  zone t = l ->
  unix_ns t = (civil_day t * 86400 + sec_of_day t - loc_first l) * Second + time_Nanosecond t.
Proof using Hl.
  intros Hz. pose proof (zone_local_sec t Hz) as H. rewrite local_sec_day in H.
  unfold time_Nanosecond. unfold Second in *. divmod.
Qed.

Definition at_minutes (day minutes : Z) : time := Date day (minutes * 60) 0 l.

Lemma at_minutes_zone day minutes : zone (at_minutes day minutes) = l.
Proof using Hl. unfold at_minutes. by rewrite (fixed_Date l (proj1 Hl)). Qed.

Lemma at_minutes_day day minutes :
  0 <= minutes < 1440 -> civil_day (at_minutes day minutes) = day.
Proof using Hl. intros. apply fixed_Date_day; [apply Hl| lia | by unfold Second]. Qed.

Lemma at_minutes_ns day minutes :
  unix_ns (at_minutes day minutes) = (day * 86400 + minutes * 60 - loc_first l) * Second.
Proof using Hl. unfold at_minutes. rewrite (fixed_Date l (proj1 Hl)). simpl. lia. Qed.

Lemma at_minutes_activation day minutes days :
  0 <= minutes < 1440 -> (day + 4) mod 7 ∈ days ->
  activation minutes days (at_minutes day minutes).
Proof using Hl.
  intros Hm Hd. split; [|split].
  - apply fixed_Date_sec; [apply Hl| lia | by unfold Second].
  - unfold time_Nanosecond. rewrite at_minutes_ns. apply Z_mod_mult.
  - unfold Weekday. by rewrite at_minutes_day.
Qed.

Lemma activation_weekday minutes days t :
  activation minutes days t -> (civil_day t + 4) mod 7 ∈ days.
Proof. by intros (_ & _ & ?). Qed.

(** Comparing an activation with an arbitrary time of the location. *)
Lemma activation_le minutes days u now :
  zone u = l -> zone now = l -> activation minutes days u ->
  unix_ns u <= unix_ns now <->
  civil_day u * 86400 + minutes * 60 <= civil_day now * 86400 + sec_of_day now.
Proof using Hl.
  intros Hu Hnow Ha. rewrite (activation_ns _ _ _ Hu Ha), (time_ns _ Hnow).
  pose proof (Z.mod_pos_bound (unix_ns now) Second Second_pos).
  unfold time_Nanosecond, Second in *. lia.
Qed.

(** Two activations of one line are whole days apart. *)
Lemma activation_gap minutes days t u :
  zone t = l -> zone u = l -> activation minutes days t -> activation minutes days u ->
  unix_ns t < unix_ns u -> unix_ns t + Day <= unix_ns u.
Proof using Hl.
  intros Ht Hu Hat Hau. rewrite (activation_ns _ _ _ Ht Hat), (activation_ns _ _ _ Hu Hau).
  unfold Day, Hour, Minute, Second. lia.
Qed.

(** Some activation falls in every half-open week. *)
Lemma activation_in_week minutes days now :
  0 <= minutes < 1440 -> valid_days days -> zone now = l ->
  exists u, zone u = l /\ activation minutes days u /\
            unix_ns now - 7 * Day < unix_ns u <= unix_ns now.
Proof using Hl.
  intros Hm [Hne Hb] Hz.
  destruct days as [|wd days]; [done|]. apply Forall_cons in Hb as [Hwd _].
  set (last := if minutes * 60 <=? sec_of_day now then civil_day now else civil_day now - 1).
  set (k := last - (last + 4 - wd) mod 7).
  assert ((k + 4) mod 7 = wd) as Hk by (unfold k; divmod).
  assert (last - 7 < k <= last) as Hkl by (unfold k; divmod).
  exists (at_minutes k minutes). split; [apply at_minutes_zone|]. split.
  { apply at_minutes_activation; [done|]. rewrite Hk. by left. }
  rewrite at_minutes_ns, (time_ns now Hz).
  pose proof (Z.mod_pos_bound (unix_ns now) Second Second_pos).
  pose proof (sec_of_day_bound now). unfold time_Nanosecond, Day, Hour, Minute, Second in *.
  unfold last in *. destruct (minutes * 60 <=? sec_of_day now) eqn:E; reflect; lia.
Qed.
End activations.

(** ** The most recent activation *)

(** [t] is the greatest activation that is not later than [now]. *)
Definition last_activation (minutes : Z) (days : list Z) (now t : time) : Prop :=
  zone t = zone now /\ activation minutes days t /\ unix_ns t <= unix_ns now /\
  forall u, zone u = zone now -> activation minutes days u ->
            unix_ns u <= unix_ns now -> unix_ns u <= unix_ns t.

Lemma Before_Equal_le a b : Before a b || Equal a b = (unix_ns a <=? unix_ns b).
Proof. unfold Before, Equal. lia. Qed.

Section last_occurrence.
Context `{!Cron}.
Context (minutes : Z) (days : list Z).
Context (s : CronSchedule).
Context (now : time) (Hz : regular_zone (zone now)).
Context (Hnext : forall t, regular_zone (zone t) ->
  let n := cron_Next s t in
  zone n = zone t /\ activation minutes days n /\ unix_ns t < unix_ns n /\
  forall u, zone u = zone t -> activation minutes days u ->
            unix_ns t < unix_ns u -> unix_ns n <= unix_ns u).

(** The search loop terminates, on the last activation up to [now]. *)
Lemma last_occurrence_loop_spec fuel last current :
  zone current = zone now -> activation minutes days current ->
  unix_ns now - unix_ns current < Z.of_nat fuel * Day - Day -> (0 < fuel)%nat ->
  exists r, last_occurrence_loop fuel s now last current = Ok r /\
    ((unix_ns now < unix_ns current /\ r = last) \/
     (unix_ns current <= unix_ns now /\ last_activation minutes days now r)).
Proof using Hz Hnext.
  revert last current. induction fuel as [|fuel IH]; [lia|].
  intros last current Hc Ha Hfuel _. simpl. rewrite Before_Equal_le.
  destruct (unix_ns current <=? unix_ns now) eqn:E; reflect; [|by exists last; eauto].
  destruct (Hnext current) as (Hnz & Hna & Hlt & Hmin); [by rewrite Hc|].
  rewrite Hc in Hnz.
  pose proof (activation_gap (zone now) Hz _ _ _ _ Hc Hnz Ha Hna Hlt) as Hgap.
  assert (0 < Day) as HDay by done.
  destruct (IH current (cron_Next s current)) as (r & Hr & Hcase); [done|done|lia|nia|].
  exists r. split; [done|]. right. split; [done|].
  destruct Hcase as [[Hgt ->] | [_ Hlast]]; [|done].
  split; [done|]. split; [done|]. split; [done|].
  intros u Hu Hau Hle. destruct (Z.le_gt_cases (unix_ns u) (unix_ns current)); [done|].
  specialize (Hmin u). rewrite Hc in Hmin. specialize (Hmin Hu Hau). lia.
Qed.

Context (Hmin : 0 <= minutes < 1440) (Hdays : valid_days days).
Context (Hrecent : zero_ns + 7 * Day < unix_ns now).

Lemma search_spec back last :
  0 <= back <= 7 * Day ->
  exists r, last_occurrence_loop occurrence_fuel s now last
              (cron_Next s (Add now (- back))) = Ok r /\
    (r = last /\ (forall u, zone u = zone now -> activation minutes days u ->
                    unix_ns u <= unix_ns now -> unix_ns u <= unix_ns now - back)
     \/ last_activation minutes days now r /\ unix_ns now - back < unix_ns r).
Proof using Hz Hnext.
  intros Hback.
  destruct (Hnext (Add now (- back))) as (Hnz & Hna & Hlt & Hfirst); [done|].
  cbn [Add zone unix_ns] in *.
  destruct (last_occurrence_loop_spec occurrence_fuel last
              (cron_Next s (Add now (- back)))) as (r & Hr & Hcase); [done|done| |unfold occurrence_fuel; lia|].
  { unfold occurrence_fuel. rewrite Z2Nat.id by lia. unfold Day, Hour, Minute, Second in *. lia. }
  exists r. split; [done|].
  destruct Hcase as [[Hgt ->] | [Hle Hlast]].
  - left. split; [done|]. intros u Hu Ha Hle.
    destruct (Z.le_gt_cases (unix_ns u) (unix_ns now - back)); [done|].
    specialize (Hfirst u Hu Ha). lia.
  - right. split; [done|]. destruct Hlast as (_ & _ & _ & Hmax).
    specialize (Hmax _ Hnz Hna Hle). lia.
Qed.

Lemma findLastOccurrence_spec :
  exists r, findLastOccurrence s now = Ok r /\ last_activation minutes days now r.
Proof using Hz Hnext Hmin Hdays Hrecent.
  unfold findLastOccurrence.
  destruct (search_spec (24 * Hour) zero_time) as (r & -> & Hcase); [by vm_compute|].
  cbn [res_bind]. destruct Hcase as [[-> _] | [Hlast Hgt]].
  - change (IsZero zero_time) with true. cbv iota.
    destruct (search_spec (7 * 24 * Hour) zero_time) as (r & -> & Hcase); [by vm_compute|].
    exists r. split; [done|]. destruct Hcase as [[-> Hno] | [Hlast _]]; [|done].
    destruct (activation_in_week (zone now) Hz minutes days now)
      as (u & Hu & Ha & Hlo & Hle); [done..|].
    specialize (Hno u Hu Ha Hle). unfold Day in *. lia.
  - replace (IsZero r) with false; [by exists r|].
    symmetry. apply Z.eqb_neq. unfold Day in *. unfold Hour, Minute, Second in *. lia.
Qed.
End last_occurrence.

(** The last activation is unique as an instant. *)
Lemma last_activation_unique minutes days now t u :
  last_activation minutes days now t -> last_activation minutes days now u ->
  unix_ns t = unix_ns u.
Proof.
  intros (Hzt & Hat & Hlt & Ht) (Hzu & Hau & Hlu & Hu).
  specialize (Ht u Hzu Hau Hlu). specialize (Hu t Hzt Hat Hlt). lia.
Qed.

(** ** A reference implementation of the interface *)

Module RefCron.

Definition parse (line : string) : option (Z * list Z) :=
  match Split " "%char line with
  | [m; h; _; _; dow] =>
      m' ← Atoi m; h' ← Atoi h; days ← mapM Atoi (Split ","%char dow);
      Some (h' * 60 + m', days)
  | _ => None
  end.

(** The first day from today on, within a week, on which the line fires later
    than [t]. *)
Definition next (s : Z * list Z) (t : time) : time :=
  let fires k :=
    bool_decide ((k + 4) mod 7 ∈ s.2) &&
    (unix_ns t <? unix_ns (at_minutes (zone t) k s.1)) in
  match find_first fires (Zrange (civil_day t) 8) with
  | Some k => at_minutes (zone t) k s.1
  | None => zero_time
  end.

#[export] Instance refCron : Cron :=
  {| CronSchedule := Z * list Z; cron_Parse := parse; cron_Next := next |}.

Lemma sprint_d_small :
  forall n, 0 <= n < 60 ->
    (free_of " "%char (sprint_d n) && free_of ","%char (sprint_d n) &&
     bool_decide (Atoi (sprint_d n) = Some n)) = true.
Proof. apply (Zrange_forallb _ 0 60). vm_compute. reflexivity. Qed.

Lemma Atoi_small n : 0 <= n < 60 -> Atoi (sprint_d n) = Some n.
Proof. intros H. pose proof (sprint_d_small n H). by reflect. Qed.

Lemma free_small n : 0 <= n < 60 ->
  free_of " "%char (sprint_d n) = true /\ free_of ","%char (sprint_d n) = true.
Proof. intros H. pose proof (sprint_d_small n H). by reflect. Qed.

Lemma free_of_Join sep days :
  free_of " "%char sep = true -> Forall (fun n => 0 <= n <= 6) days ->
  free_of " "%char (Join sep (map sprint_d days)) = true.
Proof.
  intros Hsep Hd. induction Hd as [|n days Hn Hd IH]; [done|].
  destruct (free_small n ltac:(lia)) as [Hf _].
  destruct days as [|n' days]; [done|].
  change (Join sep (map sprint_d (n :: n' :: days)))
    with (sprint_d n ++ sep ++ Join sep (map sprint_d (n' :: days)))%string.
  by rewrite !free_of_app, Hf, Hsep, IH.
Qed.

Lemma mapM_Atoi days :
  Forall (fun n => 0 <= n <= 6) days -> mapM Atoi (map sprint_d days) = Some days.
Proof.
  induction 1 as [|n days Hn Hd IH]; [done|]. simpl.
  rewrite Atoi_small by lia. simpl. by rewrite IH.
Qed.

(** The lines the program generates read back as the numbers they print. *)
Lemma parse_minutes_line minutes days :
  0 <= minutes < 1440 -> valid_days days ->
  parse (minutes_line minutes days) = Some (minutes, days).
Proof.
  intros Hm [Hne Hd]. unfold parse, minutes_line, cron_line.
  assert (0 <= minutes mod 60 < 60 /\ 0 <= minutes / 60 < 60) as [Hmin Hhour] by divmod.
  destruct (free_small _ Hmin) as [Hfm _], (free_small _ Hhour) as [Hfh _].
  set (dow := Join "," (map sprint_d days)).
  change (sprint_d (minutes mod 60) ++ " " ++ sprint_d (minutes / 60) ++ " * * " ++ dow)%string
    with (sprint_d (minutes mod 60) ++
          String " " (sprint_d (minutes / 60) ++ String " " ("* * " ++ dow)))%string.
  rewrite Split_app by done. rewrite Split_app by done.
  change (Split " "%char ("* * " ++ dow)%string) with ("*" :: "*" :: Split " "%char dow).
  rewrite (Split_free _ dow) by by apply free_of_Join.
  rewrite !Atoi_small by done. simpl. unfold dow.
  rewrite Split_Join.
  - rewrite mapM_Atoi by done. simpl. do 2 f_equal. divmod.
  - by destruct days.
  - apply Forall_fmap. eapply Forall_impl; [done|]. intros n Hn. simpl in *.
    apply (free_small n). lia.
Qed.

Lemma next_spec minutes days t :
  0 <= minutes < 1440 -> valid_days days -> regular_zone (zone t) ->
  let n := next (minutes, days) t in
  zone n = zone t /\ activation minutes days n /\ unix_ns t < unix_ns n /\
  forall u, zone u = zone t -> activation minutes days u ->
            unix_ns t < unix_ns u -> unix_ns n <= unix_ns u.
Proof.
  intros Hm Hd Hz. unfold next. cbn [fst snd].
  pose proof (time_ns _ Hz t eq_refl) as Ht.
  pose proof (Z.mod_pos_bound (unix_ns t) Second Second_pos).
  pose proof (sec_of_day_bound t). unfold time_Nanosecond in Ht.
  cbv zeta.
  match goal with |- context [find_first ?f ?l] => destruct (find_first f l) as [k|] eqn:E end.
  - apply find_first_Zrange in E as (Hk & Hf & Hleast). reflect.
    split; [by apply at_minutes_zone|]. split; [by apply at_minutes_activation|].
    split; [done|]. intros u Hu Ha Hlt.
    pose proof (activation_ns _ Hz _ _ _ Hu Ha) as Hun.
    rewrite at_minutes_ns by done.
    destruct (Z.le_gt_cases k (civil_day u)) as [Hle|Hgt]; [unfold Second in *; lia|].
    exfalso. assert (civil_day t <= civil_day u) by (unfold Second in *; lia).
    specialize (Hleast (civil_day u) ltac:(lia)). simpl in Hleast.
    rewrite bool_decide_true in Hleast by (by eapply activation_weekday).
    rewrite at_minutes_ns, <- Hun in Hleast by done. simpl in Hleast. reflect. lia.
  - exfalso. rewrite find_first_None in E. destruct Hd as [Hne Hd].
    destruct days as [|wd days]; [done|]. apply Forall_cons in Hd as [Hwd _].
    set (k := civil_day t + 1 + (wd - (civil_day t + 1 + 4)) mod 7).
    assert ((k + 4) mod 7 = wd) as Hk by (unfold k; divmod).
    assert (civil_day t < k < civil_day t + 8) as Hkr by (unfold k; divmod).
    specialize (E k). rewrite elem_of_Zrange in E. specialize (E ltac:(lia)).
    rewrite bool_decide_true in E by (rewrite Hk; by left).
    rewrite at_minutes_ns in E by done. simpl in E. reflect. unfold Second in *. lia.
Qed.

#[export] Instance refCron_laws : CronLaws.
Proof.
  constructor. intros minutes days Hm Hd. exists (minutes, days).
  split; [by apply parse_minutes_line|]. intros t Hz. by apply next_spec.
Qed.
End RefCron.
