(* ===== verification/ScheduleSpec.v ===== *)
(** * What schedule evaluation decides

    The reference semantics [off_hours] of a window is a boolean test on the
    weekday and the minute of the day.  The evaluator instead compares the last
    activations of the two cron expressions of the window; the theorems relate
    the two, lift the relation to the OR of several windows and to the three
    kinds of exceptions, and show that the decision cannot change before the
    next event that the evaluation announces. *)
From S2P Require Import Prelude GoString GoTime Windows Evaluate CronSpec.
From Stdlib Require Import Lia.

Local Open Scope Z_scope.

(** The clock is more than a week after year 1, whose first instant is Go's zero
    time, the program's "no such event". *)
Record recent (t : time) : Prop := { recent_ns : zero_ns + 7 * Day < unix_ns t }.

(** Off hours of a well-formed window: an overnight window lasts until its end
    on the next day that is listed. *)
Definition off_hours (v : window_view) (t : time) : bool :=
  let listed := bool_decide (Weekday t ∈ dayNums v) in
  let m := sec_of_day t / 60 in
  if startMin v <? endMin v
  then listed && (startMin v <=? m) && (m <? endMin v)
  else negb (listed && (endMin v <=? m) && (m <? startMin v)).

(** The earliest activation after [now]. *)
Definition next_activation (minutes : Z) (days : list Z) (now t : time) : Prop :=
  zone t = zone now /\ activation minutes days t /\ unix_ns now < unix_ns t /\
  forall u, zone u = zone now -> activation minutes days u ->
            unix_ns now < unix_ns u -> unix_ns t <= unix_ns u.

(** In a regular zone a last activation is a day: the last listed one on which
    the line has fired. *)
Lemma last_activation_day l m days now u :
  regular_zone l -> zone now = l -> 0 <= m < 1440 -> last_activation m days now u ->
  unix_ns u = (civil_day u * 86400 + m * 60 - loc_first l) * Second /\
  civil_day u * 86400 + m * 60 <= civil_day now * 86400 + sec_of_day now /\
  (civil_day u + 4) mod 7 ∈ days /\
  forall k, (k + 4) mod 7 ∈ days ->
    k * 86400 + m * 60 <= civil_day now * 86400 + sec_of_day now -> k <= civil_day u.
Proof.
  intros Hl Hz Hm (Hzu & Ha & Hle & Hmax). rewrite Hz in *.
  pose proof (activation_ns l Hl _ _ u Hzu Ha) as Hns.
  apply (activation_le l Hl _ _ _ _ Hzu Hz Ha) in Hle.
  split; [done|]. split; [done|]. split; [by eapply activation_weekday|].
  intros k Hk Hkle.
  specialize (Hmax _ (at_minutes_zone l Hl k m) (at_minutes_activation l Hl k m _ Hm Hk)).
  rewrite at_minutes_ns, (time_ns l Hl now Hz), Hns in Hmax by done.
  pose proof (Z.mod_pos_bound (unix_ns now) Second Second_pos).
  unfold time_Nanosecond, Second in *. lia.
Qed.

(** The window is off hours exactly when its last start is later than its last
    end. *)
Lemma last_compare l v now lh lw :
  regular_zone l -> zone now = l ->
  0 <= startMin v < 1440 -> 0 <= endMin v < 1440 -> startMin v <> endMin v ->
  last_activation (startMin v) (dayNums v) now lh ->
  last_activation (endMin v) (dayNums v) now lw ->
  After lh lw = off_hours v now.
Proof.
  intros Hl Hz Hs He Hne Hlh Hlw.
  destruct (last_activation_day l _ _ _ _ Hl Hz Hs Hlh) as (Hnh & Hleh & Hdh & Hmh).
  destruct (last_activation_day l _ _ _ _ Hl Hz He Hlw) as (Hnw & Hlew & Hdw & Hmw).
  unfold After. rewrite Hnh, Hnw.
  pose proof (Hmh _ Hdw) as H1. pose proof (Hmh (civil_day now)) as H2.
  pose proof (Hmw _ Hdh) as H3. pose proof (Hmw (civil_day now)) as H4.
  pose proof (sec_of_day_bound now) as Hsec.
  assert (forall m, 0 <= m < 1440 -> (m <=? sec_of_day now / 60) = (m * 60 <=? sec_of_day now)
           /\ (sec_of_day now / 60 <? m) = (sec_of_day now <? m * 60)) as Hdiv by (intros; split; divmod).
  unfold off_hours. destruct (Hdiv _ Hs) as [-> ->], (Hdiv _ He) as [-> ->].
  unfold Weekday, Second. apply eq_true_iff_eq. clear Hlh Hlw Hdiv Hnh Hnw Hmh Hmw.
  destruct (decide ((civil_day now + 4) mod 7 ∈ dayNums v)) as [Hin|Hout].
  - rewrite bool_decide_true by done. specialize (H2 Hin). specialize (H4 Hin).
    destruct (startMin v <? endMin v) eqn:E; reflect; lia.
  - rewrite bool_decide_false by done.
    assert (civil_day lh <> civil_day now) by (intros e; rewrite e in Hdh; done).
    assert (civil_day lw <> civil_day now) by (intros e; rewrite e in Hdw; done).
    destruct (startMin v <? endMin v) eqn:E; reflect; lia.
Qed.

Lemma window_ok_valid_days w v : window_ok w v -> valid_days (dayNums v).
Proof.
  intros Hok. split; [|by eapply window_ok_days_bound].
  by destruct Hok as (?&?&?&?&_&_&_&_&_&_&?).
Qed.

Lemma window_ok_distinct w v : window_ok w v -> startMin v <> endMin v.
Proof. by intros (?&?&?&?&_&_&_&_&?&_). Qed.

(** The decision cannot change before the next activation of the other line. *)
Lemma last_activation_mono m days now now' u u' :
  zone now' = zone now -> unix_ns now <= unix_ns now' ->
  last_activation m days now u -> last_activation m days now' u' ->
  unix_ns u <= unix_ns u'.
Proof.
  intros Hz Hle (Hzu & Hau & Hleu & _) (_ & _ & _ & Hmax).
  apply Hmax; [congruence|done|lia].
Qed.

Lemma last_activation_until m days now now' u u' n :
  zone now' = zone now -> unix_ns now <= unix_ns now' ->
  last_activation m days now u -> last_activation m days now' u' ->
  next_activation m days now n -> unix_ns now' < unix_ns n ->
  unix_ns u' = unix_ns u.
Proof.
  intros Hz Hle Hu Hu' (_ & _ & _ & Hmin) Hlt.
  pose proof (last_activation_mono _ _ _ _ _ _ Hz Hle Hu Hu').
  destruct Hu as (_ & _ & _ & Hmax), Hu' as (Hz' & Ha' & Hle' & _).
  destruct (Z.le_gt_cases (unix_ns u') (unix_ns now)) as [H'|H'].
  - specialize (Hmax u' ltac:(congruence) Ha' H'). lia.
  - specialize (Hmin u' ltac:(congruence) Ha' H'). lia.
Qed.

Lemma IsZero_next m days now t :
  recent now -> next_activation m days now t -> IsZero t = false.
Proof.
  intros [Hr] (_ & _ & Hlt & _). apply Z.eqb_neq.
  unfold Day, Hour, Minute, Second in *. lia.
Qed.

Lemma earlierTime_nonzero a b :
  IsZero a = false -> IsZero b = false ->
  (earlierTime a b = a /\ unix_ns a <= unix_ns b) \/ (earlierTime a b = b /\ unix_ns b <= unix_ns a).
Proof.
  intros Ha Hb. unfold earlierTime. rewrite Ha, Hb. unfold Before.
  destruct (unix_ns a <? unix_ns b) eqn:E; reflect; [left|right]; lia || (split; [done|lia]).
Qed.

(** [t] is the earliest of the next activations of a family of lines. *)
Definition earliest (m : window_view -> Z) (vs : list window_view) (now t : time) : Prop :=
  (exists v, v ∈ vs /\ next_activation (m v) (dayNums v) now t) /\
  forall v u, v ∈ vs -> next_activation (m v) (dayNums v) now u -> unix_ns t <= unix_ns u.

(** What a result says about a family of windows. *)
Definition announces (vs : list window_view) (now : time) (r : EvaluationResult) : Prop :=
  ShouldHibernate r = existsb (fun v => off_hours v now) vs /\
  earliest startMin vs now (NextHibernateTime r) /\
  earliest endMin vs now (NextWakeUpTime r) /\
  CurrentState r = state_of (ShouldHibernate r) /\
  InGracePeriod r = false /\ GracePeriodEnd r = zero_time.

Lemma next_activation_unique m days now t u :
  next_activation m days now t -> next_activation m days now u -> unix_ns t = unix_ns u.
Proof.
  intros (Hzt & Hat & Hlt & Ht) (Hzu & Hau & Hlu & Hu).
  specialize (Ht u Hzu Hau Hlu). specialize (Hu t Hzt Hat Hlt). lia.
Qed.

Lemma earliest_one m v now t :
  next_activation (m v) (dayNums v) now t -> earliest m [v] now t.
Proof.
  intros H. split; [exists v; split; [by left|done]|].
  intros v' u Hv Hu. apply list_elem_of_singleton in Hv as ->.
  pose proof (next_activation_unique _ _ _ _ _ H Hu). lia.
Qed.

Lemma earliest_combine m vs v now t u :
  recent now ->
  earliest m vs now t -> earliest m [v] now u ->
  earliest m (vs ++ [v]) now (earlierTime t u).
Proof.
  intros Hr [(v1 & Hv1 & H1) Hmin1] [(v2 & Hv2 & H2) Hmin2].
  pose proof (IsZero_next _ _ _ _ Hr H1). pose proof (IsZero_next _ _ _ _ Hr H2).
  unfold earliest. setoid_rewrite elem_of_app.
  destruct (earlierTime_nonzero t u) as [ [-> Hle] | [-> Hle] ]; [done..| |].
  - split; [by exists v1; auto|]. intros v' u' [Hv|Hv] Hu'; [by eapply Hmin1|].
    specialize (Hmin2 v' u' Hv Hu'). lia.
  - split; [by exists v2; auto|]. intros v' u' [Hv|Hv] Hu'; [|by eapply Hmin2].
    specialize (Hmin1 v' u' Hv Hu'). lia.
Qed.

Lemma announces_combine vs v now c r :
  recent now ->
  announces vs now c -> announces [v] now r -> announces (vs ++ [v]) now (or_combine c r).
Proof.
  intros Hr (Hs & Hh & Hw & Hc & Hg & Hge) (Hs' & Hh' & Hw' & Hc' & Hg' & Hge').
  unfold or_combine, announces. cbn [ShouldHibernate NextHibernateTime NextWakeUpTime
    CurrentState InGracePeriod GracePeriodEnd].
  rewrite existsb_app, Hs, Hs', Hg, Hg', Hge. simpl. rewrite orb_false_r.
  split; [done|]. split; [by apply earliest_combine|]. split; [by apply earliest_combine|].
  split; [|split; reflexivity]. rewrite Hc, Hs. by destruct (existsb _ _), (off_hours v now).
Qed.

Section evaluation.
Context `{!Cron, !TimezoneDB} {Hlaws : CronLaws}.
Context (e : ScheduleEvaluator) (tz : string) (loc : Location).
Context (Hload : LoadLocation tz = Some loc) (Hloc : regular_zone loc).
Context (Hrecent : recent (Clock e)).
Notation now := (In (Clock e) loc).

Lemma recent_now : recent now.
Proof using Hrecent. destruct Hrecent. by constructor. Qed.

(** Both searches of [eval] end, on the last activations. *)
Lemma evaluate_window_unfold w v :
  window_ok w v ->
  exists lh lw nh nw,
    last_activation (startMin v) (dayNums v) now lh /\
    last_activation (endMin v) (dayNums v) now lw /\
    next_activation (startMin v) (dayNums v) now nh /\
    next_activation (endMin v) (dayNums v) now nw /\
    evaluate_window e tz w = eval_grace e [w] now lh lw nh nw (off_hours v now).
Proof using Hlaws Hload Hloc Hrecent.
  intros Hok. pose proof (window_ok_bounds _ _ Hok) as [Hs He].
  pose proof (window_ok_valid_days _ _ Hok) as Hd.
  destruct (cron_line_next _ _ Hs Hd) as (sh & Hph & Hnh).
  destruct (cron_line_next _ _ He Hd) as (sw & Hpw & Hnw).
  destruct (findLastOccurrence_spec _ _ sh now Hloc Hnh Hs Hd (recent_ns _ Hrecent)) as (lh & Hlh & Hlh').
  destruct (findLastOccurrence_spec _ _ sw now Hloc Hnw He Hd (recent_ns _ Hrecent)) as (lw & Hlw & Hlw').
  exists lh, lw, (cron_Next sh now), (cron_Next sw now).
  do 2 (split; [done|]). split; [by apply Hnh|]. split; [by apply Hnw|].
  unfold evaluate_window. rewrite (ParseWindowToCron_ok _ _ Hok). simpl.
  unfold eval. simpl. rewrite Hload, Hph, Hpw, Hlh, Hlw. simpl. f_equal.
  exact (last_compare loc v now lh lw Hloc eq_refl Hs He (window_ok_distinct _ _ Hok) Hlh' Hlw').
Qed.

Section no_buffer.
Context (Hbuffer : scheduleBuffer e <= 0).

Lemma evaluate_window_ok w v :
  window_ok w v -> exists r, evaluate_window e tz w = Ok r /\ announces [v] now r.
Proof using Hlaws Hload Hloc Hrecent Hbuffer.
  intros Hok. destruct (evaluate_window_unfold w v Hok) as (lh & lw & nh & nw & _ & _ & Hnh & Hnw & ->).
  unfold eval_grace. destruct (0 <? scheduleBuffer e) eqn:E; reflect; [lia|].
  eexists. split; [done|]. unfold announces. simpl. rewrite orb_false_r.
  split; [done|]. split; [by apply earliest_one|]. split; [by apply earliest_one|].
  repeat split; reflexivity.
Qed.

Lemma evaluate_loop_ok ws vs done_vs c :
  Forall2 window_ok ws vs -> announces done_vs now c ->
  exists r, evaluate_loop e tz ws (Some c) = Ok (Some r) /\ announces (done_vs ++ vs) now r.
Proof using Hlaws Hload Hloc Hrecent Hbuffer.
  intros Hws. revert done_vs c. induction Hws as [|w v ws vs Hok Hws IH]; intros dvs c Hc.
  - exists c. by rewrite app_nil_r.
  - simpl. destruct (evaluate_window_ok w v Hok) as (r & -> & Hr). simpl.
    destruct (IH (dvs ++ [v]) (or_combine c r)) as (r' & -> & Hr'); [apply announces_combine; auto using recent_now|].
    exists r'. split; [done|]. by rewrite <- app_assoc in Hr'.
Qed.

Lemma evaluateWindows_ok ws vs :
  Forall2 window_ok ws vs -> ws <> [] ->
  exists r, evaluateWindows e ws tz = Ok (Some r) /\ announces vs now r.
Proof using Hlaws Hload Hloc Hrecent Hbuffer.
  intros Hws Hne. destruct Hws as [|w v ws vs Hok Hws]; [done|]. simpl.
  destruct (evaluate_window_ok w v Hok) as (r & -> & Hr). simpl.
  by apply (evaluate_loop_ok ws vs [v]).
Qed.
End no_buffer.
End evaluation.

(** ** Well-formedness, executably *)

Definition view_of (w : OffHourWindow) : option window_view :=
  '(sh, sm) ← res_ok (parseTime (Start w));
  '(eh, em) ← res_ok (parseTime (Stop w));
  days ← mapM dayNumber (DaysOfWeek w);
  if (sh * 60 + sm =? eh * 60 + em) || bool_decide (days = []) then None
  else Some (mkView (sh * 60 + sm) (eh * 60 + em) days).

Lemma view_of_ok w v : view_of w = Some v <-> window_ok w v.
Proof.
  unfold view_of, window_ok. split.
  - intros H.
    destruct (parseTime (Start w)) as [ [sh sm]| | |]; try discriminate.
    destruct (parseTime (Stop w)) as [ [eh em]| | |]; try discriminate. simpl in H.
    destruct (mapM dayNumber (DaysOfWeek w)) as [days|]; try discriminate. simpl in H.
    destruct (_ || _) eqn:E; simplify_eq. reflect.
    by exists sh, sm, eh, em.
  - intros (sh & sm & eh & em & -> & -> & Hs & He & Hne & -> & Hd). simpl.
    rewrite <- Hs, <- He. destruct (_ || _) eqn:E; [|by destruct v].
    apply orb_true_iff in E as [E|E]; reflect; [lia|done].
Qed.

Definition window_wf (w : OffHourWindow) : Prop := is_Some (view_of w).

#[export] Instance window_wf_dec w : Decision (window_wf w).
Proof. unfold window_wf. apply _. Defined.

Definition views (ws : list OffHourWindow) : list window_view := omap view_of ws.

(** Off hours of a list of windows. *)
Definition windows_off (ws : list OffHourWindow) (t : time) : bool :=
  existsb (fun v => off_hours v t) (views ws).

Lemma views_Forall2 ws : Forall window_wf ws -> Forall2 window_ok ws (views ws).
Proof.
  induction 1 as [|w ws [v Hv] H IH]; [constructor|].
  unfold views in *. simpl. rewrite Hv. constructor; [by apply view_of_ok|done].
Qed.

(** The windows that are accepted are exactly the ones that convert. *)
Lemma ParseWindowToCron_wf start stop days :
  window_wf (mkWindow start stop days) <->
  exists c, ParseWindowToCron start stop days = Ok c.
Proof.
  split.
  - intros [v Hv]. apply view_of_ok in Hv. apply ParseWindowToCron_ok in Hv. by eexists.
  - intros [c Hc]. unfold ParseWindowToCron in Hc.
    unfold window_wf, view_of. simpl.
    destruct days as [|d days'] eqn:Hdays; [done|]. rewrite <- Hdays in *.
    destruct (parseTime start) as [ [sh sm]| | |] eqn:Hs; try discriminate.
    destruct (parseTime stop) as [ [eh em]| | |] eqn:He; try discriminate. simpl in *.
    destruct (_ && _) eqn:E in Hc; [done|].
    unfold convertDaysToCron in Hc.
    assert (exists l, convertDays_loop days = Ok l) as [l Hl].
    { destruct (convertDays_loop days); [by eexists|by rewrite Hdays in Hc..]. }
    assert (is_Some (mapM dayNumber days)) as [ns Hns].
    { clear -Hl. revert l Hl. induction days as [|d days IH]; intros l Hl; [by eexists|].
      simpl in *. destruct (dayMap (ToUpper d)) as [n|] eqn:Hd; [|done].
      change (dayNumber d = Some n) in Hd. rewrite Hd.
      destruct (convertDays_loop days) eqn:Hl'; try discriminate.
      destruct (IH _ eq_refl) as [ns ->]. by eexists. }
    rewrite Hns. simpl. apply parseTime_bounds in Hs, He.
    destruct (_ || _) eqn:E'; [|by eexists].
    apply orb_true_iff in E' as [E'|E']; reflect.
    + apply andb_false_iff in E as [E|E]; reflect; lia.
    + subst ns. apply mapM_Some in Hns. rewrite Hdays in Hns. inversion Hns.
Qed.

(** ** The grace-period tests never panic on day names *)

Lemma length_string_map f s : String.length (string_map f s) = String.length s.
Proof. induction s; simpl; congruence. Qed.

Lemma slice_to_length n s : (n <= String.length s)%nat -> is_Some (slice_to n s).
Proof.
  revert s. induction n as [|n IH]; intros [|c s] H; simpl in *; [by eexists..|lia|].
  destruct (IH s) as [p ->]; [lia|]. by eexists.
Qed.

Lemma parseWeekday_dayNumber d n : dayNumber d = Some n -> exists o, parseWeekday d = Ok o.
Proof.
  intros H. apply dayMap_abbrev in H as [Hn Hd].
  assert (String.length d = 3%nat) as Hlen.
  { rewrite <- (length_string_map ascii_upper d). unfold ToUpper in Hd. rewrite Hd.
    by destruct (weekday_cases n Hn) as [-> | [-> | [-> | [-> | [-> | [-> | -> ] ] ] ] ] ]. }
  unfold parseWeekday. destruct (slice_to_length 3 d) as [p ->]; [lia|]. by eexists.
Qed.

Lemma any_res_Ok {E A} (f : A -> res E bool) l :
  (forall x, x ∈ l -> exists b, f x = Ok b) -> exists b, any_res f l = Ok b.
Proof.
  induction l as [|x l IH]; intros H; [by eexists|]. simpl.
  destruct (H x) as [b ->]; [by left|]. simpl. destruct b; [by eexists|].
  apply IH. intros y Hy. apply H. by right.
Qed.

Lemma isInGraceTimeWindow_Ok b ws t grace :
  Forall window_wf ws -> exists r, isInGraceTimeWindow b ws t grace = Ok r.
Proof.
  rewrite Forall_forall. intros Hws. apply any_res_Ok. intros w Hw. apply any_res_Ok.
  intros d Hd. destruct (Hws w Hw) as [v Hv]. apply view_of_ok in Hv.
  destruct Hv as (?&?&?&?&_&_&_&_&_&Hdays&_). apply mapM_Some in Hdays.
  apply list_elem_of_lookup in Hd as [i Hd].
  destruct (Forall2_lookup_l _ _ _ _ _ Hdays Hd) as (n & _ & Hn).
  unfold in_grace_day. destruct (parseWeekday_dayNumber d n Hn) as [o ->]. simpl.
  destruct o, b; try by eexists.
  - destruct (res_ok _) as [[??]|]; by eexists.
  - destruct (res_ok _) as [[??]|]; by eexists.
Qed.

Section decision.
Context {HCron : Cron} {HTz : TimezoneDB} {Hlaws : CronLaws}.
Context (e : ScheduleEvaluator) (tz : string) (loc : Location).
Context (Hload : LoadLocation tz = Some loc) (Hloc : regular_zone loc).
Context (Hrecent : recent (Clock e)) (Hbuffer : scheduleBuffer e <= 0).
Notation now := (In (Clock e) loc).

Lemma evaluateWindows_off ws :
  Forall window_wf ws ->
  exists r, evaluateWindows e ws tz = Ok (Some r) /\ ShouldHibernate r = windows_off ws now.
Proof using Hlaws Hload Hloc Hrecent Hbuffer.
  intros Hws. destruct (decide (ws = [])) as [->|Hne]; [by eexists|].
  destruct (evaluateWindows_ok e tz loc Hload Hloc Hrecent Hbuffer ws (views ws))
    as (r & Hr & Ha); [by apply views_Forall2|done|].
  exists r. split; [done|]. by destruct Ha as [-> _].
Qed.
End decision.
