(* ===== verification/GraceSpec.v ===== *)
(** * The schedule buffer

    With a buffer a window is entered and left later than its times say: the
    evaluation of a window in terms of the last activations of its two lines, and
    what it announces while it is in no grace period. *)
From S2P Require Import Prelude GoString GoTime Windows Evaluate CronSpec ScheduleSpec.
From Stdlib Require Import Lia.

Local Open Scope Z_scope.

Lemma slice_to_all s : slice_to (String.length s) s = Some s.
Proof. induction s as [|c s IH]; [done|]. simpl. by rewrite IH. Qed.

Lemma parseWeekday_of d n : dayNumber d = Some n -> parseWeekday d = Ok (Some n).
Proof.
  intros H. apply dayMap_abbrev in H as [Hn Hd].
  assert (String.length d = 3%nat) as Hlen.
  { rewrite <- (length_string_map ascii_upper d). unfold ToUpper in Hd. rewrite Hd.
    by destruct (weekday_cases n Hn) as [-> | [-> | [-> | [-> | [-> | [-> | -> ] ] ] ] ] ]. }
  unfold parseWeekday. rewrite <- Hlen, slice_to_all, Hd.
  by destruct (weekday_cases n Hn) as [-> | [-> | [-> | [-> | [-> | [-> | -> ] ] ] ] ] ].
Qed.

Lemma within_grace_spec now t grace :
  within_grace now t grace = (unix_ns t <=? unix_ns now) && (unix_ns now <=? unix_ns t + grace).
Proof. unfold within_grace, After, Before, Equal, Add. cbn [unix_ns]. lia. Qed.

Section grace.
Context (l : Location) (Hl : regular_zone l).
Context (now : time) (Hz : zone now = l).
Context (w : OffHourWindow) (v : window_view) (Hv : window_ok w v).
Context (grace : Z) (Hgrace : 0 < grace < Day).

(** The most recent day of a weekday, today included. *)
Definition recent_day (n : Z) : Z := civil_day now - (Weekday now - n + 7) mod 7.

Definition day_grace (b : WindowBoundary) (n : Z) : bool :=
  let t := at_minutes l (recent_day n) (match b with StartBoundary => startMin v | EndBoundary => endMin v end) in
  match b with StartBoundary => true | EndBoundary => Weekday now =? n end &&
  (unix_ns t <=? unix_ns now) && (unix_ns now <=? unix_ns t + grace).

Lemma mostRecentWeekday_day n : civil_day (mostRecentWeekday now n) = recent_day n.
Proof using Hl Hz.
  unfold mostRecentWeekday, AddDate, recent_day. rewrite Hz.
  rewrite (fixed_Date_day l (proj1 Hl)); [lia|apply sec_of_day_bound|].
  apply (Z.mod_pos_bound _ Second Second_pos).
Qed.

Lemma in_grace_day_spec b d n :
  dayNumber d = Some n -> in_grace_day b w now grace d = Ok (day_grace b n).
Proof using Hl Hz Hv.
  intros Hn. destruct Hv as (sh & sm & eh & em & Hs & He & Hsv & Hev & _).
  unfold in_grace_day, day_grace, at_minutes. rewrite (parseWeekday_of d n Hn). cbn [res_bind].
  rewrite mostRecentWeekday_day, Hz, Hsv, Hev.
  destruct b; rewrite ?Hs, ?He; cbn [res_ok]; rewrite within_grace_spec.
  - by replace ((sh * 60 + sm) * 60) with (sh * 3600 + sm * 60) by lia.
  - replace ((eh * 60 + em) * 60) with (eh * 3600 + em * 60) by lia. by rewrite andb_assoc.
Qed.

(** Some listed day is in its grace period. *)
Lemma isInGrace_days b :
  exists r, isInGraceTimeWindow b [w] now grace = Ok r /\
    (r = true <-> exists n, n ∈ dayNums v /\ day_grace b n = true).
Proof using Hl Hz Hv.
  pose proof Hv as (_ & _ & _ & _ & _ & _ & _ & _ & _ & Hd & _).
  set (num := fun d => default 0 (dayNumber d)).
  assert (any_res (in_grace_day b w now grace) (DaysOfWeek w)
          = Ok (existsb (fun d => day_grace b (num d)) (DaysOfWeek w))) as Hany.
  { apply any_res_total. intros d Hin. apply mapM_Some in Hd. apply list_elem_of_lookup in Hin as [i Hi].
    destruct (Forall2_lookup_l _ _ _ _ _ Hd Hi) as (n & _ & Hn).
    rewrite (in_grace_day_spec b d n Hn). unfold num. by rewrite Hn. }
  unfold isInGraceTimeWindow. cbn [any_res]. rewrite Hany. cbn [res_bind].
  eexists. split; [by instantiate (1 := existsb (fun d => day_grace b (num d)) (DaysOfWeek w)); destruct (existsb _ _)|].
  rewrite existsb_spec. split.
  - intros (d & Hin & Hg). exists (num d). split; [|done].
    apply (mapM_dayNumber_elem _ _ _ Hd). exists d. split; [done|]. unfold num.
    pose proof (mapM_Some_1 _ _ _ Hd) as Hf. apply list_elem_of_lookup in Hin as [i Hi].
    destruct (Forall2_lookup_l _ _ _ _ _ Hf Hi) as (n & _ & Hn). by rewrite Hn.
  - intros (n & Hin & Hg). apply (mapM_dayNumber_elem _ _ _ Hd) in Hin as (d & Hin & Hn).
    exists d. split; [done|]. unfold num. by rewrite Hn.
Qed.

Lemma recent_day_of k :
  civil_day now - 6 <= k <= civil_day now -> recent_day ((k + 4) mod 7) = k.
Proof. unfold recent_day, Weekday. intros H. divmod. Qed.

Lemma recent_day_weekday n : 0 <= n <= 6 -> (recent_day n + 4) mod 7 = n.
Proof. unfold recent_day, Weekday. intros H. divmod. Qed.

Lemma listed_bound n : n ∈ dayNums v -> 0 <= n <= 6.
Proof using Hv.
  intros H. pose proof (window_ok_days_bound w v Hv) as Hb. rewrite Forall_forall in Hb. by apply Hb.
Qed.

(** The start: for [grace] after the last activation. *)
Lemma isInGrace_start lh :
  last_activation (startMin v) (dayNums v) now lh ->
  isInGraceTimeWindow StartBoundary [w] now grace = Ok (unix_ns now <=? unix_ns lh + grace).
Proof using Hl Hz Hv Hgrace.
  intros Hlh. destruct (isInGrace_days StartBoundary) as (r & -> & Hr). f_equal. apply eq_true_iff_eq. rewrite Hr.
  pose proof (window_ok_bounds _ _ Hv) as [Hs _].
  destruct (last_activation_day l _ _ _ _ Hl Hz Hs Hlh) as (Hns & Hle & Hday & _).
  unfold day_grace. setoid_rewrite andb_true_iff. setoid_rewrite Z.leb_le. rewrite ?Z.leb_le.
  setoid_rewrite (at_minutes_ns l Hl). destruct Hlh as (Hzl & Ha & Hlel & Hmax). split.
  - intros (n & Hn & H1 & H2).
    specialize (Hmax (at_minutes l (recent_day n) (startMin v))). rewrite at_minutes_zone, at_minutes_ns in Hmax by done.
    specialize (Hmax (eq_sym Hz)). unfold Second in *.
    assert (activation (startMin v) (dayNums v) (at_minutes l (recent_day n) (startMin v))) as Hact.
    { apply at_minutes_activation; [done..|]. rewrite recent_day_weekday; [done|by apply listed_bound]. }
    specialize (Hmax Hact H1). lia.
  - intros Hin. exists ((civil_day lh + 4) mod 7). split; [done|].
    rewrite (time_ns l Hl now Hz) in Hlel, Hin |- *. pose proof (Z.mod_pos_bound (unix_ns now) Second Second_pos).
    pose proof (sec_of_day_bound now). rewrite Hns in Hlel, Hin.
    unfold time_Nanosecond, Day, Hour, Minute, Second in *. rewrite recent_day_of by lia. lia.
Qed.

(** The end: likewise, but on the day of the end only. *)
Lemma isInGrace_end lw :
  last_activation (endMin v) (dayNums v) now lw ->
  isInGraceTimeWindow EndBoundary [w] now grace =
  Ok ((civil_day lw =? civil_day now) && (unix_ns now <=? unix_ns lw + grace)).
Proof using Hl Hz Hv Hgrace.
  intros Hlw. destruct (isInGrace_days EndBoundary) as (r & -> & Hr). f_equal. apply eq_true_iff_eq. rewrite Hr.
  pose proof (window_ok_bounds _ _ Hv) as [_ He].
  destruct (last_activation_day l _ _ _ _ Hl Hz He Hlw) as (Hns & Hle & Hday & Hlast).
  unfold day_grace. setoid_rewrite andb_true_iff. setoid_rewrite andb_true_iff.
  setoid_rewrite Z.leb_le. setoid_rewrite Z.eqb_eq. setoid_rewrite (at_minutes_ns l Hl). split.
  - intros (n & Hn & [Hw H1] & H2).
    assert (recent_day n = civil_day now) as Hk by (unfold recent_day; rewrite Hw; divmod).
    rewrite Hk in H1, H2. rewrite (time_ns l Hl now Hz) in H1 |- *.
    pose proof (Z.mod_pos_bound (unix_ns now) Second Second_pos).
    assert (civil_day now <= civil_day lw) as Hge.
    { apply Hlast; [unfold Weekday in Hw; by rewrite Hw|]. unfold time_Nanosecond, Second in *. lia. }
    assert (civil_day lw = civil_day now) as Heq.
    { pose proof (sec_of_day_bound now). lia. }
    split; [done|]. rewrite Hns, Heq. rewrite (time_ns l Hl now Hz) in H2. done.
  - intros [Hk Hin]. exists ((civil_day lw + 4) mod 7). split; [done|].
    rewrite recent_day_of by lia. rewrite <- Hns. destruct Hlw as (_ & _ & Hlel & _). unfold Weekday. rewrite Hk. lia.
Qed.
End grace.

(** ** Between two activations *)

Section until.
Context {HCron : Cron} {Hlaws : CronLaws}.

Lemma off_hours_until v t t' n :
  regular_zone (zone t) -> zone t' = zone t -> unix_ns t <= unix_ns t' ->
  (exists w, window_ok w v) -> recent t ->
  next_activation (if off_hours v t then endMin v else startMin v) (dayNums v) t n ->
  unix_ns t' < unix_ns n ->
  off_hours v t' = off_hours v t.
Proof using Hlaws.
  intros Hz Hz' Hle [w Hw] [Hrec] Hn Hlt.
  pose proof (window_ok_bounds _ _ Hw) as [Hs He].
  pose proof (window_ok_valid_days _ _ Hw) as Hd. pose proof (window_ok_distinct _ _ Hw) as Hne.
  assert (forall m u, 0 <= m < 1440 -> regular_zone (zone u) -> zero_ns + 7 * Day < unix_ns u ->
            exists r, last_activation m (dayNums v) u r) as Hlast.
  { intros m u Hm Hu Hru. destruct (cron_line_next _ _ Hm Hd) as (s & _ & Hs').
    destruct (findLastOccurrence_spec _ _ s u Hu Hs' Hm Hd Hru) as (r & _ & Hr). by exists r. }
  destruct (Hlast _ t Hs) as [lh Hlh]; [done..|]. destruct (Hlast _ t He) as [lw Hlw]; [done..|].
  destruct (Hlast _ t' Hs) as [lh' Hlh']; [congruence|lia|].
  destruct (Hlast _ t' He) as [lw' Hlw']; [congruence|lia|].
  rewrite <- (last_compare _ _ _ _ _ Hz eq_refl Hs He Hne Hlh Hlw) in Hn |- *.
  rewrite <- (last_compare (zone t) v t' lh' lw') by (done || congruence).
  pose proof (last_activation_mono _ _ _ _ _ _ Hz' Hle Hlh Hlh').
  pose proof (last_activation_mono _ _ _ _ _ _ Hz' Hle Hlw Hlw').
  unfold After in *. destruct (unix_ns lw <? unix_ns lh) eqn:E; reflect.
  - pose proof (last_activation_until _ _ _ _ _ _ _ Hz' Hle Hlw Hlw' Hn Hlt) as ->.
    apply Z.ltb_lt. lia.
  - pose proof (last_activation_until _ _ _ _ _ _ _ Hz' Hle Hlh Hlh' Hn Hlt) as ->.
    apply Z.ltb_ge. lia.
Qed.

Lemma next_activation_ex m days t :
  0 <= m < 1440 -> valid_days days -> regular_zone (zone t) -> exists n, next_activation m days t n.
Proof using Hlaws.
  intros Hm Hd Hz. destruct (cron_line_next _ _ Hm Hd) as (s & _ & Hs).
  destruct (Hs t Hz) as (H1 & H2 & H3 & H4). by exists (cron_Next s t).
Qed.

(** Starts and ends of a window alternate: where it stays off hours, or on, no other
    start, or end, comes between. *)
Lemma last_same l v t t' lh lw lh' lw' :
  regular_zone l -> zone t = l -> zone t' = l ->
  0 <= startMin v < 1440 -> 0 <= endMin v < 1440 -> startMin v <> endMin v ->
  last_activation (startMin v) (dayNums v) t lh -> last_activation (endMin v) (dayNums v) t lw ->
  last_activation (startMin v) (dayNums v) t' lh' -> last_activation (endMin v) (dayNums v) t' lw' ->
  unix_ns t <= unix_ns t' ->
  (if After lh lw then unix_ns lw' = unix_ns lw else unix_ns lh' = unix_ns lh) ->
  unix_ns lh' = unix_ns lh /\ unix_ns lw' = unix_ns lw /\ civil_day lw' = civil_day lw.
Proof using.
  intros Hl Hz Hz' Hs He Hne Hlh Hlw Hlh' Hlw' Hle Hsame.
  assert (zone t' = zone t) as Hzz by congruence.
  pose proof (last_activation_mono _ _ _ _ _ _ Hzz Hle Hlh Hlh') as Hm1.
  pose proof (last_activation_mono _ _ _ _ _ _ Hzz Hle Hlw Hlw') as Hm2.
  destruct (last_activation_day l _ _ _ _ Hl Hz Hs Hlh) as (N1 & _ & D1 & _).
  destruct (last_activation_day l _ _ _ _ Hl Hz He Hlw) as (N2 & _ & D2 & _).
  destruct (last_activation_day l _ _ _ _ Hl Hz' Hs Hlh') as (N3 & L3 & D3 & M3).
  destruct (last_activation_day l _ _ _ _ Hl Hz' He Hlw') as (N4 & L4 & D4 & M4).
  pose proof (M3 _ D1) as A1. pose proof (M3 _ D2) as A2. pose proof (M3 _ D4) as A3.
  pose proof (M4 _ D1) as B1. pose proof (M4 _ D2) as B2. pose proof (M4 _ D3) as B3.
  unfold After in Hsame. rewrite N1, N2, N3, N4 in *. unfold Second in *.
  destruct (_ <? _) eqn:E in Hsame; reflect; lia.
Qed.
End until.

(** ** One window *)

(** Past the start of a window whose predecessor has ended for longer than the
    buffer; and past its end, on the day of the end. *)
Definition start_grace (g : Z) (now lh lw : time) (off : bool) : bool :=
  off && (unix_ns lw + g <? unix_ns lh) && (unix_ns now <=? unix_ns lh + g).
Definition end_grace (g : Z) (now lw : time) (off : bool) : bool :=
  negb off && (civil_day lw =? civil_day now) && (unix_ns now <=? unix_ns lw + g).

(** What the result of one window says, from the last and the next activations of
    its lines. *)
Record buffered (g : Z) (now lh lw nh nw : time) (off : bool) (r : EvaluationResult) : Prop := {
  buffered_decision : ShouldHibernate r = off && negb (start_grace g now lh lw off) || end_grace g now lw off;
  buffered_grace : InGracePeriod r = start_grace g now lh lw off || end_grace g now lw off;
  buffered_end : GracePeriodEnd r = if InGracePeriod r then Add (if off then lh else lw) g else zero_time;
  buffered_next : InGracePeriod r = false ->
    NextHibernateTime r = nh /\ NextWakeUpTime r = nw /\ CurrentState r = state_of off;
}.

Lemma end_grace_day g now lw off :
  end_grace g now lw off = true -> off = false /\ unix_ns now <= unix_ns lw + g.
Proof. unfold end_grace. intros H. by reflect. Qed.

(** A window that is in no grace period enters none before its next activation. *)
Lemma no_grace_later g t t' lh lw lh' lw' off :
  start_grace g t lh lw off = false /\ end_grace g t lw off = false ->
  unix_ns t <= unix_ns t' -> civil_day lw <= civil_day t -> civil_day t <= civil_day t' ->
  unix_ns lh' = unix_ns lh -> unix_ns lw' = unix_ns lw -> civil_day lw' = civil_day lw ->
  start_grace g t' lh' lw' off = false /\ end_grace g t' lw' off = false.
Proof.
  unfold start_grace, end_grace. intros [H1 H2] Hle Hd Hd' -> -> ->. destruct off; cbn [andb negb] in *.
  - split; [|done]. destruct (unix_ns lw + g <? unix_ns lh); [|done]. cbn [andb] in *. lia.
  - split; [done|]. destruct (civil_day lw =? civil_day t) eqn:E; cbn [andb] in H2; [lia|].
    replace (civil_day lw =? civil_day t') with false by lia. done.
Qed.

(** One buffer, or none. *)
Definition same_buffer (e e' : ScheduleEvaluator) : Prop :=
  scheduleBuffer e' = scheduleBuffer e \/ scheduleBuffer e <= 0 /\ scheduleBuffer e' <= 0.

Lemma Day_pos : 0 < Day.
Proof. done. Qed.

Section buffered.
Context {HCron : Cron} {HTz : TimezoneDB} {Hlaws : CronLaws}.
Context (tz : string) (loc : Location).
Context (Hload : LoadLocation tz = Some loc) (Hloc : regular_zone loc).

Section one_clock.
Context (e : ScheduleEvaluator) (Hrecent : recent (Clock e)).
Context (Hbuffer : 0 < scheduleBuffer e < Day).
Notation now := (In (Clock e) loc).
Notation g := (scheduleBuffer e).

Lemma evaluate_window_buffered w v :
  window_ok w v -> exists lh lw nh nw r,
    last_activation (startMin v) (dayNums v) now lh /\
    last_activation (endMin v) (dayNums v) now lw /\
    next_activation (startMin v) (dayNums v) now nh /\
    next_activation (endMin v) (dayNums v) now nw /\
    evaluate_window e tz w = Ok r /\ buffered g now lh lw nh nw (off_hours v now) r.
Proof using Hlaws Hload Hloc Hrecent Hbuffer.
  intros Hok.
  destruct (evaluate_window_unfold e tz loc Hload Hloc Hrecent w v Hok)
    as (lh & lw & nh & nw & Hlh & Hlw & Hnh & Hnw & ->).
  exists lh, lw, nh, nw.
  pose proof (isInGrace_start loc Hloc now eq_refl w v Hok g Hbuffer lh Hlh) as Hs.
  pose proof (isInGrace_end loc Hloc now eq_refl w v Hok g Hbuffer lw Hlw) as He.
  unfold eval_grace. rewrite Hs, He. destruct (0 <? g) eqn:Eg; reflect; [|lia].
  assert (negb (negb (Before (Add lw g) lh)) = (unix_ns lw + g <? unix_ns lh)) as -> by apply negb_involutive.
  destruct (off_hours v now); cbn [andb orb negb res_bind].
  - destruct (unix_ns lw + g <? unix_ns lh) eqn:Ec, (unix_ns now <=? unix_ns lh + g) eqn:En;
      cbn [res_bind andb negb orb]; eexists; (do 5 (split; [done|]));
      split; unfold start_grace, end_grace; cbn [andb negb orb ShouldHibernate InGracePeriod GracePeriodEnd
        NextHibernateTime NextWakeUpTime CurrentState] in *; rewrite ?Ec, ?En in *; done.
  - destruct (civil_day lw =? civil_day now) eqn:Ec, (unix_ns now <=? unix_ns lw + g) eqn:En;
      cbn [res_bind andb negb orb]; eexists; (do 5 (split; [done|]));
      split; unfold start_grace, end_grace; cbn [andb negb orb ShouldHibernate InGracePeriod GracePeriodEnd
        NextHibernateTime NextWakeUpTime CurrentState] in *; rewrite ?Ec, ?En in *; done.
Qed.
End one_clock.

(** *** Any buffer shorter than a day *)

(** A result that is in a grace period tells its end, at most one buffer away. *)
Definition grace_ok (e : ScheduleEvaluator) (r : EvaluationResult) : Prop :=
  if InGracePeriod r
  then IsZero (GracePeriodEnd r) = false /\
       unix_ns (Clock e) <= unix_ns (GracePeriodEnd r) <= unix_ns (Clock e) + scheduleBuffer e
  else GracePeriodEnd r = zero_time.

Lemma evaluate_window_settled e w v :
  recent (Clock e) -> scheduleBuffer e < Day -> window_ok w v ->
  exists r, evaluate_window e tz w = Ok r /\ grace_ok e r /\
    (InGracePeriod r = false -> announces [v] (In (Clock e) loc) r).
Proof using Hlaws Hload Hloc.
  intros Hr Hg Hok. destruct (Z.le_gt_cases (scheduleBuffer e) 0) as [Hg0|Hg0].
  { destruct (evaluate_window_ok e tz loc Hload Hloc Hr Hg0 w v Hok) as (r & He & Ha).
    exists r. split; [done|]. split; [|done]. destruct Ha as (_ & _ & _ & _ & Hi & Hz). unfold grace_ok. by rewrite Hi. }
  destruct (evaluate_window_buffered e Hr (conj Hg0 Hg) w v Hok)
    as (lh & lw & nh & nw & r & Hlh & Hlw & Hnh & Hnw & He & [Hd Hgr Hend Hnext]).
  exists r. split; [done|]. destruct Hlh as (_ & _ & Hleh & _), Hlw as (_ & _ & Hlew & _). cbn [In unix_ns] in *.
  split.
  - unfold grace_ok. rewrite Hend. destruct (InGracePeriod r); [|done].
    unfold start_grace, end_grace in Hgr. cbn [In unix_ns] in Hgr. destruct Hr as [Hr].
    unfold IsZero, Add. cbn [unix_ns]. rewrite Z.eqb_neq. symmetry in Hgr.
    unfold Day, Hour, Minute, Second in *.
    destruct (off_hours _ _); cbn [andb negb orb] in Hgr; rewrite ?orb_false_r in Hgr; reflect; lia.
  - intros Hi. destruct (Hnext Hi) as (Enh & Enw & Hc). rewrite Hi in Hend. unfold announces. rewrite Enh, Enw.
    rewrite Hgr, orb_false_iff in Hi. destruct Hi as [Hs He']. rewrite Hs, He' in Hd.
    cbn [existsb]. rewrite !orb_false_r in *. cbn [negb] in Hd. rewrite andb_true_r in Hd. rewrite Hd.
    split; [done|]. split; [by apply earliest_one|]. split; [by apply earliest_one|].
    split; [done|]. by rewrite Hgr, Hs, He'.
Qed.

(** Where nothing was in a grace period, nothing is before the next activation. *)
Lemma evaluate_window_steady e e' w v r r' n :
  recent (Clock e) -> scheduleBuffer e < Day -> same_buffer e e' -> window_ok w v ->
  evaluate_window e tz w = Ok r -> evaluate_window e' tz w = Ok r' ->
  InGracePeriod r = false -> unix_ns (Clock e) <= unix_ns (Clock e') ->
  next_activation (if ShouldHibernate r then endMin v else startMin v) (dayNums v) (In (Clock e) loc) n ->
  unix_ns (Clock e') < unix_ns n ->
  ShouldHibernate r' = ShouldHibernate r.
Proof using Hlaws Hload Hloc.
  intros Hr Hg Hgg Hok He He' Hi Hle Hn Hlt.
  assert (recent (Clock e')) as Hr' by (destruct Hr; constructor; lia).
  destruct (evaluate_window_settled e w v Hr Hg Hok) as (x & Hx & _ & Ha). rewrite He in Hx. injection Hx as <-.
  destruct (Ha Hi) as (Hs & _). cbn [existsb] in Hs. rewrite orb_false_r in Hs. rewrite Hs in Hn |- *.
  pose proof (off_hours_until v (In (Clock e) loc) (In (Clock e') loc) n Hloc eq_refl Hle
    (ex_intro _ w Hok) (recent_now e loc Hr) Hn Hlt) as Hoff.
  destruct (Z.le_gt_cases (scheduleBuffer e) 0) as [Hg0|Hg0].
  { destruct (evaluate_window_ok e' tz loc Hload Hloc Hr' ltac:(destruct Hgg; lia) w v Hok) as (x & Hx & Ha').
    rewrite He' in Hx. injection Hx as <-. destruct Ha' as (Hs' & _). cbn [existsb] in Hs'. by rewrite Hs', orb_false_r. }
  destruct (evaluate_window_buffered e Hr (conj Hg0 Hg) w v Hok)
    as (lh & lw & nh & nw & x & Hlh & Hlw & _ & _ & Hx & [_ Hgr _ _]). rewrite He in Hx. injection Hx as <-.
  destruct (evaluate_window_buffered e' Hr' ltac:(destruct Hgg; lia) w v Hok)
    as (lh' & lw' & _ & _ & x & Hlh' & Hlw' & _ & _ & Hx & [Hd' _ _ _]). rewrite He' in Hx. injection Hx as <-.
  pose proof (window_ok_bounds _ _ Hok) as [Hsm Hem]. pose proof (window_ok_distinct _ _ Hok) as Hne.
  pose proof (last_compare loc v (In (Clock e) loc) lh lw Hloc eq_refl Hsm Hem Hne Hlh Hlw) as Hcmp.
  assert (if After lh lw then unix_ns lw' = unix_ns lw else unix_ns lh' = unix_ns lh) as Hsame.
  { rewrite Hcmp. destruct (off_hours v (In (Clock e) loc)).
    - exact (last_activation_until _ _ (In (Clock e) loc) (In (Clock e') loc) _ _ _ eq_refl Hle Hlw Hlw' Hn Hlt).
    - exact (last_activation_until _ _ (In (Clock e) loc) (In (Clock e') loc) _ _ _ eq_refl Hle Hlh Hlh' Hn Hlt). }
  destruct (last_same loc v (In (Clock e) loc) (In (Clock e') loc) lh lw lh' lw' Hloc eq_refl eq_refl Hsm Hem Hne Hlh Hlw Hlh' Hlw' Hle Hsame)
    as (E1 & E2 & E3).
  replace (scheduleBuffer e') with (scheduleBuffer e) in * by (destruct Hgg; lia).
  rewrite Hd', Hoff. rewrite Hgr, orb_false_iff in Hi.
  destruct (no_grace_later (scheduleBuffer e) (In (Clock e) loc) (In (Clock e') loc) lh lw lh' lw'
              (off_hours v (In (Clock e) loc))) as [-> ->]; try done.
  - destruct (last_activation_day loc _ _ (In (Clock e) loc) lw Hloc eq_refl Hem Hlw) as (_ & Hl' & _).
    pose proof (sec_of_day_bound (In (Clock e) loc)). lia.
  - unfold civil_day. apply Z.div_le_mono; [lia|]. rewrite !(zone_local_sec loc Hloc) by done. cbn [In unix_ns].
    pose proof (Z.div_le_mono _ _ Second Second_pos Hle). lia.
  - by rewrite orb_false_r, andb_true_r.
Qed.

(** *** Several windows *)

(** A test that [or_combine] combines by or. *)
Definition or_test (f : EvaluationResult -> bool) : Prop := forall a b, f (or_combine a b) = f a || f b.

Lemma or_test_decision : or_test ShouldHibernate.
Proof. done. Qed.
Lemma or_test_grace : or_test InGracePeriod.
Proof. done. Qed.

Lemma evaluate_loop_or f e ws c r :
  or_test f -> evaluate_loop e tz ws (Some c) = Ok (Some r) ->
  f r = true <-> f c = true \/ exists w x, w ∈ ws /\ evaluate_window e tz w = Ok x /\ f x = true.
Proof.
  intros Hf. revert c. induction ws as [|w ws IH]; intros c; cbn [evaluate_loop].
  { intros [= <-]. split; [by left|]. intros [H|(w & _ & H & _)]; [done|set_solver]. }
  destruct (evaluate_window e tz w) as [x| | |] eqn:Ew; try done. cbn [res_bind]. intros Hr.
  rewrite (IH _ Hr), (Hf c x), orb_true_iff. split.
  - intros [ [H|H] | (w' & x' & Hin & H) ]; [by left|right; exists w, x; set_solver|right; exists w', x'; set_solver].
  - intros [H | (w' & x' & Hin & Hw' & H) ]; [by left; left|].
    apply elem_of_cons in Hin as [-> | Hin]; [|right; by exists w', x'].
    left; right. rewrite Ew in Hw'. by injection Hw' as ->.
Qed.

Lemma evaluateWindows_or f e ws r :
  or_test f -> ws <> [] -> evaluateWindows e ws tz = Ok (Some r) ->
  f r = true <-> exists w x, w ∈ ws /\ evaluate_window e tz w = Ok x /\ f x = true.
Proof.
  intros Hf Hne. destruct ws as [|w ws]; [done|]. cbn [evaluateWindows evaluate_loop].
  destruct (evaluate_window e tz w) as [x| | |] eqn:Ew; try done. cbn [res_bind]. intros Hr.
  rewrite (evaluate_loop_or f e ws x r Hf Hr). split.
  - intros [H | (w' & x' & Hin & H) ]; [exists w, x; set_solver|exists w', x'; set_solver].
  - intros (w' & x' & Hin & Hw' & H). apply elem_of_cons in Hin as [-> | Hin]; [|right; by exists w', x'].
    left. rewrite Ew in Hw'. by injection Hw' as ->.
Qed.

Lemma grace_ok_combine e c r : grace_ok e c -> grace_ok e r -> grace_ok e (or_combine c r).
Proof.
  unfold grace_ok, or_combine. cbn [InGracePeriod GracePeriodEnd].
  destruct (InGracePeriod c), (InGracePeriod r); cbn [andb orb]; intros Hc Hr.
  - destruct Hc as [Hz Hc], Hr as [Hz' Hr]. rewrite Hz, Hz'. cbn [negb].
    destruct (earlierTime_nonzero _ _ Hz Hz') as [ [-> ?] | [-> ?] ]; by split.
  - exact Hc.
  - destruct Hr as [Hz' Hr]. rewrite Hc, Hz'. change (IsZero zero_time) with true. cbn [negb]. by split.
  - exact Hc.
Qed.

(** The result of the windows before, and of those to come. *)
Lemma evaluate_loop_settled e ws vs done_vs c r :
  recent (Clock e) -> scheduleBuffer e < Day -> Forall2 window_ok ws vs ->
  grace_ok e c -> (InGracePeriod c = false -> announces done_vs (In (Clock e) loc) c) ->
  evaluate_loop e tz ws (Some c) = Ok (Some r) ->
  grace_ok e r /\ (InGracePeriod r = false -> announces (done_vs ++ vs) (In (Clock e) loc) r).
Proof using Hlaws Hload Hloc.
  intros Hr Hg Hws. revert done_vs c. induction Hws as [|w v ws vs Hok Hws IH]; intros dvs c Hc Ha; cbn [evaluate_loop].
  { intros [= <-]. rewrite app_nil_r. by split. }
  destruct (evaluate_window_settled e w v Hr Hg Hok) as (x & -> & Hx & Hax). cbn [res_bind]. intros Hrun.
  replace (dvs ++ v :: vs) with ((dvs ++ [v]) ++ vs) by by rewrite <- app_assoc.
  apply (IH (dvs ++ [v]) (or_combine c x)); [by apply grace_ok_combine| |done].
  cbn [or_combine InGracePeriod]. intros Hi. apply orb_false_iff in Hi as [Hi Hi'].
  apply announces_combine; [by apply recent_now|by apply Ha|by apply Hax].
Qed.

Lemma evaluateWindows_settled e ws r :
  recent (Clock e) -> scheduleBuffer e < Day -> Forall window_wf ws -> ws <> [] ->
  evaluateWindows e ws tz = Ok (Some r) ->
  grace_ok e r /\ (InGracePeriod r = false -> announces (views ws) (In (Clock e) loc) r).
Proof using Hlaws Hload Hloc.
  intros Hr Hg Hws Hne. pose proof (views_Forall2 ws Hws) as Hv.
  destruct Hv as [|w v ws' vs Hok Hv]; [done|]. cbn [evaluateWindows evaluate_loop].
  destruct (evaluate_window_settled e w v Hr Hg Hok) as (x & -> & Hx & Hax). cbn [res_bind].
  apply (evaluate_loop_settled e ws' vs [v] x r Hr Hg Hv Hx Hax).
Qed.

(** Without a buffer there are no grace periods. *)
Lemma evaluateWindows_announced e ws r :
  recent (Clock e) -> scheduleBuffer e <= 0 -> Forall window_wf ws -> ws <> [] ->
  evaluateWindows e ws tz = Ok (Some r) -> announces (views ws) (In (Clock e) loc) r.
Proof using Hlaws Hload Hloc.
  intros Hr Hg Hws Hne He.
  destruct (evaluateWindows_ok e tz loc Hload Hloc Hr Hg ws (views ws) (views_Forall2 ws Hws) Hne) as (x & Hx & Ha).
  rewrite He in Hx. by injection Hx as <-.
Qed.

Lemma views_elem ws w v : w ∈ ws -> view_of w = Some v -> v ∈ views ws.
Proof. intros Hw Hv. unfold views. apply list_elem_of_omap. by exists w. Qed.

(** The decision of several windows stays until the first of the next ends, when
    they hibernate, or of the next starts. *)
Lemma evaluateWindows_steady e e' ws r r' :
  recent (Clock e) -> scheduleBuffer e < Day -> same_buffer e e' ->
  Forall window_wf ws -> ws <> [] ->
  evaluateWindows e ws tz = Ok (Some r) -> evaluateWindows e' ws tz = Ok (Some r') ->
  InGracePeriod r = false -> unix_ns (Clock e) <= unix_ns (Clock e') ->
  unix_ns (Clock e') < unix_ns (if ShouldHibernate r then NextWakeUpTime r else NextHibernateTime r) ->
  ShouldHibernate r' = ShouldHibernate r.
Proof using Hlaws Hload Hloc.
  intros Hr Hg Hgg Hws Hne He He' Hi Hle Hlt.
  destruct (evaluateWindows_settled e ws r Hr Hg Hws Hne He) as [_ Ha]. destruct (Ha Hi) as (_ & Hh & Hw & _).
  assert (forall w x, w ∈ ws -> evaluate_window e tz w = Ok x -> InGracePeriod x = false) as Hnone.
  { intros w x Hin Hx. apply not_true_is_false. intros Ht.
    assert (InGracePeriod r = true) by (apply (evaluateWindows_or _ e ws r or_test_grace Hne He); by exists w, x). congruence. }
  assert (forall w x x', w ∈ ws -> evaluate_window e tz w = Ok x -> evaluate_window e' tz w = Ok x' ->
            ShouldHibernate x = ShouldHibernate r -> ShouldHibernate x' = ShouldHibernate x) as Hsame.
  { intros w x x' Hin Hx Hx' Hs. rewrite Forall_forall in Hws. destruct (Hws w Hin) as [v Hv].
    pose proof (views_elem ws w v Hin Hv) as Hvin. apply view_of_ok in Hv. pose proof (window_ok_bounds _ _ Hv) as [Hb1 Hb2].
    destruct (next_activation_ex (if ShouldHibernate x then endMin v else startMin v) (dayNums v) (In (Clock e) loc))
      as [n Hn]; [by destruct (ShouldHibernate x)|by eapply window_ok_valid_days|done|].
    eapply (evaluate_window_steady e e' w v x x' n Hr Hg Hgg Hv Hx Hx' (Hnone w x Hin Hx) Hle Hn).
    eapply Z.lt_le_trans; [exact Hlt|]. rewrite Hs in Hn. destruct (ShouldHibernate r).
    - by apply (proj2 Hw v).
    - by apply (proj2 Hh v). }
  assert (recent (Clock e')) as Hr' by (destruct Hr; constructor; lia).
  assert (forall w e1, recent (Clock e1) -> scheduleBuffer e1 < Day -> w ∈ ws ->
            exists x, evaluate_window e1 tz w = Ok x) as Hex.
  { intros w e1 Hr1 Hg1 Hin. rewrite Forall_forall in Hws. destruct (Hws w Hin) as [v Hv]. apply view_of_ok in Hv.
    destruct (evaluate_window_settled e1 w v Hr1 Hg1 Hv) as (x & Hx & _). by exists x. }
  pose proof (evaluateWindows_or _ e ws r or_test_decision Hne He) as Hd.
  pose proof (evaluateWindows_or _ e' ws r' or_test_decision Hne He') as Hd'.
  destruct (ShouldHibernate r) eqn:Es.
  - apply Hd'. destruct (proj1 Hd eq_refl) as (w & x & Hin & Hx & Ht).
    destruct (Hex w e' Hr' ltac:(pose proof Day_pos; destruct Hgg; lia) Hin) as [x' Hx']. exists w, x'. split; [done|]. split; [done|].
    rewrite (Hsame w x x'); congruence.
  - apply not_true_is_false. intros Ht. apply Hd' in Ht as (w & x' & Hin & Hx' & Ht).
    destruct (Hex w e Hr Hg Hin) as [x Hx]. destruct (ShouldHibernate x) eqn:Ex.
    + assert (false = true) by (apply Hd; by exists w, x). done.
    + pose proof (Hsame w x x' Hin Hx Hx' Ex) as Heq. rewrite Ex in Heq. congruence.
Qed.
End buffered.
