(* ===== verification/ExceptionSpec.v ===== *)
(** * The decision with exceptions, and its claims

    How [Evaluate] composes the base schedule with the exceptions that are
    active now, that it always returns, and when it is to be called again. *)
From S2P Require Import Prelude GoString GoTime Windows Evaluate CronSpec ScheduleSpec.
From Stdlib Require Import Lia.

Local Open Scope Z_scope.

(** ** Merging *)

Lemma fold_merge_windows l a :
  exc_Windows (fold_left merge_step l a) = exc_Windows a ++ concat (map exc_Windows l).
Proof.
  revert a. induction l as [|m l IH]; intros a; simpl; [by rewrite app_nil_r|].
  rewrite IH. simpl. by rewrite <- app_assoc.
Qed.

Definition of_type (t : ExceptionType) (l : list Exception) : list Exception :=
  filter (fun x => exc_Type x = t) l.

(** The windows of all the exceptions of one type. *)
Definition windows_of (t : ExceptionType) (l : list Exception) : list OffHourWindow :=
  concat (map exc_Windows (of_type t l)).

Lemma mergeByType_windows l t :
  match mergeByType l t with
  | None => of_type t l = []
  | Some m => of_type t l <> [] /\ exc_Windows m = windows_of t l
  end.
Proof.
  unfold mergeByType, windows_of, of_type.
  destruct (filter (fun x => exc_Type x = t) l) as [|m [|m' l']] eqn:E; [done| |].
  - split; [done|]. simpl. by rewrite app_nil_r.
  - split; [done|]. rewrite fold_merge_windows. reflexivity.
Qed.

Lemma fold_merge_lead l a :
  LeadTime (fold_left merge_step l a) = fold_left (fun acc m => Z.max acc (LeadTime m)) l (LeadTime a).
Proof.
  revert a. induction l as [|m l IH]; intros a; simpl; [done|]. rewrite IH. simpl. f_equal.
  destruct (LeadTime a <? LeadTime m) eqn:E; reflect; lia.
Qed.

Lemma fold_max_le l a b :
  a <= b -> Forall (fun m => LeadTime m <= b) l ->
  fold_left (fun acc m => Z.max acc (LeadTime m)) l a <= b.
Proof.
  intros Ha H. revert a Ha. induction H as [|m l Hm H IH]; intros a Ha; simpl; [done|].
  apply IH. lia.
Qed.

Lemma mergeByType_lead l t m :
  mergeByType l t = Some m -> Forall (fun x => LeadTime x <= 0) l -> LeadTime m <= 0.
Proof.
  unfold mergeByType. intros H Hl. rewrite Forall_forall in Hl.
  assert (Forall (fun x => LeadTime x <= 0) (filter (fun x => exc_Type x = t) l)) as Hf.
  { apply Forall_forall. intros x Hx. apply list_elem_of_filter in Hx as [_ Hx]. auto. }
  destruct (filter (fun x => exc_Type x = t) l) as [|x [|y l']] eqn:E; simplify_eq.
  - by apply Forall_cons in Hf as [? _].
  - rewrite fold_merge_lead. apply fold_max_le; [simpl; lia|done].
Qed.

(** An interval of validity of a merged exception covers those it merges. *)
Lemma fold_merge_span l a :
  let m := fold_left merge_step l a in
  unix_ns (ValidFrom m) <= unix_ns (ValidFrom a) /\ unix_ns (ValidUntil a) <= unix_ns (ValidUntil m) /\
  Forall (fun x => unix_ns (ValidFrom m) <= unix_ns (ValidFrom x) /\
                   unix_ns (ValidUntil x) <= unix_ns (ValidUntil m)) l.
Proof.
  revert a. induction l as [|x l IH]; intros a; simpl; [split; [lia|]; split; [lia|constructor]|].
  destruct (IH (merge_step a x)) as (H1 & H2 & H3). cbn in H1, H2. unfold Before, After in *.
  destruct (unix_ns (ValidFrom x) <? unix_ns (ValidFrom a)) eqn:E1,
           (unix_ns (ValidUntil a) <? unix_ns (ValidUntil x)) eqn:E2; reflect;
    (split; [lia|]; split; [lia|]; constructor; [lia|done]).
Qed.

Lemma filterActive_spec e excs x :
  x ∈ filterActive e excs <-> Some x ∈ excs /\ isExceptionActive e x = true.
Proof.
  induction excs as [|[y|] l IH]; simpl; [set_solver| |].
  - destruct (isExceptionActive e y) eqn:E; rewrite !elem_of_cons, IH; split.
    + intros [-> | [? ?] ]; auto.
    + intros [ [ [= ->] | ? ] ? ]; auto.
    + intros [? ?]; auto.
    + intros [ [ [= ->] | ? ] ? ]; [congruence|auto].
  - rewrite elem_of_cons, IH. split; [intros [? ?]; auto|]. intros [ [ [=] | ? ] ? ]; auto.
Qed.

Definition active_windows (e : ScheduleEvaluator) (t : ExceptionType)
  (excs : list (option Exception)) : list OffHourWindow :=
  windows_of t (filterActive e excs).

(** The base windows, or those of the active replacements. *)
Definition effective_windows (e : ScheduleEvaluator) (base : list OffHourWindow)
  (excs : list (option Exception)) : list OffHourWindow :=
  match of_type ExceptionReplace (filterActive e excs) with
  | [] => base
  | _ => active_windows e ExceptionReplace excs
  end.

Lemma effective_windows_merge e base excs :
  match mergeByType (filterActive e excs) ExceptionReplace with
  | Some r => exc_Windows r
  | None => base
  end = effective_windows e base excs.
Proof.
  unfold effective_windows, active_windows.
  pose proof (mergeByType_windows (filterActive e excs) ExceptionReplace) as H.
  destruct (mergeByType _ _) as [m|].
  - destruct H as [Hne ->]. by destruct (of_type _ _).
  - by rewrite H.
Qed.

(** ** Suspension windows *)

Section evaluation.
Context {HCron : Cron} {HTz : TimezoneDB} {Hlaws : CronLaws}.
Context (e : ScheduleEvaluator) (tz : string) (loc : Location).
Context (Hload : LoadLocation tz = Some loc) (Hloc : regular_zone loc).
Context (Hrecent : recent (Clock e)).
Notation now := (In (Clock e) loc).

Lemma evaluate_window_total w :
  window_wf w -> exists r, evaluate_window e tz w = Ok r.
Proof using Hlaws Hload Hloc Hrecent.
  intros Hw. pose proof (isInGraceTimeWindow_Ok StartBoundary [w] now (scheduleBuffer e)) as Hs.
  pose proof (isInGraceTimeWindow_Ok EndBoundary [w] now (scheduleBuffer e)) as He.
  destruct Hs as [bs Hs]; [by constructor|]. destruct He as [be He]; [by constructor|].
  destruct Hw as [v Hv]. apply view_of_ok in Hv.
  destruct (evaluate_window_unfold e tz loc Hload Hloc Hrecent w v Hv)
    as (lh & lw & nh & nw & _ & _ & _ & _ & ->).
  unfold eval_grace. rewrite Hs, He.
  destruct (0 <? scheduleBuffer e); [|by eexists].
  destruct (off_hours v now); simpl.
  - destruct (negb _); simpl; [|by eexists]. destruct bs; by eexists.
  - destruct be; by eexists.
Qed.

Lemma evaluate_loop_total ws c :
  Forall window_wf ws -> exists r, evaluate_loop e tz ws (Some c) = Ok (Some r).
Proof using Hlaws Hload Hloc Hrecent.
  intros H. revert c. induction H as [|w ws Hw H IH]; intros c; [by eexists|]. simpl.
  destruct (evaluate_window_total w Hw) as [r ->]. simpl. apply IH.
Qed.

Lemma evaluateWindows_total ws :
  Forall window_wf ws -> exists r, evaluateWindows e ws tz = Ok (Some r).
Proof using Hlaws Hload Hloc Hrecent.
  destruct 1 as [|w ws Hw H]; [by eexists|]. simpl.
  destruct (evaluate_window_total w Hw) as [r ->]. simpl. by apply evaluate_loop_total.
Qed.

Lemma applyExtend_total ws r :
  Forall window_wf ws -> exists r', applyExtend e ws tz r = Ok r'.
Proof using Hlaws Hload Hloc Hrecent.
  intros H. unfold applyExtend. destruct (evaluateWindows_total ws H) as [x ->]. by eexists.
Qed.

Lemma applySuspend_total exc r :
  Forall window_wf (exc_Windows exc) -> exists r', applySuspend e exc tz r = Ok r'.
Proof using Hload.
  intros H. unfold applySuspend. rewrite Hload.
  destruct (isInGraceTimeWindow_Ok EndBoundary (exc_Windows exc) now (scheduleBuffer e) H) as [b Hb].
  destruct (exc_Windows exc); [by eexists|].
  rewrite Hb. destruct (_ && _); by eexists.
Qed.

Lemma active_windows_wf t excs :
  Forall (fun o => match o with Some x => Forall window_wf (exc_Windows x) | None => True end) excs ->
  Forall window_wf (active_windows e t excs).
Proof.
  rewrite Forall_forall. intros H. apply Forall_forall. intros w Hw.
  unfold active_windows, windows_of in Hw. rewrite list_elem_of_In, in_concat in Hw.
  destruct Hw as (ws & Hws & Hw). apply in_map_iff in Hws as (x & <- & Hx).
  apply list_elem_of_In in Hx. apply list_elem_of_filter in Hx as [_ Hx].
  apply filterActive_spec in Hx as [Hx _]. specialize (H _ Hx). simpl in H.
  rewrite Forall_forall in H. apply H. by apply list_elem_of_In.
Qed.

(** The pipeline, stage by stage. *)
Lemma Evaluate_stages base excs :
  Evaluate e base tz excs =
  let* r := evaluateWindows e (effective_windows e base excs) tz in
  let* r := match mergeByType (filterActive e excs) ExceptionExtend with
            | Some x => deref_stage (applyExtend e (exc_Windows x) tz) r
            | None => Ok r
            end in
  match mergeByType (filterActive e excs) ExceptionSuspend with
  | Some x => deref_stage (applySuspend e x tz) r
  | None => Ok r
  end.
Proof.
  unfold Evaluate, runEvaluationPipeline, evaluateWhen. simpl.
  rewrite effective_windows_merge. destruct (evaluateWindows _ _ _); try done. simpl.
  destruct (mergeByType _ ExceptionExtend); simpl.
  - destruct (deref_stage _ a); try done. simpl.
    destruct (mergeByType _ ExceptionSuspend); [|done]. by destruct (deref_stage _ a0).
  - destruct (mergeByType _ ExceptionSuspend); [|done]. by destruct (deref_stage _ a).
Qed.

Lemma applyExtend_off ws r r' :
  scheduleBuffer e <= 0 -> Forall window_wf ws -> applyExtend e ws tz r = Ok r' ->
  ShouldHibernate r' = ShouldHibernate r || windows_off ws now.
Proof using Hlaws Hload Hloc Hrecent.
  intros Hb Hws. unfold applyExtend.
  destruct (evaluateWindows_off e tz loc Hload Hloc Hrecent Hb ws Hws) as (x & -> & Hx).
  simpl. intros [= <-]. simpl. by rewrite Hx.
Qed.

Lemma applySuspend_suspended exc r r' :
  isInTimeWindows (exc_Windows exc) now = true -> applySuspend e exc tz r = Ok r' ->
  ShouldHibernate r' = false.
Proof using Hload.
  intros Hin. unfold applySuspend. rewrite Hload.
  destruct (exc_Windows exc) as [|w ws]; [done|]. rewrite Hin. simpl. by intros [= <-].
Qed.

Lemma applySuspend_off exc r r' :
  scheduleBuffer e <= 0 -> LeadTime exc <= 0 -> applySuspend e exc tz r = Ok r' ->
  ShouldHibernate r' = ShouldHibernate r && negb (isInTimeWindows (exc_Windows exc) now).
Proof using Hload.
  intros Hb Hl. unfold applySuspend. rewrite Hload.
  destruct (exc_Windows exc) as [|w ws]; [intros [= <-]; by rewrite andb_true_r|].
  replace (0 <? LeadTime exc) with false by (symmetry; apply Z.ltb_ge; lia).
  replace (0 <? scheduleBuffer e) with false by (symmetry; apply Z.ltb_ge; lia).
  unfold suspend_decision.
  destruct (isInTimeWindows (w :: ws) now); cbn [negb andb orb res_bind]; intros [= <-];
    cbn [ShouldHibernate]; [by rewrite andb_false_r|by rewrite andb_true_r].
Qed.
End evaluation.

(** ** Claims *)

Section claims.
Context {HCron : Cron} {HTz : TimezoneDB} {Hlaws : CronLaws}.
Context (e : ScheduleEvaluator) (tz : string) (loc : Location).
Context (Hload : LoadLocation tz = Some loc) (Hloc : regular_zone loc).
Context (Hrecent : recent (Clock e)).
Notation now := (In (Clock e) loc).

(** Without grace buffer and lead time, the plan is to be hibernated
    exactly when the instant is in the off hours of the base windows (those of
    the active replacements when there are any) or of the windows of an active
    extension, and in no window of an active suspension.  In particular the
    evaluation succeeds. *)
Theorem Evaluate_decision base excs :
  scheduleBuffer e <= 0 ->
  Forall (fun x => LeadTime x <= 0) (filterActive e excs) ->
  Forall window_wf (effective_windows e base excs) ->
  Forall window_wf (active_windows e ExceptionExtend excs) ->
  exists r, Evaluate e base tz excs = Ok (Some r) /\
    ShouldHibernate r =
      (windows_off (effective_windows e base excs) now
       || windows_off (active_windows e ExceptionExtend excs) now)
      && negb (isInTimeWindows (active_windows e ExceptionSuspend excs) now)
    .
Proof using Hlaws Hload Hloc Hrecent.
  intros Hb Hlead Hbase Hext. rewrite Evaluate_stages.
  destruct (evaluateWindows_off e tz loc Hload Hloc Hrecent Hb _ Hbase) as (r & -> & Hr).
  cbn [res_bind].
  assert (exists r', match mergeByType (filterActive e excs) ExceptionExtend with
            | Some x => deref_stage (applyExtend e (exc_Windows x) tz) (Some r)
            | None => Ok (Some r)
            end = Ok (Some r') /\
            ShouldHibernate r' = ShouldHibernate r
              || windows_off (active_windows e ExceptionExtend excs) now) as (r' & -> & Hr').
  { unfold active_windows in *.
    pose proof (mergeByType_windows (filterActive e excs) ExceptionExtend) as Hm.
    destruct (mergeByType _ ExceptionExtend) as [x|].
    - destruct Hm as [_ Hm]. rewrite <- Hm in *. simpl.
      destruct (applyExtend_total e tz loc Hload Hloc Hrecent _ r Hext) as [x' Hx'].
      rewrite Hx'. exists x'. split; [done|].
      by apply (applyExtend_off e tz loc Hload Hloc Hrecent _ _ _ Hb Hext).
    - exists r. split; [done|]. unfold windows_of. rewrite Hm. by rewrite orb_false_r. }
  cbn [res_bind]. rewrite <- Hr, <- Hr'. unfold active_windows.
  pose proof (mergeByType_windows (filterActive e excs) ExceptionSuspend) as Hm.
  destruct (mergeByType _ ExceptionSuspend) as [x|] eqn:Ex.
  - destruct Hm as [_ Hm]. rewrite <- Hm. simpl.
    assert (exists r'', applySuspend e x tz r' = Ok r'') as [r'' Hs].
    { unfold applySuspend. rewrite Hload. destruct (exc_Windows x); [by eexists|].
      replace (0 <? scheduleBuffer e) with false by (symmetry; apply Z.ltb_ge; lia).
      rewrite andb_false_r. by eexists. }
    rewrite Hs. exists r''. split; [done|].
    apply (applySuspend_off e tz loc Hload _ _ _ Hb); [|done].
    by apply (mergeByType_lead _ _ _ Ex).
  - exists r'. split; [done|]. unfold windows_of. rewrite Hm. by rewrite andb_true_r.
Qed.

(** Whatever the grace buffer and the lead times, evaluating well-formed
    windows and exceptions returns a result: the searches for the last
    occurrences end, no nil result is dereferenced and no day name is sliced
    out of range. *)
Theorem Evaluate_total base excs :
  Forall window_wf base ->
  Forall (fun o => match o with Some x => Forall window_wf (exc_Windows x) | None => True end) excs ->
  exists r, Evaluate e base tz excs = Ok (Some r).
Proof using Hlaws Hload Hloc Hrecent.
  intros Hbase Hexcs.
  assert (forall t, Forall window_wf (active_windows e t excs)) as Hwf
    by (intros t; by apply active_windows_wf).
  rewrite Evaluate_stages.
  assert (Forall window_wf (effective_windows e base excs)) as Heff.
  { unfold effective_windows. destruct (of_type _ _); auto. }
  destruct (evaluateWindows_total e tz loc Hload Hloc Hrecent _ Heff) as (r & ->). cbn [res_bind].
  pose proof (Hwf ExceptionExtend) as Hx. pose proof (Hwf ExceptionSuspend) as Hs.
  unfold active_windows in *.
  pose proof (mergeByType_windows (filterActive e excs) ExceptionExtend) as Hmx.
  pose proof (mergeByType_windows (filterActive e excs) ExceptionSuspend) as Hms.
  assert (exists r', match mergeByType (filterActive e excs) ExceptionExtend with
            | Some x => deref_stage (applyExtend e (exc_Windows x) tz) (Some r)
            | None => Ok (Some r)
            end = Ok (Some r')) as [r' ->].
  { destruct (mergeByType _ ExceptionExtend) as [x|]; [|by eexists].
    destruct Hmx as [_ Hmx]. rewrite <- Hmx in Hx. simpl.
    destruct (applyExtend_total e tz loc Hload Hloc Hrecent _ r Hx) as [x' ->]. by eexists. }
  cbn [res_bind]. destruct (mergeByType _ ExceptionSuspend) as [x|]; [|by eexists].
  destruct Hms as [_ Hms]. rewrite <- Hms in Hs. simpl.
  destruct (applySuspend_total e tz loc Hload x r' Hs) as [x' ->]. by eexists.
Qed.

(** While the instant is inside a window of an active suspension, no
    result asks for hibernation, whatever the schedule, the extensions, the
    grace buffer and the lead times. *)
Theorem Evaluate_suspended base excs r :
  isInTimeWindows (active_windows e ExceptionSuspend excs) now = true ->
  Evaluate e base tz excs = Ok (Some r) ->
  ShouldHibernate r = false.
Proof using Hload.
  intros Hin. rewrite Evaluate_stages. unfold active_windows in Hin.
  pose proof (mergeByType_windows (filterActive e excs) ExceptionSuspend) as Hm.
  destruct (mergeByType _ ExceptionSuspend) as [x|].
  - destruct Hm as [_ Hm]. rewrite <- Hm in Hin. intros Hr.
    apply res_bind_Ok in Hr as (r1 & _ & Hr). apply res_bind_Ok in Hr as (r2 & _ & Hr).
    destruct r2 as [r2|]; [|done]. apply res_bind_Ok in Hr as (r3 & Hr3 & [= <-]).
    by apply (applySuspend_suspended e tz loc Hload _ _ _ Hin Hr3).
  - exfalso. unfold windows_of in Hin. by rewrite Hm in Hin.
Qed.
End claims.
