(* ===== verification/ScheduleClaims.v ===== *)
(** * Claims on the schedule of windows

    What the evaluation of the windows announces, that the announcement is
    reliable until the next event, the translation of windows to cron lines, and
    concrete evaluations of the cases where code and documentation differ. *)
From S2P Require Import Prelude GoString GoTime Windows Evaluate CronSpec ScheduleSpec GraceSpec ExceptionSpec.
From Stdlib Require Import Lia.

Local Open Scope Z_scope.

Section claims.
Context {HCron : Cron} {HTz : TimezoneDB} {Hlaws : CronLaws}.
Context (tz : string) (loc : Location).
Context (Hload : LoadLocation tz = Some loc) (Hloc : regular_zone loc).
Implicit Types e : ScheduleEvaluator.

(** Without a grace buffer, the evaluation of a non-empty list of
    well-formed windows hibernates exactly in the off hours of one of them and
    announces the earliest next start and the earliest next end of them all. *)
Theorem evaluateWindows_announces e ws :
  recent (Clock e) -> scheduleBuffer e <= 0 -> ws <> [] -> Forall window_wf ws ->
  exists r, evaluateWindows e ws tz = Ok (Some r) /\ announces (views ws) (In (Clock e) loc) r.
Proof using Hlaws Hload Hloc.
  intros Hr Hb Hne Hws. apply (evaluateWindows_ok e tz loc Hload Hloc Hr Hb); [|done].
  by apply views_Forall2.
Qed.

(** C30: what the buffer, of less than a day, does to one window, in a timezone that
    is known and has one offset, in whole minutes (there is no summer time), by a
    clock later than the first week of year 1. Its hibernation starts one buffer
    late, unless the off hours before ended at most one buffer ago, and ends one
    buffer late, but not beyond the end of that day; the evaluation is in a grace
    period just when it decides against the off hours, and tells when the period
    ends. *)
Theorem buffer_delays e w :
  recent (Clock e) -> 0 < scheduleBuffer e < Day -> window_wf w ->
  let now := In (Clock e) loc in
  exists v lh lw r, view_of w = Some v /\
    last_activation (startMin v) (dayNums v) now lh /\ last_activation (endMin v) (dayNums v) now lw /\
    evaluate_window e tz w = Ok r /\
    ShouldHibernate r =
      (if off_hours v now
       then (unix_ns lh <=? unix_ns lw + scheduleBuffer e) || (unix_ns lh + scheduleBuffer e <? unix_ns now)
       else (civil_day lw =? civil_day now) && (unix_ns now <=? unix_ns lw + scheduleBuffer e)) /\
    InGracePeriod r = xorb (ShouldHibernate r) (off_hours v now) /\
    (InGracePeriod r = true -> GracePeriodEnd r = Add (if off_hours v now then lh else lw) (scheduleBuffer e)).
Proof using Hlaws Hload Hloc.
  intros Hr Hg [v Hv] now. pose proof (proj1 (view_of_ok w v) Hv) as Hok.
  destruct (evaluate_window_buffered tz loc Hload Hloc e Hr Hg w v Hok)
    as (lh & lw & _ & _ & r & Hlh & Hlw & _ & _ & He & [Hd Hgr Hend _]).
  exists v, lh, lw, r. split_and!; [done..| | |].
  - rewrite Hd. unfold start_grace, end_grace. fold now. destruct (off_hours v now); cbn [andb orb negb]; [|done].
    rewrite orb_false_r, negb_andb, <- !Z.ltb_antisym, <- Z.leb_antisym. done.
  - rewrite Hgr, Hd. fold now. unfold start_grace, end_grace.
    destruct (off_hours v now); cbn [andb orb negb]; rewrite ?orb_false_r.
    + symmetry. rewrite xorb_true_r. apply negb_involutive.
    + symmetry. apply xorb_false_r.
  - intros Hi. by rewrite Hend, Hi.
Qed.

(** The decision is stable until the announced event.  Evaluating the
    same windows at any later instant before the announced wake-up (when
    hibernated) or the announced hibernation (when active) gives the same
    decision, so re-evaluating at the announced instant misses no transition. *)
Theorem evaluateWindows_stable e e' ws r r' :
  recent (Clock e) -> scheduleBuffer e <= 0 -> scheduleBuffer e' <= 0 ->
  ws <> [] -> Forall window_wf ws ->
  evaluateWindows e ws tz = Ok (Some r) -> evaluateWindows e' ws tz = Ok (Some r') ->
  unix_ns (Clock e) <= unix_ns (Clock e') ->
  unix_ns (Clock e') <
    unix_ns (if ShouldHibernate r then NextWakeUpTime r else NextHibernateTime r) ->
  ShouldHibernate r' = ShouldHibernate r.
Proof using Hlaws Hload Hloc.
  intros Hr Hb Hb' Hne Hws He He'. pose proof Day_pos.
  assert (InGracePeriod r = false) as Hi.
  { by destruct (evaluateWindows_announced tz loc Hload Hloc e ws r Hr Hb Hws Hne He) as (_ & _ & _ & _ & Hi & _). }
  apply (evaluateWindows_steady tz loc Hload Hloc e e' ws r r' Hr ltac:(lia)); try done. by right.
Qed.
End claims.

(** ** Windows *)

(** The wall-clock test on a window is its off hours restricted, for an
    overnight window, to the listed days: on a day that is not listed the cron
    pair keeps the plan hibernated until the next listed end, while the test,
    which the suspensions use, says "outside". *)
Theorem in_window_off_hours w v now :
  view_of w = Some v ->
  in_window now w =
  off_hours v now &&
  ((startMin v <? endMin v) || bool_decide (Weekday now ∈ dayNums v)).
Proof.
  intros Hv. apply view_of_ok in Hv. rewrite (in_window_ok w v now Hv).
  unfold off_hours, minutes_in_window. destruct (bool_decide _), (startMin v <? endMin v); simpl;
    rewrite ?andb_true_r, ?andb_false_r; try done.
  rewrite negb_andb. destruct (endMin v <=? _) eqn:E1, (_ <? startMin v) eqn:E2,
    (startMin v <=? _) eqn:E3, (_ <? endMin v) eqn:E4; reflect; simpl; done || lia.
Qed.

Lemma ParseWindowToCron_outcome start stop days :
  (exists c, ParseWindowToCron start stop days = Ok c) \/
  (exists err, ParseWindowToCron start stop days = Err err).
Proof.
  assert (forall s, (exists c, parseTime s = Ok c) \/ exists err, parseTime s = Err err) as Hp.
  { intros s. unfold parseTime. repeat split_match; eauto. }
  assert (forall l, (exists c, convertDays_loop l = Ok c) \/ exists err, convertDays_loop l = Err err) as Hd.
  { induction l as [|d l IH]; simpl; [eauto|]. destruct (dayMap _); [|eauto].
    destruct IH as [ [c ->]|[err ->] ]; simpl; eauto. }
  unfold ParseWindowToCron, convertDaysToCron. destruct days as [|d days]; [eauto|].
  destruct (Hp start) as [ [ [h m] ->]|[err ->] ]; simpl; [|eauto].
  destruct (Hp stop) as [ [ [h' m'] ->]|[err ->] ]; simpl; [|eauto].
  destruct (_ && _); [eauto|].
  destruct (Hd (d :: days)) as [ [c Hc]|[err Hc] ]; simpl in Hc; rewrite Hc; simpl; eauto.
Qed.

(** A window is accepted exactly when both times are HH:MM times of a day,
    they differ, and the days are a non-empty list of day names; and the two
    cron lines of an accepted window read back as its start, its end and its
    days. *)
Theorem ParseWindowToCron_roundtrip start stop days :
  match ParseWindowToCron start stop days with
  | Ok (hibernate, wakeUp) =>
      exists v, view_of (mkWindow start stop days) = Some v /\
        RefCron.parse hibernate = Some (startMin v, dayNums v) /\
        RefCron.parse wakeUp = Some (endMin v, dayNums v)
  | Err _ => view_of (mkWindow start stop days) = None
  | _ => False
  end.
Proof.
  pose proof (ParseWindowToCron_wf start stop days) as Hwf.
  destruct (ParseWindowToCron start stop days) as [ [h w]| | |] eqn:E.
  - destruct (proj2 Hwf (ex_intro _ _ eq_refl)) as [v Hv]. exists v. split; [done|].
    apply view_of_ok in Hv. pose proof (ParseWindowToCron_ok _ _ Hv) as Hok.
    cbn [Start Stop DaysOfWeek] in Hok. rewrite E in Hok. injection Hok as -> ->.
    pose proof (window_ok_bounds _ _ Hv) as [Hs He]. pose proof (window_ok_valid_days _ _ Hv).
    by rewrite !RefCron.parse_minutes_line.
  - destruct (view_of _) eqn:Ev; [|done]. exfalso.
    destruct (proj1 Hwf) as [c Hc]; [by eexists|]. done.
  - destruct (ParseWindowToCron_outcome start stop days) as [ [c Hc]|[c Hc] ]; congruence.
  - destruct (ParseWindowToCron_outcome start stop days) as [ [c Hc]|[c Hc] ]; congruence.
Qed.

(** ** Re-evaluation *)

(** The delay until the next evaluation ends 10 seconds after the awaited
    event (the end of the grace period, or the next transition plus the grace
    buffer), and an event in the past is awaited a minute. *)
Theorem NextRequeueTime_reaches e r :
  0 <= scheduleBuffer e <= 2 ^ 61 ->
  let event :=
    if InGracePeriod r then GracePeriodEnd r
    else if ShouldHibernate r then NextWakeUpTime r else NextHibernateTime r in
  let until := unix_ns event - unix_ns (Clock e) in
  until <= 2 ^ 61 ->
  NextRequeueTime e r =
    (if InGracePeriod r then Z.max 0 until
     else (if until <? 0 then Minute else until) + scheduleBuffer e) + 10 * Second.
Proof.
  intros Hb event until Hu. unfold NextRequeueTime, Sub.
  assert (forall d, d <= 2 ^ 61 -> (Z.max (- 2 ^ 63) (Z.min (2 ^ 63 - 1) d) <? 0) = (d <? 0)
            /\ (0 <= d -> Z.max (- 2 ^ 63) (Z.min (2 ^ 63 - 1) d) = d)) as Hclamp.
  { intros d Hd. split; [apply eq_true_iff_eq; rewrite !Z.ltb_lt; lia|lia]. }
  revert Hu. unfold until, event. clear until event. unfold Minute, Second.
  destruct (InGracePeriod r); intros Hu; destruct (Hclamp _ Hu) as [-> Hc];
    destruct (_ <? 0) eqn:E; reflect; rewrite ?Hc by done;
    rewrite !int64_id; unfold in_int64; rewrite ?int64_id; unfold in_int64; lia.
Qed.

(** ** Concrete evaluations

    Wednesday 2024-01-03 12:00 UTC, a weekday-night schedule, and one exception
    of each type. *)
Module Samples.
#[export] Instance tzdb : TimezoneDB :=
  {| LoadLocation s := if (s =? "UTC")%string then Some UTC else None |}.
#[export] Existing Instance RefCron.refCron.
#[export] Existing Instance RefCron.refCron_laws.

Definition at_sec (s : Z) : time := mkTime (s * Second) UTC.
Definition noon : time := at_sec 1704283200.
Definition evaluator (t : time) : ScheduleEvaluator := mkEvaluator t 0.
Definition weekdays := ["MON"; "TUE"; "WED"; "THU"; "FRI"].
Definition nights : list OffHourWindow := [mkWindow "20:00" "06:00" weekdays].
Definition lunch : list OffHourWindow := [mkWindow "11:30" "13:00" ["Wed"]].
Definition exc (t : ExceptionType) ws : option Exception :=
  Some (mkException t (at_sec 1704200000) (at_sec 1704400000) 0 ws).

Lemma utc_load : LoadLocation "UTC" = Some UTC.
Proof. reflexivity. Qed.

Lemma utc_regular : regular_zone UTC.
Proof. by split. Qed.

Lemma noon_recent t : unix_ns t = unix_ns noon \/ unix_ns noon < unix_ns t -> recent t.
Proof.
  intros H. constructor. change (zero_ns + 7 * Day) with (-62134992000000000000).
  change (unix_ns noon) with 1704283200000000000 in H. lia.
Qed.

Ltac windows := refine (bool_decide_unpack _ _); vm_compute; exact I.
End Samples.
Import Samples.

Lemma Evaluate_decision_witness :
  exists r, Evaluate (evaluator noon) nights "UTC"
              [exc ExceptionExtend lunch; exc ExceptionSuspend nights] = Ok (Some r) /\
    ShouldHibernate r = true.
Proof.
  destruct (Evaluate_decision (evaluator noon) "UTC" UTC utc_load utc_regular
              (noon_recent noon (or_introl eq_refl)) nights
              [exc ExceptionExtend lunch; exc ExceptionSuspend nights]) as (r & Hr & Hd).
  - vm_compute. discriminate.
  - windows.
  - windows.
  - windows.
  - exists r. split; [exact Hr|]. rewrite Hd. vm_compute. reflexivity.
Defined.

Lemma Evaluate_total_witness :
  exists r, Evaluate (mkEvaluator noon Hour) nights "UTC"
              [exc ExceptionReplace lunch; None; exc ExceptionSuspend nights] = Ok (Some r).
Proof.
  apply (Evaluate_total (mkEvaluator noon Hour) "UTC" UTC utc_load utc_regular
           (noon_recent noon (or_introl eq_refl))).
  - windows.
  - repeat constructor; windows.
Defined.

Lemma Evaluate_suspended_witness :
  forallb (fun buffer =>
    match Evaluate (mkEvaluator noon buffer) lunch "UTC" [exc ExceptionSuspend lunch] with
    | Ok (Some r) => negb (ShouldHibernate r)
    | _ => false
    end) [0; Hour] = true /\
  forall r, Evaluate (evaluator noon) lunch "UTC" [exc ExceptionSuspend lunch] = Ok (Some r) ->
    ShouldHibernate r = false.
Proof.
  split; [vm_compute; reflexivity|]. intros r.
  apply (Evaluate_suspended (evaluator noon) "UTC" UTC utc_load lunch [exc ExceptionSuspend lunch] r).
  vm_compute. reflexivity.
Defined.

Lemma evaluateWindows_announces_witness :
  exists r, evaluateWindows (evaluator noon) (nights ++ lunch) "UTC" = Ok (Some r) /\
    announces (views (nights ++ lunch)) noon r.
Proof.
  apply (evaluateWindows_announces "UTC" UTC utc_load utc_regular (evaluator noon) (nights ++ lunch)).
  - exact (noon_recent noon (or_introl eq_refl)).
  - vm_compute. discriminate.
  - discriminate.
  - windows.
Defined.

(** At 20:00:30 a buffer of a minute still keeps the plan awake. *)
Lemma buffer_delays_witness :
  exists r, evaluate_window (mkEvaluator (Add noon (480 * Minute + 30 * Second)) Minute) "UTC"
      (mkWindow "20:00" "06:00" weekdays) = Ok r /\ ShouldHibernate r = false /\ InGracePeriod r = true.
Proof.
  destruct (buffer_delays "UTC" UTC utc_load utc_regular
              (mkEvaluator (Add noon (480 * Minute + 30 * Second)) Minute) (mkWindow "20:00" "06:00" weekdays))
    as (v & lh & lw & r & _ & _ & _ & Hr & _).
  - apply noon_recent. right. vm_compute. reflexivity.
  - vm_compute. split; reflexivity.
  - refine (bool_decide_unpack _ _). vm_compute. exact I.
  - exists r. split; [exact Hr|]. revert Hr. vm_compute. intros [= <-]. split; reflexivity.
Defined.

(** At 12:00 the nights announce 20:00: at 19:59 the decision is the same. *)
Lemma evaluateWindows_stable_witness :
  exists r r', evaluateWindows (evaluator noon) nights "UTC" = Ok (Some r) /\
    evaluateWindows (evaluator (Add noon (479 * Minute))) nights "UTC" = Ok (Some r') /\
    ShouldHibernate r' = ShouldHibernate r.
Proof.
  eexists _, _. split; [vm_compute; reflexivity|]. split; [vm_compute; reflexivity|].
  eapply (evaluateWindows_stable "UTC" UTC utc_load utc_regular (evaluator noon)
            (evaluator (Add noon (479 * Minute))) nights).
  - exact (noon_recent noon (or_introl eq_refl)).
  - vm_compute. discriminate.
  - vm_compute. discriminate.
  - discriminate.
  - windows.
  - vm_compute. reflexivity.
  - vm_compute. reflexivity.
  - vm_compute. discriminate.
  - vm_compute. reflexivity.
Defined.

Lemma in_window_off_hours_witness :
  exists v, view_of (mkWindow "20:00" "06:00" ["MON"]) = Some v /\
    off_hours v noon = true /\ in_window noon (mkWindow "20:00" "06:00" ["MON"]) = false.
Proof.
  exists (mkView 1200 360 [1]). split; [vm_compute; reflexivity|].
  split; [vm_compute; reflexivity|].
  rewrite (in_window_off_hours (mkWindow "20:00" "06:00" ["MON"]) (mkView 1200 360 [1]) noon);
    vm_compute; reflexivity.
Defined.

Lemma NextRequeueTime_reaches_witness :
  let e := mkEvaluator noon Minute in
  let r := mkResult false (Add noon Hour) (Add noon (2 * Hour)) "active" false zero_time in
  NextRequeueTime e r = Hour + Minute + 10 * Second.
Proof.
  intros e r. rewrite (NextRequeueTime_reaches e r); vm_compute; [reflexivity| split; discriminate | discriminate].
Defined.

(** The off hours of a Monday-night window last for a week: the wake-up line
    has the same days as the hibernation line, not the next ones. *)
Lemma overnight_until_next_listed_day :
  match evaluateWindows (evaluator noon) [mkWindow "20:00" "06:00" ["MON"]] "UTC" with
  | Ok (Some r) => ShouldHibernate r = true /\
      NextWakeUpTime r = at_sec (1704283200 + 4 * 86400 + 18 * 3600)
  | _ => False
  end.
Proof. vm_compute. split; reflexivity. Qed.

(** A lead time of an hour before Thursday 20:00 is already reported on
    Wednesday at 19:30. *)
Lemma lead_time_day_early :
  isInLeadTimeWindow [mkWindow "20:00" "22:00" ["THU"]] (Add noon (450 * Minute)) Hour = true.
Proof. vm_compute. reflexivity. Qed.
