(* ===== verification/Planner.v ===== *)
(** * Execution planner ([internal/scheduler/planner.go])

    The four strategies that turn the targets of a plan into ordered stages.
    The DAG strategy is Kahn's algorithm on two maps (adjacency and in-degree),
    one level per iteration; the levels are compared below with their reference
    definition [layering]: a level is the sorted list of the remaining targets
    that have no remaining predecessor. *)
From S2P Require Import Prelude GoString.
From stdpp Require Import gmap.
From Stdlib Require Import Lia.

Local Open Scope Z_scope.

Record Dependency := mkDependency { From : string; To : string }.

#[export] Instance Dependency_eq_dec : EqDecision Dependency.
Proof. solve_decision. Defined.

Record Stage := mkStage {
  stage_Name : string;
  stage_Parallel : bool;
  stage_MaxConcurrency : Z;
  stage_Targets : list string;
}.

Record ExecutionStage := mkExecutionStage {
  es_Targets : list string;
  es_MaxConcurrency : Z;
}.

Record ExecutionPlan := mkExecutionPlan { Stages : list ExecutionStage }.

Inductive PlanError :=
| ErrCycleDetected
| ErrTargetNotFound (name : string).

(** [int32(len(l))]. *)
Definition len32 {A} (l : list A) : Z := int32 (Z.of_nat (length l)).

Definition PlanSequential (targets : list string) : ExecutionPlan :=
  mkExecutionPlan (map (fun t => mkExecutionStage [t] 1) targets).

Definition PlanParallel (targets : list string) (maxConcurrency : Z) : ExecutionPlan :=
  let mc := if maxConcurrency <=? 0 then len32 targets else maxConcurrency in
  mkExecutionPlan [mkExecutionStage targets mc].

(** The body of the loop of [PlanStaged]. *)
Definition staged_stage (globalMaxConcurrency : Z) (s : Stage) : ExecutionStage :=
  let mc :=
    if stage_MaxConcurrency s <=? 0 then
      if stage_Parallel s then
        if globalMaxConcurrency <=? 0 then len32 (stage_Targets s) else globalMaxConcurrency
      else 1
    else stage_MaxConcurrency s in
  mkExecutionStage (stage_Targets s) mc.

Definition PlanStaged (stages : list Stage) (globalMaxConcurrency : Z) : ExecutionPlan :=
  mkExecutionPlan (map (staged_stage globalMaxConcurrency) stages).

(** ** Kahn's algorithm *)

(** The first unknown end of a dependency, in the order the code tests them. *)
Fixpoint unknown_target (targetSet : gset string) (deps : list Dependency) : option string :=
  match deps with
  | [] => None
  | d :: deps' =>
      if negb (bool_decide (From d ∈ targetSet)) then Some (From d)
      else if negb (bool_decide (To d ∈ targetSet)) then Some (To d)
      else unknown_target targetSet deps'
  end.

(** [m[k] += delta]: an absent key counts from zero and is added. *)
Definition bump (delta : Z) (m : gmap string Z) (k : string) : gmap string Z :=
  <[k := default 0 (m !! k) + delta]> m.

Definition add_edge (adj : gmap string (list string)) (d : Dependency)
  : gmap string (list string) :=
  <[From d := default [] (adj !! From d) ++ [To d]]> adj.

Definition init_adj (targets : list string) (deps : list Dependency) :=
  fold_left add_edge deps (fold_left (fun m t => <[t := []]> m) targets ∅).

Definition init_inDegree (targets : list string) (deps : list Dependency) : gmap string Z :=
  fold_left (bump 1) (map To deps) (fold_left (fun m t => <[t := 0]> m) targets ∅).

(** The targets of in-degree zero, sorted. *)
Definition ready_targets (inDegree : gmap string Z) : list string :=
  sort_strings (map fst (filter (fun kv => kv.2 = 0) (map_to_list inDegree))).

Definition remove_node (adj : gmap string (list string)) (inDegree : gmap string Z)
  (t : string) : gmap string Z :=
  fold_left (bump (-1)) (default [] (adj !! t)) (delete t inDegree).

Fixpoint dag_loop (fuel : nat) (adj : gmap string (list string)) (maxConcurrency : Z)
  (n processed : nat) (inDegree : gmap string Z) (stages : list ExecutionStage)
  : res PlanError (list ExecutionStage) :=
  match fuel with
  | O => NoReturn
  | S fuel' =>
      if (processed <? n)%nat then
        match ready_targets inDegree with
        | [] => Err ErrCycleDetected
        | ready =>
            let mc := if maxConcurrency <=? 0 then len32 ready else maxConcurrency in
            dag_loop fuel' adj maxConcurrency n (processed + length ready)
              (fold_left (remove_node adj) ready inDegree)
              (stages ++ [mkExecutionStage ready mc])
        end
      else Ok stages
  end.

Definition PlanDAG (targets : list string) (deps : list Dependency) (maxConcurrency : Z)
  : res PlanError ExecutionPlan :=
  match unknown_target (list_to_set targets) deps with
  | Some name => Err (ErrTargetNotFound name)
  | None =>
      let* stages :=
        dag_loop (S (length targets)) (init_adj targets deps) maxConcurrency
          (length targets) 0 (init_inDegree targets deps) [] in
      Ok (mkExecutionPlan stages)
  end.

Definition ValidateDAG (targets : list string) (deps : list Dependency) : res PlanError unit :=
  let* _ := PlanDAG targets deps 0 in Ok tt.

(** ** The reference layering *)

(** The number of dependencies of [n] on a target of [U]. *)
Definition preds (deps : list Dependency) (U : gset string) (n : string) : list Dependency :=
  filter (fun d => To d = n /\ From d ∈ U) deps.

Definition is_ready (deps : list Dependency) (U : gset string) (n : string) : Prop :=
  n ∈ U /\ preds deps U n = [].

(** [layering deps U levels]: the levels of the targets [U]. *)
Fixpoint layering (deps : list Dependency) (U : gset string) (levels : list (list string)) : Prop :=
  match levels with
  | [] => U = ∅
  | l :: levels' =>
      l <> [] /\ NoDup l /\ Sorted string_le l /\
      (forall n, n ∈ l <-> is_ready deps U n) /\
      layering deps (U ∖ list_to_set l) levels'
  end.

Definition occ (n : string) (l : list string) : Z := Z.of_nat (length (filter (fun x => x = n) l)).

Lemma occ_cons n x l : occ n (x :: l) = (if decide (x = n) then 1 else 0) + occ n l.
Proof.
  unfold occ. rewrite filter_cons. destruct (decide (x = n)); simpl; lia.
Qed.

Lemma occ_zero n l : occ n l = 0 <-> n ∉ l.
Proof.
  induction l as [|x l IH]; [unfold occ; set_solver|].
  rewrite occ_cons, not_elem_of_cons. pose proof (Nat2Z.is_nonneg (length (filter (fun x => x = n) l))).
  unfold occ in *. destruct (decide (x = n)); naive_solver lia.
Qed.

Lemma bump_all delta l m n :
  fold_left (bump delta) l m !! n =
  match m !! n with
  | Some k => Some (k + delta * occ n l)
  | None => if decide (n ∈ l) then Some (delta * occ n l) else None
  end.
Proof.
  revert m. induction l as [|x l IH]; intros m; cbn [fold_left].
  - destruct (m !! n); [unfold occ; simpl; f_equal; lia|]. by rewrite decide_False by set_solver.
  - rewrite IH, occ_cons. unfold bump. destruct (decide (x = n)) as [->|Hne].
    + rewrite lookup_insert_eq. destruct (m !! n); simpl; [f_equal; lia|].
      rewrite decide_True by set_solver. f_equal; lia.
    + rewrite lookup_insert_ne by done. destruct (m !! n); [f_equal; lia|].
      destruct (decide (n ∈ l)); [rewrite decide_True by set_solver|rewrite decide_False by set_solver]; f_equal; lia.
Qed.

Lemma init_const_lookup {A} (c : A) l (m : gmap string A) (n : string) :
  fold_left (fun m t => <[t := c]> m) l m !! n = if decide (n ∈ l) then Some c else m !! n.
Proof.
  revert m. induction l as [|x l IH]; intros m; cbn [fold_left].
  - by rewrite decide_False by set_solver.
  - rewrite IH. destruct (decide (n ∈ l)); [by rewrite decide_True by set_solver|].
    destruct (decide (x = n)) as [->|].
    + by rewrite lookup_insert_eq, decide_True by set_solver.
    + by rewrite lookup_insert_ne, decide_False by set_solver.
Qed.

Lemma add_edges_lookup deps m t :
  default [] (fold_left add_edge deps m !! t) =
  default [] (m !! t) ++ map To (filter (fun d => From d = t) deps).
Proof.
  revert m. induction deps as [|d deps IH]; intros m; simpl; [by rewrite app_nil_r|].
  rewrite IH, filter_cons. unfold add_edge. destruct (decide (From d = t)) as [<-|].
  - rewrite lookup_insert_eq. simpl. by rewrite <- app_assoc.
  - by rewrite lookup_insert_ne.
Qed.

Lemma init_adj_lookup targets deps t :
  default [] (init_adj targets deps !! t) = map To (filter (fun d => From d = t) deps).
Proof.
  unfold init_adj. rewrite add_edges_lookup, init_const_lookup.
  destruct (decide (t ∈ targets)); [done|]. by rewrite lookup_empty.
Qed.

(** ** The loop computes the layering *)

Section loop.
Context (targets : list string) (deps : list Dependency).

(** The in-degree map [m] of the remaining targets [U]: the number of their
    remaining predecessors; and no remaining target precedes a removed one. *)
Record kahn_state (U : gset string) (m : gmap string Z) : Prop := {
  ks_sub : U ⊆ list_to_set targets;
  ks_deg : forall n, m !! n = if decide (n ∈ U) then Some (Z.of_nat (length (preds deps U n))) else None;
  ks_closed : forall d, d ∈ deps -> From d ∈ U -> To d ∈ U;
}.

Lemma preds_nil U n : preds deps U n = [] <-> forall d, d ∈ deps -> To d = n -> From d ∉ U.
Proof.
  unfold preds. split.
  - intros H d Hd Ht Hf. assert (d ∈ filter (fun d => To d = n /\ From d ∈ U) deps) as Hin.
    { by apply list_elem_of_filter. }
    rewrite H in Hin. set_solver.
  - intros H. destruct (filter _ deps) as [|d l] eqn:E; [done|].
    assert (d ∈ filter (fun d => To d = n /\ From d ∈ U) deps) as Hin by (rewrite E; by left).
    apply list_elem_of_filter in Hin as [ [Ht Hf] Hd]. by destruct (H d Hd Ht).
Qed.

Lemma preds_remove U t n :
  t ∈ U ->
  Z.of_nat (length (preds deps (U ∖ {[t]}) n)) =
  Z.of_nat (length (preds deps U n)) - occ n (map To (filter (fun d => From d = t) deps)).
Proof.
  intros Ht. unfold preds, occ. induction deps as [|d l IH]; [done|].
  rewrite !filter_cons. destruct (decide (From d = t)) as [Hf|Hf].
  - cbn [map]. rewrite filter_cons.
    rewrite decide_False by set_solver.
    destruct (decide (To d = n)).
    + rewrite decide_True by set_solver. simpl length. lia.
    + rewrite decide_False by naive_solver. lia.
  - destruct (decide (To d = n /\ From d ∈ U)) as [ [H1 H2] |H].
    + rewrite decide_True by set_solver. simpl length. lia.
    + rewrite decide_False by set_solver. lia.
Qed.

Lemma remove_node_state U m t :
  kahn_state U m -> is_ready deps U t ->
  kahn_state (U ∖ {[t]}) (remove_node (init_adj targets deps) m t).
Proof.
  intros [Hsub Hdeg Hcl] [Ht Hp]. split; [set_solver| |].
  - intros n. unfold remove_node. rewrite bump_all, init_adj_lookup.
    rewrite preds_remove by done.
    destruct (decide (n = t)) as [->|Hne].
    + rewrite lookup_delete_eq, (decide_False (P := t ∈ U ∖ {[t]})) by set_solver.
      rewrite decide_False; [done|]. rewrite list_elem_of_fmap. intros (d & Hd & Hin).
      apply list_elem_of_filter in Hin as [Hf Hin].
      apply (proj1 (preds_nil U t) Hp d Hin); [done|by rewrite Hf].
    + rewrite lookup_delete_ne by done. rewrite Hdeg.
      destruct (decide (n ∈ U)).
      * rewrite decide_True by set_solver. f_equal; lia.
      * rewrite (decide_False (P := n ∈ U ∖ {[t]})) by set_solver.
        rewrite decide_False; [done|]. rewrite list_elem_of_fmap. intros (d & -> & Hin).
        apply list_elem_of_filter in Hin as [Hf Hin]. apply Hcl in Hin; [done|by rewrite Hf].
  - intros d Hd Hf. apply elem_of_difference in Hf as [Hf Hft].
    apply elem_of_difference. split; [by apply Hcl|].
    rewrite elem_of_singleton. intros Hto.
    by apply (proj1 (preds_nil U t) Hp d Hd).
Qed.

Lemma is_ready_mono U t n : n <> t -> is_ready deps U n -> is_ready deps (U ∖ {[t]}) n.
Proof.
  intros Hne [Hn Hp]. split; [set_solver|]. apply preds_nil. intros d Hd Ht.
  pose proof (proj1 (preds_nil U n) Hp d Hd Ht). set_solver.
Qed.

Lemma remove_ready_state l U m :
  kahn_state U m -> NoDup l -> Forall (is_ready deps U) l ->
  kahn_state (U ∖ list_to_set l) (fold_left (remove_node (init_adj targets deps)) l m).
Proof.
  intros Hk Hnd. revert U m Hk. induction Hnd as [|t l Ht Hnd IH]; intros U m Hk Hr; simpl.
  - by rewrite difference_empty_L.
  - apply Forall_cons in Hr as [Hrt Hr]. rewrite difference_union_distr_r_L.
    replace (U ∖ {[t]} ∩ (U ∖ list_to_set l)) with (U ∖ {[t]} ∖ list_to_set l) by set_solver.
    apply IH; [by apply remove_node_state|].
    rewrite Forall_forall in *. intros n Hn. apply is_ready_mono; [set_solver|auto].
Qed.

Lemma ready_targets_spec U m :
  kahn_state U m ->
  NoDup (ready_targets m) /\ Sorted string_le (ready_targets m) /\
  forall n, n ∈ ready_targets m <-> is_ready deps U n.
Proof.
  intros [_ Hdeg _]. unfold ready_targets. split; [|split].
  - rewrite sort_strings_perm. apply (NoDup_fmap_fst).
    + intros x y1 y2 H1 H2. apply list_elem_of_filter in H1 as [_ H1].
      apply list_elem_of_filter in H2 as [_ H2].
      apply elem_of_map_to_list in H1, H2. congruence.
    + apply NoDup_filter, NoDup_map_to_list.
  - apply sort_strings_sorted.
  - intros n. rewrite elem_of_sort_strings, list_elem_of_fmap. unfold is_ready. split.
    + intros ([k v] & -> & Hin). apply list_elem_of_filter in Hin as [Hv Hin]. simpl in *. subst v.
      apply elem_of_map_to_list in Hin. rewrite Hdeg in Hin.
      destruct (decide (k ∈ U)); [|done]. split; [done|].
      injection Hin as Hin. destruct (preds deps U k); [done|simpl in Hin; lia].
    + intros [Hn Hp]. exists (n, 0). split; [done|]. apply list_elem_of_filter. split; [done|].
      apply elem_of_map_to_list. by rewrite Hdeg, decide_True, Hp.
Qed.

Lemma init_state :
  unknown_target (list_to_set targets) deps = None ->
  kahn_state (list_to_set targets) (init_inDegree targets deps).
Proof.
  intros Hu.
  assert (forall d, d ∈ deps -> From d ∈ targets /\ To d ∈ targets) as Hdeps.
  { clear -Hu. intros d. induction deps as [|d' l IH]; [set_solver|]. simpl in Hu.
    repeat case_bool_decide; try done. rewrite elem_of_cons. intros [->|Hd]; [set_solver|auto]. }
  split; [done| |].
  - intros n. unfold init_inDegree. rewrite bump_all, init_const_lookup.
    assert (occ n (map To deps) = Z.of_nat (length (preds deps (list_to_set targets) n))) as Hocc.
    { clear Hu. unfold occ, preds. f_equal. induction deps as [|d l IH]; [done|].
      cbn [map]. rewrite !filter_cons.
      destruct (Hdeps d) as [Hf _]; [by left|].
      destruct (decide (To d = n)); [rewrite decide_True by set_solver|rewrite decide_False by naive_solver];
        simpl length; rewrite IH; try done; intros d' Hd'; apply Hdeps; by right. }
    destruct (decide (n ∈ targets)).
    + rewrite decide_True by set_solver. f_equal. lia.
    + rewrite lookup_empty, (decide_False (P := n ∈ list_to_set targets)) by set_solver.
      rewrite decide_False; [done|]. rewrite list_elem_of_fmap. intros (d & -> & Hd).
      by apply Hdeps in Hd as [_ ?].
  - intros d Hd _. apply Hdeps in Hd as [_ ?]. set_solver.
Qed.
End loop.

(** ** Consequences of the layering *)

Section layers.
Context (deps : list Dependency).

Lemma layering_elem U levels n :
  layering deps U levels -> n ∈ U <-> n ∈ concat levels.
Proof.
  revert U. induction levels as [|l levels IH]; intros U; simpl; [set_solver|].
  intros (_ & _ & _ & Hr & Hrest). apply IH in Hrest. rewrite elem_of_app.
  specialize (Hr n). unfold is_ready in Hr.
  destruct (decide (n ∈ l)); set_solver.
Qed.

Lemma layering_NoDup U levels : layering deps U levels -> NoDup (concat levels).
Proof.
  revert U. induction levels as [|l levels IH]; intros U; simpl; [constructor|].
  intros (_ & Hnd & _ & Hr & Hrest). apply NoDup_app. split; [done|]. split; [|by eapply IH].
  intros n Hn Hc. apply (layering_elem _ _ n Hrest) in Hc. set_solver.
Qed.

Lemma layering_index U levels n :
  layering deps U levels -> n ∈ U -> exists i l, levels !! i = Some l /\ n ∈ l.
Proof.
  intros Hl Hn. apply (layering_elem _ _ n Hl) in Hn.
  rewrite list_elem_of_In, in_concat in Hn. destruct Hn as (l & Hl' & Hn).
  apply list_elem_of_In in Hl', Hn. apply list_elem_of_lookup in Hl' as [i Hi]. by exists i, l.
Qed.

(** Every dependency crosses levels forwards. *)
Lemma layering_order U levels d :
  layering deps U levels -> d ∈ deps -> From d ∈ U -> To d ∈ U ->
  exists i j li lj, (i < j)%nat /\ levels !! i = Some li /\ From d ∈ li /\
                    levels !! j = Some lj /\ To d ∈ lj.
Proof.
  revert U. induction levels as [|l levels IH]; intros U Hl Hd Hf Ht; simpl in Hl; [set_solver|].
  destruct Hl as (_ & _ & _ & Hr & Hrest).
  assert (To d ∉ l) as Hnt.
  { intros Hin. apply Hr in Hin as [_ Hp]. by apply (proj1 (preds_nil _ _ _) Hp d Hd). }
  destruct (decide (From d ∈ l)) as [Hin|Hin].
  - destruct (layering_index _ _ (To d) Hrest) as (j & lj & Hj & Hlj); [set_solver|].
    exists 0%nat, (S j), l, lj. repeat split; done || lia.
  - destruct (IH _ Hrest Hd) as (i & j & li & lj & Hij & Hi & Hli & Hj & Hlj); [set_solver..|].
    exists (S i), (S j), li, lj. repeat split; done || lia.
Qed.

(** Every target is as early as possible: it waits for one of the level before. *)
Lemma layering_earliest U levels i l n :
  layering deps U levels -> levels !! S i = Some l -> n ∈ l ->
  exists d li, d ∈ deps /\ To d = n /\ levels !! i = Some li /\ From d ∈ li.
Proof.
  revert U i. induction levels as [|l0 levels IH]; intros U i Hl Hi Hn; [done|].
  destruct Hl as (_ & _ & _ & Hr & Hrest). destruct i as [|i].
  - destruct levels as [|l1 levels]; [done|]. injection Hi as ->.
    destruct Hrest as (_ & _ & _ & Hr' & _).
    apply Hr' in Hn as [HnU Hp']. apply elem_of_difference in HnU as [HnU Hnl].
    destruct (preds deps U n) as [|d ds] eqn:E.
    { exfalso. apply Hnl. apply elem_of_list_to_set, Hr. by split. }
    assert (d ∈ preds deps U n) as Hd by (rewrite E; by left).
    apply list_elem_of_filter in Hd as [ [Ht Hf] Hd].
    pose proof (proj1 (preds_nil _ _ _) Hp' d Hd Ht) as Hout.
    exists d, l0. repeat split; try done. set_solver.
  - destruct (IH _ i Hrest Hi Hn) as (d & li & H). by exists d, li.
Qed.

(** The edges admit a rank, i.e. have no cycle. *)
Definition acyclic : Prop := exists rank : string -> nat, forall d, d ∈ deps -> (rank (From d) < rank (To d))%nat.

Lemma stuck_cyclic U :
  U <> (∅ : gset string) -> (forall n, ~ is_ready deps U n) -> ~ acyclic.
Proof.
  intros Hne Hst [rank Hr].
  assert (forall k n, (rank n < k)%nat -> n ∉ U) as H.
  { induction k as [|k IH]; [lia|]. intros n Hn Hin. apply (Hst n). split; [done|].
    apply preds_nil. intros d Hd Ht. apply IH. specialize (Hr d Hd). rewrite Ht in Hr. lia. }
  apply Hne, set_eq. intros n. split; [|set_solver]. intros Hn.
  by destruct (H (S (rank n)) n ltac:(lia)).
Qed.

Lemma layering_acyclic U levels :
  layering deps U levels -> (forall d, d ∈ deps -> From d ∈ U /\ To d ∈ U) -> acyclic.
Proof.
  intros Hl Hin.
  exists (fun n => match list_find (fun l => n ∈ l) levels with Some (i, _) => i | None => 0%nat end).
  intros d Hd. destruct (Hin d Hd) as [Hf Ht].
  destruct (layering_order _ _ d Hl Hd Hf Ht) as (i & j & li & lj & Hij & Hi & Hli & Hj & Hlj).
  assert (forall n k l, levels !! k = Some l -> n ∈ l -> list_find (fun l => n ∈ l) levels = Some (k, l)) as Hfind.
  { intros n k l Hk Hn. apply list_find_Some. split; [done|]. split; [done|].
    intros k' l' Hk' Hlt Hn'. pose proof (layering_NoDup _ _ Hl) as Hnd.
    rewrite <- (take_drop k levels), concat_app in Hnd. apply NoDup_app in Hnd as (_ & Hnd & _).
    apply (Hnd n).
    - rewrite list_elem_of_In, in_concat. exists l'. rewrite <- !list_elem_of_In. split; [|done].
      apply list_elem_of_lookup. exists k'. by rewrite lookup_take_lt.
    - rewrite list_elem_of_In, in_concat. exists l. rewrite <- !list_elem_of_In. split; [|done].
      apply list_elem_of_lookup. exists 0%nat. by rewrite lookup_drop, Nat.add_0_r. }
  rewrite (Hfind _ _ _ Hi Hli), (Hfind _ _ _ Hj Hlj). done.
Qed.
End layers.

Definition concurrency (maxConcurrency : Z) (s : ExecutionStage) : Prop :=
  es_MaxConcurrency s = if maxConcurrency <=? 0 then len32 (es_Targets s) else maxConcurrency.

Lemma size_list_le (l : list string) : (size (list_to_set l : gset string) <= length l)%nat.
Proof.
  induction l as [|x l IH]; [done|]. simpl. rewrite size_union_alt, size_singleton.
  apply le_n_S. etrans; [|exact IH]. apply subseteq_size. set_solver.
Qed.

Lemma size_NoDup (l : list string) :
  length l = size (list_to_set l : gset string) -> NoDup l.
Proof.
  induction l as [|x l IH]; simpl; [constructor|]. intros H. pose proof (size_list_le l).
  destruct (decide (x ∈ l)) as [Hin|Hin].
  - replace ({[x]} ∪ list_to_set l : gset string) with (list_to_set l : gset string) in H by set_solver.
    lia.
  - constructor; [done|]. apply IH.
    rewrite size_union, size_singleton in H by set_solver. lia.
Qed.

Section planDAG.
Context (targets : list string) (deps : list Dependency) (mc : Z).

Lemma dag_loop_step fuel adj n processed m stages :
  (processed < n)%nat -> ready_targets m <> [] ->
  dag_loop (S fuel) adj mc n processed m stages =
  let r := ready_targets m in
  dag_loop fuel adj mc n (processed + length r) (fold_left (remove_node adj) r m)
    (stages ++ [mkExecutionStage r (if mc <=? 0 then len32 r else mc)]).
Proof.
  intros Hlt Hr. cbn [dag_loop]. rewrite (proj2 (Nat.ltb_lt _ _) Hlt). by destruct (ready_targets m).
Qed.

(** The loop ends within its fuel; it returns the layering of what remains, or
    finds duplicates or a cycle. *)
Lemma dag_loop_spec fuel U m processed stages :
  kahn_state targets deps U m -> (length targets < fuel + processed)%nat ->
  (processed + size U)%nat = size (list_to_set targets : gset string) ->
  match dag_loop fuel (init_adj targets deps) mc (length targets) processed m stages with
  | Ok st => exists rest, st = stages ++ rest /\ layering deps U (map es_Targets rest) /\
               Forall (concurrency mc) rest /\ NoDup targets
  | Err e => e = ErrCycleDetected /\ ~ (NoDup targets /\ acyclic deps)
  | _ => False
  end.
Proof.
  pose proof (size_list_le targets) as Hle.
  revert U m processed stages. induction fuel as [|fuel IH]; intros U m processed stages Hk Hf Hs; [lia|].
  destruct (ready_targets_spec targets deps U m Hk) as (Hnd & Hsort & Hready).
  destruct (decide (length targets <= processed)%nat) as [Hge|Hlt].
  { cbn [dag_loop]. rewrite (proj2 (Nat.ltb_ge _ _) Hge). exists []. rewrite app_nil_r.
    split; [done|]. split; [|split; [constructor|]].
    - apply leibniz_equiv, size_empty_inv. lia.
    - apply size_NoDup. lia. }
  destruct (decide (ready_targets m = [])) as [Hr|Hr].
  - cbn [dag_loop]. rewrite (proj2 (Nat.ltb_lt _ _)), Hr by lia. split; [done|]. intros [HN Hac].
    destruct (decide (U = ∅)) as [->|Hne].
    + rewrite size_empty in Hs. rewrite (size_list_to_set (C:=gset string) targets HN) in Hs. lia.
    + apply (stuck_cyclic deps U Hne); [|done]. intros n Hn. apply Hready in Hn. rewrite Hr in Hn. set_solver.
  - rewrite dag_loop_step by (done || lia). cbv zeta. set (r := ready_targets m) in *.
    assert (list_to_set r ⊆ U) as Hsub.
    { intros n Hn. apply elem_of_list_to_set, Hready in Hn. apply Hn. }
    pose proof (size_list_to_set (C:=gset string) r Hnd) as Hsize.
    assert (length r <> 0)%nat as Hlen by (by destruct r).
    pose proof (subseteq_size _ _ Hsub) as Hrle.
    specialize (IH (U ∖ list_to_set r) (fold_left (remove_node (init_adj targets deps)) r m)
                  (processed + length r)%nat
                  (stages ++ [mkExecutionStage r (if mc <=? 0 then len32 r else mc)])).
    lapply IH; [clear IH; intros IH|
      apply remove_ready_state; [done|done|]; apply Forall_forall; intros n; apply Hready].
    lapply IH; [clear IH; intros IH|lia].
    lapply IH; [clear IH; intros IH|rewrite size_difference by done; lia].
    destruct (dag_loop fuel _ _ _ _ _ _) as [st|e| |]; try done.
    destruct IH as (rest & -> & Hlay & Hconc & HN).
    exists (mkExecutionStage r (if mc <=? 0 then len32 r else mc) :: rest).
    rewrite <- app_assoc. split; [done|]. split; [exact (conj Hr (conj Hnd (conj Hsort (conj Hready Hlay))))|].
    split; [by constructor|done].
Qed.
End planDAG.

Lemma unknown_target_Some S deps n :
  unknown_target S deps = Some n -> n ∉ S /\ exists d, d ∈ deps /\ (n = From d \/ n = To d).
Proof.
  induction deps as [|d deps IH]; simpl; [done|].
  destruct (decide (From d ∈ S)) as [Hf|Hf]; [rewrite (bool_decide_true _ Hf)|rewrite (bool_decide_false _ Hf)];
    simpl; intros H.
  - destruct (decide (To d ∈ S)) as [Ht|Ht]; [rewrite (bool_decide_true _ Ht) in H|rewrite (bool_decide_false _ Ht) in H];
      simpl in H.
    + destruct (IH H) as (? & d' & ? & ?). split; [done|]. exists d'. split; [by right|done].
    + injection H as <-. split; [done|]. exists d. split; [by left|by right].
  - injection H as <-. split; [done|]. exists d. split; [by left|by left].
Qed.

Lemma unknown_target_None S deps d :
  unknown_target S deps = None -> d ∈ deps -> From d ∈ S /\ To d ∈ S.
Proof.
  induction deps as [|d' deps IH]; [set_solver|]. simpl. intros Hu.
  repeat case_bool_decide; try done. intros [->|Hd]%elem_of_cons; [done|auto].
Qed.

Lemma PlanDAG_result targets deps mc :
  match PlanDAG targets deps mc with
  | Ok plan =>
      NoDup targets /\ unknown_target (list_to_set targets) deps = None /\
      layering deps (list_to_set targets) (map es_Targets (Stages plan)) /\
      Forall (concurrency mc) (Stages plan)
  | Err (ErrTargetNotFound n) => n ∉ targets /\ exists d, d ∈ deps /\ (n = From d \/ n = To d)
  | Err ErrCycleDetected => ~ (NoDup targets /\ acyclic deps)
  | _ => False
  end.
Proof.
  unfold PlanDAG. destruct (unknown_target _ deps) as [n|] eqn:Hu.
  - apply unknown_target_Some in Hu. by rewrite elem_of_list_to_set in Hu.
  - pose proof (dag_loop_spec targets deps mc (S (length targets)) _ _ 0 [] (init_state _ _ Hu)) as H.
    destruct (dag_loop _ _ _ _ _ _ _) as [st|e| |]; simpl in *.
    + destruct H as (rest & -> & Hl & Hc & HN); [lia|done|]. done.
    + destruct H as [-> H]; [lia|done|]. done.
    + apply H; [lia|done].
    + apply H; [lia|done].
Qed.

(** ** Claims *)

(** C12: a DAG plan executes every target exactly once; a dependency's [From]
    is in a strictly earlier stage than its [To]; a target that is not in the
    first stage waits for a target of the stage right before, so no target could
    be earlier; each stage is sorted by name and limited to the given number of
    targets at a time, or to all of the stage. *)
Theorem PlanDAG_sound targets deps mc plan :
  PlanDAG targets deps mc = Ok plan ->
  let levels := map es_Targets (Stages plan) in
  concat levels ≡ₚ targets /\
  (forall d, d ∈ deps -> exists i j li lj, (i < j)%nat /\
     levels !! i = Some li /\ From d ∈ li /\ levels !! j = Some lj /\ To d ∈ lj) /\
  (forall i l n, levels !! S i = Some l -> n ∈ l -> exists d li, d ∈ deps /\ To d = n /\
     levels !! i = Some li /\ From d ∈ li) /\
  Forall (fun l => l <> [] /\ Sorted string_le l) levels /\
  Forall (concurrency mc) (Stages plan).
Proof.
  intros H. pose proof (PlanDAG_result targets deps mc) as Hr. rewrite H in Hr.
  destruct Hr as (HN & Hu & Hl & Hc). intros levels. split; [|split; [|split; [|split]]].
  - apply NoDup_Permutation; [by eapply layering_NoDup|done|]. intros n.
    unfold levels. rewrite <- (layering_elem _ _ _ n Hl). apply elem_of_list_to_set.
  - intros d Hd. destruct (unknown_target_None _ _ _ Hu Hd). by apply (layering_order _ _ _ _ Hl).
  - intros i l n. by apply layering_earliest with (U := list_to_set targets).
  - fold levels in Hl. clear -Hl. revert Hl. generalize (list_to_set targets : gset string).
    induction levels as [|l levels IH]; intros U Hl; [constructor|].
    destruct Hl as (? & _ & ? & _ & ?). constructor; [done|by eapply IH].
  - done.
Qed.

(** C34: the DAG planner decides: on distinct targets it returns a plan exactly
    when every dependency names targets and the dependencies have no cycle; it
    reports an unknown target only when a dependency names one, a cycle only
    when there is one; and its loop always ends. *)
Theorem PlanDAG_decides targets deps mc :
  NoDup targets ->
  match PlanDAG targets deps mc with
  | Ok _ => (forall d, d ∈ deps -> From d ∈ targets /\ To d ∈ targets) /\ acyclic deps
  | Err (ErrTargetNotFound n) => n ∉ targets /\ exists d, d ∈ deps /\ (n = From d \/ n = To d)
  | Err ErrCycleDetected => ~ acyclic deps
  | Panic => False
  | NoReturn => False
  end.
Proof.
  intros HN. pose proof (PlanDAG_result targets deps mc) as H.
  destruct (PlanDAG targets deps mc) as [plan| [ | n ] | |]; [|tauto|done..].
  destruct H as (_ & Hu & Hl & _).
  assert (forall d, d ∈ deps -> From d ∈ (list_to_set targets : gset string) /\
            To d ∈ (list_to_set targets : gset string)) as Hin
    by (intros d; by apply unknown_target_None).
  split; [|by eapply layering_acyclic]. intros d Hd. apply Hin in Hd. set_solver.
Qed.

Lemma PlanDAG_sound_witness :
  let plan := mkExecutionPlan [mkExecutionStage ["cache"; "db"] 2; mkExecutionStage ["app"] 1] in
  PlanDAG ["app"; "db"; "cache"] [mkDependency "db" "app"; mkDependency "cache" "app"] 0 = Ok plan /\
  concat (map es_Targets (Stages plan)) ≡ₚ ["app"; "db"; "cache"].
Proof.
  intros plan.
  assert (PlanDAG ["app"; "db"; "cache"] [mkDependency "db" "app"; mkDependency "cache" "app"] 0
          = Ok plan) as H by (vm_compute; reflexivity).
  split; [exact H|]. exact (proj1 (PlanDAG_sound _ _ _ _ H)).
Defined.

Lemma PlanDAG_decides_witness :
  PlanDAG ["a"; "b"] [mkDependency "a" "b"; mkDependency "b" "a"] 0 = Err ErrCycleDetected /\
  ~ acyclic [mkDependency "a" "b"; mkDependency "b" "a"].
Proof.
  split; [vm_compute; reflexivity|].
  refine (PlanDAG_decides ["a"; "b"] [mkDependency "a" "b"; mkDependency "b" "a"] 0 _).
  refine (bool_decide_unpack _ _). vm_compute. exact I.
Defined.

(** The other strategies list the targets in the given order. *)
Lemma PlanSequential_targets targets :
  concat (map es_Targets (Stages (PlanSequential targets))) = targets.
Proof. induction targets as [|t l IH]; [done|]. simpl in *. by f_equal. Qed.

Lemma PlanStaged_targets stages g :
  map es_Targets (Stages (PlanStaged stages g)) = map stage_Targets stages.
Proof. simpl. rewrite map_map. done. Qed.

(** Every stage of a plan may run at least one target at a time, unless the
    stage is empty or has 2^31 targets: the computed concurrency is positive. *)
Theorem plan_concurrency_positive stages g targets mc :
  Forall (fun s => stage_Targets s <> [] /\ Z.of_nat (length (stage_Targets s)) < 2 ^ 31) stages ->
  targets <> [] -> Z.of_nat (length targets) < 2 ^ 31 ->
  Forall (fun s => 0 < es_MaxConcurrency s)
    (Stages (PlanStaged stages g) ++ Stages (PlanParallel targets mc)
     ++ Stages (PlanSequential targets)).
Proof.
  intros Hs Hne Hlt.
  assert (forall l : list string, l <> [] -> Z.of_nat (length l) < 2 ^ 31 -> 0 < len32 l) as Hlen.
  { intros l Hl Hb. unfold len32. destruct l; [done|]. rewrite int32_id; [simpl; lia|].
    unfold in_int32. simpl length in *. lia. }
  apply Forall_app. split; [|apply Forall_app; split].
  - apply Forall_fmap. eapply Forall_impl; [exact Hs|]. intros s [Hs1 Hs2]. unfold compose, staged_stage. simpl.
    destruct (stage_MaxConcurrency s <=? 0) eqn:E1; reflect; [|lia].
    destruct (stage_Parallel s); [|lia]. destruct (g <=? 0) eqn:E2; reflect; [|lia]. by apply Hlen.
  - constructor; [|constructor]. simpl. destruct (mc <=? 0) eqn:E; reflect; [by apply Hlen|lia].
  - apply Forall_fmap, Forall_forall. intros t _. simpl. lia.
Qed.

Lemma plan_concurrency_positive_witness :
  Forall (fun s => 0 < es_MaxConcurrency s)
    (Stages (PlanStaged [mkStage "s" true 0 ["a"; "b"]] 0) ++ Stages (PlanParallel ["a"; "b"] 0)
     ++ Stages (PlanSequential ["a"; "b"])).
Proof.
  apply plan_concurrency_positive; [|discriminate|vm_compute; reflexivity].
  repeat constructor. discriminate.
Defined.
