(* ===== verification/Types.v ===== *)
(** * API types ([api/v1alpha1])

    The resources the controller reads and writes, field by field; a Go string
    type with an enumeration marker is an inductive type with one constructor for
    every other string.  Pointers are options.  [set_<field>] is the assignment
    of one field. *)
From S2P Require Import Prelude GoString GoTime Windows.

Local Open Scope Z_scope.

(** Execution strategies. *)
Inductive ExecutionStrategyType :=
| StrategySequential
| StrategyParallel
| StrategyDAG
| StrategyStaged
| StrategyOther (s : string).
#[export] Instance ExecutionStrategyType_eq_dec : EqDecision ExecutionStrategyType.
Proof. solve_decision. Defined.

(** What a failed target does to the others. *)
Inductive BehaviorMode :=
| BehaviorStrict
| BehaviorBestEffort
| ModeOther (s : string).
#[export] Instance BehaviorMode_eq_dec : EqDecision BehaviorMode.
Proof. solve_decision. Defined.

(** Plan phases; [PhaseUnset] is the empty string. *)
Inductive PlanPhase :=
| PhaseUnset
| PhasePending
| PhaseActive
| PhaseHibernating
| PhaseHibernated
| PhaseWakingUp
| PhaseSuspended
| PhaseError
| PhaseOther (s : string).
#[export] Instance PlanPhase_eq_dec : EqDecision PlanPhase.
Proof. solve_decision. Defined.

Definition phase_string (x : PlanPhase) : string :=
  match x with
  | PhaseUnset => ""
  | PhasePending => "Pending"
  | PhaseActive => "Active"
  | PhaseHibernating => "Hibernating"
  | PhaseHibernated => "Hibernated"
  | PhaseWakingUp => "WakingUp"
  | PhaseSuspended => "Suspended"
  | PhaseError => "Error"
  | PhaseOther s => s
  end.

(** Operations; [OperationUnset] is the empty string. *)
Inductive PlanOperation :=
| OperationUnset
| OperationHibernate
| OperationWakeUp
| OperationOther (s : string).
#[export] Instance PlanOperation_eq_dec : EqDecision PlanOperation.
Proof. solve_decision. Defined.

Definition operation_string (x : PlanOperation) : string :=
  match x with
  | OperationUnset => ""
  | OperationHibernate => "shutdown"
  | OperationWakeUp => "wakeup"
  | OperationOther s => s
  end.

(** Per-target execution states. *)
Inductive ExecutionState :=
| StatePending
| StateRunning
| StateCompleted
| StateFailed
| StateAborted
| StateOther (s : string).
#[export] Instance ExecutionState_eq_dec : EqDecision ExecutionState.
Proof. solve_decision. Defined.

Definition state_string (x : ExecutionState) : string :=
  match x with
  | StatePending => "Pending"
  | StateRunning => "Running"
  | StateCompleted => "Completed"
  | StateFailed => "Failed"
  | StateAborted => "Aborted"
  | StateOther s => s
  end.

(** The API's [ExceptionType]. *)
Inductive ExceptionKind :=
| KindExtend
| KindSuspend
| KindReplace
| KindOther (s : string).
#[export] Instance ExceptionKind_eq_dec : EqDecision ExceptionKind.
Proof. solve_decision. Defined.

Definition kind_string (x : ExceptionKind) : string :=
  match x with
  | KindExtend => "extend"
  | KindSuspend => "suspend"
  | KindReplace => "replace"
  | KindOther s => s
  end.

(** Lifecycle states of a schedule exception. *)
Inductive ExceptionState :=
| ExceptionStatePending
| ExceptionStateActive
| ExceptionStateExpired
| ExceptionStateDetached
| ExceptionStateOther (s : string).
#[export] Instance ExceptionState_eq_dec : EqDecision ExceptionState.
Proof. solve_decision. Defined.

(** [Dependency]: [dep_To] depends on [dep_From]. *)
Record ApiDependency := mkApiDependency {
  dep_From : string;
  dep_To : string;
}.

(** [Stage]. *)
Record ApiStage := mkApiStage {
  astage_Name : string;
  astage_Parallel : bool;
  astage_MaxConcurrency : option Z;
  astage_Targets : list string;
}.

(** [ExecutionStrategy]. *)
Record ExecutionStrategy := mkStrategy {
  strat_Type : ExecutionStrategyType;
  strat_MaxConcurrency : option Z;
  strat_Dependencies : list ApiDependency;
  strat_Stages : list ApiStage;
}.

(** [Behavior]. *)
Record Behavior := mkBehavior {
  beh_Mode : BehaviorMode;
  beh_FailFast : bool;
  beh_Retries : option Z;
}.

(** [ConnectorRef]. *)
Record ConnectorRef := mkConnectorRef {
  conn_Kind : string;
  conn_Name : string;
  conn_Namespace : string;
}.

(** [Target]; the parameters are the raw JSON text. *)
Record Target := mkTarget {
  tgt_Name : string;
  tgt_Type : string;
  tgt_ConnectorRef : ConnectorRef;
  tgt_Parameters : option string;
}.

Definition set_tgt_Parameters (v : option string) (r : Target) : Target :=
  mkTarget (tgt_Name r) (tgt_Type r) (tgt_ConnectorRef r) v.

(** [Schedule]. *)
Record Schedule := mkSchedule {
  sched_Timezone : string;
  sched_OffHours : list OffHourWindow;
}.

(** [HibernatePlanSpec]; [Execution] is a struct with the strategy as its only field. *)
Record HibernatePlanSpec := mkSpec {
  spec_Schedule : Schedule;
  spec_Execution : ExecutionStrategy;
  spec_Behavior : Behavior;
  spec_Suspend : bool;
  spec_Targets : list Target;
}.

Definition set_spec_Schedule (v : Schedule) (r : HibernatePlanSpec) : HibernatePlanSpec :=
  mkSpec v (spec_Execution r) (spec_Behavior r) (spec_Suspend r) (spec_Targets r).
Definition set_spec_Execution (v : ExecutionStrategy) (r : HibernatePlanSpec) : HibernatePlanSpec :=
  mkSpec (spec_Schedule r) v (spec_Behavior r) (spec_Suspend r) (spec_Targets r).
Definition set_spec_Behavior (v : Behavior) (r : HibernatePlanSpec) : HibernatePlanSpec :=
  mkSpec (spec_Schedule r) (spec_Execution r) v (spec_Suspend r) (spec_Targets r).
Definition set_spec_Suspend (v : bool) (r : HibernatePlanSpec) : HibernatePlanSpec :=
  mkSpec (spec_Schedule r) (spec_Execution r) (spec_Behavior r) v (spec_Targets r).
Definition set_spec_Targets (v : list Target) (r : HibernatePlanSpec) : HibernatePlanSpec :=
  mkSpec (spec_Schedule r) (spec_Execution r) (spec_Behavior r) (spec_Suspend r) v.

(** [ExecutionStatus], less three references no code sets ([RestoreRef], [ServiceAccountRef], [ConnectorSecretRef]). *)
Record ExecutionStatus := mkExec {
  exec_Target : string;
  exec_Executor : string;
  exec_State : ExecutionState;
  exec_StartedAt : option time;
  exec_FinishedAt : option time;
  exec_Attempts : Z;
  exec_Message : string;
  exec_JobRef : string;
  exec_LogsRef : string;
  exec_RestoreConfigMapRef : string;
}.

Definition set_exec_State (v : ExecutionState) (r : ExecutionStatus) : ExecutionStatus :=
  mkExec (exec_Target r) (exec_Executor r) v (exec_StartedAt r) (exec_FinishedAt r) (exec_Attempts r) (exec_Message r) (exec_JobRef r) (exec_LogsRef r) (exec_RestoreConfigMapRef r).
Definition set_exec_StartedAt (v : option time) (r : ExecutionStatus) : ExecutionStatus :=
  mkExec (exec_Target r) (exec_Executor r) (exec_State r) v (exec_FinishedAt r) (exec_Attempts r) (exec_Message r) (exec_JobRef r) (exec_LogsRef r) (exec_RestoreConfigMapRef r).
Definition set_exec_FinishedAt (v : option time) (r : ExecutionStatus) : ExecutionStatus :=
  mkExec (exec_Target r) (exec_Executor r) (exec_State r) (exec_StartedAt r) v (exec_Attempts r) (exec_Message r) (exec_JobRef r) (exec_LogsRef r) (exec_RestoreConfigMapRef r).
Definition set_exec_Attempts (v : Z) (r : ExecutionStatus) : ExecutionStatus :=
  mkExec (exec_Target r) (exec_Executor r) (exec_State r) (exec_StartedAt r) (exec_FinishedAt r) v (exec_Message r) (exec_JobRef r) (exec_LogsRef r) (exec_RestoreConfigMapRef r).
Definition set_exec_Message (v : string) (r : ExecutionStatus) : ExecutionStatus :=
  mkExec (exec_Target r) (exec_Executor r) (exec_State r) (exec_StartedAt r) (exec_FinishedAt r) (exec_Attempts r) v (exec_JobRef r) (exec_LogsRef r) (exec_RestoreConfigMapRef r).
Definition set_exec_JobRef (v : string) (r : ExecutionStatus) : ExecutionStatus :=
  mkExec (exec_Target r) (exec_Executor r) (exec_State r) (exec_StartedAt r) (exec_FinishedAt r) (exec_Attempts r) (exec_Message r) v (exec_LogsRef r) (exec_RestoreConfigMapRef r).
Definition set_exec_LogsRef (v : string) (r : ExecutionStatus) : ExecutionStatus :=
  mkExec (exec_Target r) (exec_Executor r) (exec_State r) (exec_StartedAt r) (exec_FinishedAt r) (exec_Attempts r) (exec_Message r) (exec_JobRef r) v (exec_RestoreConfigMapRef r).
Definition set_exec_RestoreConfigMapRef (v : string) (r : ExecutionStatus) : ExecutionStatus :=
  mkExec (exec_Target r) (exec_Executor r) (exec_State r) (exec_StartedAt r) (exec_FinishedAt r) (exec_Attempts r) (exec_Message r) (exec_JobRef r) (exec_LogsRef r) v.

(** [TargetExecutionResult]. *)
Record TargetExecutionResult := mkTargetResult {
  tr_Target : string;
  tr_State : ExecutionState;
  tr_Attempts : Z;
  tr_ExecutionID : string;
  tr_StartedAt : option time;
  tr_FinishedAt : option time;
  tr_Message : string;
}.

(** [ExecutionOperationSummary]. *)
Record ExecutionOperationSummary := mkSummary {
  sum_Operation : PlanOperation;
  sum_StartTime : time;
  sum_EndTime : option time;
  sum_TargetResults : list TargetExecutionResult;
  sum_Success : bool;
  sum_ErrorMessage : string;
}.

Definition set_sum_StartTime (v : time) (r : ExecutionOperationSummary) : ExecutionOperationSummary :=
  mkSummary (sum_Operation r) v (sum_EndTime r) (sum_TargetResults r) (sum_Success r) (sum_ErrorMessage r).
Definition set_sum_EndTime (v : option time) (r : ExecutionOperationSummary) : ExecutionOperationSummary :=
  mkSummary (sum_Operation r) (sum_StartTime r) v (sum_TargetResults r) (sum_Success r) (sum_ErrorMessage r).
Definition set_sum_TargetResults (v : list TargetExecutionResult) (r : ExecutionOperationSummary) : ExecutionOperationSummary :=
  mkSummary (sum_Operation r) (sum_StartTime r) (sum_EndTime r) v (sum_Success r) (sum_ErrorMessage r).
Definition set_sum_Success (v : bool) (r : ExecutionOperationSummary) : ExecutionOperationSummary :=
  mkSummary (sum_Operation r) (sum_StartTime r) (sum_EndTime r) (sum_TargetResults r) v (sum_ErrorMessage r).

(** [ExecutionCycle]. *)
Record ExecutionCycle := mkCycle {
  cyc_CycleID : string;
  cyc_ShutdownExecution : option ExecutionOperationSummary;
  cyc_WakeupExecution : option ExecutionOperationSummary;
}.

Definition set_cyc_ShutdownExecution (v : option ExecutionOperationSummary) (r : ExecutionCycle) : ExecutionCycle :=
  mkCycle (cyc_CycleID r) v (cyc_WakeupExecution r).
Definition set_cyc_WakeupExecution (v : option ExecutionOperationSummary) (r : ExecutionCycle) : ExecutionCycle :=
  mkCycle (cyc_CycleID r) (cyc_ShutdownExecution r) v.

(** [PlanSnapshot]. *)
Record PlanSnapshot := mkSnapshot {
  snap_CycleID : string;
  snap_ExceptionName : string;
  snap_Targets : list Target;
  snap_Execution : ExecutionStrategy;
  snap_Behavior : Behavior;
}.

(** [ExceptionReference]. *)
Record ExceptionReference := mkExceptionReference {
  ref_Name : string;
  ref_Type : ExceptionKind;
  ref_ValidFrom : time;
  ref_ValidUntil : time;
  ref_State : ExceptionState;
  ref_AppliedAt : option time;
}.

(** [HibernatePlanStatus]. *)
Record HibernatePlanStatus := mkStatus {
  st_CurrentCycleID : string;
  st_Phase : PlanPhase;
  st_LastTransitionTime : option time;
  st_Executions : list ExecutionStatus;
  st_ObservedGeneration : Z;
  st_RetryCount : Z;
  st_LastRetryTime : option time;
  st_ErrorMessage : string;
  st_ExceptionReferences : list ExceptionReference;
  st_AppliedExceptionOverride : string;
  st_PlanSnapshot : option PlanSnapshot;
  st_CurrentStageIndex : Z;
  st_CurrentOperation : PlanOperation;
  st_ExecutionHistory : list ExecutionCycle;
}.

Definition set_st_CurrentCycleID (v : string) (r : HibernatePlanStatus) : HibernatePlanStatus :=
  mkStatus v (st_Phase r) (st_LastTransitionTime r) (st_Executions r) (st_ObservedGeneration r) (st_RetryCount r) (st_LastRetryTime r) (st_ErrorMessage r) (st_ExceptionReferences r) (st_AppliedExceptionOverride r) (st_PlanSnapshot r) (st_CurrentStageIndex r) (st_CurrentOperation r) (st_ExecutionHistory r).
Definition set_st_Phase (v : PlanPhase) (r : HibernatePlanStatus) : HibernatePlanStatus :=
  mkStatus (st_CurrentCycleID r) v (st_LastTransitionTime r) (st_Executions r) (st_ObservedGeneration r) (st_RetryCount r) (st_LastRetryTime r) (st_ErrorMessage r) (st_ExceptionReferences r) (st_AppliedExceptionOverride r) (st_PlanSnapshot r) (st_CurrentStageIndex r) (st_CurrentOperation r) (st_ExecutionHistory r).
Definition set_st_LastTransitionTime (v : option time) (r : HibernatePlanStatus) : HibernatePlanStatus :=
  mkStatus (st_CurrentCycleID r) (st_Phase r) v (st_Executions r) (st_ObservedGeneration r) (st_RetryCount r) (st_LastRetryTime r) (st_ErrorMessage r) (st_ExceptionReferences r) (st_AppliedExceptionOverride r) (st_PlanSnapshot r) (st_CurrentStageIndex r) (st_CurrentOperation r) (st_ExecutionHistory r).
Definition set_st_Executions (v : list ExecutionStatus) (r : HibernatePlanStatus) : HibernatePlanStatus :=
  mkStatus (st_CurrentCycleID r) (st_Phase r) (st_LastTransitionTime r) v (st_ObservedGeneration r) (st_RetryCount r) (st_LastRetryTime r) (st_ErrorMessage r) (st_ExceptionReferences r) (st_AppliedExceptionOverride r) (st_PlanSnapshot r) (st_CurrentStageIndex r) (st_CurrentOperation r) (st_ExecutionHistory r).
Definition set_st_ObservedGeneration (v : Z) (r : HibernatePlanStatus) : HibernatePlanStatus :=
  mkStatus (st_CurrentCycleID r) (st_Phase r) (st_LastTransitionTime r) (st_Executions r) v (st_RetryCount r) (st_LastRetryTime r) (st_ErrorMessage r) (st_ExceptionReferences r) (st_AppliedExceptionOverride r) (st_PlanSnapshot r) (st_CurrentStageIndex r) (st_CurrentOperation r) (st_ExecutionHistory r).
Definition set_st_RetryCount (v : Z) (r : HibernatePlanStatus) : HibernatePlanStatus :=
  mkStatus (st_CurrentCycleID r) (st_Phase r) (st_LastTransitionTime r) (st_Executions r) (st_ObservedGeneration r) v (st_LastRetryTime r) (st_ErrorMessage r) (st_ExceptionReferences r) (st_AppliedExceptionOverride r) (st_PlanSnapshot r) (st_CurrentStageIndex r) (st_CurrentOperation r) (st_ExecutionHistory r).
Definition set_st_LastRetryTime (v : option time) (r : HibernatePlanStatus) : HibernatePlanStatus :=
  mkStatus (st_CurrentCycleID r) (st_Phase r) (st_LastTransitionTime r) (st_Executions r) (st_ObservedGeneration r) (st_RetryCount r) v (st_ErrorMessage r) (st_ExceptionReferences r) (st_AppliedExceptionOverride r) (st_PlanSnapshot r) (st_CurrentStageIndex r) (st_CurrentOperation r) (st_ExecutionHistory r).
Definition set_st_ErrorMessage (v : string) (r : HibernatePlanStatus) : HibernatePlanStatus :=
  mkStatus (st_CurrentCycleID r) (st_Phase r) (st_LastTransitionTime r) (st_Executions r) (st_ObservedGeneration r) (st_RetryCount r) (st_LastRetryTime r) v (st_ExceptionReferences r) (st_AppliedExceptionOverride r) (st_PlanSnapshot r) (st_CurrentStageIndex r) (st_CurrentOperation r) (st_ExecutionHistory r).
Definition set_st_ExceptionReferences (v : list ExceptionReference) (r : HibernatePlanStatus) : HibernatePlanStatus :=
  mkStatus (st_CurrentCycleID r) (st_Phase r) (st_LastTransitionTime r) (st_Executions r) (st_ObservedGeneration r) (st_RetryCount r) (st_LastRetryTime r) (st_ErrorMessage r) v (st_AppliedExceptionOverride r) (st_PlanSnapshot r) (st_CurrentStageIndex r) (st_CurrentOperation r) (st_ExecutionHistory r).
Definition set_st_AppliedExceptionOverride (v : string) (r : HibernatePlanStatus) : HibernatePlanStatus :=
  mkStatus (st_CurrentCycleID r) (st_Phase r) (st_LastTransitionTime r) (st_Executions r) (st_ObservedGeneration r) (st_RetryCount r) (st_LastRetryTime r) (st_ErrorMessage r) (st_ExceptionReferences r) v (st_PlanSnapshot r) (st_CurrentStageIndex r) (st_CurrentOperation r) (st_ExecutionHistory r).
Definition set_st_PlanSnapshot (v : option PlanSnapshot) (r : HibernatePlanStatus) : HibernatePlanStatus :=
  mkStatus (st_CurrentCycleID r) (st_Phase r) (st_LastTransitionTime r) (st_Executions r) (st_ObservedGeneration r) (st_RetryCount r) (st_LastRetryTime r) (st_ErrorMessage r) (st_ExceptionReferences r) (st_AppliedExceptionOverride r) v (st_CurrentStageIndex r) (st_CurrentOperation r) (st_ExecutionHistory r).
Definition set_st_CurrentStageIndex (v : Z) (r : HibernatePlanStatus) : HibernatePlanStatus :=
  mkStatus (st_CurrentCycleID r) (st_Phase r) (st_LastTransitionTime r) (st_Executions r) (st_ObservedGeneration r) (st_RetryCount r) (st_LastRetryTime r) (st_ErrorMessage r) (st_ExceptionReferences r) (st_AppliedExceptionOverride r) (st_PlanSnapshot r) v (st_CurrentOperation r) (st_ExecutionHistory r).
Definition set_st_CurrentOperation (v : PlanOperation) (r : HibernatePlanStatus) : HibernatePlanStatus :=
  mkStatus (st_CurrentCycleID r) (st_Phase r) (st_LastTransitionTime r) (st_Executions r) (st_ObservedGeneration r) (st_RetryCount r) (st_LastRetryTime r) (st_ErrorMessage r) (st_ExceptionReferences r) (st_AppliedExceptionOverride r) (st_PlanSnapshot r) (st_CurrentStageIndex r) v (st_ExecutionHistory r).
Definition set_st_ExecutionHistory (v : list ExecutionCycle) (r : HibernatePlanStatus) : HibernatePlanStatus :=
  mkStatus (st_CurrentCycleID r) (st_Phase r) (st_LastTransitionTime r) (st_Executions r) (st_ObservedGeneration r) (st_RetryCount r) (st_LastRetryTime r) (st_ErrorMessage r) (st_ExceptionReferences r) (st_AppliedExceptionOverride r) (st_PlanSnapshot r) (st_CurrentStageIndex r) (st_CurrentOperation r) v.

(** [HibernatePlan]; [plan_Deleting] is a non-zero deletion timestamp.  A nil annotation map reads like an empty one, and the one place that writes to it makes it first. *)
Record HibernatePlan := mkPlan {
  plan_Name : string;
  plan_Namespace : string;
  plan_Generation : Z;
  plan_Deleting : bool;
  plan_Finalizers : list string;
  plan_Annotations : gmap string string;
  plan_Spec : HibernatePlanSpec;
  plan_Status : HibernatePlanStatus;
}.

Definition set_plan_Finalizers (v : list string) (r : HibernatePlan) : HibernatePlan :=
  mkPlan (plan_Name r) (plan_Namespace r) (plan_Generation r) (plan_Deleting r) v (plan_Annotations r) (plan_Spec r) (plan_Status r).
Definition set_plan_Annotations (v : gmap string string) (r : HibernatePlan) : HibernatePlan :=
  mkPlan (plan_Name r) (plan_Namespace r) (plan_Generation r) (plan_Deleting r) (plan_Finalizers r) v (plan_Spec r) (plan_Status r).
Definition set_plan_Spec (v : HibernatePlanSpec) (r : HibernatePlan) : HibernatePlan :=
  mkPlan (plan_Name r) (plan_Namespace r) (plan_Generation r) (plan_Deleting r) (plan_Finalizers r) (plan_Annotations r) v (plan_Status r).
Definition set_plan_Status (v : HibernatePlanStatus) (r : HibernatePlan) : HibernatePlan :=
  mkPlan (plan_Name r) (plan_Namespace r) (plan_Generation r) (plan_Deleting r) (plan_Finalizers r) (plan_Annotations r) (plan_Spec r) v.

(** [TargetOverride]. *)
Record TargetOverride := mkTargetOverride {
  to_TargetName : string;
  to_Parameters : option string;
  to_Disabled : bool;
}.

(** [ExecutionOverride]. *)
Record ExecutionOverride := mkExecutionOverride {
  eo_Strategy : option ExecutionStrategy;
  eo_Behavior : option Behavior;
}.

(** [metav1.OwnerReference]. *)
Record OwnerReference := mkOwnerReference {
  own_APIVersion : string;
  own_Kind : string;
  own_Name : string;
}.

(** [ScheduleException]: metadata, spec and status in one record; the reference to
    the plan is a name and a namespace.  A nil label map reads like an empty one, and the one place that writes to it makes it first. *)
Record ScheduleException := mkScheduleException {
  se_Name : string;
  se_Namespace : string;
  se_Labels : gmap string string;
  se_Finalizers : list string;
  se_OwnerReferences : list OwnerReference;
  se_CreationTimestamp : time;
  se_Deleting : bool;
  se_PlanRef : string;
  se_PlanRefNamespace : string;
  se_Type : ExceptionKind;
  se_ValidFrom : time;
  se_ValidUntil : time;
  se_LeadTime : string;
  se_Windows : list OffHourWindow;
  se_TargetOverrides : list TargetOverride;
  se_ExecutionOverride : option ExecutionOverride;
  se_State : ExceptionState;
  se_AppliedAt : option time;
  se_ExpiredAt : option time;
  se_DetachedAt : option time;
  se_Message : string;
}.

Definition set_se_Labels (v : gmap string string) (r : ScheduleException) : ScheduleException :=
  mkScheduleException (se_Name r) (se_Namespace r) v (se_Finalizers r) (se_OwnerReferences r) (se_CreationTimestamp r) (se_Deleting r) (se_PlanRef r) (se_PlanRefNamespace r) (se_Type r) (se_ValidFrom r) (se_ValidUntil r) (se_LeadTime r) (se_Windows r) (se_TargetOverrides r) (se_ExecutionOverride r) (se_State r) (se_AppliedAt r) (se_ExpiredAt r) (se_DetachedAt r) (se_Message r).
Definition set_se_Finalizers (v : list string) (r : ScheduleException) : ScheduleException :=
  mkScheduleException (se_Name r) (se_Namespace r) (se_Labels r) v (se_OwnerReferences r) (se_CreationTimestamp r) (se_Deleting r) (se_PlanRef r) (se_PlanRefNamespace r) (se_Type r) (se_ValidFrom r) (se_ValidUntil r) (se_LeadTime r) (se_Windows r) (se_TargetOverrides r) (se_ExecutionOverride r) (se_State r) (se_AppliedAt r) (se_ExpiredAt r) (se_DetachedAt r) (se_Message r).
Definition set_se_State (v : ExceptionState) (r : ScheduleException) : ScheduleException :=
  mkScheduleException (se_Name r) (se_Namespace r) (se_Labels r) (se_Finalizers r) (se_OwnerReferences r) (se_CreationTimestamp r) (se_Deleting r) (se_PlanRef r) (se_PlanRefNamespace r) (se_Type r) (se_ValidFrom r) (se_ValidUntil r) (se_LeadTime r) (se_Windows r) (se_TargetOverrides r) (se_ExecutionOverride r) v (se_AppliedAt r) (se_ExpiredAt r) (se_DetachedAt r) (se_Message r).
Definition set_se_AppliedAt (v : option time) (r : ScheduleException) : ScheduleException :=
  mkScheduleException (se_Name r) (se_Namespace r) (se_Labels r) (se_Finalizers r) (se_OwnerReferences r) (se_CreationTimestamp r) (se_Deleting r) (se_PlanRef r) (se_PlanRefNamespace r) (se_Type r) (se_ValidFrom r) (se_ValidUntil r) (se_LeadTime r) (se_Windows r) (se_TargetOverrides r) (se_ExecutionOverride r) (se_State r) v (se_ExpiredAt r) (se_DetachedAt r) (se_Message r).
Definition set_se_ExpiredAt (v : option time) (r : ScheduleException) : ScheduleException :=
  mkScheduleException (se_Name r) (se_Namespace r) (se_Labels r) (se_Finalizers r) (se_OwnerReferences r) (se_CreationTimestamp r) (se_Deleting r) (se_PlanRef r) (se_PlanRefNamespace r) (se_Type r) (se_ValidFrom r) (se_ValidUntil r) (se_LeadTime r) (se_Windows r) (se_TargetOverrides r) (se_ExecutionOverride r) (se_State r) (se_AppliedAt r) v (se_DetachedAt r) (se_Message r).
Definition set_se_DetachedAt (v : option time) (r : ScheduleException) : ScheduleException :=
  mkScheduleException (se_Name r) (se_Namespace r) (se_Labels r) (se_Finalizers r) (se_OwnerReferences r) (se_CreationTimestamp r) (se_Deleting r) (se_PlanRef r) (se_PlanRefNamespace r) (se_Type r) (se_ValidFrom r) (se_ValidUntil r) (se_LeadTime r) (se_Windows r) (se_TargetOverrides r) (se_ExecutionOverride r) (se_State r) (se_AppliedAt r) (se_ExpiredAt r) v (se_Message r).
Definition set_se_Message (v : string) (r : ScheduleException) : ScheduleException :=
  mkScheduleException (se_Name r) (se_Namespace r) (se_Labels r) (se_Finalizers r) (se_OwnerReferences r) (se_CreationTimestamp r) (se_Deleting r) (se_PlanRef r) (se_PlanRefNamespace r) (se_Type r) (se_ValidFrom r) (se_ValidUntil r) (se_LeadTime r) (se_Windows r) (se_TargetOverrides r) (se_ExecutionOverride r) (se_State r) (se_AppliedAt r) (se_ExpiredAt r) (se_DetachedAt r) v.

(** Assignment of a field of the status of a plan: what a status mutator does. *)
Definition on_status (f : HibernatePlanStatus -> HibernatePlanStatus) (p : HibernatePlan) : HibernatePlan :=
  set_plan_Status (f (plan_Status p)) p.

Definition plan_Phase (p : HibernatePlan) : PlanPhase := st_Phase (plan_Status p).

(** A terminal execution state. *)
Definition terminal_state (s : ExecutionState) : bool :=
  match s with StateCompleted | StateFailed | StateAborted => true | _ => false end.
