(* ===== verification/Recovery.v ===== *)
(** * Error recovery ([internal/recovery/recovery.go])

    Classification of an error, the exponential backoff, and the bookkeeping of
    retries in the plan status. *)
From S2P Require Import Prelude GoString GoTime Types.
From Stdlib Require Import Lia.

Local Open Scope Z_scope.

Inductive ErrorClassification :=
| ErrorTransient
| ErrorPermanent
| ErrorExecutionFailed
| ErrorUnknown.
#[export] Instance ErrorClassification_eq_dec : EqDecision ErrorClassification.
Proof. solve_decision. Defined.

Record ErrorRecoveryStrategy := mkRecoveryStrategy {
  ShouldRetry : bool;
  RetryAfter : Z;
  Classification : ErrorClassification;
  Reason : string;
}.

(** An [error]: its text, and its code when the chain holds an AWS API error. *)
Record error := mkError { err_Message : string; err_Code : option string }.

Definition Errorf (msg : string) : error := mkError msg None.

Definition transientAWSErrorCodes : list string :=
  ["Throttling"; "RequestLimitExceeded"; "ServiceUnavailable"; "InternalError";
   "RequestTimeout"; "ProvisionedThroughputExceededException"].

Definition permanentAWSErrorCodes : list string :=
  ["ResourceNotFoundException"; "ValidationException"; "InvalidParameterException";
   "AccessDeniedException"; "UnauthorizedException"; "ResourceAlreadyExistsException"].

Definition executionFailedPatterns : list string :=
  ["one or more targets in stage"; "failed to rebuild execution plan";
   "failed to create job"; "cannot execute stage"].

Definition transientPatterns : list string :=
  ["timeout"; "connection refused"; "temporary failure"; "rate limit"; "throttling";
   "service unavailable"; "too many requests"; "deadline exceeded"].

Definition permanentPatterns : list string :=
  ["not found"; "already exists"; "invalid"; "forbidden"; "unauthorized"; "permission denied"].

(** The string matching of [ClassifyError]. *)
Definition classify_message (msg : string) : ErrorClassification :=
  let errMsg := ToLower msg in
  if existsb (Contains errMsg) executionFailedPatterns then ErrorExecutionFailed
  else if existsb (Contains errMsg) transientPatterns then ErrorTransient
  else if existsb (Contains errMsg) permanentPatterns then ErrorPermanent
  else ErrorUnknown.

Definition ClassifyError (err : option error) : ErrorClassification :=
  match err with
  | None => ErrorUnknown
  | Some e =>
      match err_Code e with
      | Some code =>
          if bool_decide (code ∈ transientAWSErrorCodes) then ErrorTransient
          else if bool_decide (code ∈ permanentAWSErrorCodes) then ErrorPermanent
          else classify_message (err_Message e)
      | None => classify_message (err_Message e)
      end
  end.

Definition base_backoff : Z := 60 * Second.
Definition max_backoff : Z := 30 * Minute.

(** The loop of [CalculateBackoff], which returns from inside when the delay
    reaches the maximum: [None]; the product is a 64-bit one. *)
Fixpoint backoff_loop (attempt : nat) (multiplier : Z) : option Z :=
  match attempt with
  | O => Some multiplier
  | S attempt' =>
      let multiplier' := int64 (multiplier * 2) in
      if max_backoff <=? int64 (multiplier' * base_backoff) then None
      else backoff_loop attempt' multiplier'
  end.

Definition CalculateBackoff (attempt : Z) : Z :=
  let attempt' := if attempt <? 0 then 0 else attempt in
  match backoff_loop (Z.to_nat attempt') 1 with
  | None => max_backoff
  | Some multiplier =>
      let backoff := int64 (multiplier * base_backoff) in
      if max_backoff <? backoff then max_backoff else backoff
  end.

Definition DefaultRecoveryMaxRetryAttempts : Z := 3.

Definition error_text (err : option error) : string :=
  match err with None => "<nil>" | Some e => err_Message e end.

(** "attempt %d/%d". *)
Definition attempt_text (plan : HibernatePlan) (maxRetries : Z) : string :=
  ("(attempt " ++ sprint_d (int32 (st_RetryCount (plan_Status plan) + 1)) ++ "/"
   ++ sprint_d maxRetries ++ ")")%string.

Definition DetermineRecoveryStrategy (plan : HibernatePlan) (now : time) (err : option error)
  : ErrorRecoveryStrategy :=
  let classification := ClassifyError err in
  let maxRetries := default DefaultRecoveryMaxRetryAttempts (beh_Retries (spec_Behavior (plan_Spec plan))) in
  let status := plan_Status plan in
  if maxRetries <=? st_RetryCount status then
    mkRecoveryStrategy false 0 classification
      ("max retries (" ++ sprint_d maxRetries ++ ") exceeded")
  else if bool_decide (classification = ErrorPermanent) then
    mkRecoveryStrategy false 0 classification "error classified as permanent"
  else
    let backoff := CalculateBackoff (st_RetryCount status) in
    let retry_now :=
      mkRecoveryStrategy true 0 classification
        ("retrying from previous error: " ++ error_text err ++ " " ++ attempt_text plan maxRetries) in
    match st_LastRetryTime status with
    | Some last =>
        let elapsed := Sub now last in
        if elapsed <? backoff then
          mkRecoveryStrategy true (int64 (backoff - elapsed)) classification
            ("waiting for backoff " ++ attempt_text plan maxRetries)
        else retry_now
    | None => retry_now
    end.

(** The result says whether the attempt was recorded. *)
Definition RecordRetryAttempt (now : time) (err : option error) (plan : HibernatePlan)
  : HibernatePlan * bool :=
  let recent :=
    match st_LastRetryTime (plan_Status plan) with
    | Some last => Sub now last <? 5 * Second
    | None => false
    end in
  if recent then
    (match err with
     | Some e => on_status (set_st_ErrorMessage (err_Message e)) plan
     | None => plan
     end, false)
  else
    (on_status (fun s =>
       set_st_ErrorMessage (match err with Some e => err_Message e | None => "unknown error" end)
         (set_st_LastRetryTime (Some now)
            (set_st_RetryCount (int32 (st_RetryCount s + 1)) s))) plan, true).

Definition ResetRetryState (plan : HibernatePlan) : HibernatePlan :=
  on_status (fun s =>
    set_st_ErrorMessage "" (set_st_LastRetryTime None (set_st_RetryCount 0 s))) plan.

(** ** Lemmas *)

Lemma backoff_loop_spec n k :
  0 <= k -> 60 * 2 ^ k < 1800 ->
  backoff_loop n (2 ^ k) =
  if 60 * 2 ^ (k + Z.of_nat n) <? 1800 then Some (2 ^ (k + Z.of_nat n)) else None.
Proof.
  revert k. induction n as [|n IH]; intros k Hk Hlt.
  - rewrite Z.add_0_r. rewrite (proj2 (Z.ltb_lt _ _) Hlt). done.
  - assert (2 ^ (k + 1) = 2 ^ k * 2) as Hpow by (rewrite Z.pow_add_r by lia; done).
    cbn [backoff_loop].
    rewrite (int64_id (2 ^ k * 2)) by (unfold in_int64; lia).
    rewrite (int64_id (2 ^ k * 2 * base_backoff)) by (unfold in_int64, base_backoff, Second; lia).
    rewrite <- Hpow. unfold base_backoff, max_backoff, Minute, Second.
    destruct (_ <=? _) eqn:E; reflect.
    + rewrite (proj2 (Z.ltb_ge _ _)); [done|].
      assert (2 ^ (k + 1) <= 2 ^ (k + Z.of_nat (S n))) by (apply Z.pow_le_mono_r; lia). lia.
    + rewrite IH by lia. by replace (k + 1 + Z.of_nat n) with (k + Z.of_nat (S n)) by lia.
Qed.

Lemma CalculateBackoff_closed attempt :
  CalculateBackoff attempt = Z.min (60 * 2 ^ Z.max 0 attempt) 1800 * Second.
Proof.
  unfold CalculateBackoff.
  replace (if attempt <? 0 then 0 else attempt) with (Z.max 0 attempt)
    by (destruct (attempt <? 0) eqn:E; reflect; lia).
  change 1 with (2 ^ 0). rewrite backoff_loop_spec by (simpl; lia).
  rewrite Z.add_0_l, Z2Nat.id by lia. set (p := 2 ^ Z.max 0 attempt).
  assert (0 < p) by (apply Z.pow_pos_nonneg; lia).
  unfold max_backoff, base_backoff, Minute, Second.
  destruct (60 * p <? 1800) eqn:E; reflect; [|lia].
  rewrite int64_id by (unfold in_int64; lia). destruct (_ <? _) eqn:E'; reflect; lia.
Qed.

Lemma CalculateBackoff_bounds attempt :
  60 * Second <= CalculateBackoff attempt <= 1800 * Second.
Proof.
  rewrite CalculateBackoff_closed.
  assert (0 < 2 ^ Z.max 0 attempt) by (apply Z.pow_pos_nonneg; lia). unfold Second. lia.
Qed.

(** The delay before retry [n] is 60 seconds doubled [n] times, capped at 30
    minutes, for every attempt number; it never shrinks from one attempt to the
    next, and the 64-bit product never overflows. *)
Theorem CalculateBackoff_spec attempt :
  CalculateBackoff attempt = Z.min (60 * 2 ^ Z.max 0 attempt) 1800 * Second /\
  60 * Second <= CalculateBackoff attempt <= 30 * Minute /\
  CalculateBackoff attempt <= CalculateBackoff (attempt + 1).
Proof.
  rewrite !CalculateBackoff_closed.
  assert (0 < 2 ^ Z.max 0 attempt) by (apply Z.pow_pos_nonneg; lia).
  assert (2 ^ Z.max 0 attempt <= 2 ^ Z.max 0 (attempt + 1)) by (apply Z.pow_le_mono_r; lia).
  unfold Minute, Second. lia.
Qed.

(** A plan is retried exactly when its retries are not exhausted and the
    error is not classified as permanent; the retry is delayed by what remains
    of the backoff since the last one, and not at all before the first. *)
Theorem DetermineRecoveryStrategy_spec plan now err :
  let count := st_RetryCount (plan_Status plan) in
  let max := default 3 (beh_Retries (spec_Behavior (plan_Spec plan))) in
  let s := DetermineRecoveryStrategy plan now err in
  ShouldRetry s = (count <? max) && negb (bool_decide (ClassifyError err = ErrorPermanent)) /\
  (ShouldRetry s = true -> forall last, st_LastRetryTime (plan_Status plan) = Some last ->
     unix_ns last <= unix_ns now ->
     RetryAfter s = Z.max 0 (CalculateBackoff count - (unix_ns now - unix_ns last))) /\
  (st_LastRetryTime (plan_Status plan) = None -> RetryAfter s = 0).
Proof.
  intros count max s. subst s. unfold DetermineRecoveryStrategy, DefaultRecoveryMaxRetryAttempts.
  fold count max. destruct (max <=? count) eqn:E; reflect.
  { rewrite (proj2 (Z.ltb_ge _ _) E). split; [done|]. split; [discriminate|done]. }
  rewrite (proj2 (Z.ltb_lt _ _) E). destruct (bool_decide _) eqn:Ep; [split; [done|]; split; [discriminate|done]|].
  destruct (st_LastRetryTime (plan_Status plan)) as [last|] eqn:El; [|done].
  pose proof (CalculateBackoff_bounds count) as Hb.
  split; [by destruct (_ <? _)|]. split; [|done]. intros _ last' [= <-] Hle.
  unfold Sub, Second in *. destruct (_ <? _) eqn:Eb; reflect; simpl; [|lia].
  rewrite int64_id; unfold in_int64; lia.
Qed.

(** Recording a retry twice within five seconds counts it once: the second
    call leaves the counter and the time of the first. *)
Theorem RecordRetryAttempt_idempotent plan now now' err err' :
  unix_ns now <= unix_ns now' < unix_ns now + 5 * Second ->
  let r1 := RecordRetryAttempt now err plan in
  let r2 := RecordRetryAttempt now' err' r1.1 in
  r1.2 = true ->
  r2.2 = false /\
  st_RetryCount (plan_Status r2.1) = int32 (st_RetryCount (plan_Status plan) + 1) /\
  st_LastRetryTime (plan_Status r2.1) = Some now.
Proof.
  intros Hlt. unfold RecordRetryAttempt at 1 2.
  destruct (match st_LastRetryTime (plan_Status plan) with Some _ => _ | None => _ end); [done|].
  intros _. unfold RecordRetryAttempt. cbn.
  replace (Sub now' now <? 5 * Second) with true
    by (symmetry; apply Z.ltb_lt; unfold Sub, Second in *; lia).
  by destruct err'.
Qed.
