(* ===== verification/Cluster.v ===== *)
(** * The API server, as its clients use it

    The controller and the runner reach a Kubernetes cluster through requests
    whose answers this file does not define: [KubeApi] is an interface, with a
    function that serves the requests and observers of what is stored, and
    [KubeLaws] states what the code relies on.  A request may fail in any way the
    laws allow, and a request that fails may still have been carried out.  The
    file [Memory] has an instance.  The data are the parts of the Kubernetes types
    that the code writes and reads. *)
From S2P Require Import Prelude Monad GoString GoTime Types.

Local Open Scope Z_scope.

Inductive ApiError :=
| NotFound
| AlreadyExists
| ApiFailure (msg : string).
#[export] Instance ApiError_eq_dec : EqDecision ApiError.
Proof. solve_decision. Defined.

Definition api_text (e : ApiError) : string :=
  match e with
  | NotFound => "not found"
  | AlreadyExists => "already exists"
  | ApiFailure msg => msg
  end.

Inductive ConditionType := JobComplete | JobFailed | OtherCondition (s : string).
#[export] Instance ConditionType_eq_dec : EqDecision ConditionType.
Proof. solve_decision. Defined.

(** [batchv1.JobSpec], with the pod template and the one container it describes;
    the volume is a projected service account token. *)
Record JobSpec := mkJobSpec {
  js_BackoffLimit : Z;
  js_TTLSecondsAfterFinished : Z;
  js_TemplateLabels : gmap string string;
  js_TemplateAnnotations : gmap string string;
  js_RestartPolicy : string;
  js_ServiceAccountName : string;
  js_Image : string;
  js_Args : list string;
  js_Env : list (string * string);
  js_VolumeMount : string;
  js_TokenAudience : string;
  js_TokenExpirationSeconds : Z;
}.

(** [batchv1.JobCondition]; [cond_True] is [Status == ConditionTrue]. *)
Record JobCondition := mkCondition {
  cond_Type : ConditionType;
  cond_True : bool;
  cond_LastTransitionTime : time;
}.

(** [batchv1.Job]; [job_Owner] is the name of the controller reference. *)
Record Job := mkJob {
  job_Name : string;
  job_Namespace : string;
  job_Labels : gmap string string;
  job_Annotations : gmap string string;
  job_Owner : string;
  job_Spec : JobSpec;
  job_StartTime : option time;
  job_Active : Z;
  job_Succeeded : Z;
  job_Failed : Z;
  job_Conditions : list JobCondition;
}.

Definition set_job_Labels (v : gmap string string) (r : Job) : Job :=
  mkJob (job_Name r) (job_Namespace r) v (job_Annotations r) (job_Owner r) (job_Spec r) (job_StartTime r) (job_Active r) (job_Succeeded r) (job_Failed r) (job_Conditions r).

(** [corev1.Pod]; a container status is its termination message and that of its last termination, when there are. *)
Record Pod := mkPod {
  pod_Namespace : string;
  pod_Labels : gmap string string;
  pod_CreationTimestamp : time;
  pod_Statuses : list (option string * option string);
}.

(** [corev1.ConfigMap]. *)
Record ConfigMap := mkConfigMap {
  cm_Labels : gmap string string;
  cm_Annotations : gmap string string;
  cm_Data : gmap string string;
}.

Definition set_cm_Annotations (v : gmap string string) (r : ConfigMap) : ConfigMap :=
  mkConfigMap (cm_Labels r) v (cm_Data r).
Definition set_cm_Data (v : gmap string string) (r : ConfigMap) : ConfigMap :=
  mkConfigMap (cm_Labels r) (cm_Annotations r) v.

Definition job_TemplateLabels (j : Job) : gmap string string := js_TemplateLabels (job_Spec j).

(** ** Requests *)

(** The requests that are made; [CreateJob] leaves the name to the server, and
    [PatchPlan] is [Patch(ctx, plan, MergeFrom(orig))]. *)
Inductive Request : Type -> Type :=
| GetConfigMap (ns name : string) : Request ConfigMap
| CreateConfigMap (ns name : string) (cm : ConfigMap) : Request unit
| UpdateConfigMap (ns name : string) (cm : ConfigMap) : Request unit
| ListJobs (ns : string) (selector : gmap string string) : Request (list Job)
| ListPods (ns : string) (selector : gmap string string) : Request (list Pod)
| CreateJob (generateName : string) (job : string -> Job) : Request unit
| DeleteJob (ns name : string) : Request unit
| PatchJobLabels (ns name : string) (labels : gmap string string) : Request unit
| PatchPlan (orig plan : HibernatePlan) : Request HibernatePlan.

(** What a cluster stores, and how it serves requests.  [no_faults] says that
    requests are answered from now on; [put_configmap] is the cluster after a
    ConfigMap has been written. *)
Class KubeApi := {
  Cluster : Type;
  cl_plan : Cluster -> option HibernatePlan;
  cl_configmaps : Cluster -> gmap (string * string) ConfigMap;
  cl_jobs : Cluster -> list Job;
  no_faults : Cluster -> Prop;
  put_configmap : string -> string -> ConfigMap -> Cluster -> Cluster;
  serve : forall A, Request A -> Cluster -> (ApiError + A) * Cluster;
}.
Arguments serve {_ A}.

(** A JSON merge patch of a map: the keys on which [orig] and [new] differ. *)
Definition merge_patch (orig new server : gmap string string) : gmap string string :=
  let diff : gmap string (option string) :=
    merge (fun o n => if decide (o = n) then None else Some n) orig new in
  merge (fun d s => match d with Some n => n | None => s end) diff server.

(** What a merge patch leaves of the stored plan [s]: annotations and the
    suspension change where [orig] and [plan] differ; the status, a subresource,
    does not change. *)
Record patched (orig plan s s' : HibernatePlan) : Prop := {
  patched_Annotations :
    plan_Annotations s' = merge_patch (plan_Annotations orig) (plan_Annotations plan) (plan_Annotations s);
  patched_Suspend :
    spec_Suspend (plan_Spec s') =
      (if decide (spec_Suspend (plan_Spec orig) = spec_Suspend (plan_Spec plan))
       then spec_Suspend (plan_Spec s) else spec_Suspend (plan_Spec plan));
  patched_Status : plan_Status s' = plan_Status s;
}.

(** How a request with the answer [r] changes the stored plan. *)
Definition plan_after {A} (q : Request A) : ApiError + A -> option HibernatePlan -> option HibernatePlan -> Prop :=
  match q in Request A return ApiError + A -> option HibernatePlan -> option HibernatePlan -> Prop with
  | PatchPlan orig plan => fun r before after =>
      match r with
      | inr s' => after = Some s' /\ exists s, before = Some s /\ patched orig plan s s'
      | inl _ => after = before \/ exists s s', before = Some s /\ after = Some s' /\ patched orig plan s s'
      end
  | _ => fun _ before after => after = before
  end.

(** How a request changes the Jobs: only [CreateJob] adds one. *)
Definition jobs_after {A} (q : Request A) : ApiError + A -> list Job -> list Job -> Prop :=
  match q in Request A return ApiError + A -> list Job -> list Job -> Prop with
  | CreateJob _ job => fun r before after =>
      (exists name, after = before ++ [job name]) \/ (exists e, r = inl e) /\ after = before
  | DeleteJob _ _ | PatchJobLabels _ _ _ => fun _ before after => (length after <= length before)%nat
  | _ => fun _ before after => after = before
  end.

Class KubeLaws {HK : KubeApi} : Prop := {
  serve_plan {A} (q : Request A) c : plan_after q (serve q c).1 (cl_plan c) (cl_plan (serve q c).2);
  serve_jobs {A} (q : Request A) c : jobs_after q (serve q c).1 (cl_jobs c) (cl_jobs (serve q c).2);
  put_configmap_lookup ns name cm c :
    cl_configmaps (put_configmap ns name cm c) = <[(ns, name) := cm]> (cl_configmaps c);
  put_configmap_faults ns name cm c : no_faults c -> no_faults (put_configmap ns name cm c);
  get_configmap_answer ns name c : no_faults c ->
    serve (GetConfigMap ns name) c =
      (match cl_configmaps c !! (ns, name) with Some cm => inr cm | None => inl NotFound end, c);
  create_configmap_answer ns name cm c : no_faults c -> cl_configmaps c !! (ns, name) = None ->
    serve (CreateConfigMap ns name cm) c = (inr tt, put_configmap ns name cm c);
  update_configmap_answer ns name cm c : no_faults c -> is_Some (cl_configmaps c !! (ns, name)) ->
    serve (UpdateConfigMap ns name cm) c = (inr tt, put_configmap ns name cm c);
}.

(** ** Requests as computations *)

Section requests.
Context {HK : KubeApi}.

Definition API (A : Type) : Type := ST Cluster ApiError A.

Definition ask {A} (q : Request A) : API A := fun c =>
  match serve q c with
  | (inl e, c') => (Err e, c')
  | (inr a, c') => (Ok a, c')
  end.

Definition get_configmap (ns name : string) : API ConfigMap := ask (GetConfigMap ns name).
Definition create_configmap (ns name : string) (cm : ConfigMap) : API unit := ask (CreateConfigMap ns name cm).
Definition update_configmap (ns name : string) (cm : ConfigMap) : API unit := ask (UpdateConfigMap ns name cm).
Definition list_jobs (ns : string) (selector : gmap string string) : API (list Job) := ask (ListJobs ns selector).
Definition list_pods (ns : string) (selector : gmap string string) : API (list Pod) := ask (ListPods ns selector).
Definition create_job (generateName : string) (job : string -> Job) : API unit := ask (CreateJob generateName job).
Definition delete_job (ns name : string) : API unit := ask (DeleteJob ns name).
Definition patch_job_labels (ns name : string) (labels : gmap string string) : API unit :=
  ask (PatchJobLabels ns name labels).
Definition patch_plan (orig plan : HibernatePlan) : API HibernatePlan := ask (PatchPlan orig plan).
End requests.

(** ** Lemmas *)

Lemma merge_patch_lookup orig new server k :
  merge_patch orig new server !! k =
  if decide (orig !! k = new !! k) then server !! k else new !! k.
Proof.
  unfold merge_patch. rewrite !lookup_merge.
  destruct (orig !! k) as [o|], (new !! k) as [n|], (server !! k) as [s|]; simpl;
    repeat case_decide; simplify_eq/=; done.
Qed.

Section laws.
Context {HK : KubeApi} {HKL : KubeLaws}.

(** A request whose effect on what an invariant reads is harmless. *)
Lemma ask_preserves {A} (I : Cluster -> Prop) (q : Request A) :
  (forall c, I c -> I (serve q c).2) -> preserves I (ask q).
Proof.
  intros H c Hc. specialize (H c Hc). unfold ask. by destruct (serve q c) as [ [e|a] c'].
Qed.

(** A Job is created, or the request fails; nothing else happens to the Jobs. *)
Lemma create_job_spec g job c :
  exists c', (exists name, cl_jobs c' = cl_jobs c ++ [job name]) /\
               (create_job g job c = (Ok tt, c') \/ exists e, create_job g job c = (Err e, c'))
          \/ cl_jobs c' = cl_jobs c /\ exists e, create_job g job c = (Err e, c').
Proof.
  unfold create_job, ask. pose proof (serve_jobs (CreateJob g job) c) as H. simpl in H.
  destruct (serve (CreateJob g job) c) as [ [e|[] ] c']; simpl in H; exists c'.
  - destruct H as [H|[_ H] ]; [left|right]; (split; [done|]); [right|]; by exists e.
  - left. destruct H as [H|[ [e He] _] ]; [|done]. by split; [|left].
Qed.

(** A successful patch of the plan. *)
Lemma patch_plan_ok orig plan c s' c' :
  patch_plan orig plan c = (Ok s', c') ->
  exists s, cl_plan c = Some s /\ cl_plan c' = Some s' /\ patched orig plan s s'.
Proof.
  unfold patch_plan, ask. pose proof (serve_plan (PatchPlan orig plan) c) as H. simpl in H.
  destruct (serve _ c) as [ [e|s1] c1]; intros E; [done|]. injection E as <- <-. simpl in H.
  destruct H as [H1 (s & H2 & H3)]. by exists s.
Qed.
End laws.
