(* ===== verification/Memory.v ===== *)
(** * A cluster in memory

    An instance of [KubeApi] to evaluate the model on, with a list of outcomes for
    the requests to come: [None] lets one through, [Some e] makes it fail, and an
    exhausted list lets the others through. *)
From S2P Require Import Prelude Monad GoString GoTime Types Cluster.
From Stdlib Require Import Lia.

Local Open Scope Z_scope.

Record Memory := mkMemory {
  mem_plan : option HibernatePlan;
  mem_configmaps : gmap (string * string) ConfigMap;
  mem_jobs : list Job;
  mem_pods : list Pod;
  mem_suffixes : list string;
  mem_faults : list (option ApiError);
}.

Definition set_mem_plan (v : option HibernatePlan) (r : Memory) : Memory :=
  mkMemory v (mem_configmaps r) (mem_jobs r) (mem_pods r) (mem_suffixes r) (mem_faults r).
Definition set_mem_configmaps (v : gmap (string * string) ConfigMap) (r : Memory) : Memory :=
  mkMemory (mem_plan r) v (mem_jobs r) (mem_pods r) (mem_suffixes r) (mem_faults r).
Definition set_mem_jobs (v : list Job) (r : Memory) : Memory :=
  mkMemory (mem_plan r) (mem_configmaps r) v (mem_pods r) (mem_suffixes r) (mem_faults r).
Definition set_mem_faults (v : list (option ApiError)) (r : Memory) : Memory :=
  mkMemory (mem_plan r) (mem_configmaps r) (mem_jobs r) (mem_pods r) (mem_suffixes r) v.

Definition matching_labels (selector labels : gmap string string) : bool :=
  bool_decide (map_Forall (fun k v => labels !! k = Some v) selector).

Definition same_job (ns name : string) (j : Job) : bool :=
  bool_decide (job_Namespace j = ns) && bool_decide (job_Name j = name).

Definition add_job (generateName : string) (job : string -> Job) (c : Memory) : Memory :=
  mkMemory (mem_plan c) (mem_configmaps c)
    (mem_jobs c ++ [job (generateName ++ default "" (head (mem_suffixes c)))%string])
    (mem_pods c) (tail (mem_suffixes c)) (mem_faults c).

(** The stored plan after a merge patch. *)
Definition patch_stored (orig plan s : HibernatePlan) : HibernatePlan :=
  set_plan_Annotations
    (merge_patch (plan_Annotations orig) (plan_Annotations plan) (plan_Annotations s))
    (set_plan_Finalizers
       (if decide (plan_Finalizers orig = plan_Finalizers plan)
        then plan_Finalizers s else plan_Finalizers plan)
       (set_plan_Spec
          (if decide (spec_Suspend (plan_Spec orig) = spec_Suspend (plan_Spec plan))
           then plan_Spec s
           else set_spec_Suspend (spec_Suspend (plan_Spec plan)) (plan_Spec s))
          s)).

(** A request that is let through. *)
Definition respond {A} (q : Request A) (c : Memory) : (ApiError + A) * Memory :=
  match q in Request A return (ApiError + A) * Memory with
  | GetConfigMap ns name =>
      (match mem_configmaps c !! (ns, name) with Some cm => inr cm | None => inl NotFound end, c)
  | CreateConfigMap ns name cm =>
      match mem_configmaps c !! (ns, name) with
      | Some _ => (inl AlreadyExists, c)
      | None => (inr tt, set_mem_configmaps (<[(ns, name) := cm]> (mem_configmaps c)) c)
      end
  | UpdateConfigMap ns name cm =>
      match mem_configmaps c !! (ns, name) with
      | Some _ => (inr tt, set_mem_configmaps (<[(ns, name) := cm]> (mem_configmaps c)) c)
      | None => (inl NotFound, c)
      end
  | ListJobs ns selector =>
      (inr (filter (fun j => job_Namespace j = ns /\ matching_labels selector (job_Labels j) = true)
              (mem_jobs c)), c)
  | ListPods ns selector =>
      (inr (filter (fun p => pod_Namespace p = ns /\ matching_labels selector (pod_Labels p) = true)
              (mem_pods c)), c)
  | CreateJob generateName job => (inr tt, add_job generateName job c)
  | DeleteJob ns name =>
      if existsb (same_job ns name) (mem_jobs c)
      then (inr tt, set_mem_jobs (filter (fun j => same_job ns name j = false) (mem_jobs c)) c)
      else (inl NotFound, c)
  | PatchJobLabels ns name labels =>
      if existsb (same_job ns name) (mem_jobs c)
      then (inr tt,
            set_mem_jobs
              (map (fun j => if same_job ns name j then set_job_Labels (labels ∪ job_Labels j) j else j)
                 (mem_jobs c)) c)
      else (inl NotFound, c)
  | PatchPlan orig plan =>
      match mem_plan c with
      | None => (inl NotFound, c)
      | Some s => (inr (patch_stored orig plan s), set_mem_plan (Some (patch_stored orig plan s)) c)
      end
  end.

Definition serve_memory {A} (q : Request A) (c : Memory) : (ApiError + A) * Memory :=
  match mem_faults c with
  | [] => respond q c
  | None :: l => respond q (set_mem_faults l c)
  | Some e :: l => (inl e, set_mem_faults l c)
  end.

#[export] Instance memory : KubeApi := {|
  Cluster := Memory;
  cl_plan := mem_plan;
  cl_configmaps := mem_configmaps;
  cl_jobs := mem_jobs;
  no_faults c := mem_faults c = [];
  put_configmap ns name cm c := set_mem_configmaps (<[(ns, name) := cm]> (mem_configmaps c)) c;
  serve A q := serve_memory q;
|}.

Lemma patch_stored_patched orig plan s : patched orig plan s (patch_stored orig plan s).
Proof. split; [done| |done]. unfold patch_stored. cbn. by case_decide. Qed.

Lemma respond_plan {A} (q : Request A) c : plan_after q (respond q c).1 (mem_plan c) (mem_plan (respond q c).2).
Proof.
  destruct q; cbn; try (by case_match); try done.
  destruct (mem_plan c) as [s|] eqn:E; cbn; [|by left].
  split; [done|]. exists s. split; [done|]. apply patch_stored_patched.
Qed.

Lemma respond_jobs {A} (q : Request A) c : jobs_after q (respond q c).1 (mem_jobs c) (mem_jobs (respond q c).2).
Proof.
  destruct q; cbn; try (by case_match); try done.
  - left. by eexists.
  - case_match; cbn; [apply length_filter|done].
  - case_match; cbn; [by rewrite length_map|done].
Qed.

#[export] Instance memory_laws : KubeLaws.
Proof.
  split.
  - intros A q c. cbn. unfold serve_memory. destruct (mem_faults c) as [|[e|] l].
    + apply respond_plan.
    + cbn. destruct q; try done. by left.
    + apply (respond_plan q (set_mem_faults l c)).
  - intros A q c. cbn. unfold serve_memory. destruct (mem_faults c) as [|[e|] l].
    + apply respond_jobs.
    + cbn. destruct q; try done; cbn; [right; split; [by exists e|done]|lia|lia].
    + apply (respond_jobs q (set_mem_faults l c)).
  - done.
  - done.
  - intros ns name c Hc. cbn in *. unfold serve_memory. by rewrite Hc.
  - intros ns name cm c Hc Hn. cbn in *. unfold serve_memory. rewrite Hc. cbn. by rewrite Hn.
  - intros ns name cm c Hc [x Hx]. cbn in *. unfold serve_memory. rewrite Hc. cbn. by rewrite Hx.
Qed.
