(* ===== verification/Restore.v ===== *)
(** * Restore data ([internal/restore/manager.go], [save.go], [strategy.go])

    The state of the targets before hibernation, kept per target in the data of
    one ConfigMap per plan.  Values are stored as JSON text; the codec is the
    class [JSON]. *)
From S2P Require Import Prelude Monad GoString GoTime Types Cluster.
From Stdlib Require Import Lia.

Local Open Scope Z_scope.

(** A value of type [any] as the code inspects it: an object, whose members are
    booleans or something else, or another value; what the code does not look
    into is its JSON text. *)
Inductive scalar := SBool (b : bool) | SOther (text : string).
Inductive any := AnyMap (fields : gmap string scalar) | AnyOther (text : string).

Record ResourceStatus := mkResourceStatus {
  StaleCount : Z;
  LastReportedAt : option time;
}.

Record Data := mkData {
  data_Target : string;
  data_Executor : string;
  data_Version : Z;
  data_IsLive : bool;
  data_CycleID : string;
  data_CreatedAt : time;
  data_CapturedAt : option time;
  data_State : gmap string any;
  data_Status : gmap string ResourceStatus;
}.

Definition set_data_IsLive (b : bool) (d : Data) : Data :=
  mkData (data_Target d) (data_Executor d) (data_Version d) b (data_CycleID d)
    (data_CreatedAt d) (data_CapturedAt d) (data_State d) (data_Status d).
Definition set_data_CycleID (s : string) (d : Data) : Data :=
  mkData (data_Target d) (data_Executor d) (data_Version d) (data_IsLive d) s
    (data_CreatedAt d) (data_CapturedAt d) (data_State d) (data_Status d).

(** [encoding/json] on these types.  [unmarshal_dest] is what a failed
    [Unmarshal] leaves in a zero destination. *)
Class JSON := {
  marshal : Data -> string;
  unmarshal : string -> option Data;
  unmarshal_dest : string -> Data;
  marshal_map : gmap string string -> string;
}.

Class JSONLaws `{!JSON} : Prop := { unmarshal_marshal d : unmarshal (marshal d) = Some d }.

Definition MaxConfigMapSize : Z := 900 * 1024.

Inductive RestoreError :=
| ErrGet (e : ApiError)
| ErrWrite (e : ApiError)
| ErrUnmarshal
| ErrTooLarge (size : Z)
| ErrLoadExisting (e : RestoreError).

Definition AnnotationPreviousRestoreState : string := "hibernator.ardikabs.com/restore-previous-state".
Definition AnnotationRestoredPrefix : string := "hibernator.ardikabs.com/restored-".
Definition LabelPlan : string := "hibernator.ardikabs.com/plan".

Definition configMapName (planName : string) : string := "hibernator-restore-" ++ planName.
Definition GetRestoreConfigMap (planName : string) : string := configMapName planName.
Definition data_key (targetName : string) : string := targetName ++ ".json".
Definition restored_key (targetName : string) : string := AnnotationRestoredPrefix ++ targetName.

(** ** Merging ([strategy.go]) *)

Record stateMergeContext := mkMergeContext {
  mc_key : string;
  mc_newValue : any;
  mc_existing : Data;
  mc_incomingStatus : gmap string ResourceStatus;
  mc_isSameCycle : bool;
  mc_now : time;
}.

Inductive stateMergeStrategy :=
| differentCycleStrategy
| firstReportStrategy
| demandedStateStrategy
| preserveStateStrategy.

Definition bool_member (fields : gmap string scalar) (k : string) : bool :=
  match fields !! k with Some (SBool b) => b | _ => false end.

Definition isDemandedState (state : gmap string scalar) : bool :=
  bool_member state "wasRunning" || bool_member state "wasScaled".

(** [m[key]] of a map of structs: the zero value when absent. *)
Definition status_of (m : gmap string ResourceStatus) (k : string) : ResourceStatus :=
  default (mkResourceStatus 0 None) (m !! k).

Definition selectStrategy (ctx : stateMergeContext) : stateMergeStrategy :=
  if negb (mc_isSameCycle ctx) then differentCycleStrategy
  else
    match LastReportedAt (status_of (data_Status (mc_existing ctx)) (mc_key ctx)) with
    | None => firstReportStrategy
    | Some _ =>
        match mc_newValue ctx with
        | AnyMap m => if isDemandedState m then demandedStateStrategy else preserveStateStrategy
        | AnyOther _ => preserveStateStrategy
        end
    end.

Definition shouldUseNewValue (s : stateMergeStrategy) : bool :=
  match s with preserveStateStrategy => false | _ => true end.

(** The time of the report, as the accumulator recorded it, or now. *)
Definition incoming_reported (ctx : stateMergeContext) : time :=
  default (mc_now ctx) (LastReportedAt (status_of (mc_incomingStatus ctx) (mc_key ctx))).

Definition setStatus (s : stateMergeStrategy) (ctx : stateMergeContext) : ResourceStatus :=
  match s with
  | preserveStateStrategy =>
      let old := status_of (data_Status (mc_existing ctx)) (mc_key ctx) in
      mkResourceStatus (StaleCount old)
        (Some (default (incoming_reported ctx) (LastReportedAt old)))
  | _ => mkResourceStatus 0 (Some (incoming_reported ctx))
  end.

(** ** Saving ([save.go]) *)

Section merge.
Context (existing data : Data) (isSameCycle : bool) (now : time) (maxStaleCount : Z).

Definition merge_context (key : string) (newValue : any) : stateMergeContext :=
  mkMergeContext key newValue existing (data_Status data) isSameCycle now.

(** The loop over the keys reported in this cycle. *)
Definition reported_state : gmap string any :=
  map_imap (fun key newValue =>
    if shouldUseNewValue (selectStrategy (merge_context key newValue))
    then Some newValue else data_State existing !! key) (data_State data).

Definition reported_status : gmap string ResourceStatus :=
  map_imap (fun key newValue =>
    let ctx := merge_context key newValue in
    Some (setStatus (selectStrategy ctx) ctx)) (data_State data).

(** One key of [handleStaleResources]: kept with a status, or evicted. *)
Definition stale_entry (key : string) (value : any) : option (any * ResourceStatus) :=
  let old := status_of (data_Status existing) key in
  match LastReportedAt old with
  | Some _ =>
      if isSameCycle then Some (value, old)
      else
        let staleCount := StaleCount old + 1 in
        if maxStaleCount <=? staleCount then None
        else Some (value, mkResourceStatus staleCount None)
  | None =>
      let staleCount := StaleCount old + 1 in
      if maxStaleCount <=? staleCount then None
      else Some (value, mkResourceStatus staleCount None)
  end.

Definition unreported : gmap string any :=
  filter (fun kv => data_State data !! kv.1 = None) (data_State existing).

Definition handleStaleResources : gmap string (any * ResourceStatus) :=
  map_imap stale_entry unreported.

Definition mergedState : gmap string any := reported_state ∪ (fst <$> handleStaleResources).
Definition mergedStatus : gmap string ResourceStatus :=
  reported_status ∪ (snd <$> handleStaleResources).
End merge.

Section manager.
Context {HK : KubeApi} {HJ : JSON}.

Definition M (A : Type) : Type := ST Cluster RestoreError A.

Definition getConfigMap (ns planName : string) : M (option ConfigMap) :=
  let! r := st_try (get_configmap ns (configMapName planName)) in
  match r with
  | inr cm => st_ret (Some cm)
  | inl NotFound => st_ret None
  | inl e => st_throw (ErrGet e)
  end.

Definition writeConfigMap (ns planName : string) (cm : ConfigMap) : M unit :=
  st_wrap ErrWrite (update_configmap ns (configMapName planName) cm).

Definition Load (ns planName targetName : string) : M (option Data) :=
  let! found := getConfigMap ns planName in
  match found with
  | None => st_ret None
  | Some cm =>
      match cm_Data cm !! data_key targetName with
      | None => st_ret None
      | Some dataStr =>
          match unmarshal dataStr with
          | None => st_throw ErrUnmarshal
          | Some data => st_ret (Some data)
          end
      end
  end.

Definition new_configmap (planName : string) : ConfigMap :=
  mkConfigMap {[ LabelPlan := planName ]} ∅ ∅.

(** The program patches a ConfigMap that exists with [client.MergeFrom] of what it
    has just read, which sends the one entry that it sets.  Here the whole ConfigMap
    is written: the two agree as long as nobody else writes it between the read and
    the patch, and that an update may be refused for a conflict only adds failures. *)
Definition Save (ns planName targetName : string) (data : Data) : M unit :=
  let! found := getConfigMap ns planName in
  let cm := default (new_configmap planName) found in
  let dataBytes := marshal data in
  let size := Z.of_nat (String.length dataBytes) in
  if MaxConfigMapSize <? size then st_throw (ErrTooLarge size)
  else
    let cm' := set_cm_Data (<[data_key targetName := dataBytes]> (cm_Data cm)) cm in
    match found with
    | None => st_wrap ErrWrite (create_configmap ns (configMapName planName) cm')
    | Some _ => writeConfigMap ns planName cm'
    end.

Definition saveNewState (data : Data) (cycleID ns planName targetName : string) : M unit :=
  Save ns planName targetName (set_data_CycleID cycleID data).

Definition merged_data (data existing : Data) (cycleID : string) (now : time) (maxStaleCount : Z) : Data :=
  let isSameCycle := bool_decide (data_CycleID existing = cycleID) in
  mkData (data_Target data) (data_Executor data) (data_Version data) true cycleID
    (data_CreatedAt existing) (data_CapturedAt data)
    (mergedState existing data isSameCycle now maxStaleCount)
    (mergedStatus existing data isSameCycle now maxStaleCount).

(** What [SaveState] fills in before it merges: the time of capture, and a
    status for every reported key that has none. *)
Definition stamp (data : Data) (now : time) : Data :=
  mkData (data_Target data) (data_Executor data) (data_Version data) (data_IsLive data)
    (data_CycleID data) (data_CreatedAt data) (Some now) (data_State data)
    (data_Status data ∪ ((fun _ => mkResourceStatus 0 (Some now)) <$> data_State data)).

Definition SaveState (ns planName targetName : string) (data0 : Data) (maxStaleCount : Z)
  (cycleID : string) (now : time) : M unit :=
  let! existing := st_wrap ErrLoadExisting (Load ns planName targetName) in
  let data := stamp data0 now in
  match existing with
  | None => saveNewState data cycleID ns planName targetName
  | Some existing =>
      if bool_decide (data_CycleID existing = cycleID) && bool_decide (data_State data = ∅)
      then st_ret tt
      else Save ns planName targetName (merged_data data existing cycleID now maxStaleCount)
  end.

(** ** The rest of [manager.go] *)

Definition PrepareRestorePoint (ns planName : string) : M unit :=
  let! found := getConfigMap ns planName in
  match found with
  | None =>
      st_wrap ErrWrite (create_configmap ns (configMapName planName) (new_configmap planName))
  | Some cm =>
      let previous := marshal_map (cm_Data cm) in
      let previous' := if (String.length previous =? 0)%nat then "n/a" else previous in
      let reset val :=
        marshal (match unmarshal val with
                 | Some state => set_data_IsLive false state
                 | None => unmarshal_dest val
                 end) in
      writeConfigMap ns planName
        (set_cm_Annotations (<[AnnotationPreviousRestoreState := previous']> (cm_Annotations cm))
           (set_cm_Data (reset <$> cm_Data cm) cm))
  end.

Definition MarkTargetRestored (ns planName targetName : string) : M unit :=
  let! found := getConfigMap ns planName in
  match found with
  | None => st_ret tt
  | Some cm =>
      let consume val :=
        match unmarshal val with
        | Some data => marshal (set_data_IsLive false data)
        | None => val
        end in
      writeConfigMap ns planName
        (set_cm_Annotations (<[restored_key targetName := "true"]> (cm_Annotations cm))
           (set_cm_Data (alter consume (data_key targetName) (cm_Data cm)) cm))
  end.

Definition MarkAllTargetsRestored (ns planName : string) (targetNames : list string) : M bool :=
  let! found := getConfigMap ns planName in
  match found with
  | None => st_ret true
  | Some cm =>
      st_ret (forallb (fun t => bool_decide (cm_Annotations cm !! restored_key t = Some "true"))
                targetNames)
  end.

(** The restored-* annotations with a non-empty suffix. *)
Definition is_restored_key (key : string) : bool :=
  (String.length AnnotationRestoredPrefix <? String.length key)%nat
  && has_prefix AnnotationRestoredPrefix key.

Definition unlock_value (val : string) : string :=
  match unmarshal val with
  | Some data =>
      if bool_decide (data_CycleID data <> "") then marshal (set_data_CycleID "" data) else val
  | None => val
  end.

Definition UnlockRestoreData (ns planName : string) : M unit :=
  let! found := getConfigMap ns planName in
  match found with
  | None => st_ret tt
  | Some cm =>
      writeConfigMap ns planName
        (set_cm_Annotations (filter (fun kv => is_restored_key kv.1 = false) (cm_Annotations cm))
           (set_cm_Data (unlock_value <$> cm_Data cm) cm))
  end.

(** The loop of [HasRestoreData] over the values in the order of the map
    iteration: [None] when it runs to its end. *)
Fixpoint has_restore_loop (vals : list string) : option bool :=
  match vals with
  | [] => None
  | val :: vals' =>
      match unmarshal val with
      | None => Some false
      | Some data => if data_IsLive data then Some true else has_restore_loop vals'
      end
  end.

(** [order] is the order in which the iteration visits the entries. *)
Definition HasRestoreData (order : list (string * string) -> list (string * string))
  (ns planName : string) : M bool :=
  let! found := getConfigMap ns planName in
  match found with
  | None => st_ret false
  | Some cm =>
      st_ret (default (bool_decide (cm_Data cm <> ∅))
                (has_restore_loop (map snd (order (map_to_list (cm_Data cm))))))
  end.
End manager.
