(* ===== verification/RestoreSpec.v ===== *)
(** * What the restore data guarantees

    Theorems about [Restore]: what a save leaves for the next load, that a
    restart within a cycle cannot overwrite what was captured before the
    shutdown, when an unreported resource is forgotten, and the lock that the
    restored-* annotations implement. *)
From stdpp Require Import countable.
From S2P Require Import Prelude Monad GoString GoTime Types Cluster Memory Restore.
From Stdlib Require Import Lia.

Local Open Scope Z_scope.

Section spec.
Context {HK : KubeApi} {HKL : KubeLaws} {HJ : JSON}.
Implicit Types c : Cluster.

(** What [Load] reads. *)
Definition loaded c (ns planName targetName : string) : res RestoreError (option Data) :=
  match cl_configmaps c !! (ns, configMapName planName) with
  | None => Ok None
  | Some cm =>
      match cm_Data cm !! data_key targetName with
      | None => Ok None
      | Some val =>
          match unmarshal val with
          | None => Err ErrUnmarshal
          | Some d => Ok (Some d)
          end
      end
  end.

Lemma getConfigMap_ok c ns planName :
  no_faults c ->
  getConfigMap ns planName c = (Ok (cl_configmaps c !! (ns, configMapName planName)), c).
Proof.
  intros Hc. unfold getConfigMap, get_configmap, ask, st_bind, st_try.
  rewrite get_configmap_answer by done. by destruct (cl_configmaps c !! _).
Qed.

Lemma Load_ok c ns planName t : no_faults c -> Load ns planName t c = (loaded c ns planName t, c).
Proof.
  intros Hc. unfold Load, st_bind. rewrite getConfigMap_ok by done. unfold loaded.
  destruct (cl_configmaps c !! _) as [cm|]; [|done].
  destruct (cm_Data cm !! _) as [val|]; [|done]. by destruct (unmarshal val).
Qed.

Definition with_configmap c ns planName cm : Cluster :=
  put_configmap ns (configMapName planName) cm c.

Lemma with_configmap_lookup c ns p cm :
  cl_configmaps (with_configmap c ns p cm) !! (ns, configMapName p) = Some cm.
Proof. unfold with_configmap. rewrite put_configmap_lookup. apply lookup_insert_eq. Qed.

Lemma with_configmap_faults c ns p cm : no_faults c -> no_faults (with_configmap c ns p cm).
Proof. apply put_configmap_faults. Qed.

Lemma update_ok c ns planName cm cm0 :
  no_faults c -> cl_configmaps c !! (ns, configMapName planName) = Some cm0 ->
  writeConfigMap ns planName cm c = (Ok tt, with_configmap c ns planName cm).
Proof.
  intros Hc Hcm. unfold writeConfigMap, update_configmap, ask, st_wrap.
  by rewrite update_configmap_answer by eauto.
Qed.

Lemma create_ok c ns planName cm :
  no_faults c -> cl_configmaps c !! (ns, configMapName planName) = None ->
  st_wrap ErrWrite (create_configmap ns (configMapName planName) cm) c
    = (Ok tt, with_configmap c ns planName cm).
Proof.
  intros Hc Hcm. unfold create_configmap, ask, st_wrap. by rewrite create_configmap_answer.
Qed.

(** The ConfigMap after a save. *)
Definition saved_configmap c ns planName targetName d : ConfigMap :=
  let cm := default (new_configmap planName) (cl_configmaps c !! (ns, configMapName planName)) in
  set_cm_Data (<[data_key targetName := marshal d]> (cm_Data cm)) cm.

Lemma Save_ok c ns planName t d :
  no_faults c ->
  Save ns planName t d c =
  if MaxConfigMapSize <? Z.of_nat (String.length (marshal d))
  then (Err (ErrTooLarge (Z.of_nat (String.length (marshal d)))), c)
  else (Ok tt, with_configmap c ns planName (saved_configmap c ns planName t d)).
Proof.
  intros Hc. unfold Save, st_bind. rewrite getConfigMap_ok by done.
  destruct (_ <? _); [done|]. unfold saved_configmap.
  destruct (cl_configmaps c !! _) as [cm|] eqn:E; simpl; [by erewrite update_ok|by rewrite create_ok].
Qed.

Lemma data_key_inj t t' : data_key t = data_key t' -> t = t'.
Proof.
  apply append_inj_l.
Qed.

Lemma loaded_saved {HJL : JSONLaws} c ns planName t d t' :
  loaded (with_configmap c ns planName (saved_configmap c ns planName t d)) ns planName t' =
  if decide (t = t') then Ok (Some d) else loaded c ns planName t'.
Proof.
  unfold loaded. rewrite with_configmap_lookup. unfold saved_configmap.
  destruct (decide (t = t')) as [->|Hne].
  - simpl. by rewrite lookup_insert_eq, unmarshal_marshal.
  - simpl. rewrite lookup_insert_ne by (intros H; by apply data_key_inj in H).
    destruct (cl_configmaps c !! _) as [cm|]; simpl; [done|]. by rewrite lookup_empty.
Qed.

(** What a target's data is after a save of [data]. *)
Definition after_save (existing : option Data) (data : Data) (maxStaleCount : Z)
  (cycleID : string) (now : time) : Data :=
  let data := stamp data now in
  match existing with
  | None => set_data_CycleID cycleID data
  | Some ex =>
      if bool_decide (data_CycleID ex = cycleID) && bool_decide (data_State data = ∅) then ex
      else merged_data data ex cycleID now maxStaleCount
  end.

Lemma SaveState_after {HJL : JSONLaws} c ns planName t existing data maxStale cycleID now :
  no_faults c -> loaded c ns planName t = Ok existing ->
  run_result (SaveState ns planName t data maxStale cycleID now) c = Ok tt ->
  let c' := run_state (SaveState ns planName t data maxStale cycleID now) c in
  no_faults c' /\
  forall t', loaded c' ns planName t' =
    if decide (t = t') then Ok (Some (after_save existing data maxStale cycleID now))
    else loaded c ns planName t'.
Proof.
  intros Hc Hl. unfold run_result, run_state, SaveState, st_bind, st_wrap.
  rewrite Load_ok, Hl by done. simpl. unfold after_save.
  assert (forall d, (Save ns planName t d c).1 = Ok tt ->
     no_faults (Save ns planName t d c).2 /\
     forall t', loaded (Save ns planName t d c).2 ns planName t' =
       if decide (t = t') then Ok (Some d) else loaded c ns planName t') as Hsave.
  { intros d. rewrite Save_ok by done. destruct (_ <? _); [done|]. intros _. simpl.
    split; [by apply with_configmap_faults|]. intros t'. apply loaded_saved. }
  destruct existing as [ex|]; [|apply Hsave].
  destruct (_ && _); [|apply Hsave]. intros _. simpl. split; [done|]. intros t'.
  destruct (decide (t = t')) as [<-|]; done.
Qed.

(** ** Merging *)

Section merging.
Context (existing data : Data) (same : bool) (now : time) (maxStale : Z).

Lemma unreported_None k v : data_State data !! k = Some v -> unreported existing data !! k = None.
Proof.
  intros Hk. unfold unreported. rewrite map_lookup_filter.
  destruct (data_State existing !! k); simpl; [|done].
  rewrite option_guard_False; [done|]. simpl. congruence.
Qed.

Lemma mergedState_reported k v :
  data_State data !! k = Some v ->
  mergedState existing data same now maxStale !! k =
  if shouldUseNewValue (selectStrategy (merge_context existing data same now k v))
  then Some v else data_State existing !! k.
Proof.
  intros Hk. unfold mergedState. rewrite lookup_union, lookup_fmap.
  unfold reported_state, handleStaleResources. rewrite !map_lookup_imap, Hk. simpl.
  rewrite (unreported_None k v Hk). simpl.
  destruct (shouldUseNewValue _); [done|]. by destruct (data_State existing !! k).
Qed.

Lemma merged_unreported k :
  data_State data !! k = None ->
  mergedState existing data same now maxStale !! k =
    fst <$> (v ← data_State existing !! k; stale_entry existing same maxStale k v) /\
  mergedStatus existing data same now maxStale !! k =
    snd <$> (v ← data_State existing !! k; stale_entry existing same maxStale k v).
Proof.
  intros Hk. unfold mergedState, mergedStatus. rewrite !lookup_union, !lookup_fmap.
  unfold reported_state, reported_status, handleStaleResources, unreported.
  rewrite !map_lookup_imap, Hk. simpl.
  rewrite !(left_id_L None (∪)), map_lookup_filter.
  destruct (data_State existing !! k) as [v|]; [|done]. simpl.
  rewrite option_guard_True; [done|exact Hk].
Qed.
End merging.

Lemma stamp_State data now : data_State (stamp data now) = data_State data.
Proof. done. Qed.

(** ** Claims *)

(** What is saved is what is loaded next, for this target; the data of
    every other target of the plan stay as they are. *)
Theorem SaveState_roundtrip {HJL : JSONLaws} c ns planName t existing data maxStale cycleID now :
  no_faults c -> loaded c ns planName t = Ok existing ->
  run_result (SaveState ns planName t data maxStale cycleID now) c = Ok tt ->
  let c' := run_state (SaveState ns planName t data maxStale cycleID now) c in
  run_result (Load ns planName t) c' = Ok (Some (after_save existing data maxStale cycleID now)) /\
  data_CycleID (after_save existing data maxStale cycleID now) = cycleID /\
  forall t', t' <> t -> run_result (Load ns planName t') c' = run_result (Load ns planName t') c.
Proof.
  intros Hc Hl Hok c'. destruct (SaveState_after _ _ _ _ _ _ _ _ _ Hc Hl Hok) as [Hc' Hl'].
  fold c' in Hc', Hl'. unfold run_result. rewrite !Load_ok by done. simpl. rewrite Hl'.
  rewrite decide_True by done. split; [done|]. split.
  - unfold after_save. destruct existing as [ex|]; [|done].
    destruct (_ && _) eqn:E; [|done]. reflect. done.
  - intros t' Hne. rewrite !Load_ok by done. simpl. rewrite Hl'. by rewrite decide_False.
Qed.

(** C16: a restart within a cycle does not lose what was captured before the
    shutdown.  Once a resource has been reported in a cycle, every later save of
    the same cycle keeps its state, except one that reports it as running or
    scaled. *)
Theorem SaveState_preserves {HJL : JSONLaws} c ns planName t ex data maxStale cycleID now k v at_time :
  no_faults c -> loaded c ns planName t = Ok (Some ex) ->
  data_CycleID ex = cycleID ->
  data_State ex !! k = Some v ->
  LastReportedAt (status_of (data_Status ex) k) = Some at_time ->
  (forall m, data_State data !! k = Some (AnyMap m) -> isDemandedState m = false) ->
  run_result (SaveState ns planName t data maxStale cycleID now) c = Ok tt ->
  exists d, run_result (Load ns planName t) (run_state (SaveState ns planName t data maxStale cycleID now) c)
              = Ok (Some d) /\
    data_State d !! k = Some v /\ LastReportedAt (status_of (data_Status d) k) = Some at_time.
Proof.
  intros Hc Hl Hcyc Hk Hrep Hdem Hok.
  destruct (SaveState_after _ _ _ _ _ _ _ _ _ Hc Hl Hok) as [Hc' Hl'].
  unfold run_result at 1. rewrite Load_ok by done. simpl. rewrite Hl', decide_True by done.
  eexists. split; [done|]. unfold after_save. destruct (_ && _); [done|].
  unfold merged_data. cbn [data_State data_Status]. rewrite bool_decide_true by done.
  destruct (data_State (stamp data now) !! k) as [nv|] eqn:En.
  - rewrite (mergedState_reported _ _ _ _ _ k nv) by done.
    assert (selectStrategy (merge_context ex (stamp data now) true now k nv) = preserveStateStrategy) as Hsel.
    { unfold selectStrategy. simpl. rewrite Hrep. destruct nv as [m|]; [|done].
      by rewrite (Hdem m En). }
    rewrite Hsel. split; [done|].
    unfold status_of at 1, mergedStatus. rewrite lookup_union, lookup_fmap.
    unfold reported_status, handleStaleResources. rewrite !map_lookup_imap, En. simpl.
    rewrite Hsel, (unreported_None _ _ _ _ En). simpl. by rewrite Hrep.
  - destruct (merged_unreported ex (stamp data now) true now maxStale k En) as [-> Hst].
    unfold status_of at 1. rewrite Hst, Hk. simpl. unfold stale_entry. by rewrite Hrep.
Qed.

(** ** Staleness *)

(** A save, as the merge sees it. *)
Record save := mkSave { sv_data : Data; sv_cycle : string; sv_now : time }.

Definition run_saves (maxStale : Z) (ex : Data) (saves : list save) : Data :=
  fold_left (fun ex s => merged_data (stamp (sv_data s) (sv_now s)) ex (sv_cycle s) (sv_now s) maxStale)
    saves ex.

Definition stale_of (d : Data) (k : string) : Z := StaleCount (status_of (data_Status d) k).

(** One save that does not report [k], after [k] was not reported or in another
    cycle: the count goes up, and the resource goes when it reaches the limit. *)
Lemma merged_data_unreported ex s maxStale k v :
  data_State ex !! k = Some v -> data_State (sv_data s) !! k = None ->
  (LastReportedAt (status_of (data_Status ex) k) = None \/ data_CycleID ex <> sv_cycle s) ->
  let d := merged_data (stamp (sv_data s) (sv_now s)) ex (sv_cycle s) (sv_now s) maxStale in
  if stale_of ex k + 1 <? maxStale
  then data_State d !! k = Some v /\ stale_of d k = stale_of ex k + 1 /\
       LastReportedAt (status_of (data_Status d) k) = None
  else data_State d !! k = None.
Proof.
  intros Hk Hn Hrep d. unfold d, merged_data, stale_of. cbn [data_State data_Status].
  destruct (merged_unreported ex (stamp (sv_data s) (sv_now s))
              (bool_decide (data_CycleID ex = sv_cycle s)) (sv_now s) maxStale k Hn) as [-> Hst].
  assert (stale_entry ex (bool_decide (data_CycleID ex = sv_cycle s)) maxStale k v =
    if maxStale <=? StaleCount (status_of (data_Status ex) k) + 1 then None
    else Some (v, mkResourceStatus (StaleCount (status_of (data_Status ex) k) + 1) None)) as Hentry.
  { unfold stale_entry. destruct Hrep as [->|Hne]; [done|].
    rewrite bool_decide_false by done. by destruct (LastReportedAt _). }
  set (n := StaleCount (status_of (data_Status ex) k)) in *.
  unfold status_of. rewrite Hst, Hk. simpl. rewrite Hentry.
  destruct (_ <? maxStale) eqn:E, (maxStale <=? _) eqn:E'; reflect; simpl; done || lia.
Qed.

Lemma merged_data_absent ex s maxStale k :
  data_State ex !! k = None -> data_State (sv_data s) !! k = None ->
  data_State (merged_data (stamp (sv_data s) (sv_now s)) ex (sv_cycle s) (sv_now s) maxStale) !! k = None.
Proof.
  intros Hk Hn. unfold merged_data. cbn [data_State].
  destruct (merged_unreported ex (stamp (sv_data s) (sv_now s))
              (bool_decide (data_CycleID ex = sv_cycle s)) (sv_now s) maxStale k Hn) as [-> _].
  by rewrite Hk.
Qed.

Lemma run_saves_absent maxStale ex saves k :
  Forall (fun s => data_State (sv_data s) !! k = None) saves ->
  data_State ex !! k = None -> data_State (run_saves maxStale ex saves) !! k = None.
Proof.
  intros H. revert ex. induction H as [|s saves Hs H IH]; intros ex Hk; [done|].
  apply IH. by apply merged_data_absent.
Qed.

Lemma run_saves_stale maxStale ex saves k v :
  Forall (fun s => data_State (sv_data s) !! k = None) saves ->
  data_State ex !! k = Some v -> LastReportedAt (status_of (data_Status ex) k) = None ->
  stale_of ex k < maxStale ->
  data_State (run_saves maxStale ex saves) !! k =
    if stale_of ex k + Z.of_nat (length saves) <? maxStale then Some v else None.
Proof.
  intros H. revert ex. induction H as [|s saves Hs H IH]; intros ex Hk Hl Hlt.
  - simpl. rewrite Z.add_0_r. by rewrite (proj2 (Z.ltb_lt _ _) Hlt).
  - pose proof (merged_data_unreported ex s maxStale k v Hk Hs (or_introl Hl)) as Hstep.
    cbn zeta in Hstep. change (run_saves maxStale ex (s :: saves)) with
      (run_saves maxStale (merged_data (stamp (sv_data s) (sv_now s)) ex (sv_cycle s) (sv_now s) maxStale) saves).
    destruct (stale_of ex k + 1 <? maxStale) eqn:E; reflect.
    + destruct Hstep as (Hk' & Hst & Hl'). rewrite (IH _ Hk' Hl') by lia. rewrite Hst.
      simpl length. by replace (stale_of ex k + Z.of_nat (S (length saves)))
        with (stale_of ex k + 1 + Z.of_nat (length saves)) by lia.
    + rewrite (proj2 (Z.ltb_ge _ _)) by (simpl length; lia). by apply run_saves_absent.
Qed.

(** A resource that is not reported any more survives fewer than
    [maxStaleCount] saves and is forgotten at the next one, counted from the
    first save of a later cycle.  Saves are counted, not cycles: the later ones
    may be restarts of one cycle. *)
Theorem stale_eviction maxStale ex s saves k v :
  data_State ex !! k = Some v -> stale_of ex k = 0 -> 1 < maxStale ->
  Forall (fun s => data_State (sv_data s) !! k = None) (s :: saves) ->
  data_CycleID ex <> sv_cycle s ->
  data_State (run_saves maxStale ex (s :: saves)) !! k =
    if Z.of_nat (length (s :: saves)) <? maxStale then Some v else None.
Proof.
  intros Hk H0 Hmax Hall Hne. apply Forall_cons in Hall as [Hs Hall].
  pose proof (merged_data_unreported ex s maxStale k v Hk Hs (or_intror Hne)) as Hstep.
  cbn zeta in Hstep. rewrite H0, Z.add_0_l, (proj2 (Z.ltb_lt _ _) Hmax) in Hstep.
  destruct Hstep as (Hk' & Hst & Hl').
  pose proof (run_saves_stale maxStale _ saves k v Hall Hk' Hl') as Hr.
  rewrite Hst in Hr. change (run_saves maxStale ex (s :: saves)) with
      (run_saves maxStale (merged_data (stamp (sv_data s) (sv_now s)) ex (sv_cycle s) (sv_now s) maxStale) saves).
  rewrite Hr by lia. simpl length.
  by replace (Z.of_nat (S (length saves))) with (1 + Z.of_nat (length saves)) by lia.
Qed.

(** ** The lock *)

Lemma is_restored_key_target t : t <> "" -> is_restored_key (restored_key t) = true.
Proof.
  intros Ht. unfold is_restored_key, restored_key. rewrite has_prefix_append, length_append.
  rewrite (proj2 (Nat.ltb_lt _ _)); [done|]. destruct t; [done|simpl; lia].
Qed.

Lemma MarkAll_ok c ns p ts cm :
  no_faults c -> cl_configmaps c !! (ns, configMapName p) = Some cm ->
  MarkAllTargetsRestored ns p ts c =
    (Ok (forallb (fun t => bool_decide (cm_Annotations cm !! restored_key t = Some "true")) ts), c).
Proof.
  intros Hc Hcm. unfold MarkAllTargetsRestored, st_bind. by rewrite getConfigMap_ok, Hcm.
Qed.

Lemma Mark_ok c ns p t cm :
  no_faults c -> cl_configmaps c !! (ns, configMapName p) = Some cm ->
  exists cm', MarkTargetRestored ns p t c = (Ok tt, with_configmap c ns p cm') /\
    cm_Annotations cm' = <[restored_key t := "true"]> (cm_Annotations cm).
Proof.
  intros Hc Hcm. unfold MarkTargetRestored, st_bind. rewrite getConfigMap_ok, Hcm by done.
  erewrite update_ok by done. by eexists.
Qed.

Lemma Mark_list_ok ns p ts c cm :
  no_faults c -> cl_configmaps c !! (ns, configMapName p) = Some cm ->
  exists c' cm', st_iter (MarkTargetRestored ns p) ts c = (Ok tt, c') /\ no_faults c' /\
    cl_configmaps c' !! (ns, configMapName p) = Some cm' /\
    forall k, cm_Annotations cm' !! k =
      if existsb (fun t => bool_decide (k = restored_key t)) ts
      then Some "true" else cm_Annotations cm !! k.
Proof.
  revert c cm. induction ts as [|t ts IH]; intros c cm Hc Hcm.
  - exists c, cm. by repeat split.
  - cbn [st_iter]. unfold st_bind.
    destruct (Mark_ok c ns p t cm Hc Hcm) as (cm1 & -> & Ha).
    destruct (IH (with_configmap c ns p cm1) cm1) as (c' & cm' & -> & Hc' & Hcm' & Hk); [by apply with_configmap_faults| |].
    { apply with_configmap_lookup. }
    exists c', cm'. repeat split; try done. intros k. rewrite Hk, Ha. cbn [existsb].
    destruct (decide (k = restored_key t)) as [->|Hne].
    + rewrite bool_decide_true, lookup_insert_eq by done. by destruct (existsb _ _).
    + rewrite bool_decide_false, lookup_insert_ne by done. done.
Qed.

Lemma unlock_value_cycle {HJL : JSONLaws} val d :
  unmarshal (unlock_value val) = Some d -> data_CycleID d = "".
Proof.
  unfold unlock_value. destruct (unmarshal val) as [d'|] eqn:E; [|congruence].
  destruct (bool_decide (data_CycleID d' <> "")) eqn:Eb; reflect.
  - rewrite unmarshal_marshal. by intros [= <-].
  - rewrite E. intros [= ->]. by destruct (decide (data_CycleID d = "")).
Qed.

(** The restore lock.  Once every target is marked restored the plan counts
    as restored; unlocking then clears every mark, so that no non-empty set of
    named targets counts as restored, and clears the cycle of every target, so
    that the next hibernation starts a new one. *)
Theorem restore_lock {HJL : JSONLaws} c ns p ts cm :
  no_faults c -> cl_configmaps c !! (ns, configMapName p) = Some cm ->
  let c1 := run_state (st_iter (MarkTargetRestored ns p) ts) c in
  let c2 := run_state (UnlockRestoreData ns p) c1 in
  run_result (MarkAllTargetsRestored ns p ts) c1 = Ok true /\
  (forall t ts', t <> "" -> run_result (MarkAllTargetsRestored ns p (t :: ts')) c2 = Ok false) /\
  (forall t d, run_result (Load ns p t) c2 = Ok (Some d) -> data_CycleID d = "").
Proof.
  intros Hc Hcm c1 c2.
  destruct (Mark_list_ok ns p ts c cm Hc Hcm) as (c' & cm' & Hrun & Hc' & Hcm' & Hk).
  assert (c1 = c') as -> by (unfold c1, run_state; by rewrite Hrun).
  assert (c2 = with_configmap c' ns p
            (set_cm_Annotations (filter (fun kv => is_restored_key kv.1 = false) (cm_Annotations cm'))
               (set_cm_Data (unlock_value <$> cm_Data cm') cm'))) as Hc2.
  { unfold c2, run_state, UnlockRestoreData, st_bind. rewrite getConfigMap_ok, Hcm' by done.
    by erewrite update_ok. }
  assert (no_faults c2) as Hf by (rewrite Hc2; by apply with_configmap_faults).
  assert (cl_configmaps c2 !! (ns, configMapName p) =
            Some (set_cm_Annotations (filter (fun kv => is_restored_key kv.1 = false) (cm_Annotations cm'))
               (set_cm_Data (unlock_value <$> cm_Data cm') cm'))) as Hcm2.
  { rewrite Hc2. apply with_configmap_lookup. }
  unfold run_result. split; [|split].
  - rewrite (MarkAll_ok c' ns p ts cm') by done. simpl. f_equal. apply forallb_spec.
    intros t Ht. apply bool_decide_eq_true. rewrite Hk.
    rewrite (proj2 (existsb_spec _ _)); [done|]. exists t. split; [done|]. by apply bool_decide_eq_true.
  - intros t ts' Ht. rewrite (MarkAll_ok c2 ns p _ _ Hf Hcm2). simpl.
    rewrite bool_decide_false; [done|]. simpl. rewrite map_lookup_filter.
    destruct (cm_Annotations cm' !! restored_key t); simpl; [|done].
    rewrite option_guard_False; [done|]. simpl. by rewrite is_restored_key_target.
  - intros t d. rewrite Load_ok by done. simpl. unfold loaded. rewrite Hcm2. simpl.
    rewrite lookup_fmap. destruct (cm_Data cm' !! data_key t) as [val|]; simpl; [|done].
    destruct (unmarshal (unlock_value val)) as [d'|] eqn:E; [|done].
    intros [= <-]. by apply unlock_value_cycle in E.
Qed.

(** With readable entries, [HasRestoreData] holds as soon as the ConfigMap has
    an entry, live or not, in whatever order the entries are visited. *)
Theorem HasRestoreData_nonempty order c ns p cm :
  no_faults c -> cl_configmaps c !! (ns, configMapName p) = Some cm ->
  (forall l, order l ≡ₚ l) ->
  map_Forall (fun _ val => is_Some (unmarshal val)) (cm_Data cm) ->
  run_result (HasRestoreData order ns p) c = Ok (bool_decide (cm_Data cm <> ∅)).
Proof.
  intros Hc Hcm Hord Hval. unfold run_result, HasRestoreData, st_bind.
  rewrite getConfigMap_ok, Hcm by done. simpl. f_equal.
  assert (forall l, Forall (fun val => is_Some (unmarshal val)) l ->
            has_restore_loop l = None \/ (has_restore_loop l = Some true /\ l <> [])) as Hloop.
  { induction 1 as [|val l [d Hd] H IH]; [by left|]. simpl. rewrite Hd.
    destruct (data_IsLive d); [by right|]. destruct IH as [IH|[IH _]]; [by left|by right]. }
  destruct (Hloop (map snd (order (map_to_list (cm_Data cm))))) as [->|[-> Hne]]; [|done|].
  - apply Forall_fmap, Forall_forall. intros [k val] Hin. rewrite Hord in Hin.
    apply elem_of_map_to_list in Hin. by apply (Hval k val).
  - simpl. symmetry. apply bool_decide_eq_true. intros He. apply Hne.
    rewrite He, map_to_list_empty. destruct (order []) eqn:Eo; [done|].
    specialize (Hord []). rewrite Eo in Hord. by apply Permutation_nil_r in Hord.
Qed.
End spec.

(** ** A codec, and the restore claims at concrete values

    [JSON] has an instance that satisfies its law: a value is numbered and the
    number written in binary. *)

Fixpoint bits (p : positive) : string :=
  match p with
  | xH => EmptyString
  | xO p' => String "0" (bits p')
  | xI p' => String "1" (bits p')
  end.

Fixpoint unbits (s : string) : positive :=
  match s with
  | EmptyString => xH
  | String "0" s' => xO (unbits s')
  | String _ s' => xI (unbits s')
  end.

Lemma unbits_bits p : unbits (bits p) = p.
Proof. induction p as [p IH|p IH|]; simpl; congruence. Qed.

#[export] Instance scalar_eq_dec : EqDecision scalar.
Proof. solve_decision. Defined.
#[export] Instance scalar_countable : Countable scalar :=
  inj_countable' (fun x => match x with SBool b => inl b | SOther s => inr s end)
    (fun y => match y with inl b => SBool b | inr s => SOther s end)
    ltac:(by intros []).
#[export] Instance any_eq_dec : EqDecision any.
Proof. solve_decision. Defined.
#[export] Instance any_countable : Countable any :=
  inj_countable' (fun x => match x with AnyMap m => inl m | AnyOther s => inr s end)
    (fun y => match y with inl m => AnyMap m | inr s => AnyOther s end)
    ltac:(by intros []).
#[export] Instance Location_eq_dec : EqDecision Location.
Proof. solve_decision. Defined.
#[export] Instance Location_countable : Countable Location :=
  inj_countable' (fun l => (loc_first l, loc_trans l)) (fun p => mkLocation p.1 p.2)
    ltac:(by intros []).
#[export] Instance time_eq_dec : EqDecision time.
Proof. solve_decision. Defined.
#[export] Instance time_countable : Countable time :=
  inj_countable' (fun t => (unix_ns t, zone t)) (fun p => mkTime p.1 p.2) ltac:(by intros []).
#[export] Instance ResourceStatus_eq_dec : EqDecision ResourceStatus.
Proof. solve_decision. Defined.
#[export] Instance ResourceStatus_countable : Countable ResourceStatus :=
  inj_countable' (fun r => (StaleCount r, LastReportedAt r))
    (fun p => mkResourceStatus p.1 p.2) ltac:(by intros []).
#[export] Instance Data_eq_dec : EqDecision Data.
Proof. solve_decision. Defined.
#[export] Instance Data_countable : Countable Data :=
  inj_countable'
    (fun d => (data_Target d, data_Executor d, data_Version d, data_IsLive d, data_CycleID d,
               data_CreatedAt d, data_CapturedAt d, data_State d, data_Status d))
    (fun p => let '(a, b, c, d, e, f, g, h, i) := p in mkData a b c d e f g h i)
    ltac:(by intros []).

#[export] Instance sampleJSON : JSON := {|
  marshal d := bits (encode d);
  unmarshal s := decode (unbits s);
  unmarshal_dest _ := mkData "" "" 0 false "" zero_time None ∅ ∅;
  marshal_map _ := "{}";
|}.

#[export] Instance sampleJSON_laws : JSONLaws.
Proof. constructor. intros d. simpl. by rewrite unbits_bits, decode_encode. Qed.

Module RestoreSamples.
Definition t0 : time := mkTime 1704283200000000000 UTC.
Definition running : any := AnyMap {[ "wasRunning" := SBool true ]}.
Definition stopped : any := AnyMap {[ "wasRunning" := SBool false ]}.
Definition report (v : any) : Data :=
  mkData "db" "rds" 1 true "" t0 None {[ "instance:i-1" := v ]} ∅.
Definition empty_report : Data := mkData "db" "rds" 1 true "" t0 None ∅ ∅.
Definition empty_cluster : Cluster := mkMemory None ∅ [] [] [] [].
(** The first run of cycle c1 reports a running instance. *)
Definition first_run : Cluster :=
  run_state (SaveState "ns" "p" "db" (report running) 3 "c1" t0) empty_cluster.
Definition first_data : Data := after_save None (report running) 3 "c1" t0.
End RestoreSamples.
Import RestoreSamples.

Lemma first_run_loaded : loaded first_run "ns" "p" "db" = Ok (Some first_data).
Proof. vm_compute. reflexivity. Qed.

Lemma first_run_faults : no_faults first_run.
Proof. vm_compute. reflexivity. Qed.

Lemma SaveState_roundtrip_witness :
  run_result (Load "ns" "p" "db") first_run = Ok (Some first_data).
Proof.
  refine (proj1 (SaveState_roundtrip empty_cluster "ns" "p" "db" None (report running) 3 "c1" t0 _ _ _)).
  - vm_compute. reflexivity.
  - vm_compute. reflexivity.
  - vm_compute. reflexivity.
Defined.

(** The restart of c1 finds the instance already stopped; the state captured
    first stays. *)
Lemma SaveState_preserves_witness :
  exists d,
    run_result (Load "ns" "p" "db")
      (run_state (SaveState "ns" "p" "db" (report stopped) 3 "c1" t0) first_run) = Ok (Some d) /\
    data_State d !! "instance:i-1" = Some running /\
    LastReportedAt (status_of (data_Status d) "instance:i-1") = Some t0.
Proof.
  apply (SaveState_preserves first_run "ns" "p" "db" first_data (report stopped) 3 "c1" t0
           "instance:i-1" running t0).
  - exact first_run_faults.
  - exact first_run_loaded.
  - vm_compute. reflexivity.
  - vm_compute. reflexivity.
  - vm_compute. reflexivity.
  - intros m H. vm_compute in H. injection H as <-. vm_compute. reflexivity.
  - vm_compute. reflexivity.
Defined.

(** With a limit of 3, two saves that do not report the instance keep it, the
    third forgets it, although all three belong to one cycle. *)
Lemma stale_eviction_witness :
  let s := mkSave empty_report "c2" t0 in
  data_State (run_saves 3 first_data [s; s]) !! "instance:i-1" = Some running /\
  data_State (run_saves 3 first_data [s; s; s]) !! "instance:i-1" = None.
Proof.
  intros s.
  assert (data_State first_data !! "instance:i-1" = Some running) as Hk by (vm_compute; reflexivity).
  assert (stale_of first_data "instance:i-1" = 0) as H0 by (vm_compute; reflexivity).
  split.
  - rewrite (stale_eviction 3 first_data s [s] "instance:i-1" running);
      [reflexivity|exact Hk|exact H0|lia|repeat constructor|vm_compute; discriminate].
  - rewrite (stale_eviction 3 first_data s [s; s] "instance:i-1" running);
      [reflexivity|exact Hk|exact H0|lia|repeat constructor|vm_compute; discriminate].
Defined.

Lemma restore_lock_witness :
  let c1 := run_state (st_iter (MarkTargetRestored "ns" "p") ["db"]) first_run in
  let c2 := run_state (UnlockRestoreData "ns" "p") c1 in
  run_result (MarkAllTargetsRestored "ns" "p" ["db"]) c1 = Ok true /\
  run_result (MarkAllTargetsRestored "ns" "p" ["db"]) c2 = Ok false.
Proof.
  intros c1 c2.
  destruct (cl_configmaps first_run !! ("ns", configMapName "p")) as [cm|] eqn:Hcm;
    [|vm_compute in Hcm; discriminate].
  destruct (restore_lock first_run "ns" "p" ["db"] cm first_run_faults Hcm) as (H1 & H2 & _).
  split; [exact H1|]. apply (H2 "db" []). discriminate.
Defined.

Lemma HasRestoreData_nonempty_witness :
  run_result (HasRestoreData (fun l => l) "ns" "p")
    (run_state (MarkTargetRestored "ns" "p" "db") first_run) = Ok true.
Proof.
  destruct (cl_configmaps (run_state (MarkTargetRestored "ns" "p" "db") first_run)
              !! ("ns", configMapName "p")) as [cm|] eqn:Hcm; [|vm_compute in Hcm; discriminate].
  rewrite (HasRestoreData_nonempty (fun l => l) _ "ns" "p" cm);
    vm_compute in Hcm; injection Hcm as <-.
  - vm_compute. reflexivity.
  - vm_compute. reflexivity.
  - vm_compute. reflexivity.
  - intros l. reflexivity.
  - refine (bool_decide_unpack _ _). vm_compute. exact I.
Defined.
