(* ===== verification/World.v ===== *)
(** * The world of a plan handler

    A handler ([internal/provider/processor/plan/state]) runs on the plan object
    that the worker caches, and mutates it in place; it reads the rest of the
    [PlanContext] and the clock, makes requests to the API server, and sends
    status updates.  [Send] ([status/updater.go]) applies the mutator of an
    update to the object at once and queues the update for the status writer,
    which applies it again to a fresh copy. *)
From S2P Require Import Prelude Monad GoString GoTime Types Cluster Restore.

Local Open Scope Z_scope.

(** ** Well-known names ([internal/wellknown]) *)

Definition AnnotationSuspendedAtPhase : string := "hibernator.ardikabs.com/suspended-at-phase".
Definition AnnotationRetryNow : string := "hibernator.ardikabs.com/retry-now".
Definition AnnotationRetryAt : string := "hibernator.ardikabs.com/retry-at".
Definition AnnotationSuspendUntil : string := "hibernator.ardikabs.com/suspend-until".
Definition AnnotationSuspendReason : string := "hibernator.ardikabs.com/suspend-reason".
Definition AnnotationOverrideAction : string := "hibernator.ardikabs.com/override-action".
Definition AnnotationOverridePhaseTarget : string := "hibernator.ardikabs.com/override-phase-target".
Definition AnnotationOverrideUntil : string := "hibernator.ardikabs.com/override-until".
Definition AnnotationRestart : string := "hibernator.ardikabs.com/restart".
Definition AnnotationFresh : string := "hibernator.ardikabs.com/fresh".
Definition OverridePhaseTargetHibernate : string := "hibernate".
Definition OverridePhaseTargetWakeup : string := "wakeup".
Definition PlanFinalizerName : string := "hibernator.ardikabs.com/finalizer".
Definition ExecutionIDLogPrefix : string := "execution-id://".
Definition MaxCycleHistorySize : nat := 5.
Definition RequeueIntervalDuringStage : Z := 10 * Second.
Definition RequeueIntervalOnExecution : Z := 10 * Second.
Definition RequeueIntervalOnRecoveryError : Z := 1 * Minute.
Definition RequeueIntervalOnTransientError : Z := 30 * Second.
Definition TimeoutTransitionToSuspended : Z := 30 * Minute.
Definition LabelTarget : string := "hibernator.ardikabs.com/target".
Definition LabelExecutor : string := "hibernator.ardikabs.com/executor".
Definition LabelExecutionID : string := "hibernator.ardikabs.com/execution-id".
Definition LabelOperation : string := "hibernator.ardikabs.com/operation".
Definition LabelCycleID : string := "hibernator.ardikabs.com/cycle-id".
Definition LabelStaleRunnerJob : string := "hibernator.ardikabs.com/stale".
Definition LabelStaleReasonRunnerJob : string := "hibernator.ardikabs.com/stale-reason".

(** ** Results, errors, updates *)

(** [StateResult]: the timer directives of a handler. *)
Record StateResult := mkStateResult {
  Requeue : bool;
  RequeueAfter : Z;
  TimeoutAfter : Z;
  DeadlineAfter : Z;
}.

Definition quiet : StateResult := mkStateResult false 0 0 0.
Definition requeue : StateResult := mkStateResult true 0 0 0.
Definition requeue_after (d : Z) : StateResult := mkStateResult false d 0 0.

(** An [error]: its text, and whether a [PlanError] is in its chain. *)
Record goerr := mkGoErr { ge_text : string; ge_plan : bool }.

Definition AsPlanError (e : goerr) : goerr := mkGoErr (ge_text e) true.
(** [fmt.Errorf(prefix + ": %w", err)]. *)
Definition wrapf (prefix : string) (e : goerr) : goerr :=
  mkGoErr (prefix ++ ": " ++ ge_text e)%string (ge_plan e).
Definition plainf (msg : string) : goerr := mkGoErr msg false.
Definition of_api (e : ApiError) : goerr := plainf (api_text e).

(** What the hooks of an update notify of. *)
Inductive PlanEvent :=
| EventStart
| EventSuccess
| EventFailure
| EventRecovery (phase : PlanPhase) (operation : PlanOperation)
| EventPhaseChange (previousPhase : PlanPhase)
| EventExecutionProgress.

(** A mutator reads the clock when it is applied; [None] is a panic. *)
Definition Mutator : Type := time -> HibernatePlan -> option HibernatePlan.

(** [statusprocessor.Update], for the one plan. *)
Record Update := mkUpdate {
  upd_PreHook : list PlanEvent;
  upd_Mutator : Mutator;
  upd_PostHook : list PlanEvent;
}.

Section world.
Context {HK : KubeApi}.

(** What a handler can read and change.  [w_plan] is the worker's cached plan;
    [w_effective] the deep copy that stage execution works on, [None] when it works
    on the cached plan itself; [w_schedule] the [ShouldHibernate] of the schedule
    result; [w_notify] says that there is a notifier and a notification; [w_misses]
    are the worker's counters of missing jobs; [w_stale_tasks] the goroutines that
    will label a finished Job, by namespace and name; [w_uuids] what [uuid.New]
    returns; [w_dropped] that the plan was removed from the resource map. *)
Record World := mkWorld {
  w_cluster : Cluster;
  w_now : time;
  w_plan : HibernatePlan;
  w_effective : option HibernatePlan;
  w_schedule : option bool;
  w_exceptions : list ScheduleException;
  w_hasRestoreData : bool;
  w_notify : bool;
  w_queue : list Update;
  w_misses : gmap string Z;
  w_stale_tasks : list (string * string);
  w_uuids : list string;
  w_dropped : bool;
}.

Definition set_w_cluster (v : Cluster) (r : World) : World :=
  mkWorld v (w_now r) (w_plan r) (w_effective r) (w_schedule r) (w_exceptions r) (w_hasRestoreData r) (w_notify r) (w_queue r) (w_misses r) (w_stale_tasks r) (w_uuids r) (w_dropped r).
Definition set_w_now (v : time) (r : World) : World :=
  mkWorld (w_cluster r) v (w_plan r) (w_effective r) (w_schedule r) (w_exceptions r) (w_hasRestoreData r) (w_notify r) (w_queue r) (w_misses r) (w_stale_tasks r) (w_uuids r) (w_dropped r).
Definition set_w_plan (v : HibernatePlan) (r : World) : World :=
  mkWorld (w_cluster r) (w_now r) v (w_effective r) (w_schedule r) (w_exceptions r) (w_hasRestoreData r) (w_notify r) (w_queue r) (w_misses r) (w_stale_tasks r) (w_uuids r) (w_dropped r).
Definition set_w_effective (v : option HibernatePlan) (r : World) : World :=
  mkWorld (w_cluster r) (w_now r) (w_plan r) v (w_schedule r) (w_exceptions r) (w_hasRestoreData r) (w_notify r) (w_queue r) (w_misses r) (w_stale_tasks r) (w_uuids r) (w_dropped r).
Definition set_w_schedule (v : option bool) (r : World) : World :=
  mkWorld (w_cluster r) (w_now r) (w_plan r) (w_effective r) v (w_exceptions r) (w_hasRestoreData r) (w_notify r) (w_queue r) (w_misses r) (w_stale_tasks r) (w_uuids r) (w_dropped r).
Definition set_w_exceptions (v : list ScheduleException) (r : World) : World :=
  mkWorld (w_cluster r) (w_now r) (w_plan r) (w_effective r) (w_schedule r) v (w_hasRestoreData r) (w_notify r) (w_queue r) (w_misses r) (w_stale_tasks r) (w_uuids r) (w_dropped r).
Definition set_w_hasRestoreData (v : bool) (r : World) : World :=
  mkWorld (w_cluster r) (w_now r) (w_plan r) (w_effective r) (w_schedule r) (w_exceptions r) v (w_notify r) (w_queue r) (w_misses r) (w_stale_tasks r) (w_uuids r) (w_dropped r).
Definition set_w_notify (v : bool) (r : World) : World :=
  mkWorld (w_cluster r) (w_now r) (w_plan r) (w_effective r) (w_schedule r) (w_exceptions r) (w_hasRestoreData r) v (w_queue r) (w_misses r) (w_stale_tasks r) (w_uuids r) (w_dropped r).
Definition set_w_queue (v : list Update) (r : World) : World :=
  mkWorld (w_cluster r) (w_now r) (w_plan r) (w_effective r) (w_schedule r) (w_exceptions r) (w_hasRestoreData r) (w_notify r) v (w_misses r) (w_stale_tasks r) (w_uuids r) (w_dropped r).
Definition set_w_misses (v : gmap string Z) (r : World) : World :=
  mkWorld (w_cluster r) (w_now r) (w_plan r) (w_effective r) (w_schedule r) (w_exceptions r) (w_hasRestoreData r) (w_notify r) (w_queue r) v (w_stale_tasks r) (w_uuids r) (w_dropped r).
Definition set_w_stale_tasks (v : list (string * string)) (r : World) : World :=
  mkWorld (w_cluster r) (w_now r) (w_plan r) (w_effective r) (w_schedule r) (w_exceptions r) (w_hasRestoreData r) (w_notify r) (w_queue r) (w_misses r) v (w_uuids r) (w_dropped r).
Definition set_w_uuids (v : list string) (r : World) : World :=
  mkWorld (w_cluster r) (w_now r) (w_plan r) (w_effective r) (w_schedule r) (w_exceptions r) (w_hasRestoreData r) (w_notify r) (w_queue r) (w_misses r) (w_stale_tasks r) v (w_dropped r).
Definition set_w_dropped (v : bool) (r : World) : World :=
  mkWorld (w_cluster r) (w_now r) (w_plan r) (w_effective r) (w_schedule r) (w_exceptions r) (w_hasRestoreData r) (w_notify r) (w_queue r) (w_misses r) (w_stale_tasks r) (w_uuids r) v.

Definition HM (A : Type) : Type := ST World goerr A.

(** A request to the API server; its error is returned. *)
Definition api {A} (m : API A) : ST World ApiError A := st_lift w_cluster set_w_cluster m.

Definition get_plan {E} : ST World E HibernatePlan := st_gets w_plan.
Definition get_now {E} : ST World E time := st_gets w_now.

(** [notifyHook] and [phaseChangePostHook] return nil without a notification. *)
Definition hook {E} (evs : list PlanEvent) : ST World E (list PlanEvent) :=
  st_gets (fun w => if w_notify w then evs else []).

Definition enqueue {E} (u : Update) : ST World E unit :=
  st_modify (fun w => set_w_queue (w_queue w ++ [u]) w).

(** [Statuses.PlanStatuses.Send] with the cached plan as the resource. *)
Definition Send {E} (pre : list PlanEvent) (m : Mutator) (post : list PlanEvent) : ST World E unit :=
  let! w := st_get in
  match m (w_now w) (w_plan w) with
  | None => st_panic
  | Some p =>
      do! st_modify (set_w_plan p) in
      let! pre := hook pre in
      let! post := hook post in
      enqueue (mkUpdate pre m post)
  end.

(** A mutator that assigns status fields. *)
Definition assign (f : time -> HibernatePlanStatus -> HibernatePlanStatus) : Mutator :=
  fun now p => Some (on_status (f now) p).

(** The plan that stage execution works on, and its mutation in place. *)
Definition get_effective {E} : ST World E HibernatePlan :=
  st_gets (fun w => default (w_plan w) (w_effective w)).

Definition modify_effective {E} (f : HibernatePlan -> HibernatePlan) : ST World E unit :=
  st_modify (fun w =>
    match w_effective w with
    | Some p => set_w_effective (Some (f p)) w
    | None => set_w_plan (f (w_plan w)) w
    end).

(** [Send] with the effective plan as the resource. *)
Definition Send_effective {E} (m : Mutator) (post : list PlanEvent) : ST World E unit :=
  let! now := get_now in
  let! p := get_effective in
  match m now p with
  | None => st_panic
  | Some p' =>
      do! modify_effective (fun _ => p') in
      let! post := hook post in
      enqueue (mkUpdate [] m post)
  end.

(** [orig := plan.DeepCopy(); f(plan); patchAndPreserveStatus(plan, MergeFrom(orig))]:
    the cached plan is changed first, and stays changed when the request fails;
    after a success it is the server's, with the cached status. *)
Definition patchAndPreserveStatus (f : HibernatePlan -> HibernatePlan) : ST World ApiError unit :=
  let! orig := get_plan in
  let plan := f orig in
  do! st_modify (set_w_plan plan) in
  let! server := api (patch_plan orig plan) in
  st_modify (set_w_plan (set_plan_Status (plan_Status plan) server)).

(** The same with a plain [Patch], which leaves the server's status. *)
Definition patch_object (f : HibernatePlan -> HibernatePlan) : ST World ApiError unit :=
  let! orig := get_plan in
  let plan := f orig in
  do! st_modify (set_w_plan plan) in
  let! server := api (patch_plan orig plan) in
  st_modify (set_w_plan server).

(** An error of a request, returned by the handler. *)
Definition returning {A} (m : ST World ApiError A) : HM A := st_wrap of_api m.
End world.

(** ** Annotations *)

Definition annotation (k : string) (p : HibernatePlan) : string := default "" (plan_Annotations p !! k).
Definition has_annotation (k : string) (p : HibernatePlan) : bool := bool_decide (is_Some (plan_Annotations p !! k)).
Definition del_annotation (k : string) (p : HibernatePlan) : HibernatePlan :=
  set_plan_Annotations (delete k (plan_Annotations p)) p.
Definition put_annotation (k v : string) (p : HibernatePlan) : HibernatePlan :=
  set_plan_Annotations (<[k := v]> (plan_Annotations p)) p.
Definition set_suspend (b : bool) (p : HibernatePlan) : HibernatePlan :=
  set_plan_Spec (set_spec_Suspend b (plan_Spec p)) p.
