(* ===== verification/ExecutionUtils.v ===== *)
(** * Helpers of stage execution ([plan/state/utils.go])

    Pure functions of a plan, its execution statuses and the runner Jobs. *)
From S2P Require Import Prelude Monad GoString GoTime Types Planner Cluster World.
From Stdlib Require Import Lia.

Local Open Scope Z_scope.

Record StageStatus := mkStageStatus {
  AllTerminal : bool;
  HasRunning : bool;
  HasPending : bool;
  FailedCount : Z;
  CompletedCount : Z;
}.

(** What one target contributes to the status of its stage. *)
Definition target_status (execs : list ExecutionStatus) (targetName : string) : StageStatus :=
  match find_first (fun e => (exec_Target e =? targetName)%string) execs with
  | None => mkStageStatus false false true 0 0
  | Some e =>
      match exec_State e with
      | StateCompleted => mkStageStatus true false false 0 1
      | StateFailed | StateAborted => mkStageStatus true false false 1 0
      | StateRunning => mkStageStatus false true false 0 0
      | StatePending => mkStageStatus false false true 0 0
      | StateOther _ => mkStageStatus false false false 0 0
      end
  end.

Definition count (b : bool) : Z := if b then 1 else 0.

Definition GetStageStatus (plan : HibernatePlan) (stage : ExecutionStage) : StageStatus :=
  let l := map (target_status (st_Executions (plan_Status plan))) (es_Targets stage) in
  let sum f := foldr (fun s acc => f s + acc) 0 l in
  mkStageStatus
    (sum (fun s => count (AllTerminal s)) =? Z.of_nat (length (es_Targets stage)))
    (existsb HasRunning l) (existsb HasPending l) (sum FailedCount) (sum CompletedCount).

Definition FindTarget (plan : HibernatePlan) (name : string) : option Target :=
  find_first (fun t => (tgt_Name t =? name)%string) (spec_Targets (plan_Spec plan)).

Definition FindTargetType (plan : HibernatePlan) (name : string) : string :=
  match FindTarget plan name with Some t => tgt_Type t | None => "" end.

Definition job_label (k : string) (j : Job) : string := default "" (job_Labels j !! k).

Definition is_stale (j : Job) : bool := bool_decide (is_Some (job_Labels j !! LabelStaleRunnerJob)).

Definition isJobTerminal (j : Job) : bool :=
  existsb (fun c => cond_True c && (bool_decide (cond_Type c = JobComplete)
                                    || bool_decide (cond_Type c = JobFailed))) (job_Conditions j).

Definition CountRunningJobsInStage (jobs : list Job) (stage : ExecutionStage) : Z :=
  Z.of_nat (length (filter (fun j =>
    is_stale j = false /\ isJobTerminal j = false /\ job_label LabelTarget j ∈ es_Targets stage) jobs)).

Definition FindExecutionStatus (plan : HibernatePlan) (targetType targetName : string)
  : option ExecutionStatus :=
  find_first (fun e => (exec_Target e =? targetName)%string && (exec_Executor e =? targetType)%string)
    (st_Executions (plan_Status plan)).

Definition failed_or_aborted (s : ExecutionState) : bool :=
  match s with StateFailed | StateAborted => true | _ => false end.

Definition FindFailedUpstream (plan : HibernatePlan) (targetName : string) : list string :=
  let failed name :=
    match FindExecutionStatus plan (FindTargetType plan name) name with
    | Some e => failed_or_aborted (exec_State e)
    | None => false
    end in
  map dep_From
    (filter (fun d => dep_To d = targetName /\ failed (dep_From d) = true)
       (strat_Dependencies (spec_Execution (plan_Spec plan)))).

(** The loop body of [BuildOperationSummary]. *)
Definition summary_step (summary : ExecutionOperationSummary) (exec : ExecutionStatus)
  : ExecutionOperationSummary :=
  let s1 := if failed_or_aborted (exec_State exec) then set_sum_Success false summary else summary in
  let s2 :=
    match exec_StartedAt exec with
    | Some t =>
        if IsZero (sum_StartTime s1) || Before t (sum_StartTime s1)
        then set_sum_StartTime t s1 else s1
    | None => s1
    end in
  let s3 :=
    match exec_FinishedAt exec with
    | Some t =>
        let unset := match sum_EndTime s2 with None => true | Some u => IsZero u end in
        if unset || After t (default zero_time (sum_EndTime s2))
        then set_sum_EndTime (Some t) s2 else s2
    | None => s2
    end in
  set_sum_TargetResults
    (sum_TargetResults s3 ++
     [mkTargetResult (exec_Target exec) (exec_State exec) (exec_Attempts exec)
        (TrimPrefix (exec_LogsRef exec) ExecutionIDLogPrefix)
        (exec_StartedAt exec) (exec_FinishedAt exec) (exec_Message exec)]) s3.

Definition BuildOperationSummary (plan : HibernatePlan) (operation : PlanOperation)
  : ExecutionOperationSummary :=
  fold_left summary_step (st_Executions (plan_Status plan))
    (mkSummary operation zero_time None [] true (st_ErrorMessage (plan_Status plan))).

Definition IsOperationComplete (plan : HibernatePlan) : bool :=
  forallb (fun e => terminal_state (exec_State e)) (st_Executions (plan_Status plan)).

Definition hasExecutionProgress (plan : HibernatePlan) : bool :=
  existsb (fun e => negb (bool_decide (exec_State e = StatePending))) (st_Executions (plan_Status plan)).

Definition JobExistsForTarget (jobs : list Job) (targetName : string) (operation : PlanOperation)
  (cycleID : string) : bool :=
  existsb (fun j =>
    negb (is_stale j) && (job_label LabelTarget j =? targetName)%string
    && (job_label LabelOperation j =? operation_string operation)%string
    && (job_label LabelCycleID j =? cycleID)%string) jobs.

Definition FilterJobsForStage (jobs : list Job) (stage : ExecutionStage) : list Job :=
  filter (fun j => job_label LabelTarget j ∈ es_Targets stage) jobs.

(** ** Cycle history *)

(** [findOrAppendCycle] followed by an assignment to the cycle it returns. *)
Fixpoint update_cycle (cycleID : string) (f : ExecutionCycle -> ExecutionCycle)
  (history : list ExecutionCycle) : list ExecutionCycle :=
  match history with
  | [] => [f (mkCycle cycleID None None)]
  | c :: history' =>
      if (cyc_CycleID c =? cycleID)%string then f c :: history'
      else c :: update_cycle cycleID f history'
  end.

Definition pruneCycleHistory (history : list ExecutionCycle) : list ExecutionCycle :=
  if (MaxCycleHistorySize <? length history)%nat
  then drop (length history - MaxCycleHistorySize) history else history.

(** ** Snapshots of the execution statuses *)

Record executionSnapshot := mkExecutionSnapshot {
  xs_State : ExecutionState;
  xs_Attempts : Z;
  xs_Message : string;
  xs_JobRef : string;
  xs_LogsRef : string;
}.
#[export] Instance executionSnapshot_eq_dec : EqDecision executionSnapshot.
Proof. solve_decision. Defined.

Definition snapshot_of (e : ExecutionStatus) : executionSnapshot :=
  mkExecutionSnapshot (exec_State e) (exec_Attempts e) (exec_Message e) (exec_JobRef e) (exec_LogsRef e).

Definition snapshotExecutionStates (execs : list ExecutionStatus) : gmap string executionSnapshot :=
  fold_left (fun m e => <[exec_Target e := snapshot_of e]> m) execs ∅.

Definition executionStatesEqual (prev : gmap string executionSnapshot) (current : list ExecutionStatus) : bool :=
  (size prev =? length current)%nat &&
  forallb (fun e => bool_decide (prev !! exec_Target e = Some (snapshot_of e))) current.

Definition ReverseIf {A} (condition : bool) (l : list A) : list A :=
  if condition then rev l else l.

(** ** Lemmas *)

Lemma length_update_cycle id f h :
  (length h <= length (update_cycle id f h) <= S (length h))%nat.
Proof. induction h as [|c h IH]; simpl; [lia|]. destruct (_ =? _)%string; simpl; lia. Qed.

Lemma update_cycle_In id f h :
  exists c, f c ∈ update_cycle id f h /\ cyc_CycleID c = id.
Proof.
  induction h as [|c h IH]; simpl.
  - exists (mkCycle id None None). split; [by left|done].
  - destruct (cyc_CycleID c =? id)%string eqn:E; reflect.
    + exists c. split; [by left|done].
    + destruct IH as (c' & Hin & Hc). exists c'. split; [by right|done].
Qed.

Lemma length_pruneCycleHistory h : (length (pruneCycleHistory h) <= 5)%nat.
Proof.
  unfold pruneCycleHistory, MaxCycleHistorySize. destruct (Nat.ltb_spec 5 (length h)); [|lia].
  rewrite length_drop. lia.
Qed.

(** A stage is terminal exactly when each of its targets is. *)
Definition target_terminal (plan : HibernatePlan) (t : string) : bool :=
  match find_first (fun e => (exec_Target e =? t)%string) (st_Executions (plan_Status plan)) with
  | Some e => terminal_state (exec_State e)
  | None => false
  end.

Lemma target_status_terminal plan t :
  AllTerminal (target_status (st_Executions (plan_Status plan)) t) = target_terminal plan t.
Proof. unfold target_status, target_terminal. destruct (find_first _ _); [|done]. by destruct (exec_State _). Qed.

Lemma sum_count_length {A} (f : A -> bool) l :
  0 <= foldr (fun s acc => count (f s) + acc) 0 l <= Z.of_nat (length l) /\
  (foldr (fun s acc => count (f s) + acc) 0 l = Z.of_nat (length l) <-> forallb f l = true).
Proof.
  induction l as [|x l [IH1 IH2]]; [simpl; split; [lia|done]|].
  cbn [length foldr forallb]. destruct (f x); cbn [count andb]; (split; [lia|]).
  - split; intros Hs; [apply IH2; lia|apply IH2 in Hs; lia].
  - split; [lia|done].
Qed.

Lemma GetStageStatus_terminal plan stage :
  AllTerminal (GetStageStatus plan stage) = forallb (target_terminal plan) (es_Targets stage).
Proof.
  unfold GetStageStatus. cbn [AllTerminal]. apply eq_true_iff_eq. rewrite Z.eqb_eq.
  rewrite <- (length_map (target_status (st_Executions (plan_Status plan))) (es_Targets stage)).
  rewrite (proj2 (sum_count_length AllTerminal _)), !forallb_spec.
  split.
  - intros H t Ht. rewrite <- target_status_terminal. apply H. rewrite list_elem_of_fmap. by exists t.
  - intros H s Hs. apply list_elem_of_fmap in Hs as (t & -> & Ht). rewrite target_status_terminal. auto.
Qed.
