(* ===== verification/Execution.v ===== *)
(** * Stage execution ([plan/state/state.go], [state_execution.go])

    The parts that every handler shares: the effective plan of a cycle, error
    handling, the observation of runner Jobs and the dispatch of the targets of
    a stage. *)
From S2P Require Import Prelude Monad GoString GoTime Types Planner Cluster Restore World.
From S2P Require Import ExecutionUtils.
From Stdlib Require Import Lia.

Local Open Scope Z_scope.

(** [executorparams.ValidateParams]: the errors in the parameters of a target of
    a type. *)
Class Validator := { ValidateParams : string -> string -> list string }.

(** ** The effective plan ([state.go]) *)

(** An exception that may override the execution of a cycle that starts now. *)
Definition override_candidate (now : time) (exc : ScheduleException) : bool :=
  bool_decide (se_State exc = ExceptionStateActive) &&
  negb (bool_decide (se_Type exc = KindSuspend)) &&
  (Before (se_ValidFrom exc) now && Before now (se_ValidUntil exc)) &&
  negb (se_Deleting exc) &&
  (negb (bool_decide (se_TargetOverrides exc = [])) || bool_decide (is_Some (se_ExecutionOverride exc))).

(** The most recently created candidate; the first of those created at the same
    time. *)
Definition findActiveExceptionOverride (now : time) (exceptions : list ScheduleException)
  : option ScheduleException :=
  fold_left (fun result exc =>
    if override_candidate now exc then
      match result with
      | None => Some exc
      | Some r => if After (se_CreationTimestamp exc) (se_CreationTimestamp r) then Some exc else result
      end
    else result) exceptions None.

Definition apply_execution_override (o : ExecutionOverride) (p : HibernatePlan) : HibernatePlan :=
  let p1 :=
    match eo_Strategy o with
    | Some s => set_plan_Spec (set_spec_Execution s (plan_Spec p)) p
    | None => p
    end in
  match eo_Behavior o with
  | Some b => set_plan_Spec (set_spec_Behavior b (plan_Spec p1)) p1
  | None => p1
  end.

(** Removal of the targets of the disabled overrides. *)
Definition disable_targets (overrides : list TargetOverride) (targets : list Target) : list Target :=
  fold_left (fun l o =>
    if to_Disabled o then filter (fun t => tgt_Name t <> to_TargetName o) l else l) overrides targets.

(** The map from names to targets holds the last target of a name. *)
Definition update_last {A} (f : A -> bool) (g : A -> A) (l : list A) : list A :=
  rev (update_first f g (rev l)).

Definition override_parameters (overrides : list TargetOverride) (targets : list Target) : list Target :=
  fold_left (fun l o =>
    if to_Disabled o then l
    else
      match to_Parameters o with
      | None => l
      | Some params =>
          update_last (fun t => (tgt_Name t =? to_TargetName o)%string)
            (set_tgt_Parameters (Some params)) l
      end) overrides targets.

Definition buildEffectivePlan (now : time) (exceptions : list ScheduleException) (plan : HibernatePlan)
  : option HibernatePlan :=
  match findActiveExceptionOverride now exceptions with
  | None => None
  | Some exc =>
      let p1 :=
        match se_ExecutionOverride exc with
        | Some o => apply_execution_override o plan
        | None => plan
        end in
      let overrides := se_TargetOverrides exc in
      Some (set_plan_Spec
              (set_spec_Targets
                 (override_parameters overrides
                    (disable_targets overrides (spec_Targets (plan_Spec p1)))) (plan_Spec p1)) p1)
  end.

(** The snapshot that is locked for the current cycle. *)
Definition locked_snapshot (plan : HibernatePlan) : option PlanSnapshot :=
  match st_PlanSnapshot (plan_Status plan) with
  | Some snap =>
      if (snap_CycleID snap =? st_CurrentCycleID (plan_Status plan))%string then Some snap else None
  | None => None
  end.

Definition with_snapshot (snap : PlanSnapshot) (plan : HibernatePlan) : HibernatePlan :=
  set_plan_Spec
    (set_spec_Targets (snap_Targets snap)
       (set_spec_Execution (snap_Execution snap)
          (set_spec_Behavior (snap_Behavior snap) (plan_Spec plan)))) plan.

(** [effectivePlan]: a deep copy, or [None] for the plan itself. *)
Definition effectivePlan (now : time) (exceptions : list ScheduleException) (plan : HibernatePlan)
  : option HibernatePlan :=
  match locked_snapshot plan with
  | Some snap => Some (with_snapshot snap plan)
  | None => buildEffectivePlan now exceptions plan
  end.

(** ** Transitions shared by the handlers *)

Section execution.
Context {HK : KubeApi}.

Definition nextStage (nextStageIndex : Z) : HM unit :=
  Send [] (assign (fun _ => set_st_CurrentStageIndex nextStageIndex)) [].

Definition setError {E} (phaseErr : option goerr) : ST World E unit :=
  let errMsg := match phaseErr with Some e => ge_text e | None => "unknown error" end in
  let! plan := get_plan in
  Send []
    (assign (fun now s =>
       set_st_ErrorMessage errMsg
         (set_st_LastTransitionTime (Some now) (set_st_Phase PhaseError s))))
    [EventFailure; EventPhaseChange (plan_Phase plan)].

(** [state.OnError]. *)
Definition OnError (err : goerr) : ST World Empty_set StateResult :=
  if ge_plan err
  then do! setError (Some err) in st_ret requeue
  else st_ret (requeue_after RequeueIntervalOnTransientError).

(** ** Observation of Jobs ([state_execution.go]) *)

Definition getCurrentCycleJobs (plan : HibernatePlan) : ST World ApiError (list Job) :=
  let s := plan_Status plan in
  if (st_CurrentCycleID s =? "")%string || bool_decide (st_CurrentOperation s = OperationUnset)
  then st_ret []
  else
    api (list_jobs (plan_Namespace plan)
           {[ LabelPlan := plan_Name plan; LabelCycleID := st_CurrentCycleID s;
              LabelOperation := operation_string (st_CurrentOperation s) ]}).

Definition newer_pod (p q : Pod) : Prop := unix_ns (pod_CreationTimestamp q) <= unix_ns (pod_CreationTimestamp p).
#[export] Instance newer_pod_dec p q : Decision (newer_pod p q).
Proof. unfold newer_pod. apply _. Defined.

Definition pod_message (p : Pod) : option string :=
  find_first (fun s => negb (s =? "")%string)
    (concat (map (fun st => match st.1 with Some m => [m] | None => [] end
                            ++ match st.2 with Some m => [m] | None => [] end) (pod_Statuses p))).

(** The termination message of the newest pod that has one; "" on an API error. *)
Definition getTerminationMessageFromPod {E} (job : Job) : ST World E string :=
  let! r := st_try (api (list_pods (job_Namespace job) (job_TemplateLabels job))) in
  match r with
  | inl _ => st_ret ""
  | inr pods => st_ret (default "" (head (omap pod_message (merge_sort newer_pod pods))))
  end.

Definition consecutiveJobMissThreshold : Z := 3.

Definition executing_phase (p : PlanPhase) : bool :=
  match p with PhaseHibernating | PhaseWakingUp => true | _ => false end.

(** [Worker.trackConsecutiveJobMiss]. *)
Definition trackConsecutiveJobMiss {E} (target : string) : ST World E bool :=
  let! w := st_get in
  if negb (executing_phase (plan_Phase (w_plan w))) then st_ret false
  else
    let n := default 0 (w_misses w !! target) + 1 in
    if consecutiveJobMissThreshold <=? n
    then do! st_modify (set_w_misses (delete target (w_misses w))) in st_ret true
    else do! st_modify (set_w_misses (<[target := n]> (w_misses w))) in st_ret false.

(** [Worker.resetConsecutiveJobMiss]. *)
Definition resetConsecutiveJobMiss {E} (target : string) : ST World E unit :=
  st_modify (fun w => set_w_misses (delete target (w_misses w)) w).

Definition job_matches (exec : ExecutionStatus) (j : Job) : bool :=
  negb (is_stale j) && (exec_Target exec =? job_label LabelTarget j)%string
  && (exec_Executor exec =? job_label LabelExecutor j)%string.

(** The first condition that ends the Job. *)
Definition final_condition (j : Job) : option JobCondition :=
  find_first (fun c => cond_True c && (bool_decide (cond_Type c = JobComplete)
                                       || bool_decide (cond_Type c = JobFailed))) (job_Conditions j).

Definition in_progress_message (op : PlanOperation) : string :=
  ("A " ++ operation_string op ++ " operation is already in progress")%string.

(** The status of a target whose Job exists. *)
Definition observe_job {E} (plan : HibernatePlan) (exec : ExecutionStatus) (job : Job)
  : ST World E ExecutionStatus :=
  do! resetConsecutiveJobMiss (exec_Target exec) in
  let e1 :=
    match exec_StartedAt exec, job_StartTime job with
    | None, Some t => set_exec_StartedAt (Some t) exec
    | _, _ => exec
    end in
  let e2 :=
    if 0 <? job_Active job
    then set_exec_Message (in_progress_message (st_CurrentOperation (plan_Status plan)))
           (set_exec_State StateRunning e1)
    else e1 in
  let! e3 :=
    match final_condition job with
    | None => st_ret e2
    | Some cond =>
        let state := if bool_decide (cond_Type cond = JobComplete) then StateCompleted else StateFailed in
        let! msg := getTerminationMessageFromPod job in
        let e := set_exec_State state e2 in
        let e := if (msg =? "")%string then e else set_exec_Message msg e in
        st_ret (set_exec_FinishedAt (Some (cond_LastTransitionTime cond)) e)
    end in
  do! (if negb (bool_decide (exec_State exec = exec_State e3))
          && (bool_decide (exec_State e3 = StateCompleted) || bool_decide (exec_State e3 = StateFailed))
       then st_modify (fun w => set_w_stale_tasks (w_stale_tasks w ++ [(job_Namespace job, job_Name job)]) w)
       else st_ret tt) in
  let e4 :=
    match job_Labels job !! LabelExecutionID with
    | Some id => set_exec_LogsRef (ExecutionIDLogPrefix ++ id) e3
    | None => e3
    end in
  st_ret
    (set_exec_Attempts (int32 (job_Failed job + job_Succeeded job))
       (set_exec_JobRef (job_Namespace job ++ "/" ++ job_Name job)
          (set_exec_RestoreConfigMapRef
             (job_Namespace job ++ "/" ++ GetRestoreConfigMap (plan_Name plan)) e4))).

(** The status of a target whose Job does not exist. *)
Definition observe_missing {E} (exec : ExecutionStatus) : ST World E ExecutionStatus :=
  if bool_decide (exec_State exec = StateRunning) then
    match exec_FinishedAt exec with
    | Some _ => st_ret (set_exec_State StateCompleted exec)
    | None =>
        let! lost := trackConsecutiveJobMiss (exec_Target exec) in
        st_ret (if lost then set_exec_State StatePending exec else exec)
    end
  else st_ret exec.

Definition observe_target {E} (plan : HibernatePlan) (jobs : list Job) (exec : ExecutionStatus)
  : ST World E ExecutionStatus :=
  match find_first (job_matches exec) jobs with
  | Some job => observe_job plan exec job
  | None => observe_missing exec
  end.

Fixpoint observe_all {E} (plan : HibernatePlan) (jobs : list Job) (execs : list ExecutionStatus)
  : ST World E (list ExecutionStatus) :=
  match execs with
  | [] => st_ret []
  | e :: execs' =>
      let! e' := observe_target plan jobs e in
      let! rest := observe_all plan jobs execs' in
      st_ret (e' :: rest)
  end.

(** The statuses are changed in the effective plan, and sent to the cached one
    when they differ from before. *)
Definition updateExecutionStatuses {E} (jobs : list Job) : ST World E unit :=
  let! plan := get_effective in
  let prev := snapshotExecutionStates (st_Executions (plan_Status plan)) in
  let! executions := observe_all plan jobs (st_Executions (plan_Status plan)) in
  do! modify_effective (on_status (set_st_Executions executions)) in
  if executionStatesEqual prev executions then st_ret tt
  else Send [] (assign (fun _ => set_st_Executions executions)) [EventExecutionProgress].

(** [markJobAsStale], run by a goroutine of its own. *)
Definition stale_labels (reason : string) : gmap string string :=
  {[ LabelStaleRunnerJob := "true"; LabelStaleReasonRunnerJob := reason ]}.

Definition markJobAsStale (ns name : string) : ST World ApiError unit :=
  api (patch_job_labels ns name (stale_labels "terminal-state-reached")).

(** ** Validation and planning *)

Section validation.
Context {HV : Validator}.

(** A quotation mark, for [%q]. *)
Definition quoted (s : string) : string := (String (ascii_of_nat 34) s ++ String (ascii_of_nat 34) "")%string.

Definition target_errors (t : Target) : list string :=
  match tgt_Parameters t with
  | Some raw => if (raw =? "")%string then [] else ValidateParams (tgt_Type t) raw
  | None => []
  end.

Definition validateTargetOverrides (targets : list Target) : option goerr :=
  match find_first (fun t => negb (bool_decide (target_errors t = []))) targets with
  | None => None
  | Some t =>
      Some (plainf ("target " ++ quoted (tgt_Name t) ++ ": " ++ Join "; " (target_errors t)))
  end.

Definition validateRuntimeOverrides (now : time) (exceptions : list ScheduleException)
  (plan : HibernatePlan) : option goerr :=
  match locked_snapshot plan with
  | Some snap => validateTargetOverrides (snap_Targets snap)
  | None =>
      match find_first (override_candidate now) exceptions with
      | None => None
      | Some _ => validateTargetOverrides (spec_Targets (plan_Spec plan))
      end
  end.
End validation.

Definition plan_stage (s : ApiStage) : Stage :=
  mkStage (astage_Name s) (astage_Parallel s) (default 0 (astage_MaxConcurrency s)) (astage_Targets s).

Definition plan_dependency (reverse : bool) (d : ApiDependency) : Dependency :=
  mkDependency (if reverse then dep_To d else dep_From d) (if reverse then dep_From d else dep_To d).

Definition plan_error_text (e : PlanError) : string :=
  match e with
  | ErrCycleDetected => "cycle detected in dependency graph"
  | ErrTargetNotFound n => "dependency references unknown target: " ++ n
  end.

Definition buildExecutionPlan (plan : HibernatePlan) (reverse : bool) : res goerr ExecutionPlan :=
  let strategy := spec_Execution (plan_Spec plan) in
  let maxConcurrency := default 0 (strat_MaxConcurrency strategy) in
  let targets := map tgt_Name (spec_Targets (plan_Spec plan)) in
  match strat_Type strategy with
  | StrategySequential => Ok (PlanSequential (ReverseIf reverse targets))
  | StrategyParallel => Ok (PlanParallel (ReverseIf reverse targets) maxConcurrency)
  | StrategyStaged =>
      Ok (PlanStaged (ReverseIf reverse (map plan_stage (strat_Stages strategy))) maxConcurrency)
  | StrategyDAG =>
      res_map_err (fun e => plainf ("build DAG execution plan: " ++ plan_error_text e))
        (PlanDAG targets (map (plan_dependency reverse) (strat_Dependencies strategy)) maxConcurrency)
  | StrategyOther s => Err (plainf ("unknown strategy type: " ++ s))
  end.
End execution.
