(* ===== verification/Dispatch.v ===== *)
(** * Dispatch of the targets of a stage ([plan/state/state_execution.go])

    Creation of runner Jobs under the concurrency bound, pruning of targets whose
    upstream failed, and [execute], which observes the Jobs of the current cycle
    and then advances, fills or finishes the current stage. *)
From S2P Require Import Prelude Monad GoString GoTime Types Planner Cluster Restore World.
From S2P Require Import ExecutionUtils Execution.
From Stdlib Require Import Lia.

Local Open Scope Z_scope.

(** ** Runner Jobs *)

(** [fmt.Sprintf("%s-%s", plan.Name, target.Name)], shortened, and the time. *)
Definition execution_id (planName targetName : string) (now : time) : string :=
  let ts := sprint_d (unix_ns now / Second) in
  let maxBaseLen := (63 - String.length ts - 1)%nat in
  (ShortenName (planName ++ "-" ++ targetName) maxBaseLen ++ "-" ++ ts)%string.

Definition job_generate_name (planName targetName : string) : string :=
  ("runner-" ++ ShortenName (planName ++ "-" ++ targetName) 50 ++ "-")%string.

Definition runner_labels (plan : HibernatePlan) (target : Target) (operation : PlanOperation)
  (executionID : string) : gmap string string :=
  {[ LabelCycleID := st_CurrentCycleID (plan_Status plan);
     LabelOperation := operation_string operation;
     LabelPlan := plan_Name plan;
     LabelExecutionID := executionID;
     LabelExecutor := tgt_Type target;
     LabelTarget := tgt_Name target ]}.

(** [ExecutorInfra]: how runner Jobs are made. *)
Class ExecutorInfra := {
  infra_RunnerImage : string;
  infra_RunnerServiceAccount : string;
  infra_ControlPlaneEndpoint : string;
}.

Definition RunnerImage : string := "ghcr.io/ardikabs/hibernator-runner:latest".
Definition StreamTokenAudience : string := "hibernator-control-plane".
Definition StreamTokenExpirationSeconds : Z := 600.
Definition DefaultJobTTLSeconds : Z := 3600.
Definition DefaultJobBackoffLimit : Z := 3.

(** [x], or [d] when it is not set. *)
Definition or_default (x d : string) : string := if (x =? "")%string then d else x.

Section dispatch.
Context {HK : KubeApi} {HI : ExecutorInfra}.

Definition runner_annotations (plan : HibernatePlan) (target : Target) : gmap string string :=
  {[ LabelPlan := plan_Name plan; LabelTarget := tgt_Name target ]}.

Definition runner_env (plan : HibernatePlan) (target : Target) (executionID : string)
  : list (string * string) :=
  [("POD_NAMESPACE", plan_Namespace plan);
   ("HIBERNATOR_EXECUTION_ID", executionID);
   ("HIBERNATOR_CYCLE_ID", st_CurrentCycleID (plan_Status plan));
   ("HIBERNATOR_CONTROL_PLANE_ENDPOINT", infra_ControlPlaneEndpoint);
   ("HIBERNATOR_USE_TLS", "false");
   ("HIBERNATOR_GRPC_ENDPOINT", infra_ControlPlaneEndpoint ++ ":9444");
   ("HIBERNATOR_WEBSOCKET_ENDPOINT", "ws://" ++ infra_ControlPlaneEndpoint ++ ":8082");
   ("HIBERNATOR_HTTP_CALLBACK_ENDPOINT", "http://" ++ infra_ControlPlaneEndpoint ++ ":8082");
   ("HIBERNATOR_TARGET_PARAMS", default "" (tgt_Parameters target));
   ("HIBERNATOR_CONNECTOR_KIND", conn_Kind (tgt_ConnectorRef target));
   ("HIBERNATOR_CONNECTOR_NAME", conn_Name (tgt_ConnectorRef target));
   ("HIBERNATOR_CONNECTOR_NAMESPACE",
     or_default (conn_Namespace (tgt_ConnectorRef target)) (plan_Namespace plan))]%string.

Definition runner_spec (plan : HibernatePlan) (target : Target) (operation : PlanOperation)
  (executionID : string) : JobSpec :=
  mkJobSpec DefaultJobBackoffLimit DefaultJobTTLSeconds
    (runner_labels plan target operation executionID) (runner_annotations plan target) "Never"
    (or_default infra_RunnerServiceAccount "hibernator-runner") (or_default infra_RunnerImage RunnerImage)
    ["--operation"; operation_string operation; "--target"; tgt_Name target;
     "--target-type"; tgt_Type target; "--plan"; plan_Name plan]
    (runner_env plan target executionID) "/var/run/secrets/stream"
    StreamTokenAudience StreamTokenExpirationSeconds.

(** The Job of a target; the server names it. *)
Definition runner_job (plan : HibernatePlan) (target : Target) (operation : PlanOperation)
  (executionID name : string) : Job :=
  mkJob name (plan_Namespace plan) (runner_labels plan target operation executionID)
    (runner_annotations plan target) (plan_Name plan) (runner_spec plan target operation executionID)
    None 0 0 0 [].

Definition createRunnerJob (plan : HibernatePlan) (target : Target) (operation : PlanOperation)
  : ST World ApiError unit :=
  let! now := get_now in
  api (create_job (job_generate_name (plan_Name plan) (tgt_Name target))
         (runner_job plan target operation (execution_id (plan_Name plan) (tgt_Name target) now))).

(** ** Pruning *)

Definition abort_target (targetName message : string) (s : HibernatePlanStatus) : HibernatePlanStatus :=
  set_st_Executions
    (update_first (fun e => (exec_Target e =? targetName)%string)
       (fun e => set_exec_Message message (set_exec_State StateAborted e)) (st_Executions s)) s.

(** The effective plan is both changed in place and the resource of the update. *)
Definition pruneTarget (targetName message : string) : HM unit :=
  do! modify_effective (on_status (abort_target targetName message)) in
  Send_effective (assign (fun _ => abort_target targetName message)) [EventExecutionProgress].

(** ** Stages *)

(** [%v] of a slice of strings. *)
Definition sprint_list (l : list string) : string := ("[" ++ Join " " l ++ "]")%string.

Definition is_dag (plan : HibernatePlan) : bool :=
  bool_decide (strat_Type (spec_Execution (plan_Spec plan)) = StrategyDAG).
Definition is_strict (plan : HibernatePlan) : bool :=
  bool_decide (beh_Mode (spec_Behavior (plan_Spec plan)) = BehaviorStrict).

(** What the loop of [executeForStage] does with one target. *)
Inductive dispatch_decision :=
| DispatchSkip
| DispatchBlocked (failedUpstream : list string)
| DispatchPrune (failedUpstream : list string)
| DispatchFull
| DispatchCreate (target : Target).

Definition dispatch_target (plan : HibernatePlan) (jobs : list Job) (operation : PlanOperation)
  (maxConcurrency runningCount jobsCreated : Z) (targetName : string) : dispatch_decision :=
  match FindTarget plan targetName with
  | None => DispatchSkip
  | Some target =>
      let terminal :=
        match FindExecutionStatus plan (tgt_Type target) targetName with
        | Some e => terminal_state (exec_State e)
        | None => false
        end in
      if terminal then DispatchSkip
      else
        let failedUpstream := if is_dag plan then FindFailedUpstream plan targetName else [] in
        if negb (bool_decide (failedUpstream = [])) then
          if is_strict plan then DispatchBlocked failedUpstream else DispatchPrune failedUpstream
        else if JobExistsForTarget jobs targetName operation (st_CurrentCycleID (plan_Status plan))
        then DispatchSkip
        else if maxConcurrency <=? int32 (runningCount + jobsCreated) then DispatchFull
        else DispatchCreate target
  end.

Fixpoint dispatch_loop (jobs : list Job) (operation : PlanOperation) (maxConcurrency runningCount : Z)
  (targets : list string) (jobsCreated : Z) : HM unit :=
  match targets with
  | [] => st_ret tt
  | targetName :: targets' =>
      let! plan := get_effective in
      match dispatch_target plan jobs operation maxConcurrency runningCount jobsCreated targetName with
      | DispatchSkip => dispatch_loop jobs operation maxConcurrency runningCount targets' jobsCreated
      | DispatchBlocked up =>
          st_throw (AsPlanError (plainf ("target " ++ quoted targetName ++
            " blocked: upstream dependency " ++ sprint_list up ++ " failed")))
      | DispatchPrune up =>
          do! pruneTarget targetName ("Aborted: upstream dependency " ++ sprint_list up ++ " failed") in
          dispatch_loop jobs operation maxConcurrency runningCount targets' jobsCreated
      | DispatchFull => st_ret tt
      | DispatchCreate target =>
          let! r := st_try (createRunnerJob plan target operation) in
          match r with
          | inl e =>
              if is_strict plan && beh_FailFast (spec_Behavior (plan_Spec plan))
              then st_throw (AsPlanError (wrapf ("failed to create job for target " ++ targetName) (of_api e)))
              else dispatch_loop jobs operation maxConcurrency runningCount targets' (jobsCreated + 1)
          | inr _ => dispatch_loop jobs operation maxConcurrency runningCount targets' (jobsCreated + 1)
          end
      end
  end.

Definition stage_concurrency (stage : ExecutionStage) : Z :=
  if es_MaxConcurrency stage <=? 0 then len32 (es_Targets stage) else es_MaxConcurrency stage.

Definition executeForStage (jobs : list Job) (stage : ExecutionStage) (operation : PlanOperation)
  : HM StateResult :=
  do! dispatch_loop jobs operation (stage_concurrency stage) (CountRunningJobsInStage jobs stage)
        (es_Targets stage) 0 in
  st_ret (requeue_after RequeueIntervalDuringStage).

(** [l[i]] of a slice; out of range panics. *)
Definition slice_at {A} (l : list A) (i : Z) : option A :=
  if i <? 0 then None else l !! Z.to_nat i.

Definition slice_get {S E A} (l : list A) (i : Z) : ST S E A :=
  match slice_at l i with Some x => st_ret x | None => st_panic end.

(** The names of the failed targets of a stage, in the order of the statuses. *)
Definition failed_targets (plan : HibernatePlan) (stage : ExecutionStage) : list string :=
  map exec_Target
    (filter (fun e => exec_State e = StateFailed /\ exec_Target e ∈ es_Targets stage)
       (st_Executions (plan_Status plan))).

Section execute.
Context {HV : Validator}.

(** The part of [execute] after the execution plan is built. *)
Definition execute_stage (operation : PlanOperation) (jobs : list Job) (execPlan : ExecutionPlan)
  (onFinalize : HM unit) : HM StateResult :=
  let! plan := get_effective in
  let index := st_CurrentStageIndex (plan_Status plan) in
  let total := Z.of_nat (length (Stages execPlan)) in
  if total <=? index then do! onFinalize in st_ret quiet
  else
    let! targetStage := slice_get (Stages execPlan) index in
    let stageStatus := GetStageStatus plan targetStage in
    if AllTerminal stageStatus then
      if (0 <? FailedCount stageStatus) && is_strict plan then
        st_throw (AsPlanError (plainf ("one or more targets failed: "
          ++ Join ", " (failed_targets plan targetStage))))
      else
        let nextStageIndex := index + 1 in
        if nextStageIndex <? total then
          do! nextStage nextStageIndex in
          let! targetStage := slice_get (Stages execPlan) nextStageIndex in
          executeForStage jobs targetStage operation
        else do! onFinalize in st_ret quiet
    else if HasPending stageStatus then executeForStage jobs targetStage operation
    else st_ret (requeue_after RequeueIntervalDuringStage).

Definition execute (operation : PlanOperation) (reverse : bool) (onFinalize : HM unit) : HM StateResult :=
  do! st_modify (fun w => set_w_effective (effectivePlan (w_now w) (w_exceptions w) (w_plan w)) w) in
  let! plan := get_effective in
  let! jobs := returning (getCurrentCycleJobs plan) in
  do! updateExecutionStatuses jobs in
  let! w := st_get in
  let! plan := get_effective in
  match (if st_CurrentStageIndex (plan_Status plan) =? 0
         then validateRuntimeOverrides (w_now w) (w_exceptions w) plan else None) with
  | Some e => st_throw (AsPlanError (wrapf "runtime validation failed" e))
  | None =>
      match buildExecutionPlan plan reverse with
      | Err e => st_throw (AsPlanError (wrapf "failed to build execution plan" e))
      | Panic | NoReturn => st_panic
      | Ok execPlan => execute_stage operation jobs execPlan onFinalize
      end
  end.
End execute.

(** [awaitExecutionDrain]: [None] when the drain is complete. *)
Definition awaitExecutionDrain : HM (option StateResult) :=
  do! st_modify (set_w_effective None) in
  let! plan := get_plan in
  let! jobs := st_wrap (fun e => wrapf "failed to get current cycle jobs" (of_api e))
                 (getCurrentCycleJobs plan) in
  do! updateExecutionStatuses jobs in
  let! plan := get_plan in
  if existsb (fun e => negb (exec_LogsRef e =? "")%string && bool_decide (exec_FinishedAt e = None))
       (st_Executions (plan_Status plan))
  then st_ret (Some (mkStateResult false RequeueIntervalOnExecution TimeoutTransitionToSuspended 0))
  else st_ret None.

(** ** The handlers of an executing phase
    ([state_hibernating.go], [state_wakingup.go]) *)

Definition record_history (set : option ExecutionOperationSummary -> ExecutionCycle -> ExecutionCycle)
  (summary : ExecutionOperationSummary) (cycleID : string) (s : HibernatePlanStatus) : HibernatePlanStatus :=
  set_st_ExecutionHistory
    (pruneCycleHistory (update_cycle cycleID (set (Some summary)) (st_ExecutionHistory s))) s.

Definition set_summary (operation : PlanOperation) :=
  if bool_decide (operation = OperationHibernate)
  then set_cyc_ShutdownExecution else set_cyc_WakeupExecution.

(** The status update of [finalize]. *)
Definition complete_operation (operation : PlanOperation) (phase : PlanPhase) : HM unit :=
  let! plan := get_plan in
  let summary := BuildOperationSummary plan operation in
  let cycleID := st_CurrentCycleID (plan_Status plan) in
  Send []
    (assign (fun now s =>
       set_st_ErrorMessage ""
         (set_st_LastRetryTime None
            (set_st_RetryCount 0
               (record_history (set_summary operation) summary cycleID
                  (set_st_LastTransitionTime (Some now) (set_st_Phase phase s)))))))
    [EventSuccess; EventPhaseChange (plan_Phase plan)].

Definition hibernating_finalize : HM unit :=
  let! plan := get_plan in
  if IsOperationComplete plan then complete_operation OperationHibernate PhaseHibernated else st_ret tt.

Section wakeup.
Context {HJ : JSON}.

(** A call of the restore manager. *)
Definition restore {A} (m : ST Cluster RestoreError A) : ST World RestoreError A :=
  st_lift w_cluster set_w_cluster m.

Definition postWakeupCleanup : HM unit :=
  let! plan := get_plan in
  let targetNames := map tgt_Name (spec_Targets (plan_Spec plan)) in
  let! restored := st_try (restore (MarkAllTargetsRestored (plan_Namespace plan) (plan_Name plan) targetNames)) in
  match restored with
  | inl _ | inr false => st_ret tt
  | inr true =>
      let! unlocked := st_try (restore (UnlockRestoreData (plan_Namespace plan) (plan_Name plan))) in
      match unlocked with
      | inl _ => st_ret tt
      | inr _ =>
          if has_annotation AnnotationSuspendedAtPhase plan then
            let! _ := st_try (patchAndPreserveStatus (del_annotation AnnotationSuspendedAtPhase)) in
            st_ret tt
          else st_ret tt
      end
  end.

Definition wakingup_finalize : HM unit :=
  let! plan := get_plan in
  if IsOperationComplete plan then
    do! complete_operation OperationWakeUp PhaseActive in postWakeupCleanup
  else st_ret tt.

Context {HV : Validator}.

Definition mismatch (plan : HibernatePlan) : goerr :=
  plainf ("mismatch between phase and operation: phase=" ++ phase_string (plan_Phase plan)
    ++ " operation=" ++ operation_string (st_CurrentOperation (plan_Status plan)))%string.

Definition hibernating_Handle : HM StateResult :=
  let! plan := get_plan in
  if bool_decide (st_CurrentOperation (plan_Status plan) = OperationHibernate)
  then execute OperationHibernate false hibernating_finalize
  else st_throw (AsPlanError (mismatch plan)).

Definition wakingup_Handle : HM StateResult :=
  let! plan := get_plan in
  if bool_decide (st_CurrentOperation (plan_Status plan) = OperationWakeUp)
  then execute OperationWakeUp true wakingup_finalize
  else st_throw (AsPlanError (mismatch plan)).

(** [OnError] of both: a partial summary is recorded first. *)
Definition execution_OnError (operation : PlanOperation) (err : goerr) : ST World Empty_set StateResult :=
  let! plan := get_plan in
  do! (if ge_plan err && hasExecutionProgress plan then
         let summary := BuildOperationSummary plan operation in
         let cycleID := st_CurrentCycleID (plan_Status plan) in
         Send [] (assign (fun _ => record_history (set_summary operation) summary cycleID)) []
       else st_ret tt) in
  OnError err.
End wakeup.
End dispatch.
