(* ===== verification/Handlers.v ===== *)
(** * The phase handlers ([plan/state/])

    Idle, restart, override, suspension, recovery and lifecycle handlers, and the
    selection of the handler of a plan ([gates.go], [state_selection.go]).  The
    handlers of the executing phases are in [Dispatch]. *)
From S2P Require Import Prelude Monad GoString GoTime Types Planner Recovery Cluster Restore.
From S2P Require Import World ExecutionUtils Execution Dispatch.
From Stdlib Require Import Lia.

Local Open Scope Z_scope.

Section handlers.
Context {HK : KubeApi} {HI : ExecutorInfra} {HJ : JSON} {HV : Validator}.

(** A failed request, with what failed. *)
Definition failing_as {A} (what : string) (m : ST World ApiError A) : HM A :=
  st_wrap (fun e => wrapf what (of_api e)) m.

(** Errors that are only logged. *)
Definition non_fatal {E A} (m : ST World E A) : HM unit :=
  let! _ := st_try m in st_ret tt.

(** ** Idle ([state_idle.go]) *)

(** The loop of [getExistingCycleIDForHibernation]; a target that fails to load
    is skipped. *)
Fixpoint existing_cycle_id (ns planName : string) (targets : list Target) : HM string :=
  match targets with
  | [] => st_ret ""
  | t :: targets' =>
      let! r := st_try (restore (Load ns planName (tgt_Name t))) in
      match r with
      | inr (Some data) =>
          if data_IsLive data && negb (data_CycleID data =? "")%string
          then st_ret (data_CycleID data)
          else existing_cycle_id ns planName targets'
      | _ => existing_cycle_id ns planName targets'
      end
  end.

Definition getExistingCycleIDForHibernation (plan : HibernatePlan) : HM string :=
  existing_cycle_id (plan_Namespace plan) (plan_Name plan) (spec_Targets (plan_Spec plan)).

(** [uuid.New().String()[:8]]. *)
Definition new_cycle_id : HM string :=
  let! w := st_get in
  do! st_modify (set_w_uuids (tail (w_uuids w))) in
  st_ret (String.substring 0 8 (default "" (head (w_uuids w)))).

Definition cycle_id (fresh : bool) (plan : HibernatePlan) : HM string :=
  if fresh then new_cycle_id
  else
    let! existing := getExistingCycleIDForHibernation plan in
    if (existing =? "")%string then new_cycle_id else st_ret existing.

Definition pending (message : string) (t : Target) : ExecutionStatus :=
  mkExec (tgt_Name t) (tgt_Type t) StatePending None None 0 message "" "" "".

Definition snapshot_plan (cycleID excName : string) (effective : HibernatePlan) : PlanSnapshot :=
  mkSnapshot cycleID excName (spec_Targets (plan_Spec effective)) (spec_Execution (plan_Spec effective))
    (spec_Behavior (plan_Spec effective)).

(** The status that starts a shutdown; [excName] is the exception applied to the
    effective plan, or "". *)
Definition start_hibernating (cycleID excName : string) (effective : HibernatePlan) (now : time)
  (s : HibernatePlanStatus) : HibernatePlanStatus :=
  let s1 :=
    set_st_LastTransitionTime (Some now)
      (set_st_AppliedExceptionOverride excName
         (set_st_Executions (map (pending "Target pending hibernation") (spec_Targets (plan_Spec effective)))
            (set_st_CurrentOperation OperationHibernate
               (set_st_CurrentStageIndex 0
                  (set_st_CurrentCycleID cycleID
                     (set_st_Phase PhaseHibernating s)))))) in
  if (excName =? "")%string then s1
  else set_st_PlanSnapshot (Some (snapshot_plan cycleID excName effective)) s1.

Definition transitionToHibernating (fresh : bool) : HM StateResult :=
  let! plan := get_plan in
  let! cycleID := cycle_id fresh plan in
  let! w := st_get in
  let now := w_now w in
  let excName :=
    match findActiveExceptionOverride now (w_exceptions w) with Some e => se_Name e | None => "" end in
  let effective := default plan (buildEffectivePlan now (w_exceptions w) plan) in
  do! Send [] (assign (fun _ => start_hibernating cycleID excName effective now))
        [EventStart; EventPhaseChange (plan_Phase plan)] in
  st_ret requeue.

(** The targets of the wakeup: those of the snapshot of the current cycle. *)
Definition wakeup_targets (plan : HibernatePlan) : list Target :=
  match locked_snapshot plan with
  | Some snap => snap_Targets snap
  | None => spec_Targets (plan_Spec plan)
  end.

Definition start_wakingup (targets : list Target) (now : time) (s : HibernatePlanStatus)
  : HibernatePlanStatus :=
  set_st_LastTransitionTime (Some now)
    (set_st_Executions (map (pending "Target pending wakeup") targets)
       (set_st_CurrentOperation OperationWakeUp
          (set_st_CurrentStageIndex 0
             (set_st_Phase PhaseWakingUp s)))).

Definition transitionToWakingUp : HM StateResult :=
  let! plan := get_plan in
  let! now := get_now in
  do! Send [] (assign (fun _ => start_wakingup (wakeup_targets plan) now))
        [EventStart; EventPhaseChange (plan_Phase plan)] in
  st_ret requeue.

Definition idle_Handle : HM StateResult :=
  let! w := st_get in
  match w_schedule w with
  | None => st_ret quiet
  | Some shouldHibernate =>
      match plan_Phase (w_plan w) with
      | PhaseActive => if shouldHibernate then transitionToHibernating false else st_ret quiet
      | PhaseHibernated =>
          if negb shouldHibernate && w_hasRestoreData w then transitionToWakingUp else st_ret quiet
      | _ => st_ret quiet
      end
  end.

(** ** Restart ([state_restart.go]) *)

Definition is_fresh (plan : HibernatePlan) : bool := (annotation AnnotationFresh plan =? "true")%string.

Definition restart_Handle : HM StateResult :=
  let! plan := get_plan in
  let op := st_CurrentOperation (plan_Status plan) in
  let fresh := is_fresh plan in
  do! failing_as "failed to consume hibernator.ardikabs.com/restart annotation"
        (patchAndPreserveStatus (fun p => del_annotation AnnotationFresh (del_annotation AnnotationRestart p))) in
  let! w := st_get in
  match op with
  | OperationHibernate =>
      if bool_decide (plan_Phase (w_plan w) = PhaseHibernated)
      then transitionToHibernating fresh else st_ret quiet
  | OperationWakeUp =>
      if bool_decide (plan_Phase (w_plan w) = PhaseActive) && w_hasRestoreData w
      then transitionToWakingUp else st_ret quiet
  | _ => st_ret quiet
  end.

(** ** Override ([state_override.go]) *)

Definition initStateResult (now : time) (plan : HibernatePlan) : StateResult :=
  match plan_Annotations plan !! AnnotationOverrideUntil with
  | None => quiet
  | Some deadlineStr =>
      match parse_RFC3339 deadlineStr with
      | None => quiet
      | Some deadline => mkStateResult false 0 0 (Sub deadline now)
      end
  end.

Definition consumeRestart : HM bool :=
  let! plan := get_plan in
  if (annotation AnnotationRestart plan =? "true")%string
  then
    do! failing_as "failed to consume hibernator.ardikabs.com/restart annotation"
          (patchAndPreserveStatus (del_annotation AnnotationRestart)) in
    st_ret true
  else st_ret false.

Definition consumeFresh : HM unit :=
  let! plan := get_plan in
  if is_fresh plan
  then failing_as "failed to consume hibernator.ardikabs.com/fresh annotation"
         (patchAndPreserveStatus (del_annotation AnnotationFresh))
  else st_ret tt.

(** An error's result is not used: [OnError] makes another. *)
Definition override_Handle : HM StateResult :=
  let! w := st_get in
  let plan := w_plan w in
  let target := annotation AnnotationOverridePhaseTarget plan in
  let fresh := is_fresh plan in
  let res := initStateResult (w_now w) plan in
  if (target =? OverridePhaseTargetHibernate)%string then
    match plan_Phase plan with
    | PhaseActive => do! consumeFresh in transitionToHibernating fresh
    | PhaseHibernated =>
        let! restart := consumeRestart in
        if restart then do! consumeFresh in transitionToHibernating fresh else st_ret res
    | _ => st_ret res
    end
  else if (target =? OverridePhaseTargetWakeup)%string then
    match plan_Phase plan with
    | PhaseHibernated =>
        if w_hasRestoreData w then do! consumeFresh in transitionToWakingUp else st_ret res
    | PhaseActive =>
        let! restart := consumeRestart in
        if restart && w_hasRestoreData w then do! consumeFresh in transitionToWakingUp else st_ret res
    | _ => st_ret res
    end
  else st_ret res.

Definition override_OnDeadline : HM StateResult :=
  do! returning (patchAndPreserveStatus (fun p =>
        del_annotation AnnotationOverrideUntil
          (del_annotation AnnotationOverridePhaseTarget (del_annotation AnnotationOverrideAction p)))) in
  st_ret quiet.

(** ** Suspension ([state_pre_suspension.go]) *)

Definition performSuspension : HM StateResult :=
  let! plan := get_plan in
  do! failing_as "failed to record suspended-at-phase annotation"
        (patchAndPreserveStatus (fun p =>
           put_annotation AnnotationSuspendedAtPhase (phase_string (plan_Phase p)) (set_suspend true p))) in
  do! Send []
        (assign (fun now s =>
           set_st_LastTransitionTime (Some now) (set_st_ErrorMessage "" (set_st_Phase PhaseSuspended s)))) [] in
  st_ret requeue.

Definition preSuspension_Handle : HM StateResult :=
  let! plan := get_plan in
  if executing_phase (plan_Phase plan) then
    let! waiting := awaitExecutionDrain in
    match waiting with
    | Some result => st_ret result
    | None => performSuspension
    end
  else performSuspension.

(** ** Resumption ([state_suspended.go]) *)

Definition cleanupSuspensionAnnotations : HM unit :=
  let! plan := get_plan in
  if has_annotation AnnotationSuspendedAtPhase plan || has_annotation AnnotationSuspendReason plan
  then
    non_fatal (patchAndPreserveStatus (fun p =>
      del_annotation AnnotationSuspendReason (del_annotation AnnotationSuspendedAtPhase p)))
  else st_ret tt.

(** Where a resume leads, from the recorded phase, the failed or interrupted
    operation, the schedule and the restore data. *)
Inductive resume_route :=
| ResumeFromError (targetPhase : PlanPhase)
| ResumeFromExecution (targetPhase : PlanPhase)
| ResumeForceWakeUp
| ResumeNormal.

Definition shouldForceWakeUpOnResume (suspendedAtPhase : string) (hasRestoreData : bool)
  (schedule : option bool) : bool :=
  negb ((suspendedAtPhase =? "")%string
        || (suspendedAtPhase =? phase_string PhaseActive)%string
        || (suspendedAtPhase =? phase_string PhaseError)%string)
  && hasRestoreData
  && match schedule with Some shouldHibernate => negb shouldHibernate | None => false end.

Definition resume_decision (w : World) : resume_route :=
  let plan := w_plan w in
  let suspendedAtPhase := annotation AnnotationSuspendedAtPhase plan in
  if (suspendedAtPhase =? phase_string PhaseError)%string then
    ResumeFromError
      (if bool_decide (st_CurrentOperation (plan_Status plan) = OperationWakeUp)
       then PhaseHibernated else PhaseActive)
  else
    let fallback :=
      if shouldForceWakeUpOnResume suspendedAtPhase (w_hasRestoreData w) (w_schedule w)
      then ResumeForceWakeUp else ResumeNormal in
    if (suspendedAtPhase =? phase_string PhaseHibernating)%string then
      match w_schedule w with
      | None => fallback
      | Some true => ResumeFromExecution PhaseHibernating
      | Some false => ResumeFromExecution PhaseActive
      end
    else if (suspendedAtPhase =? phase_string PhaseWakingUp)%string then
      match w_schedule w with
      | None => fallback
      | Some false => ResumeFromExecution PhaseWakingUp
      | Some true => ResumeFromExecution PhaseHibernated
      end
    else fallback.

Definition transition (phase : PlanPhase) (now : time) (s : HibernatePlanStatus) : HibernatePlanStatus :=
  set_st_LastTransitionTime (Some now) (set_st_Phase phase s).

Definition resumeFromError (targetPhase : PlanPhase) : HM unit :=
  let! now := get_now in
  Send []
    (assign (fun _ s =>
       set_st_LastTransitionTime (Some now)
         (set_st_LastRetryTime None
            (set_st_ErrorMessage ""
               (set_st_RetryCount 0 (set_st_Phase targetPhase s)))))) [].

Definition resumeFromExecution (targetPhase : PlanPhase) : HM unit :=
  let! now := get_now in
  Send [] (assign (fun _ => transition targetPhase now)) [].

(** Only the cached plan is changed. *)
Definition forceWakeUpOnResume : HM unit :=
  st_modify (fun w => set_w_plan (on_status (set_st_Phase PhaseHibernated) (w_plan w)) w).

Definition take_route (route : resume_route) : HM unit :=
  match route with
  | ResumeFromError phase => resumeFromError phase
  | ResumeFromExecution phase => resumeFromExecution phase
  | ResumeForceWakeUp => forceWakeUpOnResume
  | ResumeNormal => Send [] (assign (transition PhaseActive)) []
  end.

Definition resume : HM StateResult :=
  let! w := st_get in
  do! take_route (resume_decision w) in
  do! cleanupSuspensionAnnotations in
  st_ret requeue.

Definition revoke_suspension (p : HibernatePlan) : HibernatePlan :=
  del_annotation AnnotationSuspendUntil (set_suspend false p).

Definition stay_or_resume : HM StateResult :=
  let! plan := get_plan in
  if spec_Suspend (plan_Spec plan) then st_ret quiet else resume.

Definition suspended_Handle : HM StateResult :=
  let! w := st_get in
  match plan_Annotations (w_plan w) !! AnnotationSuspendUntil with
  | None => stay_or_resume
  | Some suspendUntilStr =>
      match parse_RFC3339 suspendUntilStr with
      | None => st_throw (plainf ("parsing time " ++ quoted suspendUntilStr))
      | Some deadline =>
          if negb (After (w_now w) deadline)
          then st_ret (mkStateResult false 0 0 (Sub deadline (w_now w)))
          else
            do! returning (patchAndPreserveStatus revoke_suspension) in
            stay_or_resume
      end
  end.

Definition suspended_OnDeadline : HM StateResult :=
  do! returning (patchAndPreserveStatus revoke_suspension) in
  resume.

(** ** Recovery ([state_recovery.go]) *)

Definition handleManualRetry : HM (option StateResult) :=
  let! plan := get_plan in
  if negb (annotation AnnotationRetryNow plan =? "true")%string then st_ret None
  else
    let! r := st_try (patchAndPreserveStatus (del_annotation AnnotationRetryNow)) in
    match r with
    | inl _ => st_ret (Some (requeue_after RequeueIntervalOnRecoveryError))
    | inr _ =>
        do! Send [] (assign (fun _ s => set_st_LastRetryTime None (set_st_RetryCount 0 s))) [] in
        st_ret (Some requeue)
    end.

Definition determineRetryOperation (schedule : option bool) (plan : HibernatePlan) : PlanOperation :=
  match st_CurrentOperation (plan_Status plan) with
  | OperationUnset => if default false schedule then OperationHibernate else OperationWakeUp
  | operation => operation
  end.

Definition clearRetryAtAnnotation : HM unit :=
  let! plan := get_plan in
  if has_annotation AnnotationRetryAt plan
  then non_fatal (patchAndPreserveStatus (del_annotation AnnotationRetryAt))
  else st_ret tt.

(** The Jobs to relabel, in order, up to the first failure. *)
Fixpoint relabel_jobs (jobs : list Job) : ST World ApiError unit :=
  match jobs with
  | [] => st_ret tt
  | job :: jobs' =>
      if is_stale job || (job_Failed job =? 0) then relabel_jobs jobs'
      else
        do! api (patch_job_labels (job_Namespace job) (job_Name job) (stale_labels "retry-recovery")) in
        relabel_jobs jobs'
  end.

Definition relabelStaleFailedJobs (plan : HibernatePlan) (operation : PlanOperation) : HM unit :=
  non_fatal
    (let! jobs := api (list_jobs (plan_Namespace plan)
                         {[ LabelPlan := plan_Name plan;
                            LabelCycleID := st_CurrentCycleID (plan_Status plan);
                            LabelOperation := operation_string operation ]}) in
     relabel_jobs jobs).

(** The failed targets of a stage are pending again. *)
Definition reset_failed (targets : list string) (execs : list ExecutionStatus) : list ExecutionStatus :=
  map (fun e =>
    if bool_decide (exec_Target e ∈ targets) && bool_decide (exec_State e = StateFailed)
    then set_exec_Message "Execution state reset for retry after failure" (set_exec_State StatePending e)
    else e) execs.

(** The index is the cached plan's, whatever plan the mutator is applied to. *)
Definition retry_mutator (execPlan : ExecutionPlan) (stageIndex : Z) (targetPhase : PlanPhase)
  (lastErr : option error) : Mutator := fun now p =>
  let err := default (Errorf "unknown error (no error message in status)") lastErr in
  let '(p', recorded) := RecordRetryAttempt now (Some err) p in
  if recorded then
    match slice_at (Stages execPlan) stageIndex with
    | None => None
    | Some currentStage =>
        Some (on_status (fun s =>
          set_st_Phase targetPhase
            (set_st_Executions (reset_failed (es_Targets currentStage) (st_Executions s)) s)) p')
    end
  else Some p'.

Definition retry_phase (operation : PlanOperation) : PlanPhase :=
  if bool_decide (operation = OperationHibernate) then PhaseHibernating else PhaseWakingUp.

Definition handleRetry (lastErr : option error) : HM StateResult :=
  let! w := st_get in
  let plan := w_plan w in
  let operation := determineRetryOperation (w_schedule w) plan in
  let effective := default plan (effectivePlan (w_now w) (w_exceptions w) plan) in
  match buildExecutionPlan effective (bool_decide (operation = OperationWakeUp)) with
  | Err e => st_throw e
  | Panic | NoReturn => st_panic
  | Ok execPlan =>
      do! relabelStaleFailedJobs plan operation in
      let targetPhase := retry_phase operation in
      do! Send [EventRecovery targetPhase operation]
            (retry_mutator execPlan (st_CurrentStageIndex (plan_Status plan)) targetPhase lastErr)
            [EventPhaseChange (plan_Phase plan)] in
      st_ret requeue
  end.

Definition last_error (plan : HibernatePlan) : option error :=
  let msg := st_ErrorMessage (plan_Status plan) in
  if (msg =? "")%string then None else Some (Errorf msg).

Definition recovery_Handle : HM StateResult :=
  let! plan := get_plan in
  let! now := get_now in
  let lastErr := last_error plan in
  let strategy := DetermineRecoveryStrategy plan now lastErr in
  if negb (ShouldRetry strategy) then
    let! handled := handleManualRetry in
    match handled with
    | Some result => st_ret result
    | None => st_ret quiet
    end
  else if 0 <? RetryAfter strategy then st_ret (requeue_after (RetryAfter strategy))
  else
    do! clearRetryAtAnnotation in
    handleRetry lastErr.

(** ** Lifecycle ([state_lifecycle.go]) *)

(** A request for which NotFound is a success. *)
Definition ignoring_not_found (m : ST World ApiError unit) : HM unit :=
  let! r := st_try m in
  match r with
  | inr _ | inl NotFound => st_ret tt
  | inl e => st_throw (of_api e)
  end.

Definition has_finalizer (plan : HibernatePlan) : bool := bool_decide (PlanFinalizerName ∈ plan_Finalizers plan).

Definition remove_finalizer (p : HibernatePlan) : HibernatePlan :=
  set_plan_Finalizers (filter (fun f => f <> PlanFinalizerName) (plan_Finalizers p)) p.
Definition add_finalizer (p : HibernatePlan) : HibernatePlan :=
  set_plan_Finalizers (plan_Finalizers p ++ [PlanFinalizerName]) p.

Definition handleDelete : HM StateResult :=
  let! plan := get_plan in
  let! jobs := returning (api (list_jobs (plan_Namespace plan) {[ LabelPlan := plan_Name plan ]})) in
  do! st_iter (fun job => ignoring_not_found (api (delete_job (job_Namespace job) (job_Name job)))) jobs in
  do! (if has_finalizer plan then ignoring_not_found (patch_object remove_finalizer) else st_ret tt) in
  do! st_modify (set_w_dropped true) in
  st_ret quiet.

Definition lifecycle_handle : HM StateResult :=
  let! plan := get_plan in
  do! (if has_finalizer plan then st_ret tt else returning (patch_object add_finalizer)) in
  let! plan := get_plan in
  if bool_decide (plan_Phase plan = PhaseUnset) then
    do! Send [] (assign (fun _ s =>
          set_st_ObservedGeneration (plan_Generation plan) (set_st_Phase PhaseActive s))) [] in
    do! non_fatal (restore (PrepareRestorePoint (plan_Namespace plan) (plan_Name plan))) in
    st_ret requeue
  else st_ret quiet.

(** ** Selection ([gates.go], [state_selection.go]) *)

Inductive Handler :=
| lifecycleState (delete : bool)
| preSuspensionState
| idleState
| restartState
| overrideActionState
| hibernatingState
| wakingUpState
| suspendedState
| recoveryState.
#[global] Instance Handler_eq_dec : EqDecision Handler.
Proof. solve_decision. Defined.

Definition deletionGate (plan : HibernatePlan) : option Handler :=
  if plan_Deleting plan then Some (lifecycleState true) else None.

Definition checkAutoSuspendAnnotation (now : time) (plan : HibernatePlan) : option Handler :=
  match plan_Annotations plan !! AnnotationSuspendUntil with
  | None => None
  | Some val =>
      match parse_RFC3339 val with
      | None => None
      | Some deadline => if Before now deadline then Some preSuspensionState else None
      end
  end.

Definition suspensionGate (now : time) (plan : HibernatePlan) : option Handler :=
  if bool_decide (plan_Phase plan = PhaseSuspended) then None
  else if spec_Suspend (plan_Spec plan) then Some preSuspensionState
  else checkAutoSuspendAnnotation now plan.

(** [runPrePhaseGates]: the first gate that redirects wins. *)
Definition runPrePhaseGates (now : time) (plan : HibernatePlan) : option Handler :=
  match deletionGate plan with
  | Some h => Some h
  | None => suspensionGate now plan
  end.

Definition selectIdleHandler (plan : HibernatePlan) : Handler :=
  if (annotation AnnotationOverrideAction plan =? "true")%string then overrideActionState
  else if (annotation AnnotationRestart plan =? "true")%string then restartState
  else idleState.

Definition phase_handler (plan : HibernatePlan) : option Handler :=
  match plan_Phase plan with
  | PhaseUnset => Some (lifecycleState false)
  | PhaseActive | PhaseHibernated => Some (selectIdleHandler plan)
  | PhaseHibernating => Some hibernatingState
  | PhaseWakingUp => Some wakingUpState
  | PhaseSuspended => Some suspendedState
  | PhaseError => Some recoveryState
  | PhasePending | PhaseOther _ => None
  end.

Definition selectHandler (now : time) (plan : HibernatePlan) : option Handler :=
  match runPrePhaseGates now plan with
  | Some h => Some h
  | None => phase_handler plan
  end.

(** ** The interface of a handler ([state.go]) *)

Definition Handle (h : Handler) : HM StateResult :=
  match h with
  | lifecycleState true => handleDelete
  | lifecycleState false => lifecycle_handle
  | preSuspensionState => preSuspension_Handle
  | idleState => idle_Handle
  | restartState => restart_Handle
  | overrideActionState => override_Handle
  | hibernatingState => hibernating_Handle
  | wakingUpState => wakingup_Handle
  | suspendedState => suspended_Handle
  | recoveryState => recovery_Handle
  end.

Definition OnDeadline (h : Handler) : HM StateResult :=
  match h with
  | preSuspensionState => performSuspension
  | overrideActionState => override_OnDeadline
  | suspendedState => suspended_OnDeadline
  | _ => st_ret quiet
  end.

Definition handler_OnError (h : Handler) (err : goerr) : ST World Empty_set StateResult :=
  match h with
  | hibernatingState => execution_OnError OperationHibernate err
  | wakingUpState => execution_OnError OperationWakeUp err
  | _ => OnError err
  end.
End handlers.
