(* ===== verification/Timer.v ===== *)
(** * The timers of a worker ([processor/plan/timer.go])

    Four timers whose events are multiplexed into a channel of capacity one.  A
    timer is armed until it is disarmed; its event is pending until the
    multiplexer takes it, and is dropped when the channel is full.  Instants are
    nanoseconds since the epoch. *)
From S2P Require Import Prelude GoTime World.
From Stdlib Require Import Lia.

Local Open Scope Z_scope.

(** [Schedule]: [sc_armed] is [timer != nil]; [sc_fires] the instant of the event
    that is still to be taken from the timer's channel. *)
Record Schedule := mkSchedule {
  sc_duration : Z;
  sc_armed : bool;
  sc_fires : option Z;
}.

Definition NewSchedule : Schedule := mkSchedule 0 false None.

Definition Arm (now d : Z) (s : Schedule) : Schedule := mkSchedule d true (Some (now + d)).

Definition Disarm (s : Schedule) : Schedule := if sc_armed s then mkSchedule 0 false None else s.

(** An armed timer keeps the duration it was armed with. *)
Definition Reset (now d : Z) (s : Schedule) : Schedule :=
  if sc_armed s then mkSchedule (sc_duration s) true (Some (now + d))
  else mkSchedule d true (Some (now + d)).

Inductive timer_name := TimerRequeue | TimerTimeout | TimerDeadline | TimerInactivity.
#[export] Instance timer_name_eq_dec : EqDecision timer_name.
Proof. solve_decision. Defined.

Record TimerSet := mkTimerSet {
  ts_inactivityTimeout : Z;
  ts_Requeue : Schedule;
  ts_Timeout : Schedule;
  ts_Deadline : Schedule;
  ts_Inactivity : Schedule;
  ts_out : option timer_name;
}.

Definition set_ts_Requeue (v : Schedule) (r : TimerSet) : TimerSet :=
  mkTimerSet (ts_inactivityTimeout r) v (ts_Timeout r) (ts_Deadline r) (ts_Inactivity r) (ts_out r).
Definition set_ts_Timeout (v : Schedule) (r : TimerSet) : TimerSet :=
  mkTimerSet (ts_inactivityTimeout r) (ts_Requeue r) v (ts_Deadline r) (ts_Inactivity r) (ts_out r).
Definition set_ts_Deadline (v : Schedule) (r : TimerSet) : TimerSet :=
  mkTimerSet (ts_inactivityTimeout r) (ts_Requeue r) (ts_Timeout r) v (ts_Inactivity r) (ts_out r).
Definition set_ts_Inactivity (v : Schedule) (r : TimerSet) : TimerSet :=
  mkTimerSet (ts_inactivityTimeout r) (ts_Requeue r) (ts_Timeout r) (ts_Deadline r) v (ts_out r).
Definition set_ts_out (v : option timer_name) (r : TimerSet) : TimerSet :=
  mkTimerSet (ts_inactivityTimeout r) (ts_Requeue r) (ts_Timeout r) (ts_Deadline r) (ts_Inactivity r) v.

Definition NewTimerSet (inactivityTimeout : Z) : TimerSet :=
  mkTimerSet inactivityTimeout NewSchedule NewSchedule NewSchedule NewSchedule None.

Definition Start (now : Z) (ts : TimerSet) : TimerSet :=
  set_ts_Inactivity (Arm now (ts_inactivityTimeout ts) (ts_Inactivity ts)) ts.

Definition get_timer (n : timer_name) (ts : TimerSet) : Schedule :=
  match n with
  | TimerRequeue => ts_Requeue ts
  | TimerTimeout => ts_Timeout ts
  | TimerDeadline => ts_Deadline ts
  | TimerInactivity => ts_Inactivity ts
  end.

Definition set_timer (n : timer_name) (v : Schedule) (ts : TimerSet) : TimerSet :=
  match n with
  | TimerRequeue => set_ts_Requeue v ts
  | TimerTimeout => set_ts_Timeout v ts
  | TimerDeadline => set_ts_Deadline v ts
  | TimerInactivity => set_ts_Inactivity v ts
  end.

(** [send] *)
Definition send (n : timer_name) (ts : TimerSet) : TimerSet :=
  match ts_out ts with
  | None => set_ts_out (Some n) ts
  | Some _ => ts
  end.

(** One round of [loop] in which the case of a timer is ready: the event is taken
    from the timer, and sent. [None]: the case is not ready. *)
Definition loop_case (now : Z) (n : timer_name) (ts : TimerSet) : option TimerSet :=
  let s := get_timer n ts in
  match sc_fires s with
  | Some t =>
      if t <=? now
      then Some (send n (set_timer n (mkSchedule (sc_duration s) (sc_armed s) None) ts))
      else None
  | None => None
  end.

Definition SetRequeue (now d : Z) (ts : TimerSet) : TimerSet := set_ts_Requeue (Arm now d (ts_Requeue ts)) ts.
Definition StopRequeue (ts : TimerSet) : TimerSet := set_ts_Requeue (Disarm (ts_Requeue ts)) ts.
Definition SetTimeout (now d : Z) (ts : TimerSet) : TimerSet :=
  if sc_armed (ts_Timeout ts) then ts else set_ts_Timeout (Arm now d (ts_Timeout ts)) ts.
Definition StopTimeout (ts : TimerSet) : TimerSet := set_ts_Timeout (Disarm (ts_Timeout ts)) ts.
Definition SetDeadline (now d : Z) (ts : TimerSet) : TimerSet := set_ts_Deadline (Arm now d (ts_Deadline ts)) ts.
Definition StopDeadline (ts : TimerSet) : TimerSet := set_ts_Deadline (Disarm (ts_Deadline ts)) ts.

Definition KeepAlive (now : Z) (ts : TimerSet) : TimerSet :=
  let d := ts_inactivityTimeout ts in
  let deadlineDur := sc_duration (ts_Deadline ts) in
  let d' := if d <? deadlineDur then deadlineDur + d else d in
  if sc_armed (ts_Inactivity ts) then set_ts_Inactivity (Reset now d' (ts_Inactivity ts)) ts else ts.

(** [TimerSet.Reset] *)
Definition ResetAll (ts : TimerSet) : TimerSet :=
  set_ts_Deadline (Disarm (ts_Deadline ts))
    (set_ts_Timeout (Disarm (ts_Timeout ts)) (set_ts_Requeue (Disarm (ts_Requeue ts)) ts)).

Definition Cleanup (ts : TimerSet) : TimerSet :=
  let ts := ResetAll ts in set_ts_Inactivity (Disarm (ts_Inactivity ts)) ts.

Definition Apply (now : Z) (result : StateResult) (ts : TimerSet) : TimerSet :=
  let ts := if 0 <? RequeueAfter result then SetRequeue now (RequeueAfter result) ts else StopRequeue ts in
  let ts := if 0 <? TimeoutAfter result then SetTimeout now (TimeoutAfter result) ts else StopTimeout ts in
  if 0 <? DeadlineAfter result then SetDeadline now (DeadlineAfter result) ts else StopDeadline ts.

(** ** Lemmas *)

Lemma Disarm_disarmed s : sc_armed (Disarm s) = false.
Proof. unfold Disarm. by destruct (sc_armed s) eqn:E. Qed.

Lemma Apply_Requeue now r ts :
  ts_Requeue (Apply now r ts) =
  if 0 <? RequeueAfter r then Arm now (RequeueAfter r) (ts_Requeue ts) else Disarm (ts_Requeue ts).
Proof.
  unfold Apply, SetRequeue, StopRequeue, SetTimeout, StopTimeout, SetDeadline, StopDeadline.
  destruct (0 <? RequeueAfter r), (0 <? TimeoutAfter r), (0 <? DeadlineAfter r); cbn;
    try destruct (sc_armed (ts_Timeout ts)); done.
Qed.

Lemma Apply_Timeout now r ts :
  ts_Timeout (Apply now r ts) =
  if 0 <? TimeoutAfter r then
    if sc_armed (ts_Timeout ts) then ts_Timeout ts else Arm now (TimeoutAfter r) (ts_Timeout ts)
  else Disarm (ts_Timeout ts).
Proof.
  unfold Apply, SetRequeue, StopRequeue, SetTimeout, StopTimeout, SetDeadline, StopDeadline.
  destruct (0 <? RequeueAfter r), (0 <? TimeoutAfter r), (0 <? DeadlineAfter r); cbn;
    try destruct (sc_armed (ts_Timeout ts)); done.
Qed.

Lemma Apply_Deadline now r ts :
  ts_Deadline (Apply now r ts) =
  if 0 <? DeadlineAfter r then Arm now (DeadlineAfter r) (ts_Deadline ts) else Disarm (ts_Deadline ts).
Proof.
  unfold Apply, SetRequeue, StopRequeue, SetTimeout, StopTimeout, SetDeadline, StopDeadline.
  destruct (0 <? RequeueAfter r), (0 <? TimeoutAfter r), (0 <? DeadlineAfter r); cbn;
    try destruct (sc_armed (ts_Timeout ts)); done.
Qed.

Lemma Apply_Inactivity now r ts : ts_Inactivity (Apply now r ts) = ts_Inactivity ts.
Proof.
  unfold Apply, SetRequeue, StopRequeue, SetTimeout, StopTimeout, SetDeadline, StopDeadline.
  destruct (0 <? RequeueAfter r), (0 <? TimeoutAfter r), (0 <? DeadlineAfter r); cbn;
    try destruct (sc_armed (ts_Timeout ts)); done.
Qed.
