(* ===== verification/Worker.v ===== *)
(** * The worker of a plan ([processor/plan/worker.go], [coordinator.go])

    A worker keeps the last delivered [PlanContext], whose plan the handlers
    mutate, and its timers.  Its event loop takes deliveries from a slot that
    keeps the latest value, and timer events from the timer set. *)
From S2P Require Import Prelude Monad GoString GoTime Types Cluster Restore World ExecutionUtils.
From S2P Require Import Execution Dispatch Handlers Timer.
From Stdlib Require Import Lia.

Local Open Scope Z_scope.

Definition defaultWorkerIdleTimeout : Z := 30 * Minute.
Definition maxHandleDepth : nat := 5.

(** [message.PlanContext], less what no handler reads. *)
Record PlanContext := mkPlanContext {
  pc_Plan : HibernatePlan;
  pc_Schedule : option bool;
  pc_Exceptions : list ScheduleException;
  pc_HasRestoreData : bool;
}.

Section worker.
Context {HK : KubeApi} {HI : ExecutorInfra} {HJ : JSON} {HV : Validator}.

(** [wk_cached] is [cachedCtx != nil], the context being in [wk_world];
    [wk_slot] the latest delivery that was not received. *)
Record Worker := mkWorker {
  wk_cached : bool;
  wk_world : World;
  wk_timers : TimerSet;
  wk_slot : option PlanContext;
}.

Definition set_wk_world (v : World) (r : Worker) : Worker :=
  mkWorker (wk_cached r) v (wk_timers r) (wk_slot r).
Definition set_wk_timers (v : TimerSet) (r : Worker) : Worker :=
  mkWorker (wk_cached r) (wk_world r) v (wk_slot r).
Definition set_wk_slot (v : option PlanContext) (r : Worker) : Worker :=
  mkWorker (wk_cached r) (wk_world r) (wk_timers r) v.

Definition WM (A : Type) : Type := ST Worker Empty_set A.

Definition wk_clock (s : Worker) : Z := unix_ns (w_now (wk_world s)).

Definition timers (f : Z -> TimerSet -> TimerSet) : WM unit :=
  st_modify (fun s => set_wk_timers (f (wk_clock s) (wk_timers s)) s).

Definition invoke (h : Handler) (onDeadline : bool) : HM StateResult :=
  if onDeadline then OnDeadline h else Handle h.

(** The call of a handler: an error becomes the result of [OnError]. *)
Definition call_handler (h : Handler) (onDeadline : bool) : ST World Empty_set StateResult :=
  let! r := st_try (invoke h onDeadline) in
  match r with
  | inr result => st_ret result
  | inl err => handler_OnError h err
  end.

(** [handleWithDepth]; [fuel] is what remains of [maxHandleDepth]. *)
Fixpoint handleWithDepth (fuel : nat) (onDeadline : bool) : WM unit :=
  match fuel with
  | O => st_ret tt
  | S fuel' =>
      let! s := st_get in
      match selectHandler (w_now (wk_world s)) (w_plan (wk_world s)) with
      | None => st_ret tt
      | Some handler =>
          let! result := st_lift wk_world set_wk_world (call_handler handler onDeadline) in
          if Requeue result then
            do! timers (fun _ => ResetAll) in
            handleWithDepth fuel' false
          else timers (fun now => Apply now result)
      end
  end.

Definition handle (onDeadline : bool) : WM unit := handleWithDepth maxHandleDepth onDeadline.

(** The hooks of the timers do nothing without a context. *)
Definition handle_cached (onDeadline : bool) : WM unit :=
  let! s := st_get in if wk_cached s then handle onDeadline else st_ret tt.

Definition mergeIncoming (incoming : PlanContext) (s : Worker) : Worker :=
  let w := wk_world s in
  let plan :=
    if wk_cached s
    then set_plan_Status (plan_Status (w_plan w)) (pc_Plan incoming)
    else pc_Plan incoming in
  mkWorker true
    (set_w_hasRestoreData (pc_HasRestoreData incoming)
       (set_w_exceptions (pc_Exceptions incoming)
          (set_w_schedule (pc_Schedule incoming) (set_w_plan plan w))))
    (wk_timers s) (wk_slot s).

(** ** The event loop *)

(** [slot.Send] of the coordinator: latest wins. *)
Definition deliver (pc : PlanContext) : WM unit := st_modify (set_wk_slot (Some pc)).

(** The case of the slot. *)
Definition receive : WM unit :=
  let! s := st_get in
  match wk_slot s with
  | None => st_ret tt
  | Some planCtx =>
      do! st_modify (set_wk_slot None) in
      do! st_modify (mergeIncoming planCtx) in
      do! handle false in
      timers KeepAlive
  end.

(** The closure of a timer event; [false] ends the worker. *)
Definition timer_callback (n : timer_name) : WM bool :=
  do! timers (fun _ ts => set_timer n (Disarm (get_timer n ts)) ts) in
  match n with
  | TimerRequeue => do! handle_cached false in do! timers KeepAlive in st_ret true
  | TimerTimeout | TimerDeadline => do! handle_cached true in do! timers KeepAlive in st_ret true
  | TimerInactivity => st_ret false
  end.

(** The case of the timers. *)
Definition take_timer : WM bool :=
  let! s := st_get in
  match ts_out (wk_timers s) with
  | None => st_ret true
  | Some n =>
      do! timers (fun _ => set_ts_out None) in
      timer_callback n
  end.

(** A new worker; [run] starts its timers. *)
Definition new_worker (w : World) : Worker :=
  mkWorker false w (Start (unix_ns (w_now w)) (NewTimerSet defaultWorkerIdleTimeout)) None.

(** What can happen to a running worker: a delivery, a timer event, a turn of its
    loop, and changes outside it: of the clock and the cluster, of what requests
    will answer, of the queue that the status writer empties.  The plans that come
    from outside have a status that satisfies [ok].  A turn that panics has no
    successor: the process dies. *)
Inductive worker_step (ok : HibernatePlanStatus -> Prop) : Worker -> Worker -> Prop :=
| step_deliver s pc : ok (plan_Status (pc_Plan pc)) -> worker_step ok s (run_state (deliver pc) s)
| step_receive s s' : receive s = (Ok tt, s') -> worker_step ok s s'
| step_fire s n ts : loop_case (wk_clock s) n (wk_timers s) = Some ts ->
    worker_step ok s (set_wk_timers ts s)
| step_timer s s' : take_timer s = (Ok true, s') -> worker_step ok s s'
| step_clock s t : unix_ns (w_now (wk_world s)) <= unix_ns t ->
    worker_step ok s (set_wk_world (set_w_now t (wk_world s)) s)
| step_cluster s c : (forall p, cl_plan c = Some p -> ok (plan_Status p)) ->
    worker_step ok s (set_wk_world (set_w_cluster c (wk_world s)) s)
| step_queue s q : worker_step ok s (set_wk_world (set_w_queue q (wk_world s)) s)
| step_uuids s us : worker_step ok s (set_wk_world (set_w_uuids us (wk_world s)) s)
| step_notify s b : worker_step ok s (set_wk_world (set_w_notify b (wk_world s)) s).
End worker.
