(* ===== verification/StateFrame.v ===== *)
(** * What the helpers of the handlers leave alone

    A property of the plan status that survives a change of the execution
    statuses and of the stage index is preserved by every helper that is not a
    phase transition, whatever the API server answers. *)
From S2P Require Import Prelude Monad GoString GoTime Types Planner Recovery Cluster Restore World.
From S2P Require Import ExecutionUtils Execution Dispatch Handlers.
From Stdlib Require Import Lia.

Local Open Scope Z_scope.

(** A property of the cached status. *)
Definition holds {HK : KubeApi} (J : HibernatePlanStatus -> Prop) (w : World) : Prop := J (plan_Status (w_plan w)).

(** Errors that are not plan errors. *)
Definition plain_error (e : goerr) : Prop := ge_plan e = false.

(** ** Primitives *)

Section primitives.
Context {HK : KubeApi} (J : HibernatePlanStatus -> Prop).

Lemma api_frame {A} (m : API A) : preserves (holds J) (api m).
Proof. intros w Hw. unfold api, st_lift. by destruct (m (w_cluster w)) as [r c]. Qed.

Lemma restore_frame {A} (m : ST Cluster RestoreError A) : preserves (holds J) (restore m).
Proof. intros w Hw. unfold restore, st_lift. by destruct (m (w_cluster w)) as [r c]. Qed.

Lemma modify_frame {E} f : (forall w, plan_Status (w_plan (f w)) = plan_Status (w_plan w)) ->
  preserves (holds J) (st_modify (E:=E) f).
Proof. intros Hf. apply preserves_modify. intros w Hw. unfold holds. by rewrite Hf. Qed.

Lemma hook_frame {E} evs : preserves (holds J) (hook (E:=E) evs).
Proof. apply preserves_gets. Qed.

Lemma Send_frame {E} pre f post : (forall now s, J s -> J (f now s)) ->
  preserves (holds J) (Send (E:=E) pre (assign f) post).
Proof.
  intros Hf w Hw. unfold Send, assign, st_bind, st_get, st_modify, hook, st_gets, enqueue. cbn.
  by apply Hf.
Qed.

Lemma Send_mutator_frame {E} pre (m : Mutator) post :
  (forall now p p', m now p = Some p' -> J (plan_Status p) -> J (plan_Status p')) ->
  preserves (holds J) (Send (E:=E) pre m post).
Proof.
  intros Hm w Hw. unfold Send, st_bind, st_get. destruct (m (w_now w) (w_plan w)) eqn:E'; [|done].
  cbn. by apply (Hm _ _ _ E').
Qed.

(** A patch of annotations, finalizers or the spec. *)
Lemma patchAndPreserveStatus_frame f : (forall p, plan_Status (f p) = plan_Status p) ->
  preserves (holds J) (patchAndPreserveStatus f).
Proof.
  intros Hf w Hw. unfold patchAndPreserveStatus, st_bind, get_plan, st_gets, st_modify, api, st_lift.
  cbn. destruct (patch_plan _ _ _) as [ [p|e| |] c]; unfold holds in *; cbn; by rewrite Hf.
Qed.

Lemma modify_effective_frame {E} f : (forall p, J (plan_Status p) -> J (plan_Status (f p))) ->
  preserves (holds J) (modify_effective (E:=E) f).
Proof.
  intros Hf. apply preserves_modify. intros w Hw. destruct (w_effective w); [done|]. by apply Hf.
Qed.

Lemma Send_effective_frame {E} f post : (forall now s, J s -> J (f now s)) ->
  preserves (holds J) (Send_effective (E:=E) (assign f) post).
Proof.
  intros Hf w Hw. unfold Send_effective, st_bind, get_now, get_effective, st_gets, assign, modify_effective,
    st_modify, hook, enqueue. cbn.
  unfold st_modify, holds. cbn. destruct (w_effective w); cbn; [done|]. by apply Hf.
Qed.
End primitives.

Create HintDb frame.

(** Patches never touch the status. *)
Lemma status_del_annotation k p : plan_Status (del_annotation k p) = plan_Status p.
Proof. done. Qed.

Ltac frame_step :=
  lazymatch goal with
  | |- forall _, _ => intros
  | |- preserves _ (st_bind _ _) => apply preserves_bind
  | |- preserves _ (st_try _) => apply preserves_try
  | |- preserves _ (st_wrap _ _) => apply preserves_wrap
  | |- preserves _ (st_throw _) => apply preserves_throw
  | |- preserves _ (st_ret _) => apply preserves_ret
  | |- preserves _ st_panic => apply preserves_panic
  | |- preserves _ st_get => apply preserves_get
  | |- preserves _ (st_gets _) => apply preserves_gets
  | |- preserves _ (api _) => apply api_frame
  | |- preserves _ (restore _) => apply restore_frame
  | |- preserves _ (hook _) => apply hook_frame
  | |- preserves _ (st_modify _) => apply modify_frame; by intros; cbn
  | |- preserves _ (patchAndPreserveStatus _) => apply patchAndPreserveStatus_frame; by intros; cbn
  | |- preserves _ (Send _ (assign _) _) => apply Send_frame; by intros; eauto with frame
  | |- preserves _ (match ?x with _ => _ end) => destruct x eqn:?
  | |- preserves _ (let '(_, _) := ?x in _) => destruct x eqn:?
  | |- preserves _ _ => match goal with H : _ |- _ => simple apply H end
  end.
Ltac frame := repeat frame_step.

(** ** The helpers *)

Section helpers.
Context {HK : KubeApi} {HI : ExecutorInfra} {HJ : JSON} {HV : Validator}.
Context (J : HibernatePlanStatus -> Prop).
Context (J_executions : forall s l, J s -> J (set_st_Executions l s)).
Context (J_index : forall s i, J s -> J (set_st_CurrentStageIndex i s)).

Lemma getCurrentCycleJobs_frame plan : preserves (holds J) (getCurrentCycleJobs plan).
Proof. unfold getCurrentCycleJobs. frame. Qed.

Lemma getTerminationMessage_frame {E} job :
  preserves (holds J) (getTerminationMessageFromPod (E:=E) job).
Proof. unfold getTerminationMessageFromPod. frame. Qed.

Lemma observe_target_frame {E} plan jobs exec :
  preserves (holds J) (observe_target (E:=E) plan jobs exec).
Proof.
  unfold observe_target, observe_job, observe_missing, trackConsecutiveJobMiss, resetConsecutiveJobMiss.
  pose proof @getTerminationMessage_frame. frame.
Qed.

Lemma observe_all_frame {E} plan jobs execs :
  preserves (holds J) (observe_all (E:=E) plan jobs execs).
Proof.
  pose proof @observe_target_frame. induction execs; cbn [observe_all]; frame.
Qed.

Lemma updateExecutionStatuses_frame {E} jobs :
  preserves (holds J) (updateExecutionStatuses (E:=E) jobs).
Proof.
  unfold updateExecutionStatuses, get_effective.
  pose proof @observe_all_frame.
  assert (forall l, preserves (holds J) (modify_effective (E:=E) (on_status (set_st_Executions l)))).
  { intros l. apply modify_effective_frame. intros p. apply J_executions. }
  frame.
Qed.

Lemma awaitExecutionDrain_frame : preserves (holds J) awaitExecutionDrain.
Proof.
  unfold awaitExecutionDrain, get_plan. pose proof @updateExecutionStatuses_frame.
  pose proof @getCurrentCycleJobs_frame. frame.
Qed.

Lemma pruneTarget_frame t msg : preserves (holds J) (pruneTarget t msg).
Proof.
  unfold pruneTarget. apply preserves_bind; [|intros _].
  - apply modify_effective_frame. intros p. apply J_executions.
  - apply Send_effective_frame. intros _ s. apply J_executions.
Qed.

Lemma dispatch_loop_frame jobs op maxc running targets created :
  preserves (holds J) (dispatch_loop jobs op maxc running targets created).
Proof.
  pose proof pruneTarget_frame. revert created.
  induction targets as [|t targets IH]; intros created; cbn [dispatch_loop];
    unfold get_effective, createRunnerJob, get_now; frame.
Qed.

Lemma executeForStage_frame jobs stage op : preserves (holds J) (executeForStage jobs stage op).
Proof. unfold executeForStage. pose proof dispatch_loop_frame. frame. Qed.

Lemma nextStage_frame i : preserves (holds J) (nextStage i).
Proof. unfold nextStage. frame. Qed.

Lemma cycle_id_frame fresh plan : preserves (holds J) (cycle_id fresh plan).
Proof.
  unfold cycle_id, getExistingCycleIDForHibernation, new_cycle_id.
  assert (forall ns n l, preserves (holds J) (existing_cycle_id ns n l)).
  { intros ns n l. induction l; cbn [existing_cycle_id]; frame. }
  frame.
Qed.

Lemma consumeRestart_frame : preserves (holds J) consumeRestart.
Proof. unfold consumeRestart, failing_as, get_plan. frame. Qed.

Lemma consumeFresh_frame : preserves (holds J) consumeFresh.
Proof. unfold consumeFresh, failing_as, get_plan. frame. Qed.

Lemma cleanupSuspensionAnnotations_frame : preserves (holds J) cleanupSuspensionAnnotations.
Proof. unfold cleanupSuspensionAnnotations, non_fatal, get_plan. frame. Qed.

Lemma clearRetryAtAnnotation_frame : preserves (holds J) clearRetryAtAnnotation.
Proof. unfold clearRetryAtAnnotation, non_fatal, get_plan. frame. Qed.

Lemma relabelStaleFailedJobs_frame plan op : preserves (holds J) (relabelStaleFailedJobs plan op).
Proof.
  unfold relabelStaleFailedJobs, non_fatal.
  assert (forall l, preserves (holds J) (relabel_jobs l)).
  { intros l. induction l; cbn [relabel_jobs]; frame. }
  frame.
Qed.

Lemma postWakeupCleanup_frame : preserves (holds J) postWakeupCleanup.
Proof. unfold postWakeupCleanup, get_plan. frame. Qed.
End helpers.
