(* ===== verification/PhaseSpec.v ===== *)
(** * The phase machine

    The phases a handler can lead a plan to from the phase it is in, whatever the
    API server answers; what completion of an operation requires; which errors
    are plan errors. *)
From S2P Require Import Prelude Monad GoString GoTime Types Planner Recovery Cluster Restore.
From S2P Require Import World ExecutionUtils Execution Dispatch Handlers Timer Worker StateFrame.
From Stdlib Require Import Lia.

Local Open Scope Z_scope.

(** The edges of the machine. *)
Definition phase_edge (p q : PlanPhase) : bool :=
  bool_decide (p = q) ||
  match p, q with
  | PhaseActive, (PhaseHibernating | PhaseWakingUp | PhaseSuspended) => true
  | PhaseHibernating, (PhaseHibernated | PhaseError | PhaseSuspended) => true
  | PhaseHibernated, (PhaseWakingUp | PhaseHibernating | PhaseSuspended) => true
  | PhaseWakingUp, (PhaseActive | PhaseError | PhaseSuspended) => true
  | PhaseSuspended, (PhaseActive | PhaseHibernating | PhaseHibernated | PhaseWakingUp) => true
  | PhaseError, (PhaseHibernating | PhaseWakingUp | PhaseSuspended) => true
  | (PhaseUnset | PhasePending | PhaseOther _), PhaseSuspended => true
  | _, _ => false
  end.

Definition at_phase {HK : KubeApi} (p : PlanPhase) : World -> Prop := holds (fun s => st_Phase s = p).

(** Whether the operation is over, by the execution statuses. *)
Definition complete {HK : KubeApi} (w : World) : Prop := IsOperationComplete (w_plan w) = true.

(** ** Errors *)

Definition errs {S E A} (X : E -> Prop) (m : ST S E A) : Prop :=
  forall s, match (m s).1 with Err e => X e | _ => True end.

Section errs.
Context {S E : Type} (X : E -> Prop).

Lemma errs_bind {A B} (m : ST S E A) (k : A -> ST S E B) :
  errs X m -> (forall a, errs X (k a)) -> errs X (st_bind m k).
Proof.
  intros Hm Hk s. specialize (Hm s). unfold st_bind. destruct (m s) as [ [a|e| |] s']; try done.
  apply Hk.
Qed.

Lemma errs_try {E' A} (m : ST S E' A) : errs X (st_try m).
Proof. intros s. unfold st_try. by destruct (m s) as [ [a|e| |] s']. Qed.

Lemma errs_wrap {E' A} (f : E' -> E) (m : ST S E' A) : (forall e, X (f e)) -> errs X (st_wrap f m).
Proof. intros H s. unfold st_wrap. destruct (m s) as [ [a|e| |] s']; try done. apply H. Qed.

Lemma errs_throw {A} (e : E) : X e -> errs X (st_throw (S:=S) (A:=A) e).
Proof. by intros H s. Qed.
End errs.

Lemma errs_Send {HK : KubeApi} {E} (X : E -> Prop) pre m post : errs X (Send pre m post).
Proof. intros w. unfold Send, st_bind, st_get. by destruct (m _ _). Qed.

Ltac errs_step :=
  lazymatch goal with
  | |- forall _, _ => intros
  | |- errs _ (st_bind _ _) => apply errs_bind
  | |- errs _ (st_try _) => apply errs_try
  | |- errs _ (st_wrap _ _) => apply errs_wrap; by intros
  | |- errs _ (st_throw _) => apply errs_throw; reflexivity
  | |- errs _ (Send _ _ _) => apply errs_Send
  | |- errs _ (st_ret _) => by intros ?
  | |- errs _ st_panic => by intros ?
  | |- errs _ st_get => by intros ?
  | |- errs _ (st_gets _) => by intros ?
  | |- errs _ (st_modify _) => by intros ?
  | |- errs _ (match ?x with _ => _ end) => destruct x eqn:?
  | |- errs _ _ => match goal with H : _ |- _ => simple apply H end
  end.
Ltac errs := repeat errs_step.

Lemma errs_observe {HK : KubeApi} {E} (X : E -> Prop) jobs : errs X (updateExecutionStatuses jobs).
Proof.
  assert (forall plan exec, errs X (observe_target plan jobs exec)) as Ht.
  { unfold observe_target, observe_job, observe_missing, getTerminationMessageFromPod,
      trackConsecutiveJobMiss, resetConsecutiveJobMiss. errs. }
  assert (forall plan execs, errs X (observe_all plan jobs execs)) as Ha.
  { intros plan execs. induction execs; cbn [observe_all]; errs. }
  unfold updateExecutionStatuses, get_effective, modify_effective. errs.
Qed.

(** ** Triples of the transitions *)

Section transitions.
Context {HK : KubeApi} {HKL : KubeLaws} {HI : ExecutorInfra} {HJ : JSON} {HV : Validator}.

Lemma phase_ignores_executions p : forall s l, st_Phase s = p -> st_Phase (set_st_Executions l s) = p.
Proof. done. Qed.
Lemma phase_ignores_index p : forall s i, st_Phase s = p -> st_Phase (set_st_CurrentStageIndex i s) = p.
Proof. done. Qed.

(** A step that leaves the phase, and one that sets it. *)
Lemma keep_phase {E A B} p (m : ST World E A) (k : A -> ST World E B) Q (X : E -> World -> Prop) :
  preserves (at_phase p) m -> (forall e w, at_phase p w -> X e w) ->
  (forall a, hoare (at_phase p) (k a) Q X) -> hoare (at_phase p) (st_bind m k) Q X.
Proof.
  intros Hm HX Hk. apply (hoare_bind (fun _ => at_phase p)); [|done].
  eapply hoare_conseq; [apply hoare_preserves, Hm|..]; eauto.
Qed.

Lemma Send_phase {E} p q pre f post (X : E -> World -> Prop) :
  (forall now s, st_Phase (f now s) = q) ->
  hoare (at_phase p) (Send pre (assign f) post) (fun _ => at_phase q) X.
Proof. intros Hf w Hw. unfold Send, assign, st_bind. cbn. apply Hf. Qed.

(** What a handler that only sends one transition guarantees. *)
Definition leads {A} (p : PlanPhase) (m : HM A) (q : PlanPhase) : Prop :=
  hoare (at_phase p) m (fun _ => at_phase q) (fun _ => at_phase p).

Lemma transitionToHibernating_leads p fresh : leads p (transitionToHibernating fresh) PhaseHibernating.
Proof.
  unfold transitionToHibernating, leads, get_plan. apply keep_phase; [apply preserves_gets|done|]. intros plan.
  apply keep_phase; [apply cycle_id_frame|done|]. intros cycleID.
  apply keep_phase; [apply preserves_get|done|]. intros w.
  apply (hoare_bind (fun _ => at_phase PhaseHibernating)); [|by intros _ w' Hw'].
  apply Send_phase. intros now s. unfold start_hibernating. by destruct (_ =? _)%string.
Qed.

Lemma transitionToWakingUp_leads p : leads p transitionToWakingUp PhaseWakingUp.
Proof.
  unfold transitionToWakingUp, leads, get_plan, get_now. apply keep_phase; [apply preserves_gets|done|]. intros plan.
  apply keep_phase; [apply preserves_gets|done|]. intros now.
  apply (hoare_bind (fun _ => at_phase PhaseWakingUp)); [|by intros _ w' Hw'].
  by apply Send_phase.
Qed.

Lemma performSuspension_leads p : leads p performSuspension PhaseSuspended.
Proof.
  unfold performSuspension, leads, get_plan, failing_as. apply keep_phase; [apply preserves_gets|done|]. intros plan.
  apply keep_phase; [by frame|done|]. intros _.
  apply (hoare_bind (fun _ => at_phase PhaseSuspended)); [|by intros _ w' Hw'].
  by apply Send_phase.
Qed.

(** What is best effort does not fail. *)
Lemma postWakeupCleanup_fails_not : errs (fun _ => False) postWakeupCleanup.
Proof. unfold postWakeupCleanup, get_plan. errs. Qed.

Lemma cleanupSuspensionAnnotations_fails_not : errs (fun _ => False) cleanupSuspensionAnnotations.
Proof. unfold cleanupSuspensionAnnotations, non_fatal, get_plan. errs. Qed.

(** Reading the state, and the plan. *)
Lemma hoare_get_phase {E B} p (k : World -> ST World E B) Q X :
  (forall w, plan_Phase (w_plan w) = p -> hoare (at_phase p) (k w) Q X) ->
  hoare (at_phase p) (st_bind st_get k) Q X.
Proof.
  intros H. apply hoare_get. intros w Hw. eapply hoare_conseq; [apply (H w Hw)|by intros w' ->|done|done].
Qed.

Lemma hoare_get_plan {E B} p (k : HibernatePlan -> ST World E B) Q X :
  (forall plan, plan_Phase plan = p -> hoare (at_phase p) (k plan) Q X) ->
  hoare (at_phase p) (st_bind get_plan k) Q X.
Proof.
  intros H. apply hoare_gets. intros plan.
  intros w [Hw Hp]. apply (H plan); [by rewrite <- Hp|done].
Qed.

(** A handler that follows the edges of the machine. *)
Definition edges {A} (p : PlanPhase) (m : HM A) : Prop :=
  hoare (at_phase p) m (fun _ w => phase_edge p (plan_Phase (w_plan w)) = true) (fun _ => at_phase p).

Lemma leads_edges {A} p q (m : HM A) : leads p m q -> phase_edge p q = true -> edges p m.
Proof. intros Hm Hq. eapply hoare_conseq; [apply Hm|done|..|done]. by intros a w <-. Qed.

Lemma edge_refl p : phase_edge p p = true.
Proof. unfold phase_edge. by rewrite bool_decide_eq_true_2. Qed.

Lemma keeps_edges {A} p (m : HM A) : preserves (at_phase p) m -> edges p m.
Proof.
  intros Hm. eapply hoare_conseq; [apply hoare_preserves, Hm|done|..|done].
  intros a w <-. apply edge_refl.
Qed.

Lemma edges_ret {A} p (a : A) : edges p (st_ret a).
Proof. apply keeps_edges, preserves_ret. Qed.

Lemma edges_keep {A B} p (m : HM A) (k : A -> HM B) :
  preserves (at_phase p) m -> (forall a, edges p (k a)) -> edges p (st_bind m k).
Proof. intros Hm Hk. by apply keep_phase. Qed.

(** A result that is returned after a step that follows an edge. *)
Lemma edges_then {A B} p (m : HM A) (b : B) : edges p m -> edges p (do! m in st_ret b).
Proof. intros Hm. eapply hoare_bind; [apply Hm|]. intros ?. by apply hoare_ret. Qed.

(** ** The handlers *)

Lemma idle_edges p : edges p idle_Handle.
Proof.
  apply hoare_get_phase. intros w Hp. rewrite Hp. clear Hp. pose proof (edges_ret p quiet).
  destruct (w_schedule w) as [b|]; [|done]. destruct p; try done.
  - destruct b; [|done]. by eapply leads_edges; [apply transitionToHibernating_leads|].
  - destruct (_ && _); [|done]. by eapply leads_edges; [apply transitionToWakingUp_leads|].
Qed.

Lemma restart_edges p : edges p restart_Handle.
Proof.
  apply hoare_get_plan. intros plan _. apply edges_keep; [unfold failing_as; by frame|]. intros _.
  apply hoare_get_phase. intros w Hp. rewrite Hp. clear Hp. pose proof (edges_ret p quiet).
  destruct (st_CurrentOperation _); try done.
  - destruct (bool_decide _) eqn:E; [|done]. reflect. subst p.
    by eapply leads_edges; [apply transitionToHibernating_leads|].
  - destruct (bool_decide _) eqn:E; [|done]. reflect. subst p. destruct (w_hasRestoreData w); [|done]. cbn [andb].
    by eapply leads_edges; [apply transitionToWakingUp_leads|].
Qed.

Lemma override_edges p : edges p override_Handle.
Proof.
  apply hoare_get_phase. intros w Hp. cbv zeta. rewrite Hp. clear Hp.
  set (res := initStateResult _ _). pose proof (edges_ret p res) as Hres.
  assert (forall b, phase_edge p PhaseHibernating = true ->
    edges p (do! consumeFresh in transitionToHibernating b)) as Hh.
  { intros b Hq. apply edges_keep; [apply consumeFresh_frame|]. intros _.
    by eapply leads_edges; [apply transitionToHibernating_leads|]. }
  assert (phase_edge p PhaseWakingUp = true -> edges p (do! consumeFresh in transitionToWakingUp)) as Hw.
  { intros Hq. apply edges_keep; [apply consumeFresh_frame|]. intros _.
    by eapply leads_edges; [apply transitionToWakingUp_leads|]. }
  destruct (_ =? _)%string; [|destruct (_ =? _)%string; [|done] ]; destruct p; try done;
    try (apply edges_keep; [apply consumeRestart_frame|intros restart; destruct restart]);
    try destruct (w_hasRestoreData w); cbn [andb]; try done; first [by apply Hh|by apply Hw].
Qed.

Lemma preSuspension_edges p : phase_edge p PhaseSuspended = true -> edges p preSuspension_Handle.
Proof.
  intros Hp. assert (edges p performSuspension) as Hs by (eapply leads_edges; [apply performSuspension_leads|done]).
  apply hoare_get_plan. intros plan _. destruct (executing_phase _); [|done].
  apply edges_keep; [by apply awaitExecutionDrain_frame|]. intros [r|]; [apply edges_ret|done].
Qed.

Lemma resume_edges : edges PhaseSuspended resume.
Proof.
  apply hoare_get_phase. intros w _.
  apply (hoare_bind (fun _ w' => exists q, at_phase q w' /\ phase_edge PhaseSuspended q = true)).
  - assert (forall q f, (forall now s, st_Phase (f now s) = q) -> phase_edge PhaseSuspended q = true ->
      hoare (at_phase PhaseSuspended) (Send (E:=goerr) [] (assign f) [])
        (fun _ w' => exists q, at_phase q w' /\ phase_edge PhaseSuspended q = true) (fun _ => at_phase PhaseSuspended)) as Hs.
    { intros q f Hf Hq. eapply hoare_conseq; [by apply (Send_phase PhaseSuspended q [] f [] (fun _ => at_phase PhaseSuspended))|done| |done].
      intros a w' Hw'. by exists q. }
    unfold take_route, resume_decision, resumeFromError, resumeFromExecution, get_now.
    destruct (_ =? _)%string; [|destruct (_ =? _)%string; [|destruct (_ =? _)%string] ];
      repeat match goal with |- context [match w_schedule w with _ => _ end] => destruct (w_schedule w) as [ []|] end;
      try destruct (shouldForceWakeUpOnResume _ _ _); try destruct (bool_decide _);
      try lazymatch goal with
          | |- hoare _ (st_bind _ _) _ _ => apply keep_phase; [apply preserves_gets|done|intros now]
          end;
      first [eapply Hs; [intros; cbn; reflexivity|reflexivity]
            |by apply hoare_modify; intros w' Hw'; exists PhaseHibernated].
  - intros _. intros w' (q & Hq & Hedge).
    pose proof (cleanupSuspensionAnnotations_frame (fun s => st_Phase s = q) w' Hq) as Hc.
    unfold st_bind. destruct (cleanupSuspensionAnnotations w') as [ [a|e| |] w''] eqn:E; try done.
    + cbn in Hc |- *. unfold plan_Phase. by rewrite Hc.
    + pose proof (cleanupSuspensionAnnotations_fails_not w') as Hn. by rewrite E in Hn.
Qed.

Lemma stay_or_resume_edges : edges PhaseSuspended stay_or_resume.
Proof.
  apply hoare_get_plan. intros plan _. destruct (spec_Suspend _); [apply edges_ret|apply resume_edges].
Qed.

Lemma suspended_edges : edges PhaseSuspended suspended_Handle.
Proof.
  apply hoare_get_phase. intros w _. pose proof stay_or_resume_edges.
  destruct (_ !! _) as [s|]; [|done]. destruct (parse_RFC3339 s) as [d|].
  - destruct (negb _); [apply edges_ret|]. apply edges_keep; [|done]. unfold returning. by frame.
  - apply keeps_edges, preserves_throw.
Qed.

Lemma suspended_OnDeadline_edges : edges PhaseSuspended suspended_OnDeadline.
Proof. apply edges_keep; [unfold returning; by frame|]. intros _. apply resume_edges. Qed.

Lemma override_OnDeadline_edges p : edges p override_OnDeadline.
Proof. apply edges_keep; [unfold returning; by frame|]. intros _. apply edges_ret. Qed.

Lemma handleManualRetry_frame p : preserves (at_phase p) handleManualRetry.
Proof. unfold handleManualRetry, get_plan. frame. Qed.

(** The recovery of a plan resumes its operation, or stays. *)
Lemma handleRetry_edges lastErr : edges PhaseError (handleRetry lastErr).
Proof.
  apply hoare_get_phase. intros w _. cbv zeta.
  destruct (buildExecutionPlan _ _) as [xp|e| |]; try done; [|by apply keeps_edges, preserves_throw].
  apply edges_keep; [apply relabelStaleFailedJobs_frame|]. intros _. apply edges_then.
  intros w' Hw'. unfold Send, st_bind, st_get.
  destruct (retry_mutator _ _ _ _ _ _) as [p|] eqn:E; [|done]. cbn.
  unfold retry_mutator in E. destruct (RecordRetryAttempt _ _ _) as [p' b] eqn:Er.
  assert (plan_Phase p' = PhaseError) as Hp'.
  { unfold RecordRetryAttempt in Er. unfold at_phase, holds in Hw'.
    destruct (match st_LastRetryTime _ with Some _ => _ | None => _ end); by simplify_eq/=. }
  destruct b; [|by simplify_eq/=; rewrite Hp'; apply edge_refl].
  destruct (slice_at _ _); [|done]. simplify_eq/=. unfold plan_Phase. cbn.
  unfold retry_phase. by destruct (bool_decide _).
Qed.

Lemma recovery_edges : edges PhaseError recovery_Handle.
Proof.
  apply hoare_get_plan. intros plan _. unfold get_now. apply edges_keep; [apply preserves_gets|]. intros now.
  cbv zeta. destruct (negb _).
  - apply edges_keep; [apply handleManualRetry_frame|]. intros [r|]; apply edges_ret.
  - destruct (_ <? _); [apply edges_ret|].
    apply edges_keep; [apply clearRetryAtAnnotation_frame|]. intros _. apply handleRetry_edges.
Qed.

(** ** Stage execution *)

(** An operation ends only when each of its targets has. *)
Definition ends {A} (p q : PlanPhase) (m : HM A) : Prop :=
  hoare (at_phase p) m (fun _ w => at_phase p w \/ at_phase q w /\ complete w) (fun _ => at_phase p).

Lemma ends_edges {A} p q (m : HM A) : ends p q m -> phase_edge p q = true -> edges p m.
Proof.
  intros Hm Hq. eapply hoare_conseq; [apply Hm|done| |done].
  intros a w [Hw | [Hw _] ]; unfold at_phase, holds in Hw; unfold plan_Phase; rewrite Hw; [apply edge_refl|done].
Qed.

Lemma ends_keep {A B} p q (m : HM A) (k : A -> HM B) :
  preserves (at_phase p) m -> (forall a, ends p q (k a)) -> ends p q (st_bind m k).
Proof. intros Hm Hk. by apply keep_phase. Qed.

Lemma ends_stay {A} p q (m : HM A) : preserves (at_phase p) m -> ends p q m.
Proof.
  intros Hm. eapply hoare_conseq; [apply hoare_preserves, Hm|done| |done]. intros a w Hw. by left.
Qed.

Lemma ends_then {A B} p q (m : HM A) (b : B) : ends p q m -> ends p q (do! m in st_ret b).
Proof. intros Hm. eapply hoare_bind; [apply Hm|]. intros a. by apply hoare_ret. Qed.

Lemma complete_operation_ends p op q (plan : HibernatePlan) :
  hoare (fun w => at_phase p w /\ complete w) (complete_operation op q)
    (fun _ w => at_phase q w /\ complete w) (fun _ => at_phase p).
Proof. intros w [Hw Hc]. split; [done|]. apply Hc. Qed.

Lemma hibernating_finalize_ends p : ends p PhaseHibernated hibernating_finalize.
Proof.
  intros w Hw. unfold hibernating_finalize, get_plan, st_bind, st_gets.
  destruct (IsOperationComplete (w_plan w)) eqn:Hc; [|by left]. by right.
Qed.

Lemma wakingup_finalize_ends p : ends p PhaseActive wakingup_finalize.
Proof.
  intros w Hw. unfold wakingup_finalize. unfold get_plan. unfold st_bind at 1, st_gets at 1.
  destruct (IsOperationComplete (w_plan w)) eqn:Hc; [|by left].
  unfold st_bind at 1.
  pose proof (complete_operation_ends p OperationWakeUp PhaseActive (w_plan w) w (conj Hw Hc)) as Hco.
  destruct (complete_operation _ _ w) as [ [a|e| |] w'] eqn:E; try done.
  set (J := fun s => st_Phase s = PhaseActive /\ forallb (fun e => terminal_state (exec_State e)) (st_Executions s) = true).
  pose proof (postWakeupCleanup_frame J w' Hco) as Hk.
  destruct (postWakeupCleanup w') as [ [b|e'| |] w''] eqn:E2; try done.
  - right. exact Hk.
  - pose proof (postWakeupCleanup_fails_not w') as Hn. by rewrite E2 in Hn.
Qed.

Lemma execute_ends p q op reverse onFinalize :
  ends p q onFinalize -> ends p q (execute op reverse onFinalize).
Proof.
  intros Hf. assert (forall jobs stage, ends p q (executeForStage jobs stage op)) as Hx.
  { intros jobs stage. by apply ends_stay, executeForStage_frame. }
  assert (forall A (l : list A) i k, (forall x, ends p q (k x)) ->
    ends (A:=StateResult) p q (let! x := slice_get l i in k x)) as Hs.
  { intros A l i k Hk. unfold slice_get. apply ends_keep; [|done]. by frame. }
  unfold execute, returning, get_effective. apply ends_keep; [by frame|]. intros _.
  apply ends_keep; [by frame|]. intros plan. apply ends_keep; [frame; apply getCurrentCycleJobs_frame|]. intros jobs.
  apply ends_keep; [by apply updateExecutionStatuses_frame|]. intros _.
  apply ends_keep; [by frame|]. intros w. apply ends_keep; [by unfold get_effective; frame|]. intros plan'.
  destruct (if _ =? 0 then _ else None); [by apply ends_stay; frame|].
  destruct (buildExecutionPlan _ _) as [xp|e| |]; try by (apply ends_stay; frame).
  unfold execute_stage. apply ends_keep; [by unfold get_effective; frame|]. intros plan''. cbv zeta.
  destruct (_ <=? _); [by apply ends_then|]. apply Hs. intros stage.
  destruct (AllTerminal _); [|destruct (HasPending _); [done|by apply ends_stay; frame] ].
  destruct (_ && _); [by apply ends_stay; frame|]. destruct (_ <? _); [|by apply ends_then].
  apply ends_keep; [by apply nextStage_frame|]. intros _. by apply Hs.
Qed.

Lemma hibernating_ends p : ends p PhaseHibernated hibernating_Handle.
Proof.
  unfold hibernating_Handle, get_plan. apply ends_keep; [by frame|]. intros plan.
  destruct (bool_decide _); [apply execute_ends, hibernating_finalize_ends|by apply ends_stay; frame].
Qed.

Lemma wakingup_ends p : ends p PhaseActive wakingup_Handle.
Proof.
  unfold wakingup_Handle, get_plan. apply ends_keep; [by frame|]. intros plan.
  destruct (bool_decide _); [apply execute_ends, wakingup_finalize_ends|by apply ends_stay; frame].
Qed.

(** ** Calls of handlers *)

Definition executing_handler (h : Handler) : bool :=
  match h with hibernatingState | wakingUpState => true | _ => false end.

Lemma transitionToHibernating_plain fresh : errs plain_error (transitionToHibernating fresh).
Proof.
  unfold transitionToHibernating, cycle_id, getExistingCycleIDForHibernation, new_cycle_id, get_plan.
  assert (forall ns n l, errs plain_error (existing_cycle_id ns n l)).
  { intros ns n l. induction l; cbn [existing_cycle_id]; errs. }
  errs.
Qed.

Lemma transitionToWakingUp_plain : errs plain_error transitionToWakingUp.
Proof. unfold transitionToWakingUp, get_plan, get_now. errs. Qed.

Lemma performSuspension_plain : errs plain_error performSuspension.
Proof. unfold performSuspension, failing_as, get_plan. errs. Qed.

Lemma resume_plain : errs plain_error resume.
Proof.
  unfold resume, take_route, cleanupSuspensionAnnotations, non_fatal, get_plan, resumeFromError, resumeFromExecution,
    forceWakeUpOnResume, get_now. errs.
Qed.

Lemma ignoring_not_found_plain m : errs plain_error (ignoring_not_found m).
Proof. unfold ignoring_not_found. errs. Qed.

Lemma buildExecutionPlan_plain plan reverse e : buildExecutionPlan plan reverse = Err e -> plain_error e.
Proof.
  unfold buildExecutionPlan, res_map_err. destruct (strat_Type _); try done; intros H; [|by simplify_eq].
  match type of H with match ?x with _ => _ end = _ => destruct x end; by simplify_eq.
Qed.

(** Only the execution of stages fails with plan errors. *)
Lemma handler_errors_plain h (onDeadline : bool) :
  executing_handler h = false -> errs plain_error (invoke h onDeadline).
Proof.
  pose proof transitionToHibernating_plain. pose proof transitionToWakingUp_plain.
  pose proof performSuspension_plain. pose proof resume_plain. pose proof ignoring_not_found_plain.
  pose proof (fun jobs => errs_observe plain_error jobs).
  intros Hh. destruct onDeadline; destruct h as [ [] | | | | | | | |]; try done; cbn [invoke OnDeadline Handle].
  all: unfold override_OnDeadline, suspended_OnDeadline, handleDelete, lifecycle_handle, preSuspension_Handle,
    awaitExecutionDrain, idle_Handle, restart_Handle, override_Handle, consumeRestart, consumeFresh,
    suspended_Handle, stay_or_resume, recovery_Handle, handleManualRetry, clearRetryAtAnnotation, handleRetry,
    relabelStaleFailedJobs, non_fatal, returning, failing_as, get_plan, get_now.
  all: errs.
  all: try (match goal with |- errs _ (st_iter _ ?l) => induction l; cbn [st_iter] end; errs).
  all: by apply errs_throw; eapply buildExecutionPlan_plain.
Qed.

(** The selected handler, in the phase it is selected for. *)
Lemma selected_handler_edges w h (onDeadline : bool) :
  selectHandler (w_now w) (w_plan w) = Some h -> (forall d, h <> lifecycleState d) ->
  edges (plan_Phase (w_plan w)) (invoke h onDeadline).
Proof.
  assert (forall p, phase_edge p PhaseSuspended = true) as Hsusp by (by intros []).
  intros Hsel Hh. unfold selectHandler, runPrePhaseGates, deletionGate, suspensionGate, checkAutoSuspendAnnotation in Hsel.
  destruct (plan_Deleting _); [simplify_eq; by exfalso; eapply Hh|].
  assert (h = preSuspensionState \/ phase_handler (w_plan w) = Some h) as Hc.
  { repeat case_match; simplify_eq; auto. }
  clear Hsel. destruct Hc as [->|Hc].
  { destruct onDeadline; [by eapply leads_edges; [apply performSuspension_leads|]|by apply preSuspension_edges]. }
  unfold phase_handler, selectIdleHandler in Hc.
  pose proof (edges_ret (plan_Phase (w_plan w)) quiet) as Hq.
  destruct onDeadline; destruct (plan_Phase (w_plan w)) eqn:Hp; repeat case_match; simplify_eq;
    try (by exfalso; eapply Hh); cbn [invoke OnDeadline Handle]; try done;
    eauto using override_OnDeadline_edges, override_edges, restart_edges, idle_edges, suspended_edges,
      suspended_OnDeadline_edges, recovery_edges.
  - by eapply ends_edges; [apply hibernating_ends|].
  - by eapply ends_edges; [apply wakingup_ends|].
Qed.

Lemma preSuspension_phases p (onDeadline : bool) :
  hoare (at_phase p) (invoke preSuspensionState onDeadline)
    (fun _ w => at_phase p w \/ at_phase PhaseSuspended w) (fun _ => at_phase p).
Proof.
  assert (hoare (at_phase p) performSuspension
    (fun _ w => at_phase p w \/ at_phase PhaseSuspended w) (fun _ => at_phase p)) as Hs.
  { eapply hoare_conseq; [apply performSuspension_leads|done| |done]. by right. }
  destruct onDeadline; cbn [invoke OnDeadline Handle]; [done|].
  apply hoare_get_plan. intros plan _. destruct (executing_phase _); [|done].
  apply keep_phase; [by apply awaitExecutionDrain_frame|done|]. intros [r|]; [|done].
  apply hoare_ret. by left.
Qed.

(** The end of an operation, for the handlers of its phase. *)
Definition finished (p q : PlanPhase) (w : World) : Prop :=
  p = PhaseHibernating /\ q = PhaseHibernated \/ p = PhaseWakingUp /\ q = PhaseActive -> complete w.

Lemma selected_handler_finishes w h (onDeadline : bool) :
  selectHandler (w_now w) (w_plan w) = Some h -> executing_phase (plan_Phase (w_plan w)) = true ->
  (forall d, h <> lifecycleState d) ->
  hoare (at_phase (plan_Phase (w_plan w))) (invoke h onDeadline)
    (fun _ w' => finished (plan_Phase (w_plan w)) (plan_Phase (w_plan w')) w')
    (fun _ => at_phase (plan_Phase (w_plan w))).
Proof.
  intros Hsel Hx Hh.
  assert (h = preSuspensionState \/ phase_handler (w_plan w) = Some h) as Hc.
  { unfold selectHandler, runPrePhaseGates, deletionGate, suspensionGate, checkAutoSuspendAnnotation in Hsel.
    repeat case_match; simplify_eq; auto; by exfalso; eapply Hh. }
  clear Hsel. destruct Hc as [->|Hc].
  - eapply hoare_conseq; [apply (preSuspension_phases (plan_Phase (w_plan w)))|done| |done].
    intros r w' Hp Hf. unfold plan_Phase in *. exfalso.
    destruct Hp as [Hp|Hp]; unfold at_phase, holds in Hp; rewrite Hp in Hf; destruct Hf as [ []|[] ]; congruence.
  - unfold phase_handler in Hc.
    destruct (plan_Phase (w_plan w)) eqn:Hp; try done; simplify_eq; cbn [invoke OnDeadline Handle]; destruct onDeadline.
    1,3: apply hoare_ret; intros s Hs Hf; unfold plan_Phase in Hf; rewrite Hs in Hf; by destruct Hf as [ []|[] ].
    + eapply hoare_conseq; [apply hibernating_ends|done| |done].
      intros r w' [Hw|[ _ Hw] ] Hf; [|done]. unfold plan_Phase in Hf. rewrite Hw in Hf. by destruct Hf as [ []|[] ].
    + eapply hoare_conseq; [apply wakingup_ends|done| |done].
      intros r w' [Hw|[ _ Hw] ] Hf; [|done]. unfold plan_Phase in Hf. rewrite Hw in Hf. by destruct Hf as [ []|[] ].
Qed.

(** [OnError] leaves the phase, or sets [PhaseError] for a plan error. *)
Lemma handler_OnError_phase h err p w r w' :
  at_phase p w -> handler_OnError h err w = (Ok r, w') ->
  plan_Phase (w_plan w') = if ge_plan err then PhaseError else p.
Proof.
  assert (forall w, at_phase p w -> OnError err w = (Ok r, w') ->
    plan_Phase (w_plan w') = if ge_plan err then PhaseError else p) as HO.
  { clear w. intros w Hw. unfold OnError. destruct (ge_plan err).
    - unfold setError, get_plan, Send, assign, st_bind. cbn. intros [= _ <-]. done.
    - intros [= _ <-]. exact Hw. }
  assert (forall op w, at_phase p w -> execution_OnError op err w = (Ok r, w') ->
    plan_Phase (w_plan w') = if ge_plan err then PhaseError else p) as HX.
  { clear w. intros op w Hw. unfold execution_OnError, get_plan. unfold st_bind at 1, st_gets at 1.
    destruct (_ && _); [|by apply HO]. unfold st_bind at 1.
    destruct (Send _ _ _ w) as [ [a|e| |] w1] eqn:E; try done. apply HO.
    pose proof (Send_frame (fun s => st_Phase s = p) (E:=Empty_set) []
      (fun _ => record_history (set_summary op) (BuildOperationSummary (w_plan w) op)
         (st_CurrentCycleID (plan_Status (w_plan w)))) [] (fun _ s Hs => Hs) w Hw) as Hk.
    by rewrite E in Hk. }
  intros Hw. destruct h; cbn [handler_OnError]; eauto.
Qed.

(** *** The lifecycle handlers

    Their plain patches replace the cached status by the one of the server. *)
Section lifecycle.
Context (w0 : World).

Definition untouched (w : World) : Prop :=
  plan_Status (w_plan w) = plan_Status (w_plan w0) /\ cl_plan (w_cluster w) = cl_plan (w_cluster w0).

(** The phase is the one before, or that of the plan that is stored. *)
Definition known_to_server (w : World) : Prop :=
  plan_Phase (w_plan w) = plan_Phase (w_plan w0) \/
  exists p, cl_plan (w_cluster w0) = Some p /\ plan_Phase (w_plan w) = plan_Phase p.

Lemma untouched_known w : untouched w -> known_to_server w.
Proof. intros [H _]. left. unfold plan_Phase. by rewrite H. Qed.

Lemma asked_untouched {A} (q : Request A) :
  (forall r b a, plan_after q r b a -> a = b) -> preserves untouched (api (ask q)).
Proof.
  intros Hq w [Hs Hc]. unfold api, st_lift. pose proof (serve_plan q (w_cluster w)) as Hp. apply Hq in Hp.
  unfold ask. destruct (serve q (w_cluster w)) as [ [e|x] c]; (split; [done|]); cbn in *; congruence.
Qed.

Lemma patch_known f : (forall p, plan_Status (f p) = plan_Status p) ->
  hoare untouched (patch_object f) (fun _ => known_to_server) (fun _ => known_to_server).
Proof.
  intros Hf w [Hs Hc]. unfold patch_object, st_bind, get_plan, st_gets, st_modify, api, st_lift. cbn.
  destruct (patch_plan _ _ _) as [ [p|e| |] c] eqn:E; cbn; try done.
  - apply patch_plan_ok in E as (s & Hcl & _ & Hd). right. exists s. rewrite <- Hc. split; [done|].
    unfold plan_Phase. cbn. by rewrite (patched_Status _ _ _ _ Hd).
  - left. unfold plan_Phase. cbn. by rewrite Hf, Hs.
Qed.

Lemma known_stays {A} (m : HM A) :
  preserves untouched m -> hoare untouched m (fun _ => untouched) (fun _ => known_to_server).
Proof. intros H. eapply hoare_conseq; [apply hoare_preserves, H|done|done|]. intros e w Hw. by apply untouched_known. Qed.

Lemma handleDelete_known : hoare untouched handleDelete (fun _ => known_to_server) (fun _ => known_to_server).
Proof.
  assert (forall A (m : ST World ApiError A), preserves untouched m -> preserves untouched (returning m)) as Hr
    by (intros; by apply preserves_wrap).
  unfold handleDelete, get_plan. apply (hoare_bind (fun _ => untouched)); [apply known_stays, preserves_gets|]. intros plan.
  apply (hoare_bind (fun _ => untouched)); [apply known_stays, Hr, asked_untouched; by intros|]. intros jobs.
  apply (hoare_bind (fun _ => untouched)).
  { apply known_stays, preserves_iter. intros job _. unfold ignoring_not_found. apply preserves_bind.
    - apply preserves_try, asked_untouched. by intros.
    - intros [ []|]; first [apply preserves_ret|apply preserves_throw]. }
  intros _. apply (hoare_bind (fun _ => known_to_server)).
  - destruct (has_finalizer plan).
    + unfold ignoring_not_found. apply (hoare_bind (fun _ => known_to_server)).
      * apply (hoare_try _ _ (fun _ => known_to_server)). by apply patch_known.
      * intros [ []|]; first [by apply hoare_ret|by apply hoare_throw].
    + apply hoare_ret. intros w. apply untouched_known.
  - intros _. apply (hoare_bind (fun _ => known_to_server)); [by apply hoare_modify|]. intros _. by apply hoare_ret.
Qed.

Lemma lifecycle_known : hoare untouched lifecycle_handle
  (fun _ w => known_to_server w \/ plan_Phase (w_plan w) = PhaseActive)
  (fun _ => known_to_server).
Proof.
  unfold lifecycle_handle, get_plan. apply (hoare_bind (fun _ => untouched)); [apply known_stays, preserves_gets|]. intros plan.
  apply (hoare_bind (fun _ => known_to_server)).
  - destruct (has_finalizer plan); [apply hoare_ret; intros w; apply untouched_known|].
    unfold returning. apply hoare_wrap. by apply patch_known.
  - intros _. apply hoare_gets. intros plan'. apply (hoare_pre _ _ known_to_server); [|by intros w [Hw _] ].
    destruct (bool_decide _); [|apply hoare_ret; by left].
    apply (hoare_bind (fun _ w => plan_Phase (w_plan w) = PhaseActive)); [by intros w _|]. intros _.
    apply (hoare_bind (fun _ w => plan_Phase (w_plan w) = PhaseActive)); [|intros _; apply hoare_ret; by right].
    unfold non_fatal. intros w Hw.
    pose proof (restore_frame (fun s => st_Phase s = PhaseActive) (PrepareRestorePoint (plan_Namespace plan') (plan_Name plan')) w Hw) as H.
    unfold st_bind, st_try. by destruct (restore _ w) as [ [ []|e| |] w'].
Qed.
End lifecycle.

(** What the call of a handler may do to the phase. *)
Definition allowed_phase (h : Handler) (w w' : World) : Prop :=
  match h with
  | lifecycleState delete =>
      known_to_server w w' \/ delete = false /\ plan_Phase (w_plan w') = PhaseActive
  | _ => phase_edge (plan_Phase (w_plan w)) (plan_Phase (w_plan w')) = true /\
         finished (plan_Phase (w_plan w)) (plan_Phase (w_plan w')) w'
  end.

Lemma lifecycle_phases d w onDeadline r w' :
  call_handler (lifecycleState d) onDeadline w = (Ok r, w') -> allowed_phase (lifecycleState d) w w'.
Proof.
  assert (hoare (untouched w) (invoke (lifecycleState d) onDeadline)
    (fun _ w' => allowed_phase (lifecycleState d) w w') (fun _ => known_to_server w)) as H.
  { destruct onDeadline; cbn [invoke OnDeadline Handle].
    - apply hoare_ret. intros s Hs. left. by apply untouched_known.
    - destruct d.
      + eapply hoare_conseq; [apply handleDelete_known|done| |done]. intros a s Hs. by left.
      + eapply hoare_conseq; [apply lifecycle_known|done| |done]. intros a s [Hs|Hs]; [by left|by right]. }
  pose proof (handler_errors_plain (lifecycleState d) onDeadline eq_refl w) as Hplain. specialize (H w (conj eq_refl eq_refl)).
  unfold call_handler, st_bind, st_try. destruct ((invoke _ onDeadline) w) as [ [a|e| |] w1]; try done.
  - by intros [= _ <-].
  - cbn [handler_OnError]. unfold OnError. unfold plain_error in Hplain. rewrite Hplain. intros [= _ <-]. by left.
Qed.

(** C2: whatever the API server answers, a call of the selected handler takes the
    plan along an edge of the phase machine: a shutdown or a wakeup starts only
    from the idle phases, a resume or a retry, the error phase is entered only
    from an executing phase, and an operation that ends has every target in a
    terminal state.  The handlers of a plan that is new or being deleted keep the
    phase or read the one that is stored on the server, with their patch of the
    finalizers, and the first of them may also initialise it to the active phase. *)
Theorem call_handler_phases w h onDeadline r w' :
  selectHandler (w_now w) (w_plan w) = Some h ->
  call_handler h onDeadline w = (Ok r, w') -> allowed_phase h w w'.
Proof.
  intros Hsel Hcall. destruct (decide (exists d, h = lifecycleState d)) as [ [d ->]|Hnl]; [by apply (lifecycle_phases d) in Hcall|].
  assert (forall d, h <> lifecycleState d) as Hh by (intros d ->; apply Hnl; by exists d).
  assert (phase_edge (plan_Phase (w_plan w)) (plan_Phase (w_plan w')) = true /\
    finished (plan_Phase (w_plan w)) (plan_Phase (w_plan w')) w') as Hres; [|by destruct h; first [exact Hres|exfalso; eapply Hh] ].
  revert Hcall. pose proof (selected_handler_edges w h onDeadline Hsel Hh w eq_refl) as He.
  pose proof (handler_errors_plain h onDeadline) as Hplain.
  assert (executing_phase (plan_Phase (w_plan w)) = true ->
    hoare (at_phase (plan_Phase (w_plan w))) (invoke h onDeadline)
    (fun _ w' => finished (plan_Phase (w_plan w)) (plan_Phase (w_plan w')) w')
    (fun _ => at_phase (plan_Phase (w_plan w)))) as Hf by (intros; by apply selected_handler_finishes).
  unfold call_handler, st_bind, st_try.
  destruct ((invoke h onDeadline) w) as [ [a|e| |] w1] eqn:E; try done.
  - unfold st_ret. intros Heq. injection Heq as _ Hw1. subst w1. split; [done|]. intros Hc. refine (_ Hc). clear Hc.
    destruct (executing_phase (plan_Phase (w_plan w))) eqn:Hx.
    + specialize (Hf eq_refl w eq_refl). by rewrite E in Hf.
    + intros [ [Hp _]|[Hp _] ]; by rewrite Hp in Hx.
  - intros Hon. apply (handler_OnError_phase _ _ (plan_Phase (w_plan w))) in Hon; [|done]. rewrite Hon.
    destruct (ge_plan e) eqn:Hg.
    + assert (executing_handler h = true) as Hx.
      { destruct (executing_handler h) eqn:Hx; [done|]. specialize (Hplain eq_refl w). rewrite E in Hplain.
        unfold plain_error in Hplain. congruence. }
      assert (executing_phase (plan_Phase (w_plan w)) = true) as Hp.
      { unfold selectHandler, runPrePhaseGates, deletionGate, suspensionGate, checkAutoSuspendAnnotation,
          phase_handler, selectIdleHandler in Hsel.
        repeat case_match; simplify_eq; done. }
      destruct (plan_Phase (w_plan w)); try done; split; try done; by intros [ [Hq ?]|[Hq ?] ].
    + split; [apply edge_refl|]. intros [ [Hp Hq]|[Hp Hq] ]; congruence.
Qed.
End transitions.
