(* ===== verification/DispatchSpec.v ===== *)
(** * Properties of the dispatch of a stage

    Which Jobs a round of [executeForStage] creates, how many, and when a stage
    is left. *)
From S2P Require Import Prelude Monad GoString GoTime Types Planner Cluster Restore World.
From S2P Require Import ExecutionUtils Execution Dispatch StateFrame.
From Stdlib Require Import Lia.

Local Open Scope Z_scope.

(** The plan that stage execution works on. *)
Definition eff {HK : KubeApi} (w : World) : HibernatePlan := default (w_plan w) (w_effective w).

(** A target that may still run: its status is not terminal. *)
Definition unfinished (plan : HibernatePlan) (name : string) : Prop :=
  exists t, FindTarget plan name = Some t /\
  match FindExecutionStatus plan (tgt_Type t) name with
  | Some e => terminal_state (exec_State e) = false
  | None => True
  end.

(** ** Labels of a runner Job *)

Section labels.
Context {HI : ExecutorInfra} (plan : HibernatePlan) (target : Target) (operation : PlanOperation) (id name : string).

Notation runner := (runner_job plan target operation id name).

Lemma runner_label_target : job_label LabelTarget runner = tgt_Name target.
Proof.
  unfold job_label, runner_job, runner_labels. cbn [job_Labels].
  rewrite !lookup_insert_ne by discriminate. by rewrite lookup_singleton_eq.
Qed.

Lemma runner_label_operation : job_label LabelOperation runner = operation_string operation.
Proof.
  unfold job_label, runner_job, runner_labels. cbn [job_Labels].
  rewrite lookup_insert_ne by discriminate. by rewrite lookup_insert_eq.
Qed.

Lemma runner_label_cycle : job_label LabelCycleID runner = st_CurrentCycleID (plan_Status plan).
Proof. unfold job_label, runner_job, runner_labels. cbn [job_Labels]. by rewrite lookup_insert_eq. Qed.

Lemma runner_not_stale : is_stale runner = false.
Proof.
  unfold is_stale, runner_job, runner_labels. cbn [job_Labels]. apply bool_decide_eq_false.
  rewrite !lookup_insert_ne by discriminate. rewrite lookup_singleton_ne by discriminate.
  by apply is_Some_None.
Qed.
End labels.

(** ** How the effective plan evolves during a round *)

(** Only execution statuses change, and no target leaves a terminal state. *)
Record evolves (p p' : HibernatePlan) : Prop := {
  evolves_Spec : plan_Spec p' = plan_Spec p;
  evolves_Cycle : st_CurrentCycleID (plan_Status p') = st_CurrentCycleID (plan_Status p);
  evolves_unfinished : forall name, unfinished p' name -> unfinished p name;
}.

Lemma evolves_refl p : evolves p p.
Proof. by split. Qed.

Lemma evolves_trans p q r : evolves p q -> evolves q r -> evolves p r.
Proof. intros [] []. split; [congruence|congruence|auto]. Qed.

Lemma find_first_update_first {A} (f g : A -> bool) (h : A -> A) l x' :
  (forall x, f (h x) = f x) -> find_first f (update_first g h l) = Some x' ->
  exists x, find_first f l = Some x /\ (x' = x \/ x' = h x).
Proof.
  intros Hf. induction l as [|x l IH]; [done|]. cbn [update_first].
  destruct (g x); cbn [find_first]; rewrite ?Hf; destruct (f x); intros; simplify_eq; eauto.
Qed.

Lemma find_first_update_first_None {A} (f g : A -> bool) (h : A -> A) l :
  (forall x, f (h x) = f x) -> find_first f (update_first g h l) = None -> find_first f l = None.
Proof.
  intros Hf. induction l as [|x l IH]; [done|]. cbn [update_first].
  destruct (g x); cbn [find_first]; rewrite ?Hf; destruct (f x); auto; done.
Qed.

Lemma abort_evolves t msg p : evolves p (on_status (abort_target t msg) p).
Proof.
  split; [done|done|]. intros name (tg & Ht & Hx). exists tg. split; [done|].
  unfold FindExecutionStatus in *. cbn in Hx.
  set (f := fun e : ExecutionStatus => _) in *.
  destruct (find_first f (st_Executions (plan_Status p))) as [e|] eqn:E; [|done].
  destruct (find_first f (update_first _ _ _)) as [e'|] eqn:E'.
  - apply find_first_update_first in E' as (x & Hx' & Heq); [|done]. rewrite E in Hx'. injection Hx' as <-.
    destruct Heq as [-> | ->]; [done|]. cbn in Hx. congruence.
  - apply find_first_update_first_None in E'; [congruence|done].
Qed.

Lemma pruneTarget_spec {HK : KubeApi} t msg w :
  exists w', pruneTarget t msg w = (Ok tt, w') /\ w_cluster w' = w_cluster w /\ w_now w' = w_now w /\
  evolves (eff w) (eff w').
Proof.
  destruct w as [cl now p [ef|] sch exc hr nt q ms st uu dr]; unfold pruneTarget, modify_effective,
    Send_effective, get_now, get_effective, st_bind, st_modify, st_gets, assign, hook, enqueue, eff; cbn;
    unfold st_modify, modify_effective; cbn;
    (eexists; split; [reflexivity|]; split; [done|]; split; [done|]; cbn; eapply evolves_trans; apply abort_evolves).
Qed.

(** ** The Jobs of a round *)

(** A Job that a round may create. *)
Record fresh_job (plan : HibernatePlan) (jobs : list Job) (operation : PlanOperation) (targets : list string)
  (j : Job) : Prop := {
  fresh_target : job_label LabelTarget j ∈ targets;
  fresh_unfinished : unfinished plan (job_label LabelTarget j);
  fresh_absent : JobExistsForTarget jobs (job_label LabelTarget j) operation
                   (st_CurrentCycleID (plan_Status plan)) = false;
  fresh_operation : job_label LabelOperation j = operation_string operation;
  fresh_cycle : job_label LabelCycleID j = st_CurrentCycleID (plan_Status plan);
  fresh_running : is_stale j = false /\ isJobTerminal j = false;
}.

Lemma fresh_job_weaken p p' jobs op t targets j :
  evolves p p' -> fresh_job p' jobs op targets j -> fresh_job p jobs op (t :: targets) j.
Proof.
  intros [Hs Hc Hu] [H1 H2 H3 H4 H5 H6]. split; rewrite <- ?Hc; auto. by right.
Qed.

Section rounds.
Context {HK : KubeApi} {HKL : KubeLaws} {HI : ExecutorInfra}.

(** A request that fails may have created the Job. *)
Lemma createRunnerJob_spec plan target op w :
  exists r w' made, createRunnerJob plan target op w = (r, w') /\
  w_effective w' = w_effective w /\ w_plan w' = w_plan w /\
  cl_jobs (w_cluster w') = cl_jobs (w_cluster w) ++ made /\
  (made = [] \/ exists id name, made = [runner_job plan target op id name]) /\
  (r = Ok tt \/ exists e, r = Err e).
Proof.
  unfold createRunnerJob, get_now, st_bind, st_gets, api, st_lift.
  set (j := runner_job _ _ _ _). set (g := job_generate_name _ _).
  destruct (create_job_spec g j (w_cluster w)) as (c' & [ [ [name Hc] [->|[e ->] ] ]|[Hc [e ->] ] ]).
  - do 2 eexists. exists [j name]. split_and!; eauto.
  - do 2 eexists. exists [j name]. split_and!; eauto.
  - do 2 eexists. exists []. rewrite app_nil_r. split_and!; eauto.
Qed.

Lemma dispatch_target_create plan jobs op maxc running created name target :
  dispatch_target plan jobs op maxc running created name = DispatchCreate target ->
  FindTarget plan name = Some target /\ unfinished plan name /\
  JobExistsForTarget jobs name op (st_CurrentCycleID (plan_Status plan)) = false /\
  int32 (running + created) < maxc.
Proof.
  unfold dispatch_target, unfinished. destruct (FindTarget plan name) as [t|] eqn:Ht; [|done].
  destruct (FindExecutionStatus plan (tgt_Type t) name) as [e|] eqn:He.
  - destruct (terminal_state (exec_State e)) eqn:Hterm; [done|].
    repeat case_match; intros; simplify_eq; reflect; (split; [done|]); (split; [|done]);
      exists target; by rewrite He.
  - repeat case_match; intros; simplify_eq; reflect; (split; [done|]); (split; [|done]);
      exists target; by rewrite He.
Qed.

Lemma FindTarget_name plan name t : FindTarget plan name = Some t -> tgt_Name t = name.
Proof. intros H. apply find_first_Some in H as [_ H]. by reflect. Qed.

(** The Jobs created for a list of targets: at most as many as there are places
    left, at most one per target in the order of the targets, each for an
    unfinished target that has no Job. *)
Lemma dispatch_loop_jobs jobs op maxc running targets created w r w' :
  dispatch_loop jobs op maxc running targets created w = (r, w') ->
  0 <= running -> 0 <= created -> running + created + Z.of_nat (length targets) < 2 ^ 31 ->
  exists new, cl_jobs (w_cluster w') = cl_jobs (w_cluster w) ++ new /\
    Z.of_nat (length new) <= Z.max 0 (maxc - (running + created)) /\
    Forall (fresh_job (eff w) jobs op targets) new /\
    sublist (map (job_label LabelTarget) new) targets.
Proof.
  intros H Hr. revert created w H.
  induction targets as [|t targets IH]; intros created w H Hc Hb; cbn [dispatch_loop length] in *.
  { exists []. injection H as _ <-. rewrite app_nil_r. split; [done|]. split; [simpl; lia|]. by split. }
  assert (forall w1 c1, evolves (eff w) (eff w1) -> cl_jobs (w_cluster w1) = cl_jobs (w_cluster w) ->
    created <= c1 <= created + 1 ->
    dispatch_loop jobs op maxc running targets c1 w1 = (r, w') ->
    exists new, cl_jobs (w_cluster w') = cl_jobs (w_cluster w) ++ new /\
      Z.of_nat (length new) <= Z.max 0 (maxc - (running + created)) /\
      Forall (fresh_job (eff w) jobs op (t :: targets)) new /\
      sublist (map (job_label LabelTarget) new) (t :: targets)) as Hskip.
  { intros w1 c1 Hev Hcl Hc1 Hd. apply IH in Hd as (new & Hn & Hlen & Hall & Hsub); [|lia|lia].
    exists new. rewrite Hn, Hcl. split; [done|]. split; [lia|]. split; [|by constructor].
    eapply Forall_impl; [exact Hall|]. intros j. by apply fresh_job_weaken. }
  unfold st_bind at 1, get_effective, st_gets in H. fold (eff w) in H.
  destruct (dispatch_target _ _ _ _ _ _ _) as [|up|up| |target] eqn:Hd.
  - by apply (Hskip w created); [apply evolves_refl|done|lia|].
  - exists []. injection H as _ <-. rewrite app_nil_r. split; [done|]. split; [simpl; lia|].
    split; [done|apply sublist_nil_l].
  - match type of H with context [pruneTarget ?n ?m] =>
      destruct (pruneTarget_spec n m w) as (w1 & Hp & Hcl & _ & Hev) end.
    unfold st_bind at 1 in H. rewrite Hp in H. apply (Hskip w1 created); [done|by rewrite Hcl|lia|done].
  - exists []. injection H as _ <-. rewrite app_nil_r. split; [done|]. split; [simpl; lia|].
    split; [done|apply sublist_nil_l].
  - apply dispatch_target_create in Hd as (Ht & Hu & Ha & Hlt). rewrite int32_id in Hlt by (unfold in_int32; lia).
    unfold st_bind at 1, st_try in H.
    destruct (createRunnerJob_spec (eff w) target op w) as (r1 & w1 & made & Hcr & He & Hp & Hj & Hmade & Hr1).
    rewrite Hcr in H. assert (eff w1 = eff w) as Heff by (unfold eff; by rewrite He, Hp).
    assert (Forall (fresh_job (eff w) jobs op (t :: targets)) made /\
            (length made <= 1)%nat /\ sublist (map (job_label LabelTarget) made) [t]) as (Hfr & Hlen & Hsub).
    { destruct Hmade as [->|(id & name & ->)].
      - split; [done|]. split; [simpl; lia|]. by constructor.
      - pose proof (FindTarget_name _ _ _ Ht) as Hname. split; [|split; [simpl; lia|] ].
        + constructor; [|done]. split; rewrite ?runner_label_target, ?Hname;
            [by left|done|done|apply runner_label_operation|apply runner_label_cycle
            |split; [apply runner_not_stale|done] ].
        + cbn [map]. rewrite runner_label_target, Hname. done. }
    assert (forall c1, c1 = created + 1 -> dispatch_loop jobs op maxc running targets c1 w1 = (r, w') ->
      exists new, cl_jobs (w_cluster w') = cl_jobs (w_cluster w) ++ new /\
        Z.of_nat (length new) <= Z.max 0 (maxc - (running + created)) /\
        Forall (fresh_job (eff w) jobs op (t :: targets)) new /\
        sublist (map (job_label LabelTarget) new) (t :: targets)) as Hnext.
    { intros c1 -> Hd. apply IH in Hd as (new & Hn & Hlen' & Hall & Hsub'); [|lia|lia].
      exists (made ++ new). rewrite Hn, Hj, <- app_assoc. split; [done|]. rewrite length_app. split; [lia|].
      split.
      - apply Forall_app. split; [done|]. rewrite Heff in Hall. eapply Forall_impl; [exact Hall|].
        intros j. by apply fresh_job_weaken, evolves_refl.
      - rewrite map_app. exact (sublist_app _ [t] _ targets Hsub Hsub'). }
    destruct Hr1 as [->|[e ->] ]; [by apply (Hnext _ eq_refl)|].
    destruct (_ && _); [|by apply (Hnext _ eq_refl)].
    exists made. injection H as _ <-. split; [done|]. split; [lia|]. split; [done|].
    exact (sublist_inserts_r targets _ [t] Hsub).
Qed.

(** ** Rounds *)

Lemma executeForStage_jobs jobs stage op w r w' :
  executeForStage jobs stage op w = (r, w') ->
  Z.of_nat (length jobs) + Z.of_nat (length (es_Targets stage)) < 2 ^ 31 ->
  exists new, cl_jobs (w_cluster w') = cl_jobs (w_cluster w) ++ new /\
    Z.of_nat (length new) <= Z.max 0 (stage_concurrency stage - CountRunningJobsInStage jobs stage) /\
    Forall (fresh_job (eff w) jobs op (es_Targets stage)) new /\
    sublist (map (job_label LabelTarget) new) (es_Targets stage).
Proof.
  unfold executeForStage, st_bind. intros H Hb.
  destruct (dispatch_loop _ _ _ _ _ _ w) as [r1 w1] eqn:E.
  assert (w1 = w') as -> by (destruct r1; by injection H).
  apply dispatch_loop_jobs in E; [by rewrite Z.add_0_r in E| |lia|].
  - unfold CountRunningJobsInStage. lia.
  - unfold CountRunningJobsInStage.
    match goal with |- context [length (filter ?P jobs)] => pose proof (length_filter P jobs) end. lia.
Qed.

Lemma running_fresh plan jobs op stage new :
  Forall (fresh_job plan jobs op (es_Targets stage)) new ->
  CountRunningJobsInStage (jobs ++ new) stage = CountRunningJobsInStage jobs stage + Z.of_nat (length new).
Proof.
  intros Hall. unfold CountRunningJobsInStage. rewrite filter_app, length_app, Nat2Z.inj_add. f_equal.
  f_equal. f_equal. induction Hall as [|j l [H1 _ _ _ _ [H2 H3] ] _ IH]; [done|].
  rewrite filter_cons_True by done. by rewrite IH.
Qed.

(** The failures of a stage: what [FailedCount] counts. *)
Definition target_failed (plan : HibernatePlan) (t : string) : bool :=
  match find_first (fun e => (exec_Target e =? t)%string) (st_Executions (plan_Status plan)) with
  | Some e => failed_or_aborted (exec_State e)
  | None => false
  end.

Lemma FailedCount_target plan t :
  FailedCount (target_status (st_Executions (plan_Status plan)) t) = if target_failed plan t then 1 else 0.
Proof. unfold target_status, target_failed. destruct (find_first _ _) as [e|]; [|done]. by destruct (exec_State e). Qed.

Lemma FailedCount_spec plan stage :
  (0 <? FailedCount (GetStageStatus plan stage)) = existsb (target_failed plan) (es_Targets stage).
Proof.
  unfold GetStageStatus. cbn [FailedCount].
  assert (forall l, 0 <= foldr (fun s acc => FailedCount s + acc) 0 (map (target_status (st_Executions (plan_Status plan))) l) /\
    (0 <? foldr (fun s acc => FailedCount s + acc) 0 (map (target_status (st_Executions (plan_Status plan))) l)) =
    existsb (target_failed plan) l) as H; [|apply H].
  induction l as [|t l [IH1 IH2] ]; [done|]. cbn [map foldr existsb]. rewrite FailedCount_target, <- IH2.
  destruct (target_failed plan t); cbn [orb]; (split; [lia|]); [apply Z.ltb_lt; lia|done].
Qed.

(** ** Claims *)

(** C10: a round of dispatch never runs more Jobs of a stage at once than the
    stage's limit allows (unless they were already running), whichever requests
    fail; the Jobs it creates are the only change to the Jobs of the cluster. *)
Theorem dispatch_concurrency jobs stage op w r w' :
  executeForStage jobs stage op w = (r, w') ->
  Z.of_nat (length jobs) + Z.of_nat (length (es_Targets stage)) < 2 ^ 31 ->
  exists new, cl_jobs (w_cluster w') = cl_jobs (w_cluster w) ++ new /\
    CountRunningJobsInStage (jobs ++ new) stage
    <= Z.max (CountRunningJobsInStage jobs stage) (stage_concurrency stage).
Proof.
  intros H Hb. destruct (executeForStage_jobs _ _ _ _ _ _ H Hb) as (new & Hn & Hlen & Hall & _).
  exists new. split; [done|]. rewrite (running_fresh _ _ _ _ _ Hall). lia.
Qed.

(** C36: a round creates Jobs only for targets of the stage that exist, have not
    ended and have no live Job of the operation and the cycle, and at most one
    for each; each carries the cycle and the operation. *)
Theorem dispatch_once jobs stage op w r w' :
  executeForStage jobs stage op w = (r, w') ->
  Z.of_nat (length jobs) + Z.of_nat (length (es_Targets stage)) < 2 ^ 31 ->
  exists new, cl_jobs (w_cluster w') = cl_jobs (w_cluster w) ++ new /\
    Forall (fresh_job (eff w) jobs op (es_Targets stage)) new /\
    (NoDup (es_Targets stage) -> NoDup (map (job_label LabelTarget) new)).
Proof.
  intros H Hb. destruct (executeForStage_jobs _ _ _ _ _ _ H Hb) as (new & Hn & _ & Hall & Hsub).
  exists new. split; [done|]. split; [done|]. intros Hnd. by eapply sublist_NoDup.
Qed.

(** C32: the stage index moves only past a stage whose targets have all ended,
    and by one; under the Strict behaviour none of them has failed. *)
Theorem stage_advance op jobs execPlan onFinalize w r w' :
  (forall i, preserves (holds (fun s => st_CurrentStageIndex s = i)) onFinalize) ->
  execute_stage op jobs execPlan onFinalize w = (r, w') ->
  let plan := eff w in
  let index := st_CurrentStageIndex (plan_Status plan) in
  st_CurrentStageIndex (plan_Status (w_plan w')) <> st_CurrentStageIndex (plan_Status (w_plan w)) ->
  st_CurrentStageIndex (plan_Status (w_plan w')) = index + 1 /\
  exists stage, slice_at (Stages execPlan) index = Some stage /\
    forallb (target_terminal plan) (es_Targets stage) = true /\
    (is_strict plan = true -> existsb (target_failed plan) (es_Targets stage) = false).
Proof.
  intros Hfin H plan index Hne.
  set (J i := holds (fun s => st_CurrentStageIndex s = i)).
  assert (forall i m (k : unit -> HM StateResult) v v', preserves (J i) m -> (forall u, preserves (J i) (k u)) ->
    J i v -> st_bind m k v = (r, v') -> J i v') as Hkeep.
  { intros i m k v v' Hm Hk Hv E. pose proof (preserves_bind _ _ _ Hm Hk v Hv) as Hp. by rewrite E in Hp. }
  assert (forall i j s v v', J i v -> executeForStage j s op v = (r, v') -> J i v') as Hexec.
  { intros i j s v v' Hv E. pose proof (executeForStage_frame (fun s => st_CurrentStageIndex s = i) (fun _ _ Hs => Hs) j s op v Hv) as Hp.
    by rewrite E in Hp. }
  unfold execute_stage in H. unfold st_bind at 1, get_effective, st_gets in H. fold (eff w) plan index in H. cbv zeta in H.
  destruct (_ <=? index); [exfalso; apply Hne; apply (Hkeep _ onFinalize (fun _ => st_ret quiet) w w'); [apply Hfin|intros u; apply preserves_ret|done|exact H]|].
  unfold st_bind at 1, slice_get in H. destruct (slice_at (Stages execPlan) index) as [stage|] eqn:Es; [|by exfalso; apply Hne; injection H as _ <-].
  unfold st_ret at 1 in H.
  destruct (AllTerminal _) eqn:Hall; [|exfalso; apply Hne; destruct (HasPending _); [by eapply Hexec|by injection H as _ <-] ].
  rewrite GetStageStatus_terminal in Hall. rewrite FailedCount_spec in H.
  destruct (existsb _ _ && _) eqn:Hs; [by exfalso; apply Hne; injection H as _ <-|].
  destruct (index + 1 <? _); [|exfalso; apply Hne; apply (Hkeep _ onFinalize (fun _ => st_ret quiet) w w'); [apply Hfin|intros u; apply preserves_ret|done|exact H] ].
  split.
  - unfold st_bind at 1 in H.
    destruct (nextStage (index + 1) w) as [ [u|e| |] w1] eqn:E1; try done.
    assert (J (index + 1) w1) as Hw1.
    { unfold nextStage, Send, assign, st_bind in E1. cbn in E1. injection E1 as _ <-; reflexivity. }
    unfold st_bind, slice_get in H. destruct (slice_at _ (index + 1)); [exact (Hexec _ _ _ _ _ Hw1 H)|injection H as _ <-; exact Hw1].
  - exists stage. split; [done|]. split; [done|]. intros Hst. rewrite Hst, andb_true_r in Hs. done.
Qed.
End rounds.
