(* ===== verification/RecoverySpec.v ===== *)
(** * Retries of a failed plan, who creates Jobs, and suspension

    How many Jobs a handler creates and when; what a retry does to the status;
    what is kept of a plan while it is suspended. *)
From S2P Require Import Prelude Monad GoString GoTime Planner Types Recovery Cluster Restore World ExecutionUtils.
From S2P Require Import Execution Dispatch Handlers Timer Worker StateFrame PhaseSpec.
From Stdlib Require Import Lia.

Local Open Scope Z_scope.

(** ** Jobs *)

(** There are at most [n] Jobs. *)
Definition few_jobs {HK : KubeApi} (n : nat) (c : Cluster) : Prop := (length (cl_jobs c) <= n)%nat.
Definition few {HK : KubeApi} (n : nat) (w : World) : Prop := few_jobs n (w_cluster w).

Section jobs.
Context {HK : KubeApi} {HKL : KubeLaws} (n : nat).

Lemma ask_few {A} (q : Request A) :
  match q with CreateJob _ _ => False | _ => True end -> preserves (few_jobs n) (ask q).
Proof.
  intros Hq. apply ask_preserves. intros c Hc. unfold few_jobs in *. pose proof (serve_jobs q c) as H.
  destruct q; try done; simpl in H; try (by rewrite H); lia.
Qed.

Lemma lift_few {E A} (m : ST Cluster E A) :
  preserves (few_jobs n) m -> preserves (few n) (st_lift w_cluster set_w_cluster m).
Proof. intros Hm w Hw. unfold st_lift. specialize (Hm _ Hw). by destruct (m (w_cluster w)). Qed.

Lemma modify_few {E} f : (forall w, w_cluster (f w) = w_cluster w) ->
  preserves (few n) (st_modify (E:=E) f).
Proof. intros Hf. apply preserves_modify. intros w Hw. unfold few. by rewrite Hf. Qed.

Lemma Send_few {E} pre m post : preserves (few n) (Send (E:=E) pre m post).
Proof. intros w Hw. unfold Send, st_bind, st_get. by destruct (m _ _). Qed.
End jobs.

(** The requests, and what is made of them; [create_job] is not one of these. *)
Ltac few_step :=
  lazymatch goal with
  | |- forall _, _ => intros
  | |- preserves _ (st_bind _ _) => apply preserves_bind
  | |- preserves _ (st_try _) => apply preserves_try
  | |- preserves _ (st_wrap _ _) => apply preserves_wrap
  | |- preserves _ (st_throw _) => apply preserves_throw
  | |- preserves _ (st_ret _) => apply preserves_ret
  | |- preserves _ st_panic => apply preserves_panic
  | |- preserves _ st_get => apply preserves_get
  | |- preserves _ (st_gets _) => apply preserves_gets
  | |- preserves _ (ask _) => by apply ask_few
  | |- preserves (few _) (st_lift _ _ _) => apply lift_few
  | |- preserves (few _) (api _) => apply lift_few
  | |- preserves (few _) (restore _) => apply lift_few
  | |- preserves (few _) (Send _ _ _) => apply Send_few
  | |- preserves (few _) (st_modify _) => apply modify_few; intros; cbn; by repeat case_match
  | |- preserves _ (match ?x with _ => _ end) => destruct x eqn:?
  | |- preserves _ (let '(_, _) := ?x in _) => destruct x eqn:?
  | |- preserves _ _ => match goal with H : _ |- _ => simple apply H end
  end.
Ltac few := repeat few_step.

Section requests.
Context {HK : KubeApi} {HKL : KubeLaws} {HI : ExecutorInfra} {HJ : JSON} {HV : Validator} (n : nat).

Lemma get_configmap_few ns name : preserves (few_jobs n) (get_configmap ns name).
Proof. unfold get_configmap. few. Qed.

Lemma create_configmap_few ns name cm : preserves (few_jobs n) (create_configmap ns name cm).
Proof. unfold create_configmap. few. Qed.

Lemma update_configmap_few ns name cm : preserves (few_jobs n) (update_configmap ns name cm).
Proof. unfold update_configmap. few. Qed.

Lemma list_jobs_few ns sel : preserves (few_jobs n) (list_jobs ns sel).
Proof. unfold list_jobs. few. Qed.

Lemma list_pods_few ns sel : preserves (few_jobs n) (list_pods ns sel).
Proof. unfold list_pods. few. Qed.

Lemma delete_job_few ns name : preserves (few_jobs n) (delete_job ns name).
Proof. unfold delete_job. few. Qed.

Lemma patch_job_labels_few ns name l : preserves (few_jobs n) (patch_job_labels ns name l).
Proof. unfold patch_job_labels. few. Qed.

Lemma patch_plan_few p q : preserves (few_jobs n) (patch_plan p q).
Proof. unfold patch_plan. few. Qed.

Lemma patchAndPreserveStatus_few f : preserves (few n) (patchAndPreserveStatus f).
Proof. pose proof patch_plan_few. unfold patchAndPreserveStatus, get_plan. few. Qed.

Lemma patch_object_few f : preserves (few n) (patch_object f).
Proof. pose proof patch_plan_few. unfold patch_object, get_plan. few. Qed.

Lemma getConfigMap_few ns p : preserves (few_jobs n) (getConfigMap ns p).
Proof. pose proof get_configmap_few. unfold getConfigMap. few. Qed.

Lemma Load_few ns p t : preserves (few_jobs n) (Load ns p t).
Proof. pose proof getConfigMap_few. unfold Load. few. Qed.

Lemma PrepareRestorePoint_few ns p : preserves (few_jobs n) (PrepareRestorePoint ns p).
Proof.
  pose proof getConfigMap_few. pose proof create_configmap_few. pose proof update_configmap_few.
  unfold PrepareRestorePoint, writeConfigMap. few.
Qed.

Lemma observe_few {E} jobs : preserves (few n) (updateExecutionStatuses (E:=E) jobs).
Proof.
  pose proof list_pods_few.
  assert (forall E plan exec, preserves (few n) (observe_target (E:=E) plan jobs exec)) as Ht.
  { unfold observe_target, observe_job, observe_missing, getTerminationMessageFromPod,
      trackConsecutiveJobMiss, resetConsecutiveJobMiss. few. }
  assert (forall E plan execs, preserves (few n) (observe_all (E:=E) plan jobs execs)) as Ha.
  { intros E' plan execs. induction execs; cbn [observe_all]; few. }
  unfold updateExecutionStatuses, get_effective, modify_effective. few.
Qed.

Lemma transitionToHibernating_few fresh : preserves (few n) (transitionToHibernating fresh).
Proof.
  pose proof Load_few.
  unfold transitionToHibernating, cycle_id, getExistingCycleIDForHibernation, new_cycle_id, get_plan.
  assert (forall ns p l, preserves (few n) (existing_cycle_id ns p l)).
  { intros ns p l. induction l; cbn [existing_cycle_id]; few. }
  few.
Qed.

Lemma transitionToWakingUp_few : preserves (few n) transitionToWakingUp.
Proof. unfold transitionToWakingUp, get_plan, get_now. few. Qed.

Lemma performSuspension_few : preserves (few n) performSuspension.
Proof. pose proof patchAndPreserveStatus_few. unfold performSuspension, failing_as, get_plan. few. Qed.

Lemma resume_few : preserves (few n) resume.
Proof.
  pose proof patchAndPreserveStatus_few.
  unfold resume, take_route, cleanupSuspensionAnnotations, non_fatal, get_plan, resumeFromError,
    resumeFromExecution, forceWakeUpOnResume, get_now. few.
Qed.

Lemma relabel_few jobs : preserves (few n) (relabel_jobs jobs).
Proof. pose proof patch_job_labels_few. induction jobs; cbn [relabel_jobs]; few. Qed.

(** Only the execution of stages creates Jobs. *)
Lemma invoke_few h onDeadline : executing_handler h = false -> preserves (few n) (invoke h onDeadline).
Proof.
  pose proof patchAndPreserveStatus_few. pose proof patch_object_few. pose proof list_jobs_few.
  pose proof delete_job_few. pose proof PrepareRestorePoint_few. pose proof (fun jobs => @observe_few goerr jobs).
  pose proof transitionToHibernating_few. pose proof transitionToWakingUp_few. pose proof performSuspension_few.
  pose proof resume_few. pose proof relabel_few.
  intros Hh. destruct onDeadline; destruct h as [ [] | | | | | | | |]; try done; cbn [invoke OnDeadline Handle].
  all: unfold override_OnDeadline, suspended_OnDeadline, handleDelete, lifecycle_handle, preSuspension_Handle,
    awaitExecutionDrain, idle_Handle, restart_Handle, override_Handle, consumeRestart, consumeFresh,
    suspended_Handle, stay_or_resume, recovery_Handle, handleManualRetry, clearRetryAtAnnotation, handleRetry,
    relabelStaleFailedJobs, non_fatal, returning, failing_as, ignoring_not_found, getCurrentCycleJobs, get_plan, get_now.
  all: few.
  all: try (match goal with |- preserves _ (st_iter _ ?l) => induction l; cbn [st_iter] end; few).
Qed.

Lemma handler_OnError_few h err : preserves (few n) (handler_OnError h err).
Proof.
  assert (preserves (few n) (OnError err)) by (unfold OnError, setError, get_plan; few).
  destruct h; cbn [handler_OnError]; unfold execution_OnError, get_plan; few.
Qed.
End requests.

Section claims.
Context {HK : KubeApi} {HKL : KubeLaws} {HI : ExecutorInfra} {HJ : JSON} {HV : Validator}.

(** C19: runner Jobs are created only for a plan that is hibernating or waking up,
    is not being deleted, and is neither suspended nor about to be: its
    suspension takes effect before any other Job of it is created. *)
Theorem jobs_only_when_executing w h onDeadline r w' :
  selectHandler (w_now w) (w_plan w) = Some h ->
  call_handler h onDeadline w = (r, w') ->
  (length (cl_jobs (w_cluster w)) < length (cl_jobs (w_cluster w')))%nat ->
  executing_phase (plan_Phase (w_plan w)) = true /\ plan_Deleting (w_plan w) = false /\
  spec_Suspend (plan_Spec (w_plan w)) = false /\
  forall s t, plan_Annotations (w_plan w) !! AnnotationSuspendUntil = Some s ->
    parse_RFC3339 s = Some t -> unix_ns t <= unix_ns (w_now w).
Proof.
  intros Hsel Hcall Hlt. destruct (executing_handler h) eqn:Hx.
  - unfold selectHandler, runPrePhaseGates, deletionGate, suspensionGate, checkAutoSuspendAnnotation,
      phase_handler, selectIdleHandler in Hsel.
    destruct (plan_Deleting _); [by simplify_eq|].
    destruct (bool_decide _) eqn:Hs; [reflect; rewrite Hs in Hsel; by simplify_eq|].
    destruct (spec_Suspend _); [by simplify_eq|].
    assert (forall s t, plan_Annotations (w_plan w) !! AnnotationSuspendUntil = Some s ->
      parse_RFC3339 s = Some t -> unix_ns t <= unix_ns (w_now w)) as Hd.
    { intros s t Ha Ht. rewrite Ha, Ht in Hsel. destruct (Before _ _) eqn:Hb; [by simplify_eq|].
      unfold Before in Hb. by reflect. }
    assert (phase_handler (w_plan w) = Some h) as Hp.
    { unfold phase_handler, selectIdleHandler. by repeat case_match; simplify_eq. }
    split; [|done]. unfold phase_handler, selectIdleHandler in Hp. by repeat case_match; simplify_eq.
  - exfalso. pose proof (invoke_few (length (cl_jobs (w_cluster w))) h onDeadline Hx) as Hi.
    assert (preserves (few (length (cl_jobs (w_cluster w)))) (call_handler h onDeadline)) as Hc.
    { unfold call_handler. apply preserves_bind; [by apply preserves_try|].
      intros [e|a]; [apply handler_OnError_few|apply preserves_ret]. }
    specialize (Hc w (le_n _)). rewrite Hcall in Hc. unfold few, few_jobs in Hc. cbn in Hc. lia.
Qed.

(** What a retry reads: the status, the clock and the schedule. *)
Definition reads (s : HibernatePlanStatus) (now : time) (schedule : option bool) (w : World) : Prop :=
  plan_Status (w_plan w) = s /\ w_now w = now /\ w_schedule w = schedule.

Lemma patchAndPreserveStatus_reads s now sched f : (forall p, plan_Status (f p) = plan_Status p) ->
  preserves (reads s now sched) (patchAndPreserveStatus f).
Proof.
  intros Hf w (Hs & Hn & Hc). unfold patchAndPreserveStatus, st_bind, get_plan, st_gets, st_modify, api, st_lift.
  cbn. by destruct (patch_plan _ _ _) as [ [p|e| |] c]; cbn; unfold reads; cbn; rewrite ?Hf.
Qed.

Lemma api_reads {A} s now sched (m : API A) : preserves (reads s now sched) (api m).
Proof. intros w Hw. unfold api, st_lift. by destruct (m (w_cluster w)). Qed.

Lemma clearRetryAtAnnotation_reads s now sched : preserves (reads s now sched) clearRetryAtAnnotation.
Proof.
  unfold clearRetryAtAnnotation, non_fatal, get_plan. apply preserves_bind; [apply preserves_gets|]. intros plan.
  destruct (has_annotation _ _); [|apply preserves_ret].
  apply preserves_bind; [|intros; apply preserves_ret]. apply preserves_try. by apply patchAndPreserveStatus_reads.
Qed.

Lemma relabelStaleFailedJobs_reads s now sched plan op :
  preserves (reads s now sched) (relabelStaleFailedJobs plan op).
Proof.
  assert (forall l, preserves (reads s now sched) (relabel_jobs l)).
  { intros l. induction l as [|j l IH]; cbn [relabel_jobs]; [apply preserves_ret|].
    destruct (_ || _); [done|]. apply preserves_bind; [apply api_reads|done]. }
  unfold relabelStaleFailedJobs, non_fatal. apply preserves_bind; [|intros; apply preserves_ret].
  apply preserves_try, preserves_bind; [apply api_reads|done].
Qed.

(** What a retry makes of an execution status. *)
Definition retried (e e' : ExecutionStatus) : Prop :=
  e' = e \/ exec_State e = StateFailed /\ exec_State e' = StatePending /\ exec_Target e' = exec_Target e.

Lemma reset_failed_retried targets l : Forall2 retried l (reset_failed targets l).
Proof.
  unfold reset_failed. induction l as [|e l IH]; [constructor|]. cbn [map]. constructor; [|done].
  destruct (_ && _) eqn:E; [|by left]. reflect. by right.
Qed.

(** The result of the retry of a plan whose last attempt is not recent. *)
Definition retried_status (phase : PlanPhase) (now : time) (s s' : HibernatePlanStatus) : Prop :=
  st_Phase s' = phase /\ st_RetryCount s' = int32 (st_RetryCount s + 1) /\ st_LastRetryTime s' = Some now /\
  st_CurrentStageIndex s' = st_CurrentStageIndex s /\ st_CurrentCycleID s' = st_CurrentCycleID s /\
  st_CurrentOperation s' = st_CurrentOperation s /\ Forall2 retried (st_Executions s) (st_Executions s').

Lemma retry_mutator_status xp i phase lastErr now p p' :
  retry_mutator xp i phase lastErr now p = Some p' ->
  st_Phase (plan_Status p') = st_Phase (plan_Status p) \/ retried_status phase now (plan_Status p) (plan_Status p').
Proof.
  unfold retry_mutator, RecordRetryAttempt.
  destruct (match st_LastRetryTime _ with Some _ => _ | None => _ end); [intros [= <-]; by left|].
  destruct (slice_at _ _) as [stage|]; [|done]. intros [= <-]. right. unfold retried_status. cbn.
  repeat (split; [done|]). apply reset_failed_retried.
Qed.

Lemma handleRetry_status lastErr s now sched w r w' :
  reads s now sched w -> handleRetry lastErr w = (Ok r, w') ->
  st_Phase (plan_Status (w_plan w')) = st_Phase s \/
  retried_status (retry_phase (determineRetryOperation sched (w_plan w))) now s (plan_Status (w_plan w')).
Proof.
  intros Hw. unfold handleRetry. unfold st_bind at 1, st_get. cbv zeta. rewrite (proj2 (proj2 Hw)).
  set (op := determineRetryOperation _ _).
  destruct (buildExecutionPlan _ _) as [xp|e| |]; try done.
  unfold st_bind at 1. pose proof (relabelStaleFailedJobs_reads s now sched (w_plan w) op w Hw) as Hw1.
  destruct (relabelStaleFailedJobs _ _ w) as [ [u|e| |] w1]; try done. cbn in Hw1. destruct Hw1 as (Hs & Hn & _).
  unfold st_bind at 1, Send. unfold st_bind at 1, st_get.
  destruct (retry_mutator _ _ _ _ _ _) as [p|] eqn:E; [|done]. cbn. intros [= _ <-]. cbn.
  apply retry_mutator_status in E. by rewrite Hs, Hn in E.
Qed.

(** C33: a plan leaves the error phase by recovery only while retries are left and
    the error is not permanent; the attempt is counted and dated, the plan resumes
    the operation that failed at its stage and cycle, and only failed targets are
    made pending again. *)
Theorem recovery_retry_budget w r w' :
  plan_Phase (w_plan w) = PhaseError -> recovery_Handle w = (Ok r, w') ->
  plan_Phase (w_plan w') <> PhaseError ->
  st_RetryCount (plan_Status (w_plan w)) < default 3 (beh_Retries (spec_Behavior (plan_Spec (w_plan w)))) /\
  ClassifyError (last_error (w_plan w)) <> ErrorPermanent /\
  retried_status (retry_phase (determineRetryOperation (w_schedule w) (w_plan w))) (w_now w)
    (plan_Status (w_plan w)) (plan_Status (w_plan w')).
Proof.
  intros Hp H Hne. unfold recovery_Handle in H. unfold st_bind at 1, get_plan, st_gets in H.
  unfold st_bind at 1, get_now, st_gets in H. cbv zeta in H.
  destruct (ShouldRetry _) eqn:Hretry; cbn [negb] in H.
  - assert (st_RetryCount (plan_Status (w_plan w)) < default 3 (beh_Retries (spec_Behavior (plan_Spec (w_plan w)))) /\
      ClassifyError (last_error (w_plan w)) <> ErrorPermanent) as [H1 H2].
    { unfold DetermineRecoveryStrategy, DefaultRecoveryMaxRetryAttempts in Hretry.
      destruct (_ <=? st_RetryCount _) eqn:E1; [done|]. destruct (bool_decide _) eqn:E2; [done|]. reflect. done. }
    split; [done|]. split; [done|].
    destruct (0 <? RetryAfter _); [injection H as _ <-; contradiction|].
    unfold st_bind at 1 in H.
    pose proof (clearRetryAtAnnotation_reads _ _ _ w (conj eq_refl (conj eq_refl eq_refl))) as Hw1.
    destruct (clearRetryAtAnnotation w) as [ [u|e| |] w1]; try done. cbn in Hw1.
    apply (handleRetry_status _ _ _ _ _ _ _ Hw1) in H.
    destruct H as [H|H]; [exfalso; apply Hne; unfold plan_Phase; by rewrite H|].
    unfold determineRetryOperation in *. by rewrite (proj1 Hw1) in H.
  - exfalso. apply Hne. unfold st_bind in H.
    pose proof (handleManualRetry_frame PhaseError w Hp) as Hm.
    destruct (handleManualRetry w) as [ [ [a|]|e| |] w1]; try done; by injection H as _ <-.
Qed.
End claims.

(** ** Suspension and resumption

    What a suspension records and where a resume leads; who creates Jobs; what a
    retry of a failed plan consumes. *)

(** ** Patches *)

Lemma patchAndPreserveStatus_ok {HK : KubeApi} f w w' :
  patchAndPreserveStatus f w = (Ok tt, w') ->
  exists c server, patch_plan (w_plan w) (f (w_plan w)) (w_cluster w) = (Ok server, c) /\
  w_plan w' = set_plan_Status (plan_Status (f (w_plan w))) server /\ w_cluster w' = c /\
  w_schedule w' = w_schedule w /\ w_hasRestoreData w' = w_hasRestoreData w /\ w_now w' = w_now w.
Proof.
  unfold patchAndPreserveStatus, st_bind, get_plan, st_gets, st_modify, api, st_lift. cbn.
  destruct (patch_plan _ _ _) as [ [s|e| |] c]; intros H; try done. exists c, s. by injection H as <-.
Qed.

(** ** Suspension *)

(** The patch of a suspension changes the annotation on the server: the cached
    plan does not carry the new value already, or the server has it too. *)
Definition records_phase {HK : KubeApi} (w : World) : Prop :=
  let v := Some (phase_string (plan_Phase (w_plan w))) in
  plan_Annotations (w_plan w) !! AnnotationSuspendedAtPhase <> v \/
  exists s, cl_plan (w_cluster w) = Some s /\ plan_Annotations s !! AnnotationSuspendedAtPhase = v.

Section suspension.
Context {HK : KubeApi} {HKL : KubeLaws} {HI : ExecutorInfra} {HJ : JSON} {HV : Validator}.

Lemma performSuspension_ok w r w' :
  performSuspension w = (Ok r, w') -> records_phase w ->
  plan_Phase (w_plan w') = PhaseSuspended /\
  plan_Annotations (w_plan w') !! AnnotationSuspendedAtPhase = Some (phase_string (plan_Phase (w_plan w))) /\
  st_CurrentOperation (plan_Status (w_plan w')) = st_CurrentOperation (plan_Status (w_plan w)) /\
  st_Executions (plan_Status (w_plan w')) = st_Executions (plan_Status (w_plan w)).
Proof.
  unfold performSuspension. unfold st_bind at 1, get_plan, st_gets. unfold st_bind at 1, failing_as, st_wrap at 1.
  set (f := fun p => put_annotation _ _ _).
  destruct (patchAndPreserveStatus f w) as [ [ []|e| |] w1] eqn:E; cbn; try done.
  apply patchAndPreserveStatus_ok in E as (c & s' & Hp & Hpl & _).
  intros H Hrec. unfold Send, assign, st_bind, st_get, st_ret, st_modify, hook, st_gets, enqueue in H. cbn in H.
  injection H as _ <-. cbn. rewrite Hpl. cbn. split; [done|]. split; [|done].
  apply patch_plan_ok in Hp as (s & Hs & _ & Hd). rewrite (patched_Annotations _ _ _ _ Hd), merge_patch_lookup.
  subst f. cbn. rewrite lookup_insert_eq. case_decide as Hv; [|done].
  destruct Hrec as [Hrec|(s0 & Hs0 & Hrec)]; [done|]. congruence.
Qed.

(** The phase a plan resumes to. *)
Definition resumed_phase (suspendedAt : PlanPhase) (op : PlanOperation) (schedule : option bool)
  (hasRestoreData : bool) : PlanPhase :=
  match suspendedAt, schedule with
  | PhaseError, _ => if bool_decide (op = OperationWakeUp) then PhaseHibernated else PhaseActive
  | PhaseHibernating, Some true => PhaseHibernating
  | PhaseHibernating, _ => PhaseActive
  | PhaseWakingUp, Some false => PhaseWakingUp
  | PhaseWakingUp, Some true => PhaseHibernated
  | PhaseHibernated, Some false => if hasRestoreData then PhaseHibernated else PhaseActive
  | _, _ => PhaseActive
  end.

(** The phases a plan can be suspended at. *)
Definition known_phase (p : PlanPhase) : bool :=
  match p with
  | PhaseActive | PhaseHibernating | PhaseHibernated | PhaseWakingUp | PhaseError => true
  | _ => false
  end.

Lemma resume_decision_phase w p :
  plan_Annotations (w_plan w) !! AnnotationSuspendedAtPhase = Some (phase_string p) -> known_phase p = true ->
  let q := resumed_phase p (st_CurrentOperation (plan_Status (w_plan w))) (w_schedule w) (w_hasRestoreData w) in
  match resume_decision w with
  | ResumeFromError q' | ResumeFromExecution q' => q' = q
  | ResumeForceWakeUp => q = PhaseHibernated
  | ResumeNormal => q = PhaseActive
  end.
Proof.
  intros Ha Hp. unfold resume_decision, annotation. rewrite Ha. cbn [default].
  destruct p; try done; unfold resumed_phase, shouldForceWakeUpOnResume; simpl.
  all: by destruct (w_schedule w) as [ []|], (w_hasRestoreData w).
Qed.

Lemma resume_phase w r w' :
  resume w = (Ok r, w') ->
  r = requeue /\
  plan_Phase (w_plan w') =
  match resume_decision w with
  | ResumeFromError q | ResumeFromExecution q => q
  | ResumeForceWakeUp => PhaseHibernated
  | ResumeNormal => PhaseActive
  end.
Proof.
  unfold resume. unfold st_bind at 1, st_get at 1. intros H.
  set (q := match resume_decision w with ResumeFromError q => q | _ => _ end).
  assert (exists w1, take_route (resume_decision w) w = (Ok tt, w1) /\ at_phase q w1) as (w1 & E & Hw1).
  { subst q. unfold take_route, resumeFromError, resumeFromExecution, forceWakeUpOnResume, Send, assign, st_bind.
    destruct (resume_decision w); cbn; eexists; by split. }
  unfold st_bind at 1 in H. rewrite E in H. unfold st_bind in H.
  pose proof (cleanupSuspensionAnnotations_frame (fun s => st_Phase s = q) w1 Hw1) as Hc.
  destruct (cleanupSuspensionAnnotations w1) as [ [u|e| |] w2]; try done. by injection H as <- <-.
Qed.

(** Between a suspension and the call that resumes the plan, the spec and the
    annotations may change, by the user or by the CLI, but for the phase that was
    recorded; the worker keeps the status in its cache ([mergeIncoming]). *)
Record suspended_since (w1 w2 : World) : Prop := {
  since_status : plan_Status (w_plan w2) = plan_Status (w_plan w1);
  since_cached : plan_Annotations (w_plan w2) !! AnnotationSuspendedAtPhase =
    plan_Annotations (w_plan w1) !! AnnotationSuspendedAtPhase;
  since_server : forall s, cl_plan (w_cluster w2) = Some s ->
    plan_Annotations s !! AnnotationSuspendedAtPhase = plan_Annotations (w_plan w1) !! AnnotationSuspendedAtPhase;
}.

(** The suspension is over: its deadline has been reached, or the user has unset it
    and there is no deadline, or it is set and its deadline has passed. *)
Definition revoked (onDeadline : bool) (w : World) : Prop :=
  onDeadline = true \/
  match plan_Annotations (w_plan w) !! AnnotationSuspendUntil with
  | None => spec_Suspend (plan_Spec (w_plan w)) = false
  | Some s => exists d, parse_RFC3339 s = Some d /\ After (w_now w) d = true /\ spec_Suspend (plan_Spec (w_plan w)) = true
  end.

Lemma revoke_ok w1 w2 w3 :
  suspended_since w1 w2 -> patchAndPreserveStatus revoke_suspension w2 = (Ok tt, w3) ->
  plan_Status (w_plan w3) = plan_Status (w_plan w1) /\
  plan_Annotations (w_plan w3) !! AnnotationSuspendedAtPhase = plan_Annotations (w_plan w1) !! AnnotationSuspendedAtPhase /\
  w_schedule w3 = w_schedule w2 /\ w_hasRestoreData w3 = w_hasRestoreData w2 /\
  (spec_Suspend (plan_Spec (w_plan w2)) = true -> spec_Suspend (plan_Spec (w_plan w3)) = false).
Proof.
  intros [Hst Hca Hse] H. apply patchAndPreserveStatus_ok in H as (c & server & Hp & Hpl & _ & Hsch & Hrd & _).
  apply patch_plan_ok in Hp as (s & Hs & _ & Hd). rewrite Hpl. cbn [set_plan_Status plan_Status plan_Annotations plan_Spec].
  split; [by rewrite <- Hst|]. split; [|split; [done|split; [done|] ] ].
  - rewrite (patched_Annotations _ _ _ _ Hd), merge_patch_lookup.
    change (plan_Annotations (revoke_suspension (w_plan w2))) with (delete AnnotationSuspendUntil (plan_Annotations (w_plan w2))).
    rewrite lookup_delete_ne by done. rewrite decide_True by done. by apply Hse.
  - intros Hsus. rewrite (patched_Suspend _ _ _ _ Hd), Hsus. by rewrite decide_False.
Qed.

(** What a resumption leads to. *)
Lemma resume_since w1 w2 r2 w3 p :
  plan_Annotations (w_plan w1) !! AnnotationSuspendedAtPhase = Some (phase_string p) -> known_phase p = true ->
  plan_Status (w_plan w2) = plan_Status (w_plan w1) ->
  plan_Annotations (w_plan w2) !! AnnotationSuspendedAtPhase = plan_Annotations (w_plan w1) !! AnnotationSuspendedAtPhase ->
  resume w2 = (Ok r2, w3) ->
  r2 = requeue /\ plan_Phase (w_plan w3) =
    resumed_phase p (st_CurrentOperation (plan_Status (w_plan w1))) (w_schedule w2) (w_hasRestoreData w2).
Proof.
  intros Ha Hp Hst Hca H. apply resume_phase in H as [-> H]. split; [done|]. rewrite H. rewrite <- Hca in Ha.
  pose proof (resume_decision_phase w2 p Ha Hp) as Hd. rewrite Hst in Hd. by destruct (resume_decision w2).
Qed.

End suspension.
