(* ===== verification/InvariantSpec.v ===== *)
(** * Invariants of a running worker

    What holds of the cached status in every state a worker can reach, whatever
    is delivered and whatever requests answer; and how the cached status relates
    to the updates that are queued for the status writer. *)
From S2P Require Import Prelude Monad GoString GoTime Types Planner Recovery Cluster Restore.
From S2P Require Import World ExecutionUtils Execution Dispatch Handlers Timer Worker StateFrame.
From Stdlib Require Import Lia.

Local Open Scope Z_scope.

(** ** A property of every status in the system *)

Section status.
Context {HK : KubeApi} {HKL : KubeLaws} {HI : ExecutorInfra} {HJ : JSON} {HV : Validator}.
Context (J : HibernatePlanStatus -> Prop).

(** The property survives every assignment the handlers make. *)
Record status_closed : Prop := {
  closed_executions : forall s l, J s -> J (set_st_Executions l s);
  closed_index : forall s i, J s -> J (set_st_CurrentStageIndex i s);
  closed_phase : forall s p, J s -> J (set_st_Phase p s);
  closed_transition : forall s t, J s -> J (set_st_LastTransitionTime t s);
  closed_error : forall s e, J s -> J (set_st_ErrorMessage e s);
  closed_retry : forall s n, J s -> J (set_st_RetryCount n s);
  closed_retry_time : forall s t, J s -> J (set_st_LastRetryTime t s);
  closed_cycle : forall s c, J s -> J (set_st_CurrentCycleID c s);
  closed_operation : forall s o, J s -> J (set_st_CurrentOperation o s);
  closed_applied : forall s a, J s -> J (set_st_AppliedExceptionOverride a s);
  closed_snapshot : forall s a, J s -> J (set_st_PlanSnapshot a s);
  closed_generation : forall s g, J s -> J (set_st_ObservedGeneration g s);
  closed_history : forall s op sum id, J s -> J (record_history (set_summary op) sum id s);
}.
Context (C : status_closed).

(** Of the cached plan and of the server's. *)
Definition everywhere (w : World) : Prop :=
  J (plan_Status (w_plan w)) /\ forall p, cl_plan (w_cluster w) = Some p -> J (plan_Status p).

(** The server's plan keeps its status. *)
Definition server_ok (c : Cluster) : Prop := forall p, cl_plan c = Some p -> J (plan_Status p).

Lemma ask_server {A} (q : Request A) : preserves server_ok (ask q).
Proof.
  apply ask_preserves. intros c Hc p Hp. pose proof (serve_plan q c) as H.
  destruct q; simpl in H; try (rewrite H in Hp; by apply Hc).
  destruct (serve _ c) as [ [e|s'] c']; simpl in *.
  - destruct H as [H|(s & s' & Hs & Hs' & Hd)]; [rewrite H in Hp; by apply Hc|].
    rewrite Hs' in Hp. injection Hp as <-. rewrite (patched_Status _ _ _ _ Hd). by apply Hc.
  - destruct H as (H & s & Hs & Hd). rewrite H in Hp. injection Hp as <-.
    rewrite (patched_Status _ _ _ _ Hd). by apply Hc.
Qed.

Lemma patch_plan_server orig p : preserves server_ok (patch_plan orig p).
Proof. apply ask_server. Qed.

Lemma patch_plan_answer orig p c s c' :
  server_ok c -> patch_plan orig p c = (Ok s, c') -> J (plan_Status s).
Proof.
  intros Hc H. apply patch_plan_ok in H as (s0 & Hs & _ & Hd). rewrite (patched_Status _ _ _ _ Hd).
  by apply Hc.
Qed.
End status.

Ltac server_step :=
  lazymatch goal with
  | |- forall _, _ => intros
  | |- preserves _ (st_bind _ _) => apply preserves_bind
  | |- preserves _ (st_try _) => apply preserves_try
  | |- preserves _ (st_wrap _ _) => apply preserves_wrap
  | |- preserves _ (st_throw _) => apply preserves_throw
  | |- preserves _ (st_ret _) => apply preserves_ret
  | |- preserves _ st_panic => apply preserves_panic
  | |- preserves _ st_get => apply preserves_get
  | |- preserves _ (st_gets _) => apply preserves_gets
  | |- preserves _ (ask _) => apply ask_server
  | |- preserves _ (match ?x with _ => _ end) => destruct x eqn:?
  | |- preserves _ (let '(_, _) := ?x in _) => destruct x eqn:?
  | |- preserves _ _ => match goal with H : _ |- _ => simple apply H end
  end.
Ltac server := repeat server_step.

Section requests.
Context {HK : KubeApi} {HKL : KubeLaws} {HJ : JSON} (J : HibernatePlanStatus -> Prop).

Lemma get_configmap_server ns n : preserves (server_ok J) (get_configmap ns n).
Proof. unfold get_configmap. server. Qed.
Lemma create_configmap_server ns n cm : preserves (server_ok J) (create_configmap ns n cm).
Proof. unfold create_configmap. server. Qed.
Lemma update_configmap_server ns n cm : preserves (server_ok J) (update_configmap ns n cm).
Proof. unfold update_configmap. server. Qed.
Lemma list_jobs_server ns sel : preserves (server_ok J) (list_jobs ns sel).
Proof. unfold list_jobs. server. Qed.
Lemma list_pods_server ns sel : preserves (server_ok J) (list_pods ns sel).
Proof. unfold list_pods. server. Qed.
Lemma create_job_server g j : preserves (server_ok J) (create_job g j).
Proof. unfold create_job. server. Qed.
Lemma delete_job_server ns n : preserves (server_ok J) (delete_job ns n).
Proof. unfold delete_job. server. Qed.
Lemma patch_job_labels_server ns n l : preserves (server_ok J) (patch_job_labels ns n l).
Proof. unfold patch_job_labels. server. Qed.

Lemma manager_server :
  (forall ns p t, preserves (server_ok J) (Load ns p t)) /\
  (forall ns p, preserves (server_ok J) (PrepareRestorePoint ns p)) /\
  (forall ns p l, preserves (server_ok J) (MarkAllTargetsRestored ns p l)) /\
  (forall ns p, preserves (server_ok J) (UnlockRestoreData ns p)).
Proof.
  pose proof get_configmap_server. pose proof create_configmap_server. pose proof update_configmap_server.
  unfold Load, PrepareRestorePoint, MarkAllTargetsRestored, UnlockRestoreData, getConfigMap, writeConfigMap.
  split_and!; server.
Qed.
End requests.

(** ** The handlers *)

Section handlers.
Context {HK : KubeApi} {HKL : KubeLaws} {HI : ExecutorInfra} {HJ : JSON} {HV : Validator} (J : HibernatePlanStatus -> Prop) (C : status_closed J).
Notation I := (everywhere J).

Lemma lift_everywhere {E A} (m : ST Cluster E A) :
  preserves (server_ok J) m -> preserves I (st_lift w_cluster set_w_cluster m).
Proof.
  intros Hm w [Hp Hs]. unfold st_lift. specialize (Hm _ Hs). by destruct (m (w_cluster w)).
Qed.

Lemma modify_everywhere {E} f :
  (forall w, w_cluster (f w) = w_cluster w) -> (forall w, J (plan_Status (w_plan w)) -> J (plan_Status (w_plan (f w)))) ->
  preserves I (st_modify (E:=E) f).
Proof. intros Hc Hf. apply preserves_modify. intros w [Hp Hs]. split; [by apply Hf|]. by rewrite Hc. Qed.

Lemma Send_everywhere {E} pre f post : (forall now s, J s -> J (f now s)) ->
  preserves I (Send (E:=E) pre (assign f) post).
Proof. intros Hf w [Hp Hs]. split; [|exact Hs]. by apply Hf. Qed.

Lemma Send_mutator_everywhere {E} pre (m : Mutator) post :
  (forall now p p', m now p = Some p' -> J (plan_Status p) -> J (plan_Status p')) ->
  preserves I (Send (E:=E) pre m post).
Proof.
  intros Hm w Hw. unfold Send, st_bind, st_get. destruct (m (w_now w) (w_plan w)) eqn:E'; [|done].
  destruct Hw as [Hp Hs]. split; [|exact Hs]. by apply (Hm _ _ _ E').
Qed.

Lemma patchAndPreserveStatus_everywhere f : (forall p, plan_Status (f p) = plan_Status p) ->
  preserves I (patchAndPreserveStatus f).
Proof.
  intros Hf w [Hp Hs]. unfold patchAndPreserveStatus, st_bind, get_plan, st_gets, st_modify, api, st_lift. cbn.
  pose proof (patch_plan_server J (w_plan w) (f (w_plan w)) _ Hs) as Hc.
  destruct (patch_plan _ _ _) as [ [p|e| |] c]; split; cbn; rewrite ?Hf; done.
Qed.

Lemma patch_object_everywhere f : (forall p, plan_Status (f p) = plan_Status p) ->
  preserves I (patch_object f).
Proof.
  intros Hf w [Hp Hs]. unfold patch_object, st_bind, get_plan, st_gets, st_modify, api, st_lift. cbn.
  pose proof (patch_plan_server J (w_plan w) (f (w_plan w)) _ Hs) as Hc.
  destruct (patch_plan _ _ _) as [ [p|e| |] c] eqn:E; split; cbn; rewrite ?Hf; try done.
  exact (patch_plan_answer J _ _ _ _ _ Hs E).
Qed.

Lemma modify_effective_everywhere {E} f : (forall p, J (plan_Status p) -> J (plan_Status (f p))) ->
  preserves I (modify_effective (E:=E) f).
Proof. intros Hf. apply modify_everywhere; intros w; destruct (w_effective w); cbn; auto. Qed.

Lemma Send_effective_everywhere {E} f post : (forall now s, J s -> J (f now s)) ->
  preserves I (Send_effective (E:=E) (assign f) post).
Proof.
  intros Hf [cl now p [ef|] sch exc hr nt q ms st uu dr] [Hp Hs]; (split; [|exact Hs]); [exact Hp|].
  by apply Hf.
Qed.
End handlers.

(** The assignments, in any combination. *)
Ltac closed C :=
  lazymatch goal with
  | |- ?J (set_st_Executions _ _) => apply (closed_executions J C); closed C
  | |- ?J (set_st_CurrentStageIndex _ _) => apply (closed_index J C); closed C
  | |- ?J (set_st_Phase _ _) => apply (closed_phase J C); closed C
  | |- ?J (set_st_LastTransitionTime _ _) => apply (closed_transition J C); closed C
  | |- ?J (set_st_ErrorMessage _ _) => apply (closed_error J C); closed C
  | |- ?J (set_st_RetryCount _ _) => apply (closed_retry J C); closed C
  | |- ?J (set_st_LastRetryTime _ _) => apply (closed_retry_time J C); closed C
  | |- ?J (set_st_CurrentCycleID _ _) => apply (closed_cycle J C); closed C
  | |- ?J (set_st_CurrentOperation _ _) => apply (closed_operation J C); closed C
  | |- ?J (set_st_AppliedExceptionOverride _ _) => apply (closed_applied J C); closed C
  | |- ?J (set_st_PlanSnapshot _ _) => apply (closed_snapshot J C); closed C
  | |- ?J (set_st_ObservedGeneration _ _) => apply (closed_generation J C); closed C
  | |- ?J (record_history _ _ _ _) => apply (closed_history J C); closed C
  | |- ?J (match ?x with _ => _ end) => destruct x; closed C
  | |- ?J _ => assumption
  end.

Ltac every_step C :=
  lazymatch goal with
  | |- forall _, _ => intros
  | |- preserves _ (st_bind _ _) => apply preserves_bind
  | |- preserves _ (st_try _) => apply preserves_try
  | |- preserves _ (st_wrap _ _) => apply preserves_wrap
  | |- preserves _ (st_throw _) => apply preserves_throw
  | |- preserves _ (st_ret _) => apply preserves_ret
  | |- preserves _ st_panic => apply preserves_panic
  | |- preserves _ st_get => apply preserves_get
  | |- preserves _ (st_gets _) => apply preserves_gets
  | |- preserves _ (st_lift w_cluster _ _) => apply lift_everywhere
  | |- preserves _ (api _) => apply lift_everywhere
  | |- preserves _ (restore _) => apply lift_everywhere
  | |- preserves _ (patchAndPreserveStatus _) => apply patchAndPreserveStatus_everywhere; by intros; cbn
  | |- preserves _ (patch_object _) => apply patch_object_everywhere; by intros; cbn
  | |- preserves _ (Send _ (assign _) _) => apply Send_everywhere; intros; closed C
  | |- preserves _ (Send_effective (assign _) _) => apply Send_effective_everywhere; intros; closed C
  | |- preserves _ (modify_effective (on_status _)) => apply modify_effective_everywhere; intros; unfold on_status; cbn [plan_Status set_plan_Status]; closed C
  | |- preserves (everywhere _) (st_modify _) =>
      apply modify_everywhere; [intros; cbn; by repeat case_match|intros; cbn; repeat case_match; auto]
  | |- preserves _ (match ?x with _ => _ end) => destruct x eqn:?
  | |- preserves _ (let '(_, _) := ?x in _) => destruct x eqn:?
  | |- preserves _ _ => match goal with H : _ |- _ => simple apply H end
  end.
Ltac every C := repeat every_step C.

Section all_handlers.
Context {HK : KubeApi} {HKL : KubeLaws} {HI : ExecutorInfra} {HJ : JSON} {HV : Validator} (J : HibernatePlanStatus -> Prop) (C : status_closed J).
Notation I := (everywhere J).

Lemma observe_everywhere {E} jobs : preserves I (updateExecutionStatuses (E:=E) jobs).
Proof.
  pose proof list_pods_server.
  assert (forall E plan exec, preserves I (observe_target (E:=E) plan jobs exec)) as Ht.
  { unfold observe_target, observe_job, observe_missing, getTerminationMessageFromPod,
      trackConsecutiveJobMiss, resetConsecutiveJobMiss. every C. }
  assert (forall E plan execs, preserves I (observe_all (E:=E) plan jobs execs)) as Ha.
  { intros E' plan execs. induction execs; cbn [observe_all]; every C. }
  unfold updateExecutionStatuses, get_effective. every C.
Qed.

Lemma getCurrentCycleJobs_everywhere plan : preserves I (getCurrentCycleJobs plan).
Proof. pose proof list_jobs_server. unfold getCurrentCycleJobs. every C. Qed.

Lemma dispatch_everywhere jobs stage op : preserves I (executeForStage jobs stage op).
Proof.
  pose proof create_job_server.
  assert (forall t msg, preserves I (pruneTarget t msg)).
  { intros t msg. unfold pruneTarget, abort_target. every C. }
  assert (forall maxc running targets created, preserves I (dispatch_loop jobs op maxc running targets created)).
  { intros maxc running targets. induction targets as [|t targets IH]; intros created; cbn [dispatch_loop];
      unfold get_effective, createRunnerJob, get_now; every C. }
  unfold executeForStage. every C.
Qed.

Lemma execute_everywhere op reverse fin : preserves I fin -> preserves I (execute op reverse fin).
Proof.
  intros Hf. pose proof getCurrentCycleJobs_everywhere. pose proof (fun jobs => @observe_everywhere goerr jobs).
  pose proof dispatch_everywhere.
  unfold execute, execute_stage, get_effective, returning, slice_get, nextStage. every C.
Qed.

Lemma complete_everywhere op p : preserves I (complete_operation op p).
Proof. unfold complete_operation, get_plan. every C. Qed.

Lemma postWakeupCleanup_everywhere : preserves I postWakeupCleanup.
Proof.
  destruct (manager_server J) as (_ & _ & Hm & Hu). unfold postWakeupCleanup, get_plan. every C.
Qed.

Lemma hibernating_everywhere : preserves I hibernating_Handle.
Proof.
  pose proof complete_everywhere.
  unfold hibernating_Handle, get_plan. every C. apply execute_everywhere.
  unfold hibernating_finalize, get_plan. every C.
Qed.

Lemma wakingup_everywhere : preserves I wakingup_Handle.
Proof.
  pose proof complete_everywhere. pose proof postWakeupCleanup_everywhere.
  unfold wakingup_Handle, get_plan. every C. apply execute_everywhere.
  unfold wakingup_finalize, get_plan. every C.
Qed.

Lemma transitionToHibernating_everywhere fresh : preserves I (transitionToHibernating fresh).
Proof.
  destruct (manager_server J) as (Hl & _).
  unfold transitionToHibernating, cycle_id, getExistingCycleIDForHibernation, new_cycle_id, get_plan, start_hibernating.
  assert (forall ns p l, preserves I (existing_cycle_id ns p l)).
  { intros ns p l. induction l; cbn [existing_cycle_id]; every C. }
  every C.
Qed.

Lemma transitionToWakingUp_everywhere : preserves I transitionToWakingUp.
Proof. unfold transitionToWakingUp, get_plan, get_now, start_wakingup. every C. Qed.

Lemma performSuspension_everywhere : preserves I performSuspension.
Proof. unfold performSuspension, failing_as, get_plan. every C. Qed.

Lemma resume_everywhere : preserves I resume.
Proof.
  unfold resume, take_route, cleanupSuspensionAnnotations, non_fatal, get_plan, resumeFromError,
    resumeFromExecution, forceWakeUpOnResume, get_now, transition, on_status. every C.
  cbn. closed C.
Qed.

Lemma handleRetry_everywhere lastErr : preserves I (handleRetry lastErr).
Proof.
  pose proof list_jobs_server. pose proof patch_job_labels_server.
  assert (forall l, preserves I (relabel_jobs l)) by (intros l; induction l; cbn [relabel_jobs]; every C).
  unfold handleRetry, relabelStaleFailedJobs, non_fatal. every C.
  apply Send_mutator_everywhere. intros now p p'. unfold retry_mutator, RecordRetryAttempt, on_status.
  destruct (match st_LastRetryTime _ with Some _ => _ | None => _ end).
  - intros [= <-] Hp. cbn [plan_Status set_plan_Status]. closed C.
  - destruct (slice_at _ _); intros [= <-] Hp; cbn [plan_Status set_plan_Status]. closed C.
Qed.

(** Every call of a handler. *)
Lemma invoke_everywhere h onDeadline : preserves I (invoke h onDeadline).
Proof.
  destruct (manager_server J) as (_ & Hprep & _).
  pose proof list_jobs_server. pose proof delete_job_server.
  pose proof getCurrentCycleJobs_everywhere. pose proof (fun jobs => @observe_everywhere goerr jobs).
  pose proof transitionToHibernating_everywhere. pose proof transitionToWakingUp_everywhere.
  pose proof performSuspension_everywhere. pose proof resume_everywhere. pose proof handleRetry_everywhere.
  pose proof hibernating_everywhere. pose proof wakingup_everywhere.
  destruct onDeadline; destruct h as [ [] | | | | | | | |]; cbn [invoke OnDeadline Handle].
  all: unfold override_OnDeadline, suspended_OnDeadline, handleDelete, lifecycle_handle, preSuspension_Handle,
    awaitExecutionDrain, idle_Handle, restart_Handle, override_Handle, consumeRestart, consumeFresh,
    suspended_Handle, stay_or_resume, recovery_Handle, handleManualRetry, clearRetryAtAnnotation,
    non_fatal, returning, failing_as, ignoring_not_found, get_plan, get_now.
  all: every C.
  all: try (match goal with |- preserves _ (st_iter _ ?l) => induction l; cbn [st_iter] end; every C).
Qed.

Lemma handler_OnError_everywhere h err : preserves I (handler_OnError h err).
Proof.
  assert (preserves I (OnError err)) by (unfold OnError, setError, get_plan; every C).
  destruct h; cbn [handler_OnError]; unfold execution_OnError, get_plan; every C.
Qed.

Lemma call_handler_everywhere h onDeadline : preserves I (call_handler h onDeadline).
Proof.
  unfold call_handler. apply preserves_bind; [apply preserves_try, invoke_everywhere|].
  intros [e|a]; [apply handler_OnError_everywhere|apply preserves_ret].
Qed.
End all_handlers.

(** ** The worker *)

Section worker.
Context {HK : KubeApi} {HKL : KubeLaws} {HI : ExecutorInfra} {HJ : JSON} {HV : Validator} (J : HibernatePlanStatus -> Prop) (C : status_closed J).

Definition worker_inv (s : Worker) : Prop :=
  server_ok J (w_cluster (wk_world s)) /\
  (wk_cached s = true -> J (plan_Status (w_plan (wk_world s)))) /\
  (forall pc, wk_slot s = Some pc -> J (plan_Status (pc_Plan pc))).

(** With a cached context. *)
Definition busy (s : Worker) : Prop := worker_inv s /\ wk_cached s = true.

Lemma timers_busy f : preserves busy (timers f).
Proof. apply preserves_modify. by intros s [Hs Hc]. Qed.

Lemma handle_busy onDeadline : preserves busy (handle onDeadline).
Proof.
  unfold handle. generalize maxHandleDepth as fuel. intros fuel. revert onDeadline.
  induction fuel as [|fuel IH]; intros onDeadline; cbn [handleWithDepth]; [apply preserves_ret|].
  apply preserves_bind; [apply preserves_get|]. intros s0. destruct (selectHandler _ _) as [h|]; [|apply preserves_ret].
  apply preserves_bind.
  - intros s [ (H1 & H2 & H3) H4]. unfold st_lift.
    pose proof (call_handler_everywhere J C h onDeadline (wk_world s) (conj (H2 H4) H1)) as [Hp Hc].
    destruct (call_handler h onDeadline (wk_world s)) as [r w]. by repeat split.
  - intros r. destruct (Requeue r); [|apply timers_busy].
    apply preserves_bind; [apply timers_busy|]. intros _. apply IH.
Qed.

Lemma handle_cached_inv onDeadline : preserves worker_inv (handle_cached onDeadline).
Proof.
  unfold handle_cached. intros s Hs. unfold st_bind, st_get. destruct (wk_cached s) eqn:Hc; [|done].
  by apply (handle_busy onDeadline s).
Qed.

Lemma timers_inv f : preserves worker_inv (timers f).
Proof. apply preserves_modify. by intros s Hs. Qed.

Lemma receive_inv : preserves worker_inv receive.
Proof.
  intros s Hs. pose proof Hs as (H1 & H2 & H3). unfold receive. unfold st_bind at 1, st_get.
  destruct (wk_slot s) as [pc|] eqn:Hpc; [|exact Hs].
  set (s1 := mergeIncoming pc (set_wk_slot None s)).
  assert (busy s1) as Hb.
  { split; [|done]. split; [exact H1|]. split; [|done]. intros _. cbn.
    destruct (wk_cached s); cbn; [by apply H2|by apply H3]. }
  change (worker_inv (st_bind (handle false) (fun _ => timers KeepAlive) s1).2).
  apply (preserves_bind busy); [apply handle_busy|intros; apply timers_busy|exact Hb].
Qed.

Lemma take_timer_inv : preserves worker_inv take_timer.
Proof.
  unfold take_timer, timer_callback. apply preserves_bind; [apply preserves_get|]. intros s.
  destruct (ts_out _) as [n|]; [|apply preserves_ret].
  apply preserves_bind; [apply timers_inv|]. intros _. apply preserves_bind; [apply timers_inv|]. intros _.
  destruct n; [..|apply preserves_ret];
    (apply preserves_bind; [apply handle_cached_inv|intros _]);
    (apply preserves_bind; [apply timers_inv|intros _]); apply preserves_ret.
Qed.

Lemma worker_step_inv s s' : worker_step J s s' -> worker_inv s -> worker_inv s'.
Proof.
  intros Hstep Hs. destruct Hstep.
  - destruct Hs as (H1 & H2 & H3). split; [done|]. split; [done|]. cbn. by intros pc' [= <-].
  - pose proof (receive_inv _ Hs) as Hr. by match goal with H : receive _ = _ |- _ => rewrite H in Hr end.
  - done.
  - pose proof (take_timer_inv _ Hs) as Hr. by match goal with H : take_timer _ = _ |- _ => rewrite H in Hr end.
  - done.
  - destruct Hs as (H1 & H2 & H3). by split.
  - done.
  - done.
  - done.
Qed.

Lemma reachable_inv w s :
  server_ok J (w_cluster w) -> rtc (worker_step J) (new_worker w) s -> worker_inv s.
Proof.
  intros Hw Hr. assert (worker_inv (new_worker w)) as Hi by (split; [done|]; split; done).
  revert Hi. induction Hr as [s|s s1 s2 H1 _ IH]; [done|]. intros Hi. apply IH. by eapply worker_step_inv.
Qed.
End worker.

(** ** The execution history *)

(** At most five cycles, one entry per cycle, each with the summary of an operation. *)
Definition history_wf (s : HibernatePlanStatus) : Prop :=
  (length (st_ExecutionHistory s) <= 5)%nat /\
  NoDup (map cyc_CycleID (st_ExecutionHistory s)) /\
  Forall (fun c => is_Some (cyc_ShutdownExecution c) \/ is_Some (cyc_WakeupExecution c)) (st_ExecutionHistory s).

Lemma update_cycle_ids id f h : (forall c, cyc_CycleID (f c) = cyc_CycleID c) ->
  map cyc_CycleID (update_cycle id f h) =
  map cyc_CycleID h ++ (if bool_decide (id ∈ map cyc_CycleID h) then [] else [id]).
Proof.
  intros Hf. induction h as [|c h IH]; [by cbn; rewrite Hf|]. cbn [update_cycle map].
  destruct (cyc_CycleID c =? id)%string eqn:E; reflect; cbn [map].
  - rewrite Hf, E. rewrite bool_decide_eq_true_2 by (by left). by rewrite app_nil_r.
  - rewrite IH. cbn [app]. f_equal. f_equal.
    destruct (bool_decide (id ∈ map cyc_CycleID h)) eqn:E'; reflect.
    + by rewrite bool_decide_eq_true_2 by (by right).
    + rewrite bool_decide_eq_false_2; [done|]. rewrite elem_of_cons. by intros [?|?].
Qed.

Lemma set_summary_id op sum c : cyc_CycleID (set_summary op sum c) = cyc_CycleID c.
Proof. unfold set_summary. by case_bool_decide. Qed.

Lemma history_wf_record s op sum id : history_wf s -> history_wf (record_history (set_summary op) sum id s).
Proof.
  intros (_ & Hnd & Hall). unfold record_history, history_wf. cbn.
  split; [apply length_pruneCycleHistory|].
  set (h := update_cycle _ _ _).
  assert (NoDup (map cyc_CycleID h)) as Hnd'.
  { subst h. rewrite update_cycle_ids by (intros; apply set_summary_id).
    case_bool_decide; [by rewrite app_nil_r|]. apply NoDup_app. split; [done|]. split; [|apply NoDup_singleton].
    intros x Hx Hx'. apply list_elem_of_singleton in Hx'. by subst x. }
  assert (Forall (fun c => is_Some (cyc_ShutdownExecution c) \/ is_Some (cyc_WakeupExecution c)) h) as Hall'.
  { subst h. clear Hnd Hnd'. assert (forall c, is_Some (cyc_ShutdownExecution (set_summary op (Some sum) c)) \/
      is_Some (cyc_WakeupExecution (set_summary op (Some sum) c))) as Hset.
    { intros c. unfold set_summary. case_bool_decide; cbn; eauto. }
    induction Hall as [|c h Hc Hh IH]; cbn [update_cycle]; [by constructor|].
    destruct (_ =? _)%string; by constructor. }
  unfold pruneCycleHistory. destruct (_ <? _)%nat; [|done].
  split; [|by apply Forall_drop]. rewrite <- skipn_map. eapply sublist_NoDup; [done|apply sublist_drop].
Qed.

Lemma history_wf_closed : status_closed history_wf.
Proof. split; try done. intros. by apply history_wf_record. Qed.

Section claims.
Context {HK : KubeApi} {HKL : KubeLaws} {HI : ExecutorInfra} {HJ : JSON} {HV : Validator}.

(** C14: in every state a worker can reach, through any deliveries, timer events and
    answers of the API server, the cached plan's history holds at most five
    cycles, one entry per cycle, each with the summary of an operation. *)
Theorem history_invariant w s :
  (forall p, cl_plan (w_cluster w) = Some p -> history_wf (plan_Status p)) ->
  rtc (worker_step history_wf) (new_worker w) s -> wk_cached s = true ->
  history_wf (plan_Status (w_plan (wk_world s))).
Proof.
  intros Hw Hr. apply (reachable_inv _ history_wf_closed _ _ Hw Hr).
Qed.
End claims.
