(* ===== verification/ExecutionSpec.v ===== *)
(** * Properties of the execution of an operation

    Identifiers, lost Jobs, the Strict behaviour, and the locked plan of a
    cycle. *)
From S2P Require Import Prelude Monad GoString GoTime Types Planner Recovery Cluster Restore World.
From S2P Require Import ExecutionUtils Execution Dispatch Handlers Worker StateFrame PhaseSpec DispatchSpec.
From Stdlib Require Import Lia.

Local Open Scope Z_scope.

(** ** The length of an execution identifier *)

Lemma length_pretty_N_go (k : nat) (x : N) s :
  (x < 10 ^ N.of_nat k)%N -> (String.length (pretty_N_go x s) <= k + String.length s)%nat.
Proof.
  revert x s. induction k as [|k IH]; intros x s Hx.
  - assert (x = 0%N) as -> by (change (10 ^ N.of_nat 0)%N with 1%N in Hx; lia). by rewrite pretty_N_go_0.
  - destruct (decide (x = 0%N)) as [->|]; [rewrite pretty_N_go_0; lia|].
    rewrite pretty_N_go_step by lia.
    assert (x `div` 10 < 10 ^ N.of_nat k)%N as Hd.
    { rewrite Nat2N.inj_succ, N.pow_succ_r' in Hx. apply N.Div0.div_lt_upper_bound; lia. }
    apply (IH _ (String (pretty_N_char (x `mod` 10)) s)) in Hd. cbn [String.length] in Hd. lia.
Qed.

Lemma length_pretty_N (k : nat) (x : N) :
  (1 <= k)%nat -> (x < 10 ^ N.of_nat k)%N -> (String.length (pretty x) <= k)%nat.
Proof.
  intros Hk Hx. unfold pretty, pretty_N. case_decide; [cbn; lia|].
  pose proof (length_pretty_N_go k x "" Hx) as Hl. cbn [String.length] in Hl. lia.
Qed.

(** A 64-bit integer has at most 20 characters. *)
Lemma length_sprint_d z : in_int64 z -> (String.length (sprint_d z) <= 20)%nat.
Proof.
  intros Hz. unfold in_int64 in Hz. unfold sprint_d, pretty, pretty_Z.
  assert (forall p, (Z.pos p <= 2 ^ 63)%Z -> (String.length (pretty (N.pos p)) <= 19)%nat) as Hp.
  { intros p Hp. apply length_pretty_N; [lia|]. change (10 ^ N.of_nat 19)%N with 10000000000000000000%N. lia. }
  destruct z as [|p|p]; [cbn; lia| |].
  - transitivity 19%nat; [apply (Hp p); lia|lia].
  - cbn. apply le_n_S. apply (Hp p). lia.
Qed.

Lemma length_append_string (a b : string) : String.length (a ++ b) = (String.length a + String.length b)%nat.
Proof. induction a as [|c a IH]; [done|]. cbn. by rewrite <- IH. Qed.

(** The execution identifier of a Job is a valid label value: at most 63
    characters for any plan and target names and any time of the 64-bit clock. *)
Theorem execution_id_label planName targetName now :
  in_int64 (unix_ns now / Second) ->
  (String.length (execution_id planName targetName now) <= 63)%nat.
Proof.
  intros Hnow. pose proof (length_sprint_d _ Hnow) as Hts. unfold execution_id.
  set (ts := sprint_d _) in *.
  pose proof (length_ShortenName (planName ++ "-" ++ targetName) (63 - String.length ts - 1)) as Hs.
  rewrite !length_append_string. cbn [String.length]. lia.
Qed.

(** ** Lost Jobs *)

Definition job_absent (exec : ExecutionStatus) (jobs : list Job) : Prop :=
  find_first (job_matches exec) jobs = None.

(** A running target. *)
Definition running (exec : ExecutionStatus) : Prop :=
  exec_State exec = StateRunning /\ exec_FinishedAt exec = None.

Lemma observe_absent {HK : KubeApi} {E} plan jobs exec w :
  running exec -> job_absent exec jobs -> executing_phase (plan_Phase (w_plan w)) = true ->
  let n := default 0 (w_misses w !! exec_Target exec) + 1 in
  observe_target (E:=E) plan jobs exec w =
  if 3 <=? n
  then (Ok (set_exec_State StatePending exec), set_w_misses (delete (exec_Target exec) (w_misses w)) w)
  else (Ok exec, set_w_misses (<[exec_Target exec := n]> (w_misses w)) w).
Proof.
  intros [Hs Hf] Ha Hx n. unfold observe_target. rewrite Ha. unfold observe_missing.
  rewrite Hs, Hf. rewrite bool_decide_eq_true_2 by done. unfold trackConsecutiveJobMiss, st_bind, st_get.
  rewrite Hx. cbn [negb]. fold n. change consecutiveJobMissThreshold with 3. by destruct (3 <=? n).
Qed.

Lemma observe_job_misses {HK : KubeApi} {E} plan exec job w :
  w_misses (observe_job (E:=E) plan exec job w).2 !! exec_Target exec = None.
Proof.
  unfold observe_job, resetConsecutiveJobMiss. unfold st_bind at 1, st_modify at 1.
  set (w1 := set_w_misses _ _).
  assert (w_misses w1 !! exec_Target exec = None) as Hw1
    by (subst w1; cbn [w_misses set_w_misses]; apply lookup_delete_eq).
  set (P := fun u => w_misses u !! exec_Target exec = None).
  assert (forall job, preserves P (getTerminationMessageFromPod (E:=E) job)) as Hg.
  { intros j. unfold getTerminationMessageFromPod. apply preserves_bind.
    - apply preserves_try. intros u Hu. unfold api, st_lift. by destruct (list_pods _ _ _).
    - intros [?|?]; apply preserves_ret. }
  match goal with |- w_misses (?m w1).2 !! _ = None => assert (preserves P m) as Hp; [|exact (Hp w1 Hw1)] end.
  cbv zeta. apply preserves_bind.
  - destruct (final_condition job); [|apply preserves_ret].
    apply preserves_bind; [apply Hg|]. intros ?. apply preserves_ret.
  - intros e3. apply preserves_bind; [|intros ?; apply preserves_ret].
    destruct (_ && _); [|apply preserves_ret]. by apply preserves_modify.
Qed.

(** A running target whose Job is missing is made pending again at the third
    consecutive observation without it and no sooner; an observation that finds
    the Job starts the count again. *)
Theorem job_lost_after_three {HK : KubeApi} {E} plan exec w jobs1 jobs2 jobs3 :
  running exec -> executing_phase (plan_Phase (w_plan w)) = true ->
  w_misses w !! exec_Target exec = None ->
  job_absent exec jobs1 -> job_absent exec jobs2 -> job_absent exec jobs3 ->
  exists w1 w2 w3,
    observe_target (E:=E) plan jobs1 exec w = (Ok exec, w1) /\
    observe_target (E:=E) plan jobs2 exec w1 = (Ok exec, w2) /\
    observe_target (E:=E) plan jobs3 exec w2 = (Ok (set_exec_State StatePending exec), w3) /\
    w_misses w3 !! exec_Target exec = None /\
    forall job v r v', observe_job (E:=E) plan exec job v = (r, v') -> w_misses v' !! exec_Target exec = None.
Proof.
  intros Hrun Hx Hm H1 H2 H3.
  pose proof (observe_absent (E:=E) plan jobs1 exec w Hrun H1 Hx) as E1. rewrite Hm in E1. cbn [default] in E1.
  set (w1 := set_w_misses (<[exec_Target exec := 1]> (w_misses w)) w) in *.
  pose proof (observe_absent (E:=E) plan jobs2 exec w1 Hrun H2 Hx) as E2.
  assert (w_misses w1 !! exec_Target exec = Some 1) as Hm1 by (subst w1; cbn [w_misses set_w_misses]; by rewrite lookup_insert_eq).
  rewrite Hm1 in E2. set (w2 := set_w_misses (<[exec_Target exec := 2]> (w_misses w1)) w1) in *.
  pose proof (observe_absent (E:=E) plan jobs3 exec w2 Hrun H3 Hx) as E3.
  assert (w_misses w2 !! exec_Target exec = Some 2) as Hm2 by (subst w2; cbn [w_misses set_w_misses]; by rewrite lookup_insert_eq).
  rewrite Hm2 in E3.
  exists w1, w2, (set_w_misses (delete (exec_Target exec) (w_misses w2)) w2).
  split; [exact E1|]. split; [exact E2|]. split; [exact E3|].
  split; [cbn [w_misses set_w_misses]; apply lookup_delete_eq|].
  intros job v r v' Ho.
  pose proof (observe_job_misses (E:=E) plan exec job v) as Hv. by rewrite Ho in Hv.
Qed.

(** ** The Strict behaviour *)

Section strict.
Context {HK : KubeApi} {HI : ExecutorInfra} {HJ : JSON} {HV : Validator}.

(** What an error of the plan leaves behind. *)
Definition failed_with (e : goerr) (s s' : HibernatePlanStatus) : Prop :=
  st_Phase s' = PhaseError /\ st_ErrorMessage s' = ge_text e /\
  st_CurrentStageIndex s' = st_CurrentStageIndex s /\ st_CurrentCycleID s' = st_CurrentCycleID s /\
  st_CurrentOperation s' = st_CurrentOperation s /\ st_Executions s' = st_Executions s /\
  st_PlanSnapshot s' = st_PlanSnapshot s /\ st_RetryCount s' = st_RetryCount s.

Lemma OnError_plan e w r w' :
  ge_plan e = true -> OnError e w = (Ok r, w') ->
  r = requeue /\ failed_with e (plan_Status (w_plan w)) (plan_Status (w_plan w')).
Proof.
  intros He. unfold OnError. rewrite He. unfold setError, get_plan, Send, assign, st_bind. cbn.
  intros [= <- <-]. done.
Qed.

Lemma handler_OnError_plan h e w r w' :
  ge_plan e = true -> handler_OnError h e w = (Ok r, w') ->
  r = requeue /\ failed_with e (plan_Status (w_plan w)) (plan_Status (w_plan w')).
Proof.
  intros He. assert (forall op, execution_OnError op e w = (Ok r, w') ->
    r = requeue /\ failed_with e (plan_Status (w_plan w)) (plan_Status (w_plan w'))) as Hx.
  { intros op. unfold execution_OnError, get_plan. unfold st_bind at 1, st_gets. rewrite He. cbn [andb].
    destruct (hasExecutionProgress _).
    - unfold st_bind at 1, Send, assign. unfold st_bind at 1. cbn. intros H.
      apply OnError_plan in H; [|done]. exact H.
    - unfold st_bind, st_ret. intros H. by apply OnError_plan in H. }
  destruct h; cbn [handler_OnError]; first [by apply Hx|by apply OnError_plan].
Qed.

End strict.

(** ** The locked plan of a cycle *)

Section locked.
Context {HK : KubeApi} {HJ : JSON}.

Lemma cycle_id_same fresh plan w :
  let w' := (cycle_id fresh plan w).2 in
  w_now w' = w_now w /\ w_exceptions w' = w_exceptions w /\ w_plan w' = w_plan w.
Proof.
  set (P := fun v => w_now v = w_now w /\ w_exceptions v = w_exceptions w /\ w_plan v = w_plan w).
  assert (preserves P (cycle_id fresh plan)) as Hp; [|by apply (Hp w)].
  assert (preserves P new_cycle_id) as Hnew.
  { unfold new_cycle_id. apply preserves_bind; [apply preserves_get|]. intros v.
    apply preserves_bind; [by apply preserves_modify|]. intros ?. apply preserves_ret. }
  assert (forall ns n l, preserves P (existing_cycle_id ns n l)) as He.
  { intros ns n l. induction l as [|t l IH]; cbn [existing_cycle_id]; [apply preserves_ret|].
    apply preserves_bind; [apply preserves_try; intros v Hv; unfold restore, st_lift; by destruct (Load _ _ _ _)|].
    intros [?|[d|] ]; try done. destruct (_ && _); [apply preserves_ret|done]. }
  unfold cycle_id, getExistingCycleIDForHibernation. destruct fresh; [done|].
  apply preserves_bind; [apply He|]. intros c. destruct (_ =? _)%string; [done|apply preserves_ret].
Qed.

(** *** The rest of the cycle *)

(** The same cycle, with the same lock. *)
Definition same_cycle (s0 s : HibernatePlanStatus) : Prop :=
  st_PlanSnapshot s = st_PlanSnapshot s0 /\ st_CurrentCycleID s = st_CurrentCycleID s0.

Section cycle.
Context {HKL : KubeLaws} {HI : ExecutorInfra} {HV : Validator}.
Context (s0 : HibernatePlanStatus).

Notation keeps m := (preserves (holds (same_cycle s0)) m).

Lemma start_wakeup_keeps : keeps transitionToWakingUp.
Proof. unfold transitionToWakingUp, get_plan, get_now. frame. Qed.

Lemma performSuspension_keeps : keeps performSuspension.
Proof. unfold performSuspension, failing_as, get_plan. frame. Qed.

Lemma resume_keeps : keeps resume.
Proof.
  pose proof (cleanupSuspensionAnnotations_frame (same_cycle s0)).
  assert (keeps forceWakeUpOnResume) by (by apply preserves_modify).
  assert (forall d, keeps (take_route d)) as Ht
    by (intros d; unfold take_route, resumeFromError, resumeFromExecution, get_now; frame).
  unfold resume. frame.
Qed.

Lemma handleRetry_keeps lastErr : keeps (handleRetry lastErr).
Proof.
  pose proof (relabelStaleFailedJobs_frame (same_cycle s0)). unfold handleRetry. frame.
  apply Send_mutator_frame. intros now p p'. unfold retry_mutator.
  destruct (RecordRetryAttempt _ _ _) as [q [|] ] eqn:E; unfold RecordRetryAttempt in E; cbn in E.
  all: destruct (match st_LastRetryTime _ with Some _ => _ | None => _ end); simplify_eq/=; try done.
  all: try (destruct (slice_at _ _); [|done]); intros [= <-] Hs; exact Hs.
Qed.

Lemma recovery_keeps : keeps recovery_Handle.
Proof.
  pose proof (clearRetryAtAnnotation_frame (same_cycle s0)). pose proof handleRetry_keeps.
  unfold recovery_Handle, handleManualRetry, get_plan, get_now. frame.
Qed.

Lemma execute_keeps op reverse onFinalize : keeps onFinalize -> keeps (execute op reverse onFinalize).
Proof.
  intros Hf. assert (forall s l, same_cycle s0 s -> same_cycle s0 (set_st_Executions l s)) as He by done.
  assert (forall s i, same_cycle s0 s -> same_cycle s0 (set_st_CurrentStageIndex i s)) as Hi by done.
  pose proof (fun j st o => executeForStage_frame (same_cycle s0) He j st o).
  pose proof (nextStage_frame (same_cycle s0) Hi). pose proof (getCurrentCycleJobs_frame (same_cycle s0)).
  pose proof (fun j => updateExecutionStatuses_frame (E:=goerr) (same_cycle s0) He j).
  unfold execute, execute_stage, returning, get_effective, slice_get. frame.
Qed.

Lemma finalize_keeps : keeps hibernating_finalize /\ keeps wakingup_finalize.
Proof.
  pose proof (postWakeupCleanup_frame (same_cycle s0)).
  unfold hibernating_finalize, wakingup_finalize, complete_operation, get_plan. split; frame.
Qed.

(** A handler that may start a shutdown, which leads to the hibernating phase. *)
Definition keeps_or_starts {A} (m : HM A) : Prop :=
  hoare (holds (same_cycle s0)) m (fun _ w => holds (same_cycle s0) w \/ plan_Phase (w_plan w) = PhaseHibernating)
    (fun _ => holds (same_cycle s0)).

Lemma keeps_keeps {A} (m : HM A) : keeps m -> keeps_or_starts m.
Proof. intros H. eapply hoare_conseq; [apply hoare_preserves, H|done| |done]. intros a w Hw. by left. Qed.

Lemma keeps_then {A B} (m : HM A) (k : A -> HM B) : keeps m -> (forall a, keeps_or_starts (k a)) -> keeps_or_starts (st_bind m k).
Proof.
  intros Hm Hk. apply (hoare_bind (fun _ => holds (same_cycle s0))); [|exact Hk].
  eapply hoare_conseq; [apply hoare_preserves, Hm|done..].
Qed.

Lemma shutdown_starts fresh : keeps_or_starts (transitionToHibernating fresh).
Proof.
  unfold transitionToHibernating, get_plan. apply keeps_then; [by frame|]. intros plan.
  apply keeps_then; [apply cycle_id_frame|]. intros c. apply keeps_then; [by frame|]. intros w. intros w1 Hw1.
  unfold Send, assign, st_bind. cbn. right. unfold start_hibernating, plan_Phase. cbn. by destruct (_ =? _)%string.
Qed.

Lemma idle_handlers_start h onDeadline : h = idleState \/ h = restartState \/ h = overrideActionState ->
  keeps_or_starts (invoke h onDeadline).
Proof.
  pose proof shutdown_starts as Hst. pose proof (keeps_keeps _ start_wakeup_keeps) as Hwu.
  assert (forall A (a : A), keeps_or_starts (st_ret a)) as Hr by (intros; apply keeps_keeps, preserves_ret).
  assert (keeps consumeFresh) as Hcf by apply consumeFresh_frame.
  assert (keeps consumeRestart) as Hcr by apply consumeRestart_frame.
  intros Hh. destruct onDeadline; destruct Hh as [->|[->| ->] ]; cbn [invoke OnDeadline Handle]; try apply Hr.
  - apply keeps_keeps. unfold override_OnDeadline, returning. by frame.
  - unfold idle_Handle. apply keeps_then; [by frame|]. intros w. by repeat case_match.
  - unfold restart_Handle, get_plan, failing_as. apply keeps_then; [by frame|]. intros plan.
    apply keeps_then; [by frame|]. intros _. apply keeps_then; [by frame|]. intros w. by repeat case_match.
  - unfold override_Handle. apply keeps_then; [by frame|]. intros w. cbv zeta.
    repeat case_match; try apply Hr; repeat (apply keeps_then; [done|intros ?]); repeat case_match;
      try apply Hr; repeat (apply keeps_then; [done|intros ?]); done.
Qed.

Lemma other_handlers_keep h onDeadline :
  h <> idleState -> h <> restartState -> h <> overrideActionState -> (forall d, h <> lifecycleState d) ->
  keeps (invoke h onDeadline).
Proof.
  assert (forall s l, same_cycle s0 s -> same_cycle s0 (set_st_Executions l s)) as He by done.
  pose proof performSuspension_keeps. pose proof resume_keeps. pose proof recovery_keeps.
  pose proof (awaitExecutionDrain_frame (same_cycle s0) He). destruct finalize_keeps as [Hf Hg].
  pose proof (fun op r f => execute_keeps op r f). intros ? ? ? Hl.
  destruct h as [d| | | | | | | |]; try done; [by destruct (Hl d)|..]; destruct onDeadline; cbn [invoke OnDeadline Handle];
    unfold preSuspension_Handle, hibernating_Handle, wakingup_Handle, suspended_Handle, stay_or_resume, suspended_OnDeadline,
      returning, get_plan; frame.
Qed.

Lemma OnError_keeps h err : keeps (handler_OnError h err).
Proof.
  assert (keeps (OnError err)) as Ho by (unfold OnError, setError, get_plan; frame).
  assert (forall op, keeps (execution_OnError op err)) as Hx by (intros op; unfold execution_OnError, get_plan; frame).
  destruct h; cbn [handler_OnError]; done.
Qed.

(** A call of a handler keeps the cycle, or starts a shutdown. *)
Lemma call_keeps h onDeadline w r w' :
  (forall d, h <> lifecycleState d) -> holds (same_cycle s0) w -> call_handler h onDeadline w = (Ok r, w') ->
  holds (same_cycle s0) w' \/
  (h = idleState \/ h = restartState \/ h = overrideActionState) /\ plan_Phase (w_plan w') = PhaseHibernating.
Proof.
  intros Hl Hw H. unfold call_handler, st_bind, st_try in H.
  destruct (decide (h = idleState \/ h = restartState \/ h = overrideActionState)) as [Hi|Hi].
  - pose proof (idle_handlers_start h onDeadline Hi w Hw) as Hs. destruct ((invoke h onDeadline) w) as [ [a|e| |] w1]; try done.
    + injection H as _ <-. destruct Hs as [Hs|Hs]; [by left|by right].
    + left. pose proof (OnError_keeps h e w1 Hs) as Ho. by rewrite H in Ho.
  - left. pose proof (other_handlers_keep h onDeadline) as Hk. specialize (Hk ltac:(tauto) ltac:(tauto) ltac:(tauto) Hl w Hw).
    destruct ((invoke h onDeadline) w) as [ [a|e| |] w1]; try done.
    + by injection H as _ <-.
    + pose proof (OnError_keeps h e w1 Hk) as Ho. by rewrite H in Ho.
Qed.
End cycle.

(** The world of the worker during the cycle: calls of the selected handlers, but for
    those of the lifecycle and those that start a shutdown; and anything that leaves
    the status in the cache alone, as deliveries do ([mergeIncoming]), the passing of
    time, and changes of the cluster. *)
Inductive cycle_step {HI : ExecutorInfra} {HV : Validator} : World -> World -> Prop :=
| cycle_call w h onDeadline r w' :
    selectHandler (w_now w) (w_plan w) = Some h -> (forall d, h <> lifecycleState d) ->
    call_handler h onDeadline w = (Ok r, w') ->
    executing_phase (plan_Phase (w_plan w)) = true \/ plan_Phase (w_plan w') <> PhaseHibernating \/
      plan_Phase (w_plan w) = PhaseError \/ plan_Phase (w_plan w) = PhaseSuspended ->
    cycle_step w w'
| cycle_other w w' : plan_Status (w_plan w') = plan_Status (w_plan w) -> cycle_step w w'.

Lemma idle_selected now plan h :
  selectHandler now plan = Some h -> h = idleState \/ h = restartState \/ h = overrideActionState ->
  plan_Phase plan = PhaseActive \/ plan_Phase plan = PhaseHibernated.
Proof.
  unfold selectHandler, runPrePhaseGates, deletionGate, suspensionGate, checkAutoSuspendAnnotation, phase_handler.
  intros H Hh. repeat case_match; simplify_eq; auto; by destruct Hh as [|[ | ] ].
Qed.

Lemma cycle_keeps {HKL : KubeLaws} {HI : ExecutorInfra} {HV : Validator} w w' :
  rtc cycle_step w w' -> same_cycle (plan_Status (w_plan w)) (plan_Status (w_plan w')).
Proof.
  assert (forall s0 v v', cycle_step v v' -> holds (same_cycle s0) v -> holds (same_cycle s0) v') as Hstep.
  { intros s0 v v' [x h d r x' Hsel Hl Hc Hx|x x' Hs] Hv; [|by unfold holds; rewrite Hs].
    destruct (call_keeps s0 h d x r x' Hl Hv Hc) as [H|[Hi Hp] ]; [done|exfalso].
    destruct (idle_selected _ _ _ Hsel Hi) as [E|E]; rewrite E in Hx; by destruct Hx as [|[|[|] ] ]. }
  intros Hr. assert (holds (same_cycle (plan_Status (w_plan w))) w) as Hw by by split.
  revert Hw. generalize (plan_Status (w_plan w)) as s0. intros s0. induction Hr as [|x y z Hxy _ IH]; [done|].
  intros Hx. apply IH. by eapply Hstep.
Qed.

(** *** What [execute] works on *)

(** What the exceptions of a plan may override. *)
Definition intent (p : HibernatePlan) : list Target * ExecutionStrategy * Behavior :=
  (spec_Targets (plan_Spec p), spec_Execution (plan_Spec p), spec_Behavior (plan_Spec p)).

Lemma buildExecutionPlan_intent p q reverse : intent p = intent q -> buildExecutionPlan p reverse = buildExecutionPlan q reverse.
Proof. unfold intent, buildExecutionPlan. intros [= H1 H2 _]. by rewrite H1, H2. Qed.

Section observed.
Context {HKL : KubeLaws} (J0 : list Job) (sp : HibernatePlanSpec).

(** Observation changes no Job and no spec. *)
Definition observing (w : World) : Prop :=
  cl_jobs (w_cluster w) = J0 /\ exists p, w_effective w = Some p /\ plan_Spec p = sp.

Lemma asked_observing {A} (q : Request A) :
  (forall r b a, jobs_after q r b a -> a = b) -> preserves observing (api (ask q)).
Proof.
  intros Hq w [Hj He]. unfold api, st_lift. pose proof (serve_jobs q (w_cluster w)) as Hp. apply Hq in Hp.
  unfold ask. destruct (serve q (w_cluster w)) as [ [e|x] c]; (split; [|done]); cbn in *; congruence.
Qed.

Lemma jobs_observing plan : preserves observing (getCurrentCycleJobs plan).
Proof.
  unfold getCurrentCycleJobs. destruct (_ || _); [apply preserves_ret|]. by apply asked_observing.
Qed.

Lemma pods_observing {E} job : preserves observing (getTerminationMessageFromPod (E:=E) job).
Proof.
  unfold getTerminationMessageFromPod. apply preserves_bind; [by apply preserves_try, asked_observing|].
  intros [e|pods]; apply preserves_ret.
Qed.

Lemma modify_observing {E} f : (forall w, w_cluster (f w) = w_cluster w /\ w_effective (f w) = w_effective w) ->
  preserves observing (st_modify (E:=E) f).
Proof. intros Hf. apply preserves_modify. intros w [Hj He]. destruct (Hf w) as [H1 H2]. unfold observing. by rewrite H1, H2. Qed.

Lemma target_observing {E} plan jobs exec : preserves observing (observe_target (E:=E) plan jobs exec).
Proof.
  pose proof @pods_observing as Hp.
  unfold observe_target, observe_job, observe_missing, trackConsecutiveJobMiss, resetConsecutiveJobMiss.
  repeat match goal with
  | |- preserves _ (st_bind _ _) => apply preserves_bind; [|intros ?]
  | |- preserves _ (st_ret _) => apply preserves_ret
  | |- preserves _ st_get => apply preserves_get
  | |- preserves _ (st_modify _) => by apply modify_observing
  | |- preserves _ (match ?x with _ => _ end) => destruct x
  | |- preserves _ (getTerminationMessageFromPod _) => apply Hp
  end.
Qed.

Lemma statuses_observing {E} jobs : preserves observing (updateExecutionStatuses (E:=E) jobs).
Proof.
  assert (forall plan l, preserves observing (observe_all (E:=E) plan jobs l)) as Ha.
  { intros plan l. induction l as [|e l IH]; cbn [observe_all]; [apply preserves_ret|].
    apply preserves_bind; [apply target_observing|]. intros e'. apply preserves_bind; [done|]. intros rest. apply preserves_ret. }
  unfold updateExecutionStatuses, get_effective. apply preserves_bind; [apply preserves_gets|]. intros plan. cbv zeta.
  apply preserves_bind; [done|]. intros execs. apply preserves_bind.
  - apply preserves_modify. intros w [Hj (p & He & Hs)]. unfold observing. rewrite He. cbn. split; [done|].
    eexists. split; [reflexivity|]. exact Hs.
  - intros _. destruct (executionStatesEqual _ _); [apply preserves_ret|]. intros w [Hj He].
    unfold Send, assign, st_bind, st_get, st_modify, hook, st_gets, enqueue. cbn. by split.
Qed.
End observed.

(** The call of [execute] ends before a stage, without a new Job and not
    successfully; or it works on a stage of the execution plan of [start], and on the
    targets and the behaviour of [start]. *)
Definition executes {HI : ExecutorInfra} {HV : Validator} (start : HibernatePlan) (op : PlanOperation) (reverse : bool)
  (onFinalize : HM unit) (w : World) (r : res goerr StateResult) (w' : World) : Prop :=
  (forall x, r <> Ok x) /\ cl_jobs (w_cluster w') = cl_jobs (w_cluster w) \/
  exists jobs execPlan w1, buildExecutionPlan start reverse = Ok execPlan /\ intent (eff w1) = intent start /\
    cl_jobs (w_cluster w1) = cl_jobs (w_cluster w) /\ execute_stage op jobs execPlan onFinalize w1 = (r, w').

Lemma execute_executes {HKL : KubeLaws} {HI : ExecutorInfra} {HV : Validator} start p op reverse onFinalize w r w' :
  effectivePlan (w_now w) (w_exceptions w) (w_plan w) = Some p -> intent p = intent start ->
  execute op reverse onFinalize w = (r, w') -> executes start op reverse onFinalize w r w'.
Proof.
  intros Hp Hi H. unfold execute in H. unfold st_bind at 1, st_modify in H. rewrite Hp in H.
  set (w0 := set_w_effective (Some p) w) in *.
  assert (observing (cl_jobs (w_cluster w)) (plan_Spec p) w0) as H0 by (split; [done|by exists p]).
  assert (forall v, observing (cl_jobs (w_cluster w)) (plan_Spec p) v -> intent (eff v) = intent start) as Hint.
  { intros v [_ (q & Hq & Hs)]. rewrite <- Hi. unfold eff, intent. by rewrite Hq; cbn; rewrite Hs. }
  unfold st_bind at 1, get_effective, st_gets in H. unfold st_bind at 1, returning, st_wrap in H.
  pose proof (jobs_observing _ _ (default (w_plan w0) (w_effective w0)) w0 H0) as H1.
  destruct (getCurrentCycleJobs _ w0) as [ [jobs|e| |] w1]; cbn [snd] in H1;
    [|injection H as <- <-; left; split; [done|apply H1]..].
  cbn [res_map_err] in H. unfold st_bind at 1 in H. pose proof (statuses_observing (E:=goerr) _ _ jobs w1 H1) as H2.
  destruct (updateExecutionStatuses jobs w1) as [ [[]|e| |] w2]; cbn [snd] in H2;
    [|injection H as <- <-; left; split; [done|apply H2]..].
  unfold st_bind at 1, st_get in H. unfold st_bind at 1 in H.
  destruct (if st_CurrentStageIndex _ =? 0 then _ else None); [injection H as <- <-; left; split; [done|apply H2]|].
  fold (eff w2) in H. rewrite (buildExecutionPlan_intent _ start reverse (Hint w2 H2)) in H.
  destruct (buildExecutionPlan start reverse) as [xp|e| |] eqn:Eb; [|injection H as <- <-; left; split; [done|apply H2]..].
  right. exists jobs, xp, w2. split; [done|]. split; [by apply Hint|]. split; [apply H2|done].
Qed.

(** C26: the plan that an exception overrides when a shutdown starts is the one that
    the whole cycle executes.  Given that the shutdown started, with an active
    exception that has overrides, and that from then on the worker, which keeps the
    plan in its cache, made any calls of handlers but those of the lifecycle (a plan
    that is new or being deleted) and those that start the next shutdown, between which
    the exceptions, the clock, the cluster and the spec of the plan may change in any
    way: the shutdown has one execution status for each target of the overridden plan,
    in order; a wakeup that starts has the same targets; and a call of [execute], for
    either operation, ends without a new Job and not successfully, or works on a
    stage of the execution plan of the overridden plan, with its targets and its
    behaviour. *)
Theorem cycle_intent_locked {HKL : KubeLaws} {HI : ExecutorInfra} {HV : Validator} fresh w r w' exc w3 :
  transitionToHibernating fresh w = (Ok r, w') ->
  findActiveExceptionOverride (w_now w) (w_exceptions w) = Some exc -> se_Name exc <> "" ->
  rtc cycle_step w' w3 ->
  exists start, buildEffectivePlan (w_now w) (w_exceptions w) (w_plan w) = Some start /\
  map exec_Target (st_Executions (plan_Status (w_plan w'))) = map tgt_Name (spec_Targets (plan_Spec start)) /\
  (forall r4 w4, transitionToWakingUp w3 = (Ok r4, w4) ->
    map exec_Target (st_Executions (plan_Status (w_plan w4))) = map tgt_Name (spec_Targets (plan_Spec start))) /\
  (forall op reverse onFinalize r4 w4, execute op reverse onFinalize w3 = (r4, w4) ->
    executes start op reverse onFinalize w3 r4 w4).
Proof.
  intros H Hexc Hname Hrun. unfold transitionToHibernating in H. unfold st_bind at 1, get_plan, st_gets in H.
  unfold st_bind at 1 in H. pose proof (cycle_id_same fresh (w_plan w) w) as Hsame.
  destruct (cycle_id fresh (w_plan w) w) as [ [id|e| |] w1]; try done. cbn in Hsame. destruct Hsame as (Hn & He & Hp).
  unfold st_bind at 1, st_get in H. cbv zeta in H. rewrite Hn, He, Hexc in H.
  assert (exists start, buildEffectivePlan (w_now w) (w_exceptions w) (w_plan w) = Some start) as [start Hs].
  { unfold buildEffectivePlan. rewrite Hexc. by eexists. }
  rewrite Hs in H. cbn [default] in H. unfold Send, assign, st_bind in H. cbn in H. injection H as _ Hw'.
  apply String.eqb_neq in Hname.
  assert (plan_Status (w_plan w') = start_hibernating id (se_Name exc) start (w_now w) (plan_Status (w_plan w))) as Hst
    by (rewrite <- Hw'; unfold start_hibernating; rewrite Hname; cbn; by rewrite ?Hp, ?Hn).
  destruct (cycle_keeps w' w3 Hrun) as [Hsn Hc]. rewrite Hst in Hsn, Hc. unfold start_hibernating in Hsn, Hc.
  rewrite Hname in Hsn, Hc. cbn in Hsn, Hc.
  assert (locked_snapshot (w_plan w3) = Some (snapshot_plan id (se_Name exc) start)) as Hlock.
  { unfold locked_snapshot. rewrite Hsn, Hc. cbn [snap_CycleID snapshot_plan]. by rewrite String.eqb_refl. }
  exists start. split; [done|]. split; [|split].
  - rewrite Hst. unfold start_hibernating. rewrite Hname. cbn. rewrite map_map. by apply map_ext.
  - intros r4 w4 H4. unfold transitionToWakingUp, get_plan, get_now, Send, assign, st_bind in H4. cbn in H4.
    injection H4 as _ <-. unfold wakeup_targets. cbn. rewrite Hlock. cbn. rewrite map_map. by apply map_ext.
  - intros op reverse fin r4 w4 H4. eapply execute_executes; [unfold effectivePlan; by rewrite Hlock|done|exact H4].
Qed.
End locked.
