(* ===== verification/WorkerSpec.v ===== *)
(** * Properties of the worker's timers and of its queue of updates *)
From S2P Require Import Prelude Monad GoString GoTime Types Planner Recovery Cluster Restore.
From S2P Require Import World ExecutionUtils Execution Dispatch Handlers Timer Worker StateFrame.
From S2P Require Import PhaseSpec.
From Stdlib Require Import Lia.

Local Open Scope Z_scope.

(** ** The watchdog *)

(** The results of a series of handler calls, with the clock at each. *)
Definition apply_all (l : list (Z * StateResult)) (ts : TimerSet) : TimerSet :=
  fold_left (fun ts p => Apply p.1 p.2 ts) l ts.

(** A watchdog that is asked for at every call of a phase fires at the time
    the first call asked for, however often the handler asks again; a call that
    does not ask for it, and a requeue, disarm it; neither touches the timer of
    inactivity. *)
Theorem timeout_armed_once now r l ts :
  sc_armed (ts_Timeout ts) = false ->
  Forall (fun p => 0 < TimeoutAfter p.2) ((now, r) :: l) ->
  let ts' := apply_all ((now, r) :: l) ts in
  ts_Timeout ts' = mkSchedule (TimeoutAfter r) true (Some (now + TimeoutAfter r)) /\
  (forall now' r', TimeoutAfter r' <= 0 -> sc_armed (ts_Timeout (Apply now' r' ts')) = false) /\
  (sc_armed (ts_Requeue (ResetAll ts')) = false /\ sc_armed (ts_Timeout (ResetAll ts')) = false /\
   sc_armed (ts_Deadline (ResetAll ts')) = false) /\
  ts_Inactivity ts' = ts_Inactivity ts.
Proof.
  intros Hd Hall ts'. apply Forall_cons in Hall as [Hr Hl]. cbn [snd] in Hr.
  assert (forall ts1, ts_Timeout ts1 = mkSchedule (TimeoutAfter r) true (Some (now + TimeoutAfter r)) ->
    ts_Timeout (apply_all l ts1) = ts_Timeout ts1 /\ ts_Inactivity (apply_all l ts1) = ts_Inactivity ts1) as Hkeep.
  { clear ts'. induction Hl as [|p l Hp _ IH]; intros ts1 Hts1; [done|]. cbn [apply_all fold_left].
    fold (apply_all l (Apply p.1 p.2 ts1)).
    assert (ts_Timeout (Apply p.1 p.2 ts1) = ts_Timeout ts1) as Heq.
    { rewrite Apply_Timeout, (proj2 (Z.ltb_lt _ _) Hp), Hts1. done. }
    destruct (IH (Apply p.1 p.2 ts1)) as [H1 H2]; [by rewrite Heq|].
    by rewrite H1, H2, Heq, Apply_Inactivity. }
  assert (ts_Timeout (Apply now r ts) = mkSchedule (TimeoutAfter r) true (Some (now + TimeoutAfter r))) as H0.
  { by rewrite Apply_Timeout, (proj2 (Z.ltb_lt _ _) Hr), Hd. }
  destruct (Hkeep _ H0) as [H1 H2]. subst ts'. cbn [apply_all fold_left fst snd]. fold (apply_all l (Apply now r ts)).
  split; [by rewrite H1|]. split; [|split; [|by rewrite H2, Apply_Inactivity] ].
  - intros now' r' Hle. rewrite Apply_Timeout, (proj2 (Z.ltb_ge _ _) Hle). apply Disarm_disarmed.
  - cbn. split; [apply Disarm_disarmed|]. split; apply Disarm_disarmed.
Qed.

(** ** Overrides past their deadline *)

Section override.
Context {HK : KubeApi} {HI : ExecutorInfra} {HJ : JSON} {HV : Validator}.

(** A plan that an override keeps at its target phase. *)
Definition override_holds (p : HibernatePlan) : Prop :=
  (annotation AnnotationOverridePhaseTarget p = OverridePhaseTargetHibernate /\ plan_Phase p = PhaseHibernated \/
   annotation AnnotationOverridePhaseTarget p = OverridePhaseTargetWakeup /\ plan_Phase p = PhaseActive) /\
  annotation AnnotationRestart p <> "true".

(** An override whose deadline is not in the future when the handler runs is kept:
    the handler changes nothing, and its result disarms the deadline timer, the
    only thing that revokes an override. *)
Lemma override_expired_stays w s deadline ts :
  override_holds (w_plan w) ->
  plan_Annotations (w_plan w) !! AnnotationOverrideUntil = Some s -> parse_RFC3339 s = Some deadline ->
  unix_ns deadline <= unix_ns (w_now w) ->
  exists res, override_Handle w = (Ok res, w) /\ Requeue res = false /\
  sc_armed (ts_Deadline (Apply (unix_ns (w_now w)) res ts)) = false.
Proof.
  intros [Hp Hr] Ha Hs Hle. exists (initStateResult (w_now w) (w_plan w)).
  apply String.eqb_neq in Hr. split.
  - unfold override_Handle. unfold st_bind at 1, st_get. cbv zeta.
    destruct Hp as [ [Ht Hp]|[Ht Hp] ]; rewrite Ht, Hp; simpl;
      unfold st_bind, consumeRestart, get_plan, st_bind, st_gets; rewrite Hr; done.
  - unfold initStateResult. rewrite Ha, Hs. split; [done|]. rewrite Apply_Deadline. cbn [DeadlineAfter].
    rewrite (proj2 (Z.ltb_ge _ _)); [apply Disarm_disarmed|]. unfold Sub. lia.
Qed.
End override.

(** ** The queue of updates *)

(** The status writer: the mutators of the queue, in order, on a plan. *)
Fixpoint replay (now : time) (q : list Update) (p : HibernatePlan) : option HibernatePlan :=
  match q with
  | [] => Some p
  | u :: q' => match upd_Mutator u now p with Some p' => replay now q' p' | None => None end
  end.

Lemma replay_app now q u p :
  replay now (q ++ [u]) p = match replay now q p with Some p' => upd_Mutator u now p' | None => None end.
Proof.
  revert p. induction q as [|u' q IH]; intros p; cbn [app replay]; [by destruct (upd_Mutator u now p)|].
  by destruct (upd_Mutator u' now p).
Qed.

(** A mutator computes the new status from the old one. *)
Definition status_mutator (m : Mutator) : Prop := forall now p q p',
  plan_Status p = plan_Status q -> m now p = Some p' ->
  exists q', m now q = Some q' /\ plan_Status q' = plan_Status p'.

(** The queued updates take the plan [p0] to the cached status. *)
Definition persisted {HK : KubeApi} (now : time) (p0 : HibernatePlan) (w : World) : Prop :=
  w_now w = now /\
  exists p, replay now (w_queue w) p0 = Some p /\ plan_Status p = plan_Status (w_plan w).

Section queue.
Context {HK : KubeApi} {HI : ExecutorInfra} {HJ : JSON} {HV : Validator} (now : time) (p0 : HibernatePlan).
Notation P := (persisted now p0).

Lemma lift_persisted {E A} (m : ST Cluster E A) : preserves P (st_lift w_cluster set_w_cluster m).
Proof. intros w Hw. unfold st_lift. by destruct (m (w_cluster w)). Qed.

Lemma Send_persisted {E} pre m post : status_mutator m -> preserves P (Send (E:=E) pre m post).
Proof.
  intros Hm w (Hn & p & Hr & Hs). unfold Send, st_bind, st_get.
  destruct (m (w_now w) (w_plan w)) as [p'|] eqn:Ep; [|split; [done|by exists p] ]. cbn.
  split; [done|]. cbn. rewrite replay_app, Hr. cbn. rewrite Hn in Ep.
  destruct (Hm now (w_plan w) p p') as (q' & Hq & Hsq); [done|done|]. by exists q'.
Qed.

Lemma assign_status_mutator f : status_mutator (assign f).
Proof.
  intros t p q p' Hpq. unfold assign. intros [= <-]. eexists. split; [reflexivity|]. cbn. by rewrite Hpq.
Qed.

Lemma retry_status_mutator xp i phase lastErr : status_mutator (retry_mutator xp i phase lastErr).
Proof.
  intros t p q p' Hpq. unfold retry_mutator, RecordRetryAttempt. rewrite Hpq.
  destruct (match st_LastRetryTime _ with Some _ => _ | None => _ end).
  - intros [= <-]. eexists. split; [reflexivity|]. cbn. by rewrite Hpq.
  - destruct (slice_at _ _); [|done]. intros [= <-]. eexists. split; [reflexivity|]. cbn. by rewrite Hpq.
Qed.

Lemma modify_persisted {E} f :
  (forall w, w_now (f w) = w_now w /\ w_queue (f w) = w_queue w /\
    plan_Status (w_plan (f w)) = plan_Status (w_plan w)) ->
  preserves P (st_modify (E:=E) f).
Proof.
  intros Hf. apply preserves_modify. intros w (Hn & p & Hr & Hs). destruct (Hf w) as (H1 & H2 & H3).
  split; [congruence|]. exists p. by rewrite H2, H3.
Qed.

Lemma patchAndPreserveStatus_persisted f : (forall p, plan_Status (f p) = plan_Status p) ->
  preserves P (patchAndPreserveStatus f).
Proof.
  intros Hf w (Hn & p & Hr & Hs). unfold patchAndPreserveStatus, st_bind, get_plan, st_gets, st_modify, api, st_lift.
  cbn. destruct (patch_plan _ _ _) as [ [s|e| |] c]; (split; [done|]; exists p; cbn; by rewrite ?Hf).
Qed.
End queue.

Ltac queue_step :=
  lazymatch goal with
  | |- forall _, _ => intros
  | |- preserves _ (st_bind _ _) => apply preserves_bind
  | |- preserves _ (st_try _) => apply preserves_try
  | |- preserves _ (st_wrap _ _) => apply preserves_wrap
  | |- preserves _ (st_throw _) => apply preserves_throw
  | |- preserves _ (st_ret _) => apply preserves_ret
  | |- preserves _ st_panic => apply preserves_panic
  | |- preserves _ st_get => apply preserves_get
  | |- preserves _ (st_gets _) => apply preserves_gets
  | |- preserves _ (api _) => apply lift_persisted
  | |- preserves _ (restore _) => apply lift_persisted
  | |- preserves _ (patchAndPreserveStatus _) => apply patchAndPreserveStatus_persisted; by intros; cbn
  | |- preserves _ (Send _ (assign _) _) => apply Send_persisted, assign_status_mutator
  | |- preserves _ (Send _ (retry_mutator _ _ _ _) _) => apply Send_persisted, retry_status_mutator
  | |- preserves _ (st_modify _) => apply modify_persisted; by intros; cbn
  | |- preserves _ (match ?x with _ => _ end) => destruct x eqn:?
  | |- preserves _ (let '(_, _) := ?x in _) => destruct x eqn:?
  | |- preserves _ _ => match goal with H : _ |- _ => simple apply H end
  end.
Ltac queue := repeat queue_step.

Section optimistic.
Context {HK : KubeApi} {HI : ExecutorInfra} {HJ : JSON} {HV : Validator}.

(** The handlers that decide transitions. *)
Definition deciding (h : Handler) : bool :=
  match h with
  | idleState | restartState | overrideActionState | recoveryState => true
  | _ => false
  end.

Lemma resume_persisted now p0 w :
  resume_decision w <> ResumeForceWakeUp -> persisted now p0 w -> persisted now p0 (resume w).2.
Proof.
  intros Hne Hw. unfold resume. unfold st_bind at 1, st_get.
  match goal with |- persisted _ _ (?m w).2 => assert (preserves (persisted now p0) m) as Hp; [|exact (Hp w Hw)] end.
  unfold take_route, cleanupSuspensionAnnotations, non_fatal, get_plan, resumeFromError, resumeFromExecution, get_now.
  destruct (resume_decision w); try done; queue.
Qed.

Lemma deciding_persisted h now p0 : deciding h = true ->
  preserves (persisted now p0) (Handle h).
Proof.
  assert (forall ns p l, preserves (persisted now p0) (existing_cycle_id ns p l)) as He.
  { intros ns p l. induction l; cbn [existing_cycle_id]; queue. }
  assert (forall l, preserves (persisted now p0) (relabel_jobs l)) as Hr.
  { intros l. induction l; cbn [relabel_jobs]; queue. }
  assert (forall fresh, preserves (persisted now p0) (transitionToHibernating fresh)) as Hh.
  { unfold transitionToHibernating, cycle_id, getExistingCycleIDForHibernation, new_cycle_id, get_plan. queue. }
  assert (preserves (persisted now p0) transitionToWakingUp) as Hw.
  { unfold transitionToWakingUp, get_plan, get_now. queue. }
  intros Hd. destruct h; try done; cbn [Handle].
  all: unfold idle_Handle, restart_Handle, override_Handle, consumeRestart, consumeFresh, recovery_Handle,
    handleManualRetry, clearRetryAtAnnotation, handleRetry, relabelStaleFailedJobs, non_fatal, failing_as, get_plan, get_now.
  all: queue.
Qed.

(** The status that a transition decided by the schedule, an annotation, a retry
    or a resume gives the cached plan is what the status writer will write: the
    queued updates, applied in order to the status the handler started from, yield
    it, whichever requests failed.  A forced wake-up is the exception: it changes
    the cached phase only. *)
Theorem optimistic_status_queued m w r w' :
  (exists h, m = Handle h /\ deciding h = true) \/ m = resume /\ resume_decision w <> ResumeForceWakeUp ->
  w_queue w = [] -> m w = (r, w') ->
  exists p, replay (w_now w) (w_queue w') (w_plan w) = Some p /\ plan_Status p = plan_Status (w_plan w').
Proof.
  intros Hm Hq H. assert (persisted (w_now w) (w_plan w) w) as Hw by (split; [done|]; exists (w_plan w); by rewrite Hq).
  assert (persisted (w_now w) (w_plan w) w') as (_ & p & Hr & Hs); [|by exists p].
  destruct Hm as [ (h & -> & Hd) | [-> Hne] ].
  - pose proof (deciding_persisted h (w_now w) (w_plan w) Hd w Hw) as Hp. by rewrite H in Hp.
  - pose proof (resume_persisted _ _ _ Hne Hw) as Hp. by rewrite H in Hp.
Qed.
End optimistic.
