(* ===== verification/StatusWriter.v ===== *)
(** * The status writer ([internal/provider/processor/status])

    The handlers queue status updates; a goroutine per object takes them from a slot
    of the pool ([Pool]) and writes each to the API server.  The writer is generic
    in the object; what it is used with here is the plan. *)
From S2P Require Import Prelude Monad GoString GoTime Types.

Local Open Scope Z_scope.

(** The errors of the API server that the writer tells apart. *)
Inductive StoreError :=
| StoreNotFound
| StoreConflict
| StoreFailure (msg : string).

(** The status of an object. *)
Class HasStatus (T S : Type) := status : T -> S.

(** The API server for one object of type [T]: the uncached [Get] and
    [Status().Update], with the clock and the status that is stored, if the object
    exists. *)
Class StatusApi (T S : Type) := {
  Store : Type;
  clock : Store -> time;
  stored : Store -> option S;
  fetch : ST Store StoreError T;
  update_status : T -> ST Store StoreError unit;
}.
Arguments Store T S {_}.

(** What the writer relies on.  Other clients may change the object between and
    during requests, but not its status; an update that fails may still have been
    carried out, except when it conflicts. *)
Class StatusLaws (T S : Type) {HS : HasStatus T S} {HA : StatusApi T S} : Prop := {
  fetch_stored s : stored (fetch s).2 = stored s;
  fetch_ok s t s' : fetch s = (Ok t, s') -> stored s = Some (status t);
  fetch_not_found s s' : fetch s = (Err StoreNotFound, s') -> stored s = None;
  fetch_returns s : match (fetch s).1 with Ok _ | Err _ => True | _ => False end;
  update_ok t s s' : update_status t s = (Ok tt, s') -> is_Some (stored s) /\ stored s' = Some (status t);
  update_err t s e s' : update_status t s = (Err e, s') ->
    stored s' = stored s \/ e <> StoreConflict /\ is_Some (stored s) /\ stored s' = Some (status t);
  update_returns t s : match (update_status t s).1 with Ok _ | Err _ => True | _ => False end;
}.

Section retry.
Context {S E A : Type} (conflict : E -> bool).

(** What [retry.RetryOnConflict] does with a function: it runs it, again when it
    failed with a conflict, and returns the outcome of the last run. *)
Inductive retried (f : ST S E A) : S -> res E A * S -> Prop :=
| retried_last s : retried f s (f s)
| retried_again s e s' r : f s = (Err e, s') -> conflict e = true -> retried f s' r -> retried f s r.
End retry.

Definition is_conflict (e : StoreError) : bool := match e with StoreConflict => true | _ => false end.

(** [retry.RetryOnConflict] with [retry.DefaultBackoff]. *)
Class ConflictRetry := {
  RetryOnConflict {S A} : ST S StoreError A -> ST S StoreError A;
  RetryOnConflict_spec {S A} (f : ST S StoreError A) s : retried is_conflict f s (RetryOnConflict f s);
}.

(** Why an update was not, or not completely, applied. *)
Inductive WriterError :=
| WriterStore (e : StoreError)
| WriterHook (msg : string)
| WriterPanic.

Section writer.
Context {T S : Type} {HS : HasStatus T S} {HA : StatusApi T S} {HR : ConflictRetry}.
(** [isStatusEqual], on the status of two objects. *)
Context (isStatusEqual : S -> S -> bool).

(** A hook sees an object; it may fail. *)
Definition HookFunc : Type := T -> ST (Store T S) string unit.

(** [Update], for the one object; a mutator reads the clock, and may panic. *)
Record StatusUpdate := mkStatusUpdate {
  su_PreHook : option HookFunc;
  su_Mutator : option (time -> T -> option T);
  su_PostHook : option HookFunc;
}.

(** The function that is retried: the object that was written, if one was. *)
Definition attempt (mutate : time -> T -> option T) : ST (Store T S) StoreError (option T) :=
  let! r := st_try fetch in
  match r with
  | inl StoreNotFound => st_ret None
  | inl e => st_throw e
  | inr fresh =>
      let! now := st_gets clock in
      match mutate now fresh with
      | None => st_panic
      | Some fresh' =>
          if isStatusEqual (status fresh) (status fresh') then st_ret None
          else do! update_status fresh' in st_ret (Some fresh')
      end
  end.

(** The mutation and the post-hook, whose error is only logged. *)
Definition write (u : StatusUpdate) : ST (Store T S) WriterError unit :=
  match su_Mutator u with
  | None => st_ret tt
  | Some mutate =>
      let! written := st_wrap WriterStore (RetryOnConflict (attempt mutate)) in
      match su_PostHook u, written with
      | Some h, Some obj => let! r := st_try (h obj) in st_ret tt
      | _, _ => st_ret tt
      end
  end.

(** [apply]. *)
Definition apply_update (u : StatusUpdate) : ST (Store T S) WriterError unit :=
  match su_PreHook u with
  | None => write u
  | Some h =>
      let! r := st_try fetch in
      match r with
      | inl StoreNotFound => st_ret tt
      | inl e => st_throw (WriterStore e)
      | inr current => do! st_wrap WriterHook (h current) in write u
      end
  end.

(** [handleWithCrashRecovery]: a panic becomes an error. *)
Definition handle_recovering (u : StatusUpdate) : ST (Store T S) WriterError unit := fun s =>
  match apply_update u s with
  | (Panic, s') => (Err WriterPanic, s')
  | r => r
  end.

(** The updates that the goroutine of the object takes, one after the other; an error
    is logged, and the update it stopped is lost. *)
Fixpoint write_all (us : list StatusUpdate) : ST (Store T S) Empty_set (list (option WriterError)) :=
  match us with
  | [] => st_ret []
  | u :: us' =>
      let! r := st_try (handle_recovering u) in
      let! rs := write_all us' in
      st_ret (match r with inl e => Some e | inr _ => None end :: rs)
  end.
End writer.
Arguments StatusUpdate T S {_}.
Arguments HookFunc T S {_}.

(** ** The status of a plan *)

#[export] Instance plan_has_status : HasStatus HibernatePlan HibernatePlanStatus := plan_Status.

(** [cmp.Equal] on two statuses. *)
Class Cmp := { cmp_Equal : HibernatePlanStatus -> HibernatePlanStatus -> bool }.

(** [cmpopts.IgnoreFields(ExecutionStatus{}, "StartedAt", "FinishedAt")] and
    [cmpopts.IgnoreFields(ExceptionReference{}, "AppliedAt")].  The option that
    ignores the map entries [lastTransitionTime] and [lastRetryTime] finds no map. *)
Definition ignore_fields (s : HibernatePlanStatus) : HibernatePlanStatus :=
  set_st_ExceptionReferences
    (map (fun r => mkExceptionReference (ref_Name r) (ref_Type r) (ref_ValidFrom r) (ref_ValidUntil r) (ref_State r) None)
       (st_ExceptionReferences s))
    (set_st_Executions (map (fun e => set_exec_FinishedAt None (set_exec_StartedAt None e)) (st_Executions s)) s).

(** [isStatusEqual] on plans. *)
Definition plan_isStatusEqual {HC : Cmp} (a b : HibernatePlanStatus) : bool :=
  cmp_Equal (ignore_fields a) (ignore_fields b).

(** What a comparison of times by [Equal] sees of a status: the instants. *)
Definition instant (t : time) : time := mkTime (unix_ns t) UTC.
Definition instants_of_target (r : TargetExecutionResult) : TargetExecutionResult :=
  mkTargetResult (tr_Target r) (tr_State r) (tr_Attempts r) (tr_ExecutionID r)
    (instant <$> tr_StartedAt r) (instant <$> tr_FinishedAt r) (tr_Message r).
Definition instants_of_summary (s : ExecutionOperationSummary) : ExecutionOperationSummary :=
  mkSummary (sum_Operation s) (instant (sum_StartTime s)) (instant <$> sum_EndTime s)
    (map instants_of_target (sum_TargetResults s)) (sum_Success s) (sum_ErrorMessage s).
Definition instants_of_cycle (c : ExecutionCycle) : ExecutionCycle :=
  mkCycle (cyc_CycleID c) (instants_of_summary <$> cyc_ShutdownExecution c)
    (instants_of_summary <$> cyc_WakeupExecution c).
Definition instants_of_execution (e : ExecutionStatus) : ExecutionStatus :=
  set_exec_FinishedAt (instant <$> exec_FinishedAt e) (set_exec_StartedAt (instant <$> exec_StartedAt e) e).
Definition instants_of_reference (r : ExceptionReference) : ExceptionReference :=
  mkExceptionReference (ref_Name r) (ref_Type r) (instant (ref_ValidFrom r)) (instant (ref_ValidUntil r))
    (ref_State r) (instant <$> ref_AppliedAt r).
Definition instants (s : HibernatePlanStatus) : HibernatePlanStatus :=
  mkStatus (st_CurrentCycleID s) (st_Phase s) (instant <$> st_LastTransitionTime s)
    (map instants_of_execution (st_Executions s)) (st_ObservedGeneration s) (st_RetryCount s)
    (instant <$> st_LastRetryTime s) (st_ErrorMessage s)
    (map instants_of_reference (st_ExceptionReferences s)) (st_AppliedExceptionOverride s)
    (st_PlanSnapshot s) (st_CurrentStageIndex s) (st_CurrentOperation s)
    (map instants_of_cycle (st_ExecutionHistory s)).

(** What is relied on: statuses that compare equal agree field by field, and in the
    instants of their times. *)
Class CmpLaws {HC : Cmp} : Prop := {
  cmp_Equal_sound a b : cmp_Equal a b = true -> instants a = instants b;
}.

(** Two statuses that the writer takes for one. *)
Definition same_status (a b : HibernatePlanStatus) : Prop :=
  instants (ignore_fields a) = instants (ignore_fields b).

#[export] Instance same_status_equivalence : Equivalence same_status.
Proof.
  split; unfold same_status; [by intros a|by intros a b ->|by intros a b c -> ->].
Qed.
