(* ===== verification/Pool.v ===== *)
(** * Per-key worker pools ([pkg/keyedworker])

    A [Pool] routes values to one entry per key: a slot that buffers values, and
    at most one goroutine that takes them out.  Callers of [Deliver], [Remove],
    [Register] and [Stop] and the goroutines run concurrently; here each of them is
    a thread with a program point, and a step runs one thread from a point to the
    next.  What a mutex guards is one step; operations on channels and on the
    atomic pointer are steps of their own.  The slots are FIFO slots
    ([slot.go]), the goroutines those of [RunnerFactory] ([handler.go]). *)
From S2P Require Import Prelude.
From Stdlib Require Import Lia.

Section slot.
Context {V : Type}.

(** [fifoSlot]: what its two buffered channels hold; [signal] holds one token. *)
Record Slot := mkSlot {
  sl_queue : list V;
  sl_signal : bool;
}.

Definition new_slot : Slot := mkSlot [] false.

(** [select { case s.queue <- v: default: return }], for a buffer of [bufSize > 0]
    values; [None] is the drop. *)
Definition slot_offer (bufSize : nat) (v : V) (s : Slot) : option Slot :=
  if (length (sl_queue s) <? bufSize)%nat then Some (mkSlot (sl_queue s ++ [v]) (sl_signal s)) else None.

(** [select { case s.signal <- struct{}{}: default: }]. *)
Definition slot_arm (s : Slot) : Slot := mkSlot (sl_queue s) true.

(** [<-s.C()], when there is a token. *)
Definition slot_disarm (s : Slot) : Slot := mkSlot (sl_queue s) false.

(** [v := <-s.queue]: [None] blocks. *)
Definition slot_take (s : Slot) : option (V * Slot) :=
  match sl_queue s with
  | [] => None
  | v :: q => Some (v, mkSlot q (sl_signal s))
  end.

(** The rest of [Recv]: a new token when values are left. *)
Definition slot_rearm (s : Slot) : Slot :=
  match sl_queue s with
  | [] => s
  | _ :: _ => slot_arm s
  end.

Definition slot_len (s : Slot) : nat := length (sl_queue s).
End slot.
Arguments Slot : clear implicits.

Section pool.
Context {K V : Type} `{Countable K}.

(** [entry].  [en_cancelled] says that the context of its goroutine is cancelled.
    The other fields record what happened: the key it was made for, whether
    that was before [Register] stored the factory, the values its slot accepted,
    those whose handler returned, and how many [Drain] discarded. *)
Record Entry := mkEntry {
  en_slot : Slot V;
  en_running : bool;
  en_cancelled : bool;
  en_key : K;
  en_early : bool;
  en_accepted : list V;
  en_handled : list V;
  en_drained : nat;
}.

Definition set_en_slot (s : Slot V) (e : Entry) : Entry :=
  mkEntry s (en_running e) (en_cancelled e) (en_key e) (en_early e) (en_accepted e) (en_handled e) (en_drained e).
Definition set_en_goroutine (running cancelled : bool) (e : Entry) : Entry :=
  mkEntry (en_slot e) running cancelled (en_key e) (en_early e) (en_accepted e) (en_handled e) (en_drained e).
Definition accept (v : V) (e : Entry) : Entry :=
  mkEntry (en_slot e) (en_running e) (en_cancelled e) (en_key e) (en_early e) (en_accepted e ++ [v])
    (en_handled e) (en_drained e).
Definition handled (v : V) (e : Entry) : Entry :=
  mkEntry (en_slot e) (en_running e) (en_cancelled e) (en_key e) (en_early e) (en_accepted e)
    (en_handled e ++ [v]) (en_drained e).
Definition drained (e : Entry) : Entry :=
  mkEntry (en_slot e) (en_running e) (en_cancelled e) (en_key e) (en_early e) (en_accepted e)
    (en_handled e) (S (en_drained e)).

(** Where the goroutine of an entry is: the start of [runEntry]; the select of the
    loop; [Recv], before it takes a value and before it tests whether values are
    left; the handler; the flush after the idle timeout; the deferred function.
    [flush] says that the value was received in the flush. *)
Inductive WorkerPc :=
| WStart
| WSelect
| WRecv (flush : bool)
| WRearm (flush : bool) (v : V)
| WHandle (flush : bool) (v : V)
| WFlush
| WExit.

(** The threads.  [Deliver]: before [getOrCreate], the send on the queue of the
    slot, the signal, the load of the factory, [ensureRunning].  [Register]: before
    the context, the factory, the read lock, and, under that lock, the entries to
    come.  [Remove]: before the deletion, the cancellation, and in [Drain].
    [TReap]: a goroutine that left its entry empty, before the auto-removal. *)
Inductive Thread :=
| TDeliver (key : K) (v : V)
| TSend (e : nat) (v : V)
| TSignal (e : nat)
| TLoad (e : nat)
| TEnsure (e : nat)
| TRegister
| TStore
| TLock
| TActivate (todo : list nat)
| TRemove (key : K)
| TCancel (e : nat)
| TDrain (e : nat)
| TDrainSignal (e : nat)
| TStop
| TWorker (e : nat) (pc : WorkerPc)
| TReap (e : nat).

(** [Pool]: the map from keys to entries, the entries by their number, the threads,
    whether the parent context and the factory are set, whether the context is
    cancelled, and the gauge that [onSpawn] and [onRemove] move. *)
Record Pool := mkPool {
  p_entries : gmap K nat;
  p_heap : list Entry;
  p_threads : list Thread;
  p_parent : bool;
  p_factory : bool;
  p_stopped : bool;
  p_gauge : gmap K Z;
}.

Definition new_pool : Pool := mkPool ∅ [] [] false false false ∅.

Definition set_p_entries (v : gmap K nat) (p : Pool) : Pool :=
  mkPool v (p_heap p) (p_threads p) (p_parent p) (p_factory p) (p_stopped p) (p_gauge p).
Definition set_p_heap (v : list Entry) (p : Pool) : Pool :=
  mkPool (p_entries p) v (p_threads p) (p_parent p) (p_factory p) (p_stopped p) (p_gauge p).
Definition set_p_threads (v : list Thread) (p : Pool) : Pool :=
  mkPool (p_entries p) (p_heap p) v (p_parent p) (p_factory p) (p_stopped p) (p_gauge p).
Definition set_p_parent (v : bool) (p : Pool) : Pool :=
  mkPool (p_entries p) (p_heap p) (p_threads p) v (p_factory p) (p_stopped p) (p_gauge p).
Definition set_p_factory (v : bool) (p : Pool) : Pool :=
  mkPool (p_entries p) (p_heap p) (p_threads p) (p_parent p) v (p_stopped p) (p_gauge p).
Definition set_p_stopped (v : bool) (p : Pool) : Pool :=
  mkPool (p_entries p) (p_heap p) (p_threads p) (p_parent p) (p_factory p) v (p_gauge p).
Definition set_p_gauge (v : gmap K Z) (p : Pool) : Pool :=
  mkPool (p_entries p) (p_heap p) (p_threads p) (p_parent p) (p_factory p) (p_stopped p) v.

Definition on_entry (e : nat) (f : Entry -> Entry) (p : Pool) : Pool :=
  set_p_heap (alter f e (p_heap p)) p.
Definition on_slot (e : nat) (f : Slot V -> Slot V) (p : Pool) : Pool :=
  on_entry e (fun en => set_en_slot (f (en_slot en)) en) p.

Definition onSpawn (e : Entry) (p : Pool) : Pool :=
  set_p_gauge (<[en_key e := (default 0 (p_gauge p !! en_key e) + 1)%Z]> (p_gauge p)) p.
Definition onRemove (e : Entry) (p : Pool) : Pool :=
  set_p_gauge (<[en_key e := (default 0 (p_gauge p !! en_key e) - 1)%Z]> (p_gauge p)) p.

(** The write lock of the map is free: nobody iterates under the read lock. *)
Definition holds_read_lock (t : Thread) : bool :=
  match t with TActivate _ => true | _ => false end.
Definition writable (p : Pool) : bool := negb (existsb holds_read_lock (p_threads p)).

(** The parent context is set and not cancelled. *)
Definition parent_alive (p : Pool) : bool := p_parent p && negb (p_stopped p).

(** [ensureRunning], for the entry [e]: the threads it starts. *)
Definition ensureRunning (e : nat) (en : Entry) (p : Pool) : list Thread * Pool :=
  if negb (parent_alive p) then ([], p)
  else if en_running en then ([], p)
  else ([TWorker e WStart], on_entry e (set_en_goroutine true false) p).

(** The deferred function of [runEntry], up to its unlock: the entry is released,
    and taken again for a new goroutine when values are left. *)
Definition exit_entry (e : nat) (en : Entry) (p : Pool) : list Thread * Pool :=
  let idleExit := negb (en_cancelled en || p_stopped p) in
  let p1 := onRemove en (on_entry e (set_en_goroutine false true) p) in
  if (0 <? slot_len (en_slot en))%nat then
    if parent_alive p
    then ([TWorker e WStart], onSpawn en (on_entry e (set_en_goroutine true false) p1))
    else ([], p1)
  else if idleExit then ([TReap e], p1) else ([], p1).

(** What a select can choose. *)
Inductive Choice := ChDone | ChSignal | ChIdle.

Definition after_handle (flush : bool) : WorkerPc := if flush then WFlush else WSelect.

(** A step of the goroutine of [e]. *)
Definition worker_run (e : nat) (pc : WorkerPc) (c : Choice) (en : Entry) (p : Pool) : option (list Thread * Pool) :=
  let go pc p := Some ([TWorker e pc], p) in
  match pc with
  | WStart => go WSelect (onSpawn en p)
  | WSelect =>
      match c with
      | ChDone => if en_cancelled en || p_stopped p then go WExit p else None
      | ChSignal => if sl_signal (en_slot en) then go (WRecv false) (on_slot e slot_disarm p) else None
      | ChIdle => go WFlush p
      end
  | WRecv flush =>
      match slot_take (en_slot en) with
      | None => None
      | Some (v, s) => go (WRearm flush v) (on_slot e (fun _ => s) p)
      end
  | WRearm flush v => go (WHandle flush v) (on_slot e slot_rearm p)
  | WHandle flush v => go (after_handle flush) (on_entry e (handled v) p)
  | WFlush =>
      if sl_signal (en_slot en) then go (WRecv true) (on_slot e slot_disarm p) else go WExit p
  | WExit => Some (exit_entry e en p)
  end.

(** [getOrCreate]: the entry of the key, made under the write lock if there is none. *)
Definition getOrCreate (key : K) (p : Pool) : option (nat * Pool) :=
  match p_entries p !! key with
  | Some e => Some (e, p)
  | None =>
      if writable p then
        let e := length (p_heap p) in
        Some (e, set_p_entries (<[key := e]> (p_entries p))
                   (set_p_heap (p_heap p ++ [mkEntry new_slot false false key (negb (p_factory p)) [] [] 0]) p))
      else None
  end.

(** A step of a thread: what becomes of it, with the threads it starts; [None] when
    it is blocked.  [bufSize] is the capacity of the queues. *)
Definition thread_run (bufSize : nat) (t : Thread) (c : Choice) (p : Pool) : option (list Thread * Pool) :=
  match t with
  | TDeliver key v =>
      match getOrCreate key p with
      | None => None
      | Some (e, p') => Some ([TSend e v], p')
      end
  | TSend e v =>
      en ← p_heap p !! e;
      match slot_offer bufSize v (en_slot en) with
      | Some s => Some ([TSignal e], on_entry e (fun en => accept v (set_en_slot s en)) p)
      | None => Some ([TLoad e], p)
      end
  | TSignal e => Some ([TLoad e], on_slot e slot_arm p)
  | TLoad e => Some (if p_factory p then [TEnsure e] else [], p)
  | TEnsure e => en ← p_heap p !! e; Some (ensureRunning e en p)
  | TRegister => Some ([TStore], set_p_parent true p)
  | TStore => Some ([TLock], set_p_factory true p)
  | TLock => Some ([TActivate (map snd (map_to_list (p_entries p)))], p)
  | TActivate [] => Some ([], p)
  | TActivate (e :: todo) =>
      en ← p_heap p !! e;
      if (0 <? slot_len (en_slot en))%nat
      then let '(ts, p') := ensureRunning e en p in Some (TActivate todo :: ts, p')
      else Some ([TActivate todo], p)
  | TRemove key =>
      if writable p then
        Some (match p_entries p !! key with Some e => [TCancel e] | None => [] end,
              set_p_entries (delete key (p_entries p)) p)
      else None
  | TCancel e => Some ([TDrain e], on_entry e (fun en => set_en_goroutine (en_running en) true en) p)
  | TDrain e =>
      en ← p_heap p !! e;
      match slot_take (en_slot en) with
      | Some (_, s) => Some ([TDrain e], on_entry e (fun en => drained (set_en_slot s en)) p)
      | None => Some ([TDrainSignal e], p)
      end
  | TDrainSignal e => Some ([], on_slot e slot_disarm p)
  | TStop => Some ([], if p_parent p then set_p_stopped true p else p)
  | TWorker e pc => en ← p_heap p !! e; worker_run e pc c en p
  | TReap e =>
      en ← p_heap p !! e;
      if writable p then
        Some ([], if negb (en_running en) && (slot_len (en_slot en) =? 0)%nat
                  then set_p_entries (delete (en_key en) (p_entries p)) p else p)
      else None
  end.

(** What can happen next: a call from outside, or a step of the [i]-th thread. *)
Inductive Action :=
| Call (t : Thread)
| Run (i : nat) (c : Choice).

(** The calls: [Deliver], [Register], [Remove], [Stop]. *)
Definition entry_point (t : Thread) : bool :=
  match t with TDeliver _ _ | TRegister | TRemove _ | TStop => true | _ => false end.

Definition pool_run (bufSize : nat) (a : Action) (p : Pool) : option Pool :=
  match a with
  | Call t => if entry_point t then Some (set_p_threads (p_threads p ++ [t]) p) else None
  | Run i c =>
      t ← p_threads p !! i;
      let rest := take i (p_threads p) ++ drop (S i) (p_threads p) in
      match thread_run bufSize t c p with
      | None => None
      | Some (ts, p') => Some (set_p_threads (ts ++ rest) p')
      end
  end.

(** A schedule. *)
Fixpoint pool_runs (bufSize : nat) (l : list Action) (p : Pool) : option Pool :=
  match l with
  | [] => Some p
  | a :: l' => p' ← pool_run bufSize a p; pool_runs bufSize l' p'
  end.

(** The states that schedules reach when the calls from outside satisfy [calls]. *)
Inductive pool_reach (bufSize : nat) (calls : Thread -> Prop) : Pool -> Prop :=
| reach_new : pool_reach bufSize calls new_pool
| reach_call p t p' : pool_reach bufSize calls p -> calls t ->
    pool_run bufSize (Call t) p = Some p' -> pool_reach bufSize calls p'
| reach_run p i c p' : pool_reach bufSize calls p ->
    pool_run bufSize (Run i c) p = Some p' -> pool_reach bufSize calls p'.
End pool.
Arguments Entry : clear implicits.
Arguments Thread : clear implicits.
Arguments Pool _ _ {_ _}.
Arguments Action : clear implicits.
