(* ===== verification/PoolSpec.v ===== *)
(** * What a worker pool promises

    Invariants of every schedule of a pool: an entry has at most one goroutine, the
    values its slot accepted are handled in order, and none is left behind while a
    delivery or a goroutine can still see to it. *)
From S2P Require Import Prelude Pool.
From Stdlib Require Import Lia.

Section invariant.
Context {K V : Type} `{Countable K}.
Context (bufSize : nat).

Definition worker_on (t : Thread K V) : option nat :=
  match t with TWorker e _ => Some e | _ => None end.

Definition workers (e : nat) (ts : list (Thread K V)) : nat :=
  length (filter (fun t => worker_on t = Some e) ts).

(** The value that a goroutine has taken and not yet handled. *)
Definition hand_of (pc : WorkerPc (V:=V)) : list V :=
  match pc with WRearm _ v | WHandle _ v => [v] | _ => [] end.

(** The accepted values are the handled ones, those in [hand] and those in the
    queue, in order, less what [Drain] discarded. *)
Definition fifo (en : Entry K V) (hand : list V) : Prop :=
  sublist (en_handled en ++ hand ++ sl_queue (en_slot en)) (en_accepted en) /\
  length (en_accepted en) = (length (en_handled en ++ hand ++ sl_queue (en_slot en)) + en_drained en)%nat.

Record entry_ok (ts : list (Thread K V)) (e : nat) (en : Entry K V) : Prop := {
  ok_workers : workers e ts = if en_running en then 1%nat else 0%nat;
  ok_hand : forall pc, TWorker e pc ∈ ts -> fifo en (hand_of pc);
  ok_idle : en_running en = false -> fifo en [];
  ok_length : (length (sl_queue (en_slot en)) <= bufSize)%nat;
}.

(** The entries a thread knows. *)
Definition refs (t : Thread K V) : list nat :=
  match t with
  | TSend e _ | TSignal e | TLoad e | TEnsure e | TCancel e | TDrain e | TDrainSignal e | TWorker e _ | TReap e => [e]
  | TActivate todo => todo
  | _ => []
  end.

Record pool_ok (ts : list (Thread K V)) (p : Pool K V) : Prop := {
  ok_refs : forall t e, t ∈ ts -> e ∈ refs t -> (e < length (p_heap p))%nat;
  ok_map : forall k e, p_entries p !! k = Some e -> (e < length (p_heap p))%nat;
  ok_entry : forall e en, p_heap p !! e = Some en -> entry_ok ts e en;
}.

#[local] Instance workers_perm e : Proper ((≡ₚ) ==> (=)) (workers e).
Proof. intros l1 l2 Hl. unfold workers. by rewrite Hl. Qed.

Lemma workers_cons e t ts :
  workers e (t :: ts) = ((if decide (worker_on t = Some e) then 1 else 0) + workers e ts)%nat.
Proof. unfold workers. rewrite filter_cons. by case_decide. Qed.

Lemma workers_app e ts ts' : workers e (ts ++ ts') = (workers e ts + workers e ts')%nat.
Proof. unfold workers. by rewrite filter_app, length_app. Qed.

Lemma workers_zero e ts : (forall t, t ∈ ts -> worker_on t <> Some e) -> workers e ts = 0%nat.
Proof.
  induction ts as [|t ts IH]; intros Ht; [done|]. rewrite workers_cons, decide_False by (apply Ht; by left).
  apply IH. intros t' Ht'. apply Ht. by right.
Qed.

Lemma workers_none e pc ts : workers e ts = 0%nat -> TWorker e pc ∉ ts.
Proof.
  unfold workers. intros Hw Hin. apply nil_length_inv in Hw.
  assert (TWorker e pc ∈ filter (fun t => worker_on t = Some e) ts) as Hf by (by apply list_elem_of_filter).
  rewrite Hw in Hf. by apply not_elem_of_nil in Hf.
Qed.

Lemma pool_ok_perm ts ts' p : ts ≡ₚ ts' -> pool_ok ts p -> pool_ok ts' p.
Proof.
  intros Hp [Hr Hm He]. split; [|done|].
  - intros t e Ht. apply Hr. by rewrite Hp.
  - intros e en Hen. destruct (He e en Hen) as [H1 H2 H3 H4]. split; [by rewrite <- Hp| |done|done].
    intros pc Hpc. apply H2. by rewrite Hp.
Qed.

(** *** How an operation changes what the invariant reads *)

Lemma heap_on_entry e f (p : Pool K V) e' :
  p_heap (on_entry e f p) !! e' = if decide (e' = e) then f <$> p_heap p !! e' else p_heap p !! e'.
Proof.
  cbn. case_decide as Hd; [subst; apply list_lookup_alter_eq|]. by apply list_lookup_alter_ne.
Qed.

Lemma length_on_entry e f (p : Pool K V) : length (p_heap (on_entry e f p)) = length (p_heap p).
Proof. apply length_alter. Qed.

(** The thread [t] becomes [ts] and leaves the map as it is, or with fewer keys; the
    entry [e] goes from [en] to [f en], and keeps its invariant. *)
Lemma pool_ok_entry t ts rest e f (p p' : Pool K V) :
  pool_ok (t :: rest) p ->
  p_heap p' = alter f e (p_heap p) -> (forall k e, p_entries p' !! k = Some e -> p_entries p !! k = Some e) ->
  (forall t' e', t' ∈ ts -> e' ∈ refs t' -> e' = e \/ e' ∈ refs t) ->
  e ∈ refs t ->
  (forall t', t' ∈ t :: ts -> worker_on t' = None \/ worker_on t' = Some e) ->
  (forall en, p_heap p !! e = Some en -> entry_ok (t :: rest) e en -> entry_ok (ts ++ rest) e (f en)) ->
  pool_ok (ts ++ rest) p'.
Proof.
  intros [Hr Hm He] Hh Hent Href Het Hw Hen.
  assert (forall e', e' <> e -> workers e' (ts ++ rest) = workers e' (t :: rest)) as Hws.
  { intros e' Hne. rewrite workers_app, workers_cons, workers_zero.
    - rewrite decide_False; [done|]. destruct (Hw t) as [Hn|Hn]; [by left|congruence|congruence].
    - intros t' Ht'. destruct (Hw t') as [Hn|Hn]; [by right|congruence|congruence]. }
  split.
  - intros t' e' Ht' He'. rewrite Hh, length_alter. apply elem_of_app in Ht' as [Ht'|Ht'].
    + destruct (Href t' e' Ht' He') as [->|Ht]; apply (Hr t); [by left|done|by left|done].
    + apply (Hr t'); [by right|done].
  - intros k e' Hk. rewrite Hh, length_alter. by apply (Hm k), Hent.
  - intros e' en' Hl. rewrite Hh in Hl. destruct (decide (e' = e)) as [->|Hne].
    + rewrite list_lookup_alter_eq in Hl. destruct (p_heap p !! e) as [en|] eqn:E; [|done]. injection Hl as <-.
      apply Hen; [done|]. by apply He.
    + rewrite list_lookup_alter_ne in Hl by done. destruct (He e' en' Hl) as [H1 H2 H3 H4].
      split; [by rewrite Hws| |done|done]. intros pc Hpc. apply H2.
      apply elem_of_app in Hpc as [Hpc|Hpc]; [|by right]. destruct (Hw (TWorker e' pc)) as [Hn|Hn]; [by right|done|].
      injection Hn as ->. done.
Qed.

(** A thread that is no goroutine, and changes no entry. *)
Lemma pool_ok_quiet t ts rest (p p' : Pool K V) :
  pool_ok (t :: rest) p ->
  p_heap p' = p_heap p -> (forall k e, p_entries p' !! k = Some e -> p_entries p !! k = Some e) ->
  (forall t' e', t' ∈ ts -> e' ∈ refs t' -> e' ∈ refs t \/ exists k, p_entries p !! k = Some e') ->
  (forall t', t' ∈ t :: ts -> worker_on t' = None) ->
  pool_ok (ts ++ rest) p'.
Proof.
  intros [Hr Hm He] Hh Hent Href Hw. split.
  - intros t' e' Ht' He'. rewrite Hh. apply elem_of_app in Ht' as [Ht'|Ht'].
    + destruct (Href t' e' Ht' He') as [Ht|[k Hk] ]; [|by apply (Hm k)]. apply (Hr t); [by left|done].
    + apply (Hr t'); [by right|done].
  - intros k e' Hk. rewrite Hh. by apply (Hm k), Hent.
  - intros e' en' Hl. rewrite Hh in Hl. destruct (He e' en' Hl) as [H1 H2 H3 H4].
    assert (forall t', t' ∈ ts -> worker_on t' <> Some e') as Hts by (intros t' Ht'; rewrite Hw; [done|by right]).
    split; [| |done|done].
    + rewrite workers_app, workers_zero by done. rewrite workers_cons, decide_False in H1; [done|].
      rewrite Hw; [done|by left].
    + intros pc Hpc. apply H2. apply elem_of_app in Hpc as [Hpc|Hpc]; [|by right]. by apply Hts in Hpc.
Qed.

(** *** The entry of a step *)

(** A thread that is no goroutine. *)
Lemma entry_ok_sender t ts rest e en en' :
  worker_on t = None -> (forall t', t' ∈ ts -> worker_on t' = None) ->
  en_running en' = en_running en -> (forall h, fifo en h -> fifo en' h) ->
  (length (sl_queue (en_slot en')) <= bufSize)%nat ->
  entry_ok (t :: rest) e en -> entry_ok (ts ++ rest) e en'.
Proof.
  intros Ht Hts Hr Hf Hl [H1 H2 H3 H4]. split; [| |by rewrite Hr; auto|done].
  - rewrite workers_app, workers_zero by (intros t' Ht'; by rewrite Hts). rewrite Hr, <- H1, workers_cons.
    by rewrite decide_False by congruence.
  - intros pc Hpc. apply Hf, H2. apply elem_of_app in Hpc as [Hpc|Hpc]; [|by right]. by apply Hts in Hpc.
Qed.

(** Such a thread starts the goroutine. *)
Lemma entry_ok_spawn t keep rest e en en' :
  worker_on t = None -> (forall t', t' ∈ keep -> worker_on t' = None) ->
  en_running en = false -> en_running en' = true ->
  (fifo en [] -> fifo en' []) -> en_slot en' = en_slot en ->
  entry_ok (t :: rest) e en -> entry_ok ((keep ++ [TWorker e WStart]) ++ rest) e en'.
Proof.
  intros Ht Hk Hr Hr' Hf Hs [H1 H2 H3 H4].
  rewrite workers_cons, decide_False, Hr in H1 by congruence. split; [| |by rewrite Hr'|by rewrite Hs].
  - rewrite !workers_app, workers_cons, decide_True, (workers_zero _ keep), Hr' by (done || (intros t' Ht'; by rewrite Hk)).
    cbn. lia.
  - intros pc [ [Hpc|Hpc]%elem_of_app|Hpc]%elem_of_app; [by apply Hk in Hpc| |by eapply workers_none in Hpc].
    apply list_elem_of_singleton in Hpc. injection Hpc as ->. cbn. auto.
Qed.

(** The goroutine. *)
Lemma entry_ok_worker rest e pc pc' en en' :
  en_running en' = en_running en -> (fifo en (hand_of pc) -> fifo en' (hand_of pc')) ->
  (length (sl_queue (en_slot en')) <= bufSize)%nat ->
  entry_ok (TWorker e pc :: rest) e en -> entry_ok ([TWorker e pc'] ++ rest) e en'.
Proof.
  intros Hr Hf Hl [H1 H2 H3 H4]. cbn [app] in *.
  rewrite workers_cons, decide_True in H1 by done. destruct (en_running en) eqn:E; [|lia].
  split; [| |by rewrite Hr|done].
  - rewrite workers_cons, decide_True, Hr by done. lia.
  - intros pc0 Hpc. apply elem_of_cons in Hpc as [Hpc|Hpc].
    + injection Hpc as ->. apply Hf, H2. by left.
    + eapply workers_none in Hpc; [done|lia].
Qed.

(** The goroutine ends. *)
Lemma entry_ok_leave rest e pc ts en en' :
  en_running en' = false -> hand_of pc = [] -> (forall h, fifo en h -> fifo en' h) ->
  (forall t', t' ∈ ts -> worker_on t' = None) -> en_slot en' = en_slot en ->
  entry_ok (TWorker e pc :: rest) e en -> entry_ok (ts ++ rest) e en'.
Proof.
  intros Hr Hh Hf Hts Hs [H1 H2 H3 H4].
  rewrite workers_cons, decide_True in H1 by done. destruct (en_running en) eqn:E; [|lia].
  split; [| | |by rewrite Hs].
  - rewrite workers_app, workers_zero, Hr by (intros t' Ht'; by rewrite Hts). lia.
  - intros pc0 Hpc. apply elem_of_app in Hpc as [Hpc|Hpc]; [by apply Hts in Hpc|].
    eapply workers_none in Hpc; [done|lia].
  - intros _. apply Hf. rewrite <- Hh. apply H2. by left.
Qed.

(** *** The ledger *)

Lemma fifo_same en en' h :
  sl_queue (en_slot en') = sl_queue (en_slot en) -> en_handled en' = en_handled en ->
  en_accepted en' = en_accepted en -> en_drained en' = en_drained en -> fifo en h -> fifo en' h.
Proof. intros H1 H2 H3 H4. unfold fifo. by rewrite H1, H2, H3, H4. Qed.

Lemma slot_offer_spec v (s s' : Slot V) : slot_offer bufSize v s = Some s' ->
  sl_queue s' = sl_queue s ++ [v] /\ (length (sl_queue s') <= bufSize)%nat.
Proof.
  unfold slot_offer. destruct (Nat.ltb_spec (length (sl_queue s)) bufSize); [|done].
  intros [= <-]. cbn. rewrite length_app. cbn. split; [done|lia].
Qed.

Lemma slot_take_spec v (s s' : Slot V) : slot_take s = Some (v, s') ->
  sl_queue s = v :: sl_queue s' /\ sl_signal s' = sl_signal s.
Proof. unfold slot_take. destruct (sl_queue s); [done|]. by intros [= -> <-]. Qed.

Lemma slot_rearm_queue (s : Slot V) : sl_queue (slot_rearm s) = sl_queue s.
Proof. unfold slot_rearm. by destruct (sl_queue s) eqn:E. Qed.

Lemma fifo_accept v en s h : slot_offer bufSize v (en_slot en) = Some s ->
  fifo en h -> fifo (accept v (set_en_slot s en)) h.
Proof.
  intros Hs [H1 H2]. apply slot_offer_spec in Hs as [Hs _]. unfold fifo. cbn. rewrite Hs. split.
  - rewrite (app_assoc h), app_assoc. by apply sublist_app.
  - rewrite !length_app in *. cbn. lia.
Qed.

Lemma fifo_take v en s : slot_take (en_slot en) = Some (v, s) -> fifo en [] -> fifo (set_en_slot s en) [v].
Proof. intros Hs H1. apply slot_take_spec in Hs as [Hs _]. unfold fifo in *. cbn in *. by rewrite Hs in H1. Qed.

Lemma fifo_handled v en : fifo en [v] -> fifo (handled v en) [].
Proof. intros [H1 H2]. unfold fifo. cbn in *. by rewrite <- app_assoc. Qed.

Lemma fifo_drain v en s h : slot_take (en_slot en) = Some (v, s) ->
  fifo en h -> fifo (drained (set_en_slot s en)) h.
Proof.
  intros Hs [H1 H2]. apply slot_take_spec in Hs as [Hs _]. unfold fifo. cbn. rewrite Hs in H1, H2. split.
  - etrans; [|exact H1]. by apply sublist_app, sublist_app, sublist_cons.
  - rewrite !length_app in *. cbn in *. lia.
Qed.

(** *** Every step *)

Lemma ensureRunning_ok t keep rest e en (p p' : Pool K V) ts :
  pool_ok (t :: rest) p -> p_heap p !! e = Some en -> e ∈ refs t -> worker_on t = None ->
  (forall t', t' ∈ keep -> worker_on t' = None /\ forall e', e' ∈ refs t' -> e' ∈ refs t) ->
  ensureRunning e en p = (ts, p') -> pool_ok ((keep ++ ts) ++ rest) p'.
Proof.
  intros Hok Hen He Ht Hk. unfold ensureRunning.
  assert (pool_ok ((keep ++ []) ++ rest) p) as Hsame.
  { rewrite app_nil_r. eapply pool_ok_quiet; [exact Hok|done|done| |].
    - intros t0 e' Ht0 He'. left. by apply (Hk t0).
    - intros t0 [->|Ht0]%elem_of_cons; [done|]. by apply Hk. }
  case_match; [by intros [= <- <-]|]. destruct (en_running en) eqn:Er; [by intros [= <- <-]|].
  intros [= <- <-]. eapply (pool_ok_entry t _ rest e (set_en_goroutine true false)); [exact Hok|done|done| |done| |].
  - intros t0 e' [Ht0|Ht0]%elem_of_app He'; [right; by apply (Hk t0)|].
    apply list_elem_of_singleton in Ht0 as ->. left. by apply list_elem_of_singleton in He'.
  - intros t0 [->|[Ht0|Ht0]%elem_of_app]%elem_of_cons; [by left|left; by apply Hk|].
    apply list_elem_of_singleton in Ht0 as ->. by right.
  - intros en0 Hen0 Hok0. rewrite Hen in Hen0. injection Hen0 as <-.
    eapply entry_ok_spawn; [exact Ht|by intros t' [? _]%Hk|exact Er|done| |done|exact Hok0]. by apply fifo_same.
Qed.

Lemma alter_same {A} (l : list A) i : alter id i l = l.
Proof.
  apply list_eq. intros j. destruct (decide (j = i)) as [->|Hne].
  - rewrite list_lookup_alter_eq. by destruct (l !! i).
  - by rewrite list_lookup_alter_ne.
Qed.

Lemma alter_twice {A} (f g : A -> A) (l : list A) i : alter g i (alter f i l) = alter (g ∘ f) i l.
Proof.
  apply list_eq. intros j. destruct (decide (j = i)) as [->|Hne].
  - rewrite !list_lookup_alter_eq. by destruct (l !! i).
  - by rewrite !list_lookup_alter_ne.
Qed.

(** The goroutine goes on, its entry from [en] to [f en]. *)
Lemma worker_goes_on rest e pc pc' en f (p p' : Pool K V) :
  pool_ok (TWorker e pc :: rest) p -> p_heap p !! e = Some en ->
  p_heap p' = alter f e (p_heap p) -> p_entries p' = p_entries p ->
  en_running (f en) = en_running en -> (fifo en (hand_of pc) -> fifo (f en) (hand_of pc')) ->
  (length (sl_queue (en_slot (f en))) <= length (sl_queue (en_slot en)))%nat ->
  pool_ok ([TWorker e pc'] ++ rest) p'.
Proof.
  intros Hok Hen Hh Hm Hr Hf Hl. eapply (pool_ok_entry _ _ rest e f); [exact Hok|done|by rewrite Hm| |by left| |].
  - intros t0 e' ->%list_elem_of_singleton He'%list_elem_of_singleton. by left.
  - intros t0 [->|Ht0]%elem_of_cons; [by right|]. apply list_elem_of_singleton in Ht0 as ->. by right.
  - intros en0 Hen0 Hok0. rewrite Hen in Hen0. injection Hen0 as <-.
    eapply entry_ok_worker; [exact Hr|exact Hf| |exact Hok0]. destruct Hok0. lia.
Qed.

Lemma worker_stays rest e pc pc' en (p p' : Pool K V) :
  pool_ok (TWorker e pc :: rest) p -> p_heap p !! e = Some en ->
  p_heap p' = p_heap p -> p_entries p' = p_entries p -> hand_of pc' = hand_of pc ->
  pool_ok ([TWorker e pc'] ++ rest) p'.
Proof.
  intros Hok Hen Hh Hm Hp. eapply (worker_goes_on _ _ _ _ _ id); [done|done| |done|done|by rewrite Hp|done].
  by rewrite alter_same.
Qed.

Lemma exit_entry_ok rest e en (p p' : Pool K V) ts :
  pool_ok (TWorker e WExit :: rest) p -> p_heap p !! e = Some en ->
  exit_entry e en p = (ts, p') -> pool_ok (ts ++ rest) p'.
Proof.
  intros Hok Hen. unfold exit_entry.
  assert (forall ts, (forall t', t' ∈ ts -> t' = TReap e) ->
    pool_ok (ts ++ rest) (onRemove en (on_entry e (set_en_goroutine false true) p))) as Hleave.
  { intros ts0 Hts. eapply (pool_ok_entry _ _ rest e (set_en_goroutine false true)); [exact Hok|done|done| |by left| |].
    - intros t' e' ->%Hts He'%list_elem_of_singleton. by left.
    - intros t' [->|Ht']%elem_of_cons; [by right|]. apply Hts in Ht' as ->. by left.
    - intros en0 _ Hok0. apply (entry_ok_leave _ _ WExit _ en0); [done..| | |done|done];
        [intros h; by apply fifo_same|by intros t' ->%Hts]. }
  repeat case_match; intros [= <- <-].
  - eapply (worker_goes_on _ _ _ WStart en (set_en_goroutine true false ∘ set_en_goroutine false true));
      [exact Hok|done| |done| |by apply fifo_same|done].
    + cbn. by rewrite alter_twice.
    + destruct Hok as [_ _ He]. specialize (He e en Hen). destruct He as [Hw _ _ _].
      rewrite workers_cons, decide_True in Hw by done. by destruct (en_running en).
  - apply (Hleave []). by intros t' ?%not_elem_of_nil.
  - apply Hleave. by intros t' ->%list_elem_of_singleton.
  - apply (Hleave []). by intros t' ?%not_elem_of_nil.
Qed.

Lemma worker_run_ok rest e pc c en (p p' : Pool K V) ts :
  pool_ok (TWorker e pc :: rest) p -> p_heap p !! e = Some en ->
  worker_run e pc c en p = Some (ts, p') -> pool_ok (ts ++ rest) p'.
Proof.
  intros Hok Hen Hrun.
  destruct pc as [| |fl|fl v|fl v| |]; cbn [worker_run] in Hrun.
  - injection Hrun as <- <-. by eapply worker_stays.
  - destruct c; repeat case_match; try done; injection Hrun as <- <-; [by eapply worker_stays| |by eapply worker_stays].
    eapply worker_goes_on; [exact Hok|exact Hen|done|done|done|by apply fifo_same|done].
  - destruct (slot_take _) as [ [v s]|] eqn:Es; [|done]. injection Hrun as <- <-.
    eapply worker_goes_on; [exact Hok|exact Hen|done|done|done|by apply fifo_take|].
    apply slot_take_spec in Es as [Es _]. cbn. rewrite Es. cbn. lia.
  - injection Hrun as <- <-. eapply worker_goes_on; [exact Hok|exact Hen|done|done|done| |]; cbn;
      rewrite ?slot_rearm_queue; [|done]. apply fifo_same; [|done..]. apply slot_rearm_queue.
  - injection Hrun as <- <-. eapply worker_goes_on; [exact Hok|exact Hen|done|done|done| |done].
    destruct fl; apply fifo_handled.
  - case_match; injection Hrun as <- <-; [|by eapply worker_stays].
    eapply worker_goes_on; [exact Hok|exact Hen|done|done|done|by apply fifo_same|done].
  - injection Hrun as Hrun. by eapply exit_entry_ok.
Qed.

Lemma getOrCreate_ok rest key v e (p p' : Pool K V) :
  pool_ok (TDeliver key v :: rest) p -> getOrCreate key p = Some (e, p') ->
  pool_ok ([TSend e v] ++ rest) p'.
Proof.
  intros Hok Hg. unfold getOrCreate in Hg.
  destruct (p_entries p !! key) as [e0|] eqn:E.
  { injection Hg as <- <-. eapply pool_ok_quiet; [exact Hok|done|done| |].
    - intros t' e' ->%list_elem_of_singleton He'%list_elem_of_singleton. right. exists key. by subst.
    - intros t' [->|Ht']%elem_of_cons; [done|]. by apply list_elem_of_singleton in Ht' as ->. }
  destruct (writable p); [|done]. injection Hg as <- <-. destruct Hok as [Hr Hm He].
  assert (forall t, t ∈ rest -> forall e', e' ∈ refs t -> (e' < length (p_heap p))%nat) as Hr'.
  { intros t Ht e'. apply Hr. by right. }
  split.
  - intros t e' Ht He'. cbn. rewrite length_app. cbn. apply elem_of_app in Ht as [Ht|Ht].
    + apply list_elem_of_singleton in Ht as ->. apply list_elem_of_singleton in He' as ->. lia.
    + specialize (Hr' t Ht e' He'). lia.
  - intros k e'. cbn. rewrite length_app. cbn. destruct (decide (k = key)) as [->|Hne].
    + rewrite lookup_insert_eq. intros [= <-]. lia.
    + rewrite lookup_insert_ne by done. intros Hk. specialize (Hm k e' Hk). lia.
  - intros e' en. cbn. intros [Hl|[Hl Hn] ]%lookup_app_Some.
    + apply (entry_ok_sender (TDeliver key v) [_] rest e' en); try done;
        [by intros t' ->%list_elem_of_singleton|by destruct (He e' en Hl)|by apply He].
    + destruct (e' - length (p_heap p))%nat eqn:En; [|done]. injection Hn as <-.
      assert (e' = length (p_heap p)) as -> by lia.
      assert (forall t', t' ∈ [TSend (length (p_heap p)) v] ++ rest -> worker_on t' <> Some (length (p_heap p))) as Hw.
      { intros t' [->|Ht']%elem_of_cons; [done|]. destruct t'; try done. cbn. intros [= ->].
        apply Hr' with (e' := length (p_heap p)) in Ht'; [lia|by left]. }
      split; [by apply workers_zero| |by split|cbn; lia].
      intros pc Hpc. by apply Hw in Hpc.
Qed.

(** A thread that touches one entry and is no goroutine. *)
Lemma sender_steps t t' rest e f (p p' : Pool K V) :
  pool_ok (t :: rest) p -> worker_on t = None -> worker_on t' = None -> refs t = [e] -> refs t' = [e] \/ refs t' = [] ->
  p_heap p' = alter f e (p_heap p) -> p_entries p' = p_entries p ->
  (forall en, p_heap p !! e = Some en ->
    en_running (f en) = en_running en /\ (forall h, fifo en h -> fifo (f en) h) /\
    ((length (sl_queue (en_slot en)) <= bufSize) -> length (sl_queue (en_slot (f en))) <= bufSize)%nat) ->
  pool_ok ([t'] ++ rest) p'.
Proof.
  intros Hok Ht Ht' Hrt Hrt' Hh Hm Hf. eapply (pool_ok_entry t _ rest e f); [exact Hok|exact Hh|by rewrite Hm| | | |].
  - intros t0 e' ->%list_elem_of_singleton He'. left. destruct Hrt' as [Hrt'|Hrt']; rewrite Hrt' in He';
      [by apply list_elem_of_singleton in He'|by apply not_elem_of_nil in He'].
  - rewrite Hrt. by left.
  - intros t0 [->|Ht0]%elem_of_cons; [by left|]. apply list_elem_of_singleton in Ht0 as ->. by left.
  - intros en Hen Hok0. destruct (Hf en Hen) as (H1 & H2 & H3).
    eapply entry_ok_sender; [exact Ht| |exact H1|exact H2| |exact Hok0]; [by intros t0 ->%list_elem_of_singleton|].
    apply H3. by destruct Hok0.
Qed.

(** A thread that is no goroutine, and at most turns into another one. *)
Lemma quiet_steps t ts rest (p p' : Pool K V) :
  pool_ok (t :: rest) p -> worker_on t = None -> p_heap p' = p_heap p ->
  (forall k e, p_entries p' !! k = Some e -> p_entries p !! k = Some e) ->
  ts = [] \/ (exists t', ts = [t'] /\ worker_on t' = None /\ forall e', e' ∈ refs t' -> e' ∈ refs t \/ exists k, p_entries p !! k = Some e') ->
  pool_ok (ts ++ rest) p'.
Proof.
  intros Hok Ht Hh Hm Hts. eapply pool_ok_quiet; [exact Hok|done|done| |].
  - intros t0 e' Ht0. destruct Hts as [->|(t' & -> & _ & Hr)]; [by apply not_elem_of_nil in Ht0|].
    apply list_elem_of_singleton in Ht0 as ->. apply Hr.
  - intros t0 [->|Ht0]%elem_of_cons; [done|].
    destruct Hts as [->|(t' & -> & Hw & _)]; [by apply not_elem_of_nil in Ht0|].
    by apply list_elem_of_singleton in Ht0 as ->.
Qed.

Lemma thread_run_ok t c rest (p p' : Pool K V) ts :
  pool_ok (t :: rest) p -> thread_run bufSize t c p = Some (ts, p') -> pool_ok (ts ++ rest) p'.
Proof.
  intros Hok Hrun. destruct t as [key v|e v|e|e|e| | | |[|e todo]|key|e|e|e| |e pc|e]; cbn [thread_run] in Hrun.
  - destruct (getOrCreate key p) as [ [e p1]|] eqn:Eg; [|done]. injection Hrun as <- <-. by eapply getOrCreate_ok.
  - apply bind_Some in Hrun as (en & Hen & Hrun).
    destruct (slot_offer _ _ _) as [s|] eqn:Es; injection Hrun as <- <-.
    + eapply (sender_steps _ _ _ e); [exact Hok|done|done|done|by left|done|done|].
      intros en0 Hen0. rewrite Hen in Hen0. injection Hen0 as <-. split; [done|]. split.
      * intros h. by apply fifo_accept.
      * intros _. by apply slot_offer_spec in Es as [_ Hl].
    + eapply quiet_steps; [exact Hok|done|done|done|]. right. eexists. split; [done|]. split; [done|by left].
  - injection Hrun as <- <-. eapply (sender_steps _ _ _ e); [exact Hok|done|done|done|by left|done|done|].
    intros en _. split; [done|]. split; [|done]. intros h. by apply fifo_same.
  - injection Hrun as <- <-. eapply quiet_steps; [exact Hok|done|done|done|].
    destruct (p_factory p); [right|by left]. eexists. split; [done|]. split; [done|by left].
  - apply bind_Some in Hrun as (en & Hen & Hrun). injection Hrun as Hrun.
    apply (ensureRunning_ok (TEnsure e) [] rest e en p); [done|done|by left|done| |done].
    by intros t' ?%not_elem_of_nil.
  - injection Hrun as <- <-. eapply quiet_steps; [exact Hok|done|done|done|]. right. eexists.
    split; [done|]. split; [done|]. by intros e' ?%not_elem_of_nil.
  - injection Hrun as <- <-. eapply quiet_steps; [exact Hok|done|done|done|]. right. eexists.
    split; [done|]. split; [done|]. by intros e' ?%not_elem_of_nil.
  - injection Hrun as <- <-. eapply quiet_steps; [exact Hok|done|done|done|]. right. eexists. split; [done|].
    split; [done|]. intros e' He'. right. apply list_elem_of_fmap in He' as ( [k e0] & -> & Hin).
    exists k. by apply elem_of_map_to_list.
  - injection Hrun as <- <-. eapply quiet_steps; [exact Hok|done|done|done|by left].
  - apply bind_Some in Hrun as (en & Hen & Hrun).
    destruct (0 <? _)%nat.
    + destruct (ensureRunning e en p) as [ts1 p1] eqn:Ee. injection Hrun as <- <-.
      apply (ensureRunning_ok (TActivate (e :: todo)) [TActivate todo] rest e en p); [done|done|by left|done| |done].
      intros t' ->%list_elem_of_singleton. split; [done|]. intros e' He'. by right.
    + injection Hrun as <- <-. eapply quiet_steps; [exact Hok|done|done|done|]. right. eexists. split; [done|].
      split; [done|]. intros e' He'. left. by right.
  - case_match; [|done]. injection Hrun as <- <-. eapply quiet_steps; [exact Hok|done|done| |].
    + intros k e. cbn. intros [_ Hk]%lookup_delete_Some. done.
    + destruct (p_entries p !! key) as [e|] eqn:E; [right|by left]. eexists. split; [done|]. split; [done|].
      intros e' ->%list_elem_of_singleton. right. by exists key.
  - injection Hrun as <- <-. eapply (sender_steps _ _ _ e); [exact Hok|done|done|done|by left|done|done|].
    intros en _. split; [done|]. split; [|done]. intros h. by apply fifo_same.
  - apply bind_Some in Hrun as (en & Hen & Hrun). destruct (slot_take _) as [ [v s]|] eqn:Es; injection Hrun as <- <-.
    + eapply (sender_steps _ _ _ e); [exact Hok|done|done|done|by left|done|done|].
      intros en0 Hen0. rewrite Hen in Hen0. injection Hen0 as <-. split; [done|]. split.
      * intros h. by eapply fifo_drain.
      * apply slot_take_spec in Es as [Es _]. cbn. rewrite Es. cbn. lia.
    + eapply quiet_steps; [exact Hok|done|done|done|]. right. eexists. split; [done|]. split; [done|by left].
  - injection Hrun as <- <-. rewrite <- (app_nil_l rest).
    eapply (pool_ok_entry (TDrainSignal e) [] rest e (fun en => set_en_slot (slot_disarm (en_slot en)) en));
      [exact Hok|done|done|by intros t' ? ?%not_elem_of_nil|by left| |].
    + intros t' [->|?%not_elem_of_nil]%elem_of_cons; [by left|done].
    + intros en Hen Hok0. apply (entry_ok_sender (TDrainSignal e) [] rest e en);
        [done|by intros t' ?%not_elem_of_nil|done|intros h; by apply fifo_same|by destruct Hok0|done].
  - injection Hrun as <- <-. eapply quiet_steps; [exact Hok|done|by case_match|by case_match|by left].
  - apply bind_Some in Hrun as (en & Hen & Hrun). by eapply worker_run_ok.
  - apply bind_Some in Hrun as (en & Hen & Hrun). case_match; [|done]. injection Hrun as <- <-.
    eapply quiet_steps; [exact Hok|done|by case_match| |by left].
    case_match; [|done]. intros k e'. cbn. by intros [_ Hk]%lookup_delete_Some.
Qed.

Lemma pool_reach_ok calls (p : Pool K V) : pool_reach bufSize calls p -> pool_ok (p_threads p) p.
Proof.
  induction 1 as [|p t p' _ IH _ Hrun|p i c p' _ IH Hrun].
  - split; [by intros t e ?%not_elem_of_nil|by intros k e|by intros e en].
  - cbn [pool_run] in Hrun. destruct (entry_point t) eqn:Et; [|done]. injection Hrun as <-. cbn [p_threads set_p_threads].
    assert (forall e, worker_on t <> Some e) as Hw by (by destruct t).
    destruct IH as [Hr Hm He]. split; [|done|].
    + intros t' e [Ht'|Ht']%elem_of_app He'; [by eapply Hr|].
      apply list_elem_of_singleton in Ht' as ->. destruct t; try done; by apply not_elem_of_nil in He'.
    + intros e en Hen. destruct (He e en Hen) as [H1 H2 H3 H4]. split; [| |done|done].
      * rewrite workers_app, H1, workers_cons, decide_False by done. cbn. lia.
      * intros pc [Hpc|Hpc]%elem_of_app; [auto|]. apply list_elem_of_singleton in Hpc as <-. by destruct (Hw e).
  - cbn [pool_run] in Hrun. apply bind_Some in Hrun as (t & Ht & Hrun).
    destruct (thread_run bufSize t c p) as [ [ts p1]|] eqn:Et; [|done]. injection Hrun as <-.
    assert (pool_ok (t :: take i (p_threads p) ++ drop (S i) (p_threads p)) p) as Hok.
    { eapply pool_ok_perm; [|exact IH]. rewrite <- (take_drop_middle _ _ _ Ht) at 1. by rewrite Permutation_middle. }
    apply (thread_run_ok _ _ _ _ _ _ Hok) in Et. by destruct Et.
Qed.
End invariant.

(** ** Nothing is left behind *)

Section wake.
Context {K V : Type} `{Countable K}.
Context (bufSize : nat).

(** The thread will leave a token in the signal channel of [e], or sees to its queue. *)
Definition signals (e : nat) (t : Thread K V) : Prop :=
  match t with
  | TSignal e' | TWorker e' (WRecv _) | TWorker e' (WRearm _ _) => e' = e
  | _ => False
  end.

(** The thread will start the goroutine of [e] if it does not run. *)
Definition starts (p : Pool K V) (e : nat) (en : Entry K V) (t : Thread K V) : Prop :=
  match t with
  | TSignal e' | TLoad e' | TEnsure e' => e' = e
  | TActivate todo => e ∈ todo
  | TLock => en_early en = true /\ p_entries p !! en_key en = Some e
  | _ => False
  end.

(** What a thread tells of the pool; no thread is in a [Remove]. *)
Definition thread_wf (p : Pool K V) (t : Thread K V) : Prop :=
  match t with
  | TStore => p_parent p = true
  | TEnsure _ | TLock | TActivate _ | TWorker _ _ | TReap _ => p_parent p = true /\ p_factory p = true
  | TRemove _ | TCancel _ | TDrain _ | TDrainSignal _ => False
  | _ => True
  end.

Record entry_wake (ts : list (Thread K V)) (p : Pool K V) (e : nat) (en : Entry K V) : Prop := {
  wake_signal : sl_queue (en_slot en) <> [] -> sl_signal (en_slot en) = true \/ Exists (signals e) ts;
  wake_running : sl_queue (en_slot en) <> [] -> p_stopped p = false ->
    en_running en = true \/ p_factory p = false \/ Exists (starts p e en) ts;
}.

Record pool_wake (ts : list (Thread K V)) (p : Pool K V) : Prop := {
  wake_threads : Forall (thread_wf p) ts;
  wake_parent : p_factory p = true -> p_parent p = true;
  wake_early : p_factory p = false -> forall e en, p_heap p !! e = Some en ->
    en_early en = true /\ p_entries p !! en_key en = Some e;
  wake_key : forall k e, p_entries p !! k = Some e -> exists en, p_heap p !! e = Some en /\ en_key en = k;
  wake_unique : forall e en e' en', p_heap p !! e = Some en -> p_heap p !! e' = Some en' ->
    en_early en = true -> p_entries p !! en_key en = Some e -> en_key en' = en_key en -> e' = e;
  wake_entry : forall e en, p_heap p !! e = Some en -> entry_wake ts p e en;
}.

Lemma exists_kept (P Q : Thread K V -> Prop) t ts rest :
  Exists P (t :: rest) -> (P t -> Exists Q ts) -> (forall t', P t' -> Q t') -> Exists Q (ts ++ rest).
Proof.
  intros [Ht|Hr]%Exists_cons Hts HPQ; apply Exists_app; [left; auto|right].
  eapply Exists_impl; [exact Hr|exact HPQ].
Qed.

Lemma starts_entries p p' e en t : p_entries p' = p_entries p -> starts p e en t -> starts p' e en t.
Proof. intros Hp. destruct t; cbn; by rewrite ?Hp. Qed.

Lemma thread_wf_flags p p' t : p_parent p' = p_parent p -> p_factory p' = p_factory p -> thread_wf p t -> thread_wf p' t.
Proof. intros Hp Hf. destruct t; cbn; by rewrite ?Hp, ?Hf. Qed.

Lemma starts_entry p p' e en en' t : p_entries p' = p_entries p -> en_key en' = en_key en -> en_early en' = en_early en ->
  starts p e en t -> starts p' e en' t.
Proof. intros Hp Hk He. destruct t; cbn; by rewrite ?Hp, ?Hk, ?He. Qed.

(** A step that touches the entry [e0] and neither the map nor the flags. *)
Lemma pool_wake_entry t ts rest e0 f (p p' : Pool K V) :
  pool_wake (t :: rest) p ->
  p_heap p' = alter f e0 (p_heap p) -> p_entries p' = p_entries p ->
  p_parent p' = p_parent p -> p_factory p' = p_factory p -> p_stopped p' = p_stopped p ->
  (forall en, en_key (f en) = en_key en /\ en_early (f en) = en_early en) ->
  Forall (thread_wf p) ts ->
  (forall e, e <> e0 -> signals e t -> Exists (signals e) ts) ->
  (forall e en, e <> e0 -> starts p e en t -> Exists (starts p e en) ts) ->
  (forall en, p_heap p !! e0 = Some en -> entry_wake (t :: rest) p e0 en -> entry_wake (ts ++ rest) p' e0 (f en)) ->
  pool_wake (ts ++ rest) p'.
Proof.
  intros [Ht Hp Hea Hk Hu He] Hh Hent Hpar Hfac Hsto Hf Hts Hsig Hsta He0.
  assert (forall e en', p_heap p' !! e = Some en' -> exists en, p_heap p !! e = Some en /\
    en_key en' = en_key en /\ en_early en' = en_early en /\ (e = e0 /\ en' = f en \/ e <> e0 /\ en' = en)) as Hinv.
  { intros e en'. rewrite Hh. destruct (decide (e = e0)) as [->|Hne].
    - rewrite list_lookup_alter_eq. intros (en & -> & Hen)%fmap_Some. exists en. destruct (Hf en). subst en'.
      split_and!; auto.
    - rewrite list_lookup_alter_ne by done. intros Hen. exists en'. split_and!; auto. }
  split.
  - apply Forall_app. split; [|apply Forall_cons in Ht as [_ Ht] ].
    + eapply Forall_impl; [exact Hts|]. intros t'. by apply thread_wf_flags.
    + eapply Forall_impl; [exact Ht|]. intros t'. by apply thread_wf_flags.
  - by rewrite Hfac, Hpar.
  - rewrite Hfac, Hent. intros Hff e en' (en & Hen & -> & -> & _)%Hinv. by apply Hea.
  - rewrite Hent, Hh. intros k e (en & Hen & Hkey)%Hk. destruct (decide (e = e0)) as [->|Hne].
    + rewrite list_lookup_alter_eq, Hen. exists (f en). destruct (Hf en). split; [done|congruence].
    + rewrite list_lookup_alter_ne by done. eauto.
  - rewrite Hent. intros e en1 e' en2 (en & Hen & -> & -> & _)%Hinv (en' & Hen' & -> & _)%Hinv. by apply (Hu e en e' en').
  - intros e en' (en & Hen & _ & _ & [ [-> ->]|[Hne ->] ])%Hinv; [by apply He0; [|apply He]|].
    destruct (He e en Hen) as [H1 H2]. split.
    + intros Hq. destruct (H1 Hq) as [Hs|Hs]; [by left|right].
      eapply exists_kept; [exact Hs|by apply Hsig|done].
    + rewrite Hsto, Hfac. intros Hq Hst. destruct (H2 Hq Hst) as [Hs|[Hs|Hs] ]; [by left|by right; left|right; right].
      eapply exists_kept; [exact Hs| |intros t'; by apply starts_entries].
      intros Hst'. eapply Exists_impl; [by eapply Hsta|]. intros t'. by apply starts_entries.
Qed.

(** The same with the entry [e0] itself left alone. *)
Lemma pool_wake_same t ts rest (p p' : Pool K V) :
  pool_wake (t :: rest) p ->
  p_heap p' = p_heap p -> p_entries p' = p_entries p ->
  p_parent p' = p_parent p -> p_factory p' = p_factory p -> p_stopped p' = p_stopped p ->
  Forall (thread_wf p) ts ->
  (forall e, signals e t -> Exists (signals e) ts) ->
  (forall e en, p_heap p !! e = Some en -> sl_queue (en_slot en) <> [] -> p_stopped p = false -> starts p e en t ->
    en_running en = true \/ p_factory p = false \/ Exists (starts p e en) ts) ->
  pool_wake (ts ++ rest) p'.
Proof.
  intros [Ht Hp Hea Hk Hu He] Hh Hent Hpar Hfac Hsto Hts Hsig Hsta.
  split; [|by rewrite Hfac, Hpar|by rewrite Hfac, Hent, Hh|by rewrite Hent, Hh|by rewrite Hent, Hh|].
  - apply Forall_app. apply Forall_cons in Ht as [_ Ht].
    split; [eapply Forall_impl; [exact Hts|]|eapply Forall_impl; [exact Ht|] ]; intros t'; by apply thread_wf_flags.
  - rewrite Hh. intros e en Hen. destruct (He e en Hen) as [H1 H2]. split.
    + intros Hq. destruct (H1 Hq) as [Hs|Hs]; [by left|right]. eapply exists_kept; [exact Hs|apply Hsig|done].
    + rewrite Hsto, Hfac. intros Hq Hst. destruct (H2 Hq Hst) as [Hs|[Hs|Hs] ]; [by left|by right; left|].
      apply Exists_cons in Hs as [Hs|Hs].
      * destruct (Hsta e en Hen Hq Hst Hs) as [Hr|[Hr|Hr] ]; [by left|by right; left|right; right].
        apply Exists_app. left. eapply Exists_impl; [exact Hr|]. intros t'. by apply starts_entries.
      * right; right. apply Exists_app. right. eapply Exists_impl; [exact Hs|]. intros t'. by apply starts_entries.
Qed.

Lemma exists_one (P : Thread K V -> Prop) t : P t -> Exists P [t].
Proof. intros Ht. by apply Exists_cons; left. Qed.

(** The goroutine goes from [pc] to [pc'], its entry to [f en]. *)
Lemma worker_wake rest e pc pc' f en (p p' : Pool K V) :
  pool_wake (TWorker e pc :: rest) p -> p_heap p !! e = Some en ->
  p_heap p' = alter f e (p_heap p) -> p_entries p' = p_entries p ->
  p_parent p' = p_parent p -> p_factory p' = p_factory p -> p_stopped p' = p_stopped p ->
  (forall en, en_key (f en) = en_key en /\ en_early (f en) = en_early en) ->
  en_running (f en) = en_running en ->
  (sl_queue (en_slot (f en)) <> [] -> sl_queue (en_slot en) <> []) ->
  (sl_queue (en_slot (f en)) <> [] -> sl_signal (en_slot en) = true \/ signals e (TWorker (K:=K) e pc) ->
   sl_signal (en_slot (f en)) = true \/ signals e (TWorker (K:=K) e pc')) ->
  pool_wake ([TWorker e pc'] ++ rest) p'.
Proof.
  intros Hok Hen Hh Hm Hp1 Hp2 Hp3 Hf Hr Hq Hs.
  eapply (pool_wake_entry _ _ rest e f); [exact Hok|done..| | | |].
  - destruct Hok as [Ht _ _ _ _ _]. apply Forall_cons in Ht as [Ht _]. by apply Forall_singleton.
  - intros e' Hne Hsg. destruct pc; cbn in Hsg; try done; congruence.
  - done.
  - intros en0 Hen0 [H1 H2]. rewrite Hen in Hen0. injection Hen0 as <-. split.
    + intros Hq'. specialize (H1 (Hq Hq')).
      assert (sl_signal (en_slot en) = true \/ signals e (TWorker (K:=K) e pc) \/ Exists (signals e) rest) as Hc.
      { destruct H1 as [H1|[H1|H1]%Exists_cons]; auto. }
      destruct Hc as [Hc|[Hc|Hc] ]; [| |right; apply Exists_app; by right].
      * destruct (Hs Hq') as [Hx|Hx]; [by left|by left|right]. apply Exists_app. left. by apply exists_one.
      * destruct (Hs Hq') as [Hx|Hx]; [by right|by left|right]. apply Exists_app. left. by apply exists_one.
    + rewrite Hp3, Hp2, Hr. intros Hq' Hst. destruct (H2 (Hq Hq') Hst) as [Hx|[Hx|Hx] ]; [by left|by right; left|].
      right; right. destruct (Hf en). eapply exists_kept; [exact Hx|done|]. intros t'. by apply starts_entry.
Qed.

Lemma ensureRunning_wake t keep rest e en (p p' : Pool K V) ts :
  pool_wake (t :: rest) p -> p_heap p !! e = Some en -> p_parent p = true -> p_factory p = true ->
  Forall (thread_wf p) keep -> (forall e', ~ signals e' t) ->
  (forall e' en', starts p e' en' t -> e' = e \/ Exists (starts p e' en') keep) ->
  ensureRunning e en p = (ts, p') -> pool_wake ((keep ++ ts) ++ rest) p'.
Proof.
  intros Hok Hen Hp Hfac Hk Hsig Hsta. unfold ensureRunning, parent_alive. rewrite Hp.
  assert ((p_stopped p = true \/ en_running en = true) -> pool_wake ((keep ++ []) ++ rest) p) as Hsame.
  { intros Hor. rewrite app_nil_r. eapply pool_wake_same; [exact Hok|done..| |].
    - intros e' Hs. by apply Hsig in Hs.
    - intros e' en' Hen' _ Hst Hs. destruct (Hsta e' en' Hs) as [->|Hx]; [|by right; right].
      rewrite Hen in Hen'. injection Hen' as <-. destruct Hor as [Hor|Hor]; [congruence|by left]. }
  destruct (p_stopped p) eqn:Est; cbn; [intros [= <- <-]; by apply Hsame; left|].
  destruct (en_running en) eqn:Er; [intros [= <- <-]; by apply Hsame; right|].
  intros [= <- <-]. eapply (pool_wake_entry _ _ rest e (set_en_goroutine true false)); [exact Hok|done..| | | |].
  - apply Forall_app. split; [done|]. by apply Forall_singleton.
  - intros e' _ Hs. by apply Hsig in Hs.
  - intros e' en' Hne Hs. destruct (Hsta e' en' Hs) as [->|Hx]; [done|]. apply Exists_app. by left.
  - intros en0 Hen0 [H1 H2]. split; [|by left]. cbn. intros Hq. destruct (H1 Hq) as [Hx|Hx]; [by left|right].
    eapply exists_kept; [exact Hx| |done]. intros Hs. by apply Hsig in Hs.
Qed.

Lemma exit_entry_wake rest e en (p p' : Pool K V) ts :
  pool_wake (TWorker e WExit :: rest) p -> p_heap p !! e = Some en ->
  exit_entry e en p = (ts, p') -> pool_wake (ts ++ rest) p'.
Proof.
  intros Hok Hen. unfold exit_entry, parent_alive.
  assert (thread_wf p (TWorker e WExit)) as [Hp Hfac].
  { destruct Hok as [Ht _ _ _ _ _]. by apply Forall_cons in Ht as [Ht _]. }
  cbn [p_parent p_stopped onRemove set_p_gauge on_entry set_p_heap]. rewrite Hp.
  assert (forall ts f p1, p_heap p1 = alter f e (p_heap p) -> p_entries p1 = p_entries p ->
    p_parent p1 = p_parent p -> p_factory p1 = p_factory p -> p_stopped p1 = p_stopped p ->
    (forall en, en_key (f en) = en_key en /\ en_early (f en) = en_early en /\ en_slot (f en) = en_slot en) ->
    Forall (thread_wf p) ts ->
    (sl_queue (en_slot en) <> [] -> p_stopped p = false -> en_running (f en) = true) -> pool_wake (ts ++ rest) p1) as Hgo.
  { intros ts0 f p1 Hh Hm Hp1 Hp2 Hp3 Hf Hts Hrun.
    eapply (pool_wake_entry _ _ rest e f); [exact Hok|done..| |done|done|done|].
    - intros en0. by destruct (Hf en0) as (? & ? & ?).
    - intros en0 Hen0 [H1 H2]. rewrite Hen in Hen0. injection Hen0 as <-. destruct (Hf en) as (_ & _ & Hsl).
      split; rewrite Hsl.
      + intros Hq. destruct (H1 Hq) as [Hx|Hx]; [by left|right]. by eapply exists_kept.
      + rewrite Hp3. intros Hq Hst. left. auto. }
  unfold slot_len. destruct (sl_queue (en_slot en)) as [|v q] eqn:Eq; cbn [length Nat.ltb Nat.leb].
  - case_match; intros [= <- <-]; eapply Hgo; try done. by apply Forall_singleton.
  - destruct (p_stopped p) eqn:Est; cbn; intros [= <- <-].
    + by eapply Hgo.
    + eapply (Hgo _ (set_en_goroutine true false ∘ set_en_goroutine false true)); try done;
        [cbn; by rewrite alter_twice|by apply Forall_singleton].
Qed.

Lemma worker_run_wake rest e pc c en (p p' : Pool K V) ts :
  pool_wake (TWorker e pc :: rest) p -> p_heap p !! e = Some en ->
  worker_run e pc c en p = Some (ts, p') -> pool_wake (ts ++ rest) p'.
Proof.
  intros Hok Hen Hrun.
  assert (forall pc' p1, p_heap p1 = p_heap p -> p_entries p1 = p_entries p -> p_parent p1 = p_parent p ->
    p_factory p1 = p_factory p -> p_stopped p1 = p_stopped p ->
    (signals e (TWorker (K:=K) e pc) -> signals e (TWorker (K:=K) e pc')) -> pool_wake ([TWorker e pc'] ++ rest) p1) as Hstay.
  { intros pc' p1 H1 H2 H3 H4 H5 Hs. eapply (worker_wake _ _ _ _ id en); [exact Hok|done|by rewrite alter_same|done..|].
    intros _ [Hx|Hx]; [by left|right; auto]. }
  destruct pc as [| |fl|fl v|fl v| |]; cbn [worker_run] in Hrun.
  - injection Hrun as <- <-. by apply Hstay.
  - destruct c; repeat case_match; try done; injection Hrun as <- <-; [by apply Hstay| |by apply Hstay].
    eapply worker_wake; [exact Hok|exact Hen|done..|]. by right.
  - destruct (slot_take _) as [ [v s]|] eqn:Es; [|done]. injection Hrun as <- <-.
    eapply worker_wake; [exact Hok|exact Hen|done..| |by right].
    apply slot_take_spec in Es as [Es _]. by rewrite Es.
  - injection Hrun as <- <-. eapply worker_wake; [exact Hok|exact Hen|done..| |]; cbn; rewrite slot_rearm_queue; [done|].
    intros Hq _. left. unfold slot_rearm. by destruct (sl_queue _).
  - injection Hrun as <- <-. eapply worker_wake; [exact Hok|exact Hen|done..|].
    intros _ [Hx|Hx]; [by left|done].
  - case_match; injection Hrun as <- <-; [|by apply Hstay].
    eapply worker_wake; [exact Hok|exact Hen|done..|]. by right.
  - injection Hrun as Hrun. by eapply exit_entry_wake.
Qed.

(** A pool whose map has lost a key of an entry with nothing to do. *)
Lemma reap_wake rest e en (p : Pool K V) :
  pool_wake (TReap e :: rest) p -> p_heap p !! e = Some en -> sl_queue (en_slot en) = [] ->
  pool_wake rest (set_p_entries (delete (en_key en) (p_entries p)) p).
Proof.
  intros [Ht Hp Hea Hk Hu He] Hen Hq. apply Forall_cons in Ht as [ [_ Hfac] Ht].
  split; cbn.
  - eapply Forall_impl; [exact Ht|]. intros t. by apply thread_wf_flags.
  - done.
  - by rewrite Hfac.
  - intros k e' [_ Hl]%lookup_delete_Some. by apply Hk.
  - intros e1 en1 e2 en2 H1 H2 Hea1 [_ Hl]%lookup_delete_Some. by eapply Hu.
  - intros e' en' Hen'. destruct (He e' en' Hen') as [H1 H2]. split.
    + intros Hq'. destruct (H1 Hq') as [Hx|Hx]; [by left|right]. by apply Exists_cons in Hx as [Hx|Hx].
    + cbn. intros Hq' Hst. destruct (H2 Hq' Hst) as [Hx|[Hx|Hx] ]; [by left|by right; left|right; right].
      apply Exists_cons in Hx as [Hx|Hx]; [done|]. eapply Exists_impl; [exact Hx|].
      intros t Hst'. destruct t; try done. destruct Hst' as [Hea' Hm]. split; [done|]. cbn.
      apply lookup_delete_Some. split; [|done]. intros Hkk.
      destruct (decide (e' = e)) as [->|Hne]; [congruence|]. apply Hne. symmetry.
      by apply (Hu e' en' e en).
Qed.

(** A key that has no entry gets one. *)
Lemma create_wake rest key v (p p' : Pool K V) :
  pool_wake (TDeliver key v :: rest) p -> (forall k e, p_entries p !! k = Some e -> (e < length (p_heap p))%nat) ->
  p_entries p !! key = None ->
  p' = set_p_entries (<[key := length (p_heap p)]> (p_entries p))
         (set_p_heap (p_heap p ++ [mkEntry new_slot false false key (negb (p_factory p)) [] [] 0]) p) ->
  pool_wake ([TSend (length (p_heap p)) v] ++ rest) p'.
Proof.
  intros [Ht Hp Hea Hk Hu He] Hlt Hnone ->. apply Forall_cons in Ht as [_ Ht].
  assert (forall e en, p_heap p !! e = Some en -> p_entries p !! en_key en = Some e -> en_key en <> key) as Hother.
  { intros e en _ Hm Hkk. by rewrite Hkk, Hnone in Hm. }
  split; cbn [p_entries p_heap p_parent p_factory p_stopped set_p_entries set_p_heap app].
  - apply Forall_cons. split; [done|]. eapply Forall_impl; [exact Ht|]. intros t. by apply thread_wf_flags.
  - done.
  - intros Hff e en [Hl|[Hl Hn] ]%lookup_app_Some.
    + destruct (Hea Hff e en Hl) as [H1 H2]. split; [done|]. rewrite lookup_insert_ne; [done|].
      intros ->. by eapply Hother.
    + destruct (e - length (p_heap p))%nat eqn:En; [|done]. injection Hn as <-. cbn. rewrite Hff. split; [done|].
      rewrite lookup_insert_eq. f_equal. lia.
  - intros k e. destruct (decide (k = key)) as [->|Hne].
    + rewrite lookup_insert_eq. intros [= <-]. eexists. split; [apply list_lookup_middle; lia|done].
    + rewrite lookup_insert_ne by done. intros (en & Hen & Hkk)%Hk. exists en. split; [|done]. by apply lookup_app_l_Some.
  - intros e en e' en' [Hl|[Hl Hn] ]%lookup_app_Some Hl' Hea1 Hm Hkk.
    + destruct (decide (en_key en = key)) as [Hkey|Hkey].
      * rewrite Hkey, lookup_insert_eq in Hm. injection Hm as <-. apply lookup_lt_Some in Hl. lia.
      * rewrite lookup_insert_ne in Hm by congruence. apply lookup_app_Some in Hl' as [Hl'|[_ Hn'] ]; [by eapply Hu|].
        destruct (e' - length (p_heap p))%nat; [|done]. injection Hn' as <-. cbn in Hkk. congruence.
    + destruct (e - length (p_heap p))%nat eqn:En; [|done]. injection Hn as <-. cbn in *.
      apply negb_true_iff in Hea1. apply lookup_app_Some in Hl' as [Hl'|[Hge Hn'] ].
      * destruct (Hea Hea1 e' en' Hl') as [_ Hm']. by rewrite Hkk, Hnone in Hm'.
      * destruct (e' - length (p_heap p))%nat eqn:En'; [|done]. lia.
  - intros e en [Hl|[Hl Hn] ]%lookup_app_Some.
    + destruct (He e en Hl) as [H1 H2]. split; cbn.
      * intros Hq. destruct (H1 Hq) as [Hx|Hx]; [by left|right]. apply Exists_cons in Hx as [Hx|Hx]; [done|].
        apply Exists_cons. by right.
      * intros Hq Hst. destruct (H2 Hq Hst) as [Hx|[Hx|Hx] ]; [by left|by right; left|right; right].
        apply Exists_cons in Hx as [Hx|Hx]; [done|]. apply Exists_cons. right. eapply Exists_impl; [exact Hx|].
        intros t Hst'. destruct t; try done. destruct Hst' as [Hea' Hm]. split; [done|]. cbn.
        rewrite lookup_insert_ne; [done|]. intros ->. by eapply Hother.
    + destruct (e - length (p_heap p))%nat; [|done]. injection Hn as <-. by split.
Qed.

(** A step that only moves the flags. *)
Lemma flags_wake t ts rest (p p' : Pool K V) :
  pool_wake (t :: rest) p -> p_heap p' = p_heap p -> p_entries p' = p_entries p ->
  (p_factory p = true -> p_factory p' = true) -> (p_parent p = true -> p_parent p' = true) ->
  (p_factory p' = true -> p_parent p' = true) -> Forall (thread_wf p') ts -> (forall e, ~ signals e t) ->
  (forall e en, p_heap p !! e = Some en -> p_stopped p' = false -> p_stopped p = false /\
    (p_factory p = false \/ starts p e en t -> p_factory p' = false \/ Exists (starts p' e en) ts)) ->
  pool_wake (ts ++ rest) p'.
Proof.
  intros [Ht Hp Hea Hk Hu He] Hh Hm Hf Hpa Hfp Hts Hsig Hsta. apply Forall_cons in Ht as [_ Ht].
  split; rewrite ?Hh, ?Hm; try done.
  - apply Forall_app. split; [done|]. eapply Forall_impl; [exact Ht|]. intros t'. destruct t'; cbn; try done; intuition auto.
  - intros Hf'. apply Hea. destruct (p_factory p); [|done]. by rewrite Hf in Hf'.
  - intros e en Hen. destruct (He e en Hen) as [H1 H2]. split.
    + intros Hq. destruct (H1 Hq) as [Hx|Hx]; [by left|right].
      eapply exists_kept; [exact Hx| |done]. intros Hs. by apply Hsig in Hs.
    + intros Hq Hst. destruct (Hsta e en Hen Hst) as [Hst' Hs].
      assert (p_factory p' = false \/ Exists (starts p' e en) ts -> 
        en_running en = true \/ p_factory p' = false \/ Exists (starts p' e en) (ts ++ rest)) as Hdone.
      { intros [Hx|Hx]; [by right; left|right; right]. apply Exists_app. by left. }
      destruct (H2 Hq Hst') as [Hx|[Hx|Hx] ]; [by left|apply Hdone, Hs; by left|].
      apply Exists_cons in Hx as [Hx|Hx]; [apply Hdone, Hs; by right|].
      right; right. apply Exists_app. right. eapply Exists_impl; [exact Hx|]. intros t'. by apply starts_entries.
Qed.

Lemma thread_run_wake t c rest (p p' : Pool K V) ts :
  (forall k e, p_entries p !! k = Some e -> (e < length (p_heap p))%nat) ->
  pool_wake (t :: rest) p -> thread_run bufSize t c p = Some (ts, p') -> pool_wake (ts ++ rest) p'.
Proof.
  intros Hlt Hok Hrun.
  assert (thread_wf p t) as Hwf by (by destruct Hok as [Ht _ _ _ _ _]; apply Forall_cons in Ht as [Ht _]).
  destruct t as [key v|e v|e|e|e| | | |[|e todo]|key|e|e|e| |e pc|e]; cbn [thread_run] in Hrun; try done.
  - unfold getOrCreate in Hrun. destruct (p_entries p !! key) as [e|] eqn:E.
    + injection Hrun as <- <-. eapply pool_wake_same; [exact Hok|done..| |done|done]. by apply Forall_singleton.
    + destruct (writable p); [|done]. injection Hrun as <- <-. by eapply create_wake.
  - apply bind_Some in Hrun as (en & Hen & Hrun).
    destruct (slot_offer _ _ _) as [s|] eqn:Es; injection Hrun as <- <-.
    + eapply (pool_wake_entry _ _ rest e); [exact Hok|done..| |done|done|]; [by apply Forall_singleton|].
      intros en0 Hen0 _. split; intros; right; [|right]; apply Exists_app; left; by apply exists_one.
    + eapply pool_wake_same; [exact Hok|done..| |done|done]. by apply Forall_singleton.
  - injection Hrun as <- <-. eapply (pool_wake_entry _ _ rest e); [exact Hok|done..| | | |];
      [by apply Forall_singleton|by intros e' Hne [= Hs]|intros e' en Hne [= Hs]; congruence|].
    intros en Hen [H1 H2]. split; [by left|]. intros Hq Hst. right; right. apply Exists_app. left. by apply exists_one.
  - injection Hrun as <- <-. eapply pool_wake_same; [exact Hok|done..| |done|].
    + destruct (p_factory p) eqn:Ef; [|done]. apply Forall_singleton. cbn. split; [|done]. by destruct Hok; auto.
    + intros e' en Hen Hq Hst [= ->]. right. destruct (p_factory p); [right|by left]. by apply exists_one.
  - apply bind_Some in Hrun as (en & Hen & Hrun). injection Hrun as Hrun. destruct Hwf.
    apply (ensureRunning_wake (TEnsure e) [] rest e en p); try done; [by intros e' []|].
    intros e' en' [= ->]. by left.
  - injection Hrun as <- <-. eapply flags_wake; [exact Hok|done..|by apply Forall_singleton|by intros e' []|].
    intros e en Hen Hst. split; [done|]. intros [Hx|Hx]; [by left|done].
  - injection Hrun as <- <-. eapply flags_wake; [exact Hok|done..|by apply Forall_singleton|by intros e' []|].
    intros e en Hen Hst. split; [done|]. intros [Hx|Hx]; [right|done]. apply exists_one. cbn.
    destruct Hok as [_ _ Hea _ _ _]. by apply Hea.
  - injection Hrun as <- <-. eapply pool_wake_same; [exact Hok|done..| |done|]; [by apply Forall_singleton|].
    intros e en Hen Hq Hst [_ Hm]. right; right. apply exists_one. cbn. apply list_elem_of_fmap.
    exists (en_key en, e). split; [done|]. by apply elem_of_map_to_list.
  - injection Hrun as <- <-. eapply pool_wake_same; [exact Hok|done..|].
    intros e en Hen Hq Hst Hs. by apply not_elem_of_nil in Hs.
  - apply bind_Some in Hrun as (en & Hen & Hrun). destruct (Nat.ltb_spec 0 (slot_len (en_slot en))) as [Hl|Hl].
    + destruct (ensureRunning e en p) as [ts1 p1] eqn:Ee. injection Hrun as <- <-. destruct Hwf.
      apply (ensureRunning_wake (TActivate (e :: todo)) [TActivate todo] rest e en p); try done;
        [by apply Forall_singleton|by intros e' []|].
      intros e' en' [->|Hs]%elem_of_cons; [by left|right]. by apply exists_one.
    + injection Hrun as <- <-. eapply pool_wake_same; [exact Hok|done..| |done|]; [by apply Forall_singleton|].
      intros e' en' Hen' Hq Hst [->|Hs]%elem_of_cons; [|right; right; by apply exists_one].
      rewrite Hen in Hen'. injection Hen' as <-. unfold slot_len in Hl. by destruct (sl_queue _); cbn in Hl; [|lia].
  - injection Hrun as <- <-. destruct (p_parent p) eqn:Ep.
    + by eapply flags_wake; [exact Hok|done..|by intros e' []|].
    + eapply pool_wake_same; [exact Hok|done..|by intros e' []|by intros e en _ _ _ [] ].
  - apply bind_Some in Hrun as (en & Hen & Hrun). by eapply worker_run_wake.
  - apply bind_Some in Hrun as (en & Hen & Hrun). case_match; [|done]. injection Hrun as <- <-.
    destruct (negb _ && _)%bool eqn:Ec.
    + apply andb_true_iff in Ec as [_ Hl]. apply Nat.eqb_eq in Hl. apply nil_length_inv in Hl. by eapply reap_wake.
    + eapply pool_wake_same; [exact Hok|done..|by intros e' []|by intros e' en' _ _ _ [] ].
Qed.

Definition no_remove (t : Thread K V) : Prop := match t with TRemove _ => False | _ => True end.

Lemma pool_wake_perm ts ts' p : ts ≡ₚ ts' -> pool_wake ts p -> pool_wake ts' p.
Proof.
  intros Hp [H1 H2 H3 H4 H5 H6]. split; [by rewrite <- Hp|done..|].
  intros e en Hen. destruct (H6 e en Hen) as [Ha Hb]. split; by rewrite <- Hp.
Qed.

(** The list of threads of the state is not read. *)
Lemma pool_wake_threads ts l p : pool_wake ts p -> pool_wake ts (set_p_threads l p).
Proof.
  intros [H1 H2 H3 H4 H5 H6]. split; [|done..|].
  - eapply Forall_impl; [exact H1|]. intros t. by apply thread_wf_flags.
  - intros e en Hen. destruct (H6 e en Hen) as [Ha Hb]. split; [done|]. intros Hq Hst.
    destruct (Hb Hq Hst) as [Hx|[Hx|Hx] ]; [by left|by right; left|right; right].
    eapply Exists_impl; [exact Hx|]. intros t. by apply starts_entries.
Qed.

Lemma pool_reach_wake (p : Pool K V) : pool_reach bufSize no_remove p -> pool_wake (p_threads p) p.
Proof.
  induction 1 as [|p t p' _ IH Hc Hrun|p i c p' Hreach IH Hrun].
  - by split.
  - cbn [pool_run] in Hrun. destruct (entry_point t) eqn:Et; [|done]. injection Hrun as <-.
    cbn [p_threads set_p_threads]. destruct IH as [H1 H2 H3 H4 H5 H6]. split; [|done..|].
    + apply Forall_app. split; [done|]. apply Forall_singleton. by destruct t.
    + intros e en Hen. destruct (H6 e en Hen) as [Ha Hb]. split.
      * intros Hq. destruct (Ha Hq) as [Hx|Hx]; [by left|right]. apply Exists_app. by left.
      * intros Hq Hst. destruct (Hb Hq Hst) as [Hx|[Hx|Hx] ]; [by left|by right; left|right; right].
        apply Exists_app. by left.
  - cbn [pool_run] in Hrun. apply bind_Some in Hrun as (t & Ht & Hrun).
    destruct (thread_run bufSize t c p) as [ [ts p1]|] eqn:Et; [|done]. injection Hrun as <-.
    assert (pool_wake (t :: take i (p_threads p) ++ drop (S i) (p_threads p)) p) as Hok.
    { eapply pool_wake_perm; [|exact IH]. rewrite <- (take_drop_middle _ _ _ Ht) at 1. by rewrite Permutation_middle. }
    assert (pool_wake (ts ++ take i (p_threads p) ++ drop (S i) (p_threads p)) p1) as Hw.
    { eapply thread_run_wake; [|exact Hok|exact Et]. by destruct (pool_reach_ok _ _ _ Hreach). }
    by apply pool_wake_threads.
Qed.
End wake.

(** ** The goroutine empties the queue *)

Section drain.
Context {K V : Type} `{Countable K}.
Context (bufSize : nat).

(** Some schedule of the threads leads from [p] to a state where [Q] holds. *)
Definition leads_to (Q : Pool K V -> Prop) (p : Pool K V) : Prop :=
  exists l p', Forall (fun a => exists i c, a = Run i c) l /\ pool_runs bufSize l p = Some p' /\ Q p'.

(** The goroutine of [e] is at [pc], its entry is [en], and the pool is open. *)
Definition worker_at (e : nat) (pc : WorkerPc) (en : Entry K V) (p : Pool K V) : Prop :=
  (exists i, p_threads p !! i = Some (TWorker e pc)) /\ p_heap p !! e = Some en /\ parent_alive p = true.

(** The queue of [e] is empty and [vs] have been handled. *)
Definition emptied (e : nat) (vs : list V) (p : Pool K V) : Prop :=
  exists en, p_heap p !! e = Some en /\ sl_queue (en_slot en) = [] /\ en_handled en = vs.

Lemma leads_to_now (Q : Pool K V -> Prop) p : Q p -> leads_to Q p.
Proof. intros Hp. by exists [], p. Qed.

Lemma worker_leads c e pc pc' en en' (Q : Pool K V -> Prop) p :
  worker_at e pc en p ->
  (forall p, parent_alive p = true -> p_heap p !! e = Some en ->
    exists p1, worker_run e pc c en p = Some ([TWorker e pc'], p1) /\ p_heap p1 !! e = Some en' /\ parent_alive p1 = true) ->
  (forall p', worker_at e pc' en' p' -> leads_to Q p') -> leads_to Q p.
Proof.
  intros ( [i Hi] & Hen & Hpa) Hrun Hk. destruct (Hrun p Hpa Hen) as (p1 & Hr & Hen' & Hpa').
  destruct (Hk (set_p_threads ([TWorker e pc'] ++ take i (p_threads p) ++ drop (S i) (p_threads p)) p1)) as (l & p2 & Hall & Hl & HQ).
  { split; [by exists 0%nat|]. by split. }
  exists (Run i c :: l), p2. split; [by constructor; [eauto|]|]. split; [|done]. cbn [pool_runs pool_run]. rewrite Hi. cbn. rewrite Hen. cbn. by rewrite Hr.
Qed.


(** The entry after an operation on its slot, and after the handler. *)
Lemma worker_at_heap e f en en' (p : Pool K V) :
  p_heap p !! e = Some en -> en' = f en -> p_heap (on_entry e f p) !! e = Some en'.
Proof. intros Hen ->. cbn. by rewrite list_lookup_alter_eq, Hen. Qed.

(** From the point [pc], with [n] values in the queue, the goroutine handles what it
    holds and the queue. *)
Definition empties (n : nat) (e : nat) (pc : WorkerPc) : Prop := forall en p,
  length (sl_queue (en_slot en)) = n -> worker_at e pc en p ->
  (sl_queue (en_slot en) <> [] -> sl_signal (en_slot en) = true \/ signals e (TWorker (K:=K) e pc)) ->
  leads_to (emptied e (en_handled en ++ hand_of pc ++ sl_queue (en_slot en))) p.

Ltac worker_step c pc en :=
  eapply (worker_leads c _ _ pc _ en); [eassumption|intros ? Hpa Hen; eexists; split; [cbn [worker_run]|] |].

Lemma empties_nothing e pc en p :
  worker_at e pc en p -> hand_of pc = [] -> sl_queue (en_slot en) = [] ->
  leads_to (emptied e (en_handled en ++ hand_of pc ++ sl_queue (en_slot en))) p.
Proof. intros (_ & Hen & _) -> Hq. apply leads_to_now. exists en. by rewrite Hq, !app_nil_r. Qed.

Lemma empties_recv n e fl : (forall m v, (m < n)%nat -> empties m e (WRearm fl v)) -> empties n e (WRecv fl).
Proof.
  intros IH en p Hn Hat _. destruct (sl_queue (en_slot en)) as [|v q] eqn:Eq.
  { rewrite <- Eq. by apply empties_nothing with (pc := WRecv fl). }
  worker_step ChIdle (WRearm fl v) (set_en_slot (mkSlot q (sl_signal (en_slot en))) en).
  - unfold slot_take. rewrite Eq. reflexivity.
  - split; [by eapply worker_at_heap|done].
  - intros p' Hat'. cbn in Hn. refine (IH (length q) v _ _ p' _ Hat' _); [lia|done|by right].
Qed.

(** With an empty queue there is nothing to do, else a token is there. *)
Lemma empties_token n e pc c pc' :
  hand_of pc = [] -> hand_of pc' = [] -> (forall e, ~ signals e (TWorker (K:=K) e pc)) -> signals e (TWorker (K:=K) e pc') ->
  (forall en p, sl_signal (en_slot en) = true -> worker_run (K:=K) e pc c en p = Some ([TWorker e pc'], on_slot e slot_disarm p)) ->
  empties n e pc' -> empties n e pc.
Proof.
  intros Hh Hh' Hno Hsg Hrun Hk en p Hn Hat Hsig. destruct (decide (sl_queue (en_slot en) = [])) as [Hq|Hq].
  { by apply empties_nothing. }
  destruct (Hsig Hq) as [Hs|Hs]; [|by apply Hno in Hs].
  worker_step c pc' (set_en_slot (slot_disarm (en_slot en)) en).
  - by apply Hrun.
  - split; [by eapply worker_at_heap|done].
  - intros p' Hat'. pose proof (Hk (set_en_slot (slot_disarm (en_slot en)) en) p' Hn Hat' (fun _ => or_intror Hsg)) as Hl. by rewrite Hh' in Hl; rewrite Hh.
Qed.

Lemma worker_empties n : forall e pc, empties n e pc.
Proof.
  induction n as [n IH] using lt_wf_ind. intros e pc.
  assert (forall fl, empties n e (WRecv fl)) as Hrecv by (intros fl; apply empties_recv; auto).
  assert (empties n e WSelect) as Hsel.
  { apply (empties_token _ _ _ ChSignal (WRecv false)); try done; [by intros e' []|]. intros en p Hs. cbn. by rewrite Hs. }
  assert (empties n e WFlush) as Hflush.
  { apply (empties_token _ _ _ ChIdle (WRecv true)); try done; [by intros e' []|]. intros en p Hs. cbn. by rewrite Hs. }
  assert (forall fl v, empties n e (WHandle fl v)) as Hhandle.
  { intros fl v en p Hn Hat Hsig. worker_step ChIdle (after_handle (V:=V) fl) (handled v en); [reflexivity| |].
    - split; [by eapply worker_at_heap|done].
    - intros p' Hat'. assert (empties n e (after_handle fl)) as Hk by (by destruct fl).
      assert (hand_of (V:=V) (after_handle fl) = []) as Hh by (by destruct fl).
      pose proof (Hk (handled v en) p' Hn Hat') as Hl. rewrite Hh in Hl. cbn in Hl. rewrite <- app_assoc in Hl.
      apply Hl. intros Hq. left. by destruct (Hsig Hq). }
  assert (empties n e WStart) as Hstart.
  { intros en p Hn Hat Hsig. worker_step ChIdle (WSelect (V:=V)) en; [reflexivity|by split|].
    intros p' Hat'. apply (Hsel _ p' Hn Hat'). intros Hq. left. by destruct (Hsig Hq). }
  destruct pc as [| |fl|fl v|fl v| |]; try done.
  - intros en p Hn Hat _. worker_step ChIdle (WHandle fl v) (set_en_slot (slot_rearm (en_slot en)) en); [reflexivity| |].
    + split; [by eapply worker_at_heap|done].
    + intros p' Hat'. pose proof (Hhandle fl v (set_en_slot (slot_rearm (en_slot en)) en) p') as Hl. cbn in Hl. rewrite slot_rearm_queue in Hl.
      apply Hl; [done|done|]. intros Hq. left. unfold slot_rearm. by destruct (sl_queue _).
  - intros en p Hn Hat Hsig. destruct (decide (sl_queue (en_slot en) = [])) as [Hq|Hq].
    { by apply empties_nothing with (pc := WExit). }
    worker_step ChIdle (WStart (V:=V)) (set_en_goroutine true false en).
    + unfold exit_entry, slot_len, parent_alive in *. cbn. rewrite Hpa.
      destruct (sl_queue (en_slot en)); [done|reflexivity].
    + cbn. split; [by rewrite alter_twice, list_lookup_alter_eq, Hen|done].
    + intros p' Hat'. apply (Hstart (set_en_goroutine true false en) p' Hn Hat'). intros _. left. by destruct (Hsig Hq).
Qed.

Lemma ensureRunning_drained e en (p p' : Pool K V) ts :
  Forall (fun en => en_drained en = 0%nat) (p_heap p) -> ensureRunning e en p = (ts, p') ->
  Forall (fun en => en_drained en = 0%nat) (p_heap p').
Proof.
  intros Hp. unfold ensureRunning. repeat case_match; intros [= _ <-]; try done.
  cbn. apply Forall_alter; [done|]. by intros.
Qed.

Lemma thread_run_drained t c (p p' : Pool K V) ts :
  thread_wf p t -> Forall (fun en => en_drained en = 0%nat) (p_heap p) ->
  thread_run bufSize t c p = Some (ts, p') -> Forall (fun en => en_drained en = 0%nat) (p_heap p').
Proof.
  intros Hwf Hp Hrun.
  assert (forall e f, (forall en : Entry K V, en_drained (f en) = en_drained en) ->
    Forall (fun en => en_drained en = 0%nat) (p_heap (on_entry e f p))) as Hon.
  { intros e f Hf. cbn. apply Forall_alter; [done|]. intros en _ Hen. by rewrite Hf. }
  destruct t as [key v|e v|e|e|e| | | |[|e todo]|key|e|e|e| |e pc|e]; cbn [thread_run] in Hrun; try done.
  - unfold getOrCreate in Hrun. repeat case_match; try done; injection Hrun as <- <-; simplify_eq; [done|].
    cbn. apply Forall_app. split; [done|]. by apply Forall_singleton.
  - apply bind_Some in Hrun as (en & Hen & Hrun). case_match; injection Hrun as <- <-; [by apply Hon|done].
  - injection Hrun as <- <-. by apply Hon.
  - by injection Hrun as <- <-.
  - apply bind_Some in Hrun as (en & Hen & Hrun). injection Hrun as Hrun. by eapply ensureRunning_drained.
  - by injection Hrun as <- <-.
  - by injection Hrun as <- <-.
  - by injection Hrun as <- <-.
  - by injection Hrun as <- <-.
  - apply bind_Some in Hrun as (en & Hen & Hrun). case_match; [|by injection Hrun as <- <-].
    destruct (ensureRunning e en p) as [ts1 p1] eqn:Ee. injection Hrun as <- <-. by eapply ensureRunning_drained.
  - injection Hrun as <- <-. by case_match.
  - apply bind_Some in Hrun as (en & Hen & Hrun).
    destruct pc; cbn [worker_run] in Hrun; repeat case_match; try done; simplify_eq; try done; try by apply Hon.
    unfold exit_entry in Hrun. repeat case_match; simplify_eq; cbn; try by apply Hon.
    apply Forall_alter; [by apply Hon|]. by intros.
  - apply bind_Some in Hrun as (en & Hen & Hrun). repeat case_match; try done; by simplify_eq.
Qed.

Lemma reach_drained (p : Pool K V) : pool_reach bufSize no_remove p -> Forall (fun en => en_drained en = 0%nat) (p_heap p).
Proof.
  induction 1 as [|p t p' _ IH Hc Hrun|p i c p' Hreach IH Hrun]; [done| |].
  - cbn [pool_run] in Hrun. case_match; [|done]. by injection Hrun as <-.
  - cbn [pool_run] in Hrun. apply bind_Some in Hrun as (t & Ht & Hrun).
    destruct (thread_run bufSize t c p) as [ [ts p1]|] eqn:Et; [|done]. injection Hrun as <-.
    change (Forall (fun en => en_drained en = 0%nat) (p_heap p1)).
    eapply thread_run_drained; [|exact IH|exact Et]. apply pool_reach_wake in Hreach as [Hwf _ _ _ _ _].
    rewrite Forall_lookup in Hwf. by eapply Hwf.
Qed.

Lemma sublist_length_eq (l1 l2 : list V) : sublist l1 l2 -> length l1 = length l2 -> l1 = l2.
Proof.
  induction 1 as [|x l1 l2 Hs IH|x l1 l2 Hs IH]; [done| |]; cbn.
  - intros [= Hl]. f_equal. auto.
  - intros Hl. apply sublist_length in Hs. lia.
Qed.

Lemma workers_some e (ts : list (Thread K V)) : (0 < workers e ts)%nat -> exists pc, TWorker e pc ∈ ts.
Proof.
  induction ts as [|t ts IH]; [cbn; lia|]. rewrite workers_cons. case_decide as Hd.
  - intros _. destruct t; try done. injection Hd as ->. eexists. by left.
  - intros [pc Hpc]%IH. exists pc. by right.
Qed.

(** The ledger of an entry that nothing was removed from. *)
Lemma ledger_at ts e (en : Entry K V) pc : entry_ok bufSize ts e en -> en_drained en = 0%nat -> TWorker e pc ∈ ts ->
  en_accepted en = en_handled en ++ hand_of pc ++ sl_queue (en_slot en).
Proof.
  intros [_ Hh _ _] Hd Hpc. destruct (Hh pc Hpc) as [H1 H2]. symmetry. apply sublist_length_eq; [done|].
  by rewrite H2, Hd, Nat.add_0_r.
Qed.

Lemma entry_ok_ledger ts e (en : Entry K V) : entry_ok bufSize ts e en -> en_drained en = 0%nat ->
  (exists pc, TWorker e pc ∈ ts /\ en_accepted en = en_handled en ++ hand_of pc ++ sl_queue (en_slot en)) \/
  workers e ts = 0%nat /\ en_accepted en = en_handled en ++ sl_queue (en_slot en).
Proof.
  intros Hok Hd. pose proof Hok as [Hw _ Hi _]. destruct (en_running en).
  - left. destruct (workers_some e ts) as [pc Hpc]; [lia|]. exists pc. split; [done|]. by eapply ledger_at.
  - right. split; [done|]. destruct (Hi eq_refl) as [H1 H2]. symmetry. apply sublist_length_eq; [done|].
    by rewrite H2, Hd, Nat.add_0_r.
Qed.

(** The thread is a goroutine of the pool, not a call. *)
Definition goroutine (t : Thread K V) : Prop := match t with TWorker _ _ | TReap _ => True | _ => False end.

(** When no call is under way, an entry is done, or its goroutine will see to it. *)
Lemma quiet_entry ts (p : Pool K V) e en :
  entry_ok bufSize ts e en -> entry_wake ts p e en -> en_drained en = 0%nat ->
  p_factory p = true -> p_stopped p = false ->
  (forall t, t ∈ ts -> goroutine t) ->
  sl_queue (en_slot en) = [] /\ en_handled en = en_accepted en \/
  exists pc, TWorker e pc ∈ ts /\ en_accepted en = en_handled en ++ hand_of pc ++ sl_queue (en_slot en) /\
    (sl_queue (en_slot en) <> [] -> sl_signal (en_slot en) = true \/ signals e (TWorker (K:=K) e pc)).
Proof.
  intros Hok [Hsig Hrun] Hd Hfac Hst Hq.
  assert (Exists (signals e) ts -> exists pc, TWorker e pc ∈ ts /\ signals e (TWorker (K:=K) e pc)) as Hsg.
  { intros (t & Ht & Hs)%Exists_exists. specialize (Hq t Ht). destruct t as [| | | | | | | | | | | | | |e' pc|]; try done.
    assert (e' = e) as -> by (by destruct pc). eauto. }
  destruct (decide (sl_queue (en_slot en) = [])) as [Hqe|Hqe].
  - destruct (entry_ok_ledger _ _ _ Hok Hd) as [ (pc & Hpc & Ha)|[Hn Ha] ]; [right; exists pc; by split_and!|left].
    by rewrite Hqe, app_nil_r in Ha.
  - right. destruct (Hsig Hqe) as [Hs|(pc & Hpc & Hs)%Hsg].
    + destruct (entry_ok_ledger _ _ _ Hok Hd) as [ (pc & Hpc & Ha)|[Hn Ha] ]; [exists pc; auto|]. exfalso.
      destruct Hok as [Hw _ _ _]. destruct (Hrun Hqe Hst) as [Hx|[Hx|Hx] ]; [by rewrite Hx, Hn in Hw|congruence|].
      apply Exists_exists in Hx as (t & Ht & Hx). specialize (Hq t Ht). by destruct t.
    + exists pc. split; [done|]. split; [by eapply ledger_at|]. by right.
Qed.

(** C20: in every schedule, an entry of the pool has at most one goroutine, its queue
    never holds more than [bufSize] values, and the goroutine handles the values in
    the order in which the slot accepted them, each once: as long as no [Remove]
    discards any, the accepted values are those handled, the at most one in the
    hands of the goroutine, and those in the queue. *)
Theorem pool_serial_fifo calls (p : Pool K V) e en :
  pool_reach bufSize calls p -> p_heap p !! e = Some en ->
  (workers e (p_threads p) <= 1)%nat /\ (length (sl_queue (en_slot en)) <= bufSize)%nat /\
  sublist (en_handled en) (en_accepted en) /\
  (en_drained en = 0%nat -> exists hand, en_accepted en = en_handled en ++ hand ++ sl_queue (en_slot en) /\
    (length hand <= 1)%nat /\ (forall pc, TWorker e pc ∈ p_threads p -> hand = hand_of pc) /\
    (workers e (p_threads p) = 0%nat -> hand = [])).
Proof.
  intros Hreach Hen. apply pool_reach_ok in Hreach as [_ _ He]. pose proof (He e en Hen) as Hok.
  pose proof Hok as [Hw Hh Hi Hl]. split; [rewrite Hw; by case_match; lia|]. split; [done|]. split.
  { assert (exists hand, fifo en hand) as (hand & H1 & _).
    { destruct (en_running en); [|eauto]. destruct (workers_some e (p_threads p)) as [pc Hpc]; [lia|eauto]. }
    etrans; [|exact H1]. by apply sublist_inserts_r. }
  intros Hd. destruct (entry_ok_ledger _ _ _ Hok Hd) as [ (pc & Hpc & Ha)|[Hn Ha] ].
  - exists (hand_of pc). split; [done|]. split; [by destruct pc; cbn; lia|]. split.
    + intros pc' Hpc'. destruct (Hh pc' Hpc') as [H1 H2]. rewrite Hd, Nat.add_0_r in H2.
      apply sublist_length_eq in H1; [|done]. rewrite Ha in H1. apply app_inv_head in H1. by apply app_inv_tail in H1.
    + intros Hn. by eapply workers_none in Hpc.
  - exists []. split; [done|]. split; [cbn; lia|]. split; [|done]. intros pc Hpc. by eapply workers_none in Hpc.
Qed.

(** C28: no accepted value is left behind.  Once [Register] has returned, the pool is
    not stopped, and no call is under way, whatever interleaving of deliveries, of
    the registration and of idle goroutines that left their entries led there, the
    threads that exist can empty the queue of every entry, and every value its slot
    ever accepted has then been handled, in order. *)
Theorem pool_drains (p : Pool K V) e en :
  pool_reach bufSize no_remove p -> p_factory p = true -> p_stopped p = false ->
  Forall goroutine (p_threads p) ->
  p_heap p !! e = Some en ->
  exists l p' en', Forall (fun a => exists i c, a = Run i c) l /\ pool_runs bufSize l p = Some p' /\
    p_heap p' !! e = Some en' /\ sl_queue (en_slot en') = [] /\ en_handled en' = en_accepted en.
Proof.
  intros Hreach Hfac Hst Hq Hen. rewrite Forall_forall in Hq.
  pose proof (pool_reach_wake _ _ Hreach) as [_ Hpar _ _ _ Hwake].
  pose proof (reach_drained _ Hreach) as Hd. rewrite Forall_lookup in Hd.
  apply pool_reach_ok in Hreach as [_ _ Hok].
  destruct (quiet_entry _ p e en (Hok e en Hen) (Hwake e en Hen) (Hd e en Hen) Hfac Hst) as [ [H1 H2]|(pc & Hpc & Ha & Hs)].
  - exact Hq.
  - by exists [], p, en.
  - apply list_elem_of_lookup in Hpc as [i Hi].
    destruct (worker_empties _ e pc en p eq_refl) as (l & p' & Hall & Hl & en' & He' & Hqe & Hha); [|done|].
    + split; [by exists i|]. split; [done|]. unfold parent_alive. by rewrite Hpar, Hst.
    + exists l, p', en'. by rewrite Ha.
Qed.
End drain.

(** ** Schedules of a worker pool

    Runs of the model of [pkg/keyedworker] on small pools: inputs for the theorems
    of [PoolSpec], and interleavings in which the pool does what its comments rule
    out. *)

(** A schedule reaches the state it ends in. *)
Lemma runs_reach {K V} `{Countable K} n (calls : Thread K V -> Prop) l (p p' : Pool K V) :
  pool_reach n calls p -> Forall (fun a => match a with Call t => calls t | Run _ _ => True end) l ->
  pool_runs n l p = Some p' -> pool_reach n calls p'.
Proof.
  intros Hp Hl. revert p Hp. induction Hl as [|a l Ha Hl IH]; intros p Hp Hr; cbn [pool_runs] in Hr.
  - by injection Hr as <-.
  - apply bind_Some in Hr as (p1 & H1 & Hr). apply (IH p1); [|done].
    destruct a as [t|i c]; [by eapply reach_call|by eapply reach_run].
Qed.

Module PoolSamples.

(** Pools of numbers with queues of two. *)
Definition P : Type := Pool nat nat.
Definition run (l : list (Action nat nat)) : P := default new_pool (pool_runs 2 l new_pool).

Definition go (i : nat) : Action nat nat := Run i ChIdle.
Definition sig (i : nat) : Action nat nat := Run i ChSignal.

(** [Register], to the end. *)
Definition registered : list (Action nat nat) := [Call TRegister; go 0; go 0; go 0; go 0].
(** [Deliver], to its end, as the [i]-th thread: five steps that start the goroutine. *)
Definition delivered (i v : nat) : list (Action nat nat) := [Call (TDeliver 7 v); go i; go 0; go 0; go 0; go 0].
(** The goroutine in front receives and handles a value. *)
Definition received : list (Action nat nat) := [sig 0; go 0; go 0; go 0].
(** It times out, and leaves. *)
Definition timed_out : list (Action nat nat) := [go 0; go 0; go 0].

(** Two values are delivered before [Register], which starts the goroutine; a third
    one finds the queue full, and is dropped. *)
Definition early : list (Action nat nat) :=
  [Call (TDeliver 7 1); go 0; go 0; go 0; go 0; Call (TDeliver 7 2); go 0; go 0; go 0; go 0].
Definition busy : list (Action nat nat) :=
  early ++ registered ++ [go 0; go 0] ++ [Call (TDeliver 7 3); go 1; go 0; go 0; go 0].

Definition busy_pool : P := run busy.

(** Where [busy] ends. *)
Lemma busy_state :
  pool_runs 2 busy new_pool = Some busy_pool /\ p_factory busy_pool = true /\ p_stopped busy_pool = false.
Proof. by vm_compute. Qed.

(** *** Two goroutines for one key

    The goroutine of the only entry of the key leaves it empty; before it removes
    the entry, [Deliver 2] looks the entry up.  The value 2 goes to an entry that
    is not in the map any more, and the next [Deliver] makes another one. *)
Definition overtaken : list (Action nat nat) :=
  registered ++ delivered 0 1 ++ [go 0] ++ received ++ timed_out ++
  [Call (TDeliver 7 2); go 1; go 1; go 0; go 0; go 0; go 0] ++
  delivered 1 3 ++ [go 0] ++ received.

(** One caller delivered 1, 2 and 3; 3 has been handled and 2 has not, and each is
    in the care of a goroutine of its own. *)
Lemma overtaken_state :
  exists p : P, pool_reach 2 no_remove p /\
  (exists en0 en1, p_heap p !! 0 = Some en0 /\ p_heap p !! 1 = Some en1 /\
    en_key en0 = 7 /\ en_key en1 = 7 /\ en_running en0 = true /\ en_running en1 = true /\
    en_handled en0 = [1] /\ sl_queue (en_slot en0) = [2] /\ en_handled en1 = [3]) /\
  p_threads p = [TWorker 1 WSelect; TWorker 0 WStart].
Proof.
  exists (run overtaken). split.
  - eapply (runs_reach _ _ overtaken); [constructor| |by vm_compute]. repeat constructor.
  - vm_compute. split; [|done]. eexists _, _. by split_and!.
Qed.

(** *** A goroutine that waits for a value in [Recv]

    [Deliver 2] has sent its value and not yet the signal when the goroutine finds
    the value in the queue, and signals itself. *)
Definition stale_signal : list (Action nat nat) :=
  registered ++ delivered 0 1 ++ [go 0; sig 0; go 0] ++
  [Call (TDeliver 7 2); go 1; go 0] ++          (* the value, not the signal *)
  [go 1; go 0] ++ [sig 0; go 0] ++              (* Recv of 1 ends; 2 is taken *)
  [go 1; go 0; go 0] ++                         (* the signal of [Deliver 2], to its end *)
  [go 0; go 0; sig 0] ++ [Call TStop; go 1].

(** The pool is stopped, nothing is under way, and the goroutine is in [Recv], where
    it does not look at its context. *)
Lemma stale_signal_state :
  exists p : P, pool_reach 2 no_remove p /\ p_threads p = [TWorker 0 (WRecv false)] /\ p_stopped p = true /\
  forall c, pool_run 2 (Run 0 c) p = None.
Proof.
  exists (run stale_signal). split; [|split; [by vm_compute|split; [by vm_compute|] ] ].
  - eapply (runs_reach _ _ stale_signal); [constructor| |by vm_compute]. repeat constructor.
  - intros []; by vm_compute.
Qed.

(** *** The gauge

    The goroutine is restarted on its way out. *)
Definition restarted : list (Action nat nat) :=
  registered ++ delivered 0 1 ++ [go 0] ++ received ++ [go 0; go 0] ++
  [Call (TDeliver 7 2); go 1; go 0; go 0] ++ [go 1; go 0; go 1; go 0].

Lemma restarted_gauge :
  exists p : P, pool_reach 2 no_remove p /\ p_threads p = [TWorker 0 WSelect] /\ p_gauge p !! 7 = Some 2%Z.
Proof.
  exists (run restarted). split; [|by vm_compute].
  eapply (runs_reach _ _ restarted); [constructor| |by vm_compute]. repeat constructor.
Qed.
End PoolSamples.

(** ** Inputs for the theorems *)

Import PoolSamples.

Lemma busy_reach : pool_reach 2 no_remove busy_pool.
Proof. eapply (runs_reach _ _ busy); [constructor| |apply busy_state]. repeat constructor. Qed.

Definition busy_entry : Entry nat nat :=
  default (mkEntry new_slot false false 0 false [] [] 0) (p_heap busy_pool !! 0).

Lemma busy_lookup : p_heap busy_pool !! 0 = Some busy_entry /\ en_accepted busy_entry = [1; 2].
Proof. by vm_compute. Qed.

Lemma busy_quiet : Forall goroutine (p_threads busy_pool).
Proof. vm_compute. repeat constructor. Qed.

Lemma pool_serial_fifo_witness :
  pool_reach 2 no_remove busy_pool /\ p_heap busy_pool !! 0 = Some busy_entry /\
  (workers 0 (p_threads busy_pool) <= 1)%nat.
Proof.
  split; [exact busy_reach|]. split; [exact (proj1 busy_lookup)|].
  exact (proj1 (pool_serial_fifo 2 no_remove busy_pool 0 busy_entry busy_reach (proj1 busy_lookup))).
Defined.

Lemma pool_drains_witness :
  exists l p' en', Forall (fun a => exists i c, a = Run i c) l /\ pool_runs 2 l busy_pool = Some p' /\
    p_heap p' !! 0 = Some en' /\ sl_queue (en_slot en') = [] /\ en_handled en' = en_accepted busy_entry.
Proof.
  exact (pool_drains 2 busy_pool 0 busy_entry busy_reach (proj1 (proj2 busy_state)) (proj2 (proj2 busy_state))
           busy_quiet (proj1 busy_lookup)).
Defined.
