(* ===== verification/StateSamples.v ===== *)
(** * Plans and worlds to evaluate the state machine on

    The sample plan has two targets in a DAG, [app] after [db].  The examples at
    the end evaluate behaviours of the code that its comments do not expect. *)
From S2P Require Import Prelude Monad GoString GoTime Windows Types Planner Recovery Cluster.
From S2P Require Import Memory Restore RestoreSpec World ExecutionUtils Execution Dispatch Handlers.
From S2P Require Import Timer Worker.
From Stdlib Require Import Lia.

Local Open Scope Z_scope.

Module StateSamples.
#[export] Instance lenient : Validator := {| ValidateParams _ _ := [] |}.
#[export] Instance infra : ExecutorInfra := {|
  infra_RunnerImage := "";
  infra_RunnerServiceAccount := "";
  infra_ControlPlaneEndpoint := "hibernator.svc";
|}.

Definition at_second (n : Z) : time := mkTime ((1704283200 + n) * Second) UTC.
Definition now : time := at_second 0.

Definition connector : ConnectorRef := mkConnectorRef "CloudProvider" "aws" "".
Definition db : Target := mkTarget "db" "rds" connector None.
Definition app : Target := mkTarget "app" "ecs" connector None.

Definition dag : ExecutionStrategy :=
  mkStrategy StrategyDAG (Some 2) [mkApiDependency "db" "app"] [].
Definition one_by_one : ExecutionStrategy := mkStrategy StrategySequential None [] [].
Definition strict : Behavior := mkBehavior BehaviorStrict true (Some 3).
Definition best_effort : Behavior := mkBehavior BehaviorBestEffort false (Some 3).

Definition spec (strategy : ExecutionStrategy) (behavior : Behavior) : HibernatePlanSpec :=
  mkSpec (Types.mkSchedule "UTC" []) strategy behavior false [db; app].

Definition exec (t : Target) (s : ExecutionState) : ExecutionStatus :=
  mkExec (tgt_Name t) (tgt_Type t) s None None 0 "" "" "" "".

Definition status (phase : PlanPhase) (op : PlanOperation) (execs : list ExecutionStatus) (stage : Z)
  : HibernatePlanStatus :=
  mkStatus "c1" phase None execs 1 0 None "" [] "" None stage op [].

Definition plan (sp : HibernatePlanSpec) (annotations : gmap string string) (s : HibernatePlanStatus)
  : HibernatePlan :=
  mkPlan "web" "prod" 1 false [PlanFinalizerName] annotations sp s.

Definition cluster (p : HibernatePlan) (jobs : list Job) (faults : list (option ApiError)) : Cluster :=
  mkMemory (Some p) ∅ jobs [] ["x1"; "x2"; "x3"] faults.

(** The server has the same plan as the worker. *)
Definition world (p : HibernatePlan) (jobs : list Job) (faults : list (option ApiError)) (schedule : option bool)
  (hasRestoreData : bool) : World :=
  mkWorld (cluster p jobs faults) now p None schedule [] hasRestoreData false [] ∅ []
    ["0f8fad5b-d9cb-469f-a165-70867728950e"] false.

(** ** A shutdown from its start to its end *)

Definition active : World :=
  world (plan (spec dag strict) ∅ (status PhaseActive OperationUnset [] 0)) [] [] (Some true) false.

Definition finished_job (t : Target) (name cycle : string) (end_ : JobCondition) : Job :=
  let labels := {[ LabelPlan := "web"; LabelCycleID := cycle; LabelOperation := "shutdown";
                   LabelTarget := tgt_Name t; LabelExecutor := tgt_Type t; LabelExecutionID := "e1" ]} in
  mkJob name "prod" labels ∅ "web"
    (mkJobSpec DefaultJobBackoffLimit DefaultJobTTLSeconds labels ∅ "Never" "" "" [] [] "" "" 0)
    (Some now) 0 1 0 [end_].

Definition completed : JobCondition := mkCondition JobComplete true (at_second 60).
Definition failed : JobCondition := mkCondition JobFailed true (at_second 60).

(** The result of a handler, with the phase, the stage, and the states of the
    targets it leaves, and the number of Jobs. *)
Definition view (w : World) : PlanPhase * Z * list ExecutionState * nat :=
  (plan_Phase (w_plan w), st_CurrentStageIndex (plan_Status (w_plan w)),
   map exec_State (st_Executions (plan_Status (w_plan w))), length (cl_jobs (w_cluster w))).

Definition after (h : Handler) (w : World) : res Empty_set StateResult * (PlanPhase * Z * list ExecutionState * nat) :=
  let '(r, w') := call_handler h false w in (r, view w').

(** The schedule starts a shutdown of both targets. *)
Example start_shutdown :
  after idleState active = (Ok requeue, (PhaseHibernating, 0, [StatePending; StatePending], 0%nat)).
Proof. vm_compute. reflexivity. Qed.

(** The first stage gets its Job, and the second waits for it. *)
Definition hibernating (execs : list ExecutionStatus) (stage : Z) (jobs : list Job) : World :=
  world (plan (spec dag strict) ∅ (status PhaseHibernating OperationHibernate execs stage)) jobs [] (Some true) false.

Example first_stage :
  after hibernatingState (hibernating [exec db StatePending; exec app StatePending] 0 []) =
  (Ok (requeue_after RequeueIntervalDuringStage), (PhaseHibernating, 0, [StatePending; StatePending], 1%nat)).
Proof. vm_compute. reflexivity. Qed.

Example second_stage :
  after hibernatingState
    (hibernating [exec db StatePending; exec app StatePending] 0 [finished_job db "j1" "c1" completed]) =
  (Ok (requeue_after RequeueIntervalDuringStage), (PhaseHibernating, 1, [StateCompleted; StatePending], 2%nat)).
Proof. vm_compute. reflexivity. Qed.

Example end_of_shutdown :
  after hibernatingState
    (hibernating [exec db StateCompleted; exec app StatePending] 1
       [finished_job db "j1" "c1" completed; finished_job app "j2" "c1" completed]) =
  (Ok quiet, (PhaseHibernated, 1, [StateCompleted; StateCompleted], 2%nat)).
Proof. vm_compute. reflexivity. Qed.

Example failed_stage :
  after hibernatingState
    (hibernating [exec db StatePending; exec app StatePending] 0 [finished_job db "j1" "c1" failed]) =
  (Ok requeue, (PhaseError, 0, [StateFailed; StatePending], 1%nat)).
Proof. vm_compute. reflexivity. Qed.

(** ** What the code does that its comments do not expect *)

Definition locked (targets : list Target) (strategy : ExecutionStrategy) (behavior : Behavior)
  (s : HibernatePlanStatus) : HibernatePlanStatus :=
  set_st_AppliedExceptionOverride "skip" (set_st_PlanSnapshot (Some (mkSnapshot "c1" "skip" targets strategy behavior)) s).

(** A BestEffort DAG whose first target failed; the second is to be aborted. *)
Definition upstream_failed (s : HibernatePlanStatus -> HibernatePlanStatus) : World :=
  world (plan (spec dag best_effort) ∅
          (s (status PhaseHibernating OperationHibernate [exec db StateFailed; exec app StatePending] 1)))
    [finished_job db "j1" "c1" failed] [] (Some true) false.

(** On the plan itself the abortion is seen by the next call, and the operation ends. *)
Example abort_on_the_plan :
  let '(r, w) := call_handler hibernatingState false (upstream_failed id) in
  view w = (PhaseHibernating, 1, [StateFailed; StateAborted], 1%nat) /\
  after hibernatingState w = (Ok quiet, (PhaseHibernated, 1, [StateFailed; StateAborted], 1%nat)).
Proof. vm_compute. split; reflexivity. Qed.

(** Under a locked snapshot the abortion is made in the copy only: the cached plan
    is as before, so every later call does the same again, and a delivery that
    carries the written status is overwritten by the cached one. *)
Example abort_in_the_copy :
  let w0 := (call_handler hibernatingState false (upstream_failed (locked [db; app] dag best_effort))).2 in
  let '(r, w) := call_handler hibernatingState false w0 in
  r = Ok (requeue_after RequeueIntervalDuringStage) /\ plan_Status (w_plan w) = plan_Status (w_plan w0) /\
  view w = (PhaseHibernating, 1, [StateFailed; StatePending], 1%nat) /\
  length (w_queue w) = S (length (w_queue w0)) /\
  let delivered := mkPlanContext
    (on_status (set_st_Executions [exec db StateFailed; exec app StateAborted]) (w_plan w0)) (Some true) [] false in
  let s := mkWorker true w (Start 0 (NewTimerSet defaultWorkerIdleTimeout)) (Some delivered) in
  view (wk_world (run_state receive s)) = (PhaseHibernating, 1, [StateFailed; StatePending], 1%nat).
Proof. vm_compute. repeat split. Qed.

(** A plan that is hibernated, with restore data, and asked to suspend. *)
Definition to_suspend (faults : list (option ApiError)) : World :=
  world (plan (set_spec_Suspend true (spec dag strict)) ∅
          (status PhaseHibernated OperationHibernate [exec db StateCompleted; exec app StateCompleted] 1))
    [] faults (Some false) true.

(** The next delivery: the server's plan, with the cached status. *)
Definition redelivered (f : HibernatePlan -> HibernatePlan) (w : World) : World :=
  match cl_plan (w_cluster w) with
  | Some p => set_w_plan (set_plan_Status (plan_Status (w_plan w)) (f p)) w
  | None => w
  end.

(** Suspension, with a retry when its patch failed, and resumption in on-hours. *)
Definition suspend_and_resume (calls : nat) (w : World) : PlanPhase :=
  let suspended := Nat.iter calls (fun v => (call_handler preSuspensionState false v).2) w in
  plan_Phase (w_plan (call_handler suspendedState false (redelivered (set_suspend false) suspended)).2).

(** The resume leads back to the hibernated phase, from which the plan wakes up. *)
Example resume_recorded : suspend_and_resume 1 (to_suspend []) = PhaseHibernated.
Proof. vm_compute. reflexivity. Qed.

(** When the first patch fails, the cached plan already carries the annotation, so
    that the patch of the retry is empty and the server never gets it: the plan
    resumes to the active phase, with its targets still hibernated. *)
Example resume_after_failed_patch :
  suspend_and_resume 2 (to_suspend [Some (ApiFailure "conflict")]) = PhaseActive.
Proof. vm_compute. reflexivity. Qed.

(** A retry without a recorded operation takes the schedule's, but does not record
    it: the handler of the phase it leads to fails at once. *)
Example retry_without_operation :
  let w := world (plan (spec dag strict) ∅ (status PhaseError OperationUnset [] 0)) [] [] (Some true) false in
  let w1 := (call_handler recoveryState false w).2 in
  plan_Phase (w_plan w1) = PhaseHibernating /\
  after hibernatingState w1 = (Ok requeue, (PhaseError, 0, [], 0%nat)) /\
  st_ErrorMessage (plan_Status (w_plan (call_handler hibernatingState false w1).2)) =
    "mismatch between phase and operation: phase=Hibernating operation=".
Proof. vm_compute. repeat split. Qed.

(** A retry of a plan whose targets were removed while it was in the error phase
    indexes the stages out of range. *)
Example retry_out_of_range :
  let w := world (plan (set_spec_Targets [db] (spec one_by_one strict)) ∅
                    (status PhaseError OperationHibernate [exec db StateCompleted; exec app StateFailed] 1))
             [] [] (Some true) false in
  (call_handler recoveryState false w).1 = Panic.
Proof. vm_compute. reflexivity. Qed.

(** A shutdown that reuses the live cycle of a snapshot lists every target of the
    plan but executes those of the snapshot: it never ends. *)
Definition live_restore_data : ConfigMap :=
  mkConfigMap ∅ ∅ {[ "db.json" := marshal (mkData "db" "rds" 1 true "c1" now None ∅ ∅) ]}.

Definition stale_snapshot : World :=
  let w := world (plan (spec one_by_one strict) ∅ (locked [db] one_by_one strict (status PhaseActive OperationHibernate [] 0)))
             [] [] (Some true) true in
  set_w_cluster (set_mem_configmaps {[ ("prod", "hibernator-restore-web") := live_restore_data ]} (w_cluster w)) w.

Example stale_snapshot_stuck :
  let '(r, w1) := call_handler idleState false stale_snapshot in
  view w1 = (PhaseHibernating, 0, [StatePending; StatePending], 0%nat) /\
  st_CurrentCycleID (plan_Status (w_plan w1)) = "c1" /\
  let w2 := set_w_cluster (set_mem_jobs [finished_job db "j1" "c1" completed] (w_cluster w1)) w1 in
  after hibernatingState w2 = (Ok quiet, (PhaseHibernating, 0, [StateCompleted; StatePending], 1%nat)).
Proof. vm_compute. repeat split. Qed.
End StateSamples.
