(* ===== verification/StateWitnesses.v ===== *)
(** * The claims about the state machine at concrete plans *)
From S2P Require Import Prelude Monad GoString GoTime Windows Types Planner Recovery Cluster.
From S2P Require Import Memory Restore RestoreSpec World ExecutionUtils Execution Dispatch Handlers.
From S2P Require Import Timer Worker StateFrame PhaseSpec DispatchSpec ExecutionSpec.
From S2P Require Import RecoverySpec WorkerSpec InvariantSpec StateSamples.
From Stdlib Require Import Lia.

Local Open Scope Z_scope.

Import StateSamples.

(** A run, and one whose result is known. *)
Lemma ran {S E A} (m : ST S E A) s : m s = (run_result m s, run_state m s).
Proof. apply surjective_pairing. Qed.

Lemma ran_ok {S E A} (m : ST S E A) s a : run_result m s = Ok a -> m s = (Ok a, run_state m s).
Proof. intros H. rewrite (ran m s). by f_equal. Qed.

(** ** Recovery *)

Definition in_error (message : string) (retries : Z) (last : option time) : HibernatePlan :=
  plan (spec dag strict) ∅
    (set_st_LastRetryTime last (set_st_RetryCount retries (set_st_ErrorMessage message
      (status PhaseError OperationHibernate [exec db StateFailed; exec app StatePending] 0)))).

Lemma DetermineRecoveryStrategy_spec_witness :
  let p := in_error "dial tcp: connection refused" 1 (Some (at_second (-30))) in
  RetryAfter (DetermineRecoveryStrategy p now (last_error p)) = 90 * Second.
Proof.
  intros p.
  destruct (DetermineRecoveryStrategy_spec p now (last_error p)) as (_ & H & _).
  rewrite (H ltac:(vm_compute; reflexivity) (at_second (-30)));
    [vm_compute; reflexivity|reflexivity|vm_compute; discriminate].
Defined.

Lemma RecordRetryAttempt_idempotent_witness :
  let p := in_error "timeout" 1 None in
  let r1 := RecordRetryAttempt now (Some (Errorf "timeout")) p in
  let r2 := RecordRetryAttempt (at_second 2) (Some (Errorf "timeout")) r1.1 in
  r2.2 = false /\ st_RetryCount (plan_Status r2.1) = 2.
Proof.
  intros p r1 r2.
  destruct (RecordRetryAttempt_idempotent p now (at_second 2) (Some (Errorf "timeout")) (Some (Errorf "timeout")))
    as (H1 & H2 & _).
  - vm_compute. split; [discriminate|reflexivity].
  - vm_compute. reflexivity.
  - split; [exact H1|]. etransitivity; [exact H2|]. vm_compute. reflexivity.
Defined.

Definition erring : World := world (in_error "timeout" 1 None) [finished_job db "j1" "c1" failed] [] (Some true) false.

Lemma recovery_retry_budget_witness :
  st_RetryCount (plan_Status (w_plan (run_state recovery_Handle erring))) = 2 /\
  plan_Phase (w_plan (run_state recovery_Handle erring)) = PhaseHibernating.
Proof.
  destruct (recovery_retry_budget erring requeue (run_state recovery_Handle erring)) as (_ & _ & H1 & H2 & _).
  - vm_compute. reflexivity.
  - apply ran_ok. vm_compute. reflexivity.
  - vm_compute. discriminate.
  - split; [rewrite H2; vm_compute; reflexivity|]. unfold plan_Phase. rewrite H1. vm_compute. reflexivity.
Defined.

(** ** The phase machine *)

Definition ending : World :=
  hibernating [exec db StateCompleted; exec app StatePending] 1
    [finished_job db "j1" "c1" completed; finished_job app "j2" "c1" completed].

Definition call : ST World Empty_set StateResult := call_handler hibernatingState false.

Lemma ending_ok : call ending = (Ok quiet, run_state call ending).
Proof. apply ran_ok. vm_compute. reflexivity. Qed.

Lemma ending_hibernated : plan_Phase (w_plan (run_state call ending)) = PhaseHibernated.
Proof. vm_compute. reflexivity. Qed.

Lemma call_handler_phases_witness : IsOperationComplete (w_plan (run_state call ending)) = true.
Proof.
  destruct (call_handler_phases ending hibernatingState false quiet (run_state call ending)) as [_ H].
  - vm_compute. reflexivity.
  - exact ending_ok.
  - apply H. left. split; [reflexivity|exact ending_hibernated].
Defined.

Definition starting : World := hibernating [exec db StatePending; exec app StatePending] 0 [].

Lemma jobs_only_when_executing_witness :
  executing_phase (plan_Phase (w_plan starting)) = true /\ spec_Suspend (plan_Spec (w_plan starting)) = false.
Proof.
  destruct (jobs_only_when_executing starting hibernatingState false
    (run_result (call_handler hibernatingState false) starting)
    (run_state (call_handler hibernatingState false) starting)) as (H1 & _ & H3 & _).
  - vm_compute. reflexivity.
  - apply ran.
  - vm_compute. lia.
  - split; [exact H1|exact H3].
Defined.

(** ** Dispatch *)

Definition wave : ExecutionStage := mkExecutionStage ["db"; "app"] 1.

(** Two pending targets and a limit of one: one Job. *)
Definition parallel : World :=
  world (plan (spec one_by_one strict) ∅
          (status PhaseHibernating OperationHibernate [exec db StatePending; exec app StatePending] 0))
    [] [] (Some true) false.

Definition round : HM StateResult := executeForStage [] wave OperationHibernate.

Lemma dispatch_concurrency_witness :
  exists new, cl_jobs (w_cluster (run_state round parallel)) = [] ++ new /\ CountRunningJobsInStage new wave <= 1.
Proof.
  destruct (dispatch_concurrency [] wave OperationHibernate parallel (run_result round parallel)
    (run_state round parallel)) as (new & H1 & H2).
  - apply ran.
  - vm_compute. reflexivity.
  - exists new. split; [exact H1|exact H2].
Defined.

Lemma dispatch_once_witness :
  exists new, cl_jobs (w_cluster (run_state round parallel)) = [] ++ new /\ NoDup (map (job_label LabelTarget) new).
Proof.
  destruct (dispatch_once [] wave OperationHibernate parallel (run_result round parallel)
    (run_state round parallel)) as (new & H1 & _ & H2).
  - apply ran.
  - vm_compute. reflexivity.
  - exists new. split; [exact H1|]. apply H2. refine (bool_decide_unpack _ _). vm_compute. exact I.
Defined.

(** [db] is done: the second stage begins. *)
Definition between : World :=
  hibernating [exec db StateCompleted; exec app StatePending] 0 [finished_job db "j1" "c1" completed].
Definition stages : ExecutionPlan := mkExecutionPlan [mkExecutionStage ["db"] 1; mkExecutionStage ["app"] 1].
Definition step : HM StateResult := execute_stage OperationHibernate [] stages hibernating_finalize.

Lemma hibernating_finalize_index i :
  preserves (holds (fun s => st_CurrentStageIndex s = i)) hibernating_finalize.
Proof. unfold hibernating_finalize, complete_operation, get_plan. frame. Qed.

Lemma stage_advance_witness :
  st_CurrentStageIndex (plan_Status (w_plan (run_state step between))) = 1 /\ existsb (target_failed (eff between)) ["db"] = false.
Proof.
  destruct (stage_advance OperationHibernate [] stages hibernating_finalize between (run_result step between)
    (run_state step between)) as (H1 & s & H2 & _ & H3).
  - apply hibernating_finalize_index.
  - apply ran.
  - vm_compute. discriminate.
  - vm_compute in H2. injection H2 as <-. split; [rewrite H1; vm_compute; reflexivity|].
    apply H3. vm_compute. reflexivity.
Defined.

Definition broken : World := hibernating [exec db StateFailed; exec app StatePending] 0 [].


(** [db] has failed under the Strict behaviour, and [app], of the same stage, is
    still dispatched. *)
Definition failed_early : World :=
  world (plan (spec one_by_one strict) ∅
          (status PhaseHibernating OperationHibernate [exec db StateFailed; exec app StatePending] 0))
    [] [] (Some true) false.
Definition wave_step : HM StateResult :=
  execute_stage OperationHibernate [] (mkExecutionPlan [wave]) hibernating_finalize.

Example strict_keeps_dispatching :
  is_strict (eff failed_early) = true /\
  match (wave_step failed_early).1 with Ok _ => True | _ => False end /\
  map (job_label LabelTarget) (cl_jobs (w_cluster (run_state wave_step failed_early))) = ["app"] /\
  plan_Phase (w_plan (run_state wave_step failed_early)) = PhaseHibernating.
Proof. vm_compute. split_and!; (reflexivity || exact I). Qed.

(** ** Execution *)

Lemma execution_id_label_witness :
  (String.length (execution_id "a-plan-with-a-rather-long-name-for-its-namespace" "a-target-with-a-long-name-too" now)
   <= 63)%nat.
Proof. apply execution_id_label. vm_compute. split; [discriminate|reflexivity]. Defined.

Definition lost : ExecutionStatus := exec db StateRunning.

Lemma job_lost_after_three_witness :
  exists w3, (let! e1 := observe_target (E:=goerr) (w_plan starting) [] lost in
              let! e2 := observe_target (w_plan starting) [] e1 in
              observe_target (w_plan starting) [] e2) starting = (Ok (set_exec_State StatePending lost), w3).
Proof.
  destruct (job_lost_after_three (E:=goerr) (w_plan starting) lost starting [] [] [])
    as (w1 & w2 & w3 & H1 & H2 & H3 & _).
  - split; reflexivity.
  - reflexivity.
  - reflexivity.
  - reflexivity.
  - reflexivity.
  - reflexivity.
  - exists w3. unfold st_bind. rewrite H1, H2. exact H3.
Defined.

(** An exception that leaves [app] out. *)
Definition skip_app : ScheduleException :=
  mkScheduleException "skip" "prod" ∅ [] [] now false "web" "" KindExtend (at_second (-60)) (at_second 60) "" []
    [mkTargetOverride "app" None true] None ExceptionStateActive None None None "".
Definition overridden : World :=
  set_w_exceptions [skip_app]
    (world (plan (spec one_by_one strict) ∅ (status PhaseActive OperationUnset [] 0)) [] [] (Some true) false).

(** The shutdown starts with one target left out; a call creates the Job of the other;
    then the exception is gone.  The wakeup has the one target, and a call of [execute]
    works on a stage. *)
Lemma cycle_intent_locked_witness :
  let w1 := run_state (transitionToHibernating true) overridden in
  let w2 := run_state (call_handler hibernatingState false) w1 in
  let w3 := set_w_exceptions [] w2 in
  map exec_Target (st_Executions (plan_Status (w_plan w1))) = ["db"] /\
  map exec_Target (st_Executions (plan_Status (w_plan (run_state transitionToWakingUp w3)))) = ["db"] /\
  exists start jobs execPlan v, buildExecutionPlan start false = Ok execPlan /\ intent (eff v) = intent start /\
    execute_stage OperationHibernate jobs execPlan hibernating_finalize v =
      execute OperationHibernate false hibernating_finalize w3.
Proof.
  intros w1 w2 w3.
  assert (call_handler hibernatingState false w1 = (Ok (requeue_after RequeueIntervalDuringStage), w2)) as Hcall.
  { subst w2. apply ran_ok. vm_compute. reflexivity. }
  assert (transitionToWakingUp w3 = (Ok requeue, run_state transitionToWakingUp w3)) as Hwake.
  { apply ran_ok. vm_compute. reflexivity. }
  assert (forall w, plan_Status (w_plan (set_w_exceptions [] w)) = plan_Status (w_plan w)) as Hsame by done.
  destruct (cycle_intent_locked true overridden requeue w1 skip_app w3) as (start & H1 & H2 & H3 & H4).
  - apply ran_ok. vm_compute. reflexivity.
  - vm_compute. reflexivity.
  - discriminate.
  - eapply rtc_l.
    + apply (cycle_call w1 hibernatingState false (requeue_after RequeueIntervalDuringStage) w2).
      * vm_compute. reflexivity.
      * intros d. discriminate.
      * exact Hcall.
      * left. vm_compute. reflexivity.
    + apply rtc_once, cycle_other. exact (Hsame w2).
  - assert (start = set_plan_Spec (set_spec_Targets [db] (spec one_by_one strict)) (w_plan overridden)) as Hs.
    { vm_compute in H1. injection H1 as <-. vm_compute. reflexivity. }
    split; [rewrite H2, Hs; vm_compute; reflexivity|].
    split; [rewrite (H3 requeue (run_state transitionToWakingUp w3)), Hs; [vm_compute; reflexivity|]|].
    + exact Hwake.
    + destruct (H4 OperationHibernate false hibernating_finalize _ _ (surjective_pairing _)) as [ [Hx _]|Hx].
      * exfalso. apply (Hx (requeue_after RequeueIntervalDuringStage)). vm_compute. reflexivity.
      * destruct Hx as (jobs & xp & v & Hb & Hi & _ & He). exists start, jobs, xp, v.
        split; [exact Hb|]. split; [exact Hi|]. rewrite He. symmetry. apply surjective_pairing.
Defined.

(** ** Suspension *)


(** ** The worker *)

Lemma timeout_armed_once_witness :
  let waiting := mkStateResult false RequeueIntervalOnExecution TimeoutTransitionToSuspended 0 in
  ts_Timeout (apply_all [(0, waiting); (10 * Second, waiting); (20 * Second, waiting)] (NewTimerSet Hour)) =
    mkSchedule (30 * Minute) true (Some (0 + 30 * Minute)).
Proof.
  intros waiting.
  destruct (timeout_armed_once 0 waiting [(10 * Second, waiting); (20 * Second, waiting)] (NewTimerSet Hour))
    as [H _].
  - reflexivity.
  - repeat constructor.
  - exact H.
Defined.

Lemma optimistic_status_queued_witness :
  exists p, replay (w_now active) (w_queue (run_state (Handle idleState) active)) (w_plan active) = Some p /\ plan_Phase p = PhaseHibernating.
Proof.
  destruct (optimistic_status_queued (Handle idleState) active (run_result (Handle idleState) active)
    (run_state (Handle idleState) active)) as (p & H1 & H2).
  - left. exists idleState. split; reflexivity.
  - reflexivity.
  - apply ran.
  - exists p. split; [exact H1|]. unfold plan_Phase. rewrite H2. vm_compute. reflexivity.
Defined.

(** A delivery, and the turn that takes it. *)
Definition delivered_context : PlanContext := mkPlanContext (w_plan ending) (Some true) [] false.
Definition delivered : Worker := run_state (deliver delivered_context) (new_worker ending).
Definition received : Worker := run_state receive delivered.

Lemma received_result : run_result receive delivered = Ok tt.
Proof. vm_compute. reflexivity. Qed.

Lemma received_ok : receive delivered = (Ok tt, received).
Proof. unfold received. exact (ran_ok receive delivered tt received_result). Qed.

Lemma ending_history : history_wf (plan_Status (w_plan ending)).
Proof. split; [vm_compute; lia|]. split; [apply NoDup_nil_2|constructor]. Qed.

Lemma received_reachable : rtc (worker_step history_wf) (new_worker ending) received.
Proof.
  eapply rtc_l; [exact (step_deliver history_wf (new_worker ending) delivered_context ending_history)|].
  apply rtc_once. exact (step_receive history_wf delivered received received_ok).
Qed.

Lemma received_cached : wk_cached received = true.
Proof. vm_compute. reflexivity. Qed.

Lemma ending_stored p : cl_plan (w_cluster ending) = Some p -> p = w_plan ending.
Proof. intros H. by injection H as <-. Qed.

Lemma history_invariant_witness :
  length (st_ExecutionHistory (plan_Status (w_plan (wk_world received)))) = 1%nat /\
  history_wf (plan_Status (w_plan (wk_world received))).
Proof.
  split; [vm_compute; reflexivity|].
  refine (history_invariant ending received _ received_reachable received_cached).
  intros p Hp. rewrite (ending_stored p Hp). exact ending_history.
Defined.
