(* ===== verification/StatusWriterSpec.v ===== *)
(** * What the status writer promises

    What one update does to the stored status, on every branch; and that a
    transition that a handler has made in memory reaches the server. *)
From S2P Require Import Prelude Monad GoString GoTime Windows Planner Types Recovery Cluster Memory Restore.
From S2P Require Import RestoreSpec World ExecutionUtils Execution Dispatch Handlers Timer Worker WorkerSpec.
From S2P Require Import StatusWriter StateSamples StateWitnesses.
From Stdlib Require Import Lia.

Local Open Scope Z_scope.

Section apply.
Context {T S : Type} {HS : HasStatus T S} {HA : StatusApi T S} {HL : StatusLaws T S} {HR : ConflictRetry}.
Context (isStatusEqual : S -> S -> bool).

Notation Store := (Store T S).

(** A hook that leaves the stored status alone, and returns. *)
Definition quiet_hook (h : HookFunc T S) : Prop := forall t s,
  stored (h t s).2 = stored s /\ match (h t s).1 with Ok _ | Err _ => True | _ => False end.

(** The mutation of the stored object, at some time, gives [t']. *)
Definition mutates (m : time -> T -> option T) (s : Store) (t t' : T) : Prop :=
  stored s = Some (status t) /\ exists now, m now t = Some t'.

(** What an attempt, or a whole update, may have done. *)
Definition skipped (m : time -> T -> option T) (s s' : Store) : Prop :=
  stored s' = stored s /\
  (stored s = None \/ exists t t', mutates m s t t' /\ isStatusEqual (status t) (status t') = true).
Definition written_as (m : time -> T -> option T) (s s' : Store) (t' : T) : Prop :=
  exists t, mutates m s t t' /\ isStatusEqual (status t) (status t') = false /\ stored s' = Some (status t').

Definition attempt_post (m : time -> T -> option T) (s : Store) (r : res StoreError (option T) * Store) : Prop :=
  match r with
  | (Ok None, s') => skipped m s s'
  | (Ok (Some t'), s') => written_as m s s' t'
  | (Err e, s') => stored s' = stored s \/ e <> StoreConflict /\ exists t', written_as m s s' t'
  | (Panic, s') => stored s' = stored s
  | (NoReturn, _) => False
  end.

Lemma attempt_ok m s : attempt_post m s (attempt isStatusEqual m s).
Proof.
  unfold attempt, st_bind, st_try, st_gets. pose proof (fetch_stored s) as Hs. pose proof (fetch_returns s) as Hr.
  destruct (fetch s) as [ [fresh|e| |] s1] eqn:Ef; cbn in *; try done.
  - apply fetch_ok in Ef. destruct (m (clock s1) fresh) as [fresh'|] eqn:Em; [|done].
    assert (mutates m s fresh fresh') as Hm by (split; [done|by exists (clock s1)]).
    destruct (isStatusEqual _ _) eqn:Ee; cbn.
    { split; [done|]. right. by exists fresh, fresh'. }
    pose proof (update_returns fresh' s1) as Hu.
    destruct (update_status fresh' s1) as [ [[]|e| |] s2] eqn:Eu; cbn in *; try done.
    + apply update_ok in Eu as [_ Eu]. by exists fresh.
    + apply update_err in Eu as [Eu|(Hne & _ & Eu)]; [left; congruence|right]. split; [done|]. by exists fresh', fresh.
  - destruct e; cbn; [|by left|by left].
    split; [done|]. left. by eapply fetch_not_found.
Qed.

Lemma attempt_post_stored m s s1 r : stored s1 = stored s -> attempt_post m s1 r -> attempt_post m s r.
Proof.
  intros Hs. destruct r as [ [ [t'|]|e| |] s']; cbn; unfold written_as, skipped, mutates; by rewrite ?Hs.
Qed.

Lemma retry_ok m s : attempt_post m s (RetryOnConflict (attempt isStatusEqual m) s).
Proof.
  pose proof (RetryOnConflict_spec (attempt isStatusEqual m) s) as H.
  induction H as [s|s e s1 r He Hc _ IH]; [apply attempt_ok|].
  eapply attempt_post_stored; [|exact IH]. pose proof (attempt_ok m s) as Ha. rewrite He in Ha. cbn in Ha.
  destruct Ha as [Ha|[Hne _] ]; [done|]. by destruct e.
Qed.

(** What [apply] does with an update. *)
Definition apply_post (u : StatusUpdate T S) (s : Store) (r : res WriterError unit * Store) : Prop :=
  match r with
  | (Ok tt, s') =>
      stored s' = stored s /\ (su_Mutator u = None \/ stored s = None) \/
      exists m, su_Mutator u = Some m /\ (skipped m s s' \/ exists t', written_as m s s' t')
  | (Err (WriterHook _), s') | (Err (WriterStore StoreConflict), s') | (Panic, s') => stored s' = stored s
  | (Err (WriterStore _), s') =>
      stored s' = stored s \/ exists m t', su_Mutator u = Some m /\ written_as m s s' t'
  | (Err WriterPanic, _) | (NoReturn, _) => False
  end.

Lemma write_ok u s : (forall h, su_PostHook u = Some h -> quiet_hook h) -> apply_post u s (write isStatusEqual u s).
Proof.
  intros Hpost. unfold write. destruct (su_Mutator u) as [m|] eqn:Em; [|cbn; rewrite Em; auto].
  pose proof (retry_ok m s) as Hr. unfold st_bind, st_wrap.
  destruct (RetryOnConflict (attempt isStatusEqual m) s) as [ [ [t'|]|e| |] s1]; cbn in *; try done.
  - destruct (su_PostHook u) as [h|] eqn:Eh; cbn; [|rewrite Em; eauto 10].
    unfold st_try. destruct (Hpost h eq_refl t' s1) as [Hh Hret].
    destruct (h t' s1) as [ [[]|e| |] s2]; cbn in *; try done; rewrite Em; right; exists m; (split; [done|]);
      right; exists t'; destruct Hr as (t & H1 & H2 & H3); exists t; by rewrite Hh.
  - destruct (su_PostHook u); cbn; rewrite Em; eauto 10.
  - destruct e; cbn in *; [|by destruct Hr as [Hr|[Hr _] ]|];
      (destruct Hr as [Hr|(_ & t' & Hr)]; [by left|right; rewrite Em; eauto]).
Qed.

Lemma apply_post_stored u s s1 r : stored s1 = stored s -> apply_post u s1 r -> apply_post u s r.
Proof.
  intros Hs. destruct r as [ [ []|[ []| | ]| |] s']; cbn; unfold written_as, skipped, mutates; by rewrite ?Hs.
Qed.

(** An update of the status writer, on every branch.  Nothing is written when the
    pre-hook fails or the object is gone, when there is no mutator, when the mutator
    panics, when the mutated status equals the stored one, or when every attempt
    conflicted; else the stored status becomes that of the mutation of the status
    that was stored, which then differs, and an error can only leave open whether
    this write was carried out.  No run goes on for ever. *)
Theorem apply_update_spec u s :
  (forall h, su_PreHook u = Some h \/ su_PostHook u = Some h -> quiet_hook h) ->
  apply_post u s (apply_update isStatusEqual u s).
Proof.
  intros Hh. assert (forall s, apply_post u s (write isStatusEqual u s)) as Hw by (intros s0; apply write_ok; auto).
  unfold apply_update. destruct (su_PreHook u) as [h|]; [|done].
  unfold st_bind, st_try, st_wrap. pose proof (fetch_stored s) as Hs. pose proof (fetch_returns s) as Hr.
  destruct (fetch s) as [ [t|e| |] s1] eqn:Ef; cbn in *; try done.
  - destruct (Hh h (or_introl eq_refl) t s1) as [Hq Hret].
    destruct (h t s1) as [ [[]|e| |] s2]; cbn in *; try done; [|congruence].
    eapply apply_post_stored; [|apply Hw]. congruence.
  - destruct e; cbn; [left; split; [done|right]|done|by left]. by eapply fetch_not_found.
Qed.
End apply.

(** ** Transitions reach the server *)

Section drain.
Context {T S : Type} {HS : HasStatus T S} {HA : StatusApi T S} {HL : StatusLaws T S} {HR : ConflictRetry}.
Context (isStatusEqual : S -> S -> bool) (R : relation S) `{!Equivalence R}.
Context (equal_sound : forall a b, isStatusEqual a b = true -> R a b).

(** The update changes the status by [f], whatever the clock says and the rest of the
    object is, and [f] respects [R]. *)
Definition changes_by (f : S -> S) (u : StatusUpdate T S) : Prop :=
  (forall h, su_PreHook u = Some h \/ su_PostHook u = Some h -> quiet_hook h) /\
  Proper (R ==> R) f /\
  exists m, su_Mutator u = Some m /\ forall now t t', m now t = Some t' -> status t' = f (status t).

Lemma apply_changes_by f u s s' a : changes_by f u -> apply_update isStatusEqual u s = (Ok tt, s') ->
  stored s = Some a -> exists b, stored s' = Some b /\ R b (f a).
Proof.
  intros (Hh & Hf & m & Hm & Hmf) Hu Ha. pose proof (apply_update_spec isStatusEqual u s Hh) as Hp.
  rewrite Hu in Hp. cbn in Hp. rewrite Hm, Ha in Hp. destruct Hp as [ [_ [?|?] ]|(m' & [= <-] & Hp)]; [done|done|].
  destruct Hp as [ [Hs [Hn|(t & t' & [Ht (now & Hn)] & He)] ]|(t' & t & [Ht (now & Hn)] & _ & Hs)].
  - congruence.
  - rewrite Ha in Ht. injection Ht as ->. exists (status t). split; [congruence|].
    rewrite <- (Hmf now t t' Hn). by apply equal_sound.
  - rewrite Ha in Ht. injection Ht as ->. exists (status t'). split; [done|]. by rewrite (Hmf now t t' Hn).
Qed.

Lemma write_all_changes fs us s rs s' a b :
  Forall2 changes_by fs us -> write_all isStatusEqual us s = (Ok rs, s') -> Forall (fun r => r = None) rs ->
  stored s = Some a -> R a b ->
  exists c, stored s' = Some c /\ R c (fold_left (fun x f => f x) fs b).
Proof.
  intros Hu. revert s rs a b. induction Hu as [|f u fs us Hfu Hu IH]; intros s rs a b Hw Hrs Ha Hab.
  - injection Hw as <- <-. by exists a.
  - cbn [write_all] in Hw. unfold st_bind, st_try in Hw. destruct (handle_recovering _ u s) as [ [ []|e| |] s1] eqn:Eh; try done.
    + destruct (write_all isStatusEqual us s1) as [ [rs1|e| |] s2] eqn:Ew; try done. injection Hw as <- <-.
      apply Forall_cons in Hrs as [_ Hrs]. unfold handle_recovering in Eh.
      destruct (apply_update isStatusEqual u s) as [ [ []|e| |] s3] eqn:Ea; try done. injection Eh as <-.
      destruct (apply_changes_by f u s s3 a Hfu Ea Ha) as (b' & Hb & Hr).
      destruct Hfu as (_ & Hf & _). cbn [fold_left]. eapply IH; [exact Ew|exact Hrs|exact Hb|].
      by rewrite Hr, Hab.
    + destruct (write_all isStatusEqual us s1) as [ [rs1|e'| |] s2]; try done. injection Hw as <- <-.
      apply Forall_cons in Hrs as [Hn _]. discriminate Hn.
Qed.
End drain.

(** ** The transitions of a plan *)

#[export] Instance start_hibernating_proper cycleID excName effective now :
  Proper (same_status ==> same_status) (start_hibernating cycleID excName effective now).
Proof.
  intros a b Hab. unfold same_status, instants, ignore_fields in *. cbn in Hab. injection Hab as ????????????.
  unfold start_hibernating. destruct (excName =? "")%string; cbn; congruence.
Qed.

#[export] Instance start_wakingup_proper targets now :
  Proper (same_status ==> same_status) (start_wakingup targets now).
Proof.
  intros a b Hab. unfold same_status, instants, ignore_fields in *. cbn in Hab. injection Hab as ????????????.
  unfold start_wakingup. cbn. congruence.
Qed.

(** An update that assigns the status, the same way whatever the clock says. *)
Definition assigns (f : HibernatePlanStatus -> HibernatePlanStatus) (u : Update) : Prop :=
  Proper (same_status ==> same_status) f /\ forall now p, upd_Mutator u now p = Some (on_status f p).

Definition clean_queue {HK : KubeApi} (w : World) : Prop := Forall (fun u => exists f, assigns f u) (w_queue w).

Section clean.
Context {HK : KubeApi} {HI : ExecutorInfra} {HJ : JSON} {HV : Validator}.

Lemma Send_clean {E} pre f post : Proper (same_status ==> same_status) f ->
  preserves clean_queue (Send (E:=E) pre (assign (fun _ => f)) post).
Proof.
  intros Hf w Hw. unfold Send, st_bind, st_get, hook, st_gets, enqueue, st_modify. cbn. unfold clean_queue. cbn.
  apply Forall_app. split; [done|]. apply Forall_singleton. by exists f.
Qed.

Lemma lift_clean {E A} (m : ST Cluster E A) : preserves clean_queue (st_lift w_cluster set_w_cluster m).
Proof. intros w Hw. unfold st_lift. by destruct (m (w_cluster w)). Qed.

Lemma patchAndPreserveStatus_clean f : preserves clean_queue (patchAndPreserveStatus f).
Proof.
  intros w Hw. unfold patchAndPreserveStatus, st_bind, get_plan, st_gets, st_modify, api, st_lift. cbn.
  by destruct (patch_plan _ _ _) as [ [s|e| |] c].
Qed.

(** The handlers whose transitions assign the status at once. *)
Definition transitioning (h : Handler) : bool :=
  match h with idleState | restartState | overrideActionState => true | _ => false end.

#[local] Hint Resolve lift_clean patchAndPreserveStatus_clean : hib.

Ltac clean :=
  repeat (first
    [ progress intros
    | apply Send_clean; apply _
    | match goal with H : context [preserves] |- preserves _ _ => simple apply H end
    | apply preserves_bind
    | match goal with
      | |- preserves _ (match ?x with _ => _ end) => destruct x eqn:?
      | |- preserves _ (let '(_, _) := ?x in _) => destruct x eqn:?
      end
    | solve [eauto with hib]
    | solve [apply preserves_modify; by intros] ]).

Lemma transitioning_clean h : transitioning h = true -> preserves clean_queue (Handle h).
Proof.
  assert (forall ns p l, preserves clean_queue (existing_cycle_id ns p l)) as He.
  { intros ns p l. induction l; cbn [existing_cycle_id]; clean. }
  assert (forall fresh, preserves clean_queue (transitionToHibernating fresh)) as Hh.
  { intros fresh. unfold transitionToHibernating, cycle_id, getExistingCycleIDForHibernation, new_cycle_id, get_plan. clean. }
  assert (preserves clean_queue transitionToWakingUp) as Hw by (unfold transitionToWakingUp, get_plan, get_now; clean).
  intros Hd. destruct h; try done; cbn [Handle];
    unfold idle_Handle, restart_Handle, override_Handle, consumeRestart, consumeFresh, non_fatal, failing_as, get_plan, get_now;
    clean.
Qed.
End clean.

(** Replaying such updates composes the assignments. *)
Lemma replay_assigns fs q now p p' : Forall2 assigns fs q -> replay now q p = Some p' ->
  plan_Status p' = fold_left (fun x f => f x) fs (plan_Status p).
Proof.
  intros Hq. revert p. induction Hq as [|f u fs q [_ Hu] Hq IH]; intros p; cbn [replay fold_left].
  - by intros [= <-].
  - rewrite Hu. intros Hr. by rewrite (IH _ Hr).
Qed.

Section server.
Context {HK : KubeApi} {HI : ExecutorInfra} {HJ : JSON} {HV : Validator}.
Context {HA : StatusApi HibernatePlan HibernatePlanStatus} {HL : StatusLaws HibernatePlan HibernatePlanStatus}.
Context {HR : ConflictRetry} {HC : Cmp} {HCL : CmpLaws}.

(** The update as the writer gets it; [notify] runs the hooks of a list of events. *)
Definition of_update (notify : list PlanEvent -> HookFunc HibernatePlan HibernatePlanStatus) (u : Update)
  : StatusUpdate HibernatePlan HibernatePlanStatus :=
  let hook evs := match evs with [] => None | _ => Some (notify evs) end in
  mkStatusUpdate (hook (upd_PreHook u)) (Some (upd_Mutator u)) (hook (upd_PostHook u)).

Lemma of_update_changes notify f u : (forall evs, quiet_hook (notify evs)) -> assigns f u ->
  changes_by same_status f (of_update notify u).
Proof.
  intros Hn [Hf Hu]. split; [|split; [done|] ].
  - intros h [Hh|Hh]; unfold of_update in Hh; cbn in Hh; destruct (upd_PreHook u), (upd_PostHook u);
      try done; by injection Hh as <-.
  - eexists. split; [done|]. intros now p p'. rewrite Hu. by intros [= <-].
Qed.

End server.

(** ** The status writer on a server in memory

    An instance of the server that the writer talks to, with a list of faults for
    the requests to come, a bounded retry, and a comparison of statuses; and the
    theorems of [StatusWriterSpec] on them. *)

(** ** Decidable equality of statuses *)

#[export] Instance ApiDependency_eq_dec : EqDecision ApiDependency.
Proof. solve_decision. Defined.
#[export] Instance ApiStage_eq_dec : EqDecision ApiStage.
Proof. solve_decision. Defined.
#[export] Instance ExecutionStrategy_eq_dec : EqDecision ExecutionStrategy.
Proof. solve_decision. Defined.
#[export] Instance Behavior_eq_dec : EqDecision Behavior.
Proof. solve_decision. Defined.
#[export] Instance ConnectorRef_eq_dec : EqDecision ConnectorRef.
Proof. solve_decision. Defined.
#[export] Instance Target_eq_dec : EqDecision Target.
Proof. solve_decision. Defined.
#[export] Instance ExecutionStatus_eq_dec : EqDecision ExecutionStatus.
Proof. solve_decision. Defined.
#[export] Instance TargetExecutionResult_eq_dec : EqDecision TargetExecutionResult.
Proof. solve_decision. Defined.
#[export] Instance ExecutionOperationSummary_eq_dec : EqDecision ExecutionOperationSummary.
Proof. solve_decision. Defined.
#[export] Instance ExecutionCycle_eq_dec : EqDecision ExecutionCycle.
Proof. solve_decision. Defined.
#[export] Instance PlanSnapshot_eq_dec : EqDecision PlanSnapshot.
Proof. solve_decision. Defined.
#[export] Instance ExceptionReference_eq_dec : EqDecision ExceptionReference.
Proof. solve_decision. Defined.
#[export] Instance HibernatePlanStatus_eq_dec : EqDecision HibernatePlanStatus.
Proof. solve_decision. Defined.

(** Equality of the statuses up to the zones of their times. *)
#[export] Instance compare_instants : Cmp :=
  {| cmp_Equal a b := bool_decide (instants a = instants b) |}.

#[export] Instance compare_instants_laws : CmpLaws.
Proof. split. intros a b. apply bool_decide_eq_true. Qed.

(** ** A server with one plan *)

Inductive fault := Conflict | Failure (msg : string).

Definition fault_error (f : fault) : StoreError :=
  match f with Conflict => StoreConflict | Failure msg => StoreFailure msg end.

(** [None] lets a request through; an exhausted list lets the others through. *)
Record PlanStore := mkPlanStore {
  ps_plan : option HibernatePlan;
  ps_faults : list (option fault);
  ps_now : time;
}.

(** The next fault, and the store without it. *)
Definition next_fault (s : PlanStore) : option fault * PlanStore :=
  match ps_faults s with
  | [] => (None, s)
  | f :: l => (f, mkPlanStore (ps_plan s) l (ps_now s))
  end.

Definition store_fetch : ST PlanStore StoreError HibernatePlan := fun s =>
  match next_fault s with
  | (Some f, s') => (Err (fault_error f), s')
  | (None, s') => (match ps_plan s' with Some p => Ok p | None => Err StoreNotFound end, s')
  end.

Definition store_update (p : HibernatePlan) : ST PlanStore StoreError unit := fun s =>
  match next_fault s with
  | (Some f, s') => (Err (fault_error f), s')
  | (None, s') =>
      match ps_plan s' with
      | Some old => (Ok tt, mkPlanStore (Some (set_plan_Status (plan_Status p) old)) (ps_faults s') (ps_now s'))
      | None => (Err StoreNotFound, s')
      end
  end.

#[export] Instance plan_store : StatusApi HibernatePlan HibernatePlanStatus := {|
  Store := PlanStore;
  clock := ps_now;
  stored s := plan_Status <$> ps_plan s;
  fetch := store_fetch;
  update_status := store_update;
|}.

Lemma next_fault_plan s : ps_plan (next_fault s).2 = ps_plan s.
Proof. unfold next_fault. by destruct (ps_faults s). Qed.

#[export] Instance plan_store_laws : StatusLaws HibernatePlan HibernatePlanStatus.
Proof.
  split; cbn; unfold store_fetch, store_update.
  - intros s. pose proof (next_fault_plan s) as Hp. destruct (next_fault s) as [ [f|] s1]; cbn in *; by rewrite Hp.
  - intros s t s'. pose proof (next_fault_plan s) as Hp. destruct (next_fault s) as [ [f|] s1]; [done|]. cbn in *.
    destruct (ps_plan s1) eqn:E; [|done]. intros [= -> <-]. by rewrite <- Hp.
  - intros s s'. pose proof (next_fault_plan s) as Hp. destruct (next_fault s) as [ [ [|msg]|] s1]; [done|done|]. cbn in *.
    destruct (ps_plan s1) eqn:E; [done|]. intros [= <-]. by rewrite <- Hp.
  - intros s. destruct (next_fault s) as [ [f|] s1]; [done|]. cbn. by destruct (ps_plan s1).
  - intros t s s'. pose proof (next_fault_plan s) as Hp. destruct (next_fault s) as [ [f|] s1]; [done|]. cbn in *.
    destruct (ps_plan s1) as [old|] eqn:E; [|done]. intros [= <-]. cbn. by rewrite <- Hp.
  - intros t s e s'. pose proof (next_fault_plan s) as Hp. destruct (next_fault s) as [ [f|] s1]; cbn in *.
    + intros [= _ <-]. left. by rewrite Hp.
    + destruct (ps_plan s1) as [old|] eqn:E; [done|]. intros [= _ <-]. left. by rewrite E, <- Hp.
  - intros t s. destruct (next_fault s) as [ [f|] s1]; [done|]. cbn. by destruct (ps_plan s1).
Qed.

(** Four runs. *)
Fixpoint retry_on_conflict {S A} (n : nat) (f : ST S StoreError A) : ST S StoreError A := fun s =>
  match n, f s with
  | Datatypes.S n', (Err StoreConflict, s') => retry_on_conflict n' f s'
  | _, r => r
  end.

Lemma retry_on_conflict_spec {S A} n (f : ST S StoreError A) s : retried is_conflict f s (retry_on_conflict n f s).
Proof.
  revert s. induction n as [|n IH]; intros s; cbn; [constructor|].
  destruct (f s) as [ [a|e| |] s'] eqn:E; try (rewrite <- E; constructor).
  destruct e; try (rewrite <- E; constructor). by eapply retried_again.
Qed.

#[export] Instance four_steps : ConflictRetry :=
  {| RetryOnConflict S A := retry_on_conflict 3; RetryOnConflict_spec S A := retry_on_conflict_spec 3 |}.

(** ** The claims *)

Import StateSamples.

Definition silent (evs : list PlanEvent) : HookFunc HibernatePlan HibernatePlanStatus := fun _ => st_ret tt.

Lemma silent_quiet evs : quiet_hook (silent evs).
Proof. by intros t s. Qed.

(** The plan of the sample world [active], on a server whose second request, the
    first update, conflicts. *)
Definition contended : Store HibernatePlan HibernatePlanStatus :=
  mkPlanStore (Some (w_plan active)) [None; Some Conflict] now.

Definition shutdown_updates : list (StatusUpdate HibernatePlan HibernatePlanStatus) :=
  map (of_update silent) (w_queue (run_state (Handle idleState) active)).

Definition written : Store HibernatePlan HibernatePlanStatus :=
  run_state (write_all plan_isStatusEqual shutdown_updates) contended.

Lemma written_result : run_result (write_all plan_isStatusEqual shutdown_updates) contended = Ok [None].
Proof. vm_compute. reflexivity. Qed.

Lemma written_run : write_all plan_isStatusEqual shutdown_updates contended = (Ok [None], written).
Proof. exact (ran_ok (write_all plan_isStatusEqual shutdown_updates) contended [None] written_result). Qed.


(** A pre-hook that fails, on that server. *)
Definition refusing : StatusUpdate HibernatePlan HibernatePlanStatus :=
  mkStatusUpdate (Some (fun _ => st_throw "no")) (Some (assign (transition PhaseError))) None.

Lemma refusing_quiet h : su_PreHook refusing = Some h \/ su_PostHook refusing = Some h -> quiet_hook h.
Proof. intros [ [= <-]|?]; [by intros t s|done]. Qed.

Definition refused : Store HibernatePlan HibernatePlanStatus :=
  run_state (apply_update plan_isStatusEqual refusing) contended.

Lemma refused_result : run_result (apply_update plan_isStatusEqual refusing) contended = Err (WriterHook "no").
Proof. vm_compute. reflexivity. Qed.

Lemma refused_run : apply_update plan_isStatusEqual refusing contended = (Err (WriterHook "no"), refused).
Proof. rewrite (ran (apply_update plan_isStatusEqual refusing) contended). by rewrite refused_result. Qed.

Lemma apply_update_spec_witness :
  apply_update plan_isStatusEqual refusing contended = (Err (WriterHook "no"), refused) /\
  stored refused = stored contended.
Proof.
  split; [exact refused_run|].
  pose proof (apply_update_spec plan_isStatusEqual refusing contended refusing_quiet) as H.
  rewrite refused_run in H. exact H.
Defined.
