(* ===== verification/PlanWebhook.v ===== *)
(** * The admission webhook of plans ([internal/validationwebhook])

    [HibernatePlanValidator]: the errors it finds in a plan.  The texts of the
    errors are left out, and so are the warnings, which reject nothing. *)
From S2P Require Import Prelude GoString GoTime Windows Types Planner World Execution.

Local Open Scope Z_scope.

(** ** Errors of fields *)

Inductive FieldErrorType :=
| FieldRequired
| FieldInvalid
| FieldNotSupported
| FieldDuplicate
| FieldForbidden
| FieldNotFound
| FieldInternalError.

(** [field.Error]: its type and the path of the field. *)
Record FieldError := mkFieldError {
  fe_Type : FieldErrorType;
  fe_Path : string;
}.

(** [field.Path]: [Child] and [Index]. *)
Definition Child (path name : string) : string := (path ++ "." ++ name)%string.
Definition Index (path : string) (i : nat) : string := (path ++ "[" ++ sprint_d (Z.of_nat i) ++ "]")%string.

(** One error when the test holds. *)
Definition err_if (b : bool) (t : FieldErrorType) (path : string) : list FieldError :=
  if b then [mkFieldError t path] else [].

Lemma err_if_nil b t path : err_if b t path = [] <-> b = false.
Proof. by destruct b. Qed.

(** ** The schedule *)

Definition is_digit_between (lo hi : Z) (c : ascii) : bool :=
  match digit_value c with Some d => (lo <=? d) && (d <=? hi) | None => false end.

(** The expression [^([0-1]?[0-9]|2[0-3]):[0-5][0-9]$]. *)
Definition timeRegex (s : string) : bool :=
  let minutes c m1 m2 := Ascii.eqb c ":" && is_digit_between 0 5 m1 && is_digit_between 0 9 m2 in
  match s with
  | String h2 (String c (String m1 (String m2 EmptyString))) => is_digit_between 0 9 h2 && minutes c m1 m2
  | String h1 (String h2 (String c (String m1 (String m2 EmptyString)))) =>
      (is_digit_between 0 1 h1 && is_digit_between 0 9 h2 || Ascii.eqb h1 "2" && is_digit_between 0 3 h2) &&
      minutes c m1 m2
  | _ => false
  end.

(** The map of valid days. *)
Definition validDays (day : string) : bool :=
  bool_decide (day ∈ ["MON"; "TUE"; "WED"; "THU"; "FRI"; "SAT"; "SUN"]).

Definition time_errors (path s : string) : list FieldError :=
  if (s =? "")%string then [mkFieldError FieldRequired path]
  else err_if (negb (timeRegex s)) FieldInvalid path.

Definition window_errors (offHours : string) (i : nat) (w : OffHourWindow) : list FieldError :=
  let path := Index offHours i in
  time_errors (Child path "start") (Start w) ++
  time_errors (Child path "end") (Stop w) ++
  err_if (negb (Start w =? "")%string && negb (Stop w =? "")%string && (Start w =? Stop w)%string)
    FieldInvalid (Child path "start") ++
  err_if (bool_decide (DaysOfWeek w = [])) FieldRequired (Child path "daysOfWeek") ++
  concat (imap (fun j day =>
      err_if (negb (validDays (ToUpper day))) FieldNotSupported (Index (Child path "daysOfWeek") j))
    (DaysOfWeek w)).

Definition schedulePath : string := "spec.schedule".
Definition targetsPath : string := "spec.targets".
Definition strategyPath : string := "spec.execution.strategy".

Definition validateSchedule (plan : HibernatePlan) : list FieldError :=
  let s := spec_Schedule (plan_Spec plan) in
  err_if (sched_Timezone s =? "")%string FieldRequired (Child schedulePath "timezone") ++
  err_if (bool_decide (sched_OffHours s = [])) FieldRequired (Child schedulePath "offHours") ++
  concat (imap (window_errors (Child schedulePath "offHours")) (sched_OffHours s)).

(** ** The targets *)

Section targets.
Context {HV : Validator}.

Definition validTypes : list string :=
  ["ec2"; "eks"; "rds"; "karpenter"; "workloadscaler"; "gke"; "cloudsql"; "noop"].

(** [seen] holds the names of the targets before. *)
Definition target_field_errors (seen : gset string) (i : nat) (t : Target) : list FieldError :=
  let path := Index targetsPath i in
  let kind := conn_Kind (tgt_ConnectorRef t) in
  err_if (bool_decide (tgt_Name t ∈ seen)) FieldDuplicate (Child path "name") ++
  (if (kind =? "")%string then [mkFieldError FieldRequired (Child path "connectorRef.kind")]
   else err_if (negb (kind =? "CloudProvider")%string && negb (kind =? "K8SCluster")%string)
          FieldNotSupported (Child path "connectorRef.kind")) ++
  err_if (conn_Name (tgt_ConnectorRef t) =? "")%string FieldRequired (Child path "connectorRef.name") ++
  err_if (negb (bool_decide (tgt_Type t ∈ validTypes))) FieldNotSupported (Child path "type") ++
  map (fun _ => mkFieldError FieldInvalid (Child path "parameters"))
    (ValidateParams (tgt_Type t) (default "" (tgt_Parameters t))).

Fixpoint targets_errors (seen : gset string) (i : nat) (targets : list Target) : list FieldError :=
  match targets with
  | [] => []
  | t :: targets' => target_field_errors seen i t ++ targets_errors ({[tgt_Name t]} ∪ seen) (S i) targets'
  end.

Definition validateTargets (plan : HibernatePlan) : list FieldError :=
  targets_errors ∅ 0 (spec_Targets (plan_Spec plan)).
End targets.

(** ** The strategy *)

(** The graph of [validateDAG], from a target to those that it depends on, and
    their in-degrees. *)
Record DagGraph := mkDagGraph {
  dg_graph : gmap string (list string);
  dg_inDegree : gmap string Z;
}.

Definition empty_graph (targets : list string) : DagGraph :=
  mkDagGraph (fold_left (fun m t => <[t := []]> m) targets ∅) (fold_left (fun m t => <[t := 0]> m) targets ∅).

Definition dag_edge (d : ApiDependency) (g : DagGraph) : DagGraph :=
  mkDagGraph (<[dep_To d := default [] (dg_graph g !! dep_To d) ++ [dep_From d]]> (dg_graph g))
    (bump 1 (dg_inDegree g) (dep_From d)).

(** The loop over the dependencies: a bad one is reported and skipped. *)
Fixpoint dag_edges (targetNames : gset string) (path : string) (i : nat) (deps : list ApiDependency) (g : DagGraph)
  : list FieldError * DagGraph :=
  match deps with
  | [] => ([], g)
  | d :: deps' =>
      let skip t p := let '(errs, g') := dag_edges targetNames path (S i) deps' g in (mkFieldError t p :: errs, g') in
      if negb (bool_decide (dep_From d ∈ targetNames)) then skip FieldInvalid (Child (Index path i) "from")
      else if negb (bool_decide (dep_To d ∈ targetNames)) then skip FieldInvalid (Child (Index path i) "to")
      else if (dep_From d =? dep_To d)%string then skip FieldInvalid (Index path i)
      else dag_edges targetNames path (S i) deps' (dag_edge d g)
  end.

(** The neighbours of a visited node lose an edge; those that have none left are
    appended to the queue. *)
Definition visit_neighbor (st : gmap string Z * list string) (neighbor : string) : gmap string Z * list string :=
  let inDegree := bump (-1) st.1 neighbor in
  (inDegree, if default 0 (inDegree !! neighbor) =? 0 then st.2 ++ [neighbor] else st.2).

(** The loop over the queue: the number of visited nodes. *)
Fixpoint visit_loop (fuel : nat) (graph : gmap string (list string)) (inDegree : gmap string Z)
  (queue : list string) (visited : nat) : option nat :=
  match fuel with
  | O => None
  | S fuel' =>
      match queue with
      | [] => Some visited
      | node :: queue' =>
          let '(inDegree', queue'') := fold_left visit_neighbor (default [] (graph !! node)) (inDegree, queue') in
          visit_loop fuel' graph inDegree' queue'' (S visited)
      end
  end.

Section strategy.
Context {HM : MapOrder}.

(** [None] would be a loop that does not end. *)
Definition validateDAG (targets : list string) (deps : list ApiDependency) : option (list FieldError) :=
  let targetNames : gset string := list_to_set targets in
  let path := Child strategyPath "dependencies" in
  let '(errs, g) := dag_edges targetNames path 0 deps (empty_graph targets) in
  match errs with
  | [] =>
      let queue := map_order (map fst (filter (fun kv => kv.2 = 0) (map_to_list (dg_inDegree g)))) in
      visited ← visit_loop (S (size targetNames)) (dg_graph g) (dg_inDegree g) queue 0;
      Some (err_if (negb (visited =? size targetNames)%nat) FieldInvalid path)
  | _ => Some errs
  end.

(** The targets of a stage, each known, and in no stage before. *)
Fixpoint stage_target_errors (targetNames : gset string) (path : string) (assigned : gset string) (j : nat) (l : list string)
  : list FieldError * gset string :=
  match l with
  | [] => ([], assigned)
  | t :: l' =>
      let '(errs, assigned') := stage_target_errors targetNames path ({[t]} ∪ assigned) (S j) l' in
      (err_if (negb (bool_decide (t ∈ targetNames))) FieldInvalid (Index path j) ++
       err_if (bool_decide (t ∈ assigned)) FieldDuplicate (Index path j) ++ errs, assigned')
  end.

Fixpoint stages_errors (targetNames stageNames assigned : gset string) (i : nat) (stages : list ApiStage)
  : list FieldError * gset string :=
  match stages with
  | [] => ([], assigned)
  | s :: stages' =>
      let path := Index (Child strategyPath "stages") i in
      let '(errs1, assigned1) := stage_target_errors targetNames (Child path "targets") assigned 0 (astage_Targets s) in
      let '(errs2, assigned2) := stages_errors targetNames ({[astage_Name s]} ∪ stageNames) assigned1 (S i) stages' in
      (err_if (bool_decide (astage_Name s ∈ stageNames)) FieldDuplicate (Child path "name") ++
       err_if (bool_decide (astage_Targets s = [])) FieldRequired (Child path "targets") ++ errs1 ++ errs2, assigned2)
  end.

Definition validateStaged (targets : list string) (stages : list ApiStage) : list FieldError :=
  let targetNames : gset string := list_to_set targets in
  let path := Child strategyPath "stages" in
  match stages with
  | [] => [mkFieldError FieldRequired path]
  | _ =>
      let '(errs, assigned) := stages_errors targetNames ∅ ∅ 0 stages in
      errs ++
      map (fun _ => mkFieldError FieldInvalid path)
        (filter (fun name => name ∉ assigned) (map_order (elements targetNames)))
  end.

Definition validateStrategy (plan : HibernatePlan) : option (list FieldError) :=
  let strategy := spec_Execution (plan_Spec plan) in
  let targets := map tgt_Name (spec_Targets (plan_Spec plan)) in
  match strat_Type strategy with
  | StrategyDAG => validateDAG targets (strat_Dependencies strategy)
  | StrategyStaged => Some (validateStaged targets (strat_Stages strategy))
  | StrategyParallel | StrategySequential => Some []
  | StrategyOther _ => Some [mkFieldError FieldNotSupported (Child strategyPath "type")]
  end.

(** ** The validator *)

Context {HV : Validator}.

(** [validate]: the plan is admitted when the list is empty. *)
Definition validate_plan (plan : HibernatePlan) : option (list FieldError) :=
  strategyErrs ← validateStrategy plan;
  Some (validateSchedule plan ++ validateTargets plan ++ strategyErrs).

Definition ValidateCreate_plan (plan : HibernatePlan) : option (list FieldError) := validate_plan plan.

(** [reflect.DeepEqual] on the targets is an argument. *)
Definition ValidateUpdate_plan (sameTargets : bool) (oldPlan newPlan : HibernatePlan) : option (list FieldError) :=
  match plan_Phase oldPlan with
  | PhaseActive | PhaseSuspended | PhaseError => validate_plan newPlan
  | _ => if sameTargets then validate_plan newPlan else Some [mkFieldError FieldForbidden targetsPath]
  end.

Definition ValidateDelete_plan (plan : HibernatePlan) : list FieldError := [].
End strategy.
