(* ===== verification/PlanWebhookSpec.v ===== *)
(** * What the admission of a plan guarantees

    The queue of [validateDAG] decides whether the dependencies have a cycle; and a
    plan that is admitted can be executed. *)
From S2P Require Import Prelude Monad GoString GoTime Windows Planner Types Cluster World ExecutionUtils Execution.
From S2P Require Import StateSamples PlanWebhook.
From Stdlib Require Import Lia.

Local Open Scope Z_scope.

Lemma size_remove (U : gset string) t : t ∈ U -> size U = S (size (U ∖ {[t]})).
Proof.
  intros Ht. rewrite size_difference by set_solver. rewrite size_singleton.
  destruct (size U) eqn:E; [apply size_empty_inv in E; set_solver|lia].
Qed.

(** ** The queue *)

Section queue.
Context (targets : list string) (deps : list Dependency).

Notation all := (list_to_set targets : gset string).

(** The nodes [U] are not visited yet, [m] has their in-degrees, and [q] those of
    in-degree zero; [rank] is the order of the visits. *)
Record visit_state (U : gset string) (m : gmap string Z) (q : list string) (visited : nat) : Prop := {
  vs_sub : U ⊆ all;
  vs_deg : forall n, n ∈ all -> m !! n = Some (Z.of_nat (length (preds deps U n)));
  vs_closed : forall d, d ∈ deps -> From d ∈ U -> To d ∈ U;
  vs_queue : NoDup q /\ forall n, n ∈ q <-> is_ready deps U n;
  vs_count : (visited + size U = size all)%nat;
  vs_rank : exists rank : string -> nat,
    (forall n, n ∈ all -> n ∉ U -> (rank n < visited)%nat) /\
    (forall d, d ∈ deps -> To d ∉ U -> (rank (From d) < rank (To d))%nat);
}.

(** The neighbours [l] of a node: [m] counts at least their edges from it. *)
Lemma visit_neighbors l m q :
  (forall n, n ∈ l -> exists k, m !! n = Some k /\ occ n l <= k) ->
  exists q2, fold_left visit_neighbor l (m, q) = (fold_left (bump (-1)) l m, q ++ q2) /\ NoDup q2 /\
    forall n, n ∈ q2 <-> n ∈ l /\ m !! n = Some (occ n l).
Proof.
  revert m q. induction l as [|x l IH]; intros m q Hm; cbn [fold_left].
  { exists []. rewrite app_nil_r. split; [done|]. split; [constructor|]. set_solver. }
  destruct (Hm x ltac:(by left)) as (k & Hk & Hle).
  assert (0 <= occ x l) as Hpos by (unfold occ; lia).
  rewrite occ_cons, decide_True in Hle by done.
  assert (bump (-1) m x !! x = Some (k - 1)) as Hx by (unfold bump; rewrite lookup_insert_eq, Hk; cbn; f_equal; lia).
  assert (forall n, n <> x -> bump (-1) m x !! n = m !! n) as Hn by (intros n Hne; unfold bump; by rewrite lookup_insert_ne).
  assert (forall q', exists q2, fold_left visit_neighbor l (bump (-1) m x, q') =
    (fold_left (bump (-1)) l (bump (-1) m x), q' ++ q2) /\ NoDup q2 /\
    forall n, n ∈ q2 <-> n ∈ l /\ bump (-1) m x !! n = Some (occ n l)) as Hrec.
  { intros q'. apply IH. intros n Hin. destruct (decide (n = x)) as [->|Hne]; [exists (k - 1); split; [done|lia]|].
    rewrite Hn by done. destruct (Hm n ltac:(by right)) as (kn & Hkn & Hlen).
    rewrite occ_cons, decide_False in Hlen by done. exists kn. split; [done|lia]. }
  assert (visit_neighbor (m, q) x = (bump (-1) m x, if k - 1 =? 0 then q ++ [x] else q)) as ->.
  { unfold visit_neighbor. cbn [fst snd]. by rewrite Hx. }
  destruct (k - 1 =? 0) eqn:Ek; reflect.
  - destruct (Hrec (q ++ [x])) as (q2 & H1 & H2 & H3). exists (x :: q2). rewrite H1, <- app_assoc. split; [done|].
    assert (x ∉ l) as Hxl by (apply occ_zero; lia).
    split; [constructor; [rewrite H3; tauto|done]|].
    intros n. rewrite !elem_of_cons, H3, occ_cons. destruct (decide (n = x)) as [->|Hne].
    + rewrite decide_True, Hk, (proj2 (occ_zero x l)) by done. split; [intros _|by left]. split; [by left|]. f_equal; lia.
    + rewrite Hn, decide_False by done. split; [intros [?|[? ?] ]; [done|auto]|intros [ [?|?] ?]; [done|auto] ].
  - destruct (Hrec q) as (q2 & H1 & H2 & H3). exists q2. rewrite H1. split; [done|]. split; [done|].
    intros n. rewrite H3, elem_of_cons, occ_cons. destruct (decide (n = x)) as [->|Hne].
    + rewrite Hx, decide_True, Hk by done. split.
      * intros [_ [= Heq] ]. split; [by left|]. f_equal; lia.
      * intros [_ [= Heq] ]. assert (x ∈ l) by (destruct (decide (x ∈ l)) as [|Hnl]; [done|apply occ_zero in Hnl; lia]).
        split; [done|]. f_equal; lia.
    + rewrite Hn, decide_False by done. split; [intros [? ?]; auto|intros [ [?|?] ?]; [done|auto] ].
Qed.

(** The edges from [t]. *)
Notation edges t := (map To (filter (fun d => From d = t) deps)).

Lemma visit_step U m t q visited :
  (forall d, d ∈ deps -> From d ∈ all /\ To d ∈ all) ->
  visit_state U m (t :: q) visited ->
  exists q2, fold_left visit_neighbor (edges t) (m, q) = (fold_left (bump (-1)) (edges t) m, q ++ q2) /\
    visit_state (U ∖ {[t]}) (fold_left (bump (-1)) (edges t) m) (q ++ q2) (S visited).
Proof.
  intros Hto [Hsub Hdeg Hcl [Hnd Hq] Hc (rank & Hr1 & Hr2)].
  apply NoDup_cons in Hnd as [Htq Hnd].
  assert (is_ready deps U t) as [Ht Hp] by (apply Hq; by left).
  assert (forall n, n ∈ edges t -> n ∈ U /\ n <> t) as Hedge.
  { intros n Hn. apply list_elem_of_fmap in Hn as (d & -> & Hd). apply list_elem_of_filter in Hd as [Hf Hd].
    split; [apply Hcl; [done|by rewrite Hf]|]. intros Htd.
    apply (proj1 (preds_nil deps U t) Hp d Hd Htd). by rewrite Hf. }
  assert (forall n, Z.of_nat (length (preds deps (U ∖ {[t]}) n)) =
    Z.of_nat (length (preds deps U n)) - occ n (edges t)) as Hrem by (intros n; by apply preds_remove).
  destruct (visit_neighbors (edges t) m q) as (q2 & H1 & H2 & H3).
  { intros n Hn. apply Hedge in Hn as [Hn _]. exists (Z.of_nat (length (preds deps U n))).
    split; [apply Hdeg; set_solver|]. specialize (Hrem n). lia. }
  exists q2. split; [done|]. split.
  - set_solver.
  - intros n Hn. rewrite bump_all, (Hdeg n Hn). f_equal. specialize (Hrem n). lia.
  - intros d Hd [Hf Hft]%elem_of_difference. apply elem_of_difference. split; [by apply Hcl|].
    rewrite elem_of_singleton. intros Htd. by apply (proj1 (preds_nil deps U t) Hp d Hd).
  - split.
    + apply NoDup_app. split; [done|]. split; [|done]. intros n Hn Hn2. apply H3 in Hn2 as [Hin Hm].
      assert (is_ready deps U n) as [HnU Hpn] by (apply Hq; by right).
      rewrite Hdeg, Hpn in Hm by set_solver. injection Hm as Hm. cbn in Hm. by apply occ_zero in Hin.
    + intros n. rewrite elem_of_app, H3. split.
      * intros [Hn|[Hn Hm] ].
        -- apply is_ready_mono; [by intros ->|]. apply Hq. by right.
        -- destruct (Hedge n Hn) as [HnU Hne]. rewrite Hdeg in Hm by set_solver. injection Hm as Hm.
           split; [set_solver|]. specialize (Hrem n). apply nil_length_inv. lia.
      * intros [ [HnU Hne]%elem_of_difference Hpn]. specialize (Hrem n). rewrite Hpn in Hrem. cbn in Hrem.
        destruct (decide (n ∈ edges t)) as [Hn|Hn].
        -- right. split; [done|]. rewrite Hdeg by set_solver. f_equal. lia.
        -- left. apply occ_zero in Hn. assert (n ∈ t :: q) as [->|?]%elem_of_cons; [|set_solver|done].
           apply Hq. split; [done|]. apply nil_length_inv. lia.
  - pose proof (size_remove U t Ht). lia.
  - exists (fun n => if decide (n = t) then visited else rank n). split.
    + intros n Hn HnU. case_decide; [lia|]. assert (rank n < visited)%nat; [apply Hr1; set_solver|lia].
    + intros d Hd HdU. destruct (decide (From d ∈ U)) as [Hf|Hf].
      * exfalso. destruct (decide (To d = t)) as [Htd|Htd].
        -- by apply (proj1 (preds_nil deps U t) Hp d Hd Htd).
        -- apply HdU. specialize (Hcl d Hd Hf). set_solver.
      * rewrite (decide_False (P := From d = t)) by (intros Heq; apply Hf; by rewrite Heq). case_decide as Htd.
        -- apply Hr1; [by apply Hto|done].
        -- apply Hr2; [done|set_solver].
Qed.

(** A run from such a state ends, and visits every node when there is no cycle. *)
Lemma visit_loop_spec fuel U m q visited :
  (forall d, d ∈ deps -> From d ∈ all /\ To d ∈ all) ->
  visit_state U m q visited -> (size U < fuel)%nat ->
  exists v, visit_loop fuel (init_adj targets deps) m q visited = Some v /\ (v = size all <-> acyclic deps).
Proof.
  intros Hd. revert U m q visited. induction fuel as [|fuel IH]; intros U m q visited Hst Hf; [lia|].
  cbn [visit_loop]. destruct q as [|t q].
  - exists visited. split; [done|]. destruct Hst as [Hsub _ _ [_ Hq] Hc (rank & _ & Hr)].
    destruct (decide (U = ∅)) as [->|Hne].
    + rewrite size_empty in Hc. split; [|lia]. intros _. exists rank. intros d Hin. apply Hr; [done|set_solver].
    + assert (~ acyclic deps) as Hcyc.
      { apply (stuck_cyclic _ U Hne). intros n Hn. apply Hq in Hn. by apply not_elem_of_nil in Hn. }
      split; [|done]. intros ->. assert (size U = 0%nat) as E by lia. apply size_empty_inv in E. set_solver.
  - destruct (visit_step U m t q visited Hd Hst) as (q2 & H1 & H2). rewrite init_adj_lookup, H1.
    apply (IH _ _ _ _ H2). destruct Hst as [_ _ _ [_ Hq] _ _]. assert (t ∈ U) by (apply Hq; by left).
    pose proof (size_remove U t ltac:(done)). lia.
Qed.

Lemma visit_init order :
  (forall l, order l ≡ₚ l) -> unknown_target all deps = None ->
  visit_state all (init_inDegree targets deps)
    (order (map fst (filter (fun kv => kv.2 = 0) (map_to_list (init_inDegree targets deps))))) 0.
Proof.
  intros Ho Hu. pose proof (init_state targets deps Hu) as [Hs Hdeg Hc].
  assert (kahn_state targets deps all (init_inDegree targets deps)) as Hk by done.
  apply ready_targets_spec in Hk as (Hnd & _ & Hr). unfold ready_targets in Hnd, Hr.
  rewrite sort_strings_perm in Hnd. setoid_rewrite elem_of_sort_strings in Hr.
  split; [done| |done| |lia|].
  - intros n Hn. by rewrite Hdeg, decide_True.
  - split; [by rewrite Ho|]. intros n. by rewrite Ho.
  - exists (fun _ => 0%nat). split; [set_solver|]. intros d Hd Hn. exfalso. apply Hn.
    by destruct (unknown_target_None _ _ d Hu Hd).
Qed.
End queue.

(** ** The graph *)

Notation reversed := (map (plan_dependency true)).
Notation forwards := (map (plan_dependency false)).

(** A bound of the ranks of some names. *)
Lemma rank_bound (rank : string -> nat) (l : list string) : exists N, forall n, n ∈ l -> (rank n <= N)%nat.
Proof.
  induction l as [|x l [N IH] ]; [exists 0%nat; set_solver|]. exists (Nat.max (rank x) N).
  intros n [->|Hn]%elem_of_cons; [lia|]. specialize (IH n Hn). lia.
Qed.

Lemma acyclic_turn b deps : acyclic (map (plan_dependency b) deps) -> acyclic (map (plan_dependency (negb b)) deps).
Proof.
  intros [rank Hr].
  destruct (rank_bound rank (map dep_From deps ++ map dep_To deps)) as [N HN].
  exists (fun n => (N - rank n)%nat). intros d (d0 & -> & Hd)%list_elem_of_fmap.
  assert (rank (dep_From d0) <= N /\ rank (dep_To d0) <= N)%nat as [HF HT].
  { split; apply HN, elem_of_app; [left|right]; by apply list_elem_of_fmap_2. }
  specialize (Hr (plan_dependency b d0) ltac:(by apply list_elem_of_fmap_2)).
  destruct b; cbn in *; lia.
Qed.

Lemma acyclic_reversed deps : acyclic (reversed deps) <-> acyclic (forwards deps).
Proof. split; [apply (acyclic_turn true)|apply (acyclic_turn false)]. Qed.

(** A dependency between two different targets. *)
Definition dependency_ok (targetNames : gset string) (d : ApiDependency) : Prop :=
  dep_From d ∈ targetNames /\ dep_To d ∈ targetNames /\ dep_From d <> dep_To d.

Lemma dag_edges_spec names path i deps g :
  ((dag_edges names path i deps g).1 = [] <-> forall d, d ∈ deps -> dependency_ok names d) /\
  ((dag_edges names path i deps g).1 = [] ->
   (dag_edges names path i deps g).2 = fold_left (fun g d => dag_edge d g) deps g).
Proof.
  revert i g. induction deps as [|d deps IH]; intros i g; cbn [dag_edges fold_left].
  { split; [|done]. split; [set_solver|done]. }
  assert (dependency_ok names d \/ ~ dependency_ok names d) as [Hok|Hno].
  { unfold dependency_ok. destruct (decide (dep_From d ∈ names)), (decide (dep_To d ∈ names)),
      (decide (dep_From d = dep_To d)); naive_solver. }
  - destruct (Hok) as (H1 & H2 & H3).
    rewrite !bool_decide_eq_true_2 by done. cbn [negb]. rewrite (proj2 (String.eqb_neq _ _) H3).
    destruct (IH (S i) (dag_edge d g)) as [Ha Hb]. split; [|done]. rewrite Ha.
    split; [intros H d' [->|Hd]%elem_of_cons; auto|intros H d' Hd; apply H; by right].
  - assert (~ (forall d', d' ∈ d :: deps -> dependency_ok names d')) as Hnall.
    { intros H. apply Hno, H. by left. }
    destruct (dag_edges names path (S i) deps g) as [errs g'].
    destruct (bool_decide (dep_From d ∈ names)) eqn:E1; [|cbn; split; [split; [done|tauto]|done] ].
    destruct (bool_decide (dep_To d ∈ names)) eqn:E2; [|cbn; split; [split; [done|tauto]|done] ].
    destruct (String.eqb_spec (dep_From d) (dep_To d)) as [E3|E3]; [cbn; split; [split; [done|tauto]|done]|].
    exfalso. apply Hno. by apply bool_decide_eq_true_1 in E1, E2.
Qed.

(** The graph is that of the planner, for the turned dependencies. *)
Lemma dag_graph_eq targets deps :
  fold_left (fun g d => dag_edge d g) deps (empty_graph targets) =
  mkDagGraph (init_adj targets (reversed deps)) (init_inDegree targets (reversed deps)).
Proof.
  unfold init_adj, init_inDegree, empty_graph.
  generalize (fold_left (fun m t => <[t := []]> m) targets (∅ : gmap string (list string))) as a.
  generalize (fold_left (fun m t => <[t := 0]> m) targets (∅ : gmap string Z)) as i.
  induction deps as [|d deps IH]; intros i a; [done|]. cbn [fold_left map]. apply IH.
Qed.

Section decides.
Context {HM : MapOrder}.

Lemma validateDAG_result targets deps :
  exists errs, validateDAG targets deps = Some errs /\
  (errs = [] <-> (forall d, d ∈ deps -> dependency_ok (list_to_set targets) d) /\ acyclic (forwards deps)).
Proof.
  unfold validateDAG. destruct (dag_edges_spec (list_to_set targets) (Child strategyPath "dependencies") 0 deps (empty_graph targets))
    as [Ha Hb].
  destruct (dag_edges _ _ _ _ _) as [ [|e errs] g]; cbn [fst snd] in *.
  - assert (forall d, d ∈ deps -> dependency_ok (list_to_set targets) d) as Hok by (by apply Ha).
    rewrite (Hb eq_refl), dag_graph_eq. cbn [dg_graph dg_inDegree].
    assert (forall d, d ∈ reversed deps -> From d ∈ (list_to_set targets : gset string) /\
      To d ∈ (list_to_set targets : gset string)) as Hd.
    { intros d (d0 & -> & Hd0)%list_elem_of_fmap. destruct (Hok d0 Hd0) as (? & ? & _). by split. }
    assert (unknown_target (list_to_set targets) (reversed deps) = None) as Hu.
    { destruct (unknown_target _ _) as [n|] eqn:E; [|done]. apply unknown_target_Some in E as [Hn (d & Hdd & Hor)].
      destruct (Hd d Hdd). by destruct Hor; subst. }
    destruct (visit_loop_spec targets (reversed deps) (S (size (list_to_set targets : gset string))) _ _ _ 0 Hd
      (visit_init _ _ map_order map_order_perm Hu)) as (v & Hv & Hiff); [lia|].
    unfold mbind, option_bind. rewrite Hv. eexists. split; [done|]. rewrite acyclic_reversed in Hiff.
    destruct (Nat.eqb_spec v (size (list_to_set targets : gset string))) as [Heq|Hne]; cbn; [tauto|].
    split; [done|]. intros [_ Hac]. by apply Hiff in Hac.
  - exists (e :: errs). split; [done|]. split; [done|]. intros [Hok _]. by apply Ha in Hok.
Qed.

(** C39: the webhook's cycle check is a decision procedure.  It ends, whatever order the
    runtime iterates the maps in; and it finds no error in the dependencies of a
    DAG plan exactly when each is between two different targets of the plan and
    they have no cycle, duplicated dependencies included. *)
Theorem validateDAG_decides targets deps :
  exists errs, validateDAG targets deps = Some errs /\
  (errs = [] <-> (forall d, d ∈ deps -> dependency_ok (list_to_set targets) d) /\ acyclic (forwards deps)).
Proof. apply validateDAG_result. Qed.
End decides.

(** ** The schedule *)

Lemma concat_nil {A} (l : list (list A)) : concat l = [] <-> forall x, x ∈ l -> x = [].
Proof.
  induction l as [|x l IH]; cbn; [set_solver|]. rewrite app_nil, IH.
  split; [intros [H1 H2] y [->|Hy]%elem_of_cons; auto|intros H; split; [apply H; by left|intros y Hy; apply H; by right] ].
Qed.

Lemma digit_plain c d : digit_value c = Some d ->
  0 <= d <= 9 /\ Ascii.eqb c ":" = false /\ c <> "-"%char /\ c <> "+"%char.
Proof.
  unfold digit_value. destruct (_ && _) eqn:E; [|done]. intros [= <-]. reflect. split; [lia|].
  split; [apply Ascii.eqb_neq; intros ->; cbn in *; lia|]. split; intros ->; cbn in *; lia.
Qed.

Lemma Atoi_unsigned c s : c <> "-"%char -> c <> "+"%char ->
  Atoi (String c s) =
  match digits_value 0 (String c s) with
  | Some n => if (- 2 ^ 63 <=? n) && (n <? 2 ^ 63) then Some n else None
  | None => None
  end.
Proof. intros Hm Hp. destruct c as [ [] [] [] [] [] [] [] [] ]; try reflexivity; by exfalso; auto. Qed.

Lemma Atoi_digits c d s v : digit_value c = Some d -> digits_value d s = Some v -> 0 <= v < 100 ->
  Atoi (String c s) = Some v.
Proof.
  intros Hd Hs Hv. destruct (digit_plain c d Hd) as (_ & _ & Hm & Hp). rewrite Atoi_unsigned by done.
  cbn [digits_value]. rewrite Hd. replace (10 * 0 + d) with d by lia. rewrite Hs.
  rewrite (proj2 (Z.leb_le _ _)), (proj2 (Z.ltb_lt _ _)) by lia. done.
Qed.

Lemma is_digit_between_spec lo hi c : is_digit_between lo hi c = true -> exists d, digit_value c = Some d /\ lo <= d <= hi.
Proof. unfold is_digit_between. destruct (digit_value c) as [d|]; [|done]. intros H. reflect. by exists d. Qed.

(** The texts of a time: an hour of one or two digits, and two digits. *)
Definition hhmm_text (s : string) (h m : Z) : Prop :=
  exists hs m1 d1 m2 d2, s = (hs ++ String ":" (String m1 (String m2 EmptyString)))%string /\
    digit_value m1 = Some d1 /\ digit_value m2 = Some d2 /\ m = 10 * d1 + d2 /\ 0 <= d1 <= 5 /\ 0 <= d2 <= 9 /\ 0 <= h <= 23 /\
    ((exists a, hs = String a EmptyString /\ digit_value a = Some h) \/
     exists a b da db, hs = String a (String b EmptyString) /\ digit_value a = Some da /\ digit_value b = Some db /\
       h = 10 * da + db).

Lemma timeRegex_inv s : timeRegex s = true -> exists h m, hhmm_text s h m.
Proof.
  assert (forall c m1 m2, Ascii.eqb c ":" && is_digit_between 0 5 m1 && is_digit_between 0 9 m2 = true ->
    c = ":"%char /\ exists d1 d2, digit_value m1 = Some d1 /\ digit_value m2 = Some d2 /\ 0 <= d1 <= 5 /\ 0 <= d2 <= 9) as Hm.
  { intros c m1 m2 H. apply andb_true_iff in H as [H H2]. apply andb_true_iff in H as [Hc H1].
    apply Ascii.eqb_eq in Hc. apply is_digit_between_spec in H1 as (d1 & ? & ?), H2 as (d2 & ? & ?).
    split; [done|]. by exists d1, d2. }
  unfold timeRegex. destruct s as [|a [|b [|c [|d [|e [|f s] ] ] ] ] ]; try done; intros Hs.
  - apply andb_true_iff in Hs as [Ha (-> & d1 & d2 & H1 & H2 & ? & ?)%Hm].
    apply is_digit_between_spec in Ha as (da & Ha & ?).
    exists da, (10 * d1 + d2), (String a ""), c, d1, d, d2. split_and!; (done || lia || (left; by exists a)).
  - apply andb_true_iff in Hs as [Hh (-> & d1 & d2 & H1 & H2 & ? & ?)%Hm].
    assert (exists da db, digit_value a = Some da /\ digit_value b = Some db /\ 0 <= 10 * da + db <= 23) as (da & db & Ha & Hb & ?).
    { apply orb_true_iff in Hh as [Hh|Hh]; apply andb_true_iff in Hh as [Ha Hb].
      - apply is_digit_between_spec in Ha as (da & Ha & ?), Hb as (db & Hb & ?). exists da, db. split_and!; (done || lia).
      - apply Ascii.eqb_eq in Ha as ->. apply is_digit_between_spec in Hb as (db & Hb & ?). exists 2, db. split_and!; (done || lia). }
    exists (10 * da + db), (10 * d1 + d2), (String a (String b "")), d, d1, e, d2. split_and!; (done || lia || (right; by exists a, b, da, db)).
Qed.

Lemma hhmm_parses s h m : hhmm_text s h m -> parseTime s = Ok (h, m).
Proof.
  intros (hs & m1 & d1 & m2 & d2 & -> & H1 & H2 & -> & ? & ? & ? & Hh).
  assert (free_of ":" hs = true /\ Atoi hs = Some h) as [Hfree Ha].
  { destruct Hh as [(a & -> & Ha)|(a & b & da & db & -> & Ha & Hb & ->)]; cbn [free_of].
    - pose proof (digit_plain a h Ha) as (_ & -> & _). split; [done|]. apply (Atoi_digits a h); [done|done|lia].
    - pose proof (digit_plain a da Ha) as (? & -> & _). pose proof (digit_plain b db Hb) as (? & -> & _).
      split; [done|]. apply (Atoi_digits a da); [done|cbn; by rewrite Hb|lia]. }
  unfold parseTime. rewrite Split_app by done.
  assert (Split ":" (String m1 (String m2 "")) = [String m1 (String m2 "")]) as ->.
  { apply Split_free. cbn. apply digit_plain in H1 as (_ & -> & _), H2 as (_ & -> & _). done. }
  rewrite Ha, (Atoi_digits m1 d1 _ (10 * d1 + d2)) by (cbn; rewrite ?H2; done || lia).
  by repeat (rewrite (proj2 (Z.ltb_ge _ _)) by lia).
Qed.

(** A time that the expression accepts is one that the schedule can parse. *)
Lemma timeRegex_parses s : timeRegex s = true -> exists h m, parseTime s = Ok (h, m).
Proof. intros (h & m & H)%timeRegex_inv. exists h, m. by apply hhmm_parses. Qed.

Lemma validDays_number day : validDays (ToUpper day) = true -> exists n, dayNumber day = Some n.
Proof.
  unfold validDays, dayNumber. rewrite bool_decide_eq_true, !elem_of_cons.
  intros [->|[->|[->|[->|[->|[->|[->|[]%not_elem_of_nil] ] ] ] ] ] ]; by eexists.
Qed.

Lemma mapM_days days : (forall d, d ∈ days -> exists n, dayNumber d = Some n) -> exists ns, mapM dayNumber days = Some ns.
Proof.
  intros H. destruct (mapM dayNumber days) as [ns|] eqn:E; [by exists ns|].
  apply mapM_None in E. apply Exists_exists in E as (d & Hd & Hn). destruct (H d Hd) as [n Hn']. congruence.
Qed.

(** The start and the end of the window are one minute, written in two ways. *)
Definition same_minute (w : OffHourWindow) : Prop :=
  Start w <> Stop w /\ exists h m, parseTime (Start w) = Ok (h, m) /\ parseTime (Stop w) = Ok (h, m).

Lemma time_errors_nil path s : time_errors path s = [] -> s <> ""%string /\ exists h m, parseTime s = Ok (h, m).
Proof.
  unfold time_errors. destruct (String.eqb_spec s "") as [|Hne]; [done|].
  rewrite err_if_nil, negb_false_iff. intros H. split; [done|]. by apply timeRegex_parses.
Qed.

Lemma window_errors_nil offHours i w : window_errors offHours i w = [] ->
  DaysOfWeek w <> [] /\ ((exists v, window_ok w v) \/ same_minute w).
Proof.
  unfold window_errors. rewrite !app_nil, !err_if_nil. intros (H1 & H2 & H3 & H4 & H5).
  apply time_errors_nil in H1 as (Hs & sh & sm & H1), H2 as (He & eh & em & H2).
  apply String.eqb_neq in Hs, He. rewrite Hs, He in H3. cbn in H3. apply String.eqb_neq in H3.
  apply bool_decide_eq_false in H4. split; [done|].
  assert (exists ns, mapM dayNumber (DaysOfWeek w) = Some ns) as [ns Hns].
  { apply mapM_days. intros d Hd. apply validDays_number. rewrite concat_nil in H5.
    apply list_elem_of_lookup in Hd as [j Hj].
    specialize (H5 (err_if (negb (validDays (ToUpper d))) FieldNotSupported (Index (Child (Index offHours i) "daysOfWeek") j))).
    rewrite err_if_nil, negb_false_iff in H5. apply H5. apply elem_of_lookup_imap. by exists j, d. }
  pose proof (parseTime_bounds _ _ _ H1). pose proof (parseTime_bounds _ _ _ H2).
  destruct (decide (sh * 60 + sm = eh * 60 + em)) as [Heq|Hne].
  - right. split; [done|]. exists sh, sm. split; [done|]. rewrite H2. repeat f_equal; lia.
  - left. exists (mkView (sh * 60 + sm) (eh * 60 + em) ns). exists sh, sm, eh, em. split_and!; try done.
    cbn. intros ->. apply mapM_Some in Hns. inversion Hns as [Hnil|]. by rewrite Hnil in H4.
Qed.

(** The off-hour windows of a plan that is admitted. *)
Lemma admitted_windows plan :
  validateSchedule plan = [] ->
  let windows := sched_OffHours (spec_Schedule (plan_Spec plan)) in
  windows <> [] /\ forall w, w ∈ windows -> DaysOfWeek w <> [] /\ ((exists v, window_ok w v) \/ same_minute w).
Proof.
  unfold validateSchedule. rewrite !app_nil, !err_if_nil. intros (_ & H & Hwin). split.
  { by apply bool_decide_eq_false in H. }
  intros w Hw. apply list_elem_of_lookup in Hw as [i Hi]. rewrite concat_nil in Hwin.
  apply (window_errors_nil (Child schedulePath "offHours") i w). apply Hwin, elem_of_lookup_imap. by exists i, w.
Qed.

(** ** The targets and the stages *)

Section admitted.
Context {HM : MapOrder} {HV : Validator}.

Lemma targets_errors_nil seen i l : targets_errors seen i l = [] ->
  NoDup (map tgt_Name l) /\ (forall t, t ∈ l -> tgt_Name t ∉ seen /\
    ValidateParams (tgt_Type t) (default "" (tgt_Parameters t)) = []).
Proof.
  revert seen i. induction l as [|t l IH]; intros seen i H; [split; [constructor|set_solver]|].
  cbn [targets_errors] in H. unfold target_field_errors in H. rewrite !app_nil, !err_if_nil in H.
  destruct H as ( (Hn & _ & _ & _ & Hp) & Hl). apply bool_decide_eq_false in Hn.
  destruct (IH _ _ Hl) as [Hnd Hall]. split.
  - cbn. constructor; [|done]. intros (t' & Ht' & Hin)%list_elem_of_fmap. destruct (Hall t' Hin) as [Hs _]. set_solver.
  - intros t' [->|Hin]%elem_of_cons; [split; [done|]|].
    + by destruct (ValidateParams _ _).
    + destruct (Hall t' Hin). split; [set_solver|done].
Qed.

Lemma stage_target_errors_spec names path assigned j l :
  (stage_target_errors names path assigned j l).2 = list_to_set l ∪ assigned /\
  ((stage_target_errors names path assigned j l).1 = [] ->
   NoDup l /\ forall t, t ∈ l -> t ∈ names /\ t ∉ assigned).
Proof.
  revert assigned j. induction l as [|t l IH]; intros assigned j; cbn [stage_target_errors].
  { split; [cbn; set_solver|]. intros _. split; [constructor|set_solver]. }
  destruct (IH ({[t]} ∪ assigned) (S j)) as [H1 H2]. destruct (stage_target_errors _ _ _ _ _) as [errs a']. cbn in *.
  split; [set_solver|]. rewrite !app_nil, !err_if_nil. intros (Hn & Ha & He).
  apply negb_false_iff, bool_decide_eq_true in Hn. apply bool_decide_eq_false in Ha. destruct (H2 He) as [Hnd Hall].
  split; [constructor; [|done]; intros Hin; destruct (Hall t Hin); set_solver|].
  intros t' [->|Hin]%elem_of_cons; [done|]. destruct (Hall t' Hin). set_solver.
Qed.

Lemma stages_errors_spec names stageNames assigned i l :
  (stages_errors names stageNames assigned i l).2 = list_to_set (concat (map astage_Targets l)) ∪ assigned /\
  ((stages_errors names stageNames assigned i l).1 = [] ->
   NoDup (concat (map astage_Targets l)) /\ Forall (fun s => astage_Targets s <> []) l /\
   forall t, t ∈ concat (map astage_Targets l) -> t ∈ names /\ t ∉ assigned).
Proof.
  revert stageNames assigned i. induction l as [|s l IH]; intros stageNames assigned i; cbn [stages_errors].
  { split; [cbn; set_solver|]. intros _. split; [constructor|]. split; [constructor|cbn; set_solver]. }
  destruct (stage_target_errors_spec names (Child (Index (Child strategyPath "stages") i) "targets") assigned 0 (astage_Targets s))
    as [H1 H2].
  destruct (stage_target_errors _ _ _ _ _) as [errs1 a1]. cbn [fst snd] in *.
  destruct (IH ({[astage_Name s]} ∪ stageNames) a1 (S i)) as [H3 H4].
  destruct (stages_errors _ _ _ _ _) as [errs2 a2]. cbn [fst snd map concat] in *. subst a1. split; [set_solver|].
  rewrite !app_nil, !err_if_nil. intros (_ & Hne & He1 & He2). apply bool_decide_eq_false in Hne.
  destruct (H2 He1) as [Hnd1 Hin1], (H4 He2) as (Hnd2 & Hall & Hin2). split.
  - apply NoDup_app. split; [done|]. split; [|done]. intros t Ht Ht2. destruct (Hin2 t Ht2) as [_ Hn]. set_solver.
  - split; [by constructor|]. intros t [Ht|Ht]%elem_of_app; [auto|]. destruct (Hin2 t Ht). set_solver.
Qed.

Lemma validateStaged_nil targets stages : NoDup targets -> validateStaged targets stages = [] ->
  concat (map astage_Targets stages) ≡ₚ targets /\ Forall (fun s => astage_Targets s <> []) stages.
Proof.
  intros Hnd H. unfold validateStaged in H. destruct stages as [|s0 l0] eqn:Es; [done|]. rewrite <- Es in *. clear Es.
  destruct (stages_errors_spec (list_to_set targets) ∅ ∅ 0 stages) as [H1 H2].
  destruct (stages_errors _ _ _ _ _) as [errs a]. cbn [fst snd] in *. apply app_nil in H as [-> H].
  destruct (H2 eq_refl) as (Hnd2 & Hall & Hin). split; [|done]. apply NoDup_Permutation; [done|done|]. intros t. split.
  - intros Ht. destruct (Hin t Ht). set_solver.
  - intros Ht. destruct (decide (t ∈ a)) as [Ha|Ha]; [subst a; set_solver|]. exfalso.
    apply map_eq_nil in H.
    assert (t ∈ filter (fun name => name ∉ a) (map_order (elements (list_to_set targets : gset string)))) as Hf.
    { apply list_elem_of_filter. split; [done|]. rewrite map_order_perm. set_solver. }
    rewrite H in Hf. by apply not_elem_of_nil in Hf.
Qed.

(** A plan of the DAG planner has every target once. *)
Lemma PlanDAG_perm targets deps mc plan :
  PlanDAG targets deps mc = Ok plan -> concat (map es_Targets (Stages plan)) ≡ₚ targets.
Proof.
  intros H. pose proof (PlanDAG_result targets deps mc) as Hr. rewrite H in Hr. destruct Hr as (HN & _ & Hl & _).
  apply NoDup_Permutation; [by eapply layering_NoDup|done|]. intros n.
  rewrite <- (layering_elem _ _ _ n Hl). apply elem_of_list_to_set.
Qed.

Lemma PlanDAG_admitted targets deps mc reverse : NoDup targets ->
  (forall d, d ∈ deps -> dependency_ok (list_to_set targets) d) -> acyclic (forwards deps) ->
  exists plan, PlanDAG targets (map (plan_dependency reverse) deps) mc = Ok plan.
Proof.
  intros Hnd Hok Hac. pose proof (PlanDAG_result targets (map (plan_dependency reverse) deps) mc) as Hr.
  destruct (PlanDAG _ _ _) as [plan|[|n]| |]; [by exists plan| | |done|done]; exfalso.
  - apply Hr. split; [done|]. destruct reverse; [by apply acyclic_reversed|done].
  - destruct Hr as [Hn (d & Hd & Hor)]. apply list_elem_of_fmap in Hd as (d0 & -> & Hd0).
    destruct (Hok d0 Hd0) as (H1 & H2 & _). destruct reverse, Hor; cbn in *; set_solver.
Qed.

Lemma concat_perm {A} (l k : list (list A)) : l ≡ₚ k -> concat l ≡ₚ concat k.
Proof.
  induction 1 as [|x l k _ IH|x y l|l k m _ IH1 _ IH2]; cbn; [done|by rewrite IH| |by rewrite IH1].
  by rewrite !app_assoc, (Permutation_app_comm x y).
Qed.

Lemma ReverseIf_perm {A} b (l : list A) : ReverseIf b l ≡ₚ l.
Proof. destruct b; [symmetry; apply Permutation_rev|done]. Qed.

(** C27: a plan that the webhook admits can be executed.  Its targets have different
    names and accepted parameters; in both directions the execution planner
    returns a plan, and that plan runs every target exactly once; and each of its
    off-hour windows has a cron schedule, except one whose start and end are the
    same minute written in two ways, which the webhook lets through and the
    schedule evaluator then refuses. *)
Theorem admitted_plan_executes plan :
  ValidateCreate_plan plan = Some [] ->
  let targets := spec_Targets (plan_Spec plan) in
  NoDup (map tgt_Name targets) /\
  (forall t, t ∈ targets -> target_errors t = []) /\
  (forall reverse, exists ep, buildExecutionPlan plan reverse = Ok ep /\
    concat (map es_Targets (Stages ep)) ≡ₚ map tgt_Name targets) /\
  (forall w, w ∈ sched_OffHours (spec_Schedule (plan_Spec plan)) ->
    (exists v, window_ok w v) \/
    same_minute w /\ ParseWindowToCron (Start w) (Stop w) (DaysOfWeek w) = Err (ErrSameTimes (Start w) (Stop w))).
Proof.
  intros H. unfold ValidateCreate_plan, validate_plan in H. apply bind_Some in H as (serrs & Hs & H).
  injection H as H. apply app_nil in H as [Hsched H]. apply app_nil in H as [Htgt ->].
  apply targets_errors_nil in Htgt as [Hnd Hpar]. split; [done|]. split.
  { intros t Ht. destruct (Hpar t Ht) as [_ Hp]. unfold target_errors. destruct (tgt_Parameters t); [|done].
    by case_match. }
  split.
  - intros reverse. unfold validateStrategy in Hs. unfold buildExecutionPlan.
    destruct (strat_Type _) eqn:Et; [| | | |done].
    + eexists. split; [done|]. rewrite PlanSequential_targets. apply ReverseIf_perm.
    + eexists. split; [done|]. cbn. rewrite app_nil_r. apply ReverseIf_perm.
    + destruct (validateDAG_result (map tgt_Name (spec_Targets (plan_Spec plan))) (strat_Dependencies (spec_Execution (plan_Spec plan))))
        as (errs & He & Hiff).
      rewrite He in Hs. injection Hs as ->. destruct (proj1 Hiff eq_refl) as [Hok Hac].
      destruct (PlanDAG_admitted _ _ (default 0 (strat_MaxConcurrency (spec_Execution (plan_Spec plan)))) reverse Hnd Hok Hac) as [ep Hep].
      exists ep. rewrite Hep. split; [done|]. by eapply PlanDAG_perm.
    + injection Hs as Hs. apply validateStaged_nil in Hs as [Hs _]; [|done]. eexists. split; [done|].
      rewrite PlanStaged_targets. rewrite <- Hs. apply concat_perm.
      rewrite (fmap_Permutation stage_Targets _ _ (ReverseIf_perm reverse _)). by rewrite map_map.
  - intros w Hw. destruct (proj2 (admitted_windows plan Hsched) w Hw) as [Hdays [Hv|Hsame] ]; [by left|right].
    split; [done|]. destruct Hsame as (_ & h & m & H1 & H2). unfold ParseWindowToCron. rewrite H1, H2. cbn.
    rewrite !Z.eqb_refl. by destruct (DaysOfWeek w).
Qed.
End admitted.

(** ** Plans to evaluate the admission webhook on *)

Module PlanWebhookSamples.
Import StateSamples.

(** Map iteration in the order of the keys, and in the opposite one. *)
#[export] Instance in_order : MapOrder := {| map_order l := l; map_order_perm l := Permutation_refl l |}.
#[export] Instance in_reverse : MapOrder | 10 :=
  {| map_order l := rev l; map_order_perm l := symmetry (Permutation_rev l) |}.

Definition server : Target := mkTarget "app" "ec2" connector None.
Definition nights : OffHourWindow := mkWindow "20:00" "06:00" ["MON"; "tue"].
Definition one_minute : OffHourWindow := mkWindow "8:00" "08:00" ["SUN"].

Definition admissible (windows : list OffHourWindow) (deps : list ApiDependency) : HibernatePlan :=
  plan (mkSpec (Types.mkSchedule "UTC" windows) (mkStrategy StrategyDAG (Some 2) deps []) strict false [db; server])
    ∅ (status PhaseActive OperationUnset [] 0).

Definition sound_plan : HibernatePlan := admissible [nights; one_minute] [mkApiDependency "db" "app"].

Example sound_plan_admitted : ValidateCreate_plan sound_plan = Some [].
Proof. vm_compute. reflexivity. Qed.

(** The window of one minute, which the evaluator refuses. *)
Example one_minute_refused : ParseWindowToCron "8:00" "08:00" ["SUN"] = Err (ErrSameTimes "8:00" "08:00").
Proof. vm_compute. reflexivity. Qed.

(** A cycle is refused, in every order of the maps. *)
Definition cyclic_plan : HibernatePlan :=
  admissible [nights] [mkApiDependency "db" "app"; mkApiDependency "app" "db"].

Example cyclic_plan_refused :
  map fe_Type <$> ValidateCreate_plan (HM := in_order) cyclic_plan = Some [FieldInvalid] /\
  map fe_Path <$> ValidateCreate_plan (HM := in_reverse) cyclic_plan = Some ["spec.execution.strategy.dependencies"].
Proof. vm_compute. done. Qed.

(** The targets of a plan that hibernates are locked. *)
Example targets_locked :
  ValidateUpdate_plan false (plan (spec dag strict) ∅ (status PhaseHibernating OperationHibernate [] 0)) sound_plan =
  Some [mkFieldError FieldForbidden "spec.targets"].
Proof. vm_compute. reflexivity. Qed.
End PlanWebhookSamples.

Import StateSamples PlanWebhookSamples.

Lemma admitted_plan_executes_witness :
  NoDup ["db"; "app"] /\
  exists ep, buildExecutionPlan sound_plan false = Ok ep /\ concat (map es_Targets (Stages ep)) ≡ₚ ["db"; "app"].
Proof.
  destruct (admitted_plan_executes sound_plan sound_plan_admitted) as (H1 & _ & H3 & _).
  split; [exact H1|exact (H3 false)].
Defined.
