(* ===== verification/ExceptionWebhook.v ===== *)
(** * The admission webhook of schedule exceptions ([internal/validationwebhook])

    [ScheduleExceptionValidator]: the errors it finds in an exception, those that
    need the plan and the other exceptions included.  The texts of the errors and
    the warnings are left out. *)
From S2P Require Import Prelude Monad GoString GoTime Windows Types Cluster Restore World Execution.
From S2P Require Import PlanWebhook.

Local Open Scope Z_scope.

(** ** Collisions of windows ([types.go]) *)

(** [time.Parse] with the layout [15:04]: one or two digits, and two. *)
Definition parse_15_04 (t : string) : option (Z * Z) :=
  let minutes h s :=
    match s with
    | String ":" (String m1 (String m2 EmptyString)) =>
        d1 ← digit_value m1; d2 ← digit_value m2;
        if (24 <=? h) || (60 <=? 10 * d1 + d2) then None else Some (h, 10 * d1 + d2)
    | _ => None
    end in
  match t with
  | String c s =>
      d1 ← digit_value c;
      match s with
      | String c' s' =>
          match digit_value c' with
          | Some d2 => minutes (10 * d1 + d2) s'
          | None => minutes d1 s
          end
      | EmptyString => None
      end
  | EmptyString => None
  end.

Definition hhmmToMinutes (t : string) : Z :=
  match parse_15_04 t with
  | Some (h, m) => h * 60 + m
  | None => 0
  end.

(** [timeSpan]s. *)
Definition expandTimeRange (start stop : string) : list (Z * Z) :=
  let s := hhmmToMinutes start in
  let e := hhmmToMinutes stop in
  if s <? e then [(s, e)]
  else if s =? e then []
  else [(s, 1440); (0, e)].

Definition timeRangesOverlap (startA endA startB endB : string) : bool :=
  existsb (fun sa : Z * Z => existsb (fun sb : Z * Z => (sa.1 <? sb.2) && (sb.1 <? sa.2)) (expandTimeRange startB endB))
    (expandTimeRange startA endA).

Definition windowPairCollides (a b : OffHourWindow) : bool :=
  existsb (fun d => bool_decide (d ∈ DaysOfWeek a)) (DaysOfWeek b) &&
  timeRangesOverlap (Start a) (Stop a) (Start b) (Stop b).

Definition windowsCollide (a b : list OffHourWindow) : bool :=
  existsb (fun wa => existsb (windowPairCollides wa) b) a.

Definition isAllowedTypePair (a b : ExceptionKind) : bool :=
  match a, b with
  | KindExtend, KindSuspend | KindSuspend, KindExtend
  | KindReplace, KindExtend | KindExtend, KindReplace
  | KindReplace, KindSuspend | KindSuspend, KindReplace => true
  | _, _ => false
  end.

(** ** Fields *)

Definition validate_exc_window (i : nat) (w : OffHourWindow) : list FieldError :=
  let path := Index "spec.windows" i in
  err_if (negb (timeRegex (Start w))) FieldInvalid (Child path "start") ++
  err_if (negb (timeRegex (Stop w))) FieldInvalid (Child path "end") ++
  err_if (bool_decide (DaysOfWeek w = [])) FieldRequired (Child path "daysOfWeek") ++
  concat (imap (fun j day => err_if (negb (validDays day)) FieldInvalid (Index (Child path "daysOfWeek") j))
    (DaysOfWeek w)).

Definition validateWindows (exception : ScheduleException) : list FieldError :=
  match se_Windows exception with
  | [] => [mkFieldError FieldRequired "spec.windows"]
  | windows => concat (imap validate_exc_window windows)
  end.

Definition maxDuration : Z := 90 * 24 * Hour.

Definition validateTimeRange (exception : ScheduleException) : list FieldError :=
  err_if (negb (Before (se_ValidFrom exception) (se_ValidUntil exception))) FieldInvalid "spec.validUntil" ++
  err_if (maxDuration <? Sub (se_ValidUntil exception) (se_ValidFrom exception)) FieldInvalid "spec.validUntil".

Definition validateTypeSpecificFields (exception : ScheduleException) : list FieldError :=
  let lead := se_LeadTime exception in
  err_if (negb (lead =? "")%string && negb (bool_decide (se_Type exception = KindSuspend)))
    FieldInvalid "spec.leadTime" ++
  err_if (negb (lead =? "")%string && match ParseDuration lead with Ok _ => false | _ => true end)
    FieldInvalid "spec.leadTime".

(** ** Comparisons of overrides *)

Definition ptrEqual (a b : option Z) : bool :=
  match a, b with
  | None, None => true
  | Some x, Some y => x =? y
  | _, _ => false
  end.

Definition parametersEqual (a b : option string) : bool :=
  match a, b with
  | None, None => true
  | Some x, Some y => (x =? y)%string
  | _, _ => false
  end.

Definition dependency_equal (a b : ApiDependency) : bool :=
  (dep_From a =? dep_From b)%string && (dep_To a =? dep_To b)%string.

Definition stage_equal (a b : ApiStage) : bool :=
  (astage_Name a =? astage_Name b)%string && Bool.eqb (astage_Parallel a) (astage_Parallel b) &&
  ptrEqual (astage_MaxConcurrency a) (astage_MaxConcurrency b) &&
  EqualFunc String.eqb (astage_Targets a) (astage_Targets b).

Definition executionStrategyEqual (a b : option ExecutionStrategy) : bool :=
  match a, b with
  | None, None => true
  | Some x, Some y =>
      bool_decide (strat_Type x = strat_Type y) && ptrEqual (strat_MaxConcurrency x) (strat_MaxConcurrency y) &&
      EqualFunc dependency_equal (strat_Dependencies x) (strat_Dependencies y) &&
      EqualFunc stage_equal (strat_Stages x) (strat_Stages y)
  | _, _ => false
  end.

Definition behaviorEqual (a b : option Behavior) : bool :=
  match a, b with
  | None, None => true
  | Some x, Some y =>
      bool_decide (beh_Mode x = beh_Mode y) && Bool.eqb (beh_FailFast x) (beh_FailFast y) &&
      ptrEqual (beh_Retries x) (beh_Retries y)
  | _, _ => false
  end.

Definition override_equal (a b : TargetOverride) : bool :=
  (to_TargetName a =? to_TargetName b)%string && Bool.eqb (to_Disabled a) (to_Disabled b) &&
  parametersEqual (to_Parameters a) (to_Parameters b).

Definition overrideFieldsChanged (old new : ScheduleException) : bool :=
  negb (EqualFunc override_equal (se_TargetOverrides old) (se_TargetOverrides new)) ||
  match se_ExecutionOverride old, se_ExecutionOverride new with
  | None, None => false
  | Some x, Some y =>
      negb (executionStrategyEqual (eo_Strategy x) (eo_Strategy y)) || negb (behaviorEqual (eo_Behavior x) (eo_Behavior y))
  | _, _ => true
  end.

(** ** Against the plan and the other exceptions *)

(** The client of the webhook: reads of a plan and of the exceptions that have the
    label of a plan. *)
Class ExceptionReader := {
  Reader : Type;
  rd_exceptions : Reader -> list ScheduleException;
  rd_get_plan (ns name : string) : Reader -> (ApiError + HibernatePlan) * Reader;
  rd_list (ns plan : string) : Reader -> (ApiError + list ScheduleException) * Reader;
}.

(** A list is the exceptions with the label, in some order; reads change nothing. *)
Class ReaderLaws {HR : ExceptionReader} : Prop := {
  rd_get_plan_exceptions ns name s : rd_exceptions (rd_get_plan ns name s).2 = rd_exceptions s;
  rd_list_exceptions ns plan s : rd_exceptions (rd_list ns plan s).2 = rd_exceptions s;
  rd_list_ok ns plan s l : (rd_list ns plan s).1 = inr l ->
    l ≡ₚ filter (fun e => se_Namespace e = ns /\ se_Labels e !! LabelPlan = Some plan) (rd_exceptions s);
}.

(** Why a request is refused without a list of errors. *)
Inductive BlockError :=
| BlockFetch (e : ApiError)
| BlockMidCycle (phase : PlanPhase).

(** The namespace of the plan that is referred to. *)
Definition targetNamespace (exception : ScheduleException) : string :=
  if (se_PlanRefNamespace exception =? "")%string then se_Namespace exception else se_PlanRefNamespace exception.

Definition same_key (a b : ScheduleException) : bool :=
  (se_Namespace a =? se_Namespace b)%string && (se_Name a =? se_Name b)%string.

(** Neither expired nor detached. *)
Definition unfinished (e : ScheduleException) : bool :=
  negb (bool_decide (se_State e = ExceptionStateExpired)) && negb (bool_decide (se_State e = ExceptionStateDetached)).

Definition validities_overlap (a b : ScheduleException) : bool :=
  Before (se_ValidFrom a) (se_ValidUntil b) && Before (se_ValidFrom b) (se_ValidUntil a).

Definition has_overrides (e : ScheduleException) : bool :=
  negb (bool_decide (se_TargetOverrides e = [])) || bool_decide (is_Some (se_ExecutionOverride e)).

(** The exceptions that a new one may conflict with. *)
Definition rival (exception existing : ScheduleException) : bool :=
  negb (same_key existing exception) && unfinished existing && validities_overlap exception existing.

(** The loop of [validateNoOverlappingExceptions], which ends at the first conflict. *)
Fixpoint overlap_errors (exception : ScheduleException) (l : list ScheduleException) : list FieldError :=
  match l with
  | [] => []
  | existing :: l' =>
      if negb (rival exception existing) then overlap_errors exception l'
      else if negb (windowsCollide (se_Windows exception) (se_Windows existing)) then overlap_errors exception l'
      else if bool_decide (se_Type exception = se_Type existing) then [mkFieldError FieldForbidden "spec.planRef.name"]
      else if negb (isAllowedTypePair (se_Type exception) (se_Type existing))
      then [mkFieldError FieldForbidden "spec.planRef.name"]
      else overlap_errors exception l'
  end.

(** [hasDependencyOn]. *)
Definition hasDependencyOn (plan : HibernatePlan) (targetName : string) : bool :=
  let strategy := spec_Execution (plan_Spec plan) in
  match strat_Type strategy with
  | StrategyDAG => existsb (fun dep => (dep_From dep =? targetName)%string) (strat_Dependencies strategy)
  | _ => false
  end.

Section validator.
Context {HV : Validator} {HR : ExceptionReader}.

Definition VM (A : Type) : Type := ST Reader BlockError A.

Definition ask_plan (ns name : string) : VM (ApiError + HibernatePlan) := fun s =>
  let '(r, s') := rd_get_plan ns name s in (Ok r, s').
Definition ask_exceptions (ns plan : string) : VM (ApiError + list ScheduleException) := fun s =>
  let '(r, s') := rd_list ns plan s in (Ok r, s').

Definition checkMidCycleBlock (exception : ScheduleException) : VM unit :=
  let! r := ask_plan (se_Namespace exception) (se_PlanRef exception) in
  match r with
  | inl NotFound => st_ret tt
  | inl e => st_throw (BlockFetch e)
  | inr plan =>
      match plan_Phase plan with
      | PhaseHibernating | PhaseWakingUp =>
          if (st_AppliedExceptionOverride (plan_Status plan) =? se_Name exception)%string
          then st_throw (BlockMidCycle (plan_Phase plan)) else st_ret tt
      | _ => st_ret tt
      end
  end.

Definition validatePlanRef (exception : ScheduleException) : VM (list FieldError) :=
  if (se_PlanRef exception =? "")%string then st_ret [mkFieldError FieldRequired "spec.planRef.name"]
  else if negb (targetNamespace exception =? se_Namespace exception)%string
  then st_ret [mkFieldError FieldInvalid "spec.planRef.namespace"]
  else
    let! r := ask_plan (targetNamespace exception) (se_PlanRef exception) in
    st_ret match r with
           | inl NotFound | inr _ => []
           | inl _ => [mkFieldError FieldInternalError "spec.planRef.name"]
           end.

Definition validateNoOverlappingExceptions (exception : ScheduleException) : VM (list FieldError) :=
  let! r := ask_exceptions (targetNamespace exception) (se_PlanRef exception) in
  st_ret match r with
         | inl _ => [mkFieldError FieldInternalError "spec.planRef"]
         | inr l => overlap_errors exception l
         end.

(** An override of a target, against the map from names to the plan's targets. *)
Definition target_override_errors (plan : HibernatePlan) (i : nat) (o : TargetOverride) : list FieldError :=
  let path := Index "spec.targetOverrides" i in
  match List.find (fun t => (tgt_Name t =? to_TargetName o)%string) (rev (spec_Targets (plan_Spec plan))) with
  | None => [mkFieldError FieldNotFound (Child path "targetName")]
  | Some target =>
      match to_Parameters o with
      | Some params =>
          if (params =? "")%string then []
          else map (fun _ => mkFieldError FieldInvalid (Child path "parameters")) (ValidateParams (tgt_Type target) params)
      | None => []
      end ++
      err_if (to_Disabled o && hasDependencyOn plan (to_TargetName o)) FieldInvalid (Child path "disabled")
  end.

(** The second rule: the targets of the plan. *)
Definition target_overrides_errors (exception : ScheduleException) : VM (list FieldError) :=
  match se_TargetOverrides exception with
  | [] => st_ret []
  | overrides =>
      let! r := ask_plan (targetNamespace exception) (se_PlanRef exception) in
      st_ret match r with
             | inl NotFound => []
             | inl _ => [mkFieldError FieldInternalError "spec.planRef"]
             | inr plan => concat (imap (target_override_errors plan) overrides)
             end
  end.

(** The third rule: the type of the strategy. *)
Definition strategy_override_errors (exception : ScheduleException) : list FieldError :=
  match se_ExecutionOverride exception with
  | Some o =>
      match eo_Strategy o with
      | Some s =>
          match strat_Type s with
          | StrategyOther _ => [mkFieldError FieldNotSupported "spec.executionOverride.strategy.type"]
          | _ => []
          end
      | None => []
      end
  | None => []
  end.

(** The fourth rule: one exception with overrides; a failed list is ignored. *)
Definition single_override_errors (exception : ScheduleException) : VM (list FieldError) :=
  if has_overrides exception then
    let! r := ask_exceptions (targetNamespace exception) (se_PlanRef exception) in
    st_ret match r with
           | inl _ => []
           | inr l =>
               err_if (existsb (fun existing => rival exception existing && has_overrides existing) l)
                 FieldForbidden "spec"
           end
  else st_ret [].

Definition validateExecutionOverrides (exception : ScheduleException) : VM (list FieldError) :=
  if bool_decide (se_Type exception = KindSuspend) then
    st_ret (err_if (negb (bool_decide (se_TargetOverrides exception = []))) FieldForbidden "spec.targetOverrides" ++
            err_if (bool_decide (is_Some (se_ExecutionOverride exception))) FieldForbidden "spec.executionOverride")
  else
    let! targetErrs := target_overrides_errors exception in
    let! singleErrs := single_override_errors exception in
    st_ret (targetErrs ++ strategy_override_errors exception ++ singleErrs).

Definition validate_exception (exception : ScheduleException) : VM (list FieldError) :=
  if se_Deleting exception then st_ret []
  else
    let! planErrs := validatePlanRef exception in
    let! activeErrs := validateNoOverlappingExceptions exception in
    let! overrideErrs := validateExecutionOverrides exception in
    st_ret (planErrs ++ validateTimeRange exception ++ validateTypeSpecificFields exception ++
            validateWindows exception ++ activeErrs ++ overrideErrs).

(** The exception is let in when the list is empty. *)
Definition ValidateCreate_exception (exception : ScheduleException) : VM (list FieldError) :=
  validate_exception exception.

Definition ValidateUpdate_exception (old new : ScheduleException) : VM (list FieldError) :=
  if overrideFieldsChanged old new
  then do! checkMidCycleBlock new in validate_exception new
  else validate_exception new.

Definition ValidateDelete_exception (exception : ScheduleException) : VM (list FieldError) :=
  do! checkMidCycleBlock exception in st_ret [].
End validator.
