(* ===== verification/ExceptionWebhookSpec.v ===== *)
(** * What the admission of exceptions guarantees

    Windows collide for the webhook exactly when an instant is in both; and the
    exceptions that it has let in never leave open which override a plan runs
    with. *)
From S2P Require Import Prelude Monad GoString GoTime Windows Types Cluster Restore World Execution StateSamples.
From S2P Require Import PlanWebhook PlanWebhookSpec ExceptionWebhook.
From Stdlib Require Import Lia.

Local Open Scope Z_scope.

(** ** Minutes *)

Lemma hhmm_minutes s h m : hhmm_text s h m -> hhmmToMinutes s = h * 60 + m.
Proof.
  intros (hs & m1 & d1 & m2 & d2 & -> & H1 & H2 & -> & ? & ? & ? & Hh). unfold hhmmToMinutes.
  assert ((24 <=? h) || (60 <=? 10 * d1 + d2) = false) as Hr.
  { apply orb_false_iff. rewrite !Z.leb_gt. lia. }
  destruct Hh as [(a & -> & Ha)|(a & b & da & db & -> & Ha & Hb & ->)]; unfold parse_15_04.
  - change (String a "" ++ ?s)%string with (String a s). cbv beta iota zeta. rewrite Ha. cbn [mbind option_bind].
    change (digit_value ":") with (@None Z). cbn iota beta. rewrite H1. cbn [mbind option_bind].
    rewrite H2. cbn [mbind option_bind]. by rewrite Hr.
  - change (String a (String b "") ++ ?s)%string with (String a (String b s)). cbv beta iota zeta. rewrite Ha. cbn [mbind option_bind].
    rewrite Hb, H1. cbn [mbind option_bind]. rewrite H2. cbn [mbind option_bind]. by rewrite Hr.
Qed.

Lemma hhmm_bounds s h m : hhmm_text s h m -> 0 <= h * 60 + m < 1440.
Proof. intros (? & ? & ? & ? & ? & _ & _ & _ & -> & ? & ? & ? & _). lia. Qed.

(** A part of a day: not empty, or at midnight. *)
Definition segment (p : Z * Z) : Prop := 0 <= p.1 /\ (p.1 < p.2 <= 1440 \/ p = (0, 0)).

Lemma expand_segments start stop h1 m1 h2 m2 : hhmm_text start h1 m1 -> hhmm_text stop h2 m2 ->
  Forall segment (expandTimeRange start stop).
Proof.
  intros H1 H2. unfold expandTimeRange. rewrite (hhmm_minutes _ _ _ H1), (hhmm_minutes _ _ _ H2).
  apply hhmm_bounds in H1, H2. unfold segment.
  destruct (Z.ltb_spec (h1 * 60 + m1) (h2 * 60 + m2)); [repeat constructor; cbn; lia|].
  destruct (Z.eqb_spec (h1 * 60 + m1) (h2 * 60 + m2)); [constructor|].
  constructor; [cbn; lia|]. constructor; [|constructor]. cbn. split; [lia|].
  destruct (Z.eq_dec (h2 * 60 + m2) 0) as [->|]; [by right|left; lia].
Qed.

(** The parts of a window with two different ends are its minutes. *)
Lemma expand_minutes start stop h1 m1 h2 m2 m : hhmm_text start h1 m1 -> hhmm_text stop h2 m2 ->
  h1 * 60 + m1 <> h2 * 60 + m2 -> 0 <= m < 1440 ->
  minutes_in_window (h1 * 60 + m1) (h2 * 60 + m2) m = true <-> exists p, p ∈ expandTimeRange start stop /\ p.1 <= m < p.2.
Proof.
  intros H1 H2 Hne Hm. unfold expandTimeRange. rewrite (hhmm_minutes _ _ _ H1), (hhmm_minutes _ _ _ H2).
  apply hhmm_bounds in H1, H2. unfold minutes_in_window.
  destruct (Z.ltb_spec (h1 * 60 + m1) (h2 * 60 + m2)).
  - rewrite andb_true_iff, Z.leb_le, Z.ltb_lt. split; [intros; eexists; split; [by left|done]|].
    by intros (p & ->%list_elem_of_singleton & Hp).
  - rewrite (proj2 (Z.eqb_neq _ _) Hne), orb_true_iff, Z.leb_le, Z.ltb_lt. split.
    + intros [?|?]; [exists (h1 * 60 + m1, 1440)|exists (0, h2 * 60 + m2)]; (split; [set_solver|cbn; lia]).
    + intros (p & Hp & Hr). apply elem_of_cons in Hp as [->|Hp]; [left; cbn in Hr; lia|].
      apply list_elem_of_singleton in Hp as ->. right. cbn in Hr. lia.
Qed.

Lemma segments_meet p q : segment p -> segment q ->
  p.1 < q.2 /\ q.1 < p.2 <-> exists m, 0 <= m < 1440 /\ p.1 <= m < p.2 /\ q.1 <= m < q.2.
Proof.
  destruct p as [a b], q as [c d]. unfold segment. cbn. intros [? Hp] [? Hq]. split; [|intros (m & ?); lia].
  intros [H1 H2]. exists (Z.max a c). destruct Hp as [?|[= -> ->] ], Hq as [?|[= -> ->] ]; lia.
Qed.

(** ** Windows *)

(** The windows that the webhook lets through, but for one that starts and ends in
    the same minute. *)
Record window_fine (w : OffHourWindow) (h1 m1 h2 m2 : Z) : Prop := {
  fine_start : hhmm_text (Start w) h1 m1;
  fine_stop : hhmm_text (Stop w) h2 m2;
  fine_width : h1 * 60 + m1 <> h2 * 60 + m2;
  fine_days : Forall (fun d => validDays d = true) (DaysOfWeek w);
}.

Lemma timeRangesOverlap_minutes a b h1 m1 h2 m2 h3 m3 h4 m4 :
  window_fine a h1 m1 h2 m2 -> window_fine b h3 m3 h4 m4 ->
  timeRangesOverlap (Start a) (Stop a) (Start b) (Stop b) = true <->
  exists m, 0 <= m < 1440 /\ minutes_in_window (h1 * 60 + m1) (h2 * 60 + m2) m = true /\
    minutes_in_window (h3 * 60 + m3) (h4 * 60 + m4) m = true.
Proof.
  intros [Ha1 Ha2 Ha3 _] [Hb1 Hb2 Hb3 _]. unfold timeRangesOverlap. rewrite existsb_spec. setoid_rewrite existsb_spec.
  pose proof (expand_segments _ _ _ _ _ _ Ha1 Ha2) as Hsa. pose proof (expand_segments _ _ _ _ _ _ Hb1 Hb2) as Hsb.
  rewrite Forall_forall in Hsa, Hsb. split.
  - intros (p & Hp & q & Hq & Hpq).
    apply andb_true_iff in Hpq. rewrite !Z.ltb_lt in Hpq.
    apply segments_meet in Hpq as (m & Hm & Hpm & Hqm); [|auto..].
    exists m. split; [done|]. split; (eapply expand_minutes; [done|done|done|done|eauto]).
  - intros (m & Hm & Hma & Hmb).
    apply (expand_minutes _ _ _ _ _ _ m Ha1 Ha2 Ha3 Hm) in Hma as (p & Hp & Hpm).
    apply (expand_minutes _ _ _ _ _ _ m Hb1 Hb2 Hb3 Hm) in Hmb as (q & Hq & Hqm).
    exists p. split; [done|]. exists q. split; [done|].
    rewrite andb_true_iff, !Z.ltb_lt. apply segments_meet; eauto.
Qed.

Lemma validDays_upper d : validDays d = true -> ToUpper d = d.
Proof.
  unfold validDays. rewrite bool_decide_eq_true, !elem_of_cons.
  by intros [->|[->|[->|[->|[->|[->|[->|[]%not_elem_of_nil] ] ] ] ] ] ].
Qed.

(** A valid day is the name of a weekday. *)
Lemma validDays_weekday d : validDays d = true <-> exists n, 0 <= n <= 6 /\ d = weekday_abbrev n.
Proof.
  split.
  - intros H. pose proof (validDays_upper d H) as Hu. rewrite <- Hu in H.
    apply validDays_number in H as [n Hn]. exists n. unfold dayNumber in Hn. rewrite Hu in Hn. by apply dayMap_abbrev in Hn.
  - intros (n & Hn & ->). by destruct (weekday_cases n Hn) as [-> | [-> | [-> | [-> | [-> | [-> | -> ] ] ] ] ] ].
Qed.

Lemma dayMatch_valid w n : 0 <= n <= 6 -> Forall (fun d => validDays d = true) (DaysOfWeek w) ->
  dayMatch w (weekday_abbrev n) = true <-> weekday_abbrev n ∈ DaysOfWeek w.
Proof.
  intros Hn Hd. rewrite Forall_forall in Hd. rewrite dayMatch_spec by done. split.
  - intros (d & Hdw & Hnum). specialize (Hd d Hdw). unfold dayNumber in Hnum.
    rewrite (validDays_upper d Hd) in Hnum. apply dayMap_abbrev in Hnum as [_ <-]. done.
  - intros H. exists (weekday_abbrev n). split; [done|]. unfold dayNumber.
    rewrite weekday_abbrev_upper by done. by apply dayMap_abbrev.
Qed.

Lemma in_window_fine w h1 m1 h2 m2 now : window_fine w h1 m1 h2 m2 ->
  in_window now w = true <->
  weekday_abbrev (Weekday now) ∈ DaysOfWeek w /\ minutes_in_window (h1 * 60 + m1) (h2 * 60 + m2) (sec_of_day now / 60) = true.
Proof.
  intros [H1 H2 _ Hd]. unfold in_window. rewrite (hhmm_parses _ _ _ H1), (hhmm_parses _ _ _ H2). cbn -[Z.mul Z.add].
  rewrite minute_of_day. pose proof (Weekday_bound now) as Hw.
  rewrite <- (dayMatch_valid w (Weekday now)) by (done || lia).
  destruct (dayMatch w _); cbn [negb]; intuition congruence.
Qed.

(** An instant on a weekday, at a minute of the day. *)
Definition minute_instant (n m : Z) : time := mkTime (((n + 3) mod 7 * 86400 + m * 60) * Second) UTC.

Lemma minute_instant_spec n m : 0 <= n <= 6 -> 0 <= m < 1440 ->
  Weekday (minute_instant n m) = n /\ sec_of_day (minute_instant n m) / 60 = m.
Proof.
  intros Hn Hm. unfold Weekday, civil_day, sec_of_day, minute_instant. rewrite fixed_local_sec by done.
  rewrite Z.div_mul by done. change (loc_first UTC) with 0. rewrite Z.add_0_r.
  assert (((n + 3) mod 7 * 86400 + m * 60) / 86400 = (n + 3) mod 7) as ->.
  { rewrite Z.add_comm, Z.div_add by done. rewrite (Z.div_small (m * 60)) by lia. lia. }
  assert (((n + 3) mod 7 * 86400 + m * 60) mod 86400 = m * 60) as ->.
  { rewrite Z.add_comm, Z.mod_add by done. apply Z.mod_small. lia. }
  split; [|by rewrite Z.div_mul].
  rewrite Zplus_mod_idemp_l. replace (n + 3 + 4) with (n + 1 * 7) by lia. rewrite Z.mod_add by done. apply Z.mod_small. lia.
Qed.

Lemma windowPairCollides_spec a b h1 m1 h2 m2 h3 m3 h4 m4 :
  window_fine a h1 m1 h2 m2 -> window_fine b h3 m3 h4 m4 ->
  windowPairCollides a b = true <-> exists now, in_window now a = true /\ in_window now b = true.
Proof.
  intros Ha Hb. unfold windowPairCollides. rewrite andb_true_iff, existsb_spec, (timeRangesOverlap_minutes a b _ _ _ _ _ _ _ _ Ha Hb).
  setoid_rewrite (fun now => in_window_fine a _ _ _ _ now Ha). setoid_rewrite (fun now => in_window_fine b _ _ _ _ now Hb).
  setoid_rewrite bool_decide_eq_true. split.
  - intros [(d & Hdb & Hda) (m & Hm & Hma & Hmb)].
    pose proof (fine_days _ _ _ _ _ Ha) as Hd. rewrite Forall_forall in Hd.
    destruct (proj1 (validDays_weekday d) (Hd d Hda)) as (n & Hn & ->).
    exists (minute_instant n m). by destruct (minute_instant_spec n m Hn Hm) as [-> ->].
  - intros (now & [Hda Hma] & [Hdb Hmb]). split; [by eexists|].
    exists (sec_of_day now / 60). split; [|done]. pose proof (sec_of_day_bound now).
    split; [apply Z.div_pos; lia|apply Z.div_lt_upper_bound; lia].
Qed.

(** What [validateWindows] leaves of a window that has a width. *)
Lemma validateWindows_fine exc w : validateWindows exc = [] -> w ∈ se_Windows exc ->
  parseTime (Start w) <> parseTime (Stop w) -> exists h1 m1 h2 m2, window_fine w h1 m1 h2 m2.
Proof.
  unfold validateWindows. destruct (se_Windows exc) as [|w0 l] eqn:E; [done|]. rewrite <- E. clear E.
  intros H [i Hi]%list_elem_of_lookup Hne. eapply (proj1 (concat_imap_nil _ _)) in H; [|exact Hi].
  unfold validate_exc_window in H. rewrite !app_nil, !err_if_nil, !negb_false_iff in H.
  destruct H as (H1 & H2 & _ & Hd). apply timeRegex_inv in H1 as (h1 & m1 & H1), H2 as (h2 & m2 & H2).
  exists h1, m1, h2, m2. split; [done|done| |].
  - intros Heq. apply Hne. rewrite (hhmm_parses _ _ _ H1), (hhmm_parses _ _ _ H2).
    destruct H1 as (?&?&?&?&?&_&_&_&->&?&?&?&_), H2 as (?&?&?&?&?&_&_&_&->&?&?&?&_). do 2 f_equal; lia.
  - apply Forall_forall. intros d [j Hj]%list_elem_of_lookup. eapply (proj1 (concat_imap_nil _ _)) in Hd; [|exact Hj].
    by apply err_if_nil, negb_false_iff in Hd.
Qed.

(** Such a window is one that the evaluator accepts. *)
Lemma validateWindows_wf exc w : validateWindows exc = [] -> w ∈ se_Windows exc ->
  parseTime (Start w) <> parseTime (Stop w) -> exists v, window_ok w v.
Proof.
  intros H Hw Hne. destruct (validateWindows_fine exc w H Hw Hne) as (h1 & m1 & h2 & m2 & [H1 H2 Hw' Hd]).
  unfold validateWindows in H. destruct (se_Windows exc) as [|w0 l] eqn:E; [done|]. rewrite <- E in *. clear E.
  apply list_elem_of_lookup in Hw as [i Hi]. eapply (proj1 (concat_imap_nil _ _)) in H; [|exact Hi].
  unfold validate_exc_window in H. rewrite !app_nil, !err_if_nil in H. destruct H as (_ & _ & Hdays & _).
  apply bool_decide_eq_false in Hdays. destruct (mapM_days (DaysOfWeek w)) as [ns Hns].
  { intros d Hin. rewrite Forall_forall in Hd. specialize (Hd d Hin). unfold validDays in Hd.
    apply bool_decide_eq_true in Hd. rewrite !elem_of_cons in Hd.
    destruct Hd as [->|[->|[->|[->|[->|[->|[->|[]%not_elem_of_nil] ] ] ] ] ] ]; by eexists. }
  exists (mkView (h1 * 60 + m1) (h2 * 60 + m2) ns), h1, m1, h2, m2.
  rewrite (hhmm_parses _ _ _ H1), (hhmm_parses _ _ _ H2). split_and!; try done.
  cbn. intros ->. apply mapM_Some in Hns. inversion Hns as [Hnil|]. by rewrite Hnil in Hdays.
Qed.

(** C37: the webhook's test for colliding windows is exact, on windows of two
    exceptions that the webhook accepts, none of them starting and ending in the
    same minute (which the webhook admits, see [whole_day_collides_with_none]): the
    test succeeds just when there is an instant that the schedule evaluator finds in
    the windows of both, overnight windows included. *)
Theorem windowsCollide_exact a b :
  validateWindows a = [] -> validateWindows b = [] ->
  (forall w, w ∈ se_Windows a ++ se_Windows b -> parseTime (Start w) <> parseTime (Stop w)) ->
  windowsCollide (se_Windows a) (se_Windows b) = true <->
  exists now, isInTimeWindows (se_Windows a) now = true /\ isInTimeWindows (se_Windows b) now = true.
Proof.
  intros Ha Hb Hw. unfold windowsCollide, isInTimeWindows. rewrite existsb_spec.
  setoid_rewrite existsb_spec.
  assert (forall wa wb, wa ∈ se_Windows a -> wb ∈ se_Windows b ->
    windowPairCollides wa wb = true <-> exists now, in_window now wa = true /\ in_window now wb = true) as Hp.
  { intros wa wb Hwa Hwb.
    destruct (validateWindows_fine a wa Ha Hwa) as (h1 & m1 & h2 & m2 & Hfa); [apply Hw, elem_of_app; by left|].
    destruct (validateWindows_fine b wb Hb Hwb) as (h3 & m3 & h4 & m4 & Hfb); [apply Hw, elem_of_app; by right|].
    by eapply windowPairCollides_spec. }
  split.
  - intros (wa & Hwa & wb & Hwb & (now & H1 & H2)%Hp); [|done..]. exists now. split; eauto.
  - intros (now & (wa & Hwa & H1) & (wb & Hwb & H2)). exists wa. split; [done|]. exists wb. split; [done|].
    apply Hp; eauto.
Qed.

(** ** Compatible exceptions *)

Lemma windowPairCollides_sym a b : windowPairCollides a b = windowPairCollides b a.
Proof.
  apply eq_true_iff_eq. unfold windowPairCollides, timeRangesOverlap. rewrite !andb_true_iff, !existsb_spec.
  setoid_rewrite existsb_spec. setoid_rewrite bool_decide_eq_true. setoid_rewrite andb_true_iff. naive_solver.
Qed.

Lemma windowsCollide_sym a b : windowsCollide a b = windowsCollide b a.
Proof.
  apply eq_true_iff_eq. unfold windowsCollide. rewrite !existsb_spec. setoid_rewrite existsb_spec.
  setoid_rewrite (windowPairCollides_sym) at 1. naive_solver.
Qed.

Lemma isAllowedTypePair_sym a b : isAllowedTypePair a b = isAllowedTypePair b a.
Proof. by destruct a, b. Qed.

(** When their periods of validity overlap, their windows do not collide or their
    types compose; and only one has overrides. *)
Definition compatible (a b : ScheduleException) : Prop :=
  validities_overlap a b = true ->
  (windowsCollide (se_Windows a) (se_Windows b) = true -> isAllowedTypePair (se_Type a) (se_Type b) = true) /\
  ~ (has_overrides a = true /\ has_overrides b = true).

#[export] Instance compatible_symmetric : Symmetric compatible.
Proof.
  intros a b H. unfold compatible, validities_overlap in *.
  rewrite andb_comm, windowsCollide_sym, isAllowedTypePair_sym. naive_solver.
Qed.

Lemma overlap_errors_nil exc l : overlap_errors exc l = [] ->
  forall e, e ∈ l -> rival exc e = true -> windowsCollide (se_Windows exc) (se_Windows e) = true ->
  isAllowedTypePair (se_Type exc) (se_Type e) = true.
Proof.
  induction l as [|x l IH]; cbn [overlap_errors]; [set_solver|]. intros H e He Hr Hc.
  apply elem_of_cons in He as [->|He].
  - rewrite Hr, Hc in H. cbn [negb] in H. destruct (bool_decide _); [done|].
    by destruct (isAllowedTypePair _ _).
  - destruct (negb (rival exc x)); [by apply IH|]. destruct (negb (windowsCollide _ _)); [by apply IH|].
    destruct (bool_decide _); [done|]. destruct (negb _); [done|]. by apply IH.
Qed.

(** ** Admission *)

Section admission.
Context {HV : Validator} {HR : ExceptionReader} {HL : ReaderLaws}.

(** The exceptions of the plan of [exc], as their labels say. *)
Definition listed (exc : ScheduleException) (s : Reader) (e : ScheduleException) : Prop :=
  e ∈ rd_exceptions s /\ se_Namespace e = targetNamespace exc /\ se_Labels e !! LabelPlan = Some (se_PlanRef exc).

(** Lists are answered; the fourth rule would overlook one that fails. *)
Definition lists_answered : Prop := forall ns plan s, exists l, (rd_list ns plan s).1 = inr l.

(** A computation that reads only, and returns errors of which none means [P]. *)
Definition checks (m : VM (list FieldError)) (P : Reader -> Prop) : Prop := forall s,
  exists errs s', m s = (Ok errs, s') /\ rd_exceptions s' = rd_exceptions s /\ (errs = [] -> P s).

Lemma checks_ret errs (P : Reader -> Prop) : (errs = [] -> forall s, P s) -> checks (st_ret errs) P.
Proof. intros H s. exists errs, s. auto. Qed.

Lemma checks_ask_plan ns name f (P : Reader -> Prop) :
  (forall r, f r = [] -> forall s, P s) -> checks (let! r := ask_plan ns name in st_ret (f r)) P.
Proof.
  intros H s. unfold st_bind, ask_plan. pose proof (rd_get_plan_exceptions ns name s) as He.
  destruct (rd_get_plan ns name s) as [r s']. eexists _, _. split; [done|]. split; [done|]. eauto.
Qed.

Lemma checks_ask_exceptions ns plan f (P : Reader -> Prop) :
  (forall s, f (rd_list ns plan s).1 = [] -> P s) -> checks (let! r := ask_exceptions ns plan in st_ret (f r)) P.
Proof.
  intros H s. unfold st_bind, ask_exceptions. specialize (H s). pose proof (rd_list_exceptions ns plan s) as He.
  destruct (rd_list ns plan s) as [r s']. eexists _, _. split; [done|]. split; [done|]. exact H.
Qed.

Lemma rd_list_listed exc s l e : (rd_list (targetNamespace exc) (se_PlanRef exc) s).1 = inr l -> listed exc s e -> e ∈ l.
Proof. intros H (H1 & H2 & H3). apply rd_list_ok in H. rewrite H. by apply list_elem_of_filter. Qed.

Lemma validatePlanRef_checks exc : checks (validatePlanRef exc) (fun _ => targetNamespace exc = se_Namespace exc).
Proof.
  unfold validatePlanRef. destruct (_ =? "")%string; [by apply checks_ret|].
  destruct (String.eqb_spec (targetNamespace exc) (se_Namespace exc)); [|by apply checks_ret].
  by apply checks_ask_plan.
Qed.

Lemma no_overlap_checks exc : checks (validateNoOverlappingExceptions exc) (fun s => forall e, listed exc s e ->
  rival exc e = true -> windowsCollide (se_Windows exc) (se_Windows e) = true ->
  isAllowedTypePair (se_Type exc) (se_Type e) = true).
Proof.
  apply checks_ask_exceptions. intros s. destruct (rd_list _ _ s).1 as [e0|l] eqn:El; [done|]. intros Hn e He.
  apply (overlap_errors_nil exc l Hn). by eapply rd_list_listed.
Qed.

Lemma single_override_checks exc : lists_answered -> checks (single_override_errors exc) (fun s => forall e, listed exc s e ->
  rival exc e = true -> ~ (has_overrides exc = true /\ has_overrides e = true)).
Proof.
  intros Ha. unfold single_override_errors. destruct (has_overrides exc); [|apply checks_ret; naive_solver].
  apply checks_ask_exceptions. intros s. destruct (Ha (targetNamespace exc) (se_PlanRef exc) s) as [l El]. rewrite El.
  intros Hn e He Hr [_ Ho]. apply err_if_nil in Hn. apply not_true_iff_false in Hn. apply Hn, existsb_spec. exists e.
  split; [by eapply rd_list_listed|]. by rewrite Hr, Ho.
Qed.

Lemma target_overrides_checks exc : checks (target_overrides_errors exc) (fun _ => True).
Proof.
  unfold target_overrides_errors. destruct (se_TargetOverrides exc); [by apply checks_ret|]. by apply checks_ask_plan.
Qed.

Lemma listed_eq exc s s' e : rd_exceptions s' = rd_exceptions s -> listed exc s' e <-> listed exc s e.
Proof. unfold listed. by intros ->. Qed.

Lemma overrides_checks exc : lists_answered -> checks (validateExecutionOverrides exc) (fun s => forall e, listed exc s e ->
  rival exc e = true -> ~ (has_overrides exc = true /\ has_overrides e = true)).
Proof.
  intros Ha. unfold validateExecutionOverrides. destruct (bool_decide (se_Type exc = KindSuspend)).
  - apply checks_ret. rewrite app_nil, !err_if_nil. intros [H1 H2] s e _ _ [Ho _].
    unfold has_overrides in Ho. by rewrite H1, H2 in Ho.
  - intros s. destruct (target_overrides_checks exc s) as (errs1 & s1 & E1 & Hs1 & _).
    destruct (single_override_checks exc Ha s1) as (errs2 & s2 & E2 & Hs2 & H2).
    unfold st_bind. rewrite E1, E2. eexists _, _. split; [done|]. split; [congruence|].
    rewrite !app_nil. intros (_ & _ & Hn) e He. apply (H2 Hn). by rewrite listed_eq.
Qed.

(** An exception that is let in is compatible with its rivals. *)
Lemma validate_compatible exc s s' : lists_answered -> validate_exception exc s = (Ok [], s') -> se_Deleting exc = false ->
  targetNamespace exc = se_Namespace exc /\
  forall e, listed exc s e -> same_key e exc = false -> unfinished e = true -> compatible exc e.
Proof.
  intros Ha H Hd. unfold validate_exception in H. rewrite Hd in H.
  destruct (validatePlanRef_checks exc s) as (errs1 & s1 & E1 & Hs1 & H1).
  destruct (no_overlap_checks exc s1) as (errs2 & s2 & E2 & Hs2 & H2).
  destruct (overrides_checks exc Ha s2) as (errs3 & s3 & E3 & Hs3 & H3).
  unfold st_bind in H. rewrite E1, E2, E3 in H. injection H as H _. rewrite !app_nil in H.
  destruct H as (-> & _ & _ & _ & -> & ->). split; [auto|]. intros e He Hk Hu Ho.
  assert (rival exc e = true) as Hr by (unfold rival; by rewrite Hk, Hu, Ho).
  split; [apply (H2 eq_refl)|apply (H3 eq_refl)]; try done; apply (listed_eq exc s); try done; congruence.
Qed.

(** ** Histories *)

(** The label that the exception's lifecycle sets. *)
Definition labelled (e : ScheduleException) : Prop := se_Labels e !! LabelPlan = Some (se_PlanRef e).

Definition live (e : ScheduleException) : bool := unfinished e && negb (se_Deleting e).

Definition same_plan (a b : ScheduleException) : Prop := se_Namespace a = se_Namespace b /\ se_PlanRef a = se_PlanRef b.

(** A change of status, or the start of the deletion; what was not live stays so. *)
Record carried_on (e e' : ScheduleException) : Prop := {
  carried_key : se_Name e' = se_Name e /\ se_Namespace e' = se_Namespace e;
  carried_plan : se_PlanRef e' = se_PlanRef e /\ se_Labels e' = se_Labels e;
  carried_period : se_ValidFrom e' = se_ValidFrom e /\ se_ValidUntil e' = se_ValidUntil e;
  carried_windows : se_Type e' = se_Type e /\ se_Windows e' = se_Windows e;
  carried_overrides : se_TargetOverrides e' = se_TargetOverrides e /\ se_ExecutionOverride e' = se_ExecutionOverride e;
  carried_live : live e' = true -> live e = true;
}.

(** The exceptions that the API server can hold: each was let in by the webhook,
    which saw all others with their labels, and so was each later version. *)
Inductive exc_history : list ScheduleException -> Prop :=
| eh_nil : exc_history []
| eh_create l exc s s' : exc_history l -> rd_exceptions s = l ->
    Forall (fun e => same_key e exc = false) l -> labelled exc -> se_Deleting exc = false ->
    ValidateCreate_exception exc s = (Ok [], s') -> exc_history (exc :: l)
| eh_update l1 old l2 new s s' : exc_history (l1 ++ old :: l2) -> rd_exceptions s = l1 ++ old :: l2 ->
    same_key old new = true -> labelled new -> se_Deleting new = se_Deleting old ->
    ValidateUpdate_exception old new s = (Ok [], s') -> exc_history (l1 ++ new :: l2)
| eh_remove l1 e l2 : exc_history (l1 ++ e :: l2) -> exc_history (l1 ++ l2)
| eh_carry l l' : exc_history l -> Forall2 carried_on l l' -> exc_history l'.

Definition agree (a b : ScheduleException) : Prop :=
  same_key a b = false /\ (same_plan a b -> live a = true -> live b = true -> compatible a b).

Lemma same_key_eq a b : same_key a b = true <-> se_Namespace a = se_Namespace b /\ se_Name a = se_Name b.
Proof. unfold same_key. by rewrite andb_true_iff, !String.eqb_eq. Qed.

Lemma same_key_sym a b : same_key a b = same_key b a.
Proof. apply eq_true_iff_eq. rewrite !same_key_eq. naive_solver. Qed.

#[local] Instance agree_symmetric : Symmetric agree.
Proof.
  intros a b [H1 H2]. split; [by rewrite same_key_sym|]. intros [Hp1 Hp2] Ha Hb. symmetry. by apply H2.
Qed.

Lemma pairs_perm {A} (R : A -> A -> Prop) `{!Symmetric R} l k : l ≡ₚ k -> ForallOrdPairs R l -> ForallOrdPairs R k.
Proof.
  induction 1 as [|x l k Hp IH|x y l|l k m _ IH1 _ IH2]; [done| | |auto].
  - inversion 1; subst. constructor; [by rewrite <- Hp|auto].
  - inversion 1 as [|? ? Hy Hl]; subst. inversion Hy; subst. inversion Hl; subst.
    constructor; [constructor; [by symmetry|done]|]. by constructor.
Qed.

Lemma agree_carried a a' b b' : agree a b -> carried_on a a' -> carried_on b b' -> agree a' b'.
Proof.
  intros [H1 H2] [ [An1 An2] [Ap1 _] [Av1 Av2] [At Aw] [Ao1 Ao2] Al] [ [Bn1 Bn2] [Bp1 _] [Bv1 Bv2] [Bt Bw] [Bo1 Bo2] Bl].
  split; [by unfold same_key in *; congruence|]. intros [P1 P2] La Lb.
  specialize (H2 ltac:(split; congruence) (Al La) (Bl Lb)). unfold compatible, validities_overlap, has_overrides in *.
  by rewrite Av1, Av2, Bv1, Bv2, Aw, At, Bt, Bw, Ao1, Ao2, Bo1, Bo2.
Qed.

Lemma pairs_carried l l' : Forall2 carried_on l l' -> ForallOrdPairs agree l -> ForallOrdPairs agree l'.
Proof.
  induction 1 as [|a a' l l' Ha Hl IH]; [done|]. intros H. inversion H as [|? ? Hx Hp]; subst. constructor; [|auto].
  clear IH Hp H. revert Hx. induction Hl as [|b b' l l' Hb _ IH]; [done|]. inversion 1; subst.
  constructor; [by eapply agree_carried|auto].
Qed.

(** A new version agrees with the exceptions under other names. *)
Lemma let_in_agrees l exc s s' : lists_answered -> (forall e, e ∈ l -> e ∈ rd_exceptions s) -> Forall labelled l ->
  Forall (fun e => same_key e exc = false) l -> (se_Deleting exc = false -> validate_exception exc s = (Ok [], s')) ->
  Forall (agree exc) l.
Proof.
  intros Ha Hs Hlab Hkey Hv. rewrite !Forall_forall in *. intros e He. split; [rewrite same_key_sym; auto|].
  intros [Hns Hpl] Hle Hlx. unfold live in Hle, Hlx. apply andb_true_iff in Hle as [_ Hd], Hlx as [Hu _].
  apply negb_true_iff in Hd. destruct (validate_compatible exc s s' Ha (Hv Hd) Hd) as [Ht Hc].
  apply Hc; auto. split; [auto|]. split; [congruence|]. rewrite Hpl. by apply Hlab.
Qed.

Lemma exc_history_agrees l : lists_answered -> exc_history l -> Forall labelled l /\ ForallOrdPairs agree l.
Proof.
  intros Ha. induction 1 as [|l exc s s' _ [IHl IHp] Hs Hk Hlab Hd Hv|l1 old l2 new s s' _ [IHl IHp] Hs Hk Hlab Hd Hv
    |l1 e l2 _ [IHl IHp]|l l' _ [IHl IHp] Hc].
  - split; constructor.
  - split; [by constructor|]. constructor; [|done]. eapply let_in_agrees; try done. by rewrite Hs.
  - rewrite <- (Permutation_middle l1 l2 old) in IHl. apply (pairs_perm _ _ _ (symmetry (Permutation_middle l1 l2 old))) in IHp.
    inversion IHl as [|? ? _ Hl]; subst. inversion IHp as [|? ? Hold Hp]; subst.
    split; [rewrite <- (Permutation_middle l1 l2 new); by constructor|].
    apply (pairs_perm _ _ _ (Permutation_middle l1 l2 new)). constructor; [|done].
    apply (let_in_agrees _ new (if overrideFieldsChanged old new then (checkMidCycleBlock new s).2 else s) s'); try done.
    + intros e He. assert (e ∈ rd_exceptions s) as Hes by (rewrite Hs; set_solver). destruct (overrideFieldsChanged old new); [|done].
      unfold checkMidCycleBlock, st_bind, ask_plan. pose proof (rd_get_plan_exceptions (se_Namespace new) (se_PlanRef new) s) as He'.
      destruct (rd_get_plan _ _ s) as [ [ [| |]|p] s1]; cbn in *; repeat case_match; cbn; by rewrite He'.
    + eapply Forall_impl; [exact Hold|]. intros e [He _]. apply same_key_eq in Hk as [Hk1 Hk2].
      rewrite same_key_sym in He. unfold same_key in *. by rewrite <- Hk1, <- Hk2.
    + intros Hn. unfold ValidateUpdate_exception in Hv. destruct (overrideFieldsChanged old new); [|done].
      unfold st_bind in Hv. destruct (checkMidCycleBlock new s) as [ [ [] | | | ] s1]; done.
  - rewrite <- (Permutation_middle l1 l2 e) in IHl. apply (pairs_perm _ _ _ (symmetry (Permutation_middle l1 l2 e))) in IHp.
    inversion IHl; subst. by inversion IHp.
  - split; [|by eapply pairs_carried]. clear IHp Ha. induction Hc as [|e e' l l' [ _ [H1 H2] _ _ _ _] _ IH]; [done|].
    inversion IHl; subst. constructor; [|auto]. unfold labelled. by rewrite H1, H2.
Qed.

(** ** The override of a plan *)

Lemma candidate_live now e : override_candidate now e = true -> live e = true /\ has_overrides e = true /\
  Before (se_ValidFrom e) now = true /\ Before now (se_ValidUntil e) = true.
Proof.
  unfold override_candidate, live, unfinished, has_overrides. rewrite !andb_true_iff, bool_decide_eq_true.
  intros [ [ [ [-> _] [? ?] ] ?] ?]. by split_and!.
Qed.

(** Two exceptions that agree are not both candidates. *)
Lemma candidates_exclusive now a b : agree a b -> same_plan a b ->
  override_candidate now a = true -> override_candidate now b = true -> False.
Proof.
  intros [_ H] Hp (La & Oa & Fa & Ua)%candidate_live (Lb & Ob & Fb & Ub)%candidate_live.
  unfold Before in *. rewrite Z.ltb_lt in *. destruct (H Hp La Lb) as [_ Hn].
  - unfold validities_overlap, Before. rewrite andb_true_iff, !Z.ltb_lt. lia.
  - by apply Hn.
Qed.

(** The search only looks at the candidates. *)
Lemma find_override_filter now l r :
  fold_left (fun result exc =>
    if override_candidate now exc then
      match result with
      | None => Some exc
      | Some r => if After (se_CreationTimestamp exc) (se_CreationTimestamp r) then Some exc else result
      end
    else result) l r =
  fold_left (fun result exc =>
    match result with
    | None => Some exc
    | Some r => if After (se_CreationTimestamp exc) (se_CreationTimestamp r) then Some exc else result
    end) (filter (fun e => override_candidate now e = true) l) r.
Proof.
  revert r. induction l as [|e l IH]; intros r; [done|]. cbn [fold_left]. rewrite filter_cons.
  destruct (override_candidate now e); [|exact (IH _)]. rewrite decide_True by done. cbn [fold_left]. exact (IH _).
Qed.

Lemma candidates_at_most_one now l : ForallOrdPairs agree l ->
  (forall a b, a ∈ l -> b ∈ l -> same_plan a b) ->
  (length (filter (fun e => override_candidate now e = true) l) <= 1)%nat.
Proof.
  intros Hp Hs. induction Hp as [|e l He Hl IH]; [cbn; lia|]. rewrite filter_cons. case_decide as Hc.
  - cbn. destruct (filter _ l) as [|x k] eqn:Ef; [done|]. exfalso.
    assert (x ∈ l /\ override_candidate now x = true) as [Hx Hcx].
    { assert (x ∈ filter (fun e => override_candidate now e = true) l) as Hx by (rewrite Ef; by left).
      apply list_elem_of_filter in Hx. naive_solver. }
    rewrite Forall_forall in He. eapply (candidates_exclusive now e x); [by apply He| |done|done].
    apply Hs; [by left|by right].
  - apply IH. intros a b ? ?. apply Hs; by right.
Qed.

Lemma pairs_filter {A} (R : A -> A -> Prop) (P : A -> Prop) `{!forall x, Decision (P x)} l :
  ForallOrdPairs R l -> ForallOrdPairs R (filter P l).
Proof.
  induction 1 as [|x l Hx _ IH]; [constructor|]. rewrite filter_cons. case_decide; [|done].
  constructor; [|done]. rewrite Forall_forall in *. intros y [_ Hy]%list_elem_of_filter. auto.
Qed.

(** The exceptions that the provider fetches for a plan. *)
Definition of_plan (plan : HibernatePlan) (e : ScheduleException) : Prop :=
  se_Namespace e = plan_Namespace plan /\ se_PlanRef e = plan_Name plan.

(** C18: the override of a cycle is never ambiguous. Suppose that every exception on
    the server, and every later version of it, was let in by the webhook while its
    lists were answered; that each carried the label of its plan when it was
    admitted; and that between the admissions only status changes and deletions
    happen, which do not revive an exception that had ended or was detached. Then
    two live exceptions of one plan whose periods overlap have windows that do not
    collide or types that compose, and not both have overrides; and so at every
    instant the effective plan is the same, in whatever order the exceptions of the
    plan are listed. *)
Theorem override_unambiguous l : lists_answered -> exc_history l ->
  (forall i j a b, i <> j -> l !! i = Some a -> l !! j = Some b -> same_plan a b ->
    live a = true -> live b = true -> compatible a b) /\
  (forall now plan k k', k ≡ₚ filter (of_plan plan) l -> k' ≡ₚ k ->
    buildEffectivePlan now k plan = buildEffectivePlan now k' plan).
Proof.
  intros Ha [_ Hp]%exc_history_agrees; [|done]. split.
  - intros i j a b Hij Hi Hj. assert (agree a b) as [_ H]; [|exact H].
    assert (forall i j a b, (i < j)%nat -> l !! i = Some a -> l !! j = Some b -> agree a b) as Hlt.
    { clear i j a b Hij Hi Hj. induction Hp as [|x l Hx _ IH]; [done|]. intros [|i] [|j] a b Hij Hi Hj; try lia; cbn in *.
      - simplify_eq. rewrite Forall_forall in Hx. apply Hx. by eapply list_elem_of_lookup_2.
      - apply (IH i j a b); (done || lia). }
    destruct (Nat.lt_total i j) as [?|[?|?] ]; [by eapply Hlt|done|symmetry; by eapply Hlt].
  - intros now plan k k' Hk Hk'. unfold buildEffectivePlan.
    assert (findActiveExceptionOverride now k = findActiveExceptionOverride now k') as ->; [|done].
    unfold findActiveExceptionOverride. rewrite !find_override_filter. f_equal.
    assert (length (filter (fun e => override_candidate now e = true) k) <= 1)%nat as Hl.
    { apply candidates_at_most_one.
      - eapply pairs_perm; [exact _|symmetry; exact Hk|]. by apply pairs_filter.
      - intros a b Hka Hkb. rewrite Hk in Hka, Hkb.
        apply list_elem_of_filter in Hka as [ [H1 H2] _], Hkb as [ [H3 H4] _]. split; congruence. }
    assert (filter (fun e => override_candidate now e = true) k' ≡ₚ filter (fun e => override_candidate now e = true) k) as Hf
      by (by rewrite Hk').
    destruct (filter _ k) as [|x [|y m] ]; [|by apply Permutation_singleton_r in Hf|cbn in Hl; lia].
    by apply Permutation_nil_r in Hf.
Qed.
End admission.

(** ** Exceptions to evaluate the admission webhook on *)

Module ExceptionWebhookSamples.
Import StateSamples.

(** A reader that has one plan and some exceptions, and never fails. *)
Record Stored := mkStored {
  sto_plan : option HibernatePlan;
  sto_exceptions : list ScheduleException;
}.

Definition has_label (ns plan : string) (e : ScheduleException) : Prop :=
  se_Namespace e = ns /\ se_Labels e !! LabelPlan = Some plan.
#[export] Instance has_label_dec ns plan e : Decision (has_label ns plan e).
Proof. unfold has_label. apply _. Defined.

#[export] Instance stored_reader : ExceptionReader := {|
  Reader := Stored;
  rd_exceptions := sto_exceptions;
  rd_get_plan _ _ s := (match sto_plan s with Some p => inr p | None => inl NotFound end, s);
  rd_list ns plan s := (inr (filter (has_label ns plan) (sto_exceptions s)), s);
|}.

#[export] Instance stored_laws : ReaderLaws.
Proof. split; [done|done|]. intros ns plan s l [= <-]. done. Qed.

Lemma stored_answers : lists_answered.
Proof. intros ns plan s. by eexists. Qed.

Definition base_plan : HibernatePlan := plan (spec dag strict) ∅ (status PhaseActive OperationUnset [] 0).

Definition exception (name : string) (labels : gmap string string) (kind : ExceptionKind) (windows : list OffHourWindow)
  (overrides : list TargetOverride) (state : ExceptionState) : ScheduleException :=
  mkScheduleException name "prod" labels [] [] now false "web" "" kind (at_second (-60)) (at_second 60) "" windows
    overrides None state None None None "".

Definition of_web : gmap string string := {[ LabelPlan := "web" ]}.
Definition nights : OffHourWindow := mkWindow "20:00" "06:00" ["MON"; "TUE"].
Definition mornings : OffHourWindow := mkWindow "5:30" "09:00" ["TUE"].
Definition without_app : list TargetOverride := [mkTargetOverride "app" None true].

Definition late : ScheduleException := exception "late" of_web KindExtend [nights] without_app ExceptionStateActive.
Definition early : ScheduleException := exception "early" of_web KindSuspend [mornings] [] ExceptionStatePending.

Definition verdict (e : ScheduleException) (others : list ScheduleException) : res BlockError (list FieldErrorType) :=
  run_result (let! errs := ValidateCreate_exception e in st_ret (map fe_Type errs)) (mkStored (Some base_plan) others).

(** An extension and a suspension compose although their windows collide. *)
Example composed : verdict early [late] = Ok [] /\ windowsCollide [mornings] [nights] = true.
Proof. vm_compute. done. Qed.

(** Two extensions whose windows collide do not, nor two exceptions with overrides. *)
Example conflicting :
  verdict (exception "again" of_web KindExtend [mornings] [] ExceptionStatePending) [late] = Ok [FieldForbidden] /\
  verdict (exception "again" of_web KindReplace [mornings] without_app ExceptionStatePending) [late] = Ok [FieldForbidden].
Proof. vm_compute. done. Qed.

(** An exception whose label is not set yet is overlooked. *)
Definition unlabelled : ScheduleException := exception "late" ∅ KindExtend [nights] without_app ExceptionStatePending.

Example unlabelled_overlooked :
  verdict (exception "again" of_web KindExtend [mornings] without_app ExceptionStatePending) [unlabelled] = Ok [].
Proof. vm_compute. reflexivity. Qed.

(** A window that starts and ends in the same minute is let in; it collides with
    none, and the evaluator takes it for the whole day. *)
Definition whole_day : OffHourWindow := mkWindow "10:00" "10:00" ["MON"; "TUE"; "WED"; "THU"; "FRI"; "SAT"; "SUN"].

Example whole_day_collides_with_none :
  verdict (exception "all" of_web KindSuspend [whole_day] [] ExceptionStatePending) [] = Ok [] /\
  windowsCollide [whole_day] [whole_day] = false /\ isInTimeWindows [whole_day] now = true /\
  isInTimeWindows [whole_day] (Add now (8 * Hour)) = true.
Proof. vm_compute. done. Qed.

(** Until the lifecycle has written its state, an exception overrides nothing. *)
Example override_not_yet_active :
  override_candidate now (exception "late" of_web KindExtend [nights] without_app ExceptionStatePending) = false /\
  override_candidate now late = true.
Proof. vm_compute. done. Qed.

(** ** The history of the two exceptions *)

Definition created (e : ScheduleException) (others : list ScheduleException) : res BlockError (list FieldError) :=
  run_result (ValidateCreate_exception e) (mkStored (Some base_plan) others).

Lemma late_created : created late [] = Ok [].
Proof. vm_compute. reflexivity. Qed.

Lemma early_created : created early [late] = Ok [].
Proof. vm_compute. reflexivity. Qed.

Lemma create_run e others : created e others = Ok [] ->
  ValidateCreate_exception e (mkStored (Some base_plan) others) =
  (Ok [], run_state (ValidateCreate_exception e) (mkStored (Some base_plan) others)).
Proof.
  unfold created, run_result, run_state. destruct (ValidateCreate_exception e _) as [r s]. by intros [= ->].
Qed.

Lemma both_history : exc_history [early; late].
Proof.
  eapply (eh_create (HR := stored_reader) [late] early (mkStored (Some base_plan) [late])); [|done| | |done|exact (create_run _ _ early_created)].
  - eapply (eh_create (HR := stored_reader) [] late (mkStored (Some base_plan) [])); [apply eh_nil|done| | |done|exact (create_run _ _ late_created)].
    + constructor.
    + vm_compute. reflexivity.
  - repeat constructor.
  - vm_compute. reflexivity.
Qed.

Lemma both_of_plan : [late; early] ≡ₚ filter (of_plan base_plan) [early; late].
Proof.
  rewrite (filter_cons_True (of_plan base_plan) early) by (split; reflexivity).
  rewrite (filter_cons_True (of_plan base_plan) late) by (split; reflexivity). apply perm_swap.
Qed.
End ExceptionWebhookSamples.

Import StateSamples ExceptionWebhookSamples.

Lemma override_unambiguous_witness :
  compatible early late /\
  buildEffectivePlan now [late; early] base_plan = buildEffectivePlan now [early; late] base_plan.
Proof.
  destruct (override_unambiguous [early; late] stored_answers both_history) as [H1 H2]. split.
  - apply (H1 0%nat 1%nat); [discriminate|reflexivity|reflexivity|split; reflexivity|reflexivity|reflexivity].
  - apply (H2 now base_plan [late; early] [early; late] both_of_plan). apply perm_swap.
Defined.

Lemma windowsCollide_exact_witness :
  windowsCollide [nights] [mornings] = true /\
  exists now, isInTimeWindows [nights] now = true /\ isInTimeWindows [mornings] now = true.
Proof.
  split; [reflexivity|]. apply (windowsCollide_exact late early).
  - reflexivity.
  - reflexivity.
  - intros w Hw. cbn in Hw. apply elem_of_cons in Hw as [->|Hw]; [discriminate|].
    apply list_elem_of_singleton in Hw as ->. discriminate.
  - reflexivity.
Defined.
