(* ===== verification/ExceptionLifecycle.v ===== *)
(** * The lifecycle of schedule exceptions ([internal/provider/processor/scheduleexception])

    [LifecycleProcessor]: for each delivery of a plan, it brings the state of the
    plan's exceptions up to date and lists them in the status of the plan. *)
From S2P Require Import Prelude Monad GoString GoTime Types Cluster Restore World.
From Stdlib Require Import SpecFloat Lia.

Local Open Scope Z_scope.

Definition ExceptionFinalizerName : string := "hibernator.ardikabs.com/exception-finalizer".
Definition GroupVersion : string := "hibernator.ardikabs.com/v1alpha1".

(** ** References ([hibernateplan_types.go]) *)

Definition reference_equal (a b : ExceptionReference) : bool :=
  (ref_Name a =? ref_Name b)%string &&
  bool_decide (ref_Type a = ref_Type b) && bool_decide (ref_State a = ref_State b) &&
  Equal (ref_ValidFrom a) (ref_ValidFrom b) && Equal (ref_ValidUntil a) (ref_ValidUntil b) &&
  match ref_AppliedAt a, ref_AppliedAt b with
  | None, None => true
  | Some x, Some y => Equal x y
  | _, _ => false
  end.

Fixpoint ExceptionReferencesEqual (a b : list ExceptionReference) : bool :=
  match a, b with
  | [], [] => true
  | x :: a', y :: b' => reference_equal x y && ExceptionReferencesEqual a' b'
  | _, _ => false
  end.

(** ** State *)

(** The client of the processor, with the exceptions that are stored. *)
Class ExceptionClient := {
  Client : Type;
  ec_stored : Client -> string -> string -> option ScheduleException;
  ec_get (ns name : string) : Client -> (ApiError + ScheduleException) * Client;
  ec_get_plan (ns name : string) : Client -> (ApiError + HibernatePlan) * Client;
  ec_list (ns plan : string) : Client -> (ApiError + list ScheduleException) * Client;
  ec_patch (orig new : ScheduleException) : Client -> (ApiError + ScheduleException) * Client;
}.

(** Reads change nothing and answer what they were asked for.  A patch of the
    metadata of an exception, carried out or not, changes no state and no other
    exception; when it takes no finalizer away the exception stays; and it is
    answered with the exception as it is stored. *)
Class ClientLaws {HC : ExceptionClient} : Prop := {
  ec_get_stored ns name c : ec_stored (ec_get ns name c).2 = ec_stored c;
  ec_get_name ns name c e : (ec_get ns name c).1 = inr e -> se_Namespace e = ns /\ se_Name e = name;
  ec_get_plan_stored ns name c : ec_stored (ec_get_plan ns name c).2 = ec_stored c;
  ec_list_stored ns plan c : ec_stored (ec_list ns plan c).2 = ec_stored c;
  ec_patch_other orig new c ns name : (ns, name) <> (se_Namespace orig, se_Name orig) ->
    ec_stored (ec_patch orig new c).2 ns name = ec_stored c ns name;
  ec_patch_keeps orig new c o : se_Finalizers orig ⊆ se_Finalizers new ->
    ec_stored c (se_Namespace orig) (se_Name orig) = Some o ->
    exists o', ec_stored (ec_patch orig new c).2 (se_Namespace orig) (se_Name orig) = Some o' /\ se_State o' = se_State o;
  ec_patch_answer orig new c e : (ec_patch orig new c).1 = inr e ->
    se_Namespace e = se_Namespace orig /\ se_Name e = se_Name orig /\
    forall o, ec_stored c (se_Namespace orig) (se_Name orig) = Some o -> se_State e = se_State o;
}.

(** Status updates that are queued, for an exception and for a plan. *)
Record ExceptionUpdate := mkExceptionUpdate {
  xu_Namespace : string;
  xu_Name : string;
  xu_Mutator : ScheduleException -> ScheduleException;
}.
Record PlanUpdate := mkPlanUpdate {
  pu_Namespace : string;
  pu_Name : string;
  pu_Mutator : HibernatePlan -> HibernatePlan;
}.

(** What is sent on the error channel. *)
Inductive LifecycleError :=
| ErrListExceptions (e : ApiError)
| ErrAddFinalizer (e : ApiError)
| ErrPlanLabel (e : ApiError)
| ErrRefetch (e : ApiError)
| ErrRemoveFinalizer (e : ApiError).

Section lifecycle.
Context {HC : ExceptionClient}.

Record Life := mkLife {
  lf_client : Client;
  lf_now : time;
  lf_exceptions : list ExceptionUpdate;
  lf_plans : list PlanUpdate;
  lf_errors : list LifecycleError;
}.

Definition set_lf_client (v : Client) (s : Life) : Life :=
  mkLife v (lf_now s) (lf_exceptions s) (lf_plans s) (lf_errors s).
Definition set_lf_exceptions (v : list ExceptionUpdate) (s : Life) : Life :=
  mkLife (lf_client s) (lf_now s) v (lf_plans s) (lf_errors s).
Definition set_lf_plans (v : list PlanUpdate) (s : Life) : Life :=
  mkLife (lf_client s) (lf_now s) (lf_exceptions s) v (lf_errors s).
Definition set_lf_errors (v : list LifecycleError) (s : Life) : Life :=
  mkLife (lf_client s) (lf_now s) (lf_exceptions s) (lf_plans s) v.

Definition LM (A : Type) : Type := ST Life Empty_set A.

Definition request {A} (f : Client -> (ApiError + A) * Client) : LM (ApiError + A) := fun s =>
  let '(r, c) := f (lf_client s) in (Ok r, set_lf_client c s).

(** [errChan <- ...]. *)
Definition report (e : LifecycleError) : LM unit := st_modify (fun s => set_lf_errors (lf_errors s ++ [e]) s).

(** [Send]: the update is queued under its key, and the object in memory changes at
    once. *)
Definition send_exception (ns name : string) (f : ScheduleException -> ScheduleException) (exception : ScheduleException)
  : LM ScheduleException :=
  do! st_modify (fun s => set_lf_exceptions (lf_exceptions s ++ [mkExceptionUpdate ns name f]) s) in
  st_ret (f exception).
Definition send_plan (ns name : string) (f : HibernatePlan -> HibernatePlan) : LM unit :=
  st_modify (fun s => set_lf_plans (lf_plans s ++ [mkPlanUpdate ns name f]) s).

(** [p.Patch(ctx, exception, MergeFrom(orig))] after a change in memory: the answer
    replaces the object, which keeps the change when the request fails. *)
Definition patch_exception (f : ScheduleException -> ScheduleException) (exception : ScheduleException)
  : LM (option ApiError * ScheduleException) :=
  let! r := request (ec_patch exception (f exception)) in
  st_ret match r with inl e => (Some e, f exception) | inr answer => (None, answer) end.

(** ** One exception *)

Definition computeDesiredState (now : time) (exception : ScheduleException) : ExceptionState :=
  if Before now (se_ValidFrom exception) then ExceptionStatePending
  else if negb (IsZero (se_ValidUntil exception)) && After now (se_ValidUntil exception) then ExceptionStateExpired
  else ExceptionStateActive.

(** The mutator of [transitionState]. *)
Definition enter_state (desiredState : ExceptionState) (now : time) (e : ScheduleException) : ScheduleException :=
  let e := set_se_State desiredState e in
  match desiredState with
  | ExceptionStatePending =>
      set_se_Message "Exception pending" (set_se_DetachedAt None (set_se_ExpiredAt None (set_se_AppliedAt None e)))
  | ExceptionStateActive =>
      set_se_Message "Exception activated" (set_se_DetachedAt None (set_se_ExpiredAt None (set_se_AppliedAt (Some now) e)))
  | ExceptionStateExpired =>
      set_se_Message "Exception expired" (set_se_DetachedAt None (set_se_AppliedAt None (set_se_ExpiredAt (Some now) e)))
  | _ => e
  end.

Definition transitionState (ns name : string) (desiredState : ExceptionState) (now : time) (exception : ScheduleException)
  : LM ScheduleException :=
  send_exception ns name (enter_state desiredState now) exception.

(** The remaining time, in days or in hours. *)
Definition format_remaining (prefix soon : string) (remaining : Z) : string :=
  let days := float64_trunc (SFdiv 53 1024 (Hours remaining) (float64_of 24)) in
  if 0 <? days then (prefix ++ sprint_d days ++ " days")%string
  else
    let hours := float64_trunc (Hours remaining) in
    if 0 <? hours then (prefix ++ sprint_d hours ++ " hours")%string else soon.

Definition formatPendingMessage (now : time) (exception : ScheduleException) : string :=
  if IsZero (se_ValidFrom exception) then "Exception pending"
  else format_remaining "Exception pending, activates in " "Exception pending, activates soon"
         (Sub (se_ValidFrom exception) now).

Definition formatActiveMessage (now : time) (exception : ScheduleException) : string :=
  if IsZero (se_ValidUntil exception) then "Exception active"
  else format_remaining "Exception active, expires in " "Exception active, expires soon"
         (Sub (se_ValidUntil exception) now).

(** [%q], of a name without characters to escape. *)
Definition quoted (s : string) : string := String "034" (s ++ String "034" EmptyString).

Definition detached_message (planName : string) : string :=
  ("Referenced plan " ++ quoted planName ++ " no longer exists; exception is detached")%string.

Definition exception_message (now : time) (exception : ScheduleException) : string :=
  match se_State exception with
  | ExceptionStatePending => formatPendingMessage now exception
  | ExceptionStateActive => formatActiveMessage now exception
  | ExceptionStateExpired => "Exception expired"
  | ExceptionStateDetached => detached_message (se_PlanRef exception)
  | ExceptionStateOther s => ("Exception state: " ++ s)%string
  end.

Definition updateMessage (ns name : string) (now : time) (exception : ScheduleException) : LM ScheduleException :=
  let newMessage := exception_message now exception in
  if (se_Message exception =? newMessage)%string then st_ret exception
  else send_exception ns name (set_se_Message newMessage) exception.

Definition contains_finalizer (exception : ScheduleException) : bool :=
  bool_decide (ExceptionFinalizerName ∈ se_Finalizers exception).
Definition with_finalizer (e : ScheduleException) : ScheduleException :=
  set_se_Finalizers (se_Finalizers e ++ [ExceptionFinalizerName]) e.
Definition without_finalizer (e : ScheduleException) : ScheduleException :=
  set_se_Finalizers (filter (fun f => f <> ExceptionFinalizerName) (se_Finalizers e)) e.

(** [ensurePlanLabel], with the report of its error. *)
Definition ensurePlanLabel (exception : ScheduleException) : LM ScheduleException :=
  if bool_decide (se_Labels exception !! LabelPlan = Some (se_PlanRef exception)) then st_ret exception
  else
    let! '(err, exception) :=
      patch_exception (fun e => set_se_Labels (<[LabelPlan := se_PlanRef e]> (se_Labels e)) e) exception in
    do! (match err with Some e => report (ErrPlanLabel e) | None => st_ret tt end) in
    st_ret exception.

(** The mutator of [removeFromPlanStatus]. *)
Definition drop_reference (name : string) : HibernatePlan -> HibernatePlan :=
  on_status (fun s => set_st_ExceptionReferences (filter (fun r => ref_Name r <> name) (st_ExceptionReferences s)) s).

Definition removeFromPlanStatus (exception : ScheduleException) : LM unit :=
  send_plan (se_Namespace exception) (se_PlanRef exception) (drop_reference (se_Name exception)).

(** The plan runs a cycle with the override of this exception. *)
Definition mid_cycle (plan : HibernatePlan) (exception : ScheduleException) : bool :=
  match plan_Phase plan with
  | PhaseHibernating | PhaseWakingUp | PhaseError =>
      (st_AppliedExceptionOverride (plan_Status plan) =? se_Name exception)%string
  | _ => false
  end.

Definition handleExceptionDelete (ns name : string) : LM unit :=
  let! r := request (ec_get ns name) in
  match r with
  | inl NotFound => st_ret tt
  | inl e => report (ErrRefetch e)
  | inr exception =>
      let! p := request (ec_get_plan (se_Namespace exception) (se_PlanRef exception)) in
      if match p with inr plan => mid_cycle plan exception | inl _ => false end
      then removeFromPlanStatus exception
      else
        do! removeFromPlanStatus exception in
        if contains_finalizer exception then
          let! '(err, _) := patch_exception without_finalizer exception in
          match err with Some e => report (ErrRemoveFinalizer e) | None => st_ret tt end
        else st_ret tt
  end.

(** [ns] and [name] are the key of the exception as it was delivered. *)
Definition handleExceptionUpdate (exception : ScheduleException) : LM ScheduleException :=
  let '(ns, name) := (se_Namespace exception, se_Name exception) in
  if se_Deleting exception then
    do! handleExceptionDelete ns name in st_ret exception
  else
    let! '(err, exception) :=
      (if contains_finalizer exception then st_ret (None, exception) else patch_exception with_finalizer exception) in
    match err with
    | Some e => do! report (ErrAddFinalizer e) in st_ret exception
    | None =>
        let! exception := ensurePlanLabel exception in
        let! now := st_gets lf_now in
        let desiredState := computeDesiredState now exception in
        if negb (bool_decide (se_State exception = desiredState))
        then transitionState ns name desiredState now exception
        else updateMessage ns name now exception
    end.

(** ** The exceptions of a plan *)

Section references.
Context {HS : SortSlice}.

Definition exception_reference (exc : ScheduleException) : ExceptionReference :=
  mkExceptionReference (se_Name exc) (se_Type exc) (se_ValidFrom exc) (se_ValidUntil exc) (se_State exc) (se_AppliedAt exc).

(** The map [stateOrder]; a state that is not in it counts as zero. *)
Definition stateOrder (s : ExceptionState) : Z :=
  match s with
  | ExceptionStateActive => 0
  | ExceptionStatePending => 1
  | ExceptionStateExpired => 2
  | _ => 0
  end.

Definition reference_less (a b : ExceptionReference) : bool :=
  if negb (stateOrder (ref_State a) =? stateOrder (ref_State b)) then stateOrder (ref_State a) <? stateOrder (ref_State b)
  else After (ref_ValidFrom a) (ref_ValidFrom b).

Definition maxReferences : nat := 10.

(** The references that the status of the plan should have. *)
Definition wanted_references (exceptions : list ScheduleException) : list ExceptionReference :=
  take maxReferences (sort_Slice reference_less
    (map exception_reference (filter (fun e => se_Deleting e = false) exceptions))).

(** The plan in memory afterwards. *)
Definition updateExceptionReferences (plan : HibernatePlan) (exceptions : list ScheduleException) : LM HibernatePlan :=
  let exceptionRefs := wanted_references exceptions in
  if ExceptionReferencesEqual (st_ExceptionReferences (plan_Status plan)) exceptionRefs then st_ret plan
  else
    let f := on_status (set_st_ExceptionReferences exceptionRefs) in
    do! send_plan (plan_Namespace plan) (plan_Name plan) f in st_ret (f plan).

(** The exceptions in memory afterwards: the loop works on the elements of the slice. *)
Fixpoint handle_exceptions (exceptions : list ScheduleException) : LM (list ScheduleException) :=
  match exceptions with
  | [] => st_ret []
  | exc :: exceptions' =>
      let! exc := (if se_Deleting exc
                   then do! handleExceptionDelete (se_Namespace exc) (se_Name exc) in st_ret exc
                   else handleExceptionUpdate exc) in
      let! rest := handle_exceptions exceptions' in
      st_ret (exc :: rest)
  end.

Definition handlePlanUpdate (plan : HibernatePlan) (exceptions : list ScheduleException)
  : LM (HibernatePlan * list ScheduleException) :=
  let! exceptions := handle_exceptions exceptions in
  let! plan := updateExceptionReferences plan exceptions in
  st_ret (plan, exceptions).
End references.

(** ** The end of a plan *)

Definition hasOwnerReferenceToPlan (exc : ScheduleException) (planName : string) : bool :=
  existsb (fun ref => (own_Kind ref =? "HibernatePlan")%string && (own_Name ref =? planName)%string &&
    (own_APIVersion ref =? GroupVersion)%string) (se_OwnerReferences exc).

(** The mutator of [transitionToDetached]. *)
Definition detach (planName : string) (now : time) (e : ScheduleException) : ScheduleException :=
  set_se_Message (detached_message planName) (set_se_DetachedAt (Some now) (set_se_State ExceptionStateDetached e)).

Definition transitionToDetached (exception : ScheduleException) (planName : string) : LM unit :=
  if bool_decide (se_State exception = ExceptionStateDetached) then st_ret tt
  else
    let! now := st_gets lf_now in
    let! exception := send_exception (se_Namespace exception) (se_Name exception) (detach planName now) exception in
    if contains_finalizer exception
    then do! patch_exception without_finalizer exception in st_ret tt
    else st_ret tt.

Definition handlePlanDelete (ns name : string) : LM unit :=
  let! r := request (ec_list ns name) in
  match r with
  | inl e => report (ErrListExceptions e)
  | inr items =>
      st_iter (fun exc => if hasOwnerReferenceToPlan exc name then st_ret tt else transitionToDetached exc name) items
  end.
End lifecycle.
