(* ===== verification/ExceptionLifecycleSpec.v ===== *)
(** * What the lifecycle of exceptions achieves

    A delivery brings every exception into the state of its period and the plan's
    references in line with them; and repeated deliveries settle. *)
From S2P Require Import Prelude Monad GoString GoTime Windows Types Cluster Restore World Execution StateSamples.
From S2P Require Import ExceptionWebhookSpec ExceptionLifecycle.
From Stdlib Require Import SpecFloat Lia.

Local Open Scope Z_scope.

#[local] Create HintDb life.

Section runs.
Context {HC : ExceptionClient} {HCL : ClientLaws}.

(** A computation that returns, and what it does. *)
Definition runs {A} (m : LM A) (Q : Life -> A -> Life -> Prop) : Prop :=
  forall s, exists a s', m s = (Ok a, s') /\ Q s a s'.

Lemma runs_bind {A B} (m : LM A) (k : A -> LM B) Q R (T : Life -> B -> Life -> Prop) :
  runs m Q -> (forall a, runs (k a) (R a)) ->
  (forall s a s1 b s2, Q s a s1 -> R a s1 b s2 -> T s b s2) -> runs (st_bind m k) T.
Proof.
  intros Hm Hk HT s. destruct (Hm s) as (a & s1 & E1 & H1). destruct (Hk a s1) as (b & s2 & E2 & H2).
  exists b, s2. unfold st_bind. rewrite E1. eauto.
Qed.

Lemma runs_conseq {A} (m : LM A) Q T : runs m Q -> (forall s a s', Q s a s' -> T s a s') -> runs m T.
Proof. intros Hm HT s. destruct (Hm s) as (a & s' & E & H). eauto. Qed.

Lemma runs_ret {A} (a : A) (Q : Life -> A -> Life -> Prop) : (forall s, Q s a s) -> runs (st_ret a) Q.
Proof. intros H s. by exists a, s. Qed.

(** The clock stands, and errors are only added. *)
Definition grows (s s' : Life) : Prop := lf_now s' = lf_now s /\ exists k, lf_errors s' = lf_errors s ++ k.

#[export] Instance grows_preorder : PreOrder grows.
Proof.
  split; [intros s; split; [done|exists []; by rewrite app_nil_r]|].
  intros s1 s2 s3 [T1 [k1 H1] ] [T2 [k2 H2] ]. split; [congruence|]. exists (k1 ++ k2). by rewrite H2, H1, app_assoc.
Qed.

(** No error in the whole means none in the parts. *)
Lemma grows_quiet s1 s2 s3 : grows s1 s2 -> grows s2 s3 -> lf_errors s3 = lf_errors s1 ->
  lf_errors s2 = lf_errors s1 /\ lf_errors s3 = lf_errors s2.
Proof.
  intros [_ [k1 H1] ] [_ [k2 H2] ] H. rewrite H2, H1, <- app_assoc in H.
  rewrite <- (app_nil_r (lf_errors s1)) in H at 2. apply app_inv_head in H. apply app_nil in H as [-> ->].
  rewrite H2, H1, !app_nil_r. done.
Qed.

(** What the treatment of one exception may touch: the exception as it is stored,
    updates that are queued for it, and, when it is being deleted, updates that drop
    its reference from a plan. *)
Definition about_exception (ns name : string) (u : ExceptionUpdate) : Prop := xu_Namespace u = ns /\ xu_Name u = name.
Definition drops (deleting : bool) (name : string) (u : PlanUpdate) : Prop :=
  deleting = true /\ pu_Mutator u = drop_reference name.

Definition touches (ns name : string) (deleting : bool) (s s' : Life) : Prop :=
  grows s s' /\
  (forall ns' name', (ns', name') <> (ns, name) -> ec_stored (lf_client s') ns' name' = ec_stored (lf_client s) ns' name') /\
  (exists us, lf_exceptions s' = lf_exceptions s ++ us /\ Forall (about_exception ns name) us) /\
  exists ps, lf_plans s' = lf_plans s ++ ps /\ Forall (drops deleting name) ps.

#[export] Instance touches_preorder ns name d : PreOrder (touches ns name d).
Proof.
  split.
  - intros s. split; [done|]. split; [done|]. split; exists []; by rewrite app_nil_r.
  - intros s1 s2 s3 (G & F & (us & U & HU) & ps & P & HP) (G' & F' & (us' & U' & HU') & ps' & P' & HP').
    split; [by etrans|]. split; [intros; by rewrite F', F|]. split.
    + exists (us ++ us'). rewrite U', U, app_assoc. split; [done|]. by apply Forall_app.
    + exists (ps ++ ps'). rewrite P', P, app_assoc. split; [done|]. by apply Forall_app.
Qed.

Definition touching {A} (ns name : string) (d : bool) (m : LM A) : Prop := runs m (fun s _ s' => touches ns name d s s').

Section touching.
Context (ns name : string) (d : bool).

Lemma touching_bind {A B} (m : LM A) (k : A -> LM B) :
  touching ns name d m -> (forall a, touching ns name d (k a)) -> touching ns name d (st_bind m k).
Proof. intros Hm Hk. eapply runs_bind; [exact Hm|exact Hk|]. cbn. intros. by etrans. Qed.

Lemma touching_ret {A} (a : A) : touching ns name d (st_ret a).
Proof. by apply runs_ret. Qed.

(** A request that changes at most what is stored of the exception. *)
Lemma touching_request {A} (f : Client -> (ApiError + A) * Client) :
  (forall c ns' name', (ns', name') <> (ns, name) -> ec_stored (f c).2 ns' name' = ec_stored c ns' name') ->
  touching ns name d (request f).
Proof.
  intros Hf s. unfold request. specialize (Hf (lf_client s)). destruct (f (lf_client s)) as [r c]. eexists _, _. split; [done|].
  split; [split; [done|exists []; by rewrite app_nil_r]|]. split; [exact Hf|]. split; exists []; by rewrite app_nil_r.
Qed.

Lemma touching_report e : touching ns name d (report e).
Proof.
  intros s. eexists _, _. split; [done|]. split; [split; [done|by eexists]|]. split; [done|].
  split; exists []; by rewrite app_nil_r.
Qed.

Lemma touching_send_exception f exc : touching ns name d (send_exception ns name f exc).
Proof.
  intros s. eexists _, _. split; [done|]. split; [split; [done|exists []; by rewrite app_nil_r]|]. split; [done|].
  split; [|exists []; by rewrite app_nil_r]. eexists. split; [done|]. by repeat constructor.
Qed.

Lemma touching_patch f exc : se_Namespace exc = ns -> se_Name exc = name -> touching ns name d (patch_exception f exc).
Proof using HCL.
  intros Hns Hn. unfold patch_exception. apply touching_bind; [|intros; by apply touching_ret].
  apply touching_request. intros c ns' name' Hne. apply ec_patch_other. congruence.
Qed.
End touching.

Lemma touching_send_plan ns name ns' name' : touching ns name true (send_plan ns' name' (drop_reference name)).
Proof.
  intros s. eexists _, _. split; [done|]. split; [split; [done|exists []; by rewrite app_nil_r]|]. split; [done|].
  split; [exists []; by rewrite app_nil_r|]. eexists. split; [done|]. by repeat constructor.
Qed.

#[local] Hint Resolve touching_ret touching_report touching_send_plan : life.

Lemma report_runs e : runs (report e) (fun s _ s' => lf_errors s' <> lf_errors s).
Proof.
  intros s. eexists _, _. split; [done|]. cbn.
  intros H. rewrite <- (app_nil_r (lf_errors s)) in H at 2. by apply app_inv_head in H.
Qed.

(** The answer of a read of the exception. *)
Lemma touching_get_bind {B} ns name d (k : ApiError + ScheduleException -> LM B) :
  (forall e, touching ns name d (k (inl e))) ->
  (forall exc, se_Namespace exc = ns -> se_Name exc = name -> touching ns name d (k (inr exc))) ->
  touching ns name d (st_bind (request (ec_get ns name)) k).
Proof using HCL.
  intros Hl Hr s. unfold st_bind, request.
  pose proof (ec_get_stored ns name (lf_client s)) as Hst. pose proof (ec_get_name ns name (lf_client s)) as Hn.
  destruct (ec_get ns name (lf_client s)) as [r c]. cbn [fst snd] in *. set (s1 := set_lf_client c s).
  assert (touching ns name d (k r)) as Hk by (destruct r as [e|exc]; [apply Hl|by destruct (Hn exc eq_refl); apply Hr]).
  destruct (Hk s1) as (b & s2 & E & Ht). exists b, s2. split; [exact E|]. etrans; [|exact Ht].
  split; [split; [done|exists []; by rewrite app_nil_r]|]. split; [intros; cbn; by rewrite Hst|].
  split; exists []; by rewrite app_nil_r.
Qed.

Lemma touching_delete ns name : touching ns name true (handleExceptionDelete ns name).
Proof using HCL.
  unfold handleExceptionDelete, removeFromPlanStatus. apply touching_get_bind; [intros []; auto with life|].
  intros exc Hns Hn. apply touching_bind.
  { apply touching_request. intros c ns' name' _. by rewrite ec_get_plan_stored. }
  intros p. rewrite Hn. destruct (match p with inr plan => mid_cycle plan exc | inl _ => false end); [auto with life|].
  apply touching_bind; [auto with life|intros _]. destruct (contains_finalizer exc); [|auto with life].
  apply touching_bind; [by apply touching_patch|]. intros [ [e|] x]; auto with life.
Qed.

(** ** States *)

(** Nothing about its period or its overrides changes. *)
Lemma enter_state_state d now e : se_State (enter_state d now e) = d.
Proof. by destruct d. Qed.

Lemma enter_state_desired d now t e : computeDesiredState t (enter_state d now e) = computeDesiredState t e.
Proof. by destruct d. Qed.

Lemma enter_state_key d now e :
  se_Namespace (enter_state d now e) = se_Namespace e /\ se_Name (enter_state d now e) = se_Name e.
Proof. by destruct d. Qed.

(** The updates that are queued under a key, applied to an object. *)
Definition exception_updates (ns name : string) (us : list ExceptionUpdate) (e : ScheduleException) : ScheduleException :=
  fold_left (fun e u => xu_Mutator u e) (filter (fun u => xu_Namespace u = ns /\ xu_Name u = name) us) e.

(** When the exception that is stored has the state of the one in memory before,
    it has so afterwards. *)
Definition in_step (ns name : string) (before after : ScheduleException) (s s' : Life) : Prop :=
  se_Namespace after = se_Namespace before /\ se_Name after = se_Name before /\
  lf_exceptions s' = lf_exceptions s /\
  forall o, ec_stored (lf_client s) ns name = Some o -> se_State o = se_State before ->
    exists o', ec_stored (lf_client s') ns name = Some o' /\ se_State o' = se_State after.

Lemma in_step_trans ns name e1 e2 e3 s1 s2 s3 :
  in_step ns name e1 e2 s1 s2 -> in_step ns name e2 e3 s2 s3 -> in_step ns name e1 e3 s1 s3.
Proof.
  intros (A1 & B1 & C1 & D1) (A2 & B2 & C2 & D2). split; [congruence|]. split; [congruence|]. split; [congruence|].
  intros o Ho Hs. destruct (D1 o Ho Hs) as (o1 & Ho1 & Hs1). eauto.
Qed.

Lemma in_step_refl ns name e s : in_step ns name e e s s.
Proof. split; [done|]. split; [done|]. split; [done|]. eauto. Qed.

(** A patch that takes no finalizer away. *)
Lemma patch_in_step f exc :
  (forall e, se_Namespace (f e) = se_Namespace e /\ se_Name (f e) = se_Name e /\ se_State (f e) = se_State e) ->
  se_Finalizers exc ⊆ se_Finalizers (f exc) ->
  runs (patch_exception f exc) (fun s r s' => touches (se_Namespace exc) (se_Name exc) false s s' /\
    in_step (se_Namespace exc) (se_Name exc) exc r.2 s s').
Proof using HCL.
  intros Hf Hfin s. destruct (touching_patch _ _ false f exc eq_refl eq_refl s) as (r & s' & E & Ht).
  exists r, s'. split; [exact E|]. split; [exact Ht|]. revert E. unfold patch_exception, st_bind, request, st_ret.
  pose proof (ec_patch_keeps exc (f exc) (lf_client s)) as Hk. pose proof (ec_patch_answer exc (f exc) (lf_client s)) as Ha.
  destruct (ec_patch exc (f exc) (lf_client s)) as [a c]. cbn [fst snd] in *. destruct (Hf exc) as (F1 & F2 & F3).
  intros [= <- <-]. unfold in_step. cbn [lf_client lf_exceptions set_lf_client]. destruct a as [err|e]; cbn [snd].
  - split; [done|]. split; [done|]. split; [done|]. intros o Ho Hs. rewrite F3, <- Hs. by apply Hk.
  - destruct (Ha e eq_refl) as (A1 & A2 & A3). split; [done|]. split; [done|]. split; [done|]. intros o Ho Hs.
    rewrite (A3 o Ho). by apply Hk.
Qed.

Lemma finalizer_in_step exc :
  runs (if contains_finalizer exc then st_ret (None, exc) else patch_exception with_finalizer exc)
    (fun s r s' => touches (se_Namespace exc) (se_Name exc) false s s' /\
      in_step (se_Namespace exc) (se_Name exc) exc r.2 s s').
Proof using HCL.
  destruct (contains_finalizer exc).
  - apply runs_ret. intros s. split; [done|apply in_step_refl].
  - apply patch_in_step; [done|]. cbn. set_solver.
Qed.

Lemma label_in_step exc :
  runs (ensurePlanLabel exc) (fun s e s' => touches (se_Namespace exc) (se_Name exc) false s s' /\
    in_step (se_Namespace exc) (se_Name exc) exc e s s').
Proof using HCL.
  unfold ensurePlanLabel. destruct (bool_decide _).
  { apply runs_ret. intros s. split; [done|apply in_step_refl]. }
  eapply (runs_bind _ _ _ (fun r s e' s' => touches (se_Namespace exc) (se_Name exc) false s s' /\
      in_step (se_Namespace exc) (se_Name exc) r.2 e' s s')); [by apply patch_in_step|intros [err e]|].
  - cbn [snd]. eapply runs_bind; [|intros; apply (runs_ret e (fun s e' s' => e' = e /\ s' = s)); done|].
    + instantiate (1 := fun s _ s' => touches (se_Namespace exc) (se_Name exc) false s s' /\
        lf_client s' = lf_client s /\ lf_exceptions s' = lf_exceptions s).
      destruct err as [err|]; [|by apply runs_ret].
      intros s. destruct (touching_report (se_Namespace exc) (se_Name exc) false (ErrPlanLabel err) s) as (a & s' & E & H).
      exists a, s'. split; [exact E|]. split; [exact H|]. revert E. by intros [= <- <-].
    + cbn. intros s _ s1 b s2 (H & Hc & He) [-> ->]. split; [done|]. split; [done|]. split; [done|]. split; [done|].
      rewrite Hc. eauto.
  - cbn. intros s [err e] s1 e' s2 [T1 S1] [T2 S2]. split; [by etrans|]. by eapply in_step_trans.
Qed.

(** The end of [handleExceptionUpdate]: a transition, or a message; on any object
    that has the state in memory, the updates set the state of the period. *)
Lemma state_runs ns name now exc :
  runs (if negb (bool_decide (se_State exc = computeDesiredState now exc))
        then transitionState ns name (computeDesiredState now exc) now exc else updateMessage ns name now exc)
    (fun s e s' => touches ns name false s s' /\ lf_client s' = lf_client s /\
      se_Namespace e = se_Namespace exc /\ se_Name e = se_Name exc /\ se_State e = computeDesiredState now e /\
      forall us o, lf_exceptions s' = lf_exceptions s ++ us -> se_State o = se_State exc ->
        se_State (exception_updates ns name us o) = computeDesiredState now e).
Proof.
  assert (forall f, touching ns name false (send_exception ns name f exc)) as Ht by (intros; apply touching_send_exception).
  assert (forall f us l, l ++ [mkExceptionUpdate ns name f] = l ++ us ->
    forall o, exception_updates ns name us o = f o) as Hu.
  { intros f us l H o. apply app_inv_head in H as <-. unfold exception_updates.
    rewrite filter_cons, decide_True by done. done. }
  case_bool_decide as Hd; cbn [negb].
  - unfold updateMessage. destruct (_ =? _)%string.
    + apply runs_ret. intros s. repeat (split; [done|]). intros us o H Ho.
      rewrite <- (app_nil_r (lf_exceptions s)) in H at 1. apply app_inv_head in H as <-. cbn. congruence.
    + intros s. destruct (Ht (set_se_Message (exception_message now exc)) s) as (e & s' & E & H).
      exists e, s'. split; [exact E|]. split; [exact H|]. revert E. intros [= <- <-]. repeat (split; [done|]).
      intros us o Hus Ho. rewrite (Hu _ us _ Hus o). transitivity (se_State o); [done|]. rewrite Ho. exact Hd.
  - intros s. destruct (Ht (enter_state (computeDesiredState now exc) now) s) as (e & s' & E & H).
    exists e, s'. split; [exact E|]. split; [exact H|]. revert E. intros [= <- <-].
    destruct (enter_state_key (computeDesiredState now exc) now exc) as [K1 K2]. repeat (split; [done|]).
    split; [by rewrite enter_state_state, enter_state_desired|].
    intros us o Hus Ho. rewrite (Hu _ us _ Hus o). by rewrite enter_state_state, enter_state_desired.
Qed.

(** ** The exceptions of a delivery *)

(** Once the updates that were queued have been written, the exception that is
    stored is in the state of its period, if it had the state of the one that was
    delivered. *)
Definition synchronised (now : time) (exc e : ScheduleException) (s s' : Life) : Prop :=
  let '(ns, name) := (se_Namespace exc, se_Name exc) in
  forall us o, lf_exceptions s' = lf_exceptions s ++ us ->
    ec_stored (lf_client s) ns name = Some o -> se_State o = se_State exc ->
    exists o', ec_stored (lf_client s') ns name = Some o' /\
      se_State (exception_updates ns name us o') = computeDesiredState now e.

(** What one exception of the delivery becomes. *)
Definition handled_one (exc : ScheduleException) (s : Life) (e : ScheduleException) (s' : Life) : Prop :=
  se_Name e = se_Name exc /\ (se_Deleting exc = true -> e = exc) /\
  (se_Deleting exc = false -> lf_errors s' = lf_errors s ->
    se_State e = computeDesiredState (lf_now s) e /\ synchronised (lf_now s) exc e s s').

Lemma delete_runs exc : se_Deleting exc = true ->
  runs (do! handleExceptionDelete (se_Namespace exc) (se_Name exc) in st_ret exc)
    (fun s e s' => touches (se_Namespace exc) (se_Name exc) (se_Deleting exc) s s' /\ handled_one exc s e s').
Proof using HCL.
  intros Hd. eapply runs_bind; [apply touching_delete|intros u; apply (runs_ret exc (fun s e s' => e = exc /\ s' = s)); done|].
  cbn. intros s u s1 e s2 Ht [-> ->]. rewrite Hd. split; [done|]. split; [done|]. split; [done|]. congruence.
Qed.

(** The treatment of an exception that has its finalizer. *)
Lemma label_state_runs ns name ex :
  runs (let! exception := ensurePlanLabel ex in
        let! now := st_gets lf_now in
        let desiredState := computeDesiredState now exception in
        if negb (bool_decide (se_State exception = desiredState))
        then transitionState ns name desiredState now exception
        else updateMessage ns name now exception)
    (fun s e s' => se_Namespace ex = ns -> se_Name ex = name ->
      touches ns name false s s' /\ se_Name e = name /\ se_State e = computeDesiredState (lf_now s) e /\
      forall us o, lf_exceptions s' = lf_exceptions s ++ us -> ec_stored (lf_client s) ns name = Some o ->
        se_State o = se_State ex -> exists o', ec_stored (lf_client s') ns name = Some o' /\
        se_State (exception_updates ns name us o') = computeDesiredState (lf_now s) e).
Proof using HCL.
  intros s. unfold st_bind, st_gets. destruct (label_in_step ex s) as (e1 & s1 & -> & T1 & S1).
  destruct (state_runs ns name (lf_now s1) e1 s1) as (e & s2 & E & T2 & Hc & _ & Hn & Hst & Hu).
  exists e, s2. split; [exact E|]. intros Hns Hname. rewrite Hns, Hname in *. destruct S1 as (_ & K & Hx & S1).
  pose proof T1 as [ [Hnow _] _]. rewrite Hnow in *. split; [by etrans|]. split; [congruence|]. split; [done|].
  intros us o Hus Ho Hos. destruct (S1 o Ho Hos) as (o1 & Ho1 & Hos1). exists o1. rewrite Hc. split; [done|].
  apply Hu; [congruence|done].
Qed.

Lemma update_runs exc :
  runs (handleExceptionUpdate exc)
    (fun s e s' => touches (se_Namespace exc) (se_Name exc) (se_Deleting exc) s s' /\ handled_one exc s e s').
Proof using HCL.
  unfold handleExceptionUpdate. destruct (se_Deleting exc) eqn:Hd.
  { pose proof (delete_runs exc Hd) as H. by rewrite Hd in H. }
  set (ns := se_Namespace exc). set (name := se_Name exc).
  eapply (runs_bind _ _ _ (fun r s e s' => se_Namespace r.2 = ns -> se_Name r.2 = name ->
    touches ns name false s s' /\ se_Name e = name /\
    (lf_errors s' = lf_errors s -> se_State e = computeDesiredState (lf_now s) e /\
      forall us o, lf_exceptions s' = lf_exceptions s ++ us -> ec_stored (lf_client s) ns name = Some o ->
        se_State o = se_State r.2 -> exists o', ec_stored (lf_client s') ns name = Some o' /\
          se_State (exception_updates ns name us o') = computeDesiredState (lf_now s) e))).
  - apply finalizer_in_step.
  - intros [ [err|] ex]; cbn [snd].
    + intros s. destruct (touching_report ns name false (ErrAddFinalizer err) s) as (a & s' & E & H).
      exists ex, s'. unfold st_bind. rewrite E. split; [done|]. intros _ Hn. split; [done|]. split; [done|]. intros He. exfalso.
      destruct (report_runs (ErrAddFinalizer err) s) as (a' & s'' & E' & Hne). rewrite E in E'. by injection E' as -> ->.
    + eapply runs_conseq; [apply (label_state_runs ns name)|]. cbn. intros s e s' H Hns Hn.
      destruct (H Hns Hn) as (H1 & H2 & H3 & H4). auto.
  - cbn. intros s r s1 e s2 [T1 (K1 & K2 & Hx & S1)] H. destruct (H K1 K2) as (T2 & Hn & Hq).
    split; [by etrans|]. split; [done|]. split; [congruence|]. intros _ He.
    destruct (grows_quiet s s1 s2) as [_ He2]; [apply T1|apply T2|done|].
    destruct (Hq He2) as [Hst Hsy]. destruct T1 as [ [Hnow _] _]. rewrite Hnow in *. split; [done|].
    unfold synchronised. fold ns name. intros us o Hus Ho Hos. destruct (S1 o Ho Hos) as (o1 & Ho1 & Hos1).
    apply (Hsy us o1); [by rewrite Hx|done..].
Qed.

(** Updates for other exceptions do not count. *)
Lemma exception_updates_app ns name us us' e :
  exception_updates ns name (us ++ us') e = exception_updates ns name us' (exception_updates ns name us e).
Proof. unfold exception_updates. by rewrite filter_app, fold_left_app. Qed.

Lemma exception_updates_other ns name us e :
  Forall (fun u => xu_Name u <> name) us -> exception_updates ns name us e = e.
Proof.
  intros H. unfold exception_updates. induction H as [|u us Hu _ IH]; [done|].
  rewrite filter_cons, decide_False; [done|]. by intros [_ Hn].
Qed.

(** All exceptions of a delivery, which are of one namespace. *)
Definition handled_all (ns : string) (l : list ScheduleException) (s : Life) (l' : list ScheduleException) (s' : Life) : Prop :=
  grows s s' /\
  (forall name, name ∉ map se_Name l -> ec_stored (lf_client s') ns name = ec_stored (lf_client s) ns name) /\
  (exists us, lf_exceptions s' = lf_exceptions s ++ us /\ Forall (fun u => xu_Name u ∈ map se_Name l) us) /\
  (exists ps, lf_plans s' = lf_plans s ++ ps /\
     Forall (fun u => exists e, e ∈ l' /\ se_Deleting e = true /\ pu_Mutator u = drop_reference (se_Name e)) ps) /\
  Forall2 (fun exc e => handled_one exc s e s') l l'.

(** The first exception, and then the others. *)
Lemma handled_cons ns exc l s e s1 l' s2 :
  se_Name exc ∉ map se_Name l -> se_Namespace exc = ns ->
  Forall (fun x => se_Namespace x = ns) l -> touches ns (se_Name exc) (se_Deleting exc) s s1 -> handled_one exc s e s1 ->
  handled_all ns l s1 l' s2 -> handled_all ns (exc :: l) s (e :: l') s2.
Proof.
  intros Hexc Hns Hl (G1 & F1 & (us1 & U1 & K1) & ps1 & P1 & D1) (Hn & Hd & Hh) (G2 & F2 & (us2 & U2 & K2) & (ps2 & P2 & D2) & HA).
  split; [by etrans|]. split; [|split; [|split] ].
  - intros name Hname. cbn [map] in Hname. rewrite F2 by set_solver. apply F1. set_solver.
  - exists (us1 ++ us2). rewrite U2, U1, app_assoc. split; [done|]. apply Forall_app. cbn [map]. split.
    + apply (Forall_impl _ _ _ K1). intros u [_ ->]. by left.
    + apply (Forall_impl _ _ _ K2). intros u Hu. by right.
  - exists (ps1 ++ ps2). rewrite P2, P1, app_assoc. split; [done|]. apply Forall_app. split.
    + apply (Forall_impl _ _ _ D1). intros u [Hdel ->]. exists exc. rewrite (Hd Hdel). split; [by left|done].
    + apply (Forall_impl _ _ _ D2). intros u (x & Hx & H). exists x. split; [by right|done].
  - constructor.
    + split; [done|]. split; [done|]. intros Hdel Hq. destruct (grows_quiet s s1 s2 G1 G2 Hq) as [Hq1 _].
      destruct (Hh Hdel Hq1) as [Hst Hsy]. split; [done|]. intros us o Hus Ho Hos.
      rewrite U2, U1, <- app_assoc in Hus. apply app_inv_head in Hus as <-.
      destruct (Hsy us1 o U1 Ho Hos) as (o' & Ho' & Hd'). exists o'. rewrite <- Hns in F2. rewrite F2 by done. split; [done|].
      rewrite exception_updates_app, (exception_updates_other _ _ us2); [done|].
      apply (Forall_impl _ _ _ K2). intros u Hu Heq. apply Hexc. by rewrite <- Heq.
    + apply Forall2_same_length_lookup in HA as [Hlen HA]. apply Forall2_same_length_lookup. split; [done|].
      intros i x y Hx Hy. destruct (HA i x y Hx Hy) as (Hnx & Hdx & Hhx). apply list_elem_of_lookup_2 in Hx.
      assert (se_Name x <> se_Name exc) as Hne
        by (intros Heq; apply Hexc; rewrite <- Heq, list_elem_of_fmap; by exists x).
      split; [done|]. split; [done|]. intros Hdel Hq. destruct (grows_quiet s s1 s2 G1 G2 Hq) as [_ Hq2].
      destruct (Hhx Hdel Hq2) as [Hst Hsy]. rewrite (proj1 G1) in *. split; [done|].
      rewrite Forall_forall in Hl. pose proof (Hl x Hx) as Hnsx. unfold synchronised in *. rewrite Hnsx in *. intros us o Hus Ho Hos.
      rewrite U2, U1, <- app_assoc in Hus. apply app_inv_head in Hus as <-.
      destruct (Hsy us2 o U2) as (o' & Ho' & Hd'); [rewrite F1; [done|congruence]|done|]. exists o'. split; [done|].
      rewrite exception_updates_app, (exception_updates_other _ _ us1); [done|].
      apply (Forall_impl _ _ _ K1). intros u [_ ->]. congruence.
Qed.

Lemma exceptions_runs ns l :
  NoDup (map se_Name l) -> Forall (fun exc => se_Namespace exc = ns) l -> runs (handle_exceptions l) (handled_all ns l).
Proof using HCL.
  induction l as [|exc l IH]; cbn [handle_exceptions map]; intros Hnd Hns.
  { apply runs_ret. intros s. split; [done|]. split; [done|].
    split; [|split]; [exists []; by rewrite app_nil_r..|constructor]. }
  apply NoDup_cons in Hnd as [Hexc Hnd]. apply Forall_cons in Hns as [Hn1 Hns]. specialize (IH Hnd Hns).
  eapply (runs_bind _ _ _ (fun e s l' s' => exists k, l' = e :: k /\ handled_all ns l s k s')).
  - instantiate (1 := fun s e s' => touches ns (se_Name exc) (se_Deleting exc) s s' /\ handled_one exc s e s').
    rewrite <- Hn1. destruct (se_Deleting exc) eqn:Hd.
    + pose proof (delete_runs exc Hd) as H. by rewrite Hd in H.
    + pose proof (update_runs exc) as H. by rewrite Hd in H.
  - intros e. eapply runs_bind; [exact IH|intros k; apply (runs_ret (e :: k) (fun s l' s' => l' = e :: k /\ s' = s)); done|].
    cbn. intros s k s1 b s2 H [-> ->]. by exists k.
  - cbn. intros s e s1 b s2 [Ht Hh] (k & -> & Hk). by eapply handled_cons.
Qed.
End runs.

(** ** References *)

Lemma reference_less_asym a b : reference_less a b = true -> reference_less b a = false.
Proof.
  unfold reference_less, After. rewrite (Z.eqb_sym (stateOrder (ref_State b))).
  destruct (_ =? _); cbn [negb]; rewrite Z.ltb_lt, Z.ltb_ge; lia.
Qed.

Lemma reference_less_trans a b c : reference_less a b = false -> reference_less b c = false -> reference_less a c = false.
Proof.
  unfold reference_less, After.
  destruct (Z.eqb_spec (stateOrder (ref_State a)) (stateOrder (ref_State b))),
    (Z.eqb_spec (stateOrder (ref_State b)) (stateOrder (ref_State c))),
    (Z.eqb_spec (stateOrder (ref_State a)) (stateOrder (ref_State c))); cbn [negb]; rewrite !Z.ltb_ge; lia.
Qed.

Lemma ExceptionReferencesEqual_refl l : ExceptionReferencesEqual l l = true.
Proof.
  induction l as [|r l IH]; [done|]. cbn [ExceptionReferencesEqual]. rewrite IH, andb_true_r. unfold reference_equal, Equal.
  rewrite String.eqb_refl, !bool_decide_eq_true_2, !Z.eqb_refl by done. by destruct (ref_AppliedAt r); rewrite ?Z.eqb_refl.
Qed.

(** The references are the first of all, in order. *)
Definition best_references (exceptions : list ScheduleException) (listed rest : list ExceptionReference) : Prop :=
  map exception_reference (filter (fun e => se_Deleting e = false) exceptions) ≡ₚ listed ++ rest /\
  StronglySorted (fun a b => reference_less b a = false) (listed ++ rest) /\
  (length listed <= maxReferences)%nat /\ ((length listed < maxReferences)%nat -> rest = []).

Lemma wanted_references_best `{SortSlice} exceptions :
  exists rest, best_references exceptions (wanted_references exceptions) rest.
Proof.
  unfold wanted_references. set (sorted := sort_Slice _ _). exists (drop maxReferences sorted).
  unfold best_references. rewrite take_drop. split; [symmetry; apply sort_Slice_perm|].
  split; [apply sort_Slice_sorted; [apply reference_less_asym|apply reference_less_trans]|].
  rewrite length_take. split; [lia|]. intros. apply nil_length_inv. rewrite length_drop. lia.
Qed.

(** ** Overrides *)

(** The state of an exception agrees with its period, as far as overrides go. *)
Lemma current_candidate now e : se_Deleting e = false -> se_State e = computeDesiredState now e ->
  override_candidate now e = true <->
  se_Type e <> KindSuspend /\ Before (se_ValidFrom e) now = true /\ Before now (se_ValidUntil e) = true /\
  (se_TargetOverrides e <> [] \/ is_Some (se_ExecutionOverride e)).
Proof.
  intros Hd Hst. unfold override_candidate. rewrite !andb_true_iff, orb_true_iff, !negb_true_iff, !bool_decide_eq_false,
    !bool_decide_eq_true, Hd, Hst. split; [tauto|]. intros (Ht & Hf & Hu & Ho).
  split_and!; try done. unfold computeDesiredState. unfold Before, After in *. rewrite Z.ltb_lt in Hf, Hu.
  rewrite (proj2 (Z.ltb_ge _ _)) by lia. rewrite (proj2 (Z.ltb_ge (unix_ns (se_ValidUntil e)) _)) by lia. by rewrite andb_false_r.
Qed.

(** The updates that are queued for a plan, applied to a plan of that key. *)
Definition plan_updates (ps : list PlanUpdate) (p : HibernatePlan) : HibernatePlan :=
  fold_left (fun p u => pu_Mutator u p)
    (filter (fun u => pu_Namespace u = plan_Namespace p /\ pu_Name u = plan_Name p) ps) p.

Definition plan_references (p : HibernatePlan) : list ExceptionReference := st_ExceptionReferences (plan_Status p).

Lemma drop_reference_absent name p :
  name ∉ map ref_Name (plan_references p) -> plan_references (drop_reference name p) = plan_references p.
Proof.
  intros H. change (filter (fun r => ref_Name r <> name) (plan_references p) = plan_references p).
  induction (plan_references p) as [|r l IH]; [done|]. cbn [map] in H. rewrite filter_cons, decide_True by set_solver.
  f_equal. apply IH. set_solver.
Qed.

Lemma drops_absent ps p :
  Forall (fun u => exists name, name ∉ map ref_Name (plan_references p) /\ pu_Mutator u = drop_reference name) ps ->
  plan_references (fold_left (fun p u => pu_Mutator u p) ps p) = plan_references p.
Proof.
  intros H. induction ps as [|u ps IH] in p, H |- *; [done|]. apply Forall_cons in H as [ (name & Hn & Hu) H].
  cbn [fold_left]. rewrite Hu. pose proof (drop_reference_absent name p Hn) as E. rewrite IH; [done|by rewrite E].
Qed.

Lemma ReferencesEqual_names a b : ExceptionReferencesEqual a b = true -> map ref_Name a = map ref_Name b.
Proof.
  revert b. induction a as [|x a IH]; intros [|y b]; cbn [ExceptionReferencesEqual]; try done.
  intros [H1 H2]%andb_true_iff. cbn [map]. rewrite (IH b H2). f_equal. unfold reference_equal in H1.
  repeat (apply andb_true_iff in H1 as [H1 _]). by apply String.eqb_eq.
Qed.

(** No reference is of an exception that is being deleted. *)
Lemma deleting_unlisted l listed rest e :
  NoDup (map se_Name l) -> best_references l listed rest -> e ∈ l -> se_Deleting e = true ->
  se_Name e ∉ map ref_Name listed.
Proof.
  intros Hnd [Hp _] He Hd. rewrite list_elem_of_fmap. intros (r & Hr & Hin).
  assert (r ∈ listed ++ rest) as Hin' by set_solver. rewrite <- Hp in Hin'. apply list_elem_of_fmap in Hin' as (x & -> & Hx).
  apply list_elem_of_filter in Hx as [Hdx Hx]. cbn in Hr.
  apply list_elem_of_lookup in He as [i Hi]. apply list_elem_of_lookup in Hx as [j Hj].
  assert (i = j) as ->.
  { apply (NoDup_lookup _ i j (se_Name e) Hnd); rewrite list_lookup_fmap; [by rewrite Hi|by rewrite Hj, Hr]. }
  rewrite Hi in Hj. injection Hj as ->. congruence.
Qed.

Section claims.
Context {HC : ExceptionClient} {HCL : ClientLaws} {HS : SortSlice}.

(** The references that the treatment of the exceptions and then
    [updateExceptionReferences] leave. *)
Lemma references_written plan l s ps0 :
  NoDup (map se_Name l) ->
  Forall (fun u => exists e, e ∈ l /\ se_Deleting e = true /\ pu_Mutator u = drop_reference (se_Name e)) ps0 ->
  exists plan' s' ps, updateExceptionReferences plan l s = (Ok plan', s') /\
    lf_plans s' = lf_plans s ++ ps /\ lf_exceptions s' = lf_exceptions s /\ lf_errors s' = lf_errors s /\
    lf_client s' = lf_client s /\
    ExceptionReferencesEqual (plan_references plan') (wanted_references l) = true /\
    forall p, plan_Namespace p = plan_Namespace plan -> plan_Name p = plan_Name plan ->
      plan_references p = plan_references plan ->
      ExceptionReferencesEqual (plan_references (plan_updates (ps0 ++ ps) p)) (wanted_references l) = true.
Proof.
  intros Hnd Hps. unfold updateExceptionReferences. destruct (wanted_references_best l) as [rest Hbest].
  destruct (ExceptionReferencesEqual _ _) eqn:E.
  - eexists plan, s, []. rewrite !app_nil_r. repeat (split; [done|]). intros p Hns Hn Hr.
    unfold plan_updates. rewrite drops_absent; [by rewrite Hr|].
    apply Forall_forall. intros u [_ Hin]%list_elem_of_filter. rewrite Forall_forall in Hps.
    destruct (Hps u Hin) as (e & He & Hd & Hu). exists (se_Name e). split; [|done].
    rewrite Hr. unfold plan_references. rewrite (ReferencesEqual_names _ _ E). by eapply deleting_unlisted.
  - eexists _, _, [_]. repeat (split; [reflexivity|]). split; [apply ExceptionReferencesEqual_refl|]. intros p Hns Hn Hr.
    unfold plan_updates. rewrite filter_app, fold_left_app, filter_cons, decide_True by done. cbn [filter list_filter fold_left].
    apply ExceptionReferencesEqual_refl.
Qed.


(** ** Settling *)

Lemma settled_message m now e : exception_message now (set_se_Message m e) = exception_message now e.
Proof. done. Qed.

(** The exception has its finalizer and its label. *)
Record prepared (e : ScheduleException) : Prop := {
  prepared_live : se_Deleting e = false;
  prepared_finalizer : contains_finalizer e = true;
  prepared_label : se_Labels e !! LabelPlan = Some (se_PlanRef e);
}.

(** Then a delivery is a transition or a message. *)
Lemma prepared_step e s : prepared e ->
  handleExceptionUpdate e s =
  (if negb (bool_decide (se_State e = computeDesiredState (lf_now s) e))
   then transitionState (se_Namespace e) (se_Name e) (computeDesiredState (lf_now s) e) (lf_now s) e
   else updateMessage (se_Namespace e) (se_Name e) (lf_now s) e) s.
Proof.
  intros [H1 H2 H3]. unfold handleExceptionUpdate, ensurePlanLabel, st_bind, st_gets. rewrite H1, H2.
  unfold st_ret. cbv beta iota zeta. rewrite (bool_decide_eq_true_2 _ H3). reflexivity.
Qed.

(** In the state of its period it is at rest after one delivery. *)
Lemma current_settles e s : prepared e -> se_State e = computeDesiredState (lf_now s) e ->
  exists e2 s2 us, handleExceptionUpdate e s = (Ok e2, s2) /\ handleExceptionUpdate e2 s2 = (Ok e2, s2) /\
    se_State e2 = se_State e /\ se_Message e2 = exception_message (lf_now s) e2 /\
    s2 = set_lf_exceptions (lf_exceptions s ++ us) s /\ (length us <= 1)%nat /\
    e2 = fold_left (fun e u => xu_Mutator u e) us e.
Proof.
  intros Hp He. set (m := exception_message (lf_now s) e).
  assert (forall e' s', prepared e' -> lf_now s' = lf_now s -> se_State e' = computeDesiredState (lf_now s) e' ->
    se_Message e' = exception_message (lf_now s) e' -> handleExceptionUpdate e' s' = (Ok e', s')) as Hrest.
  { intros e' s' Hp' Hn He' Hm. rewrite prepared_step, Hn, bool_decide_eq_true_2 by done. unfold updateMessage.
    by rewrite (proj2 (String.eqb_eq _ _) Hm). }
  destruct (String.eqb_spec (se_Message e) m) as [Hm|Hm].
  - exists e, s, []. rewrite Hrest by done. split_and!; try done; [|cbn; lia]. rewrite app_nil_r. by destruct s.
  - eexists (set_se_Message m e), _, [mkExceptionUpdate (se_Namespace e) (se_Name e) (set_se_Message m)].
    rewrite prepared_step, bool_decide_eq_true_2 by done. cbn [negb]. unfold updateMessage. fold m.
    rewrite (proj2 (String.eqb_neq _ _) Hm). split; [reflexivity|].
    rewrite Hrest; [by split_and!|by destruct Hp|done|done|by rewrite settled_message].
Qed.

(** Deliveries settle.  An exception that has its finalizer and its label is at
    rest after at most two deliveries at one time: its state and its message are
    then those that the time calls for, and further deliveries neither send an
    update nor make a request; and the updates that were sent, applied one after
    the other to the exception as it was, give the exception in memory. *)
Theorem lifecycle_settles exc s : prepared exc ->
  exists e1 s1 e2 s2 us, handleExceptionUpdate exc s = (Ok e1, s1) /\ handleExceptionUpdate e1 s1 = (Ok e2, s2) /\
    handleExceptionUpdate e2 s2 = (Ok e2, s2) /\
    se_State e2 = computeDesiredState (lf_now s) exc /\ se_Message e2 = exception_message (lf_now s) e2 /\
    s2 = set_lf_exceptions (lf_exceptions s ++ us) s /\ (length us <= 2)%nat /\
    e2 = fold_left (fun e u => xu_Mutator u e) us exc.
Proof.
  intros Hp. destruct (decide (se_State exc = computeDesiredState (lf_now s) exc)) as [Hst|Hst].
  - destruct (current_settles exc s Hp Hst) as (e2 & s2 & us & H1 & H2 & H3 & H4 & H5 & H6 & H7).
    exists e2, s2, e2, s2, us. split_and!; (done || congruence || lia).
  - set (d := computeDesiredState (lf_now s) exc) in *. set (e1 := enter_state d (lf_now s) exc).
    set (u := mkExceptionUpdate (se_Namespace exc) (se_Name exc) (enter_state d (lf_now s))).
    set (s1 := set_lf_exceptions (lf_exceptions s ++ [u]) s).
    destruct (current_settles e1 s1) as (e2 & s2 & us & H1 & H2 & H3 & H4 & H5 & H6 & H7).
    + destruct Hp. by destruct d.
    + subst e1. by rewrite enter_state_state, enter_state_desired.
    + exists e1, s1, e2, s2, (u :: us). split; [by rewrite prepared_step, bool_decide_eq_false_2|]. split; [done|].
      split; [done|]. split; [subst e1; by rewrite H3, enter_state_state|]. split; [done|].
      split; [rewrite H5; subst s1; cbn; by rewrite <- app_assoc|]. split; [cbn; lia|done].
Qed.
End claims.

(** ** A client and exceptions to evaluate the lifecycle on *)

Module ExceptionLifecycleSamples.
Import StateSamples ExceptionWebhookSamples MergeSort.

(** A server with one plan and some exceptions; a patch writes labels and finalizers. *)
Definition find_exception (ns name : string) (l : list ScheduleException) : option ScheduleException :=
  List.find (fun e => (se_Namespace e =? ns)%string && (se_Name e =? name)%string) l.

Definition patched_exception (new e : ScheduleException) : ScheduleException :=
  set_se_Finalizers (se_Finalizers new) (set_se_Labels (se_Labels new) e).

Definition has_key (ns name : string) (e : ScheduleException) : bool :=
  (se_Namespace e =? ns)%string && (se_Name e =? name)%string.

Definition write_exception (orig new : ScheduleException) (l : list ScheduleException) : list ScheduleException :=
  map (fun e => if has_key (se_Namespace orig) (se_Name orig) e then patched_exception new e else e) l.

Definition served (r : option ScheduleException) : ApiError + ScheduleException :=
  match r with Some e => inr e | None => inl NotFound end.

#[export] Instance stored_client : ExceptionClient := {|
  Client := Stored;
  ec_stored c ns name := find_exception ns name (sto_exceptions c);
  ec_get ns name c := (served (find_exception ns name (sto_exceptions c)), c);
  ec_get_plan _ _ c := (match sto_plan c with Some p => inr p | None => inl NotFound end, c);
  ec_list ns plan c :=
    (inr (List.filter (fun e => (se_Namespace e =? ns)%string && (se_PlanRef e =? plan)%string) (sto_exceptions c)), c);
  ec_patch orig new c :=
    let c' := mkStored (sto_plan c) (write_exception orig new (sto_exceptions c)) in
    (served (find_exception (se_Namespace orig) (se_Name orig) (sto_exceptions c')), c');
|}.

Lemma has_key_true ns name e : has_key ns name e = true <-> se_Namespace e = ns /\ se_Name e = name.
Proof. unfold has_key. by rewrite andb_true_iff, !String.eqb_eq. Qed.

Lemma find_exception_key ns name l e : find_exception ns name l = Some e -> se_Namespace e = ns /\ se_Name e = name.
Proof. intros [_ H]%List.find_some. by apply has_key_true. Qed.

(** A patch changes one exception, and that in its labels and finalizers. *)
Lemma find_write orig new ns name l :
  find_exception ns name (write_exception orig new l) =
  (fun e => if has_key (se_Namespace orig) (se_Name orig) e then patched_exception new e else e) <$> find_exception ns name l.
Proof.
  unfold find_exception, write_exception. induction l as [|x l IH]; [done|]. cbn [map List.find].
  assert (forall b : bool, (se_Namespace (if b then patched_exception new x else x) =? ns)%string &&
    (se_Name (if b then patched_exception new x else x) =? name)%string =
    (se_Namespace x =? ns)%string && (se_Name x =? name)%string) as -> by (by intros []).
  destruct (_ && _); [done|exact IH].
Qed.

#[export] Instance stored_client_laws : ClientLaws.
Proof.
  split; cbn [ec_stored ec_get ec_get_plan ec_list ec_patch stored_client fst snd sto_exceptions]; try done.
  - intros ns name c e. destruct (find_exception ns name (sto_exceptions c)) as [x|] eqn:E; [|done].
    intros [= <-]. by apply find_exception_key in E.
  - intros orig new c ns name Hne. rewrite find_write. destruct (find_exception ns name (sto_exceptions c)) as [x|] eqn:E; [|done].
    apply find_exception_key in E as [<- <-]. cbn. destruct (has_key _ _ x) eqn:Hk; [|done]. exfalso. apply Hne.
    apply has_key_true in Hk as [-> ->]. done.
  - intros orig new c o _ Ho. rewrite find_write, Ho. cbn. eexists. split; [done|]. by destruct (has_key _ _ o).
  - intros orig new c e. rewrite find_write.
    destruct (find_exception (se_Namespace orig) (se_Name orig) (sto_exceptions c)) as [x|] eqn:E; [|done].
    apply find_exception_key in E as [E1 E2]. intros [= <-].
    destruct (has_key _ _ x); (split; [done|]; split; [done|]; by intros o [= ->]).
Qed.

Definition life (plan : option HibernatePlan) (exceptions : list ScheduleException) (t : time) : Life :=
  mkLife (mkStored plan exceptions) t [] [] [].

Definition fresh : ScheduleException := exception "late" ∅ KindExtend [nights] without_app (ExceptionStateOther "").

Definition handled (e : ScheduleException) (s : Life) : list (ExceptionState * string) * list string * nat :=
  let '(r, s') := handleExceptionUpdate e s in
  (match r with Ok e' => [(se_State e', se_Message e')] | _ => [] end,
   match find_exception (se_Namespace e) (se_Name e) (sto_exceptions (lf_client s')) with
   | Some e' => se_Finalizers e'
   | None => []
   end, length (lf_exceptions s')).

(** A new exception gets its finalizer and its label, and becomes active. *)
Example first_delivery :
  handled fresh (life (Some base_plan) [fresh] now) =
  ([(ExceptionStateActive, "Exception activated")], [ExceptionFinalizerName], 1%nat).
Proof. vm_compute. reflexivity. Qed.

(** The messages count days, then hours. *)
Example messages :
  let pending t := formatPendingMessage t late in
  map pending [at_second (-60 - 200000); at_second (-60 - 7200); at_second (-61)] =
  ["Exception pending, activates in 2 days"; "Exception pending, activates in 2 hours"; "Exception pending, activates soon"].
Proof. vm_compute. reflexivity. Qed.

(** A deletion waits while the plan runs a cycle with the override. *)
Definition leaving : ScheduleException := set_se_Finalizers [ExceptionFinalizerName] late.

Definition deleted (p : HibernatePlan) : list string * nat :=
  let '(_, s) := handleExceptionDelete "prod" "late" (life (Some p) [leaving] now) in
  (match find_exception "prod" "late" (sto_exceptions (lf_client s)) with Some e => se_Finalizers e | None => [] end,
   length (lf_plans s)).

Definition overridden_status (phase : PlanPhase) : HibernatePlanStatus :=
  set_st_AppliedExceptionOverride "late" (status phase OperationHibernate [] 0).

Example deletion_waits :
  deleted (plan (spec dag strict) ∅ (overridden_status PhaseHibernating)) = ([ExceptionFinalizerName], 1%nat) /\
  deleted (plan (spec dag strict) ∅ (overridden_status PhaseHibernated)) = ([], 1%nat).
Proof. vm_compute. done. Qed.

(** An exception that was detached becomes active again with the next plan of its
    name, next to one that the webhook let in meanwhile although both extend the
    schedule by colliding windows. *)
Definition detached : ScheduleException := detach "web" now late.
Definition newcomer : ScheduleException := exception "again" of_web KindExtend [nights] without_app ExceptionStatePending.

Example detached_revived :
  verdict newcomer [detached] = Ok [] /\
  handled detached (life (Some base_plan) [detached; newcomer] now) =
  ([(ExceptionStateActive, "Exception activated")], [ExceptionFinalizerName], 1%nat).
Proof. vm_compute. done. Qed.

(** The late exception, when its finalizer is set. *)
Definition ready : ScheduleException := set_se_Finalizers [ExceptionFinalizerName] (set_se_State ExceptionStatePending late).

Lemma ready_prepared : prepared ready.
Proof. by split. Qed.
End ExceptionLifecycleSamples.

Import MergeSort StateSamples ExceptionWebhookSamples ExceptionLifecycleSamples.

Lemma lifecycle_settles_witness :
  exists e2 s2, handleExceptionUpdate e2 s2 = (Ok e2, s2) /\ se_State e2 = ExceptionStateActive /\
    se_Message e2 = exception_message now e2.
Proof.
  destruct (lifecycle_settles ready (life (Some base_plan) [ready] now) ready_prepared)
    as (e1 & s1 & e2 & s2 & us & _ & _ & H1 & H2 & H3 & _).
  exists e2, s2. split; [exact H1|]. split; [exact H2|exact H3].
Defined.

