(* ===== verification/Delivery.v ===== *)
(** * What the provider delivers ([internal/message])

    The context of a plan, as the provider stores it in a watchable map and as the
    processors receive it; when two contexts count as equal, so that the second is
    not delivered; and the subscription of a processor.  The unique identifier and
    the resource version of an object are kept beside it. *)
From S2P Require Import Prelude Monad GoString GoTime Types Worker.

Local Open Scope Z_scope.

(** [types.NamespacedName]. *)
Definition NamespacedName : Type := string * string.

Record Versioned (A : Type) := mkVersioned {
  ver_UID : string;
  ver_ResourceVersion : string;
  ver_Object : A;
}.
Arguments mkVersioned {A} _ _ _.
Arguments ver_UID {A} _.
Arguments ver_ResourceVersion {A} _.
Arguments ver_Object {A} _.

Record ScheduleEvaluation := mkScheduleEvaluation {
  sev_Exceptions : list (Versioned ScheduleException);
  sev_ShouldHibernate : bool;
  sev_NextEvent : time;
}.

(** [PlanContext]; a notification is kept as its name and version. *)
Record Delivery := mkDelivery {
  dl_Plan : Versioned HibernatePlan;
  dl_Schedule : option ScheduleEvaluation;
  dl_Exceptions : list (Versioned ScheduleException);
  dl_Notifications : list (Versioned NamespacedName);
  dl_HasRestoreData : bool;
  dl_DeliveryNonce : Z;
}.

(** What a worker takes over ([mergeIncoming]) and the notifications that the hooks
    of its handlers submit to. *)
Definition worker_context (d : Delivery) : PlanContext * list (Versioned NamespacedName) :=
  (mkPlanContext (ver_Object (dl_Plan d)) (sev_ShouldHibernate <$> dl_Schedule d)
     (map ver_Object (dl_Exceptions d)) (dl_HasRestoreData d),
   dl_Notifications d).

(** ** Equality *)

Definition same_version {A} (a b : Versioned A) : bool :=
  (ver_UID a =? ver_UID b)%string && (ver_ResourceVersion a =? ver_ResourceVersion b)%string.

Definition planEqual (a b : Versioned HibernatePlan) : bool :=
  (plan_Name (ver_Object a) =? plan_Name (ver_Object b))%string &&
  (plan_Namespace (ver_Object a) =? plan_Namespace (ver_Object b))%string &&
  same_version a b &&
  bool_decide (plan_Phase (ver_Object a) = plan_Phase (ver_Object b)).

Definition exceptionsEqual (a b : Versioned ScheduleException) : bool :=
  (se_Name (ver_Object a) =? se_Name (ver_Object b))%string &&
  (se_Namespace (ver_Object a) =? se_Namespace (ver_Object b))%string && same_version a b.

Definition notificationsEqual (a b : Versioned NamespacedName) : bool :=
  bool_decide (ver_Object a = ver_Object b) && same_version a b.

Definition scheduleEqual (a b : ScheduleEvaluation) : bool :=
  EqualFunc exceptionsEqual (sev_Exceptions a) (sev_Exceptions b) &&
  Bool.eqb (sev_ShouldHibernate a) (sev_ShouldHibernate b) &&
  Equal (sev_NextEvent a) (sev_NextEvent b).

Definition PlanContext_Equal (pc other : Delivery) : bool :=
  Bool.eqb (dl_HasRestoreData pc) (dl_HasRestoreData other) &&
  (dl_DeliveryNonce pc =? dl_DeliveryNonce other) &&
  planEqual (dl_Plan pc) (dl_Plan other) &&
  EqualFunc exceptionsEqual (dl_Exceptions pc) (dl_Exceptions other) &&
  EqualFunc notificationsEqual (dl_Notifications pc) (dl_Notifications other) &&
  match dl_Schedule pc, dl_Schedule other with
  | None, None => true
  | Some a, Some b => scheduleEqual a b
  | _, _ => false
  end.

(** ** Watchable maps

    The library [watchable]: a map that reports to its subscribers the keys that
    are set to a value that is not equal to the one before, and those that are
    deleted. *)
Record Update (K V : Type) := mkUpdate { upd_Key : K; upd_Value : option V }.
Arguments mkUpdate {K V} _ _.
Arguments upd_Key {K V} _.
Arguments upd_Value {K V} _.

Class Watchable := {
  WMap : Type;
  wm_load : WMap -> NamespacedName -> option Delivery;
  wm_updates : WMap -> list (Update NamespacedName Delivery);
  wm_Store : NamespacedName -> Delivery -> WMap -> WMap;
  wm_Delete : NamespacedName -> WMap -> WMap;
}.

Class WatchableLaws {HW : Watchable} : Prop := {
  wm_load_Store k d m k' : wm_load (wm_Store k d m) k' = if decide (k = k') then Some d else wm_load m k';
  wm_load_Delete k m k' : wm_load (wm_Delete k m) k' = if decide (k = k') then None else wm_load m k';
  wm_updates_Store k d m :
    wm_updates (wm_Store k d m) =
    match wm_load m k with
    | Some old => if PlanContext_Equal old d then wm_updates m else wm_updates m ++ [mkUpdate k (Some d)]
    | None => wm_updates m ++ [mkUpdate k (Some d)]
    end;
  wm_updates_Delete k m :
    wm_updates (wm_Delete k m) =
    match wm_load m k with
    | Some _ => wm_updates m ++ [mkUpdate k None]
    | None => wm_updates m
    end;
}.

(** ** Subscriptions ([watchutil.go]) *)

Section subscription.
Context {K V S : Type} `{Countable K}.

(** The loop of [coalesceUpdates], from the last update to the first. *)
Fixpoint coalesce_loop (seen : gset K) (updates : list (Update K V)) : list (Update K V) :=
  match updates with
  | [] => []
  | u :: updates' =>
      if bool_decide (upd_Key u ∈ seen) then coalesce_loop seen updates'
      else u :: coalesce_loop ({[upd_Key u]} ∪ seen) updates'
  end.

Definition coalesceUpdates (updates : list (Update K V)) : list (Update K V) :=
  if bool_decide (length updates <= 1)%nat then updates
  else rev (coalesce_loop ∅ (rev updates)).

(** A panic of the handler is logged, and what it had done by then remains. *)
Definition handleWithCrashRecovery (handle : Update K V -> ST S Empty_set unit) (update : Update K V)
  : ST S Empty_set unit := fun s =>
  match handle update s with
  | (Panic, s') => (Ok tt, s')
  | r => r
  end.

(** One snapshot: the entries of the map in the order of their iteration when it
    is the first, else the updates. *)
Definition handle_snapshot (handle : Update K V -> ST S Empty_set unit) (first : bool)
  (State : list (K * V)) (Updates : list (Update K V)) : ST S Empty_set unit :=
  st_iter (handleWithCrashRecovery handle)
    (if first then map (fun kv => mkUpdate kv.1 (Some kv.2)) State else coalesceUpdates Updates).
End subscription.
