(* ===== verification/Provider.v ===== *)
(** * The provider ([internal/provider/provider.go], [types.go])

    [PlanReconciler]: for each plan it reads the plan, its exceptions and its
    restore data, evaluates the schedule and stores the result for the processors.
    One reconciliation reads the clock once.  The matching notifications are an
    answer of the client here; how they are found and published is in
    [Notification]. *)
From S2P Require Import Prelude Monad GoString GoTime Windows Evaluate.
From S2P Require Import Types Cluster Restore World Worker Delivery.

Local Open Scope Z_scope.

Definition RequeueIntervalOnScheduleError : Z := 3 * Minute.

(** ** Counters of the dependencies ([dependencyNonceMap]) *)

Definition NonceMap : Type := gmap NamespacedName Z.

Definition nonce_Get (key : NamespacedName) (dn : NonceMap) : Z := default 0 (dn !! key).
Definition nonce_Add (key : NamespacedName) (delta : Z) (dn : NonceMap) : NonceMap :=
  <[key := int64 (nonce_Get key dn + delta)]> dn.
Definition nonce_Inc (key : NamespacedName) (dn : NonceMap) : NonceMap := nonce_Add key 1 dn.
Definition nonce_Set (key : NamespacedName) (n : Z) (dn : NonceMap) : NonceMap := <[key := n]> dn.
Definition nonce_Delete (key : NamespacedName) (dn : NonceMap) : NonceMap := delete key dn.

(** ** The schedule of a plan *)

Section schedule.
Context {HCron : Cron} {HTz : TimezoneDB} {HS : SortSlice}.
Implicit Types e : ScheduleEvaluator.

Definition exception_type (k : ExceptionKind) : ExceptionType :=
  match k with
  | KindExtend => ExceptionExtend
  | KindSuspend => ExceptionSuspend
  | KindReplace => ExceptionReplace
  | KindOther s => ExceptionOther s
  end.

Definition convertException (exc : ScheduleException) : Exception :=
  let leadTime :=
    if (se_LeadTime exc =? "")%string then 0
    else match ParseDuration (se_LeadTime exc) with Ok d => d | _ => 0 end in
  mkException (exception_type (se_Type exc)) (se_ValidFrom exc) (se_ValidUntil exc) leadTime (se_Windows exc).

Definition is_active (now : time) (exc : ScheduleException) : bool :=
  After now (se_ValidFrom exc) && Before now (se_ValidUntil exc) && negb (se_Deleting exc).

(** The newest first. *)
Definition created_after (a b : Versioned ScheduleException) : bool :=
  Before (se_CreationTimestamp (ver_Object b)) (se_CreationTimestamp (ver_Object a)).

Definition filterActiveExceptions (now : time) (allExceptions : list (Versioned ScheduleException))
  : list (Versioned ScheduleException) :=
  sort_Slice created_after (filter (fun exc => is_active now (ver_Object exc) = true) allExceptions).

Definition computeNextEvent e (result : EvaluationResult) : time :=
  let safetyBuffer := 10 * Second in
  if InGracePeriod result then Add (GracePeriodEnd result) safetyBuffer
  else
    Add (if ShouldHibernate result then NextWakeUpTime result else NextHibernateTime result)
      (scheduleBuffer e + safetyBuffer).

Definition evaluateSchedule e (plan : HibernatePlan) (allExceptions : list (Versioned ScheduleException))
  : res SchedError ScheduleEvaluation :=
  let activeExceptions := filterActiveExceptions (Clock e) allExceptions in
  let exceptions := map (fun exc => Some (convertException (ver_Object exc))) activeExceptions in
  let schedule := spec_Schedule (plan_Spec plan) in
  let* result := Evaluate e (sched_OffHours schedule) (sched_Timezone schedule) exceptions in
  match result with
  | None => Panic
  | Some result => Ok (mkScheduleEvaluation activeExceptions (ShouldHibernate result) (computeNextEvent e result))
  end.
End schedule.

(** ** Reconciliation *)

(** What the API server answers to the reads of the provider. *)
Class ProviderClient := {
  PClient : Type;
  pv_get_plan (key : NamespacedName) : PClient -> (ApiError + Versioned HibernatePlan) * PClient;
  pv_list_exceptions (ns plan : string) : PClient -> (ApiError + list (Versioned ScheduleException)) * PClient;
  pv_notifications (ns : string) : PClient -> (ApiError + list (Versioned NamespacedName)) * PClient;
}.

(** [ctrl.Result]. *)
Inductive ReconcileResult :=
| Reconciled
| RequeueAfter (d : Z).

Section reconcile.
Context {HCron : Cron} {HTz : TimezoneDB} {HS : SortSlice}.
Context {HK : KubeApi} {HJ : JSON} {HP : ProviderClient} {HW : Watchable}.
Context (map_order : list (string * string) -> list (string * string)).

Record Hub := mkHub {
  hub_client : PClient;
  hub_cluster : Cluster;
  hub_resources : WMap;
  hub_nonces : NonceMap;
}.

Definition set_hub_client (v : PClient) (s : Hub) : Hub :=
  mkHub v (hub_cluster s) (hub_resources s) (hub_nonces s).
Definition set_hub_cluster (v : Cluster) (s : Hub) : Hub :=
  mkHub (hub_client s) v (hub_resources s) (hub_nonces s).
Definition set_hub_resources (v : WMap) (s : Hub) : Hub :=
  mkHub (hub_client s) (hub_cluster s) v (hub_nonces s).
Definition set_hub_nonces (v : NonceMap) (s : Hub) : Hub :=
  mkHub (hub_client s) (hub_cluster s) (hub_resources s) v.

Definition PM (A : Type) : Type := ST Hub ApiError A.

Definition read {A} (f : PClient -> (ApiError + A) * PClient) : PM (ApiError + A) := fun s =>
  let '(r, c) := f (hub_client s) in (Ok r, set_hub_client c s).

(** A list that could not be read is used as an empty one, after a log entry. *)
Definition or_nil {A} (r : ApiError + list A) : list A := match r with inl _ => [] | inr l => l end.

Definition fetchAllExceptions (plan : HibernatePlan) : PM (list (Versioned ScheduleException)) :=
  let! r := read (pv_list_exceptions (plan_Namespace plan) (plan_Name plan)) in st_ret (or_nil r).

Definition delete_plan (key : NamespacedName) (s : Hub) : Hub :=
  set_hub_nonces (nonce_Delete key (hub_nonces s)) (set_hub_resources (wm_Delete key (hub_resources s)) s).

(** The bundle that is stored for a plan. *)
Definition store_context (key : NamespacedName) (plan : Versioned HibernatePlan) (schedule : ScheduleEvaluation)
  (exceptions : list (Versioned ScheduleException)) (notifications : list (Versioned NamespacedName))
  (hasRestoreData : bool) (s : Hub) : Hub :=
  set_hub_resources
    (wm_Store key (mkDelivery plan (Some schedule) exceptions notifications hasRestoreData (nonce_Get key (hub_nonces s)))
       (hub_resources s)) s.

Definition Reconcile (e : ScheduleEvaluator) (key : NamespacedName) : PM ReconcileResult :=
  let! r := read (pv_get_plan key) in
  match r with
  | inl NotFound => do! st_modify (delete_plan key) in st_ret Reconciled
  | inl err => st_throw err
  | inr plan =>
      let p := ver_Object plan in
      let! allExceptions := fetchAllExceptions p in
      let! notifications := read (pv_notifications (plan_Namespace p)) in
      match evaluateSchedule e p allExceptions with
      | Panic => st_panic
      | NoReturn => fun s => (NoReturn, s)
      | Err _ => st_ret (RequeueAfter RequeueIntervalOnScheduleError)
      | Ok schedule =>
          let! restore :=
            st_lift hub_cluster set_hub_cluster
              (st_try (HasRestoreData map_order (plan_Namespace p) (plan_Name p))) in
          let hasRestoreData := match restore with inr b => b | inl _ => false end in
          do! st_modify (store_context key plan schedule allExceptions (or_nil notifications) hasRestoreData) in
          st_ret Reconciled
      end
  end.

(** ** What triggers a reconciliation *)

Definition findPlansForException (exception : ScheduleException) : list NamespacedName :=
  [(se_Namespace exception, se_PlanRef exception)].

Definition is_terminal (j : Job) : bool := (0 <? job_Succeeded j) || (0 <? job_Failed j).

(** [owner] is the name of the controller of the new Job, when it has one. *)
Definition onJobTerminalUpdate (owner : option string) (oldJob newJob : Job) (s : Hub) : bool * Hub :=
  let condition := negb (is_terminal oldJob) && is_terminal newJob in
  (condition,
   match owner with
   | Some name =>
       if condition then set_hub_nonces (nonce_Inc (job_Namespace newJob, name) (hub_nonces s)) s else s
   | None => s
   end).
End reconcile.
