(* ===== verification/ProviderSpec.v ===== *)
(** * What the provider decides

    The decision that is delivered for a plan: that there is one for every plan and
    exceptions that the webhooks let in, and how long it stays the right one. *)
From S2P Require Import Prelude Monad GoString GoTime Windows Evaluate.
From S2P Require Import CronSpec ScheduleSpec GraceSpec ExceptionSpec ScheduleClaims.
From S2P Require Import Types Planner Cluster Restore World Execution Worker PlanWebhook PlanWebhookSpec.
From S2P Require Import ExceptionWebhook ExceptionWebhookSpec Delivery Provider.
From Stdlib Require Import Lia.

Local Open Scope Z_scope.

(** ** A decision without suspensions *)

Section steady.
Context {HCron : Cron} {HTz : TimezoneDB} {Hlaws : CronLaws}.
Context (tz : string) (loc : Location).
Context (Hload : LoadLocation tz = Some loc) (Hloc : regular_zone loc).
Implicit Types e : ScheduleEvaluator.

(** The instant that a result awaits. *)
Definition next_of (r : EvaluationResult) : time :=
  if ShouldHibernate r then NextWakeUpTime r else NextHibernateTime r.

Lemma in_window_off w v t : window_ok w v -> in_window t w = true -> off_hours v t = true.
Proof.
  intros Hv. rewrite (in_window_ok w v t Hv). unfold off_hours, minutes_in_window.
  destruct (bool_decide _); [|done]. cbn [andb]. destruct (startMin v <? endMin v); [done|].
  intros H. destruct (endMin v <=? _) eqn:E1, (_ <? startMin v) eqn:E2; try done. cbn in *. reflect. exfalso.
  apply orb_true_iff in H as [H|H]; reflect; lia.
Qed.

Lemma isInTimeWindows_view ws t :
  Forall window_wf ws -> isInTimeWindows ws t = true -> exists v, v ∈ views ws /\ off_hours v t = true.
Proof.
  intros Hws H. unfold isInTimeWindows in H. rewrite existsb_spec in H. destruct H as (w & Hin & Hw).
  rewrite Forall_forall in Hws. destruct (Hws w Hin) as [v Hv]. exists v. split; [by eapply views_elem|].
  eapply in_window_off; [by apply view_of_ok|done].
Qed.

Lemma views_ok ws v : Forall window_wf ws -> v ∈ views ws -> exists w, window_ok w v.
Proof.
  intros Hws Hin. pose proof (views_Forall2 ws Hws) as Hv. apply list_elem_of_lookup in Hin as [i Hi].
  destruct (Forall2_lookup_r _ _ _ _ _ Hv Hi) as (w & _ & Hw'). by exists w.
Qed.

Section extend.
Context (e e' : ScheduleEvaluator) (Hr : recent (Clock e)) (Hle : unix_ns (Clock e) <= unix_ns (Clock e')).
Context (ws xs : list OffHourWindow) (Hws : Forall window_wf ws) (Hxs : Forall window_wf xs).
Context (b x : EvaluationResult).
Notation now := (In (Clock e) loc).
Notation now' := (In (Clock e') loc).
Context (Hb : announces (views ws) now b) (Hx : announces (views xs) now x).

(** A window of [xs] that is off hours at the next end [t] of the others is so until
    the first end of [xs], unless that comes before [t]. *)
Lemma off_from t v n :
  zone t = loc -> unix_ns (Clock e) <= unix_ns t <= unix_ns (Clock e') ->
  v ∈ views xs -> off_hours v t = true -> earliest endMin (views xs) now n ->
  unix_ns (Clock e') < unix_ns n -> off_hours v now' = true.
Proof using Hlaws Hloc Hr Hxs.
  intros Hz [Ht Ht'] Hin Hoff [_ Hmin] Hlt. destruct (views_ok xs v Hxs Hin) as [w Hw].
  assert (recent t) as Hrt by (destruct Hr; constructor; lia).
  pose proof (window_ok_bounds _ _ Hw) as [_ He]. pose proof (window_ok_valid_days _ _ Hw) as Hd.
  assert (regular_zone (zone t)) as Hzt by congruence.
  destruct (next_activation_ex (endMin v) (dayNums v) t He Hd Hzt) as [m Hm].
  destruct (next_activation_ex (endMin v) (dayNums v) now He Hd Hloc) as [k Hk].
  rewrite <- Hoff. eapply (off_hours_until v t now' m Hzt); [by rewrite Hz|done|by exists w|done|by rewrite Hoff|].
  eapply Z.lt_le_trans; [exact Hlt|]. etransitivity; [exact (Hmin v k Hin Hk)|].
  destruct Hk as (_ & _ & _ & Hk), Hm as (Hzm & Ham & Hlm & _). apply Hk; [by rewrite Hzm, Hz|done|cbn; lia].
Qed.

Lemma views_steady l r :
  Forall window_wf l -> announces (views l) now r -> unix_ns (Clock e') < unix_ns (next_of r) ->
  existsb (fun v => off_hours v now') (views l) = ShouldHibernate r.
Proof using Hlaws Hloc Hr Hle.
  intros Hl (Hs & Hh & Hw & _) Hlt. unfold next_of in Hlt.
  assert (forall v, v ∈ views l -> off_hours v now = ShouldHibernate r -> off_hours v now' = off_hours v now) as Hsame.
  { intros v Hin Hoff. destruct (views_ok l v Hl Hin) as [w Hw']. pose proof (window_ok_bounds _ _ Hw') as [H1 H2].
    destruct (next_activation_ex (if off_hours v now then endMin v else startMin v) (dayNums v) now) as [n Hn];
      [by destruct (off_hours v now)|by eapply window_ok_valid_days|done|].
    apply (off_hours_until v now now' n Hloc eq_refl Hle (ex_intro _ w Hw') (recent_now e loc Hr) Hn).
    eapply Z.lt_le_trans; [exact Hlt|]. rewrite Hoff in Hn. destruct (ShouldHibernate r).
    - by apply (proj2 Hw v).
    - by apply (proj2 Hh v). }
  destruct (ShouldHibernate r).
  - symmetry in Hs. rewrite existsb_spec in Hs. destruct Hs as (v & Hin & Hoff).
    apply existsb_spec. exists v. split; [done|]. by rewrite Hsame.
  - symmetry in Hs. rewrite existsb_false in Hs. apply existsb_false. intros v Hin. rewrite Hsame; by auto.
Qed.

Lemma announces_next_nonzero m l t : earliest m (views l) now t -> IsZero t = false /\ zone t = loc /\ unix_ns (Clock e) < unix_ns t.
Proof using Hr.
  intros [(v & _ & Hn) _]. pose proof (IsZero_next _ _ _ _ (recent_now e loc Hr) Hn).
  by destruct Hn as (Hz & _ & Hlt & _).
Qed.

(** The result of [applyExtend] on two results. *)
Definition extended_wakeup : time :=
  if negb (IsZero (NextWakeUpTime b)) && isInTimeWindows xs (NextWakeUpTime b)
  then NextWakeUpTime x else earlierTime (NextWakeUpTime b) (NextWakeUpTime x).

Lemma extended_steady :
  let should := ShouldHibernate b || ShouldHibernate x in
  unix_ns (Clock e') <
    unix_ns (if should then extended_wakeup else earlierTime (NextHibernateTime b) (NextHibernateTime x)) ->
  existsb (fun v => off_hours v now') (views ws) || existsb (fun v => off_hours v now') (views xs) = should.
Proof using Hlaws Hloc Hr Hle Hws Hxs Hb Hx.
  intros should Hlt. unfold should in *.
  pose proof (views_steady ws b Hws Hb) as Sb. pose proof (views_steady xs x Hxs Hx) as Sx. unfold next_of in Sb, Sx.
  destruct Hb as (_ & Hbh & Hbw & _), Hx as (_ & Hxh & Hxw & _).
  destruct (announces_next_nonzero _ _ _ Hbh) as [Z1 _], (announces_next_nonzero _ _ _ Hxh) as [Z2 _].
  destruct (announces_next_nonzero _ _ _ Hbw) as (Z3 & Hz3 & Hgt3), (announces_next_nonzero _ _ _ Hxw) as [Z4 _].
  destruct (ShouldHibernate b || ShouldHibernate x) eqn:E.
  - unfold extended_wakeup in Hlt. rewrite Z3 in Hlt. cbn [negb andb] in Hlt.
    destruct (isInTimeWindows xs (NextWakeUpTime b)) eqn:Ein.
    + destruct (ShouldHibernate x); [rewrite Sx by done; apply orb_true_r|]. rewrite orb_false_r in E. rewrite E in Sb.
      destruct (Z.lt_ge_cases (unix_ns (Clock e')) (unix_ns (NextWakeUpTime b))); [by rewrite Sb|].
      apply orb_true_iff. right. apply existsb_spec.
      destruct (isInTimeWindows_view xs _ Hxs Ein) as (v & Hin & Hoff). exists v. split; [done|].
      apply (off_from (NextWakeUpTime b) v (NextWakeUpTime x)); try done. lia.
    + destruct (earlierTime_nonzero _ _ Z3 Z4) as [ [Heq ?] | [Heq ?] ]; rewrite Heq in Hlt;
        destruct (ShouldHibernate b); [by rewrite Sb by lia| |by rewrite Sb by lia|];
        destruct (ShouldHibernate x); try done; rewrite Sx by lia; apply orb_true_r.
  - apply orb_false_iff in E as [E1 E2]. rewrite E1 in Sb. rewrite E2 in Sx.
    destruct (earlierTime_nonzero _ _ Z1 Z2) as [ [Heq ?] | [Heq ?] ]; rewrite Heq in Hlt;
      by rewrite Sb, Sx by lia.
Qed.
End extend.

(** ** The pipeline *)

Lemma Evaluate_unsuspended e base excs :
  of_type ExceptionSuspend (filterActive e excs) = [] ->
  Evaluate e base tz excs =
  let* r := evaluateWindows e (effective_windows e base excs) tz in
  match mergeByType (filterActive e excs) ExceptionExtend with
  | Some x => deref_stage (applyExtend e (exc_Windows x) tz) r
  | None => Ok r
  end.
Proof.
  intros H. rewrite Evaluate_stages. destruct (evaluateWindows _ _ _); try done. cbn [res_bind].
  pose proof (mergeByType_windows (filterActive e excs) ExceptionSuspend) as Hm.
  destruct (mergeByType _ ExceptionSuspend); [by destruct Hm as [Hm _]|].
  destruct (mergeByType _ ExceptionExtend); [|done]. by destruct (deref_stage _ _).
Qed.

(** What [applyExtend] makes of two results. *)
Lemma applyExtend_result e xs b r :
  applyExtend e xs tz b = Ok r -> exists x, evaluateWindows e xs tz = Ok (Some x) /\
    ShouldHibernate r = ShouldHibernate b || ShouldHibernate x /\
    NextHibernateTime r = earlierTime (NextHibernateTime b) (NextHibernateTime x) /\
    NextWakeUpTime r = extended_wakeup xs b x /\
    InGracePeriod r = InGracePeriod b || InGracePeriod x.
Proof.
  unfold applyExtend. destruct (evaluateWindows e xs tz) as [ [x|]| | |]; try done. cbn [res_map_err res_bind].
  intros [= <-]. by exists x.
Qed.

(** The event that a result awaits is to come: the end of a grace period, within
    the buffer, or the next transition. *)
Definition awaits (e : ScheduleEvaluator) (r : EvaluationResult) : Prop :=
  if InGracePeriod r
  then unix_ns (Clock e) <= unix_ns (GracePeriodEnd r) <= unix_ns (Clock e) + scheduleBuffer e
  else unix_ns (Clock e) < unix_ns (next_of r).

Section pipeline.
Context (e : ScheduleEvaluator) (Hr : recent (Clock e)) (Hg : scheduleBuffer e < Day).
Context (base : list OffHourWindow) (excs : list (option Exception)).
Notation active := (filterActive e excs).
Context (Hsus : of_type ExceptionSuspend active = []).
Context (Heff : Forall window_wf (effective_windows e base excs)) (Hne : effective_windows e base excs <> []).
Context (Hext : Forall window_wf (windows_of ExceptionExtend active)).
Context (Hone : of_type ExceptionExtend active = [] \/
                windows_of ExceptionExtend active <> [] /\ scheduleBuffer e <= 0).

Lemma Evaluate_awaits r : Evaluate e base tz excs = Ok (Some r) -> awaits e r.
Proof using Hlaws Hload Hloc Hr Hg Hsus Heff Hne Hext Hone.
  rewrite Evaluate_unsuspended by done. pose proof (mergeByType_windows active ExceptionExtend) as Hm.
  destruct (evaluateWindows e (effective_windows e base excs) tz) as [ [b|]| | |] eqn:Eb; try done.
  2: { cbn [res_bind]. by destruct (mergeByType _ _). }
  cbn [res_bind]. unfold awaits. destruct (mergeByType active ExceptionExtend) as [x|].
  - destruct Hm as [Hm Hx], Hone as [H0|[Hxne Hg0] ]; [done|]. rewrite Hx. cbn [deref_stage].
    destruct (applyExtend e _ tz b) as [r'| | |] eqn:Er; try done. cbn [res_bind]. intros [= ->].
    apply applyExtend_result in Er as (x' & Ex & Hs & Hh & Hw & Hi). rewrite Hi. unfold next_of. rewrite Hs, Hh, Hw.
    pose proof (evaluateWindows_announced tz loc Hload Hloc e _ _ Hr Hg0 Heff Hne Eb) as Hb.
    pose proof (evaluateWindows_announced tz loc Hload Hloc e _ _ Hr Hg0 Hext Hxne Ex) as Ha. destruct Hb as (_ & Hb1 & Hb2 & _ & -> & _), Ha as (_ & Ha1 & Ha2 & _ & -> & _).
    cbn [orb]. unfold extended_wakeup.
    destruct (announces_next_nonzero e Hr _ _ _ Hb1) as (? & _ & ?), (announces_next_nonzero e Hr _ _ _ Hb2) as (? & _ & ?),
      (announces_next_nonzero e Hr _ _ _ Ha1) as (? & _ & ?), (announces_next_nonzero e Hr _ _ _ Ha2) as (? & _ & ?).
    destruct (earlierTime_nonzero (NextHibernateTime b) (NextHibernateTime x')) as [ [-> _] | [-> _] ]; try done;
      destruct (earlierTime_nonzero (NextWakeUpTime b) (NextWakeUpTime x')) as [ [-> _] | [-> _] ]; try done;
      by repeat case_match.
  - intros [= ->]. destruct (evaluateWindows_settled tz loc Hload Hloc e _ r Hr Hg Heff Hne Eb) as [Hok Ha].
    unfold grace_ok in Hok. destruct (InGracePeriod r); [by destruct Hok|].
    destruct (Ha eq_refl) as (_ & Hh & Hw & _). unfold next_of. destruct (ShouldHibernate r).
    + by apply (announces_next_nonzero e Hr _ _ _ Hw).
    + by apply (announces_next_nonzero e Hr _ _ _ Hh).
Qed.

Lemma Evaluate_steady e' excs' r r' :
  same_buffer e e' -> unix_ns (Clock e) <= unix_ns (Clock e') -> filterActive e' excs' = active ->
  Evaluate e base tz excs = Ok (Some r) -> Evaluate e' base tz excs' = Ok (Some r') ->
  InGracePeriod r = false -> unix_ns (Clock e') < unix_ns (next_of r) ->
  ShouldHibernate r' = ShouldHibernate r.
Proof using Hlaws Hload Hloc Hr Hg Hsus Heff Hne Hext Hone.
  intros Hgg Hle Hact. assert (recent (Clock e')) as Hr' by (destruct Hr; constructor; lia).
  rewrite !Evaluate_unsuspended by congruence. rewrite Hact.
  assert (effective_windows e' base excs' = effective_windows e base excs) as ->
    by (unfold effective_windows, active_windows; by rewrite Hact).
  pose proof (mergeByType_windows active ExceptionExtend) as Hm.
  destruct (evaluateWindows e (effective_windows e base excs) tz) as [ [b|]| | |] eqn:Eb; try done;
    destruct (evaluateWindows e' (effective_windows e base excs) tz) as [ [b'|]| | |] eqn:Eb'; try done;
    cbn [res_bind]; destruct (mergeByType active ExceptionExtend) as [x|]; try done.
  - destruct Hm as [Hm Hx], Hone as [H0|[Hxne Hg0] ]; [done|]. rewrite Hx. cbn [deref_stage].
    assert (scheduleBuffer e' <= 0) as Hg0' by (destruct Hgg; lia).
    destruct (applyExtend e _ tz b) as [q| | |] eqn:Er; try done. cbn [res_bind]. intros [= ->].
    destruct (applyExtend e' _ tz b') as [q'| | |] eqn:Er'; try done. cbn [res_bind]. intros [= ->].
    apply applyExtend_result in Er as (y & Ey & Hs & Hh & Hw & _).
    apply applyExtend_result in Er' as (y' & Ey' & Hs' & _). intros _.
    pose proof (evaluateWindows_announced tz loc Hload Hloc e _ _ Hr Hg0 Heff Hne Eb) as Hb.
    pose proof (evaluateWindows_announced tz loc Hload Hloc e _ _ Hr Hg0 Hext Hxne Ey) as Hy.
    destruct (evaluateWindows_announced tz loc Hload Hloc e' _ _ Hr' Hg0' Heff Hne Eb') as [Hb' _].
    destruct (evaluateWindows_announced tz loc Hload Hloc e' _ _ Hr' Hg0' Hext Hxne Ey') as [Hy' _].
    unfold next_of. rewrite Hs, Hs', Hh, Hw, Hb', Hy'.
    apply (extended_steady e e' Hr Hle _ _ Heff Hext b y Hb Hy).
  - intros [= ->] [= ->] Hi. by apply (evaluateWindows_steady tz loc Hload Hloc e e' _ r r' Hr Hg Hgg Heff Hne).
Qed.
End pipeline.
End steady.

(** ** The exceptions of a plan *)

Lemma filterActive_all e l :
  Forall (fun x => isExceptionActive e x = true) l -> filterActive e (map Some l) = l.
Proof. induction 1 as [|x l Hx H IH]; [done|]. cbn [map filterActive]. by rewrite Hx, IH. Qed.

(** Of two lists with the same windows one may be longer. *)
Lemma windows_off_elements ws ws' t : (forall w, w ∈ ws <-> w ∈ ws') -> windows_off ws t = windows_off ws' t.
Proof.
  intros H. unfold windows_off. apply eq_true_iff_eq. rewrite !existsb_spec. unfold views.
  setoid_rewrite list_elem_of_omap. by setoid_rewrite H.
Qed.

Lemma isInTimeWindows_elements ws ws' t :
  (forall w, w ∈ ws <-> w ∈ ws') -> isInTimeWindows ws t = isInTimeWindows ws' t.
Proof. intros H. unfold isInTimeWindows. apply eq_true_iff_eq. rewrite !existsb_spec. by setoid_rewrite H. Qed.

Section exceptions.
Context {HS : SortSlice}.
Implicit Types all : list (Versioned ScheduleException).

(** The windows of the exceptions of a kind that are active. *)
Definition active_of (k : ExceptionKind) (now : time) all : list ScheduleException :=
  filter (fun x => is_active now x = true /\ se_Type x = k) (map ver_Object all).
Definition kind_windows (k : ExceptionKind) (now : time) all : list OffHourWindow :=
  concat (map se_Windows (active_of k now all)).

(** The base windows, or those of the active replacements. *)
Definition replaced_windows (now : time) (plan : HibernatePlan) all : list OffHourWindow :=
  match active_of KindReplace now all with
  | [] => sched_OffHours (spec_Schedule (plan_Spec plan))
  | _ => kind_windows KindReplace now all
  end.

(** The exceptions that are handed to the scheduler. *)
Definition converted (now : time) all : list Exception :=
  map (fun x => convertException (ver_Object x)) (filterActiveExceptions now all).

Lemma filterActiveExceptions_elem now all x :
  x ∈ filterActiveExceptions now all <-> x ∈ all /\ is_active now (ver_Object x) = true.
Proof. unfold filterActiveExceptions. rewrite sort_Slice_perm, list_elem_of_filter. naive_solver. Qed.

Lemma converted_active e all :
  filterActive e (map (fun x => Some (convertException (ver_Object x))) (filterActiveExceptions (Clock e) all))
  = converted (Clock e) all.
Proof.
  unfold converted. rewrite <- (map_map (fun x => convertException (ver_Object x)) Some).
  apply filterActive_all, Forall_forall. intros y Hy. apply list_elem_of_fmap in Hy as (x & -> & Hx).
  apply filterActiveExceptions_elem in Hx as [_ Hx]. unfold is_active, After, Before in Hx.
  unfold isExceptionActive, After, Before. cbn [convertException ValidFrom ValidUntil]. reflect. lia.
Qed.

Lemma exception_type_inj k k' : exception_type k = exception_type k' -> k = k'.
Proof. by destruct k, k'; cbn; intros; simplify_eq. Qed.

Lemma of_type_elem k now all y :
  y ∈ of_type (exception_type k) (converted now all) <->
  exists x, y = convertException x /\ x ∈ active_of k now all.
Proof.
  unfold of_type, converted, active_of. rewrite list_elem_of_filter, list_elem_of_fmap.
  setoid_rewrite list_elem_of_filter. setoid_rewrite list_elem_of_fmap.
  setoid_rewrite filterActiveExceptions_elem. split.
  - intros (Ht & x & -> & Hx & Ha). exists (ver_Object x). split; [done|].
    split; [split; [done|by apply exception_type_inj]|]. by exists x.
  - intros (x & -> & [Ha Ht] & v & -> & Hv). split; [cbn; congruence|]. by exists v.
Qed.

Lemma of_type_nil k now all :
  of_type (exception_type k) (converted now all) = [] <-> active_of k now all = [].
Proof.
  split; intros H; apply elem_of_nil_inv; intros x Hx.
  - apply (elem_of_nil (convertException x)). rewrite <- H. apply of_type_elem. by exists x.
  - apply of_type_elem in Hx as (y & _ & Hy). rewrite H in Hy. by apply elem_of_nil in Hy.
Qed.

Lemma windows_of_elem k now all w :
  w ∈ windows_of (exception_type k) (converted now all) <-> w ∈ kind_windows k now all.
Proof.
  unfold windows_of, kind_windows. rewrite !list_elem_of_In, !in_concat. setoid_rewrite <- list_elem_of_In.
  setoid_rewrite list_elem_of_fmap. setoid_rewrite of_type_elem. split.
  - intros (ws & (y & -> & x & -> & Hx) & Hw). exists (se_Windows x). split; [by exists x|done].
  - intros (ws & (x & -> & Hx) & Hw). exists (se_Windows x). split; [|done]. exists (convertException x).
    split; [done|]. by exists x.
Qed.

Lemma kind_in_windows k now all t :
  isInTimeWindows (windows_of (exception_type k) (converted now all)) t = isInTimeWindows (kind_windows k now all) t.
Proof. apply isInTimeWindows_elements. intros w. apply windows_of_elem. Qed.

Lemma kind_off k now all t :
  windows_off (windows_of (exception_type k) (converted now all)) t = windows_off (kind_windows k now all) t.
Proof. apply windows_off_elements. intros w. apply windows_of_elem. Qed.
End exceptions.

(** ** The delivered decision *)

Section decision.
Context {HCron : Cron} {HTz : TimezoneDB} {Hlaws : CronLaws} {HS : SortSlice}.
Implicit Types (e : ScheduleEvaluator) (all : list (Versioned ScheduleException)).

(** An exception whose windows the evaluator accepts, and that has some. *)
Definition windows_valid (x : ScheduleException) : Prop :=
  se_Windows x <> [] /\ Forall window_wf (se_Windows x).

Lemma active_of_elem k now all x :
  x ∈ active_of k now all <-> is_active now x = true /\ se_Type x = k /\ x ∈ map ver_Object all.
Proof. unfold active_of. rewrite list_elem_of_filter. naive_solver. Qed.

Lemma kind_windows_wf k now all :
  Forall (fun x => windows_valid (ver_Object x)) all ->
  Forall window_wf (kind_windows k now all) /\ (active_of k now all <> [] -> kind_windows k now all <> []).
Proof.
  intros H. rewrite Forall_forall in H.
  assert (forall x, x ∈ active_of k now all -> windows_valid x) as Hv.
  { intros x Hx. apply active_of_elem in Hx as (_ & _ & Hx). apply list_elem_of_fmap in Hx as (y & -> & Hy). by apply H. }
  unfold kind_windows. split.
  - apply Forall_forall. intros w Hw. rewrite list_elem_of_In, in_concat in Hw. destruct Hw as (ws & Hws & Hw).
    apply list_elem_of_In, list_elem_of_fmap in Hws as (x & -> & Hx). destruct (Hv x Hx) as [_ Hf].
    rewrite Forall_forall in Hf. by apply Hf, list_elem_of_In.
  - destruct (active_of k now all) as [|x l]; [done|]. intros _. destruct (Hv x) as [Hne _]; [by left|].
    cbn [map concat]. by destruct (se_Windows x).
Qed.

Lemma windows_of_wf k now all :
  Forall (fun x => windows_valid (ver_Object x)) all -> Forall window_wf (windows_of (exception_type k) (converted now all)).
Proof.
  intros H. destruct (kind_windows_wf k now all H) as [Hwf _]. rewrite Forall_forall in Hwf |- *.
  intros w Hw. apply Hwf. by apply windows_of_elem.
Qed.

(** The windows that replace the base, in the order of the scheduler. *)
Lemma effective_elem e plan all w :
  w ∈ effective_windows e (sched_OffHours (spec_Schedule (plan_Spec plan)))
        (map (fun x => Some (convertException (ver_Object x))) (filterActiveExceptions (Clock e) all))
  <-> w ∈ replaced_windows (Clock e) plan all.
Proof.
  unfold effective_windows, active_windows, replaced_windows. rewrite converted_active.
  pose proof (of_type_nil KindReplace (Clock e) all) as Hnil. cbn [exception_type] in Hnil.
  destruct (of_type ExceptionReplace _) as [|y l] eqn:E.
  - by rewrite (proj1 Hnil eq_refl).
  - rewrite (windows_of_elem KindReplace). destruct (active_of KindReplace (Clock e) all); [|done].
    discriminate (proj2 Hnil eq_refl).
Qed.

Definition schedule_valid (plan : HibernatePlan) : Prop :=
  let windows := sched_OffHours (spec_Schedule (plan_Spec plan)) in windows <> [] /\ Forall window_wf windows.

Lemma effective_valid e plan all :
  schedule_valid plan -> Forall (fun x => windows_valid (ver_Object x)) all ->
  let ws := effective_windows e (sched_OffHours (spec_Schedule (plan_Spec plan)))
        (map (fun x => Some (convertException (ver_Object x))) (filterActiveExceptions (Clock e) all)) in
  ws <> [] /\ Forall window_wf ws.
Proof.
  intros [Hne Hwf] Hall ws. destruct (kind_windows_wf KindReplace (Clock e) all Hall) as [Hk Hkne].
  assert (forall w, w ∈ ws <-> w ∈ replaced_windows (Clock e) plan all) as Helem by apply effective_elem.
  assert (replaced_windows (Clock e) plan all <> [] /\ Forall window_wf (replaced_windows (Clock e) plan all)) as [Hrne Hrwf].
  { unfold replaced_windows. destruct (active_of KindReplace (Clock e) all) eqn:E; [done|]. split; [by apply Hkne|done]. }
  split.
  - intros Hnil. destruct (replaced_windows (Clock e) plan all) as [|w l] eqn:E; [done|].
    apply (elem_of_nil w). rewrite <- Hnil. apply Helem. by left.
  - rewrite Forall_forall in Hrwf |- *. intros w Hw. by apply Hrwf, Helem.
Qed.

Context (plan : HibernatePlan) (loc : Location).
Context (Hload : LoadLocation (sched_Timezone (spec_Schedule (plan_Spec plan))) = Some loc) (Hloc : regular_zone loc).

(** The schedule evaluates, to some result of the scheduler. *)
Lemma evaluateSchedule_result e all :
  recent (Clock e) -> schedule_valid plan -> Forall (fun x => windows_valid (ver_Object x)) all ->
  exists r, Evaluate e (sched_OffHours (spec_Schedule (plan_Spec plan))) (sched_Timezone (spec_Schedule (plan_Spec plan)))
      (map (fun x => Some (convertException (ver_Object x))) (filterActiveExceptions (Clock e) all)) = Ok (Some r) /\
    evaluateSchedule e plan all =
      Ok (mkScheduleEvaluation (filterActiveExceptions (Clock e) all) (ShouldHibernate r) (computeNextEvent e r)).
Proof using Hlaws Hload Hloc.
  intros Hr [_ Hwf] Hall.
  destruct (Evaluate_total e _ loc Hload Hloc Hr (sched_OffHours (spec_Schedule (plan_Spec plan)))
    (map (fun x => Some (convertException (ver_Object x))) (filterActiveExceptions (Clock e) all)) Hwf) as [r Hr'].
  { apply Forall_forall. intros o Ho. apply list_elem_of_fmap in Ho as (x & -> & Hx).
    apply filterActiveExceptions_elem in Hx as [Hx _]. rewrite Forall_forall in Hall. apply (Hall x Hx). }
  exists r. split; [done|]. unfold evaluateSchedule. by rewrite Hr'.
Qed.

Context {HV : Validator} {HM : MapOrder}.

Lemma admitted_valid :
  ValidateCreate_plan plan = Some [] ->
  Forall (fun w => ~ same_minute w) (sched_OffHours (spec_Schedule (plan_Spec plan))) -> schedule_valid plan.
Proof using Type.
  intros H Hmin. unfold ValidateCreate_plan, validate_plan in H. apply bind_Some in H as (serrs & _ & H).
  injection H as H. apply app_nil in H as [Hsched _].
  destruct (admitted_windows plan Hsched) as [Hne Hw]. split; [done|]. rewrite Forall_forall in Hmin |- *.
  intros w Hin. destruct (Hw w Hin) as [_ [ [v Hv]|Hs] ]; [|by destruct (Hmin w Hin)].
  exists v. by apply view_of_ok.
Qed.

Lemma admitted_exception_valid x :
  validateWindows x = [] -> Forall (fun w => parseTime (Start w) <> parseTime (Stop w)) (se_Windows x) -> windows_valid x.
Proof.
  intros H Hne. split; [by intros Hnil; unfold validateWindows in H; rewrite Hnil in H|].
  rewrite Forall_forall in Hne |- *. intros w Hw. destruct (validateWindows_wf x w H Hw (Hne w Hw)) as [v Hv].
  exists v. by apply view_of_ok.
Qed.

(** C1: a plan that the webhook admits gets a decision, and the right one. It is
    assumed that the timezone of the plan is known and has one offset, in whole
    minutes (there is no summer time), that the clock is later than the first week
    of year 1, and that the windows of the exceptions, like those of the plan, are
    accepted by the webhook and none of them starts and ends in the same minute,
    which the webhook does not exclude for the exceptions, nor for a plan that
    writes the minute in two ways. Then the evaluation of the schedule succeeds, on
    the exceptions whose period contains the instant; inside a window of an active
    suspension the plan is awake, whatever the buffer and the lead times; and
    without these it is hibernated just when the instant is in the off hours of the
    plan, or of the replacements if there are any, or of an extension, and in no
    window of a suspension. *)
Theorem plan_decided e all :
  ValidateCreate_plan plan = Some [] ->
  Forall (fun w => ~ same_minute w) (sched_OffHours (spec_Schedule (plan_Spec plan))) ->
  Forall (fun x => validateWindows (ver_Object x) = [] /\
    Forall (fun w => parseTime (Start w) <> parseTime (Stop w)) (se_Windows (ver_Object x))) all ->
  recent (Clock e) ->
  exists sev, evaluateSchedule e plan all = Ok sev /\
    sev_Exceptions sev ≡ₚ filter (fun x => is_active (Clock e) (ver_Object x) = true) all /\
    (isInTimeWindows (kind_windows KindSuspend (Clock e) all) (In (Clock e) loc) = true ->
     sev_ShouldHibernate sev = false) /\
    (scheduleBuffer e <= 0 -> Forall (fun x => se_LeadTime (ver_Object x) = "") all ->
     sev_ShouldHibernate sev =
       (windows_off (replaced_windows (Clock e) plan all) (In (Clock e) loc)
        || windows_off (kind_windows KindExtend (Clock e) all) (In (Clock e) loc))
       && negb (isInTimeWindows (kind_windows KindSuspend (Clock e) all) (In (Clock e) loc))).
Proof using Hlaws Hload Hloc.
  intros Hplan Hmin Hexcs Hr. pose proof (admitted_valid Hplan Hmin) as Hvalid.
  assert (Forall (fun x => windows_valid (ver_Object x)) all) as Hall.
  { eapply Forall_impl; [exact Hexcs|]. intros x [H1 H2]. by apply admitted_exception_valid. }
  destruct (evaluateSchedule_result e all Hr Hvalid Hall) as (r & He & ->).
  eexists. split; [done|]. cbn [sev_Exceptions sev_ShouldHibernate].
  split; [apply sort_Slice_perm|]. rewrite <- (kind_in_windows KindSuspend).
  set (excs := map _ _) in He. cbn [exception_type].
  assert (filterActive e excs = converted (Clock e) all) as Hact by apply converted_active.
  split.
  - intros Hin. eapply (Evaluate_suspended e _ loc Hload _ excs r); [|exact He]. unfold active_windows. by rewrite Hact.
  - intros Hb Hlead.
    destruct (effective_valid e plan all Hvalid Hall) as [_ Heff].
    destruct (Evaluate_decision e _ loc Hload Hloc Hr (sched_OffHours (spec_Schedule (plan_Spec plan))) excs Hb)
      as (r' & Hr' & Hd); [|exact Heff| |].
    + rewrite Hact. apply Forall_forall. intros y Hy. apply list_elem_of_fmap in Hy as (x & -> & Hx).
      apply filterActiveExceptions_elem in Hx as [Hx _]. rewrite Forall_forall in Hlead.
      unfold convertException. rewrite (Hlead x Hx). done.
    + unfold active_windows. rewrite Hact. by apply (windows_of_wf KindExtend).
    + rewrite He in Hr'. injection Hr' as <-. rewrite Hd. unfold active_windows. rewrite Hact.
      rewrite (windows_off_elements _ (replaced_windows (Clock e) plan all)) by (intros w; apply effective_elem).
      by rewrite (kind_off KindExtend).
Qed.
End decision.
