(* ===== verification/Requeue.v ===== *)
(** * The requeue processor ([internal/provider/processor/requeue])

    [PlanRequeueProcessor]: one timer per plan, at the next instant at which the
    schedule or the period of an exception says that something changes; a timer
    that fires has the plan reconciled.  Each timer has a goroutine that waits for
    it; these run concurrently with the handler and with each other. *)
From S2P Require Import Prelude Monad GoString GoTime Types Worker Delivery.

Local Open Scope Z_scope.

(** ** The next boundary *)

Definition minTime (a b : time) : time :=
  if IsZero a then b else if IsZero b then a else if Before a b then a else b.

(** A boundary of an exception that is still to come. *)
Definition sooner (now t earliest : time) : time :=
  if negb (IsZero t) && Before now t then minTime earliest t else earliest.

Definition exception_boundary (now earliest : time) (exc : Versioned ScheduleException) : time :=
  sooner now (se_ValidUntil (ver_Object exc)) (sooner now (se_ValidFrom (ver_Object exc)) earliest).

(** [None] is the zero time. *)
Definition computeBoundary (now : time) (planCtx : Delivery) : option time :=
  let schedule :=
    match dl_Schedule planCtx with
    | Some s => if IsZero (sev_NextEvent s) then zero_time else sev_NextEvent s
    | None => zero_time
    end in
  let earliest := fold_left (exception_boundary now) (dl_Exceptions planCtx) schedule in
  if IsZero earliest then None else Some earliest.

(** ** The processor *)

(** A goroutine that waits for a timer: when the timer fires, whether the timer
    has been stopped, and whether the context of the goroutine is cancelled. *)
Record Waiter := mkWaiter {
  wt_Key : NamespacedName;
  wt_Due : Z;
  wt_Stopped : bool;
  wt_Cancelled : bool;
}.

(** What a call of [Enqueue] did: for which plan and when it put an event into the
    channel, or dropped it, which is logged and counted ([EnqueueDropTotal]). *)
Record EnqueueCall := mkEnqueueCall {
  eq_Key : NamespacedName;
  eq_Time : Z;
  eq_Accepted : bool;
}.

(** The timers of the plans, their goroutines, the channel of [channelEnqueuer], and
    in [rq_log] the calls of its [Enqueue] so far, the first one first. *)
Record Requeue := mkRequeue {
  rq_now : time;
  rq_timers : gmap NamespacedName nat;
  rq_waiters : gmap nat Waiter;
  rq_next : nat;
  rq_channel : list NamespacedName;
  rq_log : list EnqueueCall;
}.

Definition set_rq_now (v : time) (s : Requeue) : Requeue :=
  mkRequeue v (rq_timers s) (rq_waiters s) (rq_next s) (rq_channel s) (rq_log s).
Definition set_rq_timers (v : gmap NamespacedName nat) (s : Requeue) : Requeue :=
  mkRequeue (rq_now s) v (rq_waiters s) (rq_next s) (rq_channel s) (rq_log s).
Definition set_rq_waiters (v : gmap nat Waiter) (s : Requeue) : Requeue :=
  mkRequeue (rq_now s) (rq_timers s) v (rq_next s) (rq_channel s) (rq_log s).
Definition set_rq_channel (v : list NamespacedName) (s : Requeue) : Requeue :=
  mkRequeue (rq_now s) (rq_timers s) (rq_waiters s) (rq_next s) v (rq_log s).

Definition set_rq_log (v : list EnqueueCall) (s : Requeue) : Requeue :=
  mkRequeue (rq_now s) (rq_timers s) (rq_waiters s) (rq_next s) (rq_channel s) v.

(** The capacity that [setup.go] gives to the channel. *)
Definition enqueue_capacity : nat := 128.

(** [channelEnqueuer.Enqueue]: when the channel is full the event is dropped. *)
Definition Enqueue (key : NamespacedName) (s : Requeue) : Requeue :=
  let accepted := (length (rq_channel s) <? enqueue_capacity)%nat in
  let s := set_rq_log (rq_log s ++ [mkEnqueueCall key (unix_ns (rq_now s)) accepted]) s in
  if accepted then set_rq_channel (rq_channel s ++ [key]) s else s.

(** [Stop] has no effect on a timer that has fired. *)
Definition cancel_waiter (now : Z) (w : Waiter) : Waiter :=
  mkWaiter (wt_Key w) (wt_Due w) (wt_Stopped w || (now <? wt_Due w)) true.

Definition cancel_timer (key : NamespacedName) (s : Requeue) : Requeue :=
  match rq_timers s !! key with
  | None => s
  | Some id =>
      set_rq_timers (delete key (rq_timers s))
        (set_rq_waiters (alter (cancel_waiter (unix_ns (rq_now s))) id (rq_waiters s)) s)
  end.

Definition start_timer (key : NamespacedName) (due : Z) (s : Requeue) : Requeue :=
  mkRequeue (rq_now s) (<[key := rq_next s]> (rq_timers s))
    (<[rq_next s := mkWaiter key due false false]> (rq_waiters s)) (S (rq_next s)) (rq_channel s) (rq_log s).

(** The handler of the subscription. *)
Definition on_update (update : Update NamespacedName Delivery) (s : Requeue) : Requeue :=
  let key := upd_Key update in
  let s := cancel_timer key s in
  match upd_Value update with
  | None => s
  | Some planCtx =>
      let now := rq_now s in
      match computeBoundary now planCtx with
      | None => s
      | Some boundary =>
          let d := Sub boundary now in
          if d <=? 0 then Enqueue key s else start_timer key (unix_ns now + d) s
      end
  end.

(** ** Runs *)

(** What happens in a step: an update is handled, a goroutine enqueues its plan or
    quits, the controller takes a plan, or time passes. *)
Inductive Event :=
| EvUpdate (u : Update NamespacedName Delivery)
| EvFire (id : nat)
| EvQuit (id : nat)
| EvTake (key : NamespacedName)
| EvClock (t : time).

Definition requeue_step (ev : Event) (s : Requeue) : option Requeue :=
  match ev with
  | EvUpdate u => Some (on_update u s)
  | EvFire id =>
      w ← rq_waiters s !! id;
      if negb (wt_Stopped w) && (wt_Due w <=? unix_ns (rq_now s))
      then Some (Enqueue (wt_Key w) (set_rq_waiters (delete id (rq_waiters s)) s))
      else None
  | EvQuit id =>
      w ← rq_waiters s !! id;
      if wt_Cancelled w then Some (set_rq_waiters (delete id (rq_waiters s)) s) else None
  | EvTake key =>
      match rq_channel s with
      | k :: l => if decide (k = key) then Some (set_rq_channel l s) else None
      | [] => None
      end
  | EvClock t => if unix_ns (rq_now s) <=? unix_ns t then Some (set_rq_now t s) else None
  end.

Fixpoint requeue_runs (evs : list Event) (s : Requeue) : option Requeue :=
  match evs with
  | [] => Some s
  | ev :: evs' => s' ← requeue_step ev s; requeue_runs evs' s'
  end.

Definition requeue_start (now : time) : Requeue := mkRequeue now ∅ ∅ 0 [] [].
