(* ===== verification/DeliverySpec.v ===== *)
(** * What reaches the processors

    A context that is not delivered, because it equals the one before, would have
    changed nothing; and the end of a Job is always delivered. *)
From S2P Require Import Prelude Monad GoString GoTime Windows Evaluate.
From S2P Require Import Types Cluster Restore World ExecutionUtils Handlers Worker Delivery Provider Requeue.
From Stdlib Require Import Lia.

Local Open Scope Z_scope.

(** ** Equal contexts *)

Lemma EqualFunc_eq {A} (eq : A -> A -> bool) (l k : list A) :
  (forall x y, x ∈ l -> y ∈ k -> eq x y = true -> x = y) -> EqualFunc eq l k = true -> l = k.
Proof.
  revert k. induction l as [|x l IH]; intros [|y k] H; cbn [EqualFunc]; try done.
  intros E. reflect. f_equal; [apply H; [by left|by left|done]|].
  apply IH; [|done]. intros x' y' Hx Hy. apply H; by right.
Qed.

(** Among the objects of two contexts, one version is one object; of a plan, but for
    its status, which the program also changes in memory. *)
Record versions_identify (a b : Delivery) : Prop := {
  identify_plan :
    plan_Namespace (ver_Object (dl_Plan a)) = plan_Namespace (ver_Object (dl_Plan b)) ->
    plan_Name (ver_Object (dl_Plan a)) = plan_Name (ver_Object (dl_Plan b)) ->
    same_version (dl_Plan a) (dl_Plan b) = true ->
    exists st, ver_Object (dl_Plan b) = set_plan_Status st (ver_Object (dl_Plan a));
  identify_exceptions : forall x y, x ∈ dl_Exceptions a -> y ∈ dl_Exceptions b ->
    se_Namespace (ver_Object x) = se_Namespace (ver_Object y) -> se_Name (ver_Object x) = se_Name (ver_Object y) ->
    same_version x y = true -> x = y;
}.

(** One instant. *)
Definition same_instant (a b : option time) : Prop :=
  match a, b with
  | None, None => True
  | Some t, Some u => unix_ns t = unix_ns u
  | _, _ => False
  end.

Lemma minTime_instant a a' b : unix_ns a = unix_ns a' -> unix_ns (minTime a b) = unix_ns (minTime a' b).
Proof. intros H. unfold minTime, IsZero, Before. rewrite H. by repeat case_match. Qed.

Lemma sooner_instant now t a a' : unix_ns a = unix_ns a' -> unix_ns (sooner now t a) = unix_ns (sooner now t a').
Proof. intros H. unfold sooner. destruct (_ && _); [by apply minTime_instant|done]. Qed.

Lemma boundaries_instant now all a a' :
  unix_ns a = unix_ns a' ->
  unix_ns (fold_left (exception_boundary now) all a) = unix_ns (fold_left (exception_boundary now) all a').
Proof.
  revert a a'. induction all as [|x all IH]; intros a a' H; [done|]. cbn [fold_left]. apply IH.
  unfold exception_boundary. by do 2 apply sooner_instant.
Qed.

Lemma computeBoundary_instant now a b :
  dl_Exceptions a = dl_Exceptions b ->
  match dl_Schedule a, dl_Schedule b with
  | None, None => True
  | Some x, Some y => unix_ns (sev_NextEvent x) = unix_ns (sev_NextEvent y)
  | _, _ => False
  end ->
  same_instant (computeBoundary now a) (computeBoundary now b).
Proof.
  intros He Hs. unfold computeBoundary. rewrite He.
  assert (forall t u : time, unix_ns t = unix_ns u ->
    same_instant (if IsZero t then None else Some t) (if IsZero u then None else Some u)) as Hi.
  { intros t u H. unfold IsZero. rewrite H. by destruct (_ =? zero_ns). }
  apply Hi, boundaries_instant. destruct (dl_Schedule a), (dl_Schedule b); try done. unfold IsZero. rewrite Hs.
  by destruct (_ =? zero_ns).
Qed.

Lemma notificationsEqual_eq x y : notificationsEqual x y = true -> x = y.
Proof.
  destruct x, y. unfold notificationsEqual, same_version. cbn. intros H.
  apply andb_true_iff in H as [Ho H]. apply andb_true_iff in H as [Hu Hr].
  apply bool_decide_eq_true in Ho. apply String.eqb_eq in Hu, Hr. by subst.
Qed.

(** The gates of [selectHandler] read no status but the phase. *)
Lemma selectHandler_Status now st p :
  st_Phase st = plan_Phase p -> selectHandler now (set_plan_Status st p) = selectHandler now p.
Proof.
  intros H. unfold selectHandler, runPrePhaseGates, deletionGate, suspensionGate, checkAutoSuspendAnnotation, phase_handler.
  change (plan_Phase (set_plan_Status st p)) with (st_Phase st). rewrite H. destruct p. reflexivity.
Qed.

(** Two contexts that no processor tells apart: a worker that has a context is left
    in the same state by either; a new worker selects the same handler; the hooks of
    the handlers submit to the same notifications; the requeue processor waits for
    the same instant. *)
Record same_context (a b : Delivery) : Prop := {
  same_merge : forall {HK : KubeApi} s, wk_cached s = true ->
    mergeIncoming (worker_context b).1 s = mergeIncoming (worker_context a).1 s;
  same_phase : plan_Phase (ver_Object (dl_Plan b)) = plan_Phase (ver_Object (dl_Plan a));
  same_handler : forall now,
    selectHandler now (ver_Object (dl_Plan b)) = selectHandler now (ver_Object (dl_Plan a));
  same_decision : pc_Schedule (worker_context b).1 = pc_Schedule (worker_context a).1;
  same_exceptions : pc_Exceptions (worker_context b).1 = pc_Exceptions (worker_context a).1;
  same_restore_flag : pc_HasRestoreData (worker_context b).1 = pc_HasRestoreData (worker_context a).1;
  same_notifications : (worker_context b).2 = (worker_context a).2;
  same_boundary : forall now, same_instant (computeBoundary now a) (computeBoundary now b);
}.

Lemma Equal_same a b : versions_identify a b -> PlanContext_Equal a b = true -> same_context a b.
Proof.
  intros [Hp Hx] H. unfold PlanContext_Equal in H. reflect.
  repeat match goal with H : (_ && _) = true |- _ => apply andb_true_iff in H as [? ?] end.
  match goal with H : planEqual _ _ = true |- _ => unfold planEqual in H; reflect end.
  assert (dl_Exceptions a = dl_Exceptions b) as He.
  { match goal with H : EqualFunc exceptionsEqual _ _ = true |- _ => revert H end. apply EqualFunc_eq.
    intros x y Hin Hiny E. unfold exceptionsEqual in E. reflect.
    apply Hx; first [done|by apply String.eqb_eq]. }
  assert (dl_Notifications a = dl_Notifications b) as Hn.
  { match goal with H : EqualFunc notificationsEqual _ _ = true |- _ => revert H end. apply EqualFunc_eq.
    intros x y _ _. apply notificationsEqual_eq. }
  assert (plan_Phase (ver_Object (dl_Plan a)) = plan_Phase (ver_Object (dl_Plan b))) as Hph by done.
  assert (exists st, ver_Object (dl_Plan b) = set_plan_Status st (ver_Object (dl_Plan a))) as [st Hpl].
  { apply Hp; first [done|by apply String.eqb_eq]. }
  assert (dl_HasRestoreData a = dl_HasRestoreData b) as Hrd by first [done|by apply Bool.eqb_prop].
  assert (sev_ShouldHibernate <$> dl_Schedule b = sev_ShouldHibernate <$> dl_Schedule a) as Hd.
  { destruct (dl_Schedule a), (dl_Schedule b); try done. unfold scheduleEqual in *. reflect. cbn. f_equal.
    symmetry. first [done|by apply Bool.eqb_prop]. }
  assert (st_Phase st = plan_Phase (ver_Object (dl_Plan a))) as Hst by (by rewrite Hph, Hpl).
  split; cbn [worker_context fst snd pc_Schedule pc_Exceptions pc_HasRestoreData]; try congruence.
  - intros HK s Hc. unfold mergeIncoming. cbn [worker_context fst pc_Plan pc_Schedule pc_Exceptions pc_HasRestoreData].
    by rewrite Hc, Hpl, Hd, He, Hrd.
  - intros now. rewrite Hpl. by apply selectHandler_Status.
  - intros now. apply computeBoundary_instant; [done|]. destruct (dl_Schedule a), (dl_Schedule b); try done.
    unfold scheduleEqual, Equal in *. reflect. done.
Qed.

(** ** Reconciliations *)

Section reconcile.
Context {HCron : Cron} {HTz : TimezoneDB} {HS : SortSlice}.
Context {HK : KubeApi} {HJ : JSON} {HP : ProviderClient} {HW : Watchable} {HWL : WatchableLaws}.
Context (map_order : list (string * string) -> list (string * string)).
Implicit Types s : Hub.

(** The reads change neither the map nor the counters. *)
Lemma Reconcile_stores e key s s' :
  Reconcile map_order e key s = (Ok Reconciled, s') ->
  hub_resources s' = wm_Delete key (hub_resources s) \/
  exists d, hub_resources s' = wm_Store key d (hub_resources s) /\ dl_DeliveryNonce d = nonce_Get key (hub_nonces s).
Proof.
  unfold Reconcile, fetchAllExceptions, read, st_bind, st_ret, st_throw, st_panic, st_modify, st_lift, st_try.
  destruct (pv_get_plan key (hub_client s)) as [ [err|plan] c]; cbn [fst snd].
  { destruct err; intros [= <-]. by left. }
  destruct (pv_list_exceptions _ _ _) as [xs c1]. destruct (pv_notifications _ _) as [ns c2].
  destruct (evaluateSchedule e (ver_Object plan) (or_nil xs)) as [sev| | |]; try done.
  destruct (HasRestoreData _ _ _ _) as [ [b| | |] cl]; try done; intros [= <-]; right; eexists; split; done.
Qed.

(** C35: a delivery is left out only when it would change nothing.  After a
    reconciliation that has read the plan, either its processors get an update
    with the state that is now stored, or that state was stored before: the plan
    had been absent and is so still, or the context before equals the new one.
    Then no dependency has changed in between; and provided that among the objects
    of these two contexts a resource version identifies an exception, and a plan but
    for its status, no processor could tell the two apart: a worker that has a
    context would go on in the same state, a new one would select the same handler
    by the same phase, decision, exceptions and restore flag, the hooks would submit
    to the same notifications, and the requeue processor would have the same
    boundary. *)
Theorem reconcile_delivers e key s s' :
  Reconcile map_order e key s = (Ok Reconciled, s') ->
  let old := wm_load (hub_resources s) key in
  let new := wm_load (hub_resources s') key in
  wm_updates (hub_resources s') = wm_updates (hub_resources s) ++ [mkUpdate key new] \/
  wm_updates (hub_resources s') = wm_updates (hub_resources s) /\
    match old, new with
    | None, None => True
    | Some a, Some b =>
        dl_DeliveryNonce a = nonce_Get key (hub_nonces s) /\
        (versions_identify a b -> same_context a b)
    | _, _ => False
    end.
Proof using HWL.
  intros H old new. unfold old, new. destruct (Reconcile_stores e key s s' H) as [-> | (d & -> & Hn)].
  - rewrite wm_updates_Delete, wm_load_Delete, decide_True by done. destruct (wm_load _ key); [by left|by right].
  - rewrite wm_updates_Store, wm_load_Store, decide_True by done. destruct (wm_load _ key) as [a|]; [|by left].
    destruct (PlanContext_Equal a d) eqn:E; [right|by left]. split; [done|].
    split; [|intros Hv; by apply Equal_same].
    unfold PlanContext_Equal in E. reflect. congruence.
Qed.

Lemma int64_succ n : in_int64 n -> int64 (n + 1) <> n.
Proof.
  unfold in_int64. intros H. destruct (decide (n = 2 ^ 63 - 1)) as [->|Hne]; [by vm_compute|].
  rewrite int64_id; unfold in_int64; lia.
Qed.

(** The first time that a Job of a plan has succeeded or failed, the next
    reconciliation is delivered, even if nothing else has changed. *)
Theorem job_end_delivered e owner oldJob newJob s s' a :
  let key := (job_Namespace newJob, owner) in
  is_terminal oldJob = false -> is_terminal newJob = true ->
  wm_load (hub_resources s) key = Some a ->
  dl_DeliveryNonce a = nonce_Get key (hub_nonces s) -> in_int64 (dl_DeliveryNonce a) ->
  Reconcile map_order e key (onJobTerminalUpdate (Some owner) oldJob newJob s).2 = (Ok Reconciled, s') ->
  wm_updates (hub_resources s') = wm_updates (hub_resources s) ++ [mkUpdate key (wm_load (hub_resources s') key)].
Proof using HWL.
  intros key Hold Hnew Ha Hn Hi. unfold onJobTerminalUpdate. rewrite Hold, Hnew. cbn [negb andb snd].
  fold key. set (s1 := set_hub_nonces _ s). intros H.
  assert (hub_resources s1 = hub_resources s) as Hr by done.
  assert (nonce_Get key (hub_nonces s1) = int64 (dl_DeliveryNonce a + 1)) as Hn1.
  { assert (forall (m : gmap NamespacedName Z) v, default 0 (<[key := v]> m !! key) = v) as Hins
      by (intros; by rewrite lookup_insert_eq). rewrite Hn. apply Hins. }
  destruct (Reconcile_stores e key s1 s' H) as [-> | (d & -> & Hd)]; rewrite Hr.
  - by rewrite wm_updates_Delete, wm_load_Delete, decide_True, Ha by done.
  - rewrite wm_updates_Store, wm_load_Store, decide_True, Ha by done. destruct (PlanContext_Equal a d) eqn:E; [|done].
    exfalso. unfold PlanContext_Equal in E. reflect. apply (int64_succ _ Hi). congruence.
Qed.
End reconcile.

(** ** Coalesced updates *)

Section coalesce.
Context {K V : Type} `{Countable K}.
Implicit Types l : list (Update K V).

(** Each key once, with its first update. *)
Lemma coalesce_loop_spec seen l :
  NoDup (map upd_Key (coalesce_loop seen l)) /\
  (forall u, u ∈ coalesce_loop seen l -> upd_Key u ∉ seen) /\
  forall u, u ∈ coalesce_loop seen l <->
    upd_Key u ∉ seen /\ exists l1 l2, l = l1 ++ u :: l2 /\ Forall (fun v => upd_Key v <> upd_Key u) l1.
Proof.
  revert seen. induction l as [|x l IH]; intros seen; cbn [coalesce_loop].
  { split; [constructor|]. split; [set_solver|]. intros u. split; [set_solver|]. by intros (_ & [|] & ? & ? & _). }
  case_bool_decide as Hx.
  - destruct (IH seen) as (H1 & H2 & H3). split; [done|]. split; [done|]. intros u. rewrite H3. split.
    + intros (Hu & l1 & l2 & -> & Hl). split; [done|]. exists (x :: l1), l2. split; [done|]. constructor; [congruence|done].
    + intros (Hu & l1 & l2 & Heq & Hl). split; [done|]. destruct l1 as [|y l1]; injection Heq as -> ->; [done|].
      apply Forall_cons in Hl as [_ Hl]. by exists l1, l2.
  - destruct (IH ({[upd_Key x]} ∪ seen)) as (H1 & H2 & H3). split; [|split].
    + cbn [map]. constructor; [|done]. rewrite list_elem_of_fmap. intros (u & Hu & Hin). specialize (H2 u Hin). set_solver.
    + intros u Hu. apply elem_of_cons in Hu as [->|Hu]; [done|]. specialize (H2 u Hu). set_solver.
    + intros u. rewrite elem_of_cons, H3. split.
      * intros [-> | (Hu & l1 & l2 & -> & Hl)]; [split; [done|]; by exists [], l|].
        split; [set_solver|]. exists (x :: l1), l2. split; [done|]. constructor; [set_solver|done].
      * intros (Hu & l1 & l2 & Heq & Hl). destruct l1 as [|y l1]; injection Heq as -> ->; [by left|right].
        apply Forall_cons in Hl as [Hy Hl]. split; [set_solver|]. by exists l1, l2.
Qed.

(** A processor handles, of the updates of a snapshot, the last one of each key. *)
Theorem coalesceUpdates_last l u :
  u ∈ coalesceUpdates l <-> exists l1 l2, l = l1 ++ u :: l2 /\ Forall (fun v => upd_Key v <> upd_Key u) l2.
Proof.
  unfold coalesceUpdates. case_bool_decide as Hl.
  - destruct l as [|x [|y l] ]; cbn [length] in Hl; [| |lia].
    + split; [set_solver|]. by intros ([|] & ? & ? & _).
    + rewrite list_elem_of_singleton. split; [intros ->; by exists [], []|].
      intros ([|z l1] & l2 & Heq & _); injection Heq as -> Heq; [done|]. by destruct l1.
  - rewrite list_elem_of_In, <- in_rev, <- list_elem_of_In. rewrite (proj2 (proj2 (coalesce_loop_spec ∅ (rev l)))). split.
    + intros (_ & l1 & l2 & Heq & Hf). exists (rev l2), (rev l1).
      rewrite <- (rev_involutive l), Heq, rev_app_distr. cbn [rev]. rewrite <- app_assoc. split; [done|].
      apply Forall_forall. intros v Hv. rewrite Forall_forall in Hf. apply Hf. rewrite list_elem_of_In in *. by apply in_rev.
    + intros (l1 & l2 & -> & Hf). split; [set_solver|]. exists (rev l2), (rev l1).
      rewrite rev_app_distr. cbn [rev]. rewrite <- app_assoc. split; [done|].
      apply Forall_forall. intros v Hv. rewrite Forall_forall in Hf. apply Hf. rewrite list_elem_of_In in *. by apply in_rev.
Qed.
End coalesce.
