(* ===== verification/RequeueSpec.v ===== *)
(** * What the requeue processor guarantees

    After a delivery of a plan there is a timer for its boundary, until the plan
    is enqueued at or after that boundary; and until then the decision that
    was delivered remains the right one. *)
From S2P Require Import Prelude Monad GoString GoTime Windows Evaluate CronSpec ScheduleSpec GraceSpec ExceptionSpec.
From S2P Require Import ScheduleClaims Types Cluster Restore World Worker Delivery Provider ProviderSpec Requeue.
From Stdlib Require Import Lia.

Local Open Scope Z_scope.

(** ** Calls of [Enqueue] *)

(** The plan was enqueued at that time. *)
Definition enqueued (key : NamespacedName) (t : Z) (log : list EnqueueCall) : Prop :=
  exists accepted, mkEnqueueCall key t accepted ∈ log.

(** The plans of the events that the channel took, and those that the controller
    took out of it. *)
Definition accepted_keys (log : list EnqueueCall) : list NamespacedName :=
  map eq_Key (filter (fun c => eq_Accepted c = true) log).
Definition taken (evs : list Event) : list NamespacedName :=
  omap (fun ev => match ev with EvTake key => Some key | _ => None end) evs.

(** An update of a plan. *)
Definition updates_key (key : NamespacedName) (ev : Event) : bool :=
  match ev with EvUpdate u => bool_decide (upd_Key u = key) | _ => false end.

(** ** The timers *)

(** The timer of a plan: its goroutine waits, and nothing has stopped it. *)
Definition armed (key : NamespacedName) (due : Z) (id : nat) (s : Requeue) : Prop :=
  rq_timers s !! key = Some id /\ rq_waiters s !! id = Some (mkWaiter key due false false).

Record timers_wf (s : Requeue) : Prop := {
  timers_fresh : forall key id, rq_timers s !! key = Some id -> (id < rq_next s)%nat;
  waiters_fresh : forall id w, rq_waiters s !! id = Some w -> (id < rq_next s)%nat;
  timers_inj : forall key key' id, rq_timers s !! key = Some id -> rq_timers s !! key' = Some id -> key = key';
}.

Lemma Enqueue_timers key s :
  rq_timers (Enqueue key s) = rq_timers s /\ rq_waiters (Enqueue key s) = rq_waiters s /\
  rq_next (Enqueue key s) = rq_next s /\ rq_now (Enqueue key s) = rq_now s.
Proof. unfold Enqueue. by case_match. Qed.

(** A call is recorded; what the channel takes is added at its end. *)
Lemma Enqueue_log key s : exists accepted, rq_log (Enqueue key s) = rq_log s ++ [mkEnqueueCall key (unix_ns (rq_now s)) accepted].
Proof. unfold Enqueue. case_match; by eexists. Qed.

Lemma accepted_keys_snoc log c :
  accepted_keys (log ++ [c]) = accepted_keys log ++ (if eq_Accepted c then [eq_Key c] else []).
Proof.
  unfold accepted_keys. rewrite filter_app, map_app. f_equal. rewrite filter_cons.
  by destruct c as [k t [|] ].
Qed.

Lemma Enqueue_channel key s l :
  accepted_keys (rq_log s) = l ++ rq_channel s ->
  accepted_keys (rq_log (Enqueue key s)) = l ++ rq_channel (Enqueue key s).
Proof.
  unfold Enqueue. intros H. destruct (_ <? _)%nat; cbn [rq_log rq_channel set_rq_log set_rq_channel];
    rewrite accepted_keys_snoc, H; cbn [eq_Accepted eq_Key].
  - by rewrite app_assoc.
  - by rewrite app_nil_r.
Qed.

Lemma Enqueue_accepted key s :
  key ∈ rq_channel (Enqueue key s) \/ (enqueue_capacity <= length (rq_channel s))%nat.
Proof.
  unfold Enqueue. destruct (Nat.ltb_spec (length (rq_channel s)) enqueue_capacity); [left|by right].
  cbn. set_solver.
Qed.

Lemma Enqueue_wf key s : timers_wf s -> timers_wf (Enqueue key s).
Proof.
  destruct (Enqueue_timers key s) as (H1 & H2 & H3 & _).
  intros [Ha Hb Hc]. split; rewrite ?H1, ?H2, ?H3; assumption.
Qed.

Lemma cancel_timer_wf key s : timers_wf s -> timers_wf (cancel_timer key s).
Proof.
  intros [Ha Hb Hc]. unfold cancel_timer. destruct (rq_timers s !! key) as [id|] eqn:E; [|by split].
  split; cbn [rq_timers rq_waiters rq_next set_rq_timers set_rq_waiters].
  - intros k i. rewrite lookup_delete_Some. intros [_ H]. exact (Ha k i H).
  - intros i w H. apply lookup_alter_Some in H as [ (_ & w' & Hw & _) | (_ & Hw) ]; exact (Hb i _ Hw).
  - intros k k' i. rewrite !lookup_delete_Some. intros [_ H] [_ H']. exact (Hc k k' i H H').
Qed.

Lemma start_timer_wf key due s : timers_wf s -> timers_wf (start_timer key due s).
Proof.
  intros [Ha Hb Hc]. split; cbn [rq_timers rq_waiters rq_next start_timer].
  - intros k i. rewrite lookup_insert_Some. intros [ [_ <-] | [_ H] ]; [lia|]. specialize (Ha k i H). lia.
  - intros i w. rewrite lookup_insert_Some. intros [ [<- _] | [_ H] ]; [lia|]. specialize (Hb i w H). lia.
  - intros k k' i. rewrite !lookup_insert_Some.
    intros [ [<- <-] | [Hk H] ] [ [Hk' Hi] | [Hk' H'] ]; try congruence.
    + specialize (Ha k' _ H'). lia.
    + specialize (Ha k i H). lia.
    + exact (Hc k k' i H H').
Qed.

Lemma remove_waiter_wf id s : timers_wf s -> timers_wf (set_rq_waiters (delete id (rq_waiters s)) s).
Proof.
  intros [Ha Hb Hc]. split; [exact Ha| |exact Hc].
  intros i w. cbn. rewrite lookup_delete_Some. intros [_ H]. exact (Hb i w H).
Qed.

(** The handler, when there is nothing to wait for and when there is. *)
Lemma on_update_cases u s :
  let s' := cancel_timer (upd_Key u) s in
  on_update u s = s' \/ on_update u s = Enqueue (upd_Key u) s' \/
  exists due, on_update u s = start_timer (upd_Key u) due s'.
Proof.
  unfold on_update. destruct (upd_Value u) as [d|]; [|by left].
  destruct (computeBoundary _ d); [|by left]. destruct (_ <=? 0); [by right; left|right; right; by eexists].
Qed.

Lemma cancel_timer_now key s : rq_now (cancel_timer key s) = rq_now s.
Proof. unfold cancel_timer. by destruct (rq_timers s !! key). Qed.

Lemma on_update_wf u s : timers_wf s -> timers_wf (on_update u s).
Proof.
  intros H. apply (cancel_timer_wf (upd_Key u)) in H.
  destruct (on_update_cases u s) as [-> | [-> | [due ->] ] ];
    [done|by apply Enqueue_wf|by apply start_timer_wf].
Qed.

Lemma requeue_step_wf ev s s' : requeue_step ev s = Some s' -> timers_wf s -> timers_wf s'.
Proof.
  destruct ev as [u|id|id|key|t]; cbn [requeue_step].
  - intros [= <-]. apply on_update_wf.
  - destruct (rq_waiters s !! id) as [w|]; [|done]. cbn. destruct (_ && _); [|done]. intros [= <-] H.
    by apply Enqueue_wf, remove_waiter_wf.
  - destruct (rq_waiters s !! id) as [w|]; [|done]. cbn. destruct (wt_Cancelled w); [|done]. intros [= <-] H.
    by apply remove_waiter_wf.
  - destruct (rq_channel s); [done|]. destruct (decide _); [|done]. intros [= <-] [? ? ?]. by split.
  - destruct (_ <=? _); [|done]. intros [= <-] [? ? ?]. by split.
Qed.

Lemma requeue_runs_wf evs s s' : requeue_runs evs s = Some s' -> timers_wf s -> timers_wf s'.
Proof.
  revert s. induction evs as [|ev evs IH]; intros s; cbn [requeue_runs]; [by intros [= <-]|].
  destruct (requeue_step ev s) as [s1|] eqn:E; [|done]. cbn. intros Hr Hs.
  apply (IH s1 Hr). by apply (requeue_step_wf _ _ _ E).
Qed.

Lemma requeue_start_wf t : timers_wf (requeue_start t).
Proof. split; cbn; intros *; rewrite lookup_empty; discriminate. Qed.

(** Other plans' updates leave a timer alone. *)
Lemma cancel_timer_armed key key' due id s :
  timers_wf s -> key' <> key -> armed key due id s -> armed key due id (cancel_timer key' s).
Proof.
  intros Hwf Hne [Ht Hw]. unfold cancel_timer. destruct (rq_timers s !! key') as [id'|] eqn:E; [|by split].
  assert (id' <> id) as Hid by (intros ->; exact (Hne (timers_inj s Hwf _ _ _ E Ht))).
  split; cbn [rq_timers rq_waiters set_rq_timers set_rq_waiters].
  - by rewrite lookup_delete_ne.
  - by rewrite lookup_alter_ne.
Qed.

Lemma Enqueue_armed key key' due id s : armed key due id s -> armed key due id (Enqueue key' s).
Proof. unfold armed. destruct (Enqueue_timers key' s) as (-> & -> & _). done. Qed.

Lemma start_timer_armed key key' due due' id s :
  timers_wf s -> key' <> key -> armed key due id s -> armed key due id (start_timer key' due' s).
Proof.
  intros Hwf Hne [Ht Hw]. split; cbn [rq_timers rq_waiters start_timer].
  - by rewrite lookup_insert_ne.
  - pose proof (waiters_fresh s Hwf _ _ Hw). rewrite lookup_insert_ne by lia. done.
Qed.

Lemma on_update_armed key u due id s :
  timers_wf s -> upd_Key u <> key -> armed key due id s -> armed key due id (on_update u s).
Proof.
  intros Hwf Hne Ha. apply (cancel_timer_armed key (upd_Key u)) in Ha; [|done..].
  destruct (on_update_cases u s) as [-> | [-> | [due' ->] ] ];
    [done|by apply Enqueue_armed|apply start_timer_armed; [by apply cancel_timer_wf|done..]].
Qed.

Lemma remove_waiter_armed key due id id' s :
  id' <> id -> armed key due id s -> armed key due id (set_rq_waiters (delete id' (rq_waiters s)) s).
Proof. intros Hne [Ht Hw]. split; [done|]. cbn. by rewrite lookup_delete_ne. Qed.

(** A timer stays until its plan is updated or it fires, when it is due. *)
Lemma step_armed key due id ev s s' :
  timers_wf s -> requeue_step ev s = Some s' -> updates_key key ev = false -> armed key due id s ->
  armed key due id s' \/ (due <= unix_ns (rq_now s) /\
    exists accepted, rq_log s' = rq_log s ++ [mkEnqueueCall key (unix_ns (rq_now s)) accepted]).
Proof.
  intros Hwf Hs Hk Ha. destruct ev as [u|i|i|k|t]; cbn [requeue_step updates_key] in *.
  - left. injection Hs as <-. apply on_update_armed; [done| |done]. by case_bool_decide.
  - destruct (rq_waiters s !! i) as [w|] eqn:E; [|done]. cbn in Hs.
    destruct (_ && _) eqn:Eb in Hs; [|done]. injection Hs as <-.
    destruct (decide (i = id)) as [->|Hne].
    + right. destruct Ha as [_ Hw]. rewrite E in Hw. injection Hw as ->. cbn [wt_Key].
      split; [cbn in Eb; by apply Z.leb_le|]. apply (Enqueue_log key (set_rq_waiters _ s)).
    + left. by apply Enqueue_armed, remove_waiter_armed.
  - destruct (rq_waiters s !! i) as [w|] eqn:E; [|done]. cbn in Hs.
    destruct (wt_Cancelled w) eqn:Ec; [|done]. injection Hs as <-. left.
    apply remove_waiter_armed; [|done]. intros ->. destruct Ha as [_ Hw]. rewrite E in Hw. by injection Hw as ->.
  - left. destruct (rq_channel s); [done|]. destruct (decide _); [|done]. by injection Hs as <-.
  - left. destruct (_ <=? _); [|done]. by injection Hs as <-.
Qed.

Lemma step_now ev s s' : requeue_step ev s = Some s' -> unix_ns (rq_now s) <= unix_ns (rq_now s').
Proof.
  destruct ev as [u|id|id|key|t]; cbn [requeue_step].
  - intros [= <-]. pose proof (cancel_timer_now (upd_Key u) s) as Hc.
    destruct (on_update_cases u s) as [-> | [-> | [due' ->] ] ]; cbn [start_timer rq_now];
      rewrite ?(proj2 (proj2 (proj2 (Enqueue_timers _ _)))), Hc; lia.
  - destruct (rq_waiters s !! id) as [w|]; [|done]. cbn. destruct (_ && _); [|done]. intros [= <-].
    rewrite (proj2 (proj2 (proj2 (Enqueue_timers _ _)))). cbn. lia.
  - destruct (rq_waiters s !! id) as [w|]; [|done]. cbn. destruct (wt_Cancelled w); [|done]. intros [= <-]. cbn. lia.
  - destruct (rq_channel s); [done|]. destruct (decide _); [|done]. intros [= <-]. cbn. lia.
  - destruct (_ <=? _) eqn:E; [|done]. intros [= <-]. cbn. by apply Z.leb_le.
Qed.

(** Calls are only added to the log. *)
Lemma cancel_timer_log key s : rq_log (cancel_timer key s) = rq_log s /\ rq_channel (cancel_timer key s) = rq_channel s.
Proof. unfold cancel_timer. by destruct (rq_timers s !! key). Qed.

Lemma on_update_log u s : exists l, rq_log (on_update u s) = rq_log s ++ l.
Proof.
  rewrite <- (proj1 (cancel_timer_log (upd_Key u) s)).
  destruct (on_update_cases u s) as [-> | [-> | [due ->] ] ]; [by exists []; rewrite app_nil_r| |by exists []; rewrite app_nil_r].
  destruct (Enqueue_log (upd_Key u) (cancel_timer (upd_Key u) s)) as (b & ->). by eexists.
Qed.

Lemma step_log ev s s' : requeue_step ev s = Some s' -> exists l, rq_log s' = rq_log s ++ l.
Proof.
  destruct ev as [u|id|id|key|t]; cbn [requeue_step].
  - intros [= <-]. apply on_update_log.
  - destruct (rq_waiters s !! id) as [w|]; [|done]. cbn. destruct (_ && _); [|done]. intros [= <-].
    destruct (Enqueue_log (wt_Key w) (set_rq_waiters (delete id (rq_waiters s)) s)) as (b & ->). by eexists.
  - destruct (rq_waiters s !! id) as [w|]; [|done]. cbn. destruct (wt_Cancelled w); [|done]. intros [= <-].
    exists []. by rewrite app_nil_r.
  - destruct (rq_channel s); [done|]. destruct (decide _); [|done]. intros [= <-]. exists []. by rewrite app_nil_r.
  - destruct (_ <=? _); [|done]. intros [= <-]. exists []. by rewrite app_nil_r.
Qed.

Lemma requeue_runs_app evs evs' s :
  requeue_runs (evs ++ evs') s = s' ← requeue_runs evs s; requeue_runs evs' s'.
Proof.
  revert s. induction evs as [|ev evs IH]; intros s; [done|]. cbn [app requeue_runs].
  destruct (requeue_step ev s); [|done]. apply IH.
Qed.

Lemma runs_log evs s s' : requeue_runs evs s = Some s' -> exists l, rq_log s' = rq_log s ++ l.
Proof.
  revert s. induction evs as [|ev evs IH]; intros s; cbn [requeue_runs].
  { intros [= ->]. exists []. by rewrite app_nil_r. }
  destruct (requeue_step ev s) as [s1|] eqn:E; [|done]. cbn. intros Hr.
  destruct (step_log ev s s1 E) as (l & Hl). destruct (IH s1 Hr) as (l' & ->). rewrite Hl, <- app_assoc. by eexists.
Qed.

(** What the channel took was taken by the controller or is still in it. *)
Lemma step_channel ev s s' l :
  requeue_step ev s = Some s' -> accepted_keys (rq_log s) = l ++ rq_channel s ->
  accepted_keys (rq_log s') = (l ++ taken [ev]) ++ rq_channel s'.
Proof.
  destruct ev as [u|id|id|key|t]; cbn [requeue_step]; intros Hs Hl; cbn [taken omap list_omap]; rewrite ?app_nil_r.
  - injection Hs as <-. destruct (cancel_timer_log (upd_Key u) s) as [H1 H2]. rewrite <- H1, <- H2 in Hl.
    destruct (on_update_cases u s) as [-> | [-> | [due ->] ] ]; [done|by apply Enqueue_channel|done].
  - destruct (rq_waiters s !! id) as [w|]; [|done]. cbn in Hs. destruct (_ && _); [|done]. injection Hs as <-.
    by apply Enqueue_channel.
  - destruct (rq_waiters s !! id) as [w|]; [|done]. cbn in Hs. destruct (wt_Cancelled w); [|done]. by injection Hs as <-.
  - destruct (rq_channel s) as [|k ks]; [done|]. destruct (decide (k = key)) as [->|]; [|done]. injection Hs as <-.
    cbn [rq_log rq_channel set_rq_channel]. rewrite Hl, <- app_assoc. done.
  - destruct (_ <=? _); [|done]. by injection Hs as <-.
Qed.

Lemma runs_channel evs s s' l :
  requeue_runs evs s = Some s' -> accepted_keys (rq_log s) = l ++ rq_channel s ->
  accepted_keys (rq_log s') = l ++ taken evs ++ rq_channel s'.
Proof.
  revert s l. induction evs as [|ev evs IH]; intros s l; cbn [requeue_runs]; [by intros [= ->]|].
  destruct (requeue_step ev s) as [s1|] eqn:E; [|done]. cbn [mbind option_bind]. intros Hr Hl.
  rewrite (IH s1 (l ++ taken [ev]) Hr (step_channel ev s s1 l E Hl)).
  assert (taken (ev :: evs) = taken [ev] ++ taken evs) as -> by (by destruct ev).
  by rewrite <- !app_assoc.
Qed.

Lemma runs_armed key due id evs s s' :
  timers_wf s -> requeue_runs evs s = Some s' -> Forall (fun ev => updates_key key ev = false) evs ->
  armed key due id s ->
  armed key due id s' \/
  exists t l, due <= t /\ unix_ns (rq_now s) <= t /\ rq_log s' = rq_log s ++ l /\ enqueued key t l.
Proof.
  revert s. induction evs as [|ev evs IH]; intros s Hwf Hr Hk Ha; cbn [requeue_runs] in *.
  { injection Hr as <-. by left. }
  apply Forall_cons in Hk as [Hk Hks].
  destruct (requeue_step ev s) as [s1|] eqn:E; [|done]. cbn in Hr.
  destruct (step_log ev s s1 E) as (l1 & Hl1). pose proof (step_now ev s s1 E).
  destruct (step_armed key due id ev s s1 Hwf E Hk Ha) as [Ha' | [Hd Hat] ].
  - destruct (IH s1 (requeue_step_wf _ _ _ E Hwf) Hr Hks Ha') as [Hb | (t & l & Ht & Htn & Hl & Hin)]; [by left|right].
    exists t, (l1 ++ l). rewrite Hl, Hl1, app_assoc. repeat split; [done|lia|]. destruct Hin as (b & Hb). exists b. set_solver.
  - right. destruct Hat as (b & Hb). destruct (runs_log evs s1 s' Hr) as (l2 & Hl2).
    exists (unix_ns (rq_now s)), (mkEnqueueCall key (unix_ns (rq_now s)) b :: l2).
    rewrite Hl2, Hb, <- app_assoc. repeat split; [done|lia|]. exists b. set_solver.
Qed.

(** [Sub] is the difference unless it is more than 292 years. *)
Lemma Sub_small b t : - 2 ^ 63 <= unix_ns b - unix_ns t < 2 ^ 63 -> Sub b t = unix_ns b - unix_ns t.
Proof. unfold Sub. lia. Qed.

(** An armed timer fires as soon as it is due, and then its plan is in the channel
    if there is room. *)
Lemma armed_fires key due id s :
  armed key due id s -> due <= unix_ns (rq_now s) ->
  exists s', requeue_step (EvFire id) s = Some s' /\
    (key ∈ rq_channel s' \/ (enqueue_capacity <= length (rq_channel s))%nat).
Proof.
  intros [_ Hw] Hd. cbn [requeue_step]. rewrite Hw. cbn.
  replace (due <=? unix_ns (rq_now s)) with true by (symmetry; by apply Z.leb_le). eexists. split; [done|].
  apply (Enqueue_accepted key (set_rq_waiters _ s)).
Qed.

(** C21: no boundary passes unnoticed.  In every run of the processor, whatever the
    interleaving of its goroutines, once a plan has been delivered, with a boundary
    that is within 292 years, and until its next delivery, there is a timer that
    waits for the boundary, or since the delivery there was a call of [Enqueue] for
    the plan at or after the boundary; and a timer that is due can fire, which puts
    the plan into the channel unless the channel is full.  What the calls of
    [Enqueue] put into the channel is what the controller has taken out of it, in the
    same order, and what is still in it. *)
Theorem requeue_served start pre key d post s0 b s :
  requeue_runs pre (requeue_start start) = Some s0 ->
  computeBoundary (rq_now s0) d = Some b ->
  - 2 ^ 63 <= unix_ns b - unix_ns (rq_now s0) < 2 ^ 63 ->
  requeue_runs (EvUpdate (mkUpdate key (Some d)) :: post) s0 = Some s ->
  Forall (fun ev => updates_key key ev = false) post ->
  ((exists t l, Z.max (unix_ns b) (unix_ns (rq_now s0)) <= t /\
     rq_log s = rq_log s0 ++ l /\ enqueued key t l) \/
   (exists id, armed key (unix_ns b) id s /\
     (unix_ns b <= unix_ns (rq_now s) ->
      exists s', requeue_step (EvFire id) s = Some s' /\
        (key ∈ rq_channel s' \/ (enqueue_capacity <= length (rq_channel s))%nat)))) /\
  accepted_keys (rq_log s) = taken (pre ++ EvUpdate (mkUpdate key (Some d)) :: post) ++ rq_channel s.
Proof.
  intros Hpre Hb Hsmall Hrun Hpost. split.
  2: { apply (runs_channel _ (requeue_start start) s []); [|done]. by rewrite requeue_runs_app, Hpre. }
  assert (timers_wf s0) as Hwf by (eapply requeue_runs_wf; [exact Hpre|apply requeue_start_wf]).
  cbn [requeue_runs requeue_step] in Hrun. cbn in Hrun.
  unfold on_update in Hrun. cbn [upd_Key upd_Value] in Hrun.
  rewrite cancel_timer_now, Hb, (Sub_small _ _ Hsmall) in Hrun.
  set (s1 := cancel_timer key s0) in *.
  assert (rq_log s1 = rq_log s0) as Hl1 by apply cancel_timer_log.
  assert (rq_now s1 = rq_now s0) as Hn1 by apply cancel_timer_now.
  destruct (_ <=? 0) eqn:E in Hrun; reflect.
  { left. destruct (Enqueue_log key s1) as (a & Ha). destruct (runs_log _ _ _ Hrun) as (l & Hl).
    exists (unix_ns (rq_now s0)), (mkEnqueueCall key (unix_ns (rq_now s0)) a :: l). split; [lia|].
    rewrite Hl, Ha, Hl1, Hn1, <- app_assoc. split; [done|]. exists a. set_solver. }
  replace (unix_ns (rq_now s0) + _) with (unix_ns b) in Hrun by lia.
  assert (timers_wf s1) as Hwf1 by by apply cancel_timer_wf.
  destruct (runs_armed key (unix_ns b) (rq_next s1) post _ s (start_timer_wf key (unix_ns b) s1 Hwf1) Hrun Hpost)
    as [Ha | (t & l & Ht & Htn & Hl & Hin)].
  - split; cbn; apply lookup_insert_eq.
  - right. exists (rq_next s1). split; [exact Ha|]. by apply armed_fires.
  - left. exists t, l. cbn [start_timer rq_now rq_log] in *. rewrite Hn1, Hl1 in *. split; [lia|]. by split.
Qed.

(** ** The boundary of a delivery *)

Section boundary.
Context (now : time) (Hr : recent now).

Lemma sooner_spec t acc :
  unix_ns now < unix_ns acc ->
  unix_ns now < unix_ns (sooner now t acc) <= unix_ns acc /\
  (unix_ns now < unix_ns t -> unix_ns (sooner now t acc) <= unix_ns t).
Proof using Hr.
  intros Hacc. destruct Hr as [Hr']. unfold Day, Hour, Minute, Second in Hr'.
  unfold sooner, minTime, IsZero, Before. unfold Day, Hour, Minute, Second in *.
  destruct (unix_ns now <? unix_ns t) eqn:Et; reflect.
  - replace (unix_ns t =? zero_ns) with false by lia. replace (unix_ns acc =? zero_ns) with false by lia.
    cbn [negb andb]. destruct (unix_ns acc <? unix_ns t) eqn:E; reflect; lia.
  - rewrite andb_false_r. lia.
Qed.

Lemma exception_boundaries all acc :
  unix_ns now < unix_ns acc ->
  let b := fold_left (exception_boundary now) all acc in
  unix_ns now < unix_ns b <= unix_ns acc /\
  Forall (fun x => (unix_ns now < unix_ns (se_ValidFrom (ver_Object x)) -> unix_ns b <= unix_ns (se_ValidFrom (ver_Object x))) /\
    (unix_ns now < unix_ns (se_ValidUntil (ver_Object x)) -> unix_ns b <= unix_ns (se_ValidUntil (ver_Object x)))) all.
Proof using Hr.
  revert acc. induction all as [|x all IH]; intros acc Hacc; cbn [fold_left]; [split; [lia|constructor]|].
  destruct (sooner_spec (se_ValidFrom (ver_Object x)) acc Hacc) as [H1 H2].
  destruct (sooner_spec (se_ValidUntil (ver_Object x)) _ (proj1 H1)) as [H3 H4].
  destruct (IH (exception_boundary now acc x) (proj1 H3)) as [H5 H6]. unfold exception_boundary in *.
  split; [lia|]. constructor; [|exact H6]. lia.
Qed.

Lemma computeBoundary_spec d sev :
  dl_Schedule d = Some sev -> unix_ns now < unix_ns (sev_NextEvent sev) ->
  exists b, computeBoundary now d = Some b /\ unix_ns now < unix_ns b <= unix_ns (sev_NextEvent sev) /\
    Forall (fun x => (unix_ns now < unix_ns (se_ValidFrom (ver_Object x)) -> unix_ns b <= unix_ns (se_ValidFrom (ver_Object x))) /\
      (unix_ns now < unix_ns (se_ValidUntil (ver_Object x)) -> unix_ns b <= unix_ns (se_ValidUntil (ver_Object x))))
      (dl_Exceptions d).
Proof using Hr.
  intros Hs Hn. unfold computeBoundary. rewrite Hs.
  assert (forall t, unix_ns now < unix_ns t -> IsZero t = false) as Hz.
  { intros t Ht. destruct Hr as [Hr']. unfold IsZero. unfold Day, Hour, Minute, Second in Hr'. lia. }
  rewrite (Hz _ Hn). destruct (exception_boundaries (dl_Exceptions d) _ Hn) as [Hb Hall].
  rewrite (Hz _ (proj1 Hb)). eexists. split; [done|]. by split.
Qed.

(** Which exceptions are active does not change before the boundary. *)
Lemma is_active_until b t x :
  unix_ns now <= unix_ns t < unix_ns b -> unix_ns (se_ValidFrom x) <> unix_ns now ->
  (unix_ns now < unix_ns (se_ValidFrom x) -> unix_ns b <= unix_ns (se_ValidFrom x)) ->
  (unix_ns now < unix_ns (se_ValidUntil x) -> unix_ns b <= unix_ns (se_ValidUntil x)) ->
  is_active t x = is_active now x.
Proof using Type. intros. unfold is_active, After, Before. f_equal. lia. Qed.
End boundary.

Section missed.
Context {HCron : Cron} {HTz : TimezoneDB} {Hlaws : CronLaws} {HS : SortSlice}.
Context (plan : HibernatePlan) (loc : Location).
Context (Hload : LoadLocation (sched_Timezone (spec_Schedule (plan_Spec plan))) = Some loc) (Hloc : regular_zone loc).
Implicit Types (e : ScheduleEvaluator) (all : list (Versioned ScheduleException)).

(** No exception that is active suspends the schedule; with a buffer, none extends
    it either. *)
Definition no_suspension e all : Prop :=
  active_of KindSuspend (Clock e) all = [] /\ (active_of KindExtend (Clock e) all = [] \/ scheduleBuffer e <= 0).

(** What an evaluation awaits is to come, and decides the next event. *)
Lemma next_event_ahead e r :
  0 <= scheduleBuffer e -> awaits e r -> unix_ns (Clock e) < unix_ns (computeNextEvent e r).
Proof using Type.
  intros Hg. unfold awaits, computeNextEvent, next_of. unfold Second. destruct (InGracePeriod r); cbn [Add unix_ns]; lia.
Qed.

(** C15: no transition is missed. Take a delivery of a plan with valid windows, in a
    timezone that is known and has one offset, in whole minutes (there is no summer
    time), with a buffer of less than a day and a clock later than the first week of
    year 1; no suspension is active, with a buffer no extension either, and no
    exception begins at this very instant. The boundary of the delivery exists and
    is to come, so that there is a timer for it; and whenever the schedule is
    evaluated before the boundary, from the same plan and exceptions, it succeeds
    with the decision that was delivered and the same active exceptions, except
    during the buffer and the ten seconds for which the processor waits beyond the
    event. *)
Theorem no_transition_missed e all sev d :
  recent (Clock e) -> 0 <= scheduleBuffer e < Day ->
  schedule_valid plan -> Forall (fun x => windows_valid (ver_Object x)) all ->
  no_suspension e all ->
  Forall (fun x => unix_ns (se_ValidFrom (ver_Object x)) <> unix_ns (Clock e)) all ->
  evaluateSchedule e plan all = Ok sev -> dl_Schedule d = Some sev -> dl_Exceptions d = all ->
  exists b, computeBoundary (Clock e) d = Some b /\ unix_ns (Clock e) < unix_ns b /\
    forall e', scheduleBuffer e' = scheduleBuffer e ->
      unix_ns (Clock e) <= unix_ns (Clock e') < unix_ns b ->
      unix_ns (Clock e') + scheduleBuffer e + 10 * Second < unix_ns (sev_NextEvent sev) ->
      exists sev', evaluateSchedule e' plan all = Ok sev' /\
        sev_ShouldHibernate sev' = sev_ShouldHibernate sev /\ sev_Exceptions sev' = sev_Exceptions sev.
Proof using Hlaws Hload Hloc.
  intros Hr [Hg0 Hg] Hplan Hall [Hsus Hone] Hfrom He Hds Hde.
  destruct (evaluateSchedule_result plan loc Hload Hloc e all Hr Hplan Hall) as (r & Hev & He').
  rewrite He in He'. injection He' as ->. set (excs := map _ _) in Hev.
  assert (filterActive e excs = converted (Clock e) all) as Hact by apply converted_active.
  destruct (effective_valid e plan all Hplan Hall) as [Hne Heff].
  assert (of_type ExceptionSuspend (filterActive e excs) = []) as Hs
    by (rewrite Hact; by apply (of_type_nil KindSuspend)).
  assert (Forall window_wf (windows_of ExceptionExtend (filterActive e excs))) as Hext
    by (rewrite Hact; by apply (windows_of_wf KindExtend)).
  assert (of_type ExceptionExtend (filterActive e excs) = [] \/
          windows_of ExceptionExtend (filterActive e excs) <> [] /\ scheduleBuffer e <= 0) as Hone'.
  { rewrite Hact. destruct (active_of KindExtend (Clock e) all) as [|x l] eqn:E; [left; by apply (of_type_nil KindExtend)|].
    right. destruct Hone as [H|H]; [done|]. split; [|done]. destruct (kind_windows_wf KindExtend (Clock e) all Hall) as [_ Hk].
    rewrite E in Hk. intros Hnil. destruct (kind_windows KindExtend (Clock e) all) as [|w ws] eqn:Ek; [by apply Hk|].
    apply (elem_of_nil w). rewrite <- Hnil. apply (windows_of_elem KindExtend). rewrite Ek. by left. }
  pose proof (Evaluate_awaits _ loc Hload Hloc e Hr Hg _ excs Hs Heff Hne Hext Hone' r Hev) as Haw.
  destruct (computeBoundary_spec (Clock e) Hr d _ Hds (next_event_ahead e r Hg0 Haw)) as (b & Hb & Hbn & Hbs).
  exists b. split; [done|]. split; [lia|]. intros e' Hgg Hle Hlt. cbn [sev_NextEvent sev_ShouldHibernate sev_Exceptions] in *.
  assert (filterActiveExceptions (Clock e') all = filterActiveExceptions (Clock e) all) as Hsame.
  { unfold filterActiveExceptions. f_equal. apply filter_true_ext. intros x Hx. rewrite Forall_forall in Hfrom, Hbs.
    rewrite Hde in Hbs. destruct (Hbs x Hx). apply (is_active_until (Clock e) b); [done|by apply Hfrom|done..]. }
  destruct (evaluateSchedule_result plan loc Hload Hloc e' all ltac:(destruct Hr; constructor; lia) Hplan Hall) as (r' & Hev' & ->).
  eexists. split; [done|]. cbn [sev_ShouldHibernate sev_Exceptions]. split; [|done]. rewrite Hsame in Hev'.
  unfold awaits in Haw. unfold computeNextEvent in Hlt. destruct (InGracePeriod r) eqn:Ei; [cbn [Add unix_ns] in Hlt; lia|].
  assert (filterActive e' excs = filterActive e excs) as Hact'.
  { rewrite Hact. unfold excs. rewrite <- Hsame. rewrite converted_active. unfold converted. by rewrite Hsame. }
  apply (Evaluate_steady _ loc Hload Hloc e Hr Hg _ excs Hs Heff Hne Hext Hone' e' excs r r'); try done; [by left|lia|].
  unfold next_of. cbn [Add unix_ns] in Hlt. lia.
Qed.
End missed.

(** ** Deliveries and timers to evaluate the provider on

    A watchable map, a client that has one plan, and runs of the provider and the
    requeue processor on them: inputs for the theorems, and what the code does that
    its comments do not expect. *)

From S2P Require Import Memory RestoreSpec Execution StateSamples PlanWebhook PlanWebhookSpec ExceptionWebhook ExceptionWebhookSpec DeliverySpec.

(** ** A watchable map *)

Record Watched := mkWatched {
  wd_values : gmap NamespacedName Delivery;
  wd_updates : list (Update NamespacedName Delivery);
}.

#[export] Instance watched : Watchable := {|
  WMap := Watched;
  wm_load m k := wd_values m !! k;
  wm_updates := wd_updates;
  wm_Store k d m :=
    mkWatched (<[k := d]> (wd_values m))
      (match wd_values m !! k with
       | Some old => if PlanContext_Equal old d then wd_updates m else wd_updates m ++ [mkUpdate k (Some d)]
       | None => wd_updates m ++ [mkUpdate k (Some d)]
       end);
  wm_Delete k m :=
    mkWatched (delete k (wd_values m))
      (match wd_values m !! k with Some _ => wd_updates m ++ [mkUpdate k None] | None => wd_updates m end);
|}.

#[export] Instance watched_laws : WatchableLaws.
Proof.
  split; intros; cbn [wm_load wm_Store wm_Delete wm_updates watched wd_values wd_updates]; try reflexivity.
  - destruct (decide (k = k')) as [->|Hne]; [apply lookup_insert_eq|by apply lookup_insert_ne].
  - destruct (decide (k = k')) as [->|Hne]; [apply lookup_delete_eq|by apply lookup_delete_ne].
Qed.

(** ** A client *)

Record Source := mkSource {
  src_plan : option (Versioned HibernatePlan);
  src_exceptions : ApiError + list (Versioned ScheduleException);
}.

#[export] Instance source : ProviderClient := {|
  PClient := Source;
  pv_get_plan _ c := (match src_plan c with Some p => inr p | None => inl NotFound end, c);
  pv_list_exceptions _ _ c := (src_exceptions c, c);
  pv_notifications _ c := (inr [], c);
|}.

Module RequeueSamples.
Import PlanWebhookSamples ExceptionWebhookSamples Samples StateSamples MergeSort.

Definition key : NamespacedName := ("prod", "web").
Definition every_day : list string := ["MON"; "TUE"; "WED"; "THU"; "FRI"; "SAT"; "SUN"].
Definition window (start stop : string) (days : list string) : OffHourWindow := mkWindow start stop days.

(** Hibernated every night. *)
Definition nightly : HibernatePlan :=
  admissible [window "20:00" "06:00" every_day] [mkApiDependency "db" "app"].

Definition versioned {A} (x : A) : Versioned A := mkVersioned "u1" "1" x.

(** An exception of the whole week. *)
Definition this_week (kind : ExceptionKind) (windows : list OffHourWindow) : ScheduleException :=
  mkScheduleException "e" "prod" of_web [] [] StateSamples.now false "web" "" kind
    (Add StateSamples.now (- (48 * Hour))) (Add StateSamples.now (120 * Hour)) "" windows [] None
    ExceptionStateActive None None None "".

(** The clock at so many minutes and seconds after Wednesday noon. *)
Definition clock (minutes seconds : Z) (buffer : Z) : ScheduleEvaluator :=
  mkEvaluator (Add StateSamples.now (minutes * Minute + seconds * Second)) buffer.

(** The decision, the next event in seconds after Wednesday noon, and the number of
    active exceptions. *)
Definition decided (e : ScheduleEvaluator) (p : HibernatePlan) (all : list ScheduleException)
  : option (bool * Z * nat) :=
  match evaluateSchedule e p (map versioned all) with
  | Ok sev => Some (sev_ShouldHibernate sev, (unix_ns (sev_NextEvent sev) - unix_ns StateSamples.now) / Second,
                    length (sev_Exceptions sev))
  | _ => None
  end.

(** Awake on Wednesday noon; the next event is 20:00 with the buffer of a minute and
    the ten seconds. *)
Example awake_at_noon : decided (clock 0 0 Minute) nightly [] = Some (false, 8 * 3600 + 70, 0%nat).
Proof. vm_compute. reflexivity. Qed.

(** *** A suspension that ends

    The suspension from 22:00 to 23:00 keeps the plan awake.  An evaluation in the
    minute of its grace period, 23:00:30, reports a grace period without an end: the
    next event is ten seconds after the zero time. *)
Definition late_release : ScheduleException := this_week KindSuspend [window "22:00" "23:00" ["WED"]].

Definition grace_delivery (e : ScheduleEvaluator) : option Delivery :=
  match evaluateSchedule e nightly [versioned late_release] with
  | Ok sev => Some (mkDelivery (versioned nightly) (Some sev) [versioned late_release] [] false 0)
  | _ => None
  end.

Example grace_without_end :
  match evaluateSchedule (clock (11 * 60) 30 Minute) nightly [versioned late_release] with
  | Ok sev => sev_ShouldHibernate sev = false /\ sev_NextEvent sev = Add zero_time (10 * Second)
  | _ => False
  end /\
  decided (clock (11 * 60 + 2) 0 Minute) nightly [late_release] = Some (true, 18 * 3600 + 70, 1%nat).
Proof. vm_compute. repeat split. Qed.

(** The requeue processor enqueues the plan at once and starts no timer; the next
    evaluation in that minute gives an equal context, which is not delivered.  So
    nothing is left that would wake the controller at 23:01, when the plan is to be
    hibernated again. *)
Definition at_2300 : Requeue := requeue_start (Clock (clock (11 * 60) 30 Minute)).

Example no_timer_left :
  match grace_delivery (clock (11 * 60) 30 Minute), grace_delivery (clock (11 * 60) 31 Minute) with
  | Some d, Some d' =>
      PlanContext_Equal d d' = true /\
      match requeue_runs [EvUpdate (mkUpdate key (Some d)); EvTake key] at_2300 with
      | Some s => map_to_list (rq_timers s) = [] /\ map_to_list (rq_waiters s) = [] /\ rq_channel s = []
      | None => False
      end
  | _, _ => False
  end.
Proof. vm_compute. repeat split. Qed.

(** *** A suspension on the day after tomorrow

    Hibernated from Friday 20:00; a suspension on Sunday from 10:00 to 12:00.  On
    Friday at 21:00 the next event is the wake-up on Monday, although on Sunday at
    11:00 the plan is to be awake. *)
Definition workdays : HibernatePlan :=
  admissible [window "20:00" "06:00" ["MON"; "TUE"; "WED"; "THU"; "FRI"]] [mkApiDependency "db" "app"].
Definition sunday : ScheduleException := this_week KindSuspend [window "10:00" "12:00" ["SUN"]].

Example sunday_missed :
  decided (clock (57 * 60) 0 0) workdays [sunday] = Some (true, 114 * 3600 + 10, 1%nat) /\
  decided (clock (95 * 60) 0 0) workdays [sunday] = Some (false, 96 * 3600 + 10, 1%nat).
Proof. vm_compute. split; reflexivity. Qed.

(** *** The end of a day cuts the buffer *)
Definition until_midnight : HibernatePlan := admissible [window "20:00" "23:59" every_day] [mkApiDependency "db" "app"].

Example buffer_cut :
  decided (clock (11 * 60 + 59) 30 (5 * Minute)) until_midnight [] = Some (true, 12 * 3600 + 250, 0%nat) /\
  decided (clock (12 * 60) 30 (5 * Minute)) until_midnight [] = Some (false, 32 * 3600 + 310, 0%nat).
Proof. vm_compute. split; reflexivity. Qed.

(** *** Exceptions that cannot be listed

    The evaluation goes on without them: inside the suspension the plan is to be
    hibernated. *)
Definition hub (exceptions : ApiError + list (Versioned ScheduleException)) : Hub :=
  mkHub (mkSource (Some (versioned nightly)) exceptions) (cluster nightly [] []) (mkWatched ∅ []) ∅.

Definition stored_decision (r : res ApiError ReconcileResult * Hub) : option bool :=
  match wd_updates (hub_resources r.2) with
  | [u] => d ← upd_Value u; sev_ShouldHibernate <$> dl_Schedule d
  | _ => None
  end.

Example list_failure :
  let e := clock (10 * 60 + 30) 0 Minute in
  stored_decision (Reconcile id e key (hub (inr [versioned late_release]))) = Some false /\
  stored_decision (Reconcile id e key (hub (inl (ApiFailure "timeout")))) = Some true.
Proof. vm_compute. split; reflexivity. Qed.

(** *** A full channel

    When the timers of more plans than the channel holds fire together, the rest
    are dropped, and their plans have no timer any more. *)
Definition plan_key (i : Z) : NamespacedName := ("prod", sprint_d i).
Definition crowded : Requeue :=
  fold_left (fun s i => start_timer (plan_key i) (unix_ns StateSamples.now) s) (Zrange 0 129) (requeue_start StateSamples.now).

Example one_dropped :
  match requeue_runs (map (fun i => EvFire (Z.to_nat i)) (Zrange 0 129)) crowded with
  | Some s => length (rq_channel s) = 128%nat /\ bool_decide (plan_key 128 ∈ rq_channel s) = false /\
              map_to_list (rq_waiters s) = []
  | None => False
  end.
Proof. vm_compute. repeat split. Qed.
End RequeueSamples.

Import PlanWebhookSamples ExceptionWebhookSamples Samples StateSamples MergeSort RequeueSamples.

Definition extension : Versioned ScheduleException := versioned (this_week KindExtend [window "11:00" "13:00" ["WED"]]).

Lemma nightly_admitted : ValidateCreate_plan nightly = Some [].
Proof. vm_compute. reflexivity. Qed.

Lemma clock_recent minutes seconds buffer :
  0 <= minutes * Minute + seconds * Second -> recent (Clock (clock minutes seconds buffer)).
Proof.
  intros H. constructor. change (zero_ns + 7 * Day) with (-62134992000000000000).
  change (unix_ns (Clock (clock minutes seconds buffer))) with (1704283200000000000 + (minutes * Minute + seconds * Second)).
  lia.
Qed.

Lemma plan_decided_witness :
  exists sev, evaluateSchedule (clock 0 0 0) nightly [extension] = Ok sev /\ sev_ShouldHibernate sev = true.
Proof.
  destruct (plan_decided nightly UTC utc_load utc_regular (clock 0 0 0) [extension] nightly_admitted)
    as (sev & He & _ & _ & Hd).
  - repeat constructor. intros (_ & h & m & H1 & H2). vm_compute in H1, H2. congruence.
  - repeat constructor; vm_compute; congruence.
  - apply clock_recent. vm_compute. discriminate.
  - exists sev. split; [exact He|]. rewrite Hd; [vm_compute; reflexivity|vm_compute; discriminate|].
    repeat constructor.
Defined.

(** On Wednesday noon the extension is on until 13:00; the boundary is 13:00:10, and
    at 12:59 the decision is still the one that was delivered. *)
Definition noon_schedule : ScheduleEvaluation :=
  mkScheduleEvaluation [extension] true (Add StateSamples.now (60 * Minute + 10 * Second)).
Definition noon_delivery : Delivery :=
  mkDelivery (versioned nightly) (Some noon_schedule) [extension] [] false 0.

Lemma noon_scheduled : evaluateSchedule (clock 0 0 0) nightly [extension] = Ok noon_schedule.
Proof. vm_compute. reflexivity. Qed.

Lemma no_transition_missed_witness :
  exists b, computeBoundary StateSamples.now noon_delivery = Some b /\
    exists sev, evaluateSchedule (clock 59 0 0) nightly [extension] = Ok sev /\ sev_ShouldHibernate sev = true.
Proof.
  destruct (no_transition_missed nightly UTC utc_load utc_regular (clock 0 0 0) [extension] noon_schedule noon_delivery)
    as (b & Hb & _ & Hsame).
  - apply clock_recent. vm_compute. discriminate.
  - split; [vm_compute; discriminate|vm_compute; reflexivity].
  - split; [discriminate|]. windows.
  - repeat constructor; [discriminate|windows].
  - split; [vm_compute; reflexivity|right; vm_compute; discriminate].
  - repeat constructor. vm_compute. discriminate.
  - exact noon_scheduled.
  - reflexivity.
  - reflexivity.
  - exists b. change (Clock (clock 0 0 0)) with StateSamples.now in Hb. split; [exact Hb|].
    destruct (Hsame (clock 59 0 0)) as (sev & He & Hd & _).
    + reflexivity.
    + vm_compute in Hb. injection Hb as <-. split; [vm_compute; discriminate|vm_compute; reflexivity].
    + vm_compute. reflexivity.
    + exists sev. split; [exact He|exact Hd].
Defined.

(** The timer of that delivery fires ten minutes after it is due. *)
Lemma requeue_served_witness :
  let s0 := requeue_start StateSamples.now in
  let evs := [EvUpdate (mkUpdate key (Some noon_delivery)); EvClock (Add StateSamples.now (70 * Minute)); EvFire 0] in
  exists s, requeue_runs evs s0 = Some s /\
    (exists t l, unix_ns StateSamples.now + 3610 * Second <= t /\ rq_log s = l /\ enqueued key t l) /\
    accepted_keys (rq_log s) = rq_channel s.
Proof.
  intros s0 evs.
  set (s := mkRequeue (Add StateSamples.now (70 * Minute)) {[key := 0%nat]} ∅ 1 [key]
              [mkEnqueueCall key (unix_ns (Add StateSamples.now (70 * Minute))) true]).
  assert (requeue_runs evs s0 = Some s) as Hr by (vm_compute; reflexivity).
  exists s. split; [exact Hr|].
  destruct (requeue_served StateSamples.now [] key noon_delivery
              [EvClock (Add StateSamples.now (70 * Minute)); EvFire 0] s0
              (Add StateSamples.now (60 * Minute + 10 * Second)) s)
    as [ [ (t & l & Ht & Hl & Hin) | (i & [_ Hw] & _) ] Hc].
  - reflexivity.
  - vm_compute. reflexivity.
  - vm_compute. split; [discriminate|reflexivity].
  - exact Hr.
  - repeat constructor.
  - split; [|exact Hc]. exists t, l. split; [|split; [exact Hl|exact Hin] ].
    revert Ht. vm_compute. exact id.
  - exfalso. revert Hw. vm_compute. discriminate.
Defined.

(** Two reconciliations in a row: the second one is not delivered. *)
Definition noon_hub : Hub := hub (inr [extension]).
Definition reconciled (s : Hub) : Hub := (Reconcile id (clock 0 0 0) key s).2.

Lemma run_pair {S E A} (m : ST S E A) s a : (m s).1 = Ok a -> m s = (Ok a, (m s).2).
Proof. destruct (m s) as [r s']. cbn. by intros ->. Qed.

Lemma reconcile_delivers_witness :
  length (wd_updates (hub_resources (reconciled noon_hub))) = 1%nat /\
  wd_updates (hub_resources (reconciled (reconciled noon_hub))) = wd_updates (hub_resources (reconciled noon_hub)).
Proof.
  split; [vm_compute; reflexivity|].
  destruct (reconcile_delivers id (clock 0 0 0) key (reconciled noon_hub) (reconciled (reconciled noon_hub)))
    as [H | [H _] ].
  - apply run_pair. vm_compute. reflexivity.
  - apply (f_equal length) in H. exfalso. revert H. vm_compute. discriminate.
  - exact H.
Defined.
