(* ===== verification/Params.v ===== *)
(** * Parameters of the executors ([pkg/executorparams/params.go], [pkg/awsutil/tagselector.go])

    The structs that the executors and the validation decode from the JSON of a
    target.  The decoding is the class [ParamsJSON]. *)
From S2P Require Import Prelude.

Record AwaitCompletion := mkAwaitCompletion {
  await_Enabled : bool;
  await_Timeout : string;
}.
Definition no_await : AwaitCompletion := mkAwaitCompletion false "".

(** ** Selectors *)

Record NamespaceSelector := mkNamespaceSelector {
  nss_Literals : list string;
  nss_Selector : gmap string string;
}.

(** [metav1.LabelSelector]. *)
Record LabelSelectorRequirement := mkLabelSelectorRequirement {
  lsr_Key : string;
  lsr_Operator : string;
  lsr_Values : list string;
}.

Record LabelSelector := mkLabelSelector {
  ls_MatchLabels : gmap string string;
  ls_MatchExpressions : list LabelSelectorRequirement;
}.

Record TagSelectorRequirement := mkTagRequirement {
  tsr_Key : string;
  tsr_Operator : string;
  tsr_Values : list string;
}.

Record TagSelector := mkTagSelector {
  ts_MatchTags : gmap string string;
  ts_MatchExpressions : list TagSelectorRequirement;
}.

(** [s.TagSelector != nil && (len(s.TagSelector.MatchTags) > 0 || ...)]. *)
Definition has_tag_selector (s : option TagSelector) : bool :=
  match s with
  | None => false
  | Some t => negb (bool_decide (ts_MatchTags t = ∅)) || negb (bool_decide (ts_MatchExpressions t = []))
  end.

Definition has_label_selector (s : option LabelSelector) : bool :=
  match s with
  | None => false
  | Some t => negb (bool_decide (ls_MatchLabels t = ∅)) || negb (bool_decide (ls_MatchExpressions t = []))
  end.

(** ** Parameters of each executor *)

Record EC2Selector := mkEC2Selector {
  es2_Tags : gmap string string;
  es2_TagSelector : option TagSelector;
  es2_InstanceIDs : list string;
}.

Record EC2Parameters := mkEC2Parameters {
  ec2_Selector : EC2Selector;
  ec2_AwaitCompletion : AwaitCompletion;
}.

Record RDSSelector := mkRDSSelector {
  rs_Tags : gmap string string;
  rs_ExcludeTags : gmap string string;
  rs_TagSelector : option TagSelector;
  rs_InstanceIds : list string;
  rs_ClusterIds : list string;
  rs_IncludeAll : bool;
  rs_DiscoverInstances : bool;
  rs_DiscoverClusters : bool;
}.

Record RDSParameters := mkRDSParameters {
  rds_SnapshotBeforeStop : bool;
  rds_Selector : RDSSelector;
  rds_AwaitCompletion : AwaitCompletion;
}.

(** A node group is its name. *)
Record EKSParameters := mkEKSParameters {
  eks_ClusterName : string;
  eks_NodeGroups : list string;
  eks_AwaitCompletion : AwaitCompletion;
}.

Record KarpenterParameters := mkKarpenterParameters {
  kp_NodePools : list string;
  kp_NodeSelector : option LabelSelector;
  kp_AwaitCompletion : AwaitCompletion;
}.

Record GKEParameters := mkGKEParameters { gke_NodePools : list string }.

Record CloudSQLParameters := mkCloudSQLParameters {
  csql_InstanceName : string;
  csql_Project : string;
}.

Record WorkloadScalerParameters := mkScalerParameters {
  wsp_IncludedGroups : list string;
  wsp_Namespace : NamespaceSelector;
  wsp_WorkloadSelector : option LabelSelector;
  wsp_AwaitCompletion : AwaitCompletion;
}.

(** An int is within 64 bits. *)
Record NoOpParameters := mkNoOpParameters {
  noop_RandomDelaySeconds : Z;
  noop_FailureMode : string;
  noop_FailureMessage : string;
}.

(** ** Decoding

    The zero values are what an empty text leaves. *)

Definition zero_EC2Parameters : EC2Parameters := mkEC2Parameters (mkEC2Selector ∅ None []) no_await.
Definition zero_RDSParameters : RDSParameters :=
  mkRDSParameters false (mkRDSSelector ∅ ∅ None [] [] false false false) no_await.
Definition zero_EKSParameters : EKSParameters := mkEKSParameters "" [] no_await.
Definition zero_KarpenterParameters : KarpenterParameters := mkKarpenterParameters [] None no_await.
Definition zero_ScalerParameters : WorkloadScalerParameters :=
  mkScalerParameters [] (mkNamespaceSelector [] ∅) None no_await.
Definition zero_NoOpParameters : NoOpParameters := mkNoOpParameters 0 "" "".

(** [json.Unmarshal] into the parameters; the text is not empty. *)
Class ParamsJSON := {
  parse_ec2_params : string -> option EC2Parameters;
  parse_rds_params : string -> option RDSParameters;
  parse_eks_params : string -> option EKSParameters;
  parse_karpenter_params : string -> option KarpenterParameters;
  parse_gke_params : string -> option GKEParameters;
  parse_cloudsql_params : string -> option CloudSQLParameters;
  parse_scaler_params : string -> option WorkloadScalerParameters;
  parse_noop_params : string -> option NoOpParameters;
}.

(** [if len(raw) > 0 { json.Unmarshal(raw, &params) }]. *)
Definition decode_params {P} (zero : P) (parse : string -> option P) (text : string) : option P :=
  if (text =? "")%string then Some zero else parse text.
