(* ===== verification/Executor.v ===== *)
(** * Executors and what they report ([internal/executor/interface.go])

    The interface between the runner and the executors: an executor changes a
    world of its own ([T]: a cluster, an account) and reports what it found
    through a callback.  [RestoreData] is what it gets back to wake the target
    up. *)
From S2P Require Import Prelude Monad GoString GoTime Types Cluster Restore.

Local Open Scope Z_scope.

Record AWSConnectorConfig := mkAWSConnectorConfig {
  aws_Region : string;
  aws_AccountID : string;
  aws_AssumeRoleArn : string;
  aws_AccessKeyID : string;
  aws_SecretAccessKey : string;
  aws_SessionToken : string;
}.

Record K8SConnectorConfig := mkK8SConnectorConfig {
  k8s_ClusterName : string;
  k8s_Region : string;
  k8s_Kubeconfig : string;
  k8s_ClusterEndpoint : string;
  k8s_ClusterCAData : string;
  k8s_UseEKSToken : bool;
  k8s_AWS : option AWSConnectorConfig;
}.

Record ConnectorConfig := mkConnectorConfig {
  cc_AWS : option AWSConnectorConfig;
  cc_K8S : option K8SConnectorConfig;
}.

(** The callback is an argument of its own. *)
Record Spec := mkSpec {
  es_TargetName : string;
  es_TargetType : string;
  es_Parameters : string;
  es_ConnectorConfig : ConnectorConfig;
}.

(** [map[string]json.RawMessage]: JSON texts by key. *)
Record RestoreData := mkRestoreData {
  rd_Type : string;
  rd_Data : gmap string string;
  rd_IsLive : bool;
}.

Record Result := mkResult {
  result_Message : string;
  result_ElapsedMs : Z;
}.

(** What an executor passes to the callback: a map, or a struct, of which only
    its JSON encoding matters. *)
Inductive reported :=
| ReportMap (m : gmap string scalar)
| ReportStruct (text : string).

(** [A] is the state of whoever receives the reports. *)
Definition ReportStateCallback (A : Type) : Type := string -> reported -> ST A unit unit.

Class Executor (T : Type) := {
  ExecutorError : Type;
  executor_Type : string;
  Validate : Spec -> res ExecutorError unit;
  Shutdown {A : Type} : Spec -> option (ReportStateCallback A) -> ST (T * A) ExecutorError Result;
  WakeUp : Spec -> RestoreData -> ST T ExecutorError Result;
}.
Arguments ExecutorError {T} _.
Arguments executor_Type {T} _.
Arguments Validate {T} _.
Arguments Shutdown {T} _ {A}.
Arguments WakeUp {T} _.

(** [Registry]: executors by their type. *)
Definition Registry (T : Type) : Type := gmap string (Executor T).
Definition Register {T} (e : Executor T) (r : Registry T) : Registry T := <[executor_Type e := e]> r.
Definition registry_Get {T} (r : Registry T) (executorType : string) : option (Executor T) :=
  r !! executorType.

(** ** JSON texts of the reported values

    An object is a map of members; the members the code looks at are booleans,
    numbers and strings.  [json_canonical] are the texts that the encoder writes;
    decoding and encoding keeps them. *)
Class JSONText := {
  object_text : gmap string scalar -> string;
  object_of_text : string -> option (gmap string scalar);
  quote : string -> string;
  unquote : string -> option string;
  (** [json.Unmarshal] into a [map[string]any] and [json.Marshal] of it; null is the
      nil map. *)
  generic_object : string -> option string;
  json_canonical : string -> Prop;
}.

(** ASCII is what names of Kubernetes objects are made of; other bytes that are
    not UTF-8 do not survive the encoder. *)
Fixpoint is_ascii (s : string) : bool :=
  match s with
  | EmptyString => true
  | String c s' => (N_of_ascii c <? 128)%N && is_ascii s'
  end.

Definition scalar_canonical `{JSONText} (v : scalar) : Prop :=
  match v with SBool _ => True | SOther text => json_canonical text end.

Class JSONTextLaws `{JSONText} : Prop := {
  object_roundtrip m :
    map_Forall (fun _ v => scalar_canonical v) m -> object_of_text (object_text m) = Some m;
  quote_roundtrip s : is_ascii s = true -> unquote (quote s) = Some s;
  unquote_null : unquote "null" = None;
  object_canonical m : map_Forall (fun _ v => scalar_canonical v) m -> json_canonical (object_text m);
  quote_canonical s : is_ascii s = true -> json_canonical (quote s);
  number_canonical n : in_int32 n -> json_canonical (sprint_d n);
}.

(** [json.Marshal] of a value of type [any]. *)
Definition any_text `{JSONText} (v : any) : string :=
  match v with AnyMap m => object_text m | AnyOther text => text end.

(** ** Members of objects

    [json.Unmarshal] into a struct, member by member: a member that is missing or
    null leaves the zero value. *)
Section members.
Context {HT : JSONText}.

Definition string_member (m : gmap string scalar) (k : string) : option string :=
  match m !! k with
  | None => Some ""
  | Some (SOther text) => if (text =? "null")%string then Some "" else unquote text
  | Some (SBool _) => None
  end.

Definition int32_member (m : gmap string scalar) (k : string) : option Z :=
  match m !! k with
  | None => Some 0
  | Some (SOther text) =>
      if (text =? "null")%string then Some 0
      else match Atoi text with
           | Some n => if (int32 n =? n) then Some n else None
           | None => None
           end
  | Some (SBool _) => None
  end.

Definition bool_field (m : gmap string scalar) (k : string) : option bool :=
  match m !! k with
  | None => Some false
  | Some (SBool b) => Some b
  | Some (SOther text) => if (text =? "null")%string then Some false else None
  end.

(** What the encoder has written is read back. *)
Context {HTL : JSONTextLaws}.

Lemma quote_not_null s : is_ascii s = true -> (quote s =? "null")%string = false.
Proof.
  intros Hs. apply String.eqb_neq. intros He. pose proof (quote_roundtrip s Hs) as Hq.
  by rewrite He, unquote_null in Hq.
Qed.

Lemma sprint_d_not_null n : in_int64 n -> (sprint_d n =? "null")%string = false.
Proof.
  intros Hn. apply String.eqb_neq. intros He. pose proof (Atoi_sprint_d n Hn) as H. by rewrite He in H.
Qed.

Lemma string_member_quote m k s :
  is_ascii s = true -> m !! k = Some (SOther (quote s)) -> string_member m k = Some s.
Proof. intros Hs Hm. unfold string_member. by rewrite Hm, quote_not_null, quote_roundtrip. Qed.

Lemma int32_member_sprint m k n :
  in_int32 n -> m !! k = Some (SOther (sprint_d n)) -> int32_member m k = Some n.
Proof.
  intros Hn Hm. assert (in_int64 n) by (unfold in_int32, in_int64 in *; lia).
  unfold int32_member. rewrite Hm, sprint_d_not_null, Atoi_sprint_d by done.
  by rewrite int32_id, Z.eqb_refl.
Qed.

End members.
