(* ===== verification/Operation.v ===== *)
(** * Waiting, and what the executors have in common ([pkg/waiter/waiter.go])

    A waiter checks at once and then on every tick until the check succeeds or
    fails or its context is done.  The ticks, what is observed at each, and the
    end of the context come from outside: a list of events, in the order in which
    the [select] takes them.  The second half is the code that every executor
    repeats: counting outcomes, reporting states, the loops over resources and
    over restore data. *)
From S2P Require Import Prelude Monad GoString GoTime Types Cluster Restore Params Executor.
From Stdlib Require Import Lia.

Local Open Scope Z_scope.

(** What the [select] of [Poll] receives: a tick, at which the world is in the
    state [world], or the end of the context, by its deadline or not. *)
Inductive poll_event (W : Type) :=
| PollTick (world : W)
| PollDone (deadline : bool).
Arguments PollTick {W} world.
Arguments PollDone {W} deadline.

Inductive PollError (E : Type) :=
| ErrCheckFailed (e : E)
| ErrPollTimeout
| ErrPollInterrupted.
Arguments ErrCheckFailed {E} e.
Arguments ErrPollTimeout {E}.
Arguments ErrPollInterrupted {E}.

Definition DefaultPollInterval : Z := 15 * Second.

Record Waiter := mkWaiter { w_timeout : Z; w_interval : Z }.

(** [NewWaiter] with the one option the executors pass, [WithTimeoutString]. *)
Definition WithTimeoutString (s : string) (w : Waiter) : res unit Waiter :=
  if (s =? "")%string then Ok w
  else let* d := ParseDuration s in Ok (mkWaiter d (w_interval w)).

Definition NewWaiter (opts : list (Waiter -> res unit Waiter)) : res unit Waiter :=
  fold_left (fun w opt => let* w := w in opt w) opts (Ok (mkWaiter 0 DefaultPollInterval)).

Section poll.
Context {W E : Type} (check : W -> res E bool).

(** A check that does not end the wait leads to the next event; [NoReturn] when
    the events do not end it either. *)
Fixpoint poll_loop (timeout : Z) (events : list (poll_event W)) : res (PollError E) unit :=
  match events with
  | [] => NoReturn
  | PollDone deadline :: _ =>
      Err (if deadline && (0 <? timeout) then ErrPollTimeout else ErrPollInterrupted)
  | PollTick world :: events' =>
      let* done := res_map_err ErrCheckFailed (check world) in
      if done then Ok tt else poll_loop timeout events'
  end.

Definition Poll (w : Waiter) (world : W) (events : list (poll_event W)) : res (PollError E) unit :=
  let* done := res_map_err ErrCheckFailed (check world) in
  if done then Ok tt else poll_loop (w_timeout w) events.

(** ** What the wait says *)

(** The worlds that are looked at before the context ends. *)
Fixpoint polled (events : list (poll_event W)) : list W :=
  match events with
  | PollTick world :: events' => world :: polled events'
  | _ => []
  end.

Lemma poll_loop_ok timeout events :
  poll_loop timeout events = Ok tt ->
  exists world, world ∈ polled events /\ check world = Ok true.
Proof.
  induction events as [|[world|d] events IH]; [done| |by destruct d].
  simpl. destruct (check world) as [[]|e| |] eqn:E1; simpl; try done.
  - intros _. exists world. split; [by left|done].
  - intros H. apply IH in H as (w & Hw & Hc). exists w. split; [by right|done].
Qed.

(** A wait that succeeds has seen the condition hold. *)
Lemma Poll_ok w world events :
  Poll w world events = Ok tt -> exists seen, seen ∈ world :: polled events /\ check seen = Ok true.
Proof.
  unfold Poll. destruct (check world) as [[]|e| |] eqn:E1; simpl; try done.
  - intros _. exists world. split; [by left|done].
  - intros H. apply poll_loop_ok in H as (seen & Hs & Hc). exists seen. split; [by right|done].
Qed.

Lemma Poll_no_panic w world events :
  (forall seen, check seen <> Panic) -> Poll w world events <> Panic.
Proof.
  intros Hc. assert (forall seen, res_map_err ErrCheckFailed (check seen) <> Panic) as Hm.
  { intros seen. specialize (Hc seen). by destruct (check seen). }
  unfold Poll. pose proof (Hm world) as Hw.
  destruct (res_map_err _ _) as [[]|e| |]; simpl; try done.
  induction events as [|[seen|d] events IH]; [done| |by destruct d]. simpl. pose proof (Hm seen) as Hs.
  destruct (res_map_err _ (check seen)) as [[]|e| |]; simpl; done.
Qed.

(** A wait ends when its context does, as long as the checks return. *)
Lemma Poll_returns w world events deadline :
  (forall seen, check seen <> NoReturn) -> PollDone deadline ∈ events -> Poll w world events <> NoReturn.
Proof.
  intros Hc Hd. unfold Poll. pose proof (Hc world) as Hw.
  destruct (check world) as [[]|e| |]; simpl; try done.
  induction events as [|[seen|d] events IH]; [by apply not_elem_of_nil in Hd| |by destruct d].
  simpl. pose proof (Hc seen) as Hs. destruct (check seen) as [[]|e| |]; simpl; try done.
  apply IH. by apply elem_of_cons in Hd as [Hd|Hd].
Qed.
End poll.

(** A timeout that is empty, or parses to zero or less, leaves the wait to the
    deadline of the whole run. *)
Lemma NewWaiter_timeout s :
  NewWaiter [WithTimeoutString s] =
    if (s =? "")%string then Ok (mkWaiter 0 DefaultPollInterval)
    else let* d := ParseDuration s in Ok (mkWaiter d DefaultPollInterval).
Proof. done. Qed.

(** ** What the executors have in common

    Each executor of the program has its own copy of the types and the loops of
    this file; they differ in the requests they make and in their messages.  The
    lines in the map are those of the workload scaler. *)

(** ** Outcomes and their counts *)

Inductive operationOutcome := operationOutcomeApplied | operationOutcomeSkippedStale.

Record operationStats := mkStats {
  st_processed : Z;
  st_applied : Z;
  st_skippedStale : Z;
}.
Definition no_stats : operationStats := mkStats 0 0 0.
Definition add_stats (s t : operationStats) : operationStats :=
  mkStats (st_processed s + st_processed t) (st_applied s + st_applied t)
    (st_skippedStale s + st_skippedStale t).
Definition inc_processed (s : operationStats) : operationStats := add_stats s (mkStats 1 0 0).
Definition inc_applied (s : operationStats) : operationStats := add_stats s (mkStats 0 1 0).
Definition inc_skipped (s : operationStats) : operationStats := add_stats s (mkStats 0 0 1).

(** The [switch] on the outcome of one resource. *)
Definition count_outcome (o : operationOutcome) (s : operationStats) : operationStats :=
  match o with
  | operationOutcomeApplied => inc_applied s
  | operationOutcomeSkippedStale => inc_skipped s
  end.

Definition appendCountSegment (msg action : string) (count : Z) (noun : string) : string :=
  if count <=? 0 then msg
  else (msg ++ ", " ++ action ++ " " ++ sprint_d count ++ " " ++ noun ++ "(s)")%string.

(** ** Requests

    The service behind a client: requests [Q B] with answers of type [B]. *)
Class Service (Q : Type -> Type) (E : Type) := {
  World : Type;
  serve {B} : Q B -> World -> (E + B) * World;
}.
Arguments World Q {E _}.

(** ** The state of a run

    The world, the resources to wait for, which each operation resets, and the
    state behind the callback. *)
Record Run (T W A : Type) := mkRun {
  run_target : T;
  run_waiting : list W;
  run_acc : A;
}.
Arguments mkRun {T W A} _ _ _.
Arguments run_target {T W A} _.
Arguments run_waiting {T W A} _.
Arguments run_acc {T W A} _.

Section run.
Context {T W A E : Type}.
Implicit Types s : Run T W A.

Definition set_run_target (c : T) s : Run T W A := mkRun c (run_waiting s) (run_acc s).
Definition set_run_waiting (l : list W) s : Run T W A := mkRun (run_target s) l (run_acc s).
Definition set_run_acc (a : A) s : Run T W A := mkRun (run_target s) (run_waiting s) a.

(** The callback; an error is logged. *)
Definition report (callback : option (ReportStateCallback A)) (key : string) (value : reported) :
  ST (Run T W A) E unit :=
  match callback with
  | None => st_ret tt
  | Some f => let! _ := st_try (st_lift run_acc set_run_acc (f key value)) in st_ret tt
  end.

(** [e.waitinglist = append(...)] when completion is awaited. *)
Definition wait_for (await : AwaitCompletion) (x : W) : ST (Run T W A) E unit :=
  if await_Enabled await then st_modify (fun s => set_run_waiting (run_waiting s ++ [x]) s) else st_ret tt.

Definition wait_timeout (default_timeout : string) (await : AwaitCompletion) : string :=
  if (await_Timeout await =? "")%string then default_timeout else await_Timeout await.

(** The goroutines of a wait, and how many of them report an error. *)
Fixpoint await_all (wait : W -> res unit unit) (l : list W) : res E Z :=
  match l with
  | [] => Ok 0
  | x :: l' =>
      match wait x with
      | Ok _ => await_all wait l'
      | Err _ => let* n := await_all wait l' in Ok (1 + n)
      | Panic => Panic
      | NoReturn => NoReturn
      end
  end.

(** The part of a message on the wait. *)
Definition await_message (await : AwaitCompletion) (default_timeout : string)
  (wait : string -> W -> res unit unit) (missing confirmed msg : string) : ST (Run T W A) E string :=
  if await_Enabled await then
    let! waiting := st_gets run_waiting in
    let timeout := wait_timeout default_timeout await in
    let! failed := (fun s => (await_all (wait timeout) waiting, s)) in
    st_ret (msg ++
      if (0 <? failed)%Z
      then ("; " ++ sprint_d failed ++ " of " ++ sprint_d (Z.of_nat (length waiting)) ++ missing
              ++ timeout ++ " timeout")
      else confirmed)%string
  else st_ret msg.
End run.

(** One wait: a waiter with the timeout, and what it observes. *)
Definition wait_until {T E} (check : T -> res E bool) (observed : T * list (poll_event T)) (timeout : string) :
  res unit unit :=
  let* w := NewWaiter [WithTimeoutString timeout] in
  res_map_err (fun _ => tt) (Poll check w observed.1 observed.2).

Section requests.
Context {Q : Type -> Type} {E : Type} {SV : Service Q E} {W A : Type}.

Definition ask {B} (q : Q B) : ST (World Q) E B := fun c =>
  match serve q c with
  | (inl e, c') => (Err e, c')
  | (inr a, c') => (Ok a, c')
  end.

Definition request {B} (q : Q B) : ST (Run (World Q) W A) E B :=
  st_lift run_target set_run_target (ask q).
End requests.

(** The order in which a wakeup visits its data. *)
Definition restore_order `{MapOrder} (data : gmap string string) : list string :=
  map_order (map fst (map_to_list data)).

(** ** Loops *)

Section loops.
Context {S E : Type}.

(** Over the resources of a shutdown: each is counted by its outcome. *)
Fixpoint count_each (f : string -> ST S E operationOutcome) (names : list string) (stats : operationStats) :
  ST S E operationStats :=
  match names with
  | [] => st_ret stats
  | name :: names' => let! outcome := f name in count_each f names' (count_outcome outcome stats)
  end.

(** Over the restore data of a wakeup. *)
Fixpoint wake_entries {N : Type} (f : string -> string -> N -> ST S E N)
  (data : gmap string string) (keys : list string) (stats : N) : ST S E N :=
  match keys with
  | [] => st_ret stats
  | key :: keys' =>
      match data !! key with
      | None => wake_entries f data keys' stats
      | Some text => let! stats' := f key text stats in wake_entries f data keys' stats'
      end
  end.
End loops.

(** ** Lemmas *)

Section run_lemmas.
Context {T W A E : Type}.
Implicit Types s : Run T W A.

Lemma wait_for_run await (x : W) s :
  exists l, wait_for (E:=E) await x s = (Ok tt, set_run_waiting l s).
Proof.
  unfold wait_for, st_modify, st_ret. destruct (await_Enabled _); [by eexists|].
  exists (run_waiting s). by destruct s.
Qed.

Lemma wait_for_completes await (x : W) : completes (wait_for (T:=T) (A:=A) (E:=E) await x).
Proof. intros s. unfold wait_for. by destruct (await_Enabled _). Qed.

Lemma report_completes (callback : option (ReportStateCallback A)) key value :
  (forall f, callback = Some f -> completes (f key value)) ->
  completes (report (T:=T) (W:=W) (E:=E) callback key value).
Proof.
  intros Hf. unfold report. destruct callback as [f|]; [|done]. apply completes_bind; [|done].
  apply completes_try, completes_lift. intros a. by apply Hf.
Qed.

Lemma await_all_total (wait : W -> res unit unit) l :
  (forall x, wait x <> Panic) -> await_all (E:=E) wait l <> Panic /\ forall e, await_all (E:=E) wait l <> Err e.
Proof.
  intros Hw. induction l as [|x l [IH1 IH2]]; [done|]. simpl. pose proof (Hw x).
  destruct (wait x); try done. by destruct (await_all wait l) as [n|e'| |].
Qed.

(** The wait changes nothing, and can only fail to end. *)
Lemma await_message_run await default_timeout wait missing confirmed msg s :
  (forall t x, wait t x <> Panic) ->
  let '(r, s') := await_message (E:=E) await default_timeout wait missing confirmed msg s in
  s' = s /\ r <> Panic /\ (forall e, r <> Err e) /\ (await_Enabled await = false -> r = Ok msg).
Proof.
  intros Hw. unfold await_message. destruct (await_Enabled _); [|done]. unfold st_bind, st_gets.
  destruct (await_all_total (wait (wait_timeout default_timeout await)) (run_waiting s) (Hw _)) as [H1 H2].
  destruct (await_all _ _) as [n|e| |]; try done. by destruct (H2 e).
Qed.
End run_lemmas.

Lemma wait_until_no_panic {T E} (check : T -> res E bool) observed timeout :
  (forall c, check c <> Panic) -> wait_until check observed timeout <> Panic.
Proof.
  intros Hc. unfold wait_until. rewrite NewWaiter_timeout.
  assert (forall w, res_map_err (fun _ => tt) (Poll check w observed.1 observed.2) <> Panic) as Hp.
  { intros w. pose proof (Poll_no_panic check w observed.1 observed.2 Hc). by destruct (Poll _ _ _ _). }
  destruct (_ =? "")%string; [apply Hp|]. pose proof (ParseDuration_no_panic timeout).
  destruct (ParseDuration timeout); [apply Hp|done..].
Qed.

Section request_lemmas.
Context {Q : Type -> Type} {E : Type} {SV : Service Q E} {W A : Type}.
Implicit Types s : Run (World Q) W A.

(** A request whose error the code inspects. *)
Lemma try_request {B E'} (q : Q B) s :
  st_try (E' := E') (request q) s =
    (Ok (serve q (run_target s)).1, set_run_target (serve q (run_target s)).2 s).
Proof.
  unfold st_try, request, st_lift, ask. by destruct (serve q (run_target s)) as [[e|a] c].
Qed.

Lemma wrap_request {B E'} (f : E -> E') (q : Q B) s :
  st_wrap f (request q) s =
    (match (serve q (run_target s)).1 with inl e => Err (f e) | inr a => Ok a end,
     set_run_target (serve q (run_target s)).2 s).
Proof.
  unfold st_wrap, request, st_lift, ask. by destruct (serve q (run_target s)) as [[e|a] c].
Qed.

Lemma hoare_request {B C E'} (q : Q B) (k : E + B -> ST (Run (World Q) W A) E' C) P R X :
  (forall s, P s ->
     hoare (fun s' => s' = set_run_target (serve q (run_target s)).2 s) (k (serve q (run_target s)).1) R X) ->
  hoare P (st_bind (st_try (request q)) k) R X.
Proof.
  intros H s Hs. unfold st_bind. rewrite try_request. specialize (H s Hs).
  by apply (H (set_run_target (serve q (run_target s)).2 s)).
Qed.

Lemma completes_request {B E'} (q : Q B) : completes (st_try (E' := E') (request (W:=W) (A:=A) q)).
Proof. intros s. by rewrite try_request. Qed.

Lemma completes_ask {B} (q : Q B) : completes (ask q).
Proof. intros c. unfold ask. by destruct (serve q c) as [[e|a] c']. Qed.
End request_lemmas.

Lemma restore_order_NoDup `{MapOrder} (data : gmap string string) : NoDup (restore_order data).
Proof. unfold restore_order. rewrite map_order_perm. apply NoDup_fst_map_to_list. Qed.

Lemma elem_of_restore_order `{MapOrder} (data : gmap string string) k text :
  data !! k = Some text -> k ∈ restore_order data.
Proof.
  intros Hk. unfold restore_order. rewrite map_order_perm.
  apply list_elem_of_fmap. exists (k, text). split; [done|]. by apply elem_of_map_to_list.
Qed.

(** The wait at the end of an operation: [lem] says that the waits do not panic. *)
Ltac awaited lem r Hnp Hne Hoff :=
  match goal with
  | |- context [await_message (E:=?E) ?a ?d ?w ?m ?f ?t ?s] =>
      let s' := fresh "s" in
      let H := fresh "H" in
      pose proof (await_message_run (E:=E) a d w m f t s lem) as H;
      destruct (await_message a d w m f t s) as [r s'];
      destruct H as (-> & Hnp & Hne & Hoff)
  end.
