(* ===== verification/Threads.v ===== *)
(** * Goroutines that share a client and a callback

    A [proc] is code that makes requests and reports; [thread] adds the waits of a
    [waiter], whose [select] takes a tick or the end of a context, and the counters
    of whoever waits for the thread.  A schedule says which thread does its next
    action.  [protocol] is the logic of such threads: each owns a resource, which
    is in a phase, and keeps to the actions that its phase allows. *)
From S2P Require Import Prelude Monad Executor Operation.

(** ** Programs *)

Inductive proc (Q : Type -> Type) (E X : Type) : Type :=
| PRet (x : X)
| PAsk {B : Type} (q : Q B) (k : E + B -> proc Q E X)
| PReport (key : string) (value : reported) (k : proc Q E X).
Arguments PRet {Q E X} x.
Arguments PAsk {Q E X B} q k.
Arguments PReport {Q E X} key value k.

Fixpoint proc_bind {Q E X Y} (p : proc Q E X) (k : X -> proc Q E Y) : proc Q E Y :=
  match p with
  | PRet x => k x
  | PAsk q f => PAsk q (fun r => proc_bind (f r) k)
  | PReport key value p' => PReport key value (proc_bind p' k)
  end.

(** With errors. *)
Definition then_ok {Q E F X Y} (p : proc Q E (res F X)) (k : X -> proc Q E (res F Y)) : proc Q E (res F Y) :=
  proc_bind p (fun r =>
    match r with Ok x => k x | Err e => PRet (Err e) | Panic => PRet Panic | NoReturn => PRet NoReturn end).

Definition ask_as {Q E F B} (f : E -> F) (q : Q B) : proc Q E (res F B) :=
  PAsk q (fun r => PRet (match r with inl e => Err (f e) | inr a => Ok a end)).

(** [TSelect]: a tick, or the end of the context and whether it was a deadline.
    [C] are the counters. *)
Inductive thread (Q : Type -> Type) (E C : Type) : Type :=
| TEnd
| TCall {X : Type} (p : proc Q E X) (k : X -> thread Q E C)
| TSelect (k : option bool -> thread Q E C)
| TNote (f : C -> C) (t : thread Q E C).
Arguments TEnd {Q E C}.
Arguments TCall {Q E C X} p k.
Arguments TSelect {Q E C} k.
Arguments TNote {Q E C} f t.

(** ** Waits *)

Section wait.
Context {Q : Type -> Type} {E C F : Type}.

(** [Poll], in a thread.  The context ends by its deadline when the last of the
    [ticks] is over, if not before. *)
Fixpoint poll_thread (check : proc Q E (res F bool)) (timeout : Z) (ticks : nat) (k : res (PollError F) unit -> thread Q E C) :
  thread Q E C :=
  let ended deadline := k (Err (if deadline && (0 <? timeout)%Z then ErrPollTimeout else ErrPollInterrupted)) in
  TCall check (fun r =>
    match r with
    | Ok true => k (Ok tt)
    | Ok false =>
        match ticks with
        | O => ended true
        | S ticks' => TSelect (fun e => match e with Some deadline => ended deadline | None => poll_thread check timeout ticks' k end)
        end
    | Err e => k (Err (ErrCheckFailed e))
    | Panic => k Panic
    | NoReturn => k NoReturn
    end).
End wait.

(** ** Execution *)

Record Shared (T A C : Type) := mkShared {
  sh_target : T;
  sh_acc : A;
  sh_counts : C;
  (** The context has ended, by its deadline or not. *)
  sh_ended : option bool;
}.
Arguments mkShared {T A C} _ _ _ _.
Arguments sh_target {T A C} _.
Arguments sh_acc {T A C} _.
Arguments sh_counts {T A C} _.
Arguments sh_ended {T A C} _.

Inductive sched_event :=
| SStep (i : nat) (end_first : bool)
| SEnd (deadline : bool).

Section run.
Context {Q : Type -> Type} {E : Type} {SV : Service Q E} {A C : Type}.
Context (callback : option (ReportStateCallback A)).
Notation T := (World Q).

(** A report; an error is logged. *)
Definition deliver (key : string) (value : reported) (a : A) : A :=
  match callback with None => a | Some f => (f key value a).2 end.

Fixpoint proc_run {X} (p : proc Q E X) (c : T) (a : A) : X * (T * A) :=
  match p with
  | PRet x => (x, (c, a))
  | PAsk q k => proc_run (k (serve q c).1) (serve q c).2 a
  | PReport key value p' => proc_run p' c (deliver key value a)
  end.

(** The same in an operation. *)
Definition run_proc {W F X} (p : proc Q E (res F X)) : ST (Run T W A) F X := fun s =>
  let '(x, (c, a)) := proc_run p (run_target s) (run_acc s) in
  (x, set_run_acc a (set_run_target c s)).

(** One action; the [select] takes the end of the context if it is over and
    [end_first]. *)
Definition thread_step (end_first : bool) (t : thread Q E C) (sh : Shared T A C) : thread Q E C * Shared T A C :=
  match t with
  | TEnd => (TEnd, sh)
  | TNote f t' => (t', mkShared (sh_target sh) (sh_acc sh) (f (sh_counts sh)) (sh_ended sh))
  | TSelect k => (k (if end_first then sh_ended sh else None), sh)
  | TCall p k =>
      match p with
      | PRet x => (k x, sh)
      | PAsk q f =>
          (TCall (f (serve q (sh_target sh)).1) k,
           mkShared (serve q (sh_target sh)).2 (sh_acc sh) (sh_counts sh) (sh_ended sh))
      | PReport key value p' =>
          (TCall p' k, mkShared (sh_target sh) (deliver key value (sh_acc sh)) (sh_counts sh) (sh_ended sh))
      end
  end.

(** To its end, with the context over. *)
Fixpoint thread_run (t : thread Q E C) (sh : Shared T A C) : Shared T A C :=
  match t with
  | TEnd => sh
  | TNote f t' => thread_run t' (mkShared (sh_target sh) (sh_acc sh) (f (sh_counts sh)) (sh_ended sh))
  | TSelect k => thread_run (k (Some (default true (sh_ended sh)))) sh
  | TCall p k =>
      let '(x, (c, a)) := proc_run p (sh_target sh) (sh_acc sh) in
      thread_run (k x) (mkShared c a (sh_counts sh) (sh_ended sh))
  end.

Fixpoint run_schedule (sched : list sched_event) (ts : list (thread Q E C)) (sh : Shared T A C) :
  list (thread Q E C) * Shared T A C :=
  match sched with
  | [] => (ts, sh)
  | SEnd deadline :: sched' =>
      run_schedule sched' ts
        (mkShared (sh_target sh) (sh_acc sh) (sh_counts sh) (Some (default deadline (sh_ended sh))))
  | SStep i end_first :: sched' =>
      match ts !! i with
      | None => run_schedule sched' ts sh
      | Some t =>
          let '(t', sh') := thread_step end_first t sh in
          run_schedule sched' (<[i := t']> ts) sh'
      end
  end.

(** The wait for all threads: what the schedule leaves is done afterwards. *)
Definition wait_all (sched : list sched_event) (ts : list (thread Q E C)) (sh : Shared T A C) : Shared T A C :=
  let '(ts', sh') := run_schedule sched ts sh in
  fold_left (fun sh t => thread_run t sh) ts' sh'.
End run.

(** ** Protocols *)

Section protocol.
Context {Q : Type -> Type} {E : Type} {SV : Service Q E} {A C : Type}.
Context (callback : option (ReportStateCallback A)).
Context {R Ph : Type} `{EqDecision R}.
(** What the owner of a resource may do in a phase, and the phase it comes to. *)
Context (may_ask : forall B, R -> Q B -> Ph -> Prop) (after_ask : forall B, R -> Q B -> E + B -> Ph -> Ph).
Context (may_report : R -> string -> reported -> Ph -> Prop) (after_report : R -> string -> reported -> Ph -> Ph).
Context (Inv : (R -> Ph) -> World Q -> A -> Prop).
(** The answers that the service can give. *)
Context (answer : forall B, Q B -> E + B -> Prop).

Definition moved (r : R) (ph ph' : R -> Ph) : Prop := forall r', r' <> r -> ph' r' = ph r'.

Hypothesis Hanswer : forall B (q : Q B) c, answer B q (serve q c).1.
Hypothesis Hask : forall B r (q : Q B) ph c a, Inv ph c a -> may_ask B r q (ph r) ->
  exists ph', Inv ph' (serve q c).2 a /\ ph' r = after_ask B r q (serve q c).1 (ph r) /\ moved r ph ph'.
Hypothesis Hreport : forall r key value ph c a, Inv ph c a -> may_report r key value (ph r) ->
  exists ph', Inv ph' c (deliver callback key value a) /\ ph' r = after_report r key value (ph r) /\ moved r ph ph'.

Fixpoint proc_ok {X} (r : R) (p : proc Q E X) (ph : Ph) (post : X -> Ph -> Prop) : Prop :=
  match p with
  | PRet x => post x ph
  | PAsk q k => may_ask _ r q ph /\ forall b, answer _ q b -> proc_ok r (k b) (after_ask _ r q b ph) post
  | PReport key value p' => may_report r key value ph /\ proc_ok r p' (after_report r key value ph) post
  end.

Fixpoint thread_ok (final : Ph -> Prop) (r : R) (t : thread Q E C) (ph : Ph) : Prop :=
  match t with
  | TEnd => final ph
  | TCall p k => proc_ok r p ph (fun x ph' => thread_ok final r (k x) ph')
  | TSelect k => forall e, thread_ok final r (k e) ph
  | TNote _ t' => thread_ok final r t' ph
  end.

Lemma proc_ok_bind {X Y} r (p : proc Q E X) (k : X -> proc Q E Y) ph post :
  proc_ok r p ph (fun x ph' => proc_ok r (k x) ph' post) -> proc_ok r (proc_bind p k) ph post.
Proof.
  revert ph. induction p as [x|B q f IH|key value p IH]; intros ph; cbn; [done| |]; intros [H1 H2]; (split; [done|]).
  - intros b Hb. apply IH. by apply H2.
  - by apply IH.
Qed.

Lemma proc_ok_mono {X} r (p : proc Q E X) ph (post post' : X -> Ph -> Prop) :
  (forall x ph', post x ph' -> post' x ph') -> proc_ok r p ph post -> proc_ok r p ph post'.
Proof.
  intros Hp. revert ph. induction p as [x|B q f IH|key value p IH]; intros ph; cbn; [by apply Hp| |];
    intros [H1 H2]; (split; [done|]); [intros b Hb; apply IH; by apply H2|by apply IH].
Qed.

Lemma moved_trans r ph1 ph2 ph3 : moved r ph1 ph2 -> moved r ph2 ph3 -> moved r ph1 ph3.
Proof. intros H1 H2 r' Hr. by rewrite H2, H1. Qed.

Lemma proc_ok_run {X} r (p : proc Q E X) ph c a (post : X -> Ph -> Prop) :
  Inv ph c a -> proc_ok r p (ph r) post ->
  let '(x, (c', a')) := proc_run callback p c a in
  exists ph', Inv ph' c' a' /\ post x (ph' r) /\ moved r ph ph'.
Proof.
  revert ph c a. induction p as [x|B q f IH|key value p IH]; intros ph c a Hi; cbn.
  - intros Hp. by exists ph.
  - intros [H1 H2]. destruct (Hask _ r q ph c a Hi H1) as (ph1 & Hi1 & He & Hm). specialize (H2 (serve q c).1 (Hanswer _ _ _)).
    rewrite <- He in H2. specialize (IH _ ph1 _ _ Hi1 H2). destruct (proc_run _ _ _ _) as [x [c' a']].
    destruct IH as (ph2 & Hi2 & Hp & Hm2). exists ph2. split_and!; [done..|by eapply moved_trans].
  - intros [H1 H2]. destruct (Hreport r key value ph c a Hi H1) as (ph1 & Hi1 & He & Hm). rewrite <- He in H2.
    specialize (IH ph1 _ _ Hi1 H2). destruct (proc_run _ _ _ _) as [x [c' a']].
    destruct IH as (ph2 & Hi2 & Hp & Hm2). exists ph2. split_and!; [done..|by eapply moved_trans].
Qed.

Context (final : Ph -> Prop).

(** The threads [ts] of the owners [rs] keep to the protocol. *)
Definition threads_ok (rs : list R) (ts : list (thread Q E C)) (ph : R -> Ph) : Prop :=
  Forall2 (fun r t => thread_ok final r t (ph r)) rs ts.

Lemma thread_ok_step end_first r (t : thread Q E C) ph (sh : Shared (World Q) A C) :
  Inv ph (sh_target sh) (sh_acc sh) -> thread_ok final r t (ph r) ->
  let '(t', sh') := thread_step callback end_first t sh in
  exists ph', Inv ph' (sh_target sh') (sh_acc sh') /\ thread_ok final r t' (ph' r) /\ moved r ph ph'.
Proof.
  intros Hi. destruct t as [|X p k|k|f t]; cbn; [intros Ht; by exists ph| |intros Ht; by exists ph|intros Ht; by exists ph].
  destruct p as [x|B q g|key value p]; cbn.
  - intros Ht. by exists ph.
  - intros [H1 H2]. destruct (Hask _ r q ph _ _ Hi H1) as (ph1 & Hi1 & He & Hm). exists ph1. split_and!; [done| |done].
    rewrite He. apply H2, Hanswer.
  - intros [H1 H2]. destruct (Hreport r key value ph _ _ Hi H1) as (ph1 & Hi1 & He & Hm). exists ph1.
    split_and!; [done| |done]. by rewrite He.
Qed.

Lemma thread_ok_run r (t : thread Q E C) ph (sh : Shared (World Q) A C) :
  Inv ph (sh_target sh) (sh_acc sh) -> thread_ok final r t (ph r) ->
  exists ph', Inv ph' (sh_target (thread_run callback t sh)) (sh_acc (thread_run callback t sh)) /\
    final (ph' r) /\ moved r ph ph'.
Proof.
  revert ph sh. induction t as [|X p k IH|k IH|f t IH]; intros ph sh Hi Ht; cbn in *.
  - by exists ph.
  - pose proof (proc_ok_run r p ph _ _ _ Hi Ht) as H. destruct (proc_run _ _ _ _) as [x [c' a']].
    destruct H as (ph1 & Hi1 & Ht1 & Hm). destruct (IH x ph1 (mkShared c' a' (sh_counts sh) (sh_ended sh)) Hi1 Ht1) as (ph2 & ? & ? & Hm2).
    exists ph2. split_and!; [done..|by eapply moved_trans].
  - by apply IH.
  - by apply (IH ph (mkShared (sh_target sh) (sh_acc sh) (f (sh_counts sh)) (sh_ended sh))).
Qed.

(** The step of one thread leaves the others as they are. *)
Lemma threads_ok_moved rs ts i r t ph ph' :
  NoDup rs -> threads_ok rs ts ph -> rs !! i = Some r -> moved r ph ph' -> thread_ok final r t (ph' r) ->
  threads_ok rs (<[i := t]> ts) ph'.
Proof.
  intros Hd Hts Hr Hm Ht. unfold threads_ok in *. apply Forall2_same_length_lookup. split.
  - rewrite length_insert. by eapply Forall2_length.
  - intros j r' t' Hj. rewrite list_lookup_insert_Some. intros [(<- & <- & _)|[Hne Hj'] ].
    + assert (r' = r) as -> by congruence. done.
    + assert (r' <> r) as Hr' by (intros ->; apply Hne; by eapply NoDup_lookup). rewrite Hm by done.
      by eapply Forall2_lookup_lr in Hts.
Qed.

Lemma run_schedule_ok sched rs ts ph (sh : Shared (World Q) A C) :
  NoDup rs -> threads_ok rs ts ph -> Inv ph (sh_target sh) (sh_acc sh) ->
  let '(ts', sh') := run_schedule callback sched ts sh in
  exists ph', Inv ph' (sh_target sh') (sh_acc sh') /\ threads_ok rs ts' ph' /\ forall r, r ∉ rs -> ph' r = ph r.
Proof.
  intros Hd. revert ts ph sh. induction sched as [|[i ef|d] sched IH]; intros ts ph sh Hts Hi; cbn.
  - by exists ph.
  - destruct (ts !! i) as [t|] eqn:Et; [|by apply IH].
    destruct (Forall2_lookup_r _ _ _ _ _ Hts Et) as (r & Hr & Ht).
    pose proof (thread_ok_step ef r t ph sh Hi Ht) as H. destruct (thread_step _ _ _ _) as [t' sh'].
    destruct H as (ph1 & Hi1 & Ht1 & Hm). specialize (IH (<[i := t']> ts) ph1 sh').
    specialize (IH (threads_ok_moved _ _ _ _ _ _ _ Hd Hts Hr Hm Ht1) Hi1).
    destruct (run_schedule _ _ _ _) as [ts2 sh2]. destruct IH as (ph2 & ? & ? & Hout). exists ph2. split_and!; [done..|].
    intros r' Hr'. rewrite Hout by done. apply Hm. intros ->. apply Hr'. by eapply list_elem_of_lookup_2.
  - by apply IH.
Qed.

Lemma finish_ok rs ts ph (sh : Shared (World Q) A C) :
  NoDup rs -> threads_ok rs ts ph -> Inv ph (sh_target sh) (sh_acc sh) ->
  let sh' := fold_left (fun sh t => thread_run callback t sh) ts sh in
  exists ph', Inv ph' (sh_target sh') (sh_acc sh') /\ (forall r, r ∈ rs -> final (ph' r)) /\ forall r, r ∉ rs -> ph' r = ph r.
Proof.
  revert rs ph sh. induction ts as [|t ts IH]; intros rs ph sh Hd Hts Hi; inversion Hts as [|r t' rs' ts' Ht Hts']; subst; cbn.
  - exists ph. split_and!; [done| |done]. intros r Hr. by apply elem_of_nil in Hr.
  - apply NoDup_cons in Hd as [Hr Hd]. destruct (thread_ok_run r t ph sh Hi Ht) as (ph1 & Hi1 & Hf & Hm).
    destruct (IH rs' ph1 (thread_run callback t sh) Hd) as (ph2 & Hi2 & Hfin & Hout); [|done|].
    + unfold threads_ok in *. apply Forall2_same_length_lookup in Hts' as [Hlen Hl]. apply Forall2_same_length_lookup.
      split; [done|]. intros j r' t2 Hj1 Hj2. rewrite Hm; [by eapply Hl|]. intros ->. apply Hr. by eapply list_elem_of_lookup_2.
    + exists ph2. split_and!; [done| |].
      * intros r' [->|Hr']%elem_of_cons; [by rewrite Hout|by apply Hfin].
      * intros r' [Hr1 Hr2]%not_elem_of_cons. rewrite Hout by done. by apply Hm.
Qed.

(** Whatever the schedule: the invariant holds at the end, and every thread has
    come to a final phase. *)
Lemma wait_all_ok sched rs ts ph (sh : Shared (World Q) A C) :
  NoDup rs -> threads_ok rs ts ph -> Inv ph (sh_target sh) (sh_acc sh) ->
  let sh' := wait_all callback sched ts sh in
  exists ph', Inv ph' (sh_target sh') (sh_acc sh') /\ (forall r, r ∈ rs -> final (ph' r)) /\ forall r, r ∉ rs -> ph' r = ph r.
Proof.
  intros Hd Hts Hi. unfold wait_all. pose proof (run_schedule_ok sched rs ts ph sh Hd Hts Hi) as H.
  destruct (run_schedule _ _ _ _) as [ts' sh']. destruct H as (ph1 & Hi1 & Hts1 & Hout).
  destruct (finish_ok rs ts' ph1 sh' Hd Hts1 Hi1) as (ph2 & Hi2 & Hf & Hout2). exists ph2. split_and!; [done..|].
  intros r Hr. by rewrite Hout2, Hout.
Qed.
End protocol.
