(* ===== verification/GoPath.v ===== *)
(** * Go's [path.Match]

    Shell patterns on the bytes of a string: [*] and [?] do not match a slash, a
    class in brackets takes one UTF-8 character.  The syntax of a pattern is
    checked in the course of the match; [path_Match_error] shows that whether it is
    wrong does not depend on the name. *)
From S2P Require Import Prelude GoString.
From Stdlib Require Import Lia.

Local Open Scope Z_scope.

(** ** UTF-8 *)

Definition RuneError : Z := 65533.

Definition byte (c : ascii) : Z := Z.of_N (N_of_ascii c).
Definition between (lo hi x : Z) : bool := (lo <=? x) && (x <=? hi).

(** [utf8.DecodeRuneInString]: the character and its length. *)
Definition DecodeRune (s : string) : Z * nat :=
  match s with
  | EmptyString => (RuneError, 0%nat)
  | String c0 s1 =>
      let b0 := byte c0 in
      let invalid := (RuneError, 1%nat) in
      let cont (lo hi : Z) (k : Z -> string -> Z * nat) (s : string) :=
        match s with
        | EmptyString => invalid
        | String c s' => if between lo hi (byte c) then k (byte c - 128) s' else invalid
        end in
      let two lo hi := cont lo hi (fun x _ => (64 * (b0 - 192) + x, 2%nat)) s1 in
      let three lo hi :=
        cont lo hi (fun x => cont 128 191 (fun y _ => (4096 * (b0 - 224) + 64 * x + y, 3%nat))) s1 in
      let four lo hi :=
        cont lo hi (fun x => cont 128 191 (fun y => cont 128 191 (fun z _ =>
          (262144 * (b0 - 240) + 4096 * x + 64 * y + z, 4%nat)))) s1 in
      if b0 <? 128 then (b0, 1%nat)
      else if between 194 223 b0 then two 128 191
      else if b0 =? 224 then three 160 191
      else if b0 =? 237 then three 128 159
      else if between 225 239 b0 then three 128 191
      else if b0 =? 240 then four 144 191
      else if between 241 243 b0 then four 128 191
      else if b0 =? 244 then four 128 143
      else invalid
  end.

Fixpoint string_drop (n : nat) (s : string) : string :=
  match n, s with
  | S n', String _ s' => string_drop n' s'
  | _, _ => s
  end.

(** ** Chunks

    [None] is [ErrBadPattern]. *)

(** [getEsc]: a character of a class, which is not the end of the chunk. *)
Definition getEsc (chunk : string) : option (Z * string) :=
  let read (c : string) :=
    let '(r, n) := DecodeRune c in
    let rest := string_drop n c in
    if ((r =? RuneError) && Nat.eqb n 1) || (rest =? "")%string then None else Some (r, rest) in
  match chunk with
  | EmptyString => None
  | String c chunk' =>
      if Ascii.eqb c "-" || Ascii.eqb c "]" then None
      else if Ascii.eqb c "\" then (if (chunk' =? "")%string then None else read chunk')
      else read chunk
  end.

(** The end of a range, when there is one after its beginning [lo]. *)
Definition range_end (lo : Z) (rest : string) : option (Z * string) :=
  match rest with
  | String c rest' => if Ascii.eqb c "-" then getEsc rest' else Some (lo, rest)
  | EmptyString => Some (lo, rest)
  end.

Definition at_bracket (chunk : string) : bool :=
  match chunk with String c _ => Ascii.eqb c "]" | EmptyString => false end.

(** The ranges of a class, up to its bracket: whether [r] is in one of them, and
    the rest of the chunk. *)
Fixpoint match_ranges (fuel : nat) (r : Z) (first found : bool) (chunk : string) : option (bool * string) :=
  match fuel with
  | O => None
  | S fuel' =>
      if at_bracket chunk && negb first then Some (found, string_drop 1 chunk)
      else
        '(lo, rest) ← getEsc chunk;
        '(hi, rest') ← range_end lo rest;
        match_ranges fuel' r false (found || between lo hi r) rest'
  end.

Definition drop_char (failed : bool) (s : string) : string :=
  match s with String _ s' => if failed then s else s' | EmptyString => s end.

Definition class_start (chunk : string) : bool * string :=
  match chunk with
  | String c chunk' => if Ascii.eqb c "^" then (true, chunk') else (false, chunk)
  | EmptyString => (false, chunk)
  end.

Definition at_slash (s : string) : bool :=
  match s with String c _ => Ascii.eqb c "/" | EmptyString => false end.

(** [matchChunk]: the rest of the name when the chunk matches its beginning. *)
Fixpoint match_chunk_loop (fuel : nat) (chunk : string) (failed : bool) (s : string) : option (option string) :=
  match fuel, chunk with
  | _, EmptyString => Some (if failed then None else Some s)
  | O, _ => None
  | S fuel', String c chunk' =>
      let failed := failed || (s =? "")%string in
      let literal c chunk' :=
        let differs := match s with String c' _ => negb (Ascii.eqb c c') | EmptyString => false end in
        match_chunk_loop fuel' chunk' (failed || differs) (drop_char failed s) in
      if Ascii.eqb c "[" then
        let '(r, n) := if failed then (0, 0%nat) else DecodeRune s in
        let '(negated, body) := class_start chunk' in
        '(found, rest) ← match_ranges (S (String.length body)) r true false body;
        match_chunk_loop fuel' rest (failed || Bool.eqb found negated) (string_drop n s)
      else if Ascii.eqb c "?" then
        match_chunk_loop fuel' chunk' (failed || at_slash s)
          (if failed then s else string_drop (DecodeRune s).2 s)
      else if Ascii.eqb c "\" then
        match chunk' with
        | EmptyString => None
        | String c' chunk'' => literal c' chunk''
        end
      else literal c chunk'
  end.

Definition matchChunk (chunk s : string) : option (option string) :=
  match_chunk_loop (String.length chunk) chunk false s.

(** [scanChunk]: the stars before the chunk, and the chunk, which ends before the
    next star outside of brackets. *)
Fixpoint skip_stars (pattern : string) : bool * string :=
  match pattern with
  | String c pattern' => if Ascii.eqb c "*" then (true, (skip_stars pattern').2) else (false, pattern)
  | EmptyString => (false, pattern)
  end.

Fixpoint scan (inrange : bool) (pattern : string) : string * string :=
  match pattern with
  | EmptyString => (EmptyString, EmptyString)
  | String c pattern' =>
      if Ascii.eqb c "\" then
        match pattern' with
        | EmptyString => (pattern, EmptyString)
        | String c' pattern'' => let '(a, b) := scan inrange pattern'' in (String c (String c' a), b)
        end
      else if Ascii.eqb c "*" && negb inrange then (EmptyString, pattern)
      else
        let inrange' := if Ascii.eqb c "[" then true else if Ascii.eqb c "]" then false else inrange in
        let '(a, b) := scan inrange' pattern' in (String c a, b)
  end.

Definition scanChunk (pattern : string) : bool * string * string :=
  let '(star, rest) := skip_stars pattern in
  let '(chunk, rest') := scan false rest in (star, chunk, rest').

(** ** The match *)

(** After a star: the chunk further on in the name, but not beyond a slash. *)
Inductive skipped := SkipFound (rest : string) | SkipNone | SkipBad.

Fixpoint skip_match (chunk : string) (last : bool) (name : string) : skipped :=
  match name with
  | EmptyString => SkipNone
  | String c name' =>
      if Ascii.eqb c "/" then SkipNone
      else match matchChunk chunk name' with
           | None => SkipBad
           | Some (Some t) => if last && negb (t =? "")%string then skip_match chunk last name' else SkipFound t
           | Some None => skip_match chunk last name'
           end
  end.

(** The rest of a pattern that does not match is still read. *)
Fixpoint rest_valid (fuel : nat) (pattern : string) : bool :=
  match fuel, pattern with
  | _, EmptyString => true
  | O, _ => false
  | S fuel', _ =>
      let '(_, chunk, rest) := scanChunk pattern in
      match matchChunk chunk "" with None => false | Some _ => rest_valid fuel' rest end
  end.

Fixpoint has_slash (s : string) : bool :=
  match s with EmptyString => false | String c s' => Ascii.eqb c "/" || has_slash s' end.

Fixpoint match_loop (fuel : nat) (pattern name : string) : option bool :=
  match fuel, pattern with
  | _, EmptyString => Some (name =? "")%string
  | O, _ => None
  | S fuel', _ =>
      let '(star, chunk, rest) := scanChunk pattern in
      if star && (chunk =? "")%string then Some (negb (has_slash name))
      else
        let last := (rest =? "")%string in
        let refuse := if rest_valid (String.length rest) rest then Some false else None in
        let skip :=
          if star then
            match skip_match chunk last name with
            | SkipFound t => match_loop fuel' rest t
            | SkipNone => refuse
            | SkipBad => None
            end
          else refuse in
        match matchChunk chunk name with
        | None => None
        | Some (Some t) => if (t =? "")%string || negb last then match_loop fuel' rest t else skip
        | Some None => skip
        end
  end.

Definition path_Match (pattern name : string) : option bool :=
  match_loop (String.length pattern) pattern name.

(** ** Fuel

    More fuel than the pattern is long changes nothing. *)

Lemma string_drop_length n s : (String.length (string_drop n s) <= String.length s)%nat.
Proof. revert s. induction n as [|n IH]; intros [|c s]; simpl; try lia. specialize (IH s). lia. Qed.

Lemma DecodeRune_pos c s : (0 < (DecodeRune (String c s)).2)%nat.
Proof.
  unfold DecodeRune. repeat match goal with |- context [if ?b then _ else _] => destruct b end;
    repeat match goal with |- context [match ?s with EmptyString => _ | String _ _ => _ end] => destruct s end;
    repeat match goal with |- context [if ?b then _ else _] => destruct b end; simpl; lia.
Qed.

Lemma getEsc_shorter chunk r rest : getEsc chunk = Some (r, rest) -> (String.length rest < String.length chunk)%nat.
Proof.
  unfold getEsc. assert (forall c : string, (let '(r, n) := DecodeRune c in
      let rest := string_drop n c in
      if ((r =? RuneError) && Nat.eqb n 1) || (rest =? "")%string then None else Some (r, rest)) = Some (r, rest) ->
    (String.length rest < String.length c)%nat) as H.
  { intros [|c s]; [done|]. pose proof (DecodeRune_pos c s) as Hp. destruct (DecodeRune (String c s)) as [r' n].
    cbn [snd] in Hp. cbv zeta. destruct (_ || _); [done|]. intros [= _ <-]. destruct n; [lia|]. simpl.
    pose proof (string_drop_length n s). lia. }
  destruct chunk as [|c chunk]; [done|]. destruct (_ || _); [done|]. destruct (Ascii.eqb c "\"); [|by apply H].
  destruct (chunk =? "")%string; [done|]. intros Hr%H. simpl. lia.
Qed.

Lemma range_end_shorter lo rest hi rest' :
  range_end lo rest = Some (hi, rest') -> (String.length rest' <= String.length rest)%nat.
Proof.
  destruct rest as [|c rest]; simpl; [by intros [= _ <-]|]. destruct (Ascii.eqb c "-"); [|by intros [= _ <-]].
  intros H%getEsc_shorter. lia.
Qed.

Lemma match_ranges_shorter f r first found chunk b rest :
  match_ranges f r first found chunk = Some (b, rest) -> (String.length rest < String.length chunk)%nat.
Proof.
  revert first found chunk. induction f as [|f IH]; intros first found chunk; [done|]. simpl.
  destruct (at_bracket chunk && negb first) eqn:E.
  - destruct chunk as [|c chunk]; [done|]. simpl. intros [= _ <-]. destruct chunk; simpl; lia.
  - destruct (getEsc chunk) as [[lo rest1]|] eqn:E1; [|done]. cbn.
    destruct (range_end lo rest1) as [[hi rest2]|] eqn:E2; [|done]. cbn.
    apply getEsc_shorter in E1. apply range_end_shorter in E2. intros H%IH. lia.
Qed.

Lemma match_ranges_fuel f f' r first found chunk :
  (String.length chunk < f)%nat -> (String.length chunk < f')%nat ->
  match_ranges f r first found chunk = match_ranges f' r first found chunk.
Proof.
  revert f' first found chunk. induction f as [|f IH]; intros [|f'] first found chunk Hf Hf'; try lia. simpl.
  destruct (at_bracket chunk && negb first); [done|].
  destruct (getEsc chunk) as [[lo rest1]|] eqn:E1; [|done]. cbn.
  destruct (range_end lo rest1) as [[hi rest2]|] eqn:E2; [|done]. cbn.
  apply getEsc_shorter in E1. apply range_end_shorter in E2. apply IH; lia.
Qed.

(** What is read of a class does not depend on the character. *)
Lemma match_ranges_rest f r r' first found found' chunk :
  snd <$> match_ranges f r first found chunk = snd <$> match_ranges f r' first found' chunk.
Proof.
  revert first found found' chunk. induction f as [|f IH]; intros first found found' chunk; [done|]. simpl.
  destruct (at_bracket chunk && negb first); [done|].
  destruct (getEsc chunk) as [[lo rest1]|]; [|done]. cbn.
  destruct (range_end lo rest1) as [[hi rest2]|]; [|done]. cbn. apply IH.
Qed.

#[local] Arguments match_ranges : simpl never.

Lemma class_start_length chunk : (String.length (class_start chunk).2 <= String.length chunk)%nat.
Proof. destruct chunk as [|c chunk]; simpl; [lia|]. destruct (Ascii.eqb c "^"); simpl; lia. Qed.

Lemma match_chunk_fuel f f' chunk failed s :
  (String.length chunk <= f)%nat -> (String.length chunk <= f')%nat ->
  match_chunk_loop f chunk failed s = match_chunk_loop f' chunk failed s.
Proof.
  revert f' chunk failed s. induction f as [|f IH]; intros f' chunk failed s Hf Hf'.
  { destruct chunk; [by destruct f'|simpl in Hf; lia]. }
  destruct f' as [|f']; destruct chunk as [|c chunk]; try done; simpl in Hf, Hf'; [lia|]. simpl.
  destruct (Ascii.eqb c "[").
  { destruct (if failed || (s =? "")%string then (0, 0%nat) else DecodeRune s) as [r n].
    pose proof (class_start_length chunk). destruct (class_start chunk) as [negated body]. simpl in *.
    destruct (match_ranges _ _ _ _ _) as [[found rest]|] eqn:E; [|done]. cbn.
    apply match_ranges_shorter in E. apply IH; lia. }
  destruct (Ascii.eqb c "?"); [apply IH; lia|].
  destruct (Ascii.eqb c "\"); [|apply IH; lia]. destruct chunk as [|c' chunk]; [done|]. simpl in *. apply IH; lia.
Qed.

(** ** Errors *)

(** Whether a chunk is malformed does not depend on the name. *)
Lemma match_chunk_error f chunk failed failed' s s' :
  match_chunk_loop f chunk failed s = None -> match_chunk_loop f chunk failed' s' = None.
Proof.
  revert chunk failed failed' s s'. induction f as [|f IH]; intros chunk failed failed' s s'; [by destruct chunk|].
  destruct chunk as [|c chunk]; [done|]. simpl.
  destruct (Ascii.eqb c "[").
  { destruct (if failed || (s =? "")%string then (0, 0%nat) else DecodeRune s) as [r n].
    destruct (if failed' || (s' =? "")%string then (0, 0%nat) else DecodeRune s') as [r' n'].
    destruct (class_start chunk) as [negated body].
    pose proof (match_ranges_rest (S (String.length body)) r r' true false false body) as H.
    destruct (match_ranges _ r _ _ _) as [[found rest]|], (match_ranges _ r' _ _ _) as [[found' rest']|]; try done.
    cbn in H. injection H as <-. cbn. apply IH. }
  destruct (Ascii.eqb c "?"); [apply IH|].
  destruct (Ascii.eqb c "\"); [|apply IH]. destruct chunk as [|c' chunk]; [done|]. apply IH.
Qed.

Lemma matchChunk_error chunk s s' : matchChunk chunk s = None -> matchChunk chunk s' = None.
Proof. apply match_chunk_error. Qed.

Lemma skip_stars_spec p :
  let '(star, rest) := skip_stars p in
  (String.length rest <= String.length p)%nat /\ (star = true -> String.length rest < String.length p)%nat /\
  match rest with String c _ => Ascii.eqb c "*" = false | EmptyString => True end /\ (star = false -> rest = p).
Proof.
  induction p as [|c p IH]; [done|]. cbn [skip_stars]. destruct (Ascii.eqb c "*") eqn:E; [|cbn; by rewrite E].
  destruct (skip_stars p) as [star rest]. destruct IH as (H1 & H2 & H3 & H4). cbn [snd String.length] in *.
  split_and!; [lia|lia|done|done].
Qed.

Lemma scan_length inrange p :
  (String.length (scan inrange p).1 + String.length (scan inrange p).2 = String.length p)%nat.
Proof.
  remember (String.length p) as n eqn:En. revert inrange p En.
  induction n as [n IH] using lt_wf_ind; intros inrange [|c p] En; [by rewrite En|]. cbn [scan].
  destruct (Ascii.eqb c "\").
  - destruct p as [|c' p]; [simpl in *; lia|]. simpl in En.
    specialize (IH (String.length p) ltac:(lia) inrange p eq_refl). destruct (scan inrange p) as [a b].
    cbn in IH |- *. lia.
  - destruct (_ && _); [simpl in *; lia|]. simpl in En. cbv zeta.
    specialize (IH (String.length p) ltac:(lia) (if Ascii.eqb c "[" then true else if Ascii.eqb c "]" then false else inrange) p eq_refl).
    destruct (scan _ p) as [a b]. cbn in IH |- *. lia.
Qed.

Lemma scan_starts c p : Ascii.eqb c "*" = false -> (scan false (String c p)).1 <> ""%string.
Proof.
  intros Hc. cbn [scan]. rewrite Hc. destruct (Ascii.eqb c "\").
  - destruct p as [|c' p]; [done|]. by destruct (scan false p).
  - cbn. by destruct (scan _ p).
Qed.

(** A chunk takes a part of the pattern, and no chunk is left after a last star. *)
Lemma scanChunk_spec p :
  let '(star, chunk, rest) := scanChunk p in
  (p <> "" -> String.length rest < String.length p)%nat /\ (chunk = "" -> rest = "")%string.
Proof.
  unfold scanChunk. pose proof (skip_stars_spec p) as Hs. destruct (skip_stars p) as [star r].
  destruct Hs as (H1 & H2 & H3 & H4). pose proof (scan_length false r) as Hl.
  destruct r as [|c r].
  - cbn in *. split; [|done]. intros Hp. destruct p; [done|]. simpl. lia.
  - pose proof (scan_starts c r H3) as Hn. destruct (scan false (String c r)) as [a b]. cbn [fst snd] in *.
    split; [|done]. intros _. destruct a; [done|]. simpl in *. lia.
Qed.

Lemma rest_valid_fuel f f' p :
  (String.length p <= f)%nat -> (String.length p <= f')%nat -> rest_valid f p = rest_valid f' p.
Proof.
  revert f' p. induction f as [|f IH]; intros f' p Hf Hf'.
  { destruct p; [by destruct f'|simpl in Hf; lia]. }
  destruct p as [|c p]; [by destruct f'|]. destruct f' as [|f']; [simpl in Hf'; lia|]. cbn [rest_valid].
  pose proof (scanChunk_spec (String c p)) as Hs. destruct (scanChunk _) as [[star chunk] rest].
  destruct Hs as [Hs _]. specialize (Hs ltac:(done)). destruct (matchChunk _ _); [|done]. apply IH; lia.
Qed.

Definition valid_pattern (p : string) : bool := rest_valid (String.length p) p.

Lemma valid_pattern_chunk p : p <> ""%string ->
  let '(_, chunk, rest) := scanChunk p in
  valid_pattern p = match matchChunk chunk "" with None => false | Some _ => valid_pattern rest end.
Proof.
  intros Hp. unfold valid_pattern. destruct p as [|c p]; [done|]. cbn [String.length rest_valid].
  pose proof (scanChunk_spec (String c p)) as Hs. destruct (scanChunk _) as [[star chunk] rest].
  destruct Hs as [Hs _]. specialize (Hs Hp). destruct (matchChunk _ _); [|done]. simpl in Hs. apply rest_valid_fuel; lia.
Qed.

Lemma skip_match_bad chunk last name :
  skip_match chunk last name = SkipBad -> matchChunk chunk "" = None.
Proof.
  induction name as [|c name IH]; [done|]. simpl. destruct (Ascii.eqb c "/"); [done|].
  destruct (matchChunk chunk name) as [[t|]|] eqn:E; [|done|].
  - by destruct (_ && _).
  - intros _. by eapply matchChunk_error.
Qed.

Lemma matchChunk_valid chunk s : matchChunk chunk "" <> None -> matchChunk chunk s <> None.
Proof. intros H1 H2. apply H1. by eapply matchChunk_error. Qed.

(** A pattern is malformed for every name or for none. *)
Lemma match_loop_error f p name :
  (String.length p <= f)%nat -> match_loop f p name = None <-> valid_pattern p = false.
Proof.
  revert p name. induction f as [|f IH]; intros p name Hf.
  { destruct p; [|simpl in Hf; lia]. done. }
  destruct p as [|c p]; [done|]. pose proof (valid_pattern_chunk (String c p) ltac:(done)) as Hv.
  pose proof (scanChunk_spec (String c p)) as Hs. cbn [match_loop].
  destruct (scanChunk _) as [[star chunk] rest]. destruct Hs as [Hs He]. specialize (Hs ltac:(done)). rewrite Hv.
  assert (forall t, match_loop f rest t = None <-> valid_pattern rest = false) as IH' by (intros t; apply IH; simpl in *; lia).
  destruct (star && (chunk =? "")%string) eqn:Es.
  { apply andb_true_iff in Es as [_ ->%String.eqb_eq]. by rewrite (He eq_refl). }
  fold (valid_pattern rest).
  destruct (matchChunk chunk "") as [o|] eqn:Ec.
  2: { by rewrite (matchChunk_error chunk "" name Ec). }
  assert ((if valid_pattern rest then Some false else None) = None <-> valid_pattern rest = false) as Hrefuse
    by (by destruct (valid_pattern rest)).
  assert ((if star then match skip_match chunk (rest =? "")%string name with
             | SkipFound t => match_loop f rest t
             | SkipNone => if valid_pattern rest then Some false else None
             | SkipBad => None end else if valid_pattern rest then Some false else None) = None <-> valid_pattern rest = false) as Hskip.
  { destruct star; [|done]. destruct (skip_match _ _ _) as [t| |] eqn:Ek; [done|done|].
    apply skip_match_bad in Ek. congruence. }
  pose proof (matchChunk_valid chunk name ltac:(by rewrite Ec)).
  destruct (matchChunk chunk name) as [[t|]|]; [|exact Hskip|done].
  destruct (_ || _); [apply IH'|exact Hskip].
Qed.

Lemma path_Match_error p name : path_Match p name = None <-> valid_pattern p = false.
Proof. by apply match_loop_error. Qed.

Module PathSamples.
Example star_in_name : path_Match "web-*" "web-1" = Some true. Proof. reflexivity. Qed.
Example star_no_slash : path_Match "a*" "a/b" = Some false. Proof. reflexivity. Qed.
Example last_chunk : path_Match "a*c" "abcbc" = Some true. Proof. reflexivity. Qed.
Example class_range : path_Match "v[0-9a-f]?" "vb7" = Some true. Proof. reflexivity. Qed.
Example class_negated : path_Match "[^a-c]x" "bx" = Some false. Proof. reflexivity. Qed.
Example class_open : path_Match "[a" "" = None. Proof. reflexivity. Qed.
Example class_empty : path_Match "[]a]" "a" = None. Proof. reflexivity. Qed.
Example escaped_star : path_Match "\*" "*" = Some true. Proof. reflexivity. Qed.
Example escape_open : path_Match "x\" "y" = None. Proof. reflexivity. Qed.
Example bad_later : path_Match "a*[" "b" = None. Proof. reflexivity. Qed.
Example star_in_class : path_Match "[*]b" "*b" = Some true. Proof. reflexivity. Qed.
End PathSamples.
