(* ===== verification/AwsUtil.v ===== *)
(** * Tag selectors and AWS configuration ([pkg/awsutil])

    Whether the tags of a resource satisfy a selector, which selectors are valid,
    the filters sent to EC2, and the configuration of a client.  A pattern that is
    malformed matches nothing; [Match_selects] shows that this does not happen for
    selectors that were validated. *)
From S2P Require Import Prelude GoString PlanWebhook Params Executor GoPath.
From Stdlib Require Import Lia.

Local Open Scope Z_scope.

(** ** Matching *)

Definition matchTag (resourceTags : gmap string string) (key value : string) : bool :=
  match resourceTags !! key with
  | None => false
  | Some resourceValue => (value =? "")%string || (resourceValue =? value)%string
  end.

(** [err == nil && matched]. *)
Definition glob (pattern value : string) : bool :=
  match path_Match pattern value with Some matched => matched | None => false end.

Definition matchExpression (resourceTags : gmap string string) (expr : TagSelectorRequirement) : bool :=
  let resourceValue := default "" (resourceTags !! tsr_Key expr) in
  let hasKey := bool_decide (is_Some (resourceTags !! tsr_Key expr)) in
  let op := tsr_Operator expr in
  if (op =? "In")%string then hasKey && existsb (String.eqb resourceValue) (tsr_Values expr)
  else if (op =? "NotIn")%string then negb (hasKey && existsb (String.eqb resourceValue) (tsr_Values expr))
  else if (op =? "Exists")%string then hasKey
  else if (op =? "DoesNotExist")%string then negb hasKey
  else if (op =? "Matches")%string then hasKey && existsb (fun p => glob p resourceValue) (tsr_Values expr)
  else if (op =? "NotMatches")%string then negb (hasKey && existsb (fun p => glob p resourceValue) (tsr_Values expr))
  else false.

Definition match_all_tags (resourceTags tags : gmap string string) : bool :=
  forallb (fun kv => matchTag resourceTags kv.1 kv.2) (map_to_list tags).

Definition Match (resourceTags : gmap string string) (selector : option TagSelector) : bool :=
  match selector with
  | None => true
  | Some s => match_all_tags resourceTags (ts_MatchTags s) && forallb (matchExpression resourceTags) (ts_MatchExpressions s)
  end.

(** ** Validation *)

Definition validateExpression (expr : TagSelectorRequirement) (path : string) : list FieldError :=
  let op := tsr_Operator expr in
  let among l := existsb (String.eqb op) l in
  err_if (tsr_Key expr =? "")%string FieldRequired (Child path "key") ++
  (if among ["In"; "NotIn"; "Matches"; "NotMatches"]
   then err_if (bool_decide (tsr_Values expr = [])) FieldRequired (Child path "values")
   else if among ["Exists"; "DoesNotExist"]
   then err_if (negb (bool_decide (tsr_Values expr = []))) FieldForbidden (Child path "values")
   else [mkFieldError FieldNotSupported (Child path "operator")]) ++
  (if among ["Matches"; "NotMatches"]
   then concat (imap (fun i p =>
          err_if (bool_decide (path_Match p "" = None)) FieldInvalid (Index (Child path "values") i)) (tsr_Values expr))
   else []).

Definition ValidateTagSelector (selector : option TagSelector) (path : string) : list FieldError :=
  match selector with
  | None => []
  | Some s =>
      concat (imap (fun i expr => validateExpression expr (Index (Child path "matchExpressions") i))
                (ts_MatchExpressions s))
  end.

(** [nil] when there are no tags. *)
Definition ToTagSelector (tags : gmap string string) : option TagSelector :=
  if bool_decide (tags = ∅) then None else Some (mkTagSelector tags []).

(** ** What a selector means *)

Definition expression_holds (tags : gmap string string) (expr : TagSelectorRequirement) : Prop :=
  let value := tags !! tsr_Key expr in
  let op := tsr_Operator expr in
  if (op =? "In")%string then exists v, value = Some v /\ v ∈ tsr_Values expr
  else if (op =? "NotIn")%string then forall v, value = Some v -> v ∉ tsr_Values expr
  else if (op =? "Exists")%string then is_Some value
  else if (op =? "DoesNotExist")%string then value = None
  else if (op =? "Matches")%string then
    exists v p, value = Some v /\ p ∈ tsr_Values expr /\ path_Match p v = Some true
  else if (op =? "NotMatches")%string then
    forall v p, value = Some v -> p ∈ tsr_Values expr -> path_Match p v = Some false
  else False.

Record selects (tags : gmap string string) (s : TagSelector) : Prop := {
  sel_tags k v : ts_MatchTags s !! k = Some v -> exists w, tags !! k = Some w /\ (v = ""%string \/ w = v);
  sel_expressions e : e ∈ ts_MatchExpressions s -> expression_holds tags e;
}.

Lemma matchTag_true tags k v :
  matchTag tags k v = true <-> exists w, tags !! k = Some w /\ (v = ""%string \/ w = v).
Proof.
  unfold matchTag. destruct (tags !! k) as [w|]; [|naive_solver]. rewrite orb_true_iff, !String.eqb_eq. naive_solver.
Qed.

Lemma match_all_tags_true tags sel :
  match_all_tags tags sel = true <->
  forall k v, sel !! k = Some v -> exists w, tags !! k = Some w /\ (v = ""%string \/ w = v).
Proof.
  unfold match_all_tags. rewrite forallb_forall. split.
  - intros H k v Hk. apply matchTag_true, (H (k, v)), list_elem_of_In. by apply elem_of_map_to_list.
  - intros H [k v] Hin%list_elem_of_In%elem_of_map_to_list. by apply matchTag_true, H.
Qed.

Lemma existsb_eqb v l : existsb (String.eqb v) l = true <-> v ∈ l.
Proof.
  rewrite existsb_exists. split.
  - intros (x & Hx & ->%String.eqb_eq). by apply list_elem_of_In.
  - intros H. exists v. by rewrite String.eqb_refl, <- list_elem_of_In.
Qed.

(** The patterns of the expression are well formed. *)
Definition patterns_valid (expr : TagSelectorRequirement) : Prop :=
  forall p, p ∈ tsr_Values expr -> valid_pattern p = true.

Definition is_pattern_operator (op : string) : bool := (op =? "Matches")%string || (op =? "NotMatches")%string.

Lemma glob_valid p v b : valid_pattern p = true -> glob p v = b <-> path_Match p v = Some b.
Proof.
  intros Hp. unfold glob. destruct (path_Match p v) eqn:E; [naive_solver|]. apply path_Match_error in E. congruence.
Qed.

Lemma existsb_glob v l : existsb (fun p => glob p v) l = true <-> exists p, p ∈ l /\ glob p v = true.
Proof. rewrite existsb_exists. by setoid_rewrite list_elem_of_In. Qed.

Lemma matchExpression_holds tags expr :
  (is_pattern_operator (tsr_Operator expr) = true -> patterns_valid expr) ->
  matchExpression tags expr = true <-> expression_holds tags expr.
Proof.
  intros Hp. unfold matchExpression, expression_holds, is_pattern_operator in *.
  destruct (tags !! tsr_Key expr) as [v|]; cbn [default]; repeat case_match; cbn; try done;
    rewrite ?orb_true_r in Hp; rewrite ?negb_true_iff; try (specialize (Hp eq_refl)).
  all: rewrite ?(bool_decide_eq_true_2 (is_Some (Some v))) by (by eexists).
  all: rewrite ?(bool_decide_eq_false_2 (is_Some (@None string))) by (by intros []).
  all: cbn; try (by split; [done|]; intros; naive_solver).
  - rewrite existsb_eqb. naive_solver.
  - rewrite <- not_true_iff_false, existsb_eqb. naive_solver.
  - rewrite existsb_glob. split.
    + intros (p & Hin & Hg). exists v, p. split_and!; [done..|]. by apply glob_valid; [apply Hp|].
    + intros (w & p & [= <-] & Hin & Hg). exists p. split; [done|]. by apply glob_valid; [apply Hp|].
  - rewrite <- not_true_iff_false, existsb_glob. split.
    + intros Hno w p [= <-] Hin. apply glob_valid; [by apply Hp|]. apply not_true_iff_false. intros Hg. apply Hno. by exists p.
    + intros Hall (p & Hin & Hg). apply glob_valid in Hg; [|by apply Hp]. rewrite (Hall v p) in Hg; done.
Qed.

(** ** Validated selectors *)

Lemma validateExpression_patterns expr path :
  validateExpression expr path = [] -> is_pattern_operator (tsr_Operator expr) = true -> patterns_valid expr.
Proof.
  unfold validateExpression. intros [_ [_ H]%app_nil]%app_nil Hop p [i Hi]%list_elem_of_lookup.
  assert (existsb (String.eqb (tsr_Operator expr)) ["Matches"; "NotMatches"] = true) as Ha.
  { apply existsb_eqb. unfold is_pattern_operator in Hop.
    apply orb_true_iff in Hop as [->%String.eqb_eq| ->%String.eqb_eq]; set_solver. }
  rewrite Ha in H. rewrite concat_imap_nil in H. specialize (H i p Hi). apply err_if_nil, bool_decide_eq_false in H.
  destruct (valid_pattern p) eqn:E; [done|]. apply (path_Match_error p "") in E. done.
Qed.

(** C40: a tag selector that passes its validation selects exactly the resources
    that it describes: every pattern is well formed, for whatever value a tag has,
    so that the matching never treats a malformed pattern as one that does not
    match, and every operator is known. *)
Theorem Match_selects s path tags :
  ValidateTagSelector (Some s) path = [] -> Match tags (Some s) = true <-> selects tags s.
Proof.
  cbn [ValidateTagSelector Match]. rewrite concat_imap_nil. intros Hv.
  assert (forall e, e ∈ ts_MatchExpressions s -> matchExpression tags e = true <-> expression_holds tags e) as He.
  { intros e [i Hi]%list_elem_of_lookup. apply matchExpression_holds. intros Hop.
    by eapply validateExpression_patterns; [apply (Hv i)|]. }
  rewrite andb_true_iff, match_all_tags_true, forallb_forall. split.
  - intros [H1 H2]. split; [done|]. intros e Hin. by apply He, H2, list_elem_of_In.
  - intros [H1 H2]. split; [done|]. intros e Hin%list_elem_of_In. by apply He, H2.
Qed.

Module TagSamples.
Definition selector : TagSelector :=
  mkTagSelector {[ "env" := "dev" ]}
    [mkTagRequirement "name" "Matches" ["web-*"; "api-[0-9]"]; mkTagRequirement "tier" "NotMatches" ["prod*"]].
Definition web : gmap string string := {[ "env" := "dev"; "name" := "web-1" ]}.

Example web_selected : Match web (Some selector) = true.
Proof. vm_compute. reflexivity. Qed.
Example prod_refused : Match (<["tier" := "production"]> web) (Some selector) = false.
Proof. vm_compute. reflexivity. Qed.

(** Without the validation a malformed pattern excludes nothing. *)
Example malformed_excludes_nothing :
  matchExpression {[ "tier" := "prod" ]} (mkTagRequirement "tier" "NotMatches" ["[prod"]) = true /\
  validateExpression (mkTagRequirement "tier" "NotMatches" ["[prod"]) "e" = [mkFieldError FieldInvalid "e.values[0]"].
Proof. vm_compute. split; reflexivity. Qed.
End TagSamples.

Lemma Match_selects_witness :
  ValidateTagSelector (Some TagSamples.selector) "selector" = [] /\ selects TagSamples.web TagSamples.selector.
Proof.
  split; [vm_compute; reflexivity|].
  refine (proj1 (Match_selects TagSamples.selector "selector" TagSamples.web _) _); vm_compute; reflexivity.
Defined.

(** ** AWS configurations ([pkg/awsutil/config.go]) and filters ([filter.go])

    How the executors for AWS get their configuration from the connector, and
    which instances they leave alone.  [config.LoadDefaultConfig] is the class
    [AWSLoader]. *)

(** What the options passed to the SDK say. *)
Record AwsOptions := mkAwsOptions {
  opt_Region : option string;
  opt_Credentials : option (string * string * string);
}.

(** Where the credentials come from: what the SDK has loaded, or a role that is
    assumed with these. *)
Inductive AwsCredentials :=
| LoadedCredentials (options : AwsOptions)
| AssumedRole (roleArn : string) (source : AwsCredentials).

Record AwsConfig := mkAwsConfig {
  ac_Region : string;
  ac_Credentials : AwsCredentials;
}.

(** The region that the SDK finds; [None] is an error. *)
Class AWSLoader := { LoadDefaultConfig : AwsOptions -> option string }.

Definition aws_options (cfg : AWSConnectorConfig) : AwsOptions :=
  mkAwsOptions (if (aws_Region cfg =? "")%string then None else Some (aws_Region cfg))
    (if (aws_AccessKeyID cfg =? "")%string && (aws_SecretAccessKey cfg =? "")%string then None
     else Some (aws_AccessKeyID cfg, aws_SecretAccessKey cfg, aws_SessionToken cfg)).

Definition BuildAWSConfig `{AWSLoader} (cfg : option AWSConnectorConfig) : option AwsConfig :=
  c ← cfg;
  region ← LoadDefaultConfig (aws_options c);
  let loaded := LoadedCredentials (aws_options c) in
  Some (mkAwsConfig region
          (if (aws_AssumeRoleArn c =? "")%string then loaded else AssumedRole (aws_AssumeRoleArn c) loaded)).

(** ** Instances *)

Record Instance := mkInstance {
  inst_InstanceId : string;
  inst_State : string;
  inst_Tags : list (string * string);
}.

Definition has_tag (key : string) (inst : Instance) : bool :=
  existsb (fun tag => (tag.1 =? key)%string) (inst_Tags inst).

Definition ExcludeByASGManaged : Instance -> bool := has_tag "aws:autoscaling:groupName".
Definition ExcludeByKarpenterManaged : Instance -> bool := has_tag "karpenter.sh/nodepool".

Definition ApplyExclusions (instances : list Instance) (rules : list (Instance -> bool)) : list Instance :=
  filter (fun inst => existsb (fun rule => rule inst) rules = false) instances.
