(* ===== verification/ParamsValidation.v ===== *)
(** * Validation of the parameters of executors ([pkg/executorparams/validation.go])

    What the admission webhook and the dispatch of targets ask about the parameters
    of a target.  Of errors that are wrapped the texts are left out; a field error
    is its path. *)
From S2P Require Import Prelude GoString GoTime Types Restore World Execution PlanWebhook Params AwsUtil.
From S2P Require Import Executor Operation.

Local Open Scope Z_scope.

(** ** Results *)

Record ParamResult := mkParamResult {
  pr_Errors : list string;
  pr_Warnings : list string;
}.
Definition no_result : ParamResult := mkParamResult [] [].

Definition HasErrors (r : ParamResult) : bool := negb (bool_decide (pr_Errors r = [])).

Definition Merge (r other : ParamResult) : ParamResult :=
  mkParamResult (pr_Errors r ++ pr_Errors other) (pr_Warnings r ++ pr_Warnings other).

Definition AddError (msg : string) (r : ParamResult) : ParamResult :=
  mkParamResult (pr_Errors r ++ [msg]) (pr_Warnings r).

Definition AddWarning (msg : string) (r : ParamResult) : ParamResult :=
  mkParamResult (pr_Errors r) (pr_Warnings r ++ [msg]).

Definition add_if (b : bool) (msg : string) (r : ParamResult) : ParamResult := if b then AddError msg r else r.

(** [metav1.validation.ValidateLabelSelector] finds no error. *)
Class LabelValidation := { valid_label_selector : LabelSelector -> bool }.

(** ** The validators *)

Section validators.
Context {HP : ParamsJSON} {HT : JSONText} {HV : LabelValidation} {HM : MapOrder}.

Definition invalid_json : string := "invalid JSON format".

(** The beginning of each validator: empty parameters give [empty]. *)
Definition with_params {P} (parse : string -> option P) (empty : ParamResult) (f : P -> ParamResult -> ParamResult)
  (params : string) : ParamResult :=
  if (params =? "")%string then empty
  else match parse params with
       | None => AddError invalid_json no_result
       | Some p => f p no_result
       end.

Definition validateWaitTimeout (timeout : string) : bool :=
  (timeout =? "")%string || match ParseDuration timeout with Ok _ => true | _ => false end.

Definition check_await (await : AwaitCompletion) (r : ParamResult) : ParamResult :=
  if await_Enabled await && negb (await_Timeout await =? "")%string
  then add_if (negb (validateWaitTimeout (await_Timeout await))) "awaitCompletion.timeout has invalid duration format" r
  else r.

Definition check_tag_selector (s : option TagSelector) (r : ParamResult) : ParamResult :=
  fold_left (fun r e => AddError ("selector.tagSelector: " ++ fe_Path e) r)
    (ValidateTagSelector s (Child "selector" "tagSelector")) r.

Definition validateLabelSelector (s : option LabelSelector) : bool :=
  match s with None => true | Some s => valid_label_selector s end.

Notation some_tags m := (negb (bool_decide (m = ∅))).
Notation some_items l := (negb (bool_decide (l = []))).

Definition validateEC2Params : string -> ParamResult :=
  with_params parse_ec2_params
    (AddError "parameters required: either selector.tags, selector.tagSelector, or selector.instanceIds must be specified"
       no_result)
    (fun p r =>
       let sel := ec2_Selector p in
       let hasTagSelector := has_tag_selector (es2_TagSelector sel) in
       let hasTags := some_tags (es2_Tags sel) in
       let hasInstanceIDs := some_items (es2_InstanceIDs sel) in
       check_await (ec2_AwaitCompletion p) (check_tag_selector (es2_TagSelector sel)
         (add_if (hasTags && hasTagSelector) "selector.tags and selector.tagSelector are mutually exclusive"
         (add_if (hasTags && hasInstanceIDs)
            "selector.tags and selector.instanceIds are mutually exclusive (both are server-side filters)"
         (add_if (negb hasTags && negb hasTagSelector && negb hasInstanceIDs)
            "either selector.tags, selector.tagSelector, or selector.instanceIds must be specified" r))))).

Definition validateRDSParams : string -> ParamResult :=
  with_params parse_rds_params
    (AddError "parameters required: selector must specify at least one selection method" no_result)
    (fun p r =>
       let sel := rds_Selector p in
       let hasTagSelector := has_tag_selector (rs_TagSelector sel) in
       let hasTags := some_tags (rs_Tags sel) in
       let hasExcludeTags := some_tags (rs_ExcludeTags sel) in
       let hasIds := some_items (rs_InstanceIds sel) || some_items (rs_ClusterIds sel) in
       let byTags := hasTags || hasExcludeTags || hasTagSelector in
       let methodCount := length (filter (fun b : bool => b = true) [byTags; hasIds; rs_IncludeAll sel]) in
       let isDynamicDiscovery := byTags || rs_IncludeAll sel in
       let r := add_if (negb (byTags || hasIds || rs_IncludeAll sel))
                  "selector must specify at least one of: tags, excludeTags, tagSelector, instanceIds, clusterIds, or includeAll" r in
       let r := add_if (Nat.ltb 1 methodCount)
                  "selector must use only one method: either (tags/excludeTags/tagSelector), (instanceIds/clusterIds), or includeAll" r in
       let r := add_if (hasTags && hasExcludeTags) "selector.tags and selector.excludeTags are mutually exclusive" r in
       let r := add_if (hasTagSelector && (hasTags || hasExcludeTags))
                  "selector.tagSelector is mutually exclusive with selector.tags and selector.excludeTags" r in
       let r := check_tag_selector (rs_TagSelector sel) r in
       let r := (if hasIds && (rs_DiscoverInstances sel || rs_DiscoverClusters sel)
                 then AddWarning "discoverInstances and discoverClusters are ignored when using explicit instanceIds or clusterIds" r
                 else r) in
       let r := add_if (isDynamicDiscovery && negb (rs_DiscoverInstances sel) && negb (rs_DiscoverClusters sel))
                  "at least one of discoverInstances or discoverClusters must be explicitly set to true for dynamic discovery (tags/excludeTags/tagSelector/includeAll)" r in
       check_await (rds_AwaitCompletion p) r).

Definition validateEKSParams : string -> ParamResult :=
  with_params parse_eks_params (AddError "parameters required: clusterName must be specified" no_result)
    (fun p r =>
       check_await (eks_AwaitCompletion p)
         (add_if (eks_ClusterName p =? "")%string "clusterName is required" r)).

(** No parameters: all NodePools. *)
Definition validateKarpenterParams : string -> ParamResult :=
  with_params parse_karpenter_params no_result
    (fun p r =>
       check_await (kp_AwaitCompletion p)
         (add_if (negb (validateLabelSelector (kp_NodeSelector p))) "nodeSelector validation failed"
         (add_if (some_items (kp_NodePools p) && has_label_selector (kp_NodeSelector p))
            "nodePools and nodeSelector are mutually exclusive" r))).

Definition validateGKEParams : string -> ParamResult :=
  with_params parse_gke_params (AddError "parameters required: nodePools must be specified" no_result)
    (fun p r => add_if (bool_decide (gke_NodePools p = [])) "nodePools must be specified and non-empty" r).

Definition validateCloudSQLParams : string -> ParamResult :=
  with_params parse_cloudsql_params
    (AddError "parameters required: instanceName and project must be specified" no_result)
    (fun p r =>
       add_if (csql_Project p =? "")%string "project must be specified"
         (add_if (csql_InstanceName p =? "")%string "instanceName must be specified" r)).

Definition validateWorkloadScalerParams : string -> ParamResult :=
  with_params parse_scaler_params (AddError "parameters required: namespace must be specified" no_result)
    (fun p r =>
       let literals := some_items (nss_Literals (wsp_Namespace p)) in
       let selector := some_tags (nss_Selector (wsp_Namespace p)) in
       check_await (wsp_AwaitCompletion p)
         (add_if (negb (validateLabelSelector (wsp_WorkloadSelector p))) "workloadSelector validation failed"
         (add_if (literals && selector) "namespace.literals and namespace.selector are mutually exclusive"
         (add_if (negb literals && negb selector) "namespace must specify either literals or selector" r)))).

(** ** The registry *)

Record validatorEntry := mkValidatorEntry {
  ve_validator : string -> ParamResult;
  ve_knownFields : list string;
}.

Definition Register_validator (executorType : string) (knownFields : list string) (validator : string -> ParamResult)
  (registry : gmap string validatorEntry) : gmap string validatorEntry :=
  <[executorType := mkValidatorEntry validator knownFields]> registry.

Definition validators : gmap string validatorEntry :=
  Register_validator "workloadscaler" ["includedGroups"; "namespace"; "workloadSelector"; "awaitCompletion"]
    validateWorkloadScalerParams
  (Register_validator "cloudsql" ["instanceName"; "project"] validateCloudSQLParams
  (Register_validator "gke" ["nodePools"] validateGKEParams
  (Register_validator "karpenter" ["nodePools"; "awaitCompletion"] validateKarpenterParams
  (Register_validator "eks" ["clusterName"; "nodeGroups"; "awaitCompletion"] validateEKSParams
  (Register_validator "rds" ["selector"; "snapshotBeforeStop"; "awaitCompletion"] validateRDSParams
  (Register_validator "ec2" ["selector"; "awaitCompletion"] validateEC2Params ∅)))))).

Definition IsRegistered (executorType : string) : bool := bool_decide (is_Some (validators !! executorType)).

Definition RegisteredTypes : list string := sort_strings (map_order (map fst (map_to_list validators))).

Definition unknown_warning (executorType : string) (knownFields : list string) (field : string) : string :=
  "unknown parameter " ++ quoted field ++ " for executor type " ++ quoted executorType ++
  " (known parameters: " ++ Join ", " knownFields ++ ")".

(** A text that is not an object is left to the validator. *)
Definition checkUnknownFields (params : string) (knownFields : list string) (executorType : string) : list string :=
  if (params =? "")%string then []
  else match object_of_text params with
       | None => []
       | Some rawMap =>
           map (unknown_warning executorType knownFields)
             (filter (fun field => field ∉ knownFields) (map_order (map fst (map_to_list rawMap))))
       end.

(** [None]: no validator is registered. *)
Definition validate_params (executorType params : string) : option ParamResult :=
  entry ← validators !! executorType;
  let result :=
    (if bool_decide (ve_knownFields entry = []) || (params =? "")%string then no_result
     else mkParamResult [] (checkUnknownFields params (ve_knownFields entry) executorType)) in
  Some (Merge result (ve_validator entry params)).

(** What the webhook and the dispatch of the targets call. *)
#[export] Instance params_validator : Validator := {|
  ValidateParams executorType params :=
    match validate_params executorType params with None => [] | Some r => pr_Errors r end;
|}.

(** ** When there are no errors *)

Lemma add_if_nil b msg r : pr_Errors (add_if b msg r) = [] <-> b = false /\ pr_Errors r = [].
Proof. destruct b; [|naive_solver]. cbn. split; [by intros [_ ?]%app_nil|by intros [? _] ]. Qed.

Lemma check_await_nil a r :
  pr_Errors (check_await a r) = [] <->
  pr_Errors r = [] /\ (await_Enabled a = true -> validateWaitTimeout (await_Timeout a) = true).
Proof.
  unfold check_await. destruct (await_Enabled a); [|naive_solver]. destruct (await_Timeout a =? "")%string eqn:E; cbn.
  - unfold validateWaitTimeout. rewrite E. naive_solver.
  - rewrite add_if_nil, negb_false_iff. naive_solver.
Qed.

Lemma check_tag_selector_nil s r :
  pr_Errors (check_tag_selector s r) = [] <->
  pr_Errors r = [] /\ ValidateTagSelector s (Child "selector" "tagSelector") = [].
Proof.
  unfold check_tag_selector. generalize (ValidateTagSelector s (Child "selector" "tagSelector")). intros l.
  revert r. induction l as [|e l IH]; intros r; [naive_solver|]. cbn. rewrite IH. cbn.
  split; [by intros [[_ ?]%app_nil _]|by intros [_ ?] ].
Qed.

Lemma with_params_nil {P} (parse : string -> option P) empty f params :
  pr_Errors (with_params parse empty f params) = [] <->
  if (params =? "")%string then pr_Errors empty = []
  else exists p, parse params = Some p /\ pr_Errors (f p no_result) = [].
Proof.
  unfold with_params. destruct (params =? "")%string; [done|]. destruct (parse params) as [p|]; [naive_solver|].
  cbn. split; [done|by intros (p & ? & _)].
Qed.

Lemma validate_params_errors executorType entry params :
  validators !! executorType = Some entry ->
  ValidateParams executorType params = pr_Errors (ve_validator entry params).
Proof.
  intros He. cbn. unfold validate_params. rewrite He. cbn. by destruct (_ || _).
Qed.
End validators.
