(* ===== verification/ExecutorSamples.v ===== *)
(** * Instances for the samples of the executors

    A codec that obeys the laws of [JSONText], an order of map iteration, and a
    service that answers from a list of outcomes: each request takes the next
    entry, which may be an error; when the list is empty every request is
    answered. *)
From S2P Require Import Prelude Monad GoString Types Cluster Restore RestoreSpec Executor AwsUtil Operation.
From stdpp Require Import countable.
From Stdlib Require Import Lia.

Local Open Scope Z_scope.

(** ** The codec *)

Fixpoint strip_quote (s : string) : option string :=
  match s with
  | EmptyString => None
  | String c EmptyString => if Ascii.eqb c "034" then Some EmptyString else None
  | String c s' => String c <$> strip_quote s'
  end.

Definition dquote : string := String "034" EmptyString.

#[export] Instance sampleText : JSONText := {|
  object_text m := bits (encode m);
  object_of_text s := decode (unbits s);
  quote s := (dquote ++ s ++ dquote)%string;
  unquote s := match s with String c s' => if Ascii.eqb c "034" then strip_quote s' else None | _ => None end;
  generic_object s := if (s =? "")%string then None else Some s;
  json_canonical _ := True;
|}.

Lemma strip_quote_append s : strip_quote (s ++ dquote) = Some s.
Proof.
  induction s as [|c s IH]; [done|]. change (String c s ++ dquote)%string with (String c (s ++ dquote)).
  destruct (s ++ dquote)%string as [|c' t] eqn:E; [by destruct s|].
  change (strip_quote (String c (String c' t))) with (String c <$> strip_quote (String c' t)). by rewrite IH.
Qed.

#[export] Instance sampleText_laws : JSONTextLaws.
Proof.
  split.
  - intros m _. cbn. by rewrite unbits_bits, decode_encode.
  - intros s _. cbn -[dquote]. apply strip_quote_append.
  - done.
  - done.
  - done.
  - done.
Qed.

#[export] Instance key_order : MapOrder := {| map_order l := l; map_order_perm l := Permutation_refl l |}.

(** The SDK takes the region that it is given. *)
#[export] Instance default_loader : AWSLoader := {| LoadDefaultConfig o := opt_Region o |}.

(** ** Faults *)

Section faulty.
Context {Q : Type -> Type} {E W : Type}.

Record Faulty := mkFaulty {
  fy_world : W;
  fy_faults : list (option E);
}.

Context (answer : forall {B}, Q B -> W -> (E + B) * W).

Definition serve_faulty {B} (q : Q B) (w : Faulty) : (E + B) * Faulty :=
  match fy_faults w with
  | Some e :: l => (inl e, mkFaulty (fy_world w) l)
  | l => let '(r, w') := answer _ q (fy_world w) in (r, mkFaulty w' (tail l))
  end.

(** A request that is not answered has changed nothing. *)
Lemma serve_faulty_cases {B} (q : Q B) w :
  (exists e, (serve_faulty q w).1 = inl e /\ fy_world (serve_faulty q w).2 = fy_world w) \/
  (serve_faulty q w).1 = (answer _ q (fy_world w)).1 /\ fy_world (serve_faulty q w).2 = (answer _ q (fy_world w)).2.
Proof.
  unfold serve_faulty. destruct (fy_faults w) as [|[e|] l]; [right|left; by exists e|right];
    by destruct (answer _ q (fy_world w)).
Qed.

Lemma serve_faulty_healthy {B} (q : Q B) w : fy_faults w = [] ->
  (serve_faulty q w).1 = (answer _ q (fy_world w)).1 /\ fy_world (serve_faulty q w).2 = (answer _ q (fy_world w)).2 /\
  fy_faults (serve_faulty q w).2 = [].
Proof. unfold serve_faulty. intros ->. by destruct (answer _ q (fy_world w)). Qed.
End faulty.
Arguments Faulty E W : clear implicits.
Arguments mkFaulty {E W} _ _.
Arguments fy_world {E W} _.
Arguments fy_faults {E W} _.

Lemma split_run {A B C} (x : A * B * C) b : x.1.2 = b -> x = (x.1.1, b, x.2).
Proof. intros <-. by destruct x as [[? ?] ?]. Qed.

