(* ===== verification/WorkloadScaler.v ===== *)
(** * The workload scaler ([internal/executor/workloadscaler])

    Scales the workloads of some namespaces to zero through the scale subresource,
    reports what it found, and restores the reported replica counts.  The cluster
    behind the client is the class [ScaleClient]; objects of the dynamic client
    are modelled by the fields that the code reads and writes. *)
From S2P Require Import Prelude Monad GoString GoTime Types Cluster Restore Params Executor Operation.
From Stdlib Require Import Lia.

Local Open Scope Z_scope.

(** ** The cluster *)

Record GroupVersionResource := mkGVR {
  gvr_Group : string;
  gvr_Version : string;
  gvr_Resource : string;
}.
#[export] Instance GroupVersionResource_eq_dec : EqDecision GroupVersionResource.
Proof. solve_decision. Defined.

(** A listed workload: [GetName], [GetNamespace] and [GetKind]. *)
Record Item := mkItem {
  item_Name : string;
  item_Namespace : string;
  item_Kind : string;
}.

(** What [unstructured.NestedInt64] finds at a path of two names: nothing, an
    integer, a value of another type, or no object at the first name. *)
Inductive nested :=
| NestedMissing
| NestedFound (n : Z)
| NestedNotInt
| NestedNotMap.

Definition NestedInt64 (v : nested) : option (Z * bool) :=
  match v with
  | NestedMissing => Some (0, false)
  | NestedFound n => Some (n, true)
  | _ => None
  end.

(** [unstructured.SetNestedField] with an integer. *)
Definition SetNestedField (n : Z) (v : nested) : option nested :=
  match v with NestedNotMap => None | _ => Some (NestedFound n) end.

(** A scale subresource: [spec.replicas] and [status.replicas]. *)
Record Scale := mkScale {
  scale_Name : string;
  scale_spec : nested;
  scale_status : nested;
}.

Inductive ScaleRequest : Type -> Type :=
| ListNamespaces (selector : string) : ScaleRequest (list string)
| ListWorkloads (gvr : GroupVersionResource) (namespace selector : string) : ScaleRequest (list Item)
| GetScale (gvr : GroupVersionResource) (namespace name : string) : ScaleRequest Scale
| UpdateScale (gvr : GroupVersionResource) (namespace : string) (scale : Scale) : ScaleRequest Scale.

(** [Client] and [ClientFactory], and the texts of selectors: [labels.Selector]'s
    [String] for a map, and for a selector with requirements, which may be
    invalid. *)
Class ScaleClient := {
  #[global] scale_service :: Service ScaleRequest ApiError;
  clientFactory : Spec -> bool;
  SelectorFromSet : gmap string string -> string;
  selector_text : LabelSelector -> option string;
}.

Notation Target := (World ScaleRequest).
Notation serve_scale := (serve (Q:=ScaleRequest)).

Inductive ScalerError :=
| ErrK8SRequired
| ErrParseParameters
| ErrNamespaceRequired
| ErrNamespaceExclusive
| ErrBuildClients
| ErrListNamespaces (e : ApiError)
| ErrNoNamespaces
| ErrResolveGVR (kind : string)
| ErrInvalidSelector
| ErrListResources (e : ApiError)
| ErrGetReplicas
| ErrSetReplicas
| ErrGetScale (e : ApiError)
| ErrUpdateScale (e : ApiError)
| ErrUnmarshalState (key : string)
| ErrCreateWaiter
| ErrStatusReplicas.

(** ** Data *)

Record WorkloadState := mkWorkloadState {
  ws_Group : string;
  ws_Version : string;
  ws_Resource : string;
  ws_Kind : string;
  ws_Namespace : string;
  ws_Name : string;
  ws_Replicas : Z;
  ws_WasScaled : bool;
}.

Definition GetGVR (s : WorkloadState) : GroupVersionResource :=
  mkGVR (ws_Group s) (ws_Version s) (ws_Resource s).

(** The members of its JSON object, by the tags of the struct. *)
Section json.
Context {HT : JSONText}.

Definition workload_fields (s : WorkloadState) : gmap string scalar :=
  {[ "group" := SOther (quote (ws_Group s));
     "version" := SOther (quote (ws_Version s));
     "resource" := SOther (quote (ws_Resource s));
     "kind" := SOther (quote (ws_Kind s));
     "namespace" := SOther (quote (ws_Namespace s));
     "name" := SOther (quote (ws_Name s));
     "replicas" := SOther (sprint_d (ws_Replicas s));
     "wasScaled" := SBool (ws_WasScaled s) ]}.

(** [json.Unmarshal] into a [WorkloadState]; the names of the members are the
    ones that the program has written. *)
Definition parse_workload (text : string) : option WorkloadState :=
  m ← object_of_text text;
  g ← string_member m "group";
  v ← string_member m "version";
  r ← string_member m "resource";
  k ← string_member m "kind";
  ns ← string_member m "namespace";
  n ← string_member m "name";
  i ← int32_member m "replicas";
  b ← bool_field m "wasScaled";
  Some (mkWorkloadState g v r k ns n i b).
End json.

Definition formatShutdownMessage (stats : operationStats) (namespaceCount : Z) : string :=
  appendCountSegment
    ("scaled " ++ sprint_d (st_applied stats) ++ " workload(s) to zero across "
       ++ sprint_d namespaceCount ++ " namespace(s)")
    "skipped" (st_skippedStale stats) "stale workload".

Definition formatWakeUpMessage (stats : operationStats) : string :=
  appendCountSegment ("restored " ++ sprint_d (st_applied stats) ++ " workload(s)")
    "skipped" (st_skippedStale stats) "stale workload".

(** ** Resources *)

Definition parseCRDFormat (spec : string) : option GroupVersionResource :=
  match Split "/" spec with
  | [group; version; resource] =>
      if (group =? "")%string || (version =? "")%string || (resource =? "")%string then None
      else Some (mkGVR group version resource)
  | _ => None
  end.

Definition gvrMap (kind : string) : option GroupVersionResource :=
  if (kind =? "Deployment")%string then Some (mkGVR "apps" "v1" "deployments")
  else if (kind =? "StatefulSet")%string then Some (mkGVR "apps" "v1" "statefulsets")
  else if (kind =? "ReplicaSet")%string then Some (mkGVR "apps" "v1" "replicasets")
  else None.

Definition resolveGVR (kind : string) : option GroupVersionResource :=
  match gvrMap kind with
  | Some gvr => Some gvr
  | None => parseCRDFormat kind
  end.

(** ** Operations

    A run changes the cluster and keeps a list of workloads to wait for. *)

Section operations.
Context {HS : ScaleClient} {HT : JSONText} {HP : ParamsJSON} {HO : MapOrder}.
(** What the wait for a workload observes; see [Operation]. *)
Context (observe : WorkloadState -> Target * list (poll_event Target)).
Context {A : Type}.

Definition M (B : Type) : Type := ST (Run Target WorkloadState A) ScalerError B.

Definition parse_params (spec : Spec) : M WorkloadScalerParameters :=
  match decode_params zero_ScalerParameters parse_scaler_params (es_Parameters spec) with
  | Some params => st_ret params
  | None => st_throw ErrParseParameters
  end.

Definition build_clients (spec : Spec) : M unit :=
  if clientFactory spec then st_ret tt else st_throw ErrBuildClients.

Definition discoverNamespaces (sel : NamespaceSelector) : M (list string) :=
  if bool_decide (nss_Literals sel <> []) then st_ret (nss_Literals sel)
  else if bool_decide (nss_Selector sel <> ∅)
  then st_wrap ErrListNamespaces (request (ListNamespaces (SelectorFromSet (nss_Selector sel))))
  else st_throw ErrNamespaceRequired.

(** The text of [metav1.LabelSelectorAsSelector]: no selector selects nothing and
    an empty one everything, and both have the empty text, which lists
    everything. *)
Definition LabelSelectorAsSelector (sel : option LabelSelector) : option string :=
  match sel with
  | None => Some ""
  | Some s =>
      if bool_decide (ls_MatchLabels s = ∅) && bool_decide (ls_MatchExpressions s = []) then Some ""
      else selector_text s
  end.

Definition workload_key (namespace kind name : string) : string :=
  (namespace ++ "/" ++ kind ++ "/" ++ name)%string.

Definition item_key (item : Item) : string :=
  workload_key (item_Namespace item) (item_Kind item) (item_Name item).

Definition item_state (gvr : GroupVersionResource) (item : Item) (replicas : Z) (found : bool) : WorkloadState :=
  mkWorkloadState (gvr_Group gvr) (gvr_Version gvr) (gvr_Resource gvr) (item_Kind item)
    (item_Namespace item) (item_Name item) (int32 replicas) found.

(** What the callback gets. *)
Definition state_report (state : WorkloadState) : reported := ReportStruct (object_text (workload_fields state)).

(** ** Shutdown *)

(** One iteration of the loop of [scaleDownWorkloads]. *)
Definition scale_down_item (callback : option (ReportStateCallback A)) (params : WorkloadScalerParameters)
  (gvr : GroupVersionResource) (namespace : string) (item : Item) (stats0 : operationStats) : M operationStats :=
  let stats := inc_processed stats0 in
  let! got := st_try (request (GetScale gvr namespace (item_Name item))) in
  match got with
  | inl NotFound => st_ret (inc_skipped stats)
  | inl _ => st_ret stats
  | inr scale =>
      match NestedInt64 (scale_spec scale) with
      | None => st_throw ErrGetReplicas
      | Some (replicas, found) =>
          let state := item_state gvr item replicas found in
          if found then
            match SetNestedField 0 (scale_spec scale) with
            | None => st_throw ErrSetReplicas
            | Some spec =>
                let! updated := st_try (request (UpdateScale gvr namespace
                                  (mkScale (scale_Name scale) spec (scale_status scale)))) in
                match updated with
                | inl NotFound => st_ret (inc_skipped stats)
                | inl e => st_throw (ErrUpdateScale e)
                | inr _ =>
                    do! wait_for (wsp_AwaitCompletion params) state in
                    do! report callback (item_key item) (state_report state) in
                    st_ret (inc_applied stats)
                end
            end
          else
            do! report callback (item_key item) (state_report state) in
            st_ret stats
      end
  end.

Fixpoint scale_down_items callback params gvr namespace (items : list Item) (stats : operationStats) : M operationStats :=
  match items with
  | [] => st_ret stats
  | item :: items' =>
      let! stats' := scale_down_item callback params gvr namespace item stats in
      scale_down_items callback params gvr namespace items' stats'
  end.

Definition scaleDownWorkloads (callback : option (ReportStateCallback A)) (params : WorkloadScalerParameters)
  (gvr : GroupVersionResource) (namespace : string) : M operationStats :=
  match LabelSelectorAsSelector (wsp_WorkloadSelector params) with
  | None => st_throw ErrInvalidSelector
  | Some selector =>
      let! listed := st_try (request (ListWorkloads gvr namespace selector)) in
      match listed with
      | inl NotFound => st_ret no_stats
      | inl e => st_throw (ErrListResources e)
      | inr items => scale_down_items callback params gvr namespace items no_stats
      end
  end.

(** The loops over the kinds and the namespaces. *)
Fixpoint scale_down_kinds callback params namespace (kinds : list string) (stats : operationStats) : M operationStats :=
  match kinds with
  | [] => st_ret stats
  | kind :: kinds' =>
      match resolveGVR kind with
      | None => st_throw (ErrResolveGVR kind)
      | Some gvr =>
          let! counts := scaleDownWorkloads callback params gvr namespace in
          scale_down_kinds callback params namespace kinds' (add_stats stats counts)
      end
  end.

Fixpoint scale_down_namespaces callback params kinds (namespaces : list string) (stats : operationStats) : M operationStats :=
  match namespaces with
  | [] => st_ret stats
  | namespace :: namespaces' =>
      let! stats' := scale_down_kinds callback params namespace kinds stats in
      scale_down_namespaces callback params kinds namespaces' stats'
  end.

Definition included_groups (params : WorkloadScalerParameters) : list string :=
  match wsp_IncludedGroups params with [] => ["Deployment"] | groups => groups end.

(** ** Waiting *)

Definition DefaultWaitTimeout : string := "5m".

(** [checkFn] of [waitForReplicasScaled], in a state of the cluster. *)
Definition replicas_scaled (gvr : GroupVersionResource) (namespace name : string) (desired : Z)
  (c : Target) : res ScalerError bool :=
  match (serve_scale (GetScale gvr namespace name) c).1 with
  | inl e => Err (ErrGetScale e)
  | inr scale =>
      match NestedInt64 (scale_status scale) with
      | None => Err ErrStatusReplicas
      | Some (n, found) => Ok (found && (n =? desired))
      end
  end.

Definition waitForReplicasScaled (desired : WorkloadState -> Z) (timeout : string) (state : WorkloadState) : res unit unit :=
  wait_until (replicas_scaled (GetGVR state) (ws_Namespace state) (ws_Name state) (desired state)) (observe state) timeout.

Definition scaler_Shutdown (spec : Spec) (callback : option (ReportStateCallback A)) : M Result :=
  do! st_modify (set_run_waiting []) in
  let! params := parse_params spec in
  do! build_clients spec in
  let! targetNamespaces := discoverNamespaces (wsp_Namespace params) in
  if bool_decide (targetNamespaces = []) then st_throw ErrNoNamespaces
  else
    let! stats := scale_down_namespaces callback params (included_groups params) targetNamespaces no_stats in
    let! msg := await_message (wsp_AwaitCompletion params) DefaultWaitTimeout
                  (waitForReplicasScaled (fun _ => 0)) " workload(s) not yet at zero replicas after "
                  "; all workloads confirmed at zero replicas"
                  (formatShutdownMessage stats (Z.of_nat (length targetNamespaces))) in
    st_ret (mkResult msg 0).

(** ** Wakeup *)

Definition restoreWorkload (params : WorkloadScalerParameters) (state : WorkloadState) : M operationOutcome :=
  let gvr := GetGVR state in
  let! got := st_try (request (GetScale gvr (ws_Namespace state) (ws_Name state))) in
  match got with
  | inl NotFound => st_ret operationOutcomeSkippedStale
  | inl e => st_throw (ErrGetScale e)
  | inr scale =>
      match SetNestedField (ws_Replicas state) (scale_spec scale) with
      | None => st_throw ErrSetReplicas
      | Some spec =>
          let! updated := st_try (request (UpdateScale gvr (ws_Namespace state)
                            (mkScale (scale_Name scale) spec (scale_status scale)))) in
          match updated with
          | inl NotFound => st_ret operationOutcomeSkippedStale
          | inl e => st_throw (ErrUpdateScale e)
          | inr _ => do! wait_for (wsp_AwaitCompletion params) state in st_ret operationOutcomeApplied
          end
      end
  end.

(** One iteration of the loop of [WakeUp]. *)
Definition wake_item (params : WorkloadScalerParameters) (key text : string) (stats : operationStats) : M operationStats :=
  match parse_workload text with
  | None => st_throw (ErrUnmarshalState key)
  | Some state =>
      if ws_WasScaled state then
        let! outcome := restoreWorkload params state in
        st_ret (count_outcome outcome stats)
      else st_ret (inc_skipped stats)
  end.

Definition scaler_WakeUp (spec : Spec) (restore : RestoreData) : M Result :=
  do! st_modify (set_run_waiting []) in
  if bool_decide (rd_Data restore = ∅)
  then st_ret (mkResult "wakeup completed for workloadscaler (no restore data)" 0)
  else
    let! params := parse_params spec in
    do! build_clients spec in
    let! stats := wake_entries (wake_item params) (rd_Data restore) (restore_order (rd_Data restore))
                    (mkStats (Z.of_nat (size (rd_Data restore))) 0 0) in
    let! msg := await_message (wsp_AwaitCompletion params) DefaultWaitTimeout
                  (waitForReplicasScaled ws_Replicas) " workload(s) not yet at desired replicas after "
                  "; all workloads confirmed at desired replicas" (formatWakeUpMessage stats) in
    st_ret (mkResult msg 0).
End operations.

(** ** The executor *)

Definition scaler_Validate `{HP : ParamsJSON} (spec : Spec) : res ScalerError unit :=
  match cc_K8S (es_ConnectorConfig spec) with
  | None => Err ErrK8SRequired
  | Some _ =>
      let* params := (match decode_params zero_ScalerParameters parse_scaler_params (es_Parameters spec) with
                      | Some params => Ok params
                      | None => Err ErrParseParameters
                      end) in
      let literals := bool_decide (nss_Literals (wsp_Namespace params) <> []) in
      let selector := bool_decide (nss_Selector (wsp_Namespace params) <> ∅) in
      if negb literals && negb selector then Err ErrNamespaceRequired
      else if literals && selector then Err ErrNamespaceExclusive
      else Ok tt
  end.

Definition ScalerExecutorType : string := "workloadscaler".

Definition workloadscaler `{HS : ScaleClient} `{HT : JSONText} `{HP : ParamsJSON}
  `{HO : MapOrder} (observe : WorkloadState -> Target * list (poll_event Target)) : Executor Target := {|
  ExecutorError := ScalerError;
  executor_Type := ScalerExecutorType;
  Validate := scaler_Validate;
  Shutdown A spec callback := fun s =>
    let '(r, s') := scaler_Shutdown observe spec callback (mkRun s.1 [] s.2) in
    (r, (run_target s', run_acc s'));
  WakeUp spec restore := fun c =>
    let '(r, s') := scaler_WakeUp observe spec restore (mkRun c [] tt) in (r, run_target s');
|}.
