(* ===== verification/Runner.v ===== *)
(** * The runner ([cmd/runner/app/runner.go], [cmd/runner/state])

    The process of a runner Job: it builds the specification of its target, runs
    one operation of the executor, collects what the executor reports and stores
    it in the restore data, or loads the restore data and hands them to the
    executor.  The progress reports to the controller are left out. *)
From S2P Require Import Prelude Monad GoString GoTime Types Cluster Restore Executor.
From Stdlib Require Import Lia.

Local Open Scope Z_scope.

(** ** Configuration ([app.go]) *)

Record Config := mkConfig {
  cfg_Operation : string;
  cfg_Target : string;
  cfg_TargetType : string;
  cfg_Plan : string;
  cfg_Namespace : string;
  cfg_CycleID : string;
  cfg_TargetParams : string;
  cfg_ConnectorKind : string;
  cfg_ConnectorName : string;
  cfg_ConnectorNamespace : string;
}.

(** ** The accumulator ([accumulator.go]) *)

Record Accumulator := mkAccumulator {
  acc_state : gmap string any;
  acc_reportedAt : gmap string time;
  acc_reports : nat;
}.

Definition NewAccumulator : Accumulator := mkAccumulator ∅ ∅ 0.

Definition maxStaleCount : Z := 3.

Section accumulator.
Context {HT : JSONText}.
(** The time at which the n-th report is received. *)
Context (clock : nat -> time).

Definition normalizeStateValue (value : reported) : option (gmap string scalar) :=
  match value with
  | ReportMap m => Some m
  | ReportStruct text => object_of_text text
  end.

(** The value as it is kept: a map, or the value itself when it is not an
    object. *)
Definition accumulated (value : reported) : any :=
  match normalizeStateValue value with
  | Some m => AnyMap m
  | None => match value with ReportMap m => AnyMap m | ReportStruct text => AnyOther text end
  end.

Definition acc_add : ReportStateCallback Accumulator := fun key value =>
  st_modify (fun a =>
    mkAccumulator (<[key := accumulated value]> (acc_state a))
      (<[key := clock (acc_reports a)]> (acc_reportedAt a)) (S (acc_reports a))).
End accumulator.

Section flush.
Context {HK : KubeApi} {HJ : JSON}.

Definition flush_data (cfg : Config) (a : Accumulator) (now : time) : Data :=
  mkData (cfg_Target cfg) (cfg_TargetType cfg) 1 true "" now None (acc_state a)
    ((fun at_time => mkResourceStatus 0 (Some at_time)) <$> acc_reportedAt a).

(** [now] and [saved] are the times of [flush] and of [SaveState]. *)
Definition flush (cfg : Config) (a : Accumulator) (now saved : time) : ST Cluster RestoreError unit :=
  SaveState (cfg_Namespace cfg) (cfg_Plan cfg) (cfg_Target cfg) (flush_data cfg a now)
    maxStaleCount (cfg_CycleID cfg) saved.
End flush.

(** ** The loader ([loader.go]) *)

Inductive LoadError :=
| ErrLoadConfigMap (e : RestoreError)
| ErrNoRestoreData.

(** The keys that are not stale. *)
Definition eligible (data : Data) : gmap string any :=
  filter (fun kv => StaleCount (status_of (data_Status data) kv.1) <= 0) (data_State data).

Definition LoadRestoreData `{KubeApi} `{JSON} `{JSONText} (ns plan target : string) : ST Cluster LoadError RestoreData :=
  let! data := st_wrap ErrLoadConfigMap (Load ns plan target) in
  match data with
  | None => st_throw ErrNoRestoreData
  | Some data =>
      st_ret (mkRestoreData (data_Executor data) (any_text <$> eligible data) (data_IsLive data))
  end.

(** ** The operation ([runner.go]) *)

(** [encoding/json] on the parameters of the target: through a map and back; and
    the connectors, which read the cluster. *)
Class RunnerEnv `{KubeApi} := {
  normalize_params : string -> option string;
  BuildConnectorConfig : string -> string -> string -> Cluster -> res unit ConnectorConfig;
}.

Inductive RunnerError (E : Type) :=
| ErrNoExecutor
| ErrParseParams
| ErrBuildSpec
| ErrValidateSpec (e : E)
| ErrOperation (e : E)
| ErrLoadData (e : LoadError)
| ErrUnknownOperation.
Arguments ErrNoExecutor {E}.
Arguments ErrParseParams {E}.
Arguments ErrBuildSpec {E}.
Arguments ErrValidateSpec {E} e.
Arguments ErrOperation {E} e.
Arguments ErrLoadData {E} e.
Arguments ErrUnknownOperation {E}.

Section runner.
Context {HK : KubeApi} {HJ : JSON} {HT : JSONText} {HR : RunnerEnv}.
Context {T : Type} (exec : Executor T).

(** The cluster of the controller, and the world of the executor. *)
Record RunnerState := mkRunnerState {
  rs_hub : Cluster;
  rs_target : T;
}.
Definition set_rs_hub (c : Cluster) (s : RunnerState) : RunnerState := mkRunnerState c (rs_target s).
Definition set_rs_target (t : T) (s : RunnerState) : RunnerState := mkRunnerState (rs_hub s) t.

Definition RM (B : Type) : Type := ST RunnerState (RunnerError (ExecutorError exec)) B.

(** What the environment provides during a run: the clock of the reports, the
    times of the flush, and the duration of the operation. *)
Record RunClock := mkRunClock {
  rc_reports : nat -> time;
  rc_flush : time;
  rc_save : time;
  rc_elapsed : Z;
}.

Definition Milliseconds (d : Z) : Z := Z.quot d 1000000.

Definition with_elapsed (clk : RunClock) (r : Result) : Result :=
  mkResult (result_Message r) (Milliseconds (rc_elapsed clk)).

(** The shutdown and the flush after it: what the executor returns, what the
    flush returns when it runs, and the state after both. *)
Definition shutdown_run (cfg : Config) (clk : RunClock) (spec : Spec) (s : RunnerState) :
  res (ExecutorError exec) Result * option (res RestoreError unit) * RunnerState :=
  match Shutdown exec spec (Some (acc_add (rc_reports clk))) (rs_target s, NewAccumulator) with
  | (NoReturn, (t, _)) => (NoReturn, None, set_rs_target t s)
  | (r, (t, acc)) =>
      let '(flushed, hub) := flush cfg acc (rc_flush clk) (rc_save clk) (rs_hub s) in
      (r, Some flushed, mkRunnerState hub t)
  end.

(** The deferred flush sets [operationErr] when the return values have been
    evaluated: its error is logged and nothing else. *)
Definition executeOperation (cfg : Config) (clk : RunClock) (spec : Spec) : RM Result :=
  if (cfg_Operation cfg =? "shutdown")%string then
    fun s =>
      let '(r, _, s') := shutdown_run cfg clk spec s in
      (let* result := res_map_err ErrOperation r in Ok (with_elapsed clk result), s')
  else if (cfg_Operation cfg =? "wakeup")%string then
    let! rd := st_wrap ErrLoadData
                 (st_lift rs_hub set_rs_hub (LoadRestoreData (cfg_Namespace cfg) (cfg_Plan cfg) (cfg_Target cfg))) in
    let! result := st_wrap ErrOperation (st_lift rs_target set_rs_target (WakeUp exec spec rd)) in
    st_ret (with_elapsed clk result)
  else st_throw ErrUnknownOperation.

(** The parameters as the executor gets them; without parameters the encoding of
    a nil map. *)
Definition runner_params (cfg : Config) : option string :=
  if (cfg_TargetParams cfg =? "")%string then Some "null" else normalize_params (cfg_TargetParams cfg).

Definition buildExecutorSpec (cfg : Config) (params : string) : RM Spec :=
  let spec cc := mkSpec (cfg_Target cfg) (cfg_TargetType cfg) params cc in
  if (cfg_ConnectorKind cfg =? "CloudProvider")%string || (cfg_ConnectorKind cfg =? "K8SCluster")%string then
    let! hub := st_gets rs_hub in
    match BuildConnectorConfig (cfg_ConnectorKind cfg) (cfg_ConnectorNamespace cfg) (cfg_ConnectorName cfg) hub with
    | Ok cc => st_ret (spec cc)
    | Err _ => st_throw ErrBuildSpec
    | Panic => st_panic
    | NoReturn => fun s => (NoReturn, s)
    end
  else st_ret (spec (mkConnectorConfig None None)).

(** The rest of [run] once the executor is found. *)
Definition run_with (cfg : Config) (clk : RunClock) : RM Result :=
  match runner_params cfg with
  | None => st_throw ErrParseParams
  | Some params =>
      let! spec := buildExecutorSpec cfg params in
      do! st_wrap ErrValidateSpec (fun s => (Validate exec spec, s)) in
      let! result := executeOperation cfg clk spec in
      do! (if (cfg_Operation cfg =? "wakeup")%string then
             let! _ := st_try (st_lift rs_hub set_rs_hub
                         (MarkTargetRestored (cfg_Namespace cfg) (cfg_Plan cfg) (cfg_Target cfg))) in
             st_ret tt
           else st_ret tt) in
      st_ret result
  end.
End runner.
Arguments mkRunnerState {HK T} _ _.
Arguments rs_hub {HK T} _.
Arguments rs_target {HK T} _.

(** [run] with the registry: the error does not depend on the executor. *)
Definition run_registry `{HK : KubeApi} `{HJ : JSON} `{HT : JSONText} `{HR : !RunnerEnv} {T}
  (r : Registry T) (cfg : Config) (clk : RunClock) (s : RunnerState) : res unit Result * RunnerState :=
  match registry_Get r (cfg_TargetType cfg) with
  | None => (Err tt, s)
  | Some exec =>
      let '(o, s') := run_with exec cfg clk s in (res_map_err (fun _ => tt) o, s')
  end.

(** ** The outcome ([Run] and [writeTerminationLog] in [app.go])

    The log is written by a deferred function, which a panic also runs: result and
    error are then still nil. *)
Definition termination_message {E} (error_text : E -> string) (r : res E Result) : option string :=
  match r with
  | Err e => Some (error_text e)
  | Ok result =>
      Some (if (result_Message result =? "")%string then "execution completed successfully"
            else result_Message result)
  | Panic => Some "execution completed successfully"
  | NoReturn => None
  end.

(** ** The executors of a process ([factory.go]) *)

(** [newExecutorFactoryRegistry]: the types that are known, and whether each is
    enabled by default. *)
Definition executorRegistrations : gmap string bool :=
  {[ "eks" := true; "rds" := true; "ec2" := true; "karpenter" := true; "gke" := false;
     "cloudsql" := false; "workloadscaler" := true; "noop" := true ]}.

Definition is_space (c : ascii) : bool :=
  existsb (Ascii.eqb c) [" "; "009"; "010"; "011"; "012"; "013"]%char.

Fixpoint trim_left (s : string) : string :=
  match s with
  | String c s' => if is_space c then trim_left s' else s
  | EmptyString => EmptyString
  end.

Fixpoint trim_right (s : string) : string :=
  match s with
  | EmptyString => EmptyString
  | String c s' =>
      match trim_right s' with
      | EmptyString => if is_space c then EmptyString else String c EmptyString
      | t => String c t
      end
  end.

(** [strings.TrimSpace] on ASCII. *)
Definition TrimSpace (s : string) : string := trim_right (trim_left s).

(** [env] is the value of [HIBERNATOR_ACTIVE_EXECUTORS]. *)
Definition resolveEnabledExecutors (env : string) : gmap string bool :=
  if (env =? "")%string then executorRegistrations
  else
    fold_left (fun enabled name =>
        match executorRegistrations !! TrimSpace name with
        | Some _ => <[TrimSpace name := true]> enabled
        | None => enabled
        end)
      (Split "," env) ((fun _ => false) <$> executorRegistrations).

(** [registerTo], with the executors that the factories make. *)
Definition registerTo {T} (factories : gmap string (Executor T)) (env : string) (r : Registry T) : Registry T :=
  map_fold (fun _ e r => Register e r) r
    (filter (fun kv => resolveEnabledExecutors env !! kv.1 = Some true) factories).
