(* ===== verification/Cycle.v ===== *)
(** * The cycle of a target, whatever its executor

    A cycle: shutdown runs, possibly several and cut short by failing requests, and
    wakeup runs, with the restore data between them.  [Hibernation] says what the
    resources of an executor are and what it reports of them; [HibernationLaws] is
    the contract between the runner and an executor: what a shutdown has changed
    is in its reports, and a wakeup changes nothing but what it was given.  From
    the contract it follows that the invariant of the cycle is kept by the runner
    and the restore manager, and that a wakeup in a healthy world brings every
    resource back. *)
From S2P Require Import Prelude Monad GoString GoTime Types Cluster Restore RestoreSpec Params Executor Operation.
From S2P Require Import Runner.
From Stdlib Require Import Lia.

Local Open Scope Z_scope.

(** ** One key of the restore data across a save *)

Section keys.
Context (existing : option Data) (data : Data) (cycleID : string) (maxStale : Z) (now : time).

(** The key was reported in this cycle before. *)
Definition reported_before (ex : Data) (k : string) : Prop :=
  existing = Some ex /\ data_CycleID ex = cycleID /\ is_Some (LastReportedAt (status_of (data_Status ex) k)).

Definition demanded (v : any) : bool :=
  match v with AnyMap m => isDemandedState m | AnyOther _ => false end.

Inductive key_outcome (d : Data) (k : string) : Prop :=
| KeyNew v :
    data_State data !! k = Some v -> (forall ex, reported_before ex k -> demanded v = true) ->
    data_State d !! k = Some v -> StaleCount (status_of (data_Status d) k) = 0 ->
    is_Some (LastReportedAt (status_of (data_Status d) k)) -> key_outcome d k
| KeyKept ex :
    reported_before ex k -> (forall v, data_State data !! k = Some v -> demanded v = false) ->
    data_State d !! k = data_State ex !! k ->
    status_of (data_Status d) k = status_of (data_Status ex) k -> key_outcome d k
| KeyStale ex v :
    data_State data !! k = None -> existing = Some ex -> ~ reported_before ex k ->
    data_State ex !! k = Some v -> data_State d !! k = Some v ->
    StaleCount (status_of (data_Status d) k) = StaleCount (status_of (data_Status ex) k) + 1 ->
    LastReportedAt (status_of (data_Status d) k) = None -> key_outcome d k
| KeyUnchanged ex :
    data_State data !! k = None -> existing = Some ex -> data_CycleID ex = cycleID ->
    ~ reported_before ex k -> data_State d !! k = data_State ex !! k ->
    status_of (data_Status d) k = status_of (data_Status ex) k -> key_outcome d k
| KeyGone :
    data_State data !! k = None -> (forall ex, reported_before ex k -> data_State ex !! k = None) ->
    data_State d !! k = None -> LastReportedAt (status_of (data_Status d) k) = None -> key_outcome d k.

Lemma mergedStatus_reported ex same k v :
  data_State data !! k = Some v ->
  status_of (mergedStatus ex (stamp data now) same now maxStale) k =
  let ctx := merge_context ex (stamp data now) same now k v in setStatus (selectStrategy ctx) ctx.
Proof.
  intros Hk. unfold status_of, mergedStatus. rewrite lookup_union, lookup_fmap.
  unfold reported_status, handleStaleResources. rewrite !map_lookup_imap. cbn [data_State stamp]. rewrite Hk. simpl.
  rewrite (unreported_None ex (stamp data now) k v Hk). done.
Qed.

(** The statuses that come with the data are those of the reports. *)
Hypothesis Hstatus : forall k,
  match data_State data !! k with
  | Some _ => exists at_time, data_Status data !! k = Some (mkResourceStatus 0 (Some at_time))
  | None => data_Status data !! k = None
  end.

Lemma merged_key ex k :
  existing = Some ex ->
  key_outcome (merged_data (stamp data now) ex cycleID now maxStale) k.
Proof.
  intros Eex. set (d := merged_data (stamp data now) ex cycleID now maxStale). set (same := bool_decide (data_CycleID ex = cycleID)).
  assert (reported_before ex k <-> same = true /\ is_Some (LastReportedAt (status_of (data_Status ex) k))) as Hrb.
  { unfold reported_before, same. rewrite bool_decide_eq_true. naive_solver. }
  assert (reported_before ex k \/ ~ reported_before ex k) as Hdec.
  { rewrite Hrb. destruct same; [|by right; intros [? _] ].
    destruct (LastReportedAt _); [left; by split; [|eexists]|right; by intros [_ [t Ht] ] ]. }
  destruct (data_State data !! k) as [v|] eqn:Ek.
  - assert (data_State d !! k = _) as HS by exact (mergedState_reported ex (stamp data now) same now maxStale k v Ek).
    assert (status_of (data_Status d) k = _) as HT by exact (mergedStatus_reported ex same k v Ek). cbn zeta in HT.
    clearbody d.
    unfold selectStrategy in HS, HT. cbn in HS, HT.
    destruct Hdec as [Hr|Hr].
    + pose proof Hr as Hr0. rewrite Hrb in Hr. destruct Hr as [Hsame [t Ht]]. rewrite Hsame, Ht in HS, HT. cbn in HS, HT.
      destruct (demanded v) eqn:Ed.
      * unfold demanded in Ed. destruct v as [m|text]; [|done]. rewrite Ed in HS, HT. cbn in HS, HT.
        eapply KeyNew; rewrite ?HS, ?HT; done.
      * apply (KeyKept _ _ ex); [done|intros v2 Hv2; congruence| |]; rewrite ?HS, ?HT.
        -- unfold demanded in Ed. destruct v as [m|text]; by rewrite ?Ed.
        -- destruct (status_of (data_Status ex) k) as [n l] eqn:E. cbn in Ht. subst l.
           unfold demanded in Ed. destruct v as [m|text]; rewrite ?Ed; cbn; by rewrite E.
    + assert (negb same = true \/ LastReportedAt (status_of (data_Status ex) k) = None) as Hn.
      { destruct same; [right|by left]. destruct (LastReportedAt _) eqn:E; [|done]. exfalso. apply Hr, Hrb. by eexists. }
      assert (forall ex', reported_before ex' k -> demanded v = true) as Hvac.
      { intros ex' Hr'. pose proof Hr' as (He & _). by assert (ex' = ex) as -> by congruence. }
      destruct Hn as [Hn|Hn]; rewrite Hn in HS, HT; [|destruct (negb same)]; cbn in HS, HT;
        (eapply KeyNew; rewrite ?HS, ?HT; done).
  - assert (data_State d !! k = _ /\ data_Status d !! k = _) as [HS HT]
      by exact (merged_unreported ex (stamp data now) same now maxStale k Ek).
    clearbody d.
    destruct (data_State ex !! k) as [v|] eqn:Ev; cbn in HS, HT.
    2: { apply KeyGone; [done| |done|unfold status_of; by rewrite HT].
         intros ex' (He & _). assert (ex' = ex) as -> by congruence. done. }
    destruct Hdec as [Hr|Hr].
    + pose proof Hr as Hr0. rewrite Hrb in Hr. destruct Hr as [Hsame [t Ht]].
      unfold stale_entry in HS, HT. rewrite Ht, Hsame in HS, HT. cbn in HS, HT.
      apply (KeyKept _ _ ex); [done|congruence| |].
      * by rewrite HS.
      * unfold status_of at 1. by rewrite HT.
    + assert (stale_entry ex same maxStale k v =
        if maxStale <=? StaleCount (status_of (data_Status ex) k) + 1 then None
        else Some (v, mkResourceStatus (StaleCount (status_of (data_Status ex) k) + 1) None)) as Hs.
      { unfold stale_entry. destruct (LastReportedAt _) eqn:E; [|done]. destruct same; [|done].
        exfalso. apply Hr, Hrb. by split; [|eexists]. }
      rewrite Hs in HS, HT. destruct (_ <=? _); cbn in HS, HT.
      * apply KeyGone; [done| |done|unfold status_of; by rewrite HT].
        intros ex' Hr'. pose proof Hr' as (He & _). by assert (ex' = ex) as -> by congruence.
      * eapply (KeyStale _ _ ex v); try done; unfold status_of; by rewrite HT.
Qed.

Lemma after_save_key k : key_outcome (after_save existing data maxStale cycleID now) k.
Proof.
  unfold after_save. destruct existing as [ex|] eqn:Eex.
  - destruct (bool_decide (data_CycleID ex = cycleID) && bool_decide (data_State (stamp data now) = ∅)) eqn:E;
      [|by apply merged_key].
    reflect. rename select (data_State _ = ∅) into He. cbn in He.
    assert (data_State data !! k = None) as Hk by (rewrite He; apply lookup_empty).
    destruct (LastReportedAt (status_of (data_Status ex) k)) as [t|] eqn:Et.
    + apply (KeyKept _ _ ex); [|congruence|done|done]. split_and!; [done|done|by eexists].
    + apply (KeyUnchanged _ _ ex); try done. intros (_ & _ & [t Ht]). congruence.
  - pose proof (Hstatus k) as Hk. destruct (data_State data !! k) as [v|] eqn:Ek.
    + destruct Hk as [t Ht].
      assert (status_of (data_Status (stamp data now)) k = mkResourceStatus 0 (Some t)) as Hs.
      { unfold status_of. cbn. rewrite lookup_union, lookup_fmap, Ht, Ek. done. }
      eapply KeyNew; cbn [data_State data_Status set_data_CycleID]; rewrite ?Hs; try done.
      intros ex (He & _). congruence.
    + assert (status_of (data_Status (stamp data now)) k = mkResourceStatus 0 None) as Hs.
      { unfold status_of. cbn. by rewrite lookup_union, lookup_fmap, Hk, Ek. }
      apply KeyGone; cbn [data_State data_Status set_data_CycleID]; rewrite ?Hs; try done.
      intros ex (He & _). congruence.
Qed.
End keys.

(** ** Resources and what is reported of them *)

(** In a world [T] resources have values; a state is a report on one of them: the
    value it had and, when the shutdown is to change it ([st_scaled]), the value
    [st_down] it has then ([None]: it is gone).  The value matters only when the
    shutdown is to change it. *)
Class Hibernation (T : Type) := {
  h_resource : Type;
  #[global] h_resource_dec :: EqDecision h_resource;
  h_value : Type;
  h_state : Type;
  h_look : T -> h_resource -> option h_value;
  (** The resource is reported under this key. *)
  h_linked : T -> string -> h_resource -> Prop;
  h_ready : T -> Prop;
  h_healthy : T -> Prop;
  h_awaits : bool;
  st_key : h_state -> string;
  st_id : h_state -> h_resource;
  st_value : h_state -> h_value;
  st_down : h_state -> option h_value;
  st_scaled : h_state -> bool;
  st_fields : h_state -> gmap string scalar;
  st_wf : h_state -> Prop;
}.

Section contract.
Context {T : Type} {HH : Hibernation T} {HT : JSONText}.

Record reports_of (c : T) (st : h_state) : Prop := {
  ro_wf : st_wf st;
  ro_linked : h_linked c (st_key st) (st_id st);
  ro_value : st_scaled st = true -> h_look c (st_id st) = Some (st_value st);
}.

Definition same_links (c c' : T) : Prop := forall k i, h_linked c' k i <-> h_linked c k i.

(** A shutdown from [c] that has come to [c'] with the reports [acc]. *)
Record shut_post (c c' : T) (acc : Accumulator) : Prop := {
  sp_ready : h_ready c';
  sp_links : same_links c c';
  sp_reportedAt : dom (acc_reportedAt acc) = dom (acc_state acc);
  sp_reports k v : acc_state acc !! k = Some v ->
    exists st, v = AnyMap (st_fields st) /\ k = st_key st /\ reports_of c st;
  sp_changes i : h_look c' i = h_look c i \/
    exists st, acc_state acc !! st_key st = Some (AnyMap (st_fields st)) /\ st_id st = i /\
               st_scaled st = true /\ st_wf st /\ h_look c' i = st_down st;
}.

(** The restore data of a wakeup, and the states they hold. *)
Definition holds (data : gmap string string) (st : h_state) : Prop :=
  data !! st_key st = Some (object_text (st_fields st)) /\ st_wf st.
Definition encoded (data : gmap string string) : Prop :=
  forall k text, data !! k = Some text -> exists st, k = st_key st /\ text = object_text (st_fields st) /\ st_wf st.

Record wake_post (data : gmap string string) (c c' : T) : Prop := {
  wp_ready : h_ready c';
  wp_links : same_links c c';
  wp_changes i : h_look c' i = h_look c i \/
    exists st, holds data st /\ st_scaled st = true /\ st_id st = i /\ h_look c' i = Some (st_value st);
}.

(** The data belong to the world: what they hold is there, as it was or shut
    down, and two states of one resource agree. *)
Record fitting (data : gmap string string) (c : T) : Prop := {
  fit_encoded : encoded data;
  fit_linked st : holds data st -> h_linked c (st_key st) (st_id st);
  fit_value st : holds data st -> st_scaled st = true ->
    h_look c (st_id st) = Some (st_value st) \/ h_look c (st_id st) = st_down st;
  fit_agree st st' : holds data st -> holds data st' -> st_scaled st = true -> st_scaled st' = true ->
    st_id st = st_id st' -> st_value st = st_value st';
}.
End contract.

Class HibernationLaws {T O : Type} (exec : O -> Executor T) (spec : Spec) `{HT : JSONText} `{HH : Hibernation T} : Prop := {
  linked_key c k i i' : h_ready c -> h_linked c k i -> h_linked c k i' -> i = i';
  linked_id c k k' i : h_ready c -> h_linked c k i -> h_linked c k' i -> k = k';
  st_fields_inj st st' : st_wf st -> st_wf st' -> st_key st = st_key st' -> st_fields st = st_fields st' -> st = st';
  st_canonical st : st_wf st -> map_Forall (fun _ v => scalar_canonical v) (st_fields st);
  demanded_scaled st : demanded (AnyMap (st_fields st)) = true -> st_scaled st = true;
  down_unscaled st st' : st_wf st -> st_wf st' -> st_id st = st_id st' -> st_down st = Some (st_value st') ->
    st_scaled st' = false;
  (** For states that the restore manager does not recognise as demanded. *)
  undemanded_det st st' : st_wf st -> st_wf st' -> st_scaled st' = true ->
    demanded (AnyMap (st_fields st')) = false ->
    st_key st = st_key st' -> st_id st = st_id st' -> (st_scaled st = true -> st_value st = st_value st') -> st = st';
  shutdown_contract o clock c : h_ready c ->
    let '(r, (c', acc)) := Shutdown (exec o) spec (Some (acc_add clock)) (c, NewAccumulator) in
    r <> Panic /\ shut_post c c' acc;
  wakeup_contract o t data live c : h_ready c -> encoded data ->
    let '(r, c') := WakeUp (exec o) spec (mkRestoreData t data live) c in
    r <> Panic /\ wake_post data c c';
  wakeup_total o t data live c : h_ready c -> h_healthy c -> fitting data c ->
    let '(r, c') := WakeUp (exec o) spec (mkRestoreData t data live) c in
    (forall st, holds data st -> st_scaled st = true -> h_look c' (st_id st) = Some (st_value st)) /\
    (forall e, r <> Err e) /\ (h_awaits = false -> exists result, r = Ok result);
}.


(** ** The invariant of a cycle *)

Section cycle.
Context {HK : KubeApi} {HKL : KubeLaws} {HJ : JSON} {HJL : JSONLaws}.
Context {HT : JSONText} {HTL : JSONTextLaws}.
Context {T O : Type} {HH : Hibernation T} {exec : O -> Executor T} {spec : Spec} {HL : HibernationLaws exec spec}.
Context (cfg : Config) (c0 : T).
Hypothesis Hready0 : h_ready c0.

Local Notation captured := (reports_of c0).

Definition reported_key (d : Data) (k : string) : Prop := is_Some (LastReportedAt (status_of (data_Status d) k)).
Definition recorded (d : Data) (st : h_state) : Prop :=
  data_State d !! st_key st = Some (AnyMap (st_fields st)) /\ reported_key d (st_key st) /\ captured st.

(** The restore data and the world in the course of the cycle that began with
    [c0]. *)
Record cycle_inv (d : Data) (c : T) : Prop := {
  ci_cycle : data_CycleID d = cfg_CycleID cfg;
  ci_status k v : data_State d !! k = Some v ->
    reported_key d k /\ StaleCount (status_of (data_Status d) k) = 0 \/
    ~ reported_key d k /\ 0 < StaleCount (status_of (data_Status d) k);
  ci_captured k v : data_State d !! k = Some v -> reported_key d k ->
    exists st, v = AnyMap (st_fields st) /\ k = st_key st /\ captured st;
  ci_dom k : reported_key d k -> is_Some (data_State d !! k);
  ci_ready : h_ready c;
  ci_links : same_links c0 c;
  ci_values i : h_look c i = h_look c0 i \/
    exists st, recorded d st /\ st_id st = i /\ st_scaled st = true /\ h_look c i = st_down st;
}.

(** Before the first save of the cycle. *)
Record cycle_start (existing : option Data) (c : T) : Prop := {
  cs_existing d : existing = Some d -> data_CycleID d <> cfg_CycleID cfg /\
    forall k, 0 <= StaleCount (status_of (data_Status d) k);
  cs_ready : h_ready c;
  cs_links : same_links c0 c;
  cs_values i : h_look c i = h_look c0 i;
}.

Definition cycle_pre (existing : option Data) (c : T) : Prop :=
  cycle_start existing c \/ exists d, existing = Some d /\ cycle_inv d c.

Lemma AnyMap_inj m m' : AnyMap m = AnyMap m' -> m = m'.
Proof. by intros [= ?]. Qed.

(** A key stands for one resource, and a resource has one key. *)
Lemma captured_id st st' : captured st -> captured st' -> st_key st = st_key st' -> st_id st = st_id st'.
Proof.
  intros [_ H _] [_ H' _] He. rewrite <- He in H'. by apply (linked_key (spec:=spec) (exec:=exec) c0 (st_key st)).
Qed.

Lemma captured_key st st' : captured st -> captured st' -> st_id st = st_id st' -> st_key st = st_key st'.
Proof.
  intros [_ H _] [_ H' _] He. rewrite <- He in H'. by apply (linked_id (spec:=spec) (exec:=exec) c0 _ _ (st_id st)).
Qed.

Lemma captured_value st st' : captured st -> captured st' -> st_scaled st = true -> st_scaled st' = true ->
  st_id st = st_id st' -> st_value st = st_value st'.
Proof. intros [_ _ H] [_ _ H'] Hs Hs' He. specialize (H Hs). specialize (H' Hs'). rewrite <- He in H'. congruence. Qed.

(** The statuses of a flush. *)
Lemma flush_statuses c c' acc now :
  shut_post c c' acc ->
  let data := flush_data cfg acc now in
  forall k, match data_State data !! k with
            | Some _ => exists at_time, data_Status data !! k = Some (mkResourceStatus 0 (Some at_time))
            | None => data_Status data !! k = None
            end.
Proof.
  intros Hs data k. unfold data. cbn. rewrite lookup_fmap. pose proof (sp_reportedAt _ _ _ Hs) as Hd.
  destruct (acc_state acc !! k) as [v|] eqn:Ek.
  - assert (k ∈ dom (acc_reportedAt acc)) as [t Ht]%elem_of_dom by (rewrite Hd; by eapply elem_of_dom_2).
    exists t. by rewrite Ht.
  - assert (k ∉ dom (acc_reportedAt acc)) as ->%not_elem_of_dom by (rewrite Hd; by apply not_elem_of_dom).
    done.
Qed.

Lemma after_save_cycle existing data maxStale now :
  data_CycleID (after_save existing data maxStale (cfg_CycleID cfg) now) = cfg_CycleID cfg.
Proof.
  unfold after_save. destruct existing as [ex|]; [|done]. destruct (_ && _) eqn:E; [|done]. by reflect.
Qed.

(** A shutdown run and its save. *)
Section saved.
Context (existing : option Data) (c c' : T) (acc : Accumulator) (now at_time : time).
Hypothesis Hpre : cycle_pre existing c.
Hypothesis Hs : shut_post c c' acc.
Let data := flush_data cfg acc now.
Let d := after_save existing data maxStaleCount (cfg_CycleID cfg) at_time.

Lemma saved_key k : key_outcome existing data (cfg_CycleID cfg) d k.
Proof. apply after_save_key. apply (flush_statuses c c' acc now Hs). Qed.

Lemma pre_links : same_links c0 c.
Proof. destruct Hpre as [[]|(d' & _ & [])]; done. Qed.

(** What is reported, in terms of the world before this run. *)
Lemma reported_state k v :
  data_State data !! k = Some v ->
  exists st, v = AnyMap (st_fields st) /\ k = st_key st /\ st_wf st /\
    h_linked c0 (st_key st) (st_id st) /\ (st_scaled st = true -> h_look c (st_id st) = Some (st_value st)).
Proof.
  intros Hk. destruct (sp_reports _ _ _ Hs k v Hk) as (st & -> & -> & [H1 H2 H3]). exists st.
  apply pre_links in H2. by split_and!.
Qed.

(** The existing data, when a key was reported in the cycle. *)
Lemma reported_before_inv ex k :
  reported_before existing (cfg_CycleID cfg) ex k -> cycle_inv ex c /\ reported_key ex k.
Proof.
  intros (He & Hc & Hr). destruct Hpre as [[Hex _ _ _]|(ex' & He' & Hi)].
  - by destruct (Hex ex He) as [? _].
  - assert (ex' = ex) as -> by congruence. done.
Qed.

(** A report on a resource that the cycle has shut down does not ask for it. *)
Lemma down_undemanded st st' : captured st -> st_wf st' -> st_id st = st_id st' ->
  (st_scaled st' = true -> st_down st = Some (st_value st')) ->
  st_scaled st' = false /\ demanded (AnyMap (st_fields st')) = false.
Proof.
  intros [Hwf _ _] Hwf' Hid Hd. assert (st_scaled st' = false) as Hsc.
  { destruct (st_scaled st') eqn:E; [|done]. specialize (Hd eq_refl).
    by rewrite (down_unscaled (spec:=spec) (exec:=exec) st st' Hwf Hwf' Hid Hd) in E. }
  split; [done|]. pose proof (demanded_scaled (spec:=spec) (exec:=exec) st') as H. destruct (demanded _); [|done].
  rewrite H in Hsc; done.
Qed.

(** What a report puts into the restore data was captured before the cycle. *)
Lemma new_captured k v :
  data_State data !! k = Some v ->
  (forall ex, reported_before existing (cfg_CycleID cfg) ex k -> demanded v = true) ->
  exists st, v = AnyMap (st_fields st) /\ k = st_key st /\ captured st.
Proof.
  intros Hk Hd. destruct (reported_state k v Hk) as (st & -> & -> & Hwf & Hlink & Hv).
  exists st. split_and!; [done..|]. split; try done.
  destruct Hpre as [[_ _ _ H]|(ex & He & Hi)]; [by rewrite <- H|].
  destruct (ci_values _ _ Hi (st_id st)) as [H|(st1 & (H1 & H2 & H3) & Hid & Hsc & Hz)]; [by rewrite <- H|].
  exfalso. assert (st_key st1 = st_key st) as Hkey.
  { apply (linked_id (spec:=spec) (exec:=exec) c0 _ _ (st_id st)); [done| |done]. rewrite <- Hid. apply H3. }
  destruct (down_undemanded st1 st H3 Hwf Hid) as [_ Hu]; [intros Hst; specialize (Hv Hst); congruence|].
  rewrite (Hd ex) in Hu; [done|]. rewrite <- Hkey. split_and!; [done|apply Hi|done].
Qed.

(** A record of a resource that the cycle has shut down stays, whatever is
    reported. *)
Lemma recorded_stays ex st :
  existing = Some ex -> cycle_inv ex c -> recorded ex st -> h_look c (st_id st) = st_down st -> recorded d st.
Proof.
  intros He Hi (H1 & H2 & H3) Hz.
  assert (reported_before existing (cfg_CycleID cfg) ex (st_key st)) as Hrb by (split_and!; [done|apply Hi|done]).
  destruct (saved_key (st_key st)) as [v Hv Hd _ _ _|ex' Hrb' _ HSd HTd|ex' v' _ He' Hn _ _ _ _|ex' _ He' _ Hn _ _|_ Hn _ _].
  - specialize (Hd ex Hrb). destruct (reported_state _ _ Hv) as (st' & -> & Hk & Hwf & Hlink & Hr). exfalso.
    assert (st_id st = st_id st') as Hid.
    { apply (linked_key (spec:=spec) (exec:=exec) c0 (st_key st)); [done|apply H3|]. by rewrite Hk. }
    destruct (down_undemanded st st' H3 Hwf Hid) as [_ Hu]; [|congruence]. intros Hsc. by rewrite <- Hz, Hid, Hr.
  - destruct Hrb' as [He' _]. assert (ex' = ex) as -> by congruence.
    split_and!; [by rewrite HSd|unfold reported_key; by rewrite HTd|done].
  - assert (ex' = ex) as -> by congruence. done.
  - assert (ex' = ex) as -> by congruence. done.
  - rewrite (Hn ex Hrb) in H1. done.
Qed.

(** The record of a resource that this run has shut down. *)
Lemma reported_recorded st :
  acc_state acc !! st_key st = Some (AnyMap (st_fields st)) -> st_wf st -> st_scaled st = true -> recorded d st.
Proof.
  intros Hk Hwf Hsc. destruct (reported_state _ _ Hk) as (st' & He & Hkey & Hwf' & Hlink & Hv).
  apply AnyMap_inj in He.
  assert (st' = st) as -> by (symmetry; by apply (st_fields_inj (spec:=spec) (exec:=exec))).
  specialize (Hv Hsc).
  destruct (saved_key (st_key st)) as [v Hv' Hd HSd HNd HLd|ex Hrb Hnd HSd HTd|? ? Hn|? Hn|Hn]; [| |cbn in Hn; congruence..].
  - destruct (new_captured _ _ Hv' Hd) as (st' & -> & Hkey' & Hcap). cbn in Hv'. rewrite Hk in Hv'.
    assert (st_fields st = st_fields st') as Hf by (apply AnyMap_inj; congruence).
    assert (st = st') as <- by (apply (st_fields_inj (spec:=spec) (exec:=exec)); [done|apply Hcap|done..]).
    by split_and!.
  - specialize (Hnd _ Hk). destruct (reported_before_inv _ _ Hrb) as [Hi Hr].
    destruct (ci_dom _ _ Hi _ Hr) as [v1 Hv1]. destruct (ci_captured _ _ Hi _ _ Hv1 Hr) as (st1 & -> & Hk1 & Hcap).
    assert (st_id st1 = st_id st) as Hid.
    { apply (linked_key (spec:=spec) (exec:=exec) c0 (st_key st)); [done| |done]. rewrite Hk1. apply Hcap. }
    assert (st1 = st) as ->.
    { apply (undemanded_det (spec:=spec) (exec:=exec)); try done; [apply Hcap|]. intros Hsc1.
      destruct (ci_values _ _ Hi (st_id st)) as [Hl|(st2 & Hrec & Hid2 & Hsc2 & Hl)].
      - rewrite Hv, <- Hid, (ro_value _ _ Hcap Hsc1) in Hl. congruence.
      - destruct Hrec as (_ & _ & Hc2). destruct (down_undemanded st2 st Hc2 Hwf Hid2) as [Hf _]; [|congruence].
        intros _. by rewrite <- Hl. }
    split_and!; [by rewrite HSd, Hv1|unfold reported_key; by rewrite HTd|done].
Qed.

(** After the save the invariant holds. *)
Lemma saved_status k v : data_State d !! k = Some v ->
  reported_key d k /\ StaleCount (status_of (data_Status d) k) = 0 \/
  ~ reported_key d k /\ 0 < StaleCount (status_of (data_Status d) k).
Proof.
  intros Hk. unfold reported_key.
  destruct (saved_key k) as [v' Hv Hd HSd HNd HLd|ex Hrb _ HSd HTd'|ex v' _ He Hn Hv _ HNd HLd|ex _ He Hc Hn HSd HTd'|_ _ HSd _].
  - by left.
  - destruct (reported_before_inv _ _ Hrb) as [Hi Hr]. rewrite HTd'. rewrite HSd in Hk. by apply (ci_status _ _ Hi _ _ Hk).
  - right. rewrite HLd, HNd. split; [by intros [t Ht]|].
    destruct Hpre as [[Hex _ _ _]|(ex' & He' & Hi)].
    + pose proof (proj2 (Hex ex He) k). lia.
    + assert (ex' = ex) as -> by congruence. destruct (ci_status _ _ Hi _ _ Hv) as [[Hr _]|[_ Hs']]; [|lia].
      exfalso. apply Hn. split_and!; [done|apply Hi|done].
  - rewrite HTd'. rewrite HSd in Hk. destruct Hpre as [[Hex _ _ _]|(ex' & He' & Hi)]; [by destruct (Hex ex He) as [? _]|].
    assert (ex' = ex) as -> by congruence. by apply (ci_status _ _ Hi _ _ Hk).
  - congruence.
Qed.

Lemma saved_captured k v : data_State d !! k = Some v -> reported_key d k ->
  exists st, v = AnyMap (st_fields st) /\ k = st_key st /\ captured st.
Proof.
  intros Hk Hr. unfold reported_key in Hr.
  destruct (saved_key k) as [v' Hv Hd HSd HNd HLd|ex Hrb _ HSd HTd'|ex v' _ He Hn Hv _ HNd HLd|ex _ He Hc Hn HSd HTd'|_ _ HSd _].
  - assert (v = v') as -> by congruence. by apply new_captured.
  - destruct (reported_before_inv _ _ Hrb) as [Hi Hr']. rewrite HSd in Hk. by apply (ci_captured _ _ Hi _ _ Hk).
  - rewrite HLd in Hr. by destruct Hr.
  - rewrite HTd' in Hr. exfalso. by apply Hn.
  - congruence.
Qed.

Lemma saved_dom k : reported_key d k -> is_Some (data_State d !! k).
Proof.
  intros Hr. unfold reported_key in Hr.
  destruct (saved_key k) as [v' Hv Hd HSd HNd HLd|ex Hrb _ HSd HTd'|ex v' _ He Hn Hv HSd HNd HLd|ex _ He Hc Hn HSd HTd'|_ _ _ HLd].
  - by eexists.
  - destruct (reported_before_inv _ _ Hrb) as [Hi Hr']. rewrite HSd. by apply (ci_dom _ _ Hi).
  - by eexists.
  - rewrite HTd' in Hr. exfalso. by apply Hn.
  - rewrite HLd in Hr. by destruct Hr.
Qed.

Lemma same_links_trans c1 c2 c3 : same_links c1 c2 -> same_links c2 c3 -> same_links c1 c3.
Proof. intros H1 H2 k i. etrans; [apply H2|apply H1]. Qed.

Lemma cycle_saved : cycle_inv d c'.
Proof.
  split; [apply after_save_cycle|apply saved_status|apply saved_captured|apply saved_dom|apply Hs| |].
  - eapply same_links_trans; [apply pre_links|apply Hs].
  - intros i. destruct (sp_changes _ _ _ Hs i) as [Hsame|(st & Hk & Hid & Hsc & Hwf & Hd)].
    + rewrite Hsame. destruct Hpre as [[_ _ _ H]|(ex & He & Hi)]; [by left|].
      destruct (ci_values _ _ Hi i) as [H|(st & Hrec & Hid & Hsc & Hz)]; [by left|]. right.
      exists st. split_and!; [|done..]. apply (recorded_stays ex); [done..|]. by rewrite Hid.
    + right. exists st. split_and!; [by apply reported_recorded|done..].
Qed.
End saved.

(** ** Waking up *)

Section woken.
Context (d : Data) (c : T).
Hypothesis Hinv : cycle_inv d c.
Let data := any_text <$> eligible d.

Lemma eligible_lookup k v : eligible d !! k = Some v <->
  data_State d !! k = Some v /\ StaleCount (status_of (data_Status d) k) <= 0.
Proof. unfold eligible. by rewrite map_lookup_filter_Some. Qed.

(** What the executor gets are the records of the cycle. *)
Lemma eligible_recorded k text : data !! k = Some text ->
  exists st, k = st_key st /\ text = object_text (st_fields st) /\ recorded d st.
Proof.
  unfold data. rewrite lookup_fmap, fmap_Some. intros (v & Hv & ->). apply eligible_lookup in Hv as [Hv Hst].
  destruct (ci_status _ _ Hinv _ _ Hv) as [[Hr _]|[_ ?]]; [|lia].
  destruct (ci_captured _ _ Hinv _ _ Hv Hr) as (st & -> & -> & Hcap). exists st. by split_and!.
Qed.

(** The texts of two states differ. *)
Lemma state_text_inj st st' : st_wf st -> st_wf st' -> st_key st = st_key st' ->
  object_text (st_fields st) = object_text (st_fields st') -> st = st'.
Proof.
  intros Hwf Hwf' Hkey He. apply (st_fields_inj (spec:=spec) (exec:=exec)); [done..|].
  apply (f_equal object_of_text) in He.
  rewrite !object_roundtrip in He by (by apply (st_canonical (spec:=spec) (exec:=exec))). congruence.
Qed.

Lemma holds_recorded st : holds data st <-> recorded d st.
Proof.
  split.
  - intros [Hk Hwf]. destruct (eligible_recorded _ _ Hk) as (st' & Hkey & Ht & Hr).
    by assert (st = st') as -> by (apply state_text_inj; [done|apply Hr|done..]).
  - intros (H1 & H2 & H3). split; [|apply H3]. unfold data. rewrite lookup_fmap, fmap_Some.
    exists (AnyMap (st_fields st)). split; [|done]. apply eligible_lookup. split; [done|].
    destruct (ci_status _ _ Hinv _ _ H1) as [[_ Hz]|[Hn _]]; [lia|done].
Qed.

Lemma recorded_unique st st' : recorded d st -> recorded d st' -> st_id st = st_id st' -> st = st'.
Proof.
  intros (H1 & _ & Hc) (H1' & _ & Hc') Hid. rewrite <- (captured_key st st') in H1' by done.
  apply (st_fields_inj (spec:=spec) (exec:=exec)); [apply Hc|apply Hc'|by apply captured_key|]. apply AnyMap_inj. congruence.
Qed.

Lemma eligible_fitting : fitting data c.
Proof.
  split.
  - intros k text Hk. destruct (eligible_recorded k text Hk) as (st & -> & -> & Hr).
    exists st. split_and!; [done..|apply Hr].
  - intros st (_ & _ & Hc)%holds_recorded. apply (ci_links _ _ Hinv), Hc.
  - intros st Hr%holds_recorded Hsc. destruct (ci_values _ _ Hinv (st_id st)) as [->|(st' & Hrec & Hid & _ & Hv)].
    + left. by apply Hr.
    + right. by rewrite Hv, (recorded_unique st' st).
  - intros st st' (_&_&Hc)%holds_recorded (_&_&Hc')%holds_recorded. by apply captured_value.
Qed.

(** A wakeup keeps the invariant, however far it gets. *)
Lemma cycle_woken c' : wake_post data c c' -> cycle_inv d c'.
Proof.
  intros [Hr Hl Hv]. destruct Hinv as [H1 H2 H3 H4 H5 H6 H7]. split; try done.
  - by eapply same_links_trans.
  - intros i. destruct (Hv i) as [->|(st & Hh & Hsc & Hid & ->)]; [apply H7|]. left.
    apply holds_recorded in Hh as (_&_&Hc). by rewrite <- Hid, (ro_value _ _ Hc).
Qed.

(** When it reaches every record, the world is as before the cycle. *)
Lemma cycle_restored c' :
  wake_post data c c' ->
  (forall st, holds data st -> st_scaled st = true -> h_look c' (st_id st) = Some (st_value st)) ->
  forall i, h_look c' i = h_look c0 i.
Proof.
  intros [_ _ Hv] Hall i. destruct (Hv i) as [Hsame|(st & Hh & Hsc & Hid & ->)].
  - destruct (ci_values _ _ Hinv i) as [H|(st & Hrec & Hid & Hsc & _)]; [by rewrite Hsame|].
    rewrite <- Hid, Hall; [|by apply holds_recorded|done]. symmetry. by apply Hrec.
  - apply holds_recorded in Hh as (_&_&Hc). by rewrite <- Hid, (ro_value _ _ Hc Hsc).
Qed.
End woken.
End cycle.

(** ** Runs of a cycle *)

Definition set_operation (op : string) (cfg : Config) : Config :=
  mkConfig op (cfg_Target cfg) (cfg_TargetType cfg) (cfg_Plan cfg) (cfg_Namespace cfg) (cfg_CycleID cfg)
    (cfg_TargetParams cfg) (cfg_ConnectorKind cfg) (cfg_ConnectorName cfg) (cfg_ConnectorNamespace cfg).

(** The shutdown of a run is that of the executor; the flush changes the hub. *)
Lemma shutdown_run_target `{HK : KubeApi} `{HJ : JSON} `{HT : JSONText} {T} (exec : Executor T) cfg clk spec s :
  let o := Shutdown exec spec (Some (acc_add (rc_reports clk))) (rs_target s, NewAccumulator) in
  (shutdown_run exec cfg clk spec s).1.1 = o.1 /\ rs_target (shutdown_run exec cfg clk spec s).2 = o.2.1.
Proof.
  unfold shutdown_run. cbn zeta. destruct (Shutdown _ _ _ _) as [[a|e| |] [t acc]]; [..|done];
    by destruct (flush _ _ _ _ _).
Qed.

(** The result of a shutdown run is that of the executor alone: it is the same
    whether or not the reports could be saved. *)
Lemma result_ignores_flush `{HK : KubeApi} `{HJ : JSON} `{HT : JSONText} {T} (exec : Executor T) cfg clk spec s :
  cfg_Operation cfg = "shutdown"%string ->
  (executeOperation exec cfg clk spec s).1 =
    (let* result := res_map_err ErrOperation
       (Shutdown exec spec (Some (acc_add (rc_reports clk))) (rs_target s, NewAccumulator)).1 in
     Ok (with_elapsed clk result)).
Proof.
  intros Hop. unfold executeOperation. rewrite Hop. cbn.
  destruct (shutdown_run_target exec cfg clk spec s) as [<- _].
  by destruct (shutdown_run _ _ _ _ _) as [[o fl] s2].
Qed.

Local Arguments flush : simpl never.
Local Arguments LoadRestoreData : simpl never.

Section history.
Context {HK : KubeApi} {HKL : KubeLaws} {HJ : JSON} {HJL : JSONLaws}.
Context {HT : JSONText} {HTL : JSONTextLaws}.
Context {T O : Type}.
Context (exec : O -> Executor T) (cfg : Config) (spec : Spec).
Notation State := (RunnerState (T := T)).

(** The runs of one target in one cycle, the last of which has ended: shutdowns
    whose reports were saved, however the shutdown itself ended, and wakeups, in
    any order, the first a shutdown. *)
Inductive cycle_runs : State -> State -> Prop :=
| RunFirst o clk r s s' :
    shutdown_run (exec o) cfg clk spec s = (r, Some (Ok tt), s') -> cycle_runs s s'
| RunShutdown o clk r s s1 s2 :
    cycle_runs s s1 ->
    shutdown_run (exec o) cfg clk spec s1 = (r, Some (Ok tt), s2) -> cycle_runs s s2
| RunWakeup o clk r s s1 s2 :
    cycle_runs s s1 ->
    executeOperation (exec o) (set_operation "wakeup" cfg) clk spec s1 = (r, s2) ->
    cycle_runs s s2.

Context {HH : Hibernation T} {HL : HibernationLaws exec spec}.

Notation target_data hub := (loaded hub (cfg_Namespace cfg) (cfg_Plan cfg) (cfg_Target cfg)).

(** The hub and the target in the course of a cycle that began with [c0]. *)
Definition runs_inv (c0 : T) (s : State) : Prop :=
  no_faults (rs_hub s) /\ exists d, target_data (rs_hub s) = Ok (Some d) /\ cycle_inv cfg c0 d (rs_target s).

Lemma cycle_pre_ready c0 existing c : cycle_pre cfg c0 existing c -> h_ready c.
Proof. intros [H|(d & _ & H)]; apply H. Qed.

Lemma shutdown_run_inv c0 existing o clk r s s' :
  h_ready c0 -> no_faults (rs_hub s) -> target_data (rs_hub s) = Ok existing ->
  cycle_pre cfg c0 existing (rs_target s) ->
  shutdown_run (exec o) cfg clk spec s = (r, Some (Ok tt), s') -> runs_inv c0 s'.
Proof.
  intros Hd Hf Hl Hpre Hrun. unfold shutdown_run in Hrun.
  pose proof (shutdown_contract o (rc_reports clk) (rs_target s) (cycle_pre_ready _ _ _ Hpre)) as Hsd.
  destruct (Shutdown (exec o) _ _ _) as [r1 [c' acc]]. destruct Hsd as [Hnp Hpost].
  assert ((let '(flushed, hub) := flush cfg acc (rc_flush clk) (rc_save clk) (rs_hub s)
           in (r1, Some flushed, mkRunnerState hub c')) = (r, Some (Ok tt), s')) as Hrun'.
  { destruct r1; [exact Hrun..|discriminate Hrun]. }
  clear Hrun. destruct (flush _ _ _ _ _) as [fl hub] eqn:Efl. injection Hrun' as -> -> <-. cbn.
  unfold flush in Efl.
  destruct (SaveState_after (rs_hub s) (cfg_Namespace cfg) (cfg_Plan cfg) (cfg_Target cfg) existing
     (flush_data cfg acc (rc_flush clk)) maxStaleCount (cfg_CycleID cfg) (rc_save clk) Hf Hl) as [Hf' Hl'].
  { unfold run_result. by rewrite Efl. }
  unfold run_state in Hf', Hl'. rewrite Efl in Hf', Hl'. cbn in Hf', Hl'.
  split; [done|]. eexists. split; [by rewrite Hl', decide_True|].
  by apply (cycle_saved (exec:=exec) (spec:=spec) cfg c0 Hd existing (rs_target s)).
Qed.

Lemma LoadRestoreData_run hub d :
  no_faults hub -> target_data hub = Ok (Some d) ->
  LoadRestoreData (cfg_Namespace cfg) (cfg_Plan cfg) (cfg_Target cfg) hub =
    (Ok (mkRestoreData (data_Executor d) (any_text <$> eligible d) (data_IsLive d)), hub).
Proof.
  intros Hf Hl. unfold LoadRestoreData, st_bind, st_wrap. by rewrite Load_ok, Hl by done.
Qed.

Lemma wakeup_run_inv c0 o clk r s s' :
  h_ready c0 -> runs_inv c0 s ->
  executeOperation (exec o) (set_operation "wakeup" cfg) clk spec s = (r, s') ->
  runs_inv c0 s' /\ r <> Panic /\
  (h_healthy (rs_target s) ->
     (forall i, h_look (rs_target s') i = h_look c0 i) /\
     (forall e, r <> Err e) /\ (h_awaits = false -> exists result, r = Ok result)).
Proof.
  intros Hd (Hf & d & Hl & Hinv) Hrun. unfold executeOperation in Hrun. cbn [cfg_Operation set_operation] in Hrun.
  cbn in Hrun. unfold st_bind, st_wrap, st_lift in Hrun.
  cbn [cfg_Namespace cfg_Plan cfg_Target set_operation] in Hrun.
  rewrite (LoadRestoreData_run _ d) in Hrun by done. cbn in Hrun.
  pose proof (eligible_fitting (exec:=exec) (spec:=spec) cfg c0 Hd d (rs_target s) Hinv) as Hfit.
  pose proof (wakeup_contract o (data_Executor d) (any_text <$> eligible d) (data_IsLive d) (rs_target s)
    (ci_ready _ _ _ _ Hinv) (fit_encoded _ _ Hfit)) as Hw.
  pose proof (wakeup_total o (data_Executor d) (any_text <$> eligible d) (data_IsLive d) (rs_target s)
    (ci_ready _ _ _ _ Hinv)) as Ht.
  destruct (WakeUp (exec o) _ _ _) as [r1 c']. destruct Hw as [Hnp Hw].
  assert (s' = mkRunnerState (rs_hub s) c' /\
          r = (let* a := res_map_err ErrOperation r1 in Ok (with_elapsed clk a))) as [-> ->].
  { destruct r1; cbn in Hrun; by injection Hrun as <- <-. }
  split; [|split].
  - split; [done|]. exists d. split; [done|]. by apply (cycle_woken (exec:=exec) (spec:=spec) cfg c0 d (rs_target s)).
  - by destruct r1.
  - intros Hh. destruct (Ht Hh Hfit) as (Hall & Hne & Hok). split_and!.
    + exact (cycle_restored (exec:=exec) (spec:=spec) cfg c0 d (rs_target s) Hinv c' Hw Hall).
    + destruct r1 as [a|e| |]; try done. by destruct (Hne e).
    + intros Ha. destruct (Hok Ha) as [a ->]. by eexists.
Qed.

Lemma cycle_runs_inv c0 s0 s existing :
  c0 = rs_target s0 -> h_ready c0 -> no_faults (rs_hub s0) ->
  target_data (rs_hub s0) = Ok existing ->
  (forall d, existing = Some d -> data_CycleID d <> cfg_CycleID cfg /\
     forall k, 0 <= StaleCount (status_of (data_Status d) k)) ->
  cycle_runs s0 s -> runs_inv c0 s.
Proof.
  intros Hc0 Hd Hf Hl Hex Hruns.
  induction Hruns as [o clk r s s' Hrun|o clk r s s1 s2 _ IH Hrun|o clk r s s1 s2 _ IH Hrun].
  - apply (shutdown_run_inv c0 existing o clk r s s'); try done.
    left. split; [exact Hex|by rewrite <- Hc0|by subst c0|by subst c0].
  - destruct (IH Hc0 Hf Hl) as (Hf1 & d & Hl1 & Hinv). apply (shutdown_run_inv c0 (Some d) o clk r s1 s2); try done.
    right. by exists d.
  - by apply (wakeup_run_inv c0 o clk r s1 s2); [|apply IH|].
Qed.

(** What any executor with the contract gets from the runner: after the runs of a
    cycle a wakeup in a healthy world restores every resource. *)
Lemma cycle_restores s0 s existing o clk r s' :
  h_ready (rs_target s0) -> no_faults (rs_hub s0) ->
  target_data (rs_hub s0) = Ok existing ->
  (forall d, existing = Some d -> data_CycleID d <> cfg_CycleID cfg /\
     forall k, 0 <= StaleCount (status_of (data_Status d) k)) ->
  cycle_runs s0 s -> h_healthy (rs_target s) ->
  executeOperation (exec o) (set_operation "wakeup" cfg) clk spec s = (r, s') ->
  (forall i, h_look (rs_target s') i = h_look (rs_target s0) i) /\
  (forall e, r <> Err e) /\ (h_awaits = false -> exists result, r = Ok result).
Proof.
  intros Hd Hf Hl Hex Hruns Hh Hrun.
  pose proof (cycle_runs_inv (rs_target s0) s0 s existing eq_refl Hd Hf Hl Hex Hruns) as Hinv.
  destruct (wakeup_run_inv (rs_target s0) o clk r s s' Hd Hinv Hrun) as (_ & _ & H).
  by apply H.
Qed.
End history.

(** ** The loops of an executor that keeps the contract

    For executors that visit their resources one by one: what holds in the middle
    of a shutdown and of a wakeup, and the rules for the loops of [Operation]. *)

Section loops.
Context {T : Type} {HH : Hibernation T} {HT : JSONText}.

(** ** Shutdown *)

(** A shutdown from [c1] that has come to [c], with the keys [rest] ahead: they
    are not reported and their resources are untouched. *)
Record shutting (c1 : T) (rest : list string) (c : T) (acc : Accumulator) : Prop := {
  sh_post : shut_post c1 c acc;
  sh_rest k i : k ∈ rest -> h_linked c1 k i -> acc_state acc !! k = None /\ h_look c i = h_look c1 i;
}.

Lemma shutting_start c1 rest : h_ready c1 -> shutting c1 rest c1 NewAccumulator.
Proof. intros Hr. split; [|done]. split; try done. intros i. by left. Qed.

Lemma shutting_rest c1 rest rest' c acc : rest' ⊆ rest -> shutting c1 rest c acc -> shutting c1 rest' c acc.
Proof. intros Hr [Hp Hs]. split; [done|]. intros k i Hk. apply Hs. by apply Hr. Qed.

(** A step that changes no resource. *)
Lemma shutting_same c1 rest c c2 acc :
  h_ready c2 -> same_links c c2 -> (forall i, h_look c2 i = h_look c i) ->
  shutting c1 rest c acc -> shutting c1 rest c2 acc.
Proof.
  intros Hr Hl Hv [[H1 H2 H3 H4 H5] Hs]. split.
  - split; [done| |done|done|].
    + intros k i. etrans; [apply Hl|apply H2].
    + intros i. rewrite Hv. apply H5.
  - intros k i Hk Hi. rewrite Hv. by apply Hs.
Qed.

Definition accumulate (clock : nat -> time) (key : string) (st : h_state) (acc : Accumulator) : Accumulator :=
  mkAccumulator (<[key := AnyMap (st_fields st)]> (acc_state acc))
    (<[key := clock (acc_reports acc)]> (acc_reportedAt acc)) (S (acc_reports acc)).

(** The next resource is shut down, when its state says so, and reported. *)
Lemma shutting_visit clock c1 rest c acc st c2 :
  shutting c1 (st_key st :: rest) c acc -> st_key st ∉ rest -> reports_of c1 st ->
  (forall k, h_linked c1 k (st_id st) -> k = st_key st) ->
  h_ready c2 -> same_links c c2 ->
  (forall i, i <> st_id st -> h_look c2 i = h_look c i) ->
  h_look c2 (st_id st) = (if st_scaled st then st_down st else h_look c (st_id st)) ->
  shutting c1 rest c2 (accumulate clock (st_key st) st acc).
Proof.
  intros [[H1 H2 H3 H4 H5] Hs] Hnk Hrep Huniq Hr Hl Hother Hthis.
  destruct (Hs (st_key st) (st_id st) ltac:(left) (ro_linked _ _ Hrep)) as [Hnone Hsame]. split.
  - split; [done| | | |].
    + intros k i. etrans; [apply Hl|apply H2].
    + cbn. by rewrite !dom_insert_L, H3.
    + cbn. intros k v. rewrite lookup_insert_Some. intros [[<- <-]|[Hne Hk]]; [by exists st|by apply H4].
    + intros i. destruct (decide (i = st_id st)) as [->|Hi].
      * rewrite Hthis. destruct (st_scaled st) eqn:Esc; [right|by left].
        exists st. cbn. rewrite lookup_insert_eq. split_and!; [done..|apply Hrep|done].
      * rewrite Hother by done. destruct (H5 i) as [H|(st' & Hk & Hid & Hsc & Hwf & Hd)]; [by left|]. right.
        exists st'. cbn. rewrite lookup_insert_ne; [done|]. intros Hkey. rewrite <- Hkey in Hk. congruence.
  - intros k i Hk Hi. cbn. rewrite lookup_insert_ne by (by intros <-).
    destruct (Hs k i ltac:(by right) Hi) as [Hn Hv]. split; [done|].
    rewrite Hother; [done|]. intros ->. apply Hnk. by rewrite <- (Huniq k Hi).
Qed.

(** ** Wakeup *)

Lemma wake_post_start data c : h_ready c -> wake_post data c c.
Proof. intros Hr. split; [done..|]. intros i. by left. Qed.

Lemma wake_post_same data c1 c c2 :
  h_ready c2 -> same_links c c2 -> (forall i, h_look c2 i = h_look c i) ->
  wake_post data c1 c -> wake_post data c1 c2.
Proof.
  intros Hr Hl Hv [H1 H2 H3]. split; [done| |].
  - intros k i. etrans; [apply Hl|apply H2].
  - intros i. rewrite Hv. apply H3.
Qed.

Lemma wake_post_restore data c1 c c2 st :
  holds data st -> st_scaled st = true -> h_ready c2 -> same_links c c2 ->
  (forall i, i <> st_id st -> h_look c2 i = h_look c i) -> h_look c2 (st_id st) = Some (st_value st) ->
  wake_post data c1 c -> wake_post data c1 c2.
Proof.
  intros Hst Hsc Hr Hl Hother Hthis [H1 H2 H3]. split; [done| |].
  - intros k i. etrans; [apply Hl|apply H2].
  - intros i. destruct (decide (i = st_id st)) as [->|Hi]; [right; by exists st|].
    rewrite Hother by done. apply H3.
Qed.

(** The records of [keys] are restored. *)
Definition restored (data : gmap string string) (keys : list string) (c : T) : Prop :=
  forall st, holds data st -> st_scaled st = true -> st_key st ∈ keys -> h_look c (st_id st) = Some (st_value st).

End loops.

(** ** Rules for the loops *)

Section rules.
Context {S E : Type}.

Lemma hoare_count_each (I : list string -> S -> Prop) (J : E -> S -> Prop) f names stats :
  (forall name rest, NoDup (name :: rest) -> name :: rest ⊆ names ->
     hoare (I (name :: rest)) (f name) (fun _ => I rest) J) ->
  NoDup names -> hoare (I names) (count_each f names stats) (fun _ => I []) J.
Proof.
  revert stats. induction names as [|name names IH]; intros stats Hf Hd; [by apply hoare_ret|]. simpl.
  eapply hoare_bind; [by apply Hf|]. intros o. apply IH; [|by apply NoDup_cons in Hd as [_ ?]].
  intros n rest Hn Hsub. apply Hf; [done|]. set_solver.
Qed.

Lemma hoare_wake_entries {N : Type} (I : S -> Prop) (J : E -> S -> Prop) (f : string -> string -> N -> ST S E N) data keys stats :
  (forall key text stats, data !! key = Some text -> hoare I (f key text stats) (fun _ => I) J) ->
  hoare I (wake_entries f data keys stats) (fun _ => I) J.
Proof.
  intros Hf. revert stats. induction keys as [|key keys IH]; intros stats; [by apply hoare_ret|]. simpl.
  destruct (data !! key) as [text|] eqn:Ek; [|done]. eapply hoare_bind; [by apply Hf|done].
Qed.

Lemma completes_count_each f names stats :
  (forall name, completes (f name)) -> completes (count_each (S:=S) (E:=E) f names stats).
Proof.
  intros Hf. revert stats. induction names as [|name names IH]; intros stats; [done|]. simpl. by apply completes_bind.
Qed.

Lemma completes_wake_entries {N : Type} (f : string -> string -> N -> ST S E N) data keys stats :
  (forall key text stats, completes (f key text stats)) ->
  completes (wake_entries (S:=S) (E:=E) f data keys stats).
Proof.
  intros Hf. revert stats. induction keys as [|key keys IH]; intros stats; [done|]. simpl.
  destruct (data !! key); [by apply completes_bind|done].
Qed.

(** Every entry is visited once, and what a visit has made true stays true; the
    invariant may speak of the entries ahead. *)
Lemma succeeds_wake_entries {N : Type} (I : list string -> S -> Prop) (D : string -> S -> Prop)
  (f : string -> string -> N -> ST S E N) data keys :
  (forall key text stats rest (l : list string), data !! key = Some text -> key ∉ rest ->
     succeeds (fun s => I (key :: rest) s /\ Forall (fun k => D k s) l) (f key text stats)
       (fun _ s => I rest s /\ Forall (fun k => D k s) (key :: l))) ->
  (forall key s, data !! key = None -> D key s) ->
  (forall key rest s, I (key :: rest) s -> I rest s) -> NoDup keys ->
  forall stats, succeeds (E:=E) (I keys) (wake_entries f data keys stats) (fun _ s => I [] s /\ Forall (fun k => D k s) keys).
Proof.
  intros Hf Hn Hrest.
  assert (forall keys, NoDup keys -> forall stats l, succeeds (E:=E) (fun s => I keys s /\ Forall (fun k => D k s) l)
    (wake_entries f data keys stats) (fun _ s => I [] s /\ Forall (fun k => D k s) (keys ++ l))) as H.
  { clear keys. induction 1 as [|key keys Hk _ IH]; intros stats l; [by apply succeeds_ret|]. simpl.
    destruct (data !! key) as [text|] eqn:Ek.
    - eapply succeeds_bind; [by apply Hf|]. intros st. eapply succeeds_conseq; [apply IH|].
      intros a s [Hi Hl]. split; [done|]. rewrite <- Permutation_middle in Hl. done.
    - eapply succeeds_pre; [eapply succeeds_conseq; [apply IH|]|intros s [Hi Hl]; split; [by eapply Hrest|exact Hl]].
      intros a s [Hi Hl]. split; [done|]. constructor; [by apply Hn|done]. }
  intros Hd stats. eapply succeeds_pre; [eapply succeeds_conseq; [apply (H keys Hd stats [])|]|].
  - intros a s. by rewrite app_nil_r.
  - done.
Qed.
(** The first part of a computation that neither panics nor hangs. *)
Lemma bind_step {A B} (P : S -> Prop) (R : A -> S -> Prop) (X : E -> S -> Prop) (Post : res E B * S -> Prop)
  (m : ST S E A) (k : A -> ST S E B) s :
  completes m -> hoare P m R X -> P s ->
  (forall a s', R a s' -> Post (k a s')) -> (forall e s', X e s' -> Post (Err e, s')) -> Post (st_bind m k s).
Proof.
  intros Hc Hm Hs Hok Herr. specialize (Hc s). specialize (Hm s Hs). unfold st_bind.
  destruct (m s) as [[a|e| |] s']; try done; auto.
Qed.

Lemma bind_total {A B} (P : S -> Prop) (R : A -> S -> Prop) (Post : res E B * S -> Prop)
  (m : ST S E A) (k : A -> ST S E B) s :
  succeeds P m R -> P s -> (forall a s', R a s' -> Post (k a s')) -> Post (st_bind m k s).
Proof. intros Hm Hs Hok. destruct (Hm s Hs) as (a & s' & Hr & Ha). unfold st_bind. rewrite Hr. by apply Hok. Qed.
End rules.

(** What is reported when the accumulator gets a state. *)
Lemma report_accumulates {T W E} `{HH : Hibernation T} `{HTL : JSONTextLaws} (clock : nat -> time) key st
  (s : Run T W Accumulator) :
  map_Forall (fun _ v => scalar_canonical v) (st_fields st) ->
  report (E:=E) (Some (acc_add clock)) key (ReportStruct (object_text (st_fields st))) s =
    (Ok tt, set_run_acc (accumulate clock key st (run_acc s)) s).
Proof.
  intros Hc. unfold report, acc_add, st_bind, st_try, st_lift, st_modify, accumulated. cbn.
  by rewrite object_roundtrip.
Qed.
