(* ===== verification/ScalerSpec.v ===== *)
(** * What the workload scaler does to the cluster

    [ScaleLaws] states what the executor relies on: a list answers what is there,
    a scale is served without [spec.replicas] when the count is zero (the field is
    omitted when empty), an update writes the count, and a request that fails
    changes nothing.  Under these laws a shutdown, whichever requests fail, has
    scaled to zero exactly the workloads it has reported as scaled, with the
    counts they had; and a wakeup writes the reported counts back. *)
From S2P Require Import Prelude Monad GoString GoTime Types Cluster Restore Params Executor Operation WorkloadScaler Runner.
From Stdlib Require Import Lia.

Local Open Scope Z_scope.

(** A workload in the cluster: its resource, namespace and name. *)
Notation workload_id := (GroupVersionResource * string * string)%type.

(** The part of the cluster that the laws speak of. *)
Class ScaleObservers `{ScaleClient} := {
  sc_replicas : Target -> workload_id -> option Z;
  sc_items : Target -> GroupVersionResource -> string -> string -> list Item;
  sc_namespaces : Target -> string -> list string;
  sc_healthy : Target -> Prop;
}.

Definition served_spec (n : Z) : nested := if n =? 0 then NestedMissing else NestedFound n.
Definition written_replicas (v : nested) : Z := match v with NestedFound n => n | _ => 0 end.

Definition replicas_after {A} (q : ScaleRequest A) :
  ApiError + A -> (workload_id -> option Z) -> (workload_id -> option Z) -> Prop :=
  match q in ScaleRequest A return
    ApiError + A -> (workload_id -> option Z) -> (workload_id -> option Z) -> Prop with
  | GetScale gvr ns name => fun r before after =>
      (forall id, after id = before id) /\
      match r with
      | inr scale => scale_Name scale = name /\
          exists n, before (gvr, ns, name) = Some n /\ scale_spec scale = served_spec n
      | inl _ => True
      end
  | UpdateScale gvr ns scale => fun r before after =>
      match r with
      | inr _ => is_Some (before (gvr, ns, scale_Name scale)) /\
          forall id, after id = if decide (id = (gvr, ns, scale_Name scale))
                                then Some (written_replicas (scale_spec scale)) else before id
      | inl _ => forall id, after id = before id
      end
  | _ => fun _ before after => forall id, after id = before id
  end.

Class ScaleLaws `{HS : ScaleClient} {HO : ScaleObservers} : Prop := {
  serve_items {A} (q : ScaleRequest A) c gvr ns sel :
    sc_items (serve_scale q c).2 gvr ns sel = sc_items c gvr ns sel;
  serve_namespaces {A} (q : ScaleRequest A) c sel :
    sc_namespaces (serve_scale q c).2 sel = sc_namespaces c sel;
  serve_replicas {A} (q : ScaleRequest A) c :
    replicas_after q (serve_scale q c).1 (sc_replicas c) (sc_replicas (serve_scale q c).2);
  replicas_range c id n : sc_replicas c id = Some n -> 0 <= n < 2 ^ 31;
  list_answer gvr ns sel c items :
    (serve_scale (ListWorkloads gvr ns sel) c).1 = inr items -> items = sc_items c gvr ns sel;
  namespaces_answer sel c l :
    (serve_scale (ListNamespaces sel) c).1 = inr l -> l = sc_namespaces c sel;
  item_names c gvr ns sel item : item ∈ sc_items c gvr ns sel ->
    item_Namespace item = ns /\
    Forall (fun s => is_ascii s = true)
      [gvr_Group gvr; gvr_Version gvr; gvr_Resource gvr; item_Kind item; ns; item_Name item];
  healthy_serve {A} (q : ScaleRequest A) c : sc_healthy c -> sc_healthy (serve_scale q c).2;
  healthy_list gvr ns sel c : sc_healthy c ->
    exists items, (serve_scale (ListWorkloads gvr ns sel) c).1 = inr items;
  healthy_namespaces sel c : sc_healthy c ->
    exists l, (serve_scale (ListNamespaces sel) c).1 = inr l;
  healthy_get gvr ns name c : sc_healthy c -> is_Some (sc_replicas c (gvr, ns, name)) ->
    exists scale, (serve_scale (GetScale gvr ns name) c).1 = inr scale;
  healthy_update gvr ns scale c : sc_healthy c -> is_Some (sc_replicas c (gvr, ns, scale_Name scale)) ->
    0 <= written_replicas (scale_spec scale) < 2 ^ 31 ->
    exists scale', (serve_scale (UpdateScale gvr ns scale) c).1 = inr scale';
}.

(** ** States and their encoding *)

Definition state_id (s : WorkloadState) : workload_id := (GetGVR s, ws_Namespace s, ws_Name s).
Definition state_key (s : WorkloadState) : string :=
  workload_key (ws_Namespace s) (ws_Kind s) (ws_Name s).

Record state_wf (s : WorkloadState) : Prop := {
  wf_ascii : Forall (fun t => is_ascii t = true)
    [ws_Group s; ws_Version s; ws_Resource s; ws_Kind s; ws_Namespace s; ws_Name s];
  wf_replicas : in_int32 (ws_Replicas s);
}.

Section encoding.
Context {HT : JSONText} {HTL : JSONTextLaws}.

Lemma workload_fields_canonical s : state_wf s -> map_Forall (fun _ v => scalar_canonical v) (workload_fields s).
Proof.
  intros [Ha Hr]. rewrite !Forall_cons in Ha. destruct Ha as (?&?&?&?&?&?&_). unfold workload_fields.
  repeat (apply map_Forall_insert_2; [by (try apply quote_canonical; try apply number_canonical)|]).
  apply map_Forall_empty.
Qed.

(** [null] is not the encoding of a string or a number. *)
Lemma parse_workload_fields s :
  state_wf s -> parse_workload (object_text (workload_fields s)) = Some s.
Proof.
  intros Hs. unfold parse_workload.
  rewrite object_roundtrip by (by apply workload_fields_canonical). destruct Hs as [Ha Hr].
  rewrite !Forall_cons in Ha. destruct Ha as (Hg&Hv&Hre&Hk&Hns&Hna&_). simpl.
  rewrite (string_member_quote _ "group" (ws_Group s)) by done. simpl.
  rewrite (string_member_quote _ "version" (ws_Version s)) by done. simpl.
  rewrite (string_member_quote _ "resource" (ws_Resource s)) by done. simpl.
  rewrite (string_member_quote _ "kind" (ws_Kind s)) by done. simpl.
  rewrite (string_member_quote _ "namespace" (ws_Namespace s)) by done. simpl.
  rewrite (string_member_quote _ "name" (ws_Name s)) by done. simpl.
  rewrite (int32_member_sprint _ "replicas" (ws_Replicas s)) by done. simpl.
  by destruct s.
Qed.
End encoding.

(** ** The workloads a specification selects *)

Section selection.
Context {HS : ScaleClient} {HSO : ScaleObservers}.
Context (params : WorkloadScalerParameters).

Definition workloads_at (c : Target) (gvr : GroupVersionResource) (ns sel : string) : list (string * workload_id) :=
  (fun item => (item_key item, (gvr, ns, item_Name item))) <$> sc_items c gvr ns sel.

Definition workloads_of (c : Target) (ns kind : string) : list (string * workload_id) :=
  match resolveGVR kind, LabelSelectorAsSelector (wsp_WorkloadSelector params) with
  | Some gvr, Some sel => workloads_at c gvr ns sel
  | _, _ => []
  end.

Definition workloads_in (c : Target) (kinds : list string) (ns : string) : list (string * workload_id) :=
  kinds ≫= workloads_of c ns.

Definition target_namespaces (c : Target) : list string :=
  let sel := wsp_Namespace params in
  if bool_decide (nss_Literals sel <> []) then nss_Literals sel
  else if bool_decide (nss_Selector sel <> ∅) then sc_namespaces c (SelectorFromSet (nss_Selector sel))
  else [].

(** With the keys under which they are reported. *)
Definition selected (c : Target) : list (string * workload_id) :=
  target_namespaces c ≫= workloads_in c (included_groups params).

(** No workload is selected twice, and no two share a key. *)
Definition distinct (l : list (string * workload_id)) : Prop := NoDup l.*1 /\ NoDup l.*2.
End selection.

Lemma distinct_app l k : distinct (l ++ k) -> distinct l /\ distinct k /\
  forall w v, w ∈ l -> v ∈ k -> w.1 <> v.1 /\ w.2 <> v.2.
Proof.
  unfold distinct. rewrite !fmap_app, !NoDup_app. intros [(H1&H2&H3) (H4&H5&H6)].
  split; [done|]. split; [done|]. intros w v Hw Hv. split; intros He.
  - apply (H2 w.1); [by apply list_elem_of_fmap_2|]. rewrite He. by apply list_elem_of_fmap_2.
  - apply (H5 w.2); [by apply list_elem_of_fmap_2|]. rewrite He. by apply list_elem_of_fmap_2.
Qed.

(** Two clusters that list the same. *)
Definition same_listing `{HS : ScaleClient} {HSO : ScaleObservers} (c c' : Target) : Prop :=
  (forall gvr ns sel, sc_items c' gvr ns sel = sc_items c gvr ns sel) /\
  (forall sel, sc_namespaces c' sel = sc_namespaces c sel).

Lemma same_listing_refl `{HS : ScaleClient} {HSO : ScaleObservers} c : same_listing c c.
Proof. done. Qed.

Lemma same_listing_trans `{HS : ScaleClient} {HSO : ScaleObservers} c c' c'' :
  same_listing c c' -> same_listing c' c'' -> same_listing c c''.
Proof. intros [H1 H2] [H3 H4]. split; intros; [rewrite H3; apply H1|rewrite H4; apply H2]. Qed.

Lemma workloads_in_same `{HS : ScaleClient} {HSO : ScaleObservers} params c c' kinds ns :
  same_listing c c' -> workloads_in params c' kinds ns = workloads_in params c kinds ns.
Proof.
  intros [H _]. apply list_bind_ext; [|done]. intros kind.
  unfold workloads_of, workloads_at. repeat (split_match; try done). by rewrite H.
Qed.

Lemma selected_same `{HS : ScaleClient} {HSO : ScaleObservers} params c c' :
  same_listing c c' -> selected params c' = selected params c.
Proof.
  intros Hl. unfold selected, target_namespaces. rewrite (proj2 Hl).
  apply list_bind_ext; [|done]. intros ns. by apply workloads_in_same.
Qed.

(** ** Requests *)

Section requests.
Context {HS : ScaleClient} {HSO : ScaleObservers} {HL : ScaleLaws}.

Lemma serve_same_listing {B} (q : ScaleRequest B) c : same_listing c (serve_scale q c).2.
Proof. split; intros; [apply serve_items|apply serve_namespaces]. Qed.

End requests.

(** ** Shutdown *)

Section shutdown.
Context {HS : ScaleClient} {HSO : ScaleObservers} {HL : ScaleLaws}.
Context {HT : JSONText} {HTL : JSONTextLaws}.
Context (clock : nat -> time) (params : WorkloadScalerParameters).

(** What a report says: the workload had this count when the run began, and has
    none now; it was scaled when the count was not zero already. *)
Record reported_state (c1 c : Target) (st : WorkloadState) : Prop := {
  rep_wf : state_wf st;
  rep_selected : (state_key st, state_id st) ∈ selected params c1;
  rep_replicas : sc_replicas c1 (state_id st) = Some (ws_Replicas st);
  rep_scaled : ws_WasScaled st = negb (ws_Replicas st =? 0);
  rep_zero : sc_replicas c (state_id st) = Some 0;
}.

(** A run that began in the cluster [c1] and has the workloads [rest] ahead. *)
Record shut_inv (c1 : Target) (rest : list (string * workload_id)) (s : Run Target WorkloadState Accumulator) : Prop := {
  si_listing : same_listing c1 (run_target s);
  si_reports k v : acc_state (run_acc s) !! k = Some v ->
    exists st, v = AnyMap (workload_fields st) /\ k = state_key st /\ reported_state c1 (run_target s) st;
  si_replicas id : sc_replicas (run_target s) id = sc_replicas c1 id \/
    exists st, acc_state (run_acc s) !! state_key st = Some (AnyMap (workload_fields st)) /\
               state_id st = id /\ ws_WasScaled st = true /\ state_wf st;
  si_reportedAt : dom (acc_reportedAt (run_acc s)) = dom (acc_state (run_acc s));
  si_rest w : w ∈ rest ->
    acc_state (run_acc s) !! w.1 = None /\ sc_replicas (run_target s) w.2 = sc_replicas c1 w.2;
}.

Lemma shut_inv_rest c1 rest rest' s : rest' ⊆ rest -> shut_inv c1 rest s -> shut_inv c1 rest' s.
Proof. intros Hr []. split; auto. Qed.

(** A request that changes no count. *)
Lemma shut_inv_read c1 rest s {B} (q : ScaleRequest B) :
  (forall id, sc_replicas (serve_scale q (run_target s)).2 id = sc_replicas (run_target s) id) ->
  shut_inv c1 rest s -> shut_inv c1 rest (set_run_target (serve_scale q (run_target s)).2 s).
Proof.
  intros Hq [H1 H2 H3 H4 H5]. split; cbn in *.
  - apply (same_listing_trans _ (run_target s)); [done|apply serve_same_listing].
  - intros k v Hk. destruct (H2 k v Hk) as (st & -> & -> & [? ? ? ? ?]).
    exists st. split_and!; [done..|]. split; try done. by rewrite Hq.
  - intros id. rewrite Hq. apply H3.
  - done.
  - intros w Hw. rewrite Hq. by apply H5.
Qed.

Lemma item_state_key gvr item n found : state_key (item_state gvr item n found) = item_key item.
Proof. done. Qed.

Lemma item_state_id gvr item n found :
  state_id (item_state gvr item n found) = (gvr, item_Namespace item, item_Name item).
Proof. by destruct gvr. Qed.

(** The next of [rest] is scaled, if it is not at zero, and reported. *)
Lemma shut_inv_visit c1 rest s st c2 l n :
  shut_inv c1 ((state_key st, state_id st) :: rest) s ->
  distinct ((state_key st, state_id st) :: rest) ->
  state_wf st -> (state_key st, state_id st) ∈ selected params c1 ->
  sc_replicas c1 (state_id st) = Some (ws_Replicas st) -> ws_WasScaled st = negb (ws_Replicas st =? 0) ->
  same_listing (run_target s) c2 ->
  (forall id, sc_replicas c2 id = if decide (id = state_id st) then Some 0 else sc_replicas (run_target s) id) ->
  shut_inv c1 rest
    (mkRun c2 l (mkAccumulator (<[state_key st := AnyMap (workload_fields st)]> (acc_state (run_acc s)))
       (<[state_key st := clock (acc_reports (run_acc s))]> (acc_reportedAt (run_acc s))) n)).
Proof.
  intros [H1 H2 H3 H4 H5] Hd Hwf Hsel Hr Hsc Hc Hc2.
  destruct (H5 (state_key st, state_id st) ltac:(by left)) as [Hnew Hcur]. cbn in Hnew, Hcur.
  destruct (distinct_app [(state_key st, state_id st)] rest Hd) as (_ & _ & Hne). split; cbn.
  - by apply (same_listing_trans _ (run_target s)).
  - intros k v. rewrite lookup_insert_Some. intros [[<- <-]|[Hk Hv]].
    + exists st. split_and!; [done..|]. split; try done. rewrite Hc2. by rewrite decide_True.
    + destruct (H2 k v Hv) as (st' & -> & -> & [? ? ? ? ?]). exists st'. split_and!; [done..|].
      split; try done. rewrite Hc2. by case_decide.
  - intros id. rewrite Hc2. case_decide as He.
    + subst id. destruct (ws_WasScaled st) eqn:E.
      * right. exists st. by rewrite lookup_insert_eq.
      * left. rewrite Hr. symmetry in Hsc. reflect. by rewrite Hsc.
    + destruct (H3 id) as [H|(st' & Hk & Hid & Hs & Hw)]; [by left|]. right. exists st'.
      rewrite lookup_insert_ne; [done|]. congruence.
  - by rewrite !dom_insert_L, H4.
  - intros w Hw. destruct (Hne (state_key st, state_id st) w) as [Hk Hid]; [by left|done|]. cbn in Hk, Hid.
    destruct (H5 w) as [Hn Hw2]; [by right|]. rewrite lookup_insert_ne, Hc2 by done.
    by rewrite decide_False by congruence.
Qed.

(** A report runs to its end and appends to the accumulator. *)
Lemma report_run {E} key st (s : Run Target WorkloadState Accumulator) : state_wf st ->
  report (E:=E) (Some (acc_add clock)) key (state_report st) s =
    (Ok tt, set_run_acc (mkAccumulator (<[key := AnyMap (workload_fields st)]> (acc_state (run_acc s)))
       (<[key := clock (acc_reports (run_acc s))]> (acc_reportedAt (run_acc s))) (S (acc_reports (run_acc s)))) s).
Proof.
  intros Hwf. unfold report, state_report, acc_add, st_bind, st_try, st_lift, st_modify, accumulated. cbn.
  by rewrite object_roundtrip by (by apply workload_fields_canonical).
Qed.

Local Arguments report : simpl never.
Local Arguments wait_for : simpl never.

(** One workload. *)
Lemma scale_down_item_inv c1 gvr ns sel item rest stats :
  item ∈ sc_items c1 gvr ns sel ->
  (item_key item, (gvr, ns, item_Name item)) ∈ selected params c1 ->
  distinct ((item_key item, (gvr, ns, item_Name item)) :: rest) ->
  hoare (shut_inv c1 ((item_key item, (gvr, ns, item_Name item)) :: rest))
    (scale_down_item (Some (acc_add clock)) params gvr ns item stats)
    (fun _ => shut_inv c1 rest) (fun _ => shut_inv c1 []).
Proof.
  intros Hitem Hsel Hd. unfold scale_down_item.
  destruct (item_names _ _ _ _ _ Hitem) as [Hns Hascii].
  apply hoare_request. intros s Hs. pose proof (serve_replicas (GetScale gvr ns (item_Name item)) (run_target s)) as Hq.
  pose proof (shut_inv_read _ _ _ (GetScale gvr ns (item_Name item)) (proj1 Hq) Hs) as Hs2.
  pose proof (serve_same_listing (GetScale gvr ns (item_Name item)) (run_target s)) as Hlist.
  destruct (serve_scale (GetScale gvr ns (item_Name item)) (run_target s)) as [[e|scale] c2] eqn:E; cbn in *.
  - assert (shut_inv c1 rest (set_run_target c2 s)) as Hrest.
    { apply (shut_inv_rest _ _ rest) in Hs2; [done|]. by intros w Hw; right. }
    destruct e; apply hoare_ret; by intros ? ->.
  - destruct Hq as [Hsame (Hname & n & Hn & Hspec)].
    assert (sc_replicas c1 (gvr, ns, item_Name item) = Some n) as Hn1.
    { rewrite <- Hn. symmetry. by apply (si_rest _ _ _ Hs (item_key item, (gvr, ns, item_Name item)) ltac:(by left)). }
    pose proof (replicas_range _ _ _ Hn) as Hrange.
    set (st := item_state gvr item n (negb (n =? 0))).
    assert (state_wf st) as Hwf.
    { split; [cbn; by rewrite Hns|]. apply int32_range. }
    assert (ws_Replicas st = n) as Hrep by (apply int32_id; unfold in_int32; lia).
    assert (state_id st = (gvr, ns, item_Name item)) as Hid by (unfold st; by rewrite item_state_id, Hns).
    change (item_key item) with (state_key st) in *. rewrite <- Hid in *.
    assert (forall c3 l m, same_listing (run_target s) c3 ->
      (forall id, sc_replicas c3 id = if decide (id = state_id st) then Some 0 else sc_replicas (run_target s) id) ->
      shut_inv c1 rest (mkRun c3 l (mkAccumulator
         (<[state_key st := AnyMap (workload_fields st)]> (acc_state (run_acc s)))
         (<[state_key st := clock (acc_reports (run_acc s))]> (acc_reportedAt (run_acc s))) m))) as Hvisit.
    { intros c3 l m Hl Hc3. apply shut_inv_visit; try done; rewrite Hrep; done. }
    rewrite Hspec. unfold served_spec. destruct (n =? 0) eqn:E0; cbn.
    + intros s' ->. unfold st_bind. change (item_state gvr item 0 false) with (item_state gvr item 0 (negb true)).
      reflect. subst n. fold st. rewrite report_run by done. cbn.
      apply Hvisit; [done|]. intros id. rewrite Hsame. by case_decide as H; [rewrite H|].
    + change (item_state gvr item n true) with st.
      apply hoare_request. intros s2 ->. cbn.
      set (q2 := UpdateScale gvr ns (mkScale (scale_Name scale) (NestedFound 0) (scale_status scale))).
      pose proof (serve_replicas q2 c2) as Hq2. pose proof (serve_same_listing q2 c2) as Hlist2.
      destruct (serve_scale q2 c2) as [[e|u] c3] eqn:E2; cbn in *.
      * pose proof (shut_inv_read c1 ((state_key st, state_id st) :: rest) (set_run_target c2 s) q2) as Hr. cbn in Hr. rewrite E2 in Hr.
        specialize (Hr Hq2 Hs2).
        destruct e; [apply hoare_ret|apply hoare_throw|apply hoare_throw]; intros ? ->;
          (eapply shut_inv_rest; [|exact Hr]); set_solver.
      * intros s3 ->. unfold st_bind. destruct (wait_for_run (E:=ScalerError) (wsp_AwaitCompletion params) st (set_run_target c3 (set_run_target c2 s))) as [l ->].
        rewrite report_run by done. cbn. apply Hvisit.
        -- by apply (same_listing_trans _ c2).
        -- intros id. destruct Hq2 as [_ Hq2]. rewrite Hq2, Hname, Hsame, Hid. done.
Qed.

(** The loops: [rest] is what the enclosing loops still have ahead. *)
Lemma scale_down_items_inv c1 gvr ns sel items rest stats :
  let todo := (fun item => (item_key item, (gvr, ns, item_Name item))) <$> items in
  items ⊆ sc_items c1 gvr ns sel -> todo ⊆ selected params c1 -> distinct (todo ++ rest) ->
  hoare (shut_inv c1 (todo ++ rest)) (scale_down_items (Some (acc_add clock)) params gvr ns items stats)
    (fun _ => shut_inv c1 rest) (fun _ => shut_inv c1 []).
Proof.
  revert stats. induction items as [|item items IH]; intros stats todo Hi Hsel Hd; [by apply hoare_ret|].
  cbn in todo. unfold todo in *. cbn [app] in *. apply (hoare_bind (fun _ => shut_inv c1
    (((fun item => (item_key item, (gvr, ns, item_Name item))) <$> items) ++ rest))).
  - apply (scale_down_item_inv c1 gvr ns sel); [set_solver|set_solver|done].
  - intros stats'. apply IH; [set_solver|set_solver|].
    by apply (distinct_app [_] _) in Hd as (_&Hd&_).
Qed.

Lemma scaleDownWorkloads_inv c1 gvr ns sel rest :
  LabelSelectorAsSelector (wsp_WorkloadSelector params) = Some sel ->
  workloads_at c1 gvr ns sel ⊆ selected params c1 -> distinct (workloads_at c1 gvr ns sel ++ rest) ->
  hoare (shut_inv c1 (workloads_at c1 gvr ns sel ++ rest))
    (scaleDownWorkloads (Some (acc_add clock)) params gvr ns)
    (fun _ => shut_inv c1 rest) (fun _ => shut_inv c1 []).
Proof.
  intros Hsel Hw Hd. unfold scaleDownWorkloads. rewrite Hsel.
  apply hoare_request. intros s Hs.
  pose proof (shut_inv_read _ _ _ (ListWorkloads gvr ns sel) (serve_replicas (ListWorkloads gvr ns sel) (run_target s)) Hs) as Hs2.
  pose proof (list_answer gvr ns sel (run_target s)) as Hl.
  destruct (serve_scale (ListWorkloads gvr ns sel) (run_target s)) as [[e|items] c2]; cbn in *.
  - destruct e; [apply hoare_ret|apply hoare_throw|apply hoare_throw]; intros ? ->;
      (eapply shut_inv_rest; [|exact Hs2]); set_solver.
  - rewrite (Hl items eq_refl), (proj1 (si_listing _ _ _ Hs)).
    eapply hoare_pre; [by apply (scale_down_items_inv c1 gvr ns sel)|]. by intros ? ->.
Qed.

Lemma scale_down_kinds_inv c1 ns kinds rest stats :
  workloads_in params c1 kinds ns ⊆ selected params c1 -> distinct (workloads_in params c1 kinds ns ++ rest) ->
  hoare (shut_inv c1 (workloads_in params c1 kinds ns ++ rest))
    (scale_down_kinds (Some (acc_add clock)) params ns kinds stats)
    (fun _ => shut_inv c1 rest) (fun _ => shut_inv c1 []).
Proof.
  revert stats. induction kinds as [|kind kinds IH]; intros stats Hw Hd; [by apply hoare_ret|].
  cbn [scale_down_kinds]. destruct (resolveGVR kind) as [gvr|] eqn:Eg.
  2: { apply hoare_throw. intros s Hs. eapply shut_inv_rest; [|exact Hs]. set_solver. }
  destruct (LabelSelectorAsSelector (wsp_WorkloadSelector params)) as [sel|] eqn:Es.
  2: { intros s Hs. unfold st_bind, scaleDownWorkloads. rewrite Es.
       eapply shut_inv_rest; [|exact Hs]. set_solver. }
  assert (workloads_in params c1 (kind :: kinds) ns = workloads_at c1 gvr ns sel ++ workloads_in params c1 kinds ns) as Heq.
  { unfold workloads_in. simpl. unfold workloads_of at 1. by rewrite Eg, Es. }
  rewrite Heq, <- (assoc_L app) in *.
  apply (hoare_bind (fun _ => shut_inv c1 (workloads_in params c1 kinds ns ++ rest))).
  - apply (scaleDownWorkloads_inv c1 gvr ns sel); [done|set_solver|done].
  - intros counts. apply IH; [set_solver|]. by apply distinct_app in Hd as (_&Hd&_).
Qed.

Lemma scale_down_namespaces_inv c1 namespaces stats :
  let todo := namespaces ≫= workloads_in params c1 (included_groups params) in
  todo ⊆ selected params c1 -> distinct todo ->
  hoare (shut_inv c1 todo)
    (scale_down_namespaces (Some (acc_add clock)) params (included_groups params) namespaces stats)
    (fun _ => shut_inv c1 []) (fun _ => shut_inv c1 []).
Proof.
  revert stats. induction namespaces as [|ns namespaces IH]; intros stats todo Hw Hd; [by apply hoare_ret|].
  cbn in todo. unfold todo in *.
  apply (hoare_bind (fun _ => shut_inv c1 (namespaces ≫= workloads_in params c1 (included_groups params)))).
  - apply scale_down_kinds_inv; [set_solver|done].
  - intros stats'. apply IH; [set_solver|]. by apply distinct_app in Hd as (_&Hd&_).
Qed.

(** ** The whole operation *)

Context {HP : ParamsJSON} {HM : MapOrder}.
Context (observe : WorkloadState -> Target * list (poll_event Target)).

Lemma replicas_scaled_returns gvr ns name desired c :
  completed (replicas_scaled gvr ns name desired c).
Proof. unfold replicas_scaled. by repeat split_match. Qed.

Lemma waitForReplicasScaled_no_panic desired timeout st :
  waitForReplicasScaled observe desired timeout st <> Panic.
Proof.
  apply wait_until_no_panic. intros c.
  pose proof (replicas_scaled_returns (GetGVR st) (ws_Namespace st) (ws_Name st) (desired st) c).
  by destruct (replicas_scaled _ _ _ _ _).
Qed.

Lemma scale_down_namespaces_completes {A} (callback : option (ReportStateCallback A)) kinds namespaces stats :
  (forall f key v, callback = Some f -> completes (f key v)) ->
  completes (scale_down_namespaces callback params kinds namespaces stats).
Proof.
  intros Hf.
  assert (forall key v, completes (report (T:=Target) (W:=WorkloadState) (E:=ScalerError) callback key v)) as Hrep.
  { intros key v. apply report_completes. intros f. apply Hf. }
  assert (forall gvr ns items st, completes (scale_down_items callback params gvr ns items st)) as Hitems.
  { intros gvr ns items. induction items as [|item items IH]; intros st; [done|]. simpl.
    apply completes_bind; [|done]. unfold scale_down_item. apply completes_bind; [apply completes_request|].
    intros [e|scale]; [by destruct e|].
    destruct (NestedInt64 _) as [[n [] ]|]; [| |done].
    - destruct (SetNestedField _ _); [|done]. apply completes_bind; [apply completes_request|].
      intros [e|u]; [by destruct e|]. apply completes_bind; [apply wait_for_completes|]. intros _. by apply completes_bind.
    - by apply completes_bind. }
  assert (forall ns l st, completes (scale_down_kinds callback params ns l st)) as Hkinds.
  { intros ns l. induction l as [|kind l IH]; intros st; [done|]. simpl.
    destruct (resolveGVR kind); [|done]. apply completes_bind; [|done]. unfold scaleDownWorkloads.
    destruct (LabelSelectorAsSelector _); [|done]. apply completes_bind; [apply completes_request|].
    intros [e|items]; [by destruct e|done]. }
  revert stats. induction namespaces as [|ns l IH]; intros stats; [done|]. simpl. by apply completes_bind.
Qed.

(** The parameters of a specification. *)
Definition spec_params (spec : Spec) : option WorkloadScalerParameters :=
  decode_params zero_ScalerParameters parse_scaler_params (es_Parameters spec).

Lemma parse_params_run {A} spec (s : Run Target WorkloadState A) :
  parse_params spec s =
    (match spec_params spec with Some p => Ok p | None => Err ErrParseParameters end, s).
Proof. unfold parse_params, spec_params. by destruct (decode_params _ _ _). Qed.

(** Before the first request nothing is reported and nothing has changed. *)
Lemma shut_inv_start c1 l :
  shut_inv c1 (selected params c1) (mkRun c1 l NewAccumulator).
Proof. split; try done. intros id. by left. Qed.

Lemma discoverNamespaces_inv c1 :
  hoare (shut_inv c1 (selected params c1)) (discoverNamespaces (wsp_Namespace params))
    (fun l s => shut_inv c1 (selected params c1) s /\ l = target_namespaces params c1)
    (fun _ => shut_inv c1 []).
Proof.
  unfold discoverNamespaces, target_namespaces. destruct (bool_decide (nss_Literals _ <> [])); [by apply hoare_ret|].
  destruct (bool_decide (nss_Selector _ <> ∅)).
  2: { apply hoare_throw. intros s Hs. eapply shut_inv_rest; [|exact Hs]. set_solver. }
  apply hoare_wrap. intros s Hs. set (sel := SelectorFromSet _).
  pose proof (shut_inv_read _ _ _ (ListNamespaces sel) (serve_replicas (ListNamespaces sel) (run_target s)) Hs) as Hs2.
  pose proof (namespaces_answer sel (run_target s)) as Hl.
  unfold request, st_lift, ask.
  destruct (serve_scale (ListNamespaces sel) (run_target s)) as [[e|l] c2]; cbn in *.
  - eapply shut_inv_rest; [|exact Hs2]. set_solver.
  - split; [done|]. rewrite (Hl l eq_refl). apply (si_listing _ _ _ Hs).
Qed.

(** A shutdown in any cluster that obeys the laws, whichever requests fail: at
    its end, however it ends, the reports tell what has changed. *)
Lemma scaler_Shutdown_inv c1 spec l :
  spec_params spec = Some params -> distinct (selected params c1) ->
  let '(r, s') := scaler_Shutdown observe spec (Some (acc_add clock)) (mkRun c1 l NewAccumulator) in
  r <> Panic /\ shut_inv c1 [] s'.
Proof.
  intros Hp Hd. unfold scaler_Shutdown. unfold st_bind at 1, st_modify, set_run_waiting. cbn [run_target run_acc].
  pose proof (shut_inv_start c1 []) as H0.
  assert (shut_inv c1 [] (mkRun c1 [] NewAccumulator)) as H0' by (eapply shut_inv_rest; [|exact H0]; set_solver).
  unfold st_bind at 1. rewrite parse_params_run, Hp. unfold st_bind at 1, build_clients.
  destruct (clientFactory spec); [|cbn; by split]. cbn [st_ret].
  pose proof (discoverNamespaces_inv c1 _ H0) as Hns. unfold st_bind at 1.
  assert (completes (A:=list string) (discoverNamespaces (A:=Accumulator) (wsp_Namespace params))) as Hc.
  { unfold discoverNamespaces. destruct (bool_decide _); [done|]. destruct (bool_decide _); [|done].
    apply completes_wrap, completes_lift. intros c. unfold ask. by destruct (serve_scale _ c) as [[e|a] c']. }
  specialize (Hc (mkRun c1 [] NewAccumulator)).
  destruct (discoverNamespaces _ _) as [[nss|e| |] s1]; try done. destruct Hns as [Hs1 ->].
  destruct (bool_decide (target_namespaces params c1 = [])).
  { split; [done|]. eapply shut_inv_rest; [|exact Hs1]. set_solver. }
  pose proof (scale_down_namespaces_inv c1 (target_namespaces params c1) no_stats
                (fun w Hw => Hw) Hd s1 Hs1) as Hloop.
  pose proof (scale_down_namespaces_completes (Some (acc_add clock)) (included_groups params)
                (target_namespaces params c1) no_stats) as Hc2.
  unfold st_bind at 1. specialize (Hc2 ltac:(by intros f k v [= <-]) s1).
  destruct (scale_down_namespaces _ _ _ _ _ s1) as [[stats|e| |] s2]; try done.
  unfold st_bind. awaited (waitForReplicasScaled_no_panic (fun _ => 0)) r Hnp Hne Hoff. by destruct r.
Qed.
End shutdown.
