(* ===== verification/ScalerWake.v ===== *)
(** * Waking up, runs in a healthy cluster, and the cycle of the scaler

    A wakeup changes nothing but the counts of the workloads it was given as
    scaled, and those to what it was given; in a healthy cluster it reaches all of
    them.  A shutdown in a healthy cluster leaves every selected workload at
    zero.  The last part shows that the scaler keeps the contract of [Cycle]. *)
From S2P Require Import Prelude Monad GoString GoTime Types Cluster Restore RestoreSpec Params Executor Operation.
From S2P Require Import WorkloadScaler Runner Cycle ScalerSpec.
From Stdlib Require Import Lia.

Local Open Scope Z_scope.

Local Arguments wait_for : simpl never.
Local Arguments await_message : simpl never.

Section wakeup.
Context {HS : ScaleClient} {HSO : ScaleObservers} {HL : ScaleLaws}.
Context {HT : JSONText} {HP : ParamsJSON} {HM : MapOrder}.
Context (observe : WorkloadState -> Target * list (poll_event Target)).
Context (data : gmap string string).

(** A state that the data hold as scaled. *)
Definition scaled_in (st : WorkloadState) : Prop :=
  exists k text, data !! k = Some text /\ parse_workload text = Some st /\ ws_WasScaled st = true.

(** What a wakeup from [c1] may have done. *)
Record wake_inv (c1 : Target) (s : Run Target WorkloadState unit) : Prop := {
  wi_listing : same_listing c1 (run_target s);
  wi_replicas id : sc_replicas (run_target s) id = sc_replicas c1 id \/
    exists st, scaled_in st /\ state_id st = id /\
      sc_replicas (run_target s) id = Some (ws_Replicas st) /\ is_Some (sc_replicas c1 id);
}.

Lemma wake_inv_Some c1 s id : wake_inv c1 s -> is_Some (sc_replicas (run_target s) id) <-> is_Some (sc_replicas c1 id).
Proof. intros [_ H]. destruct (H id) as [->|(st & _ & _ & -> & Hs)]; [done|]. by split. Qed.

Lemma wake_inv_same c1 s c2 :
  wake_inv c1 s -> same_listing (run_target s) c2 ->
  (forall id, sc_replicas c2 id = sc_replicas (run_target s) id) -> wake_inv c1 (set_run_target c2 s).
Proof.
  intros [H1 H2] Hl Hr. split; cbn; [by eapply same_listing_trans|]. intros id. rewrite Hr. apply H2.
Qed.

(** One restored workload: the counts afterwards, and whether it is applied. *)
Lemma restoreWorkload_spec c1 params st s :
  scaled_in st -> wake_inv c1 s ->
  exists r c2 l, restoreWorkload params st s = (r, mkRun c2 l tt) /\ completed r /\
    wake_inv c1 (mkRun c2 l tt) /\
    (sc_healthy (run_target s) -> is_Some (sc_replicas (run_target s) (state_id st)) ->
       0 <= ws_Replicas st < 2 ^ 31 -> r = Ok operationOutcomeApplied /\ sc_healthy c2 /\
       forall id, sc_replicas c2 id = if decide (id = state_id st) then Some (ws_Replicas st)
                                      else sc_replicas (run_target s) id) /\
    (sc_healthy (run_target s) -> sc_replicas (run_target s) (state_id st) = None ->
       sc_healthy c2 /\ forall id, sc_replicas c2 id = sc_replicas (run_target s) id).
Proof.
  intros Hst Hs. unfold restoreWorkload. set (q := GetScale (GetGVR st) (ws_Namespace st) (ws_Name st)).
  unfold st_bind at 1. rewrite try_request. pose proof (serve_replicas q (run_target s)) as Hq.
  pose proof (serve_same_listing q (run_target s)) as Hl. pose proof (healthy_serve q (run_target s)) as Hh.
  pose proof (healthy_get (GetGVR st) (ws_Namespace st) (ws_Name st) (run_target s)) as Hg. fold q in Hg.
  destruct s as [c l []]. cbn [run_target] in *. destruct (serve_scale q c) as [[e|scale] c2] eqn:E; cbn in Hq, Hl, Hh, Hg |- *.
  - destruct Hq as [Hq _]. assert (wake_inv c1 (mkRun c2 l tt)) as Hw.
    { by apply (wake_inv_same c1 (mkRun c l tt)). }
    exists (if decide (e = NotFound) then Ok operationOutcomeSkippedStale else Err (ErrGetScale e)), c2, l.
    split_and!; [by destruct e|by destruct e|done| |by split; auto].
    intros Hc Hid. destruct (Hg Hc Hid) as [x Hx]. done.
  - destruct Hq as [Hq (Hname & n & Hn & Hspec)].
    assert (SetNestedField (ws_Replicas st) (scale_spec scale) = Some (NestedFound (ws_Replicas st))) as ->.
    { rewrite Hspec. unfold served_spec. by destruct (n =? 0). }
    set (q2 := UpdateScale _ _ _). unfold st_bind at 1. rewrite try_request. cbn [run_target set_run_target].
    pose proof (serve_replicas q2 c2) as Hq2. pose proof (serve_same_listing q2 c2) as Hl2.
    pose proof (healthy_serve q2 c2) as Hh2.
    pose proof (healthy_update (GetGVR st) (ws_Namespace st)
                  (mkScale (scale_Name scale) (NestedFound (ws_Replicas st)) (scale_status scale)) c2) as Hu.
    fold q2 in Hu. cbn in Hu. rewrite Hname in Hu.
    destruct (serve_scale q2 c2) as [[e|u] c3] eqn:E2; cbn in Hq2, Hl2, Hh2, Hu |- *.
    + exists (if decide (e = NotFound) then Ok operationOutcomeSkippedStale else Err (ErrUpdateScale e)), c3, l.
      assert (wake_inv c1 (mkRun c3 l tt)) as Hw.
      { apply (wake_inv_same c1 (mkRun c l tt)); cbn; [done|by eapply same_listing_trans|]. intros id. by rewrite Hq2. }
      split_and!; [by destruct e|by destruct e|done| |].
      * intros Hc Hid Hrange. destruct (Hu (Hh Hc)) as [x Hx]; [|done..]. rewrite Hq. done.
      * intros Hc Hid. split; [by auto|]. intros id. by rewrite Hq2, Hq.
    + destruct (wait_for_run (E:=ScalerError) (wsp_AwaitCompletion params) st (mkRun c3 l tt)) as [l' Hwait]. unfold st_bind.
      change (set_run_target c3 (set_run_target c2 (mkRun c l tt))) with (mkRun c3 l tt). rewrite Hwait.
      exists (Ok operationOutcomeApplied), c3, l'. destruct Hq2 as [Hsome Hq2]. rewrite Hname in Hq2, Hsome.
      fold (state_id st) in Hq2, Hsome.
      assert (forall id, sc_replicas c3 id =
        if decide (id = state_id st) then Some (ws_Replicas st) else sc_replicas c id) as Hc3.
      { intros id. rewrite Hq2. case_decide; [done|]. apply Hq. }
      split_and!; [done|done| | |].
      * split; cbn; [by eapply same_listing_trans; [apply Hs|]; eapply same_listing_trans|].
        intros id. rewrite Hc3. case_decide as Hd; [|apply (wi_replicas _ _ Hs)]. right. exists st.
        subst id. split_and!; [done..|]. rewrite Hq in Hsome. by rewrite <- (wake_inv_Some _ _ _ Hs).
      * intros Hc _ _. split_and!; [done|by auto|done].
      * intros Hc Hid. rewrite Hq, Hid in Hsome. by destruct Hsome.
Qed.

(** The loop over the records. *)
Lemma wake_items_inv c1 params keys stats s :
  wake_inv c1 s ->
  completed (wake_entries (wake_item params) data keys stats s).1 /\ wake_inv c1 (wake_entries (wake_item params) data keys stats s).2.
Proof.
  revert stats s. induction keys as [|k keys IH]; intros stats s Hs; [done|]. simpl.
  destruct (data !! k) as [text|] eqn:Ek; [|by apply IH].
  unfold wake_item. destruct (parse_workload text) as [st|] eqn:Est; [|done].
  destruct (ws_WasScaled st) eqn:Esc; [|by apply IH].
  assert (scaled_in st) as Hst by (by exists k, text).
  destruct (restoreWorkload_spec c1 params st s Hst Hs) as (r & c2 & l & Hrun & Hr & Hw & _ & _).
  unfold st_bind. rewrite Hrun. destruct r as [o|e| |]; try done. by apply IH.
Qed.

(** Two records of one workload agree, and every recorded workload is there. *)
Definition consistent (c1 : Target) : Prop :=
  (forall st st', scaled_in st -> scaled_in st' -> state_id st = state_id st' -> ws_Replicas st = ws_Replicas st') /\
  (forall st, scaled_in st -> is_Some (sc_replicas c1 (state_id st)) /\ 0 <= ws_Replicas st < 2 ^ 31) /\
  (forall k text, data !! k = Some text -> exists st, parse_workload text = Some st).

(** In a healthy cluster the records of the keys [keys], and those that were
    restored before, are restored at the end of the loop. *)
Lemma wake_items_total c1 params keys stats s :
  consistent c1 -> sc_healthy (run_target s) -> wake_inv c1 s ->
  exists stats' s', wake_entries (wake_item params) data keys stats s = (Ok stats', s') /\
    sc_healthy (run_target s') /\ wake_inv c1 s' /\
    forall st, scaled_in st ->
      (exists k text, k ∈ keys /\ data !! k = Some text /\ parse_workload text = Some st) \/
      sc_replicas (run_target s) (state_id st) = Some (ws_Replicas st) ->
      sc_replicas (run_target s') (state_id st) = Some (ws_Replicas st).
Proof.
  intros (Hagree & Hsome & Hparse). revert stats s.
  induction keys as [|k keys IH]; intros stats s Hh Hs.
  { exists stats, s. split_and!; try done. intros st _ [(k & text & Hk & _)|H]; [by apply elem_of_nil in Hk|done]. }
  assert (forall s', (forall st, scaled_in st ->
      (exists k' text, k' ∈ k :: keys /\ data !! k' = Some text /\ parse_workload text = Some st) \/
      sc_replicas (run_target s) (state_id st) = Some (ws_Replicas st) ->
      (exists k' text, k' ∈ keys /\ data !! k' = Some text /\ parse_workload text = Some st) \/
      sc_replicas (run_target s') (state_id st) = Some (ws_Replicas st)) ->
    sc_healthy (run_target s') -> wake_inv c1 s' -> forall stats,
    exists stats' s'', wake_entries (wake_item params) data keys stats s' = (Ok stats', s'') /\
    sc_healthy (run_target s'') /\ wake_inv c1 s'' /\
    forall st, scaled_in st ->
      (exists k' text, k' ∈ k :: keys /\ data !! k' = Some text /\ parse_workload text = Some st) \/
      sc_replicas (run_target s) (state_id st) = Some (ws_Replicas st) ->
      sc_replicas (run_target s'') (state_id st) = Some (ws_Replicas st)) as Hnext.
  { intros s' Hk Hh' Hs' stats'. destruct (IH stats' s' Hh' Hs') as (st' & s'' & Hrun & Hh'' & Hs'' & Hd).
    exists st', s''. split_and!; try done. intros st Hst Hor. apply Hd; [done|]. by apply Hk. }
  simpl. destruct (data !! k) as [text|] eqn:Ek.
  2: { apply Hnext; try done. intros st _ [(k' & text & Hk & Hd & Hp)|H]; [|by right].
       left. exists k', text. apply elem_of_cons in Hk as [->|Hk]; [congruence|done]. }
  unfold wake_item. destruct (Hparse k text Ek) as [st Est]. rewrite Est.
  destruct (ws_WasScaled st) eqn:Esc.
  - assert (scaled_in st) as Hst by (by exists k, text).
    destruct (restoreWorkload_spec c1 params st s Hst Hs) as (r & c2 & l & Hrun & _ & Hw & Htot & _).
    destruct (Hsome st Hst) as [Hst2 Hrange].
    destruct (Htot Hh) as (-> & Hh2 & Hc2); [by rewrite (wake_inv_Some _ _ _ Hs)|done|].
    unfold st_bind. rewrite Hrun. cbn [st_ret]. apply Hnext; [|done..].
    intros st' Hst' Hor. cbn. rewrite Hc2. case_decide as Hid; [right; f_equal; by apply Hagree|].
    destruct Hor as [(k' & text' & Hk & Hd & Hp)|H]; [|by right].
    apply elem_of_cons in Hk as [->|Hk]; [congruence|]. left. by exists k', text'.
  - unfold st_bind. cbn [st_ret]. apply Hnext; [|done..].
    intros st' Hst' [(k' & text' & Hk & Hd & Hp)|H]; [|by right].
    apply elem_of_cons in Hk as [->|Hk]; [|left; by exists k', text'].
    destruct Hst' as (k2 & t2 & _ & _ & Hsc'). exfalso. congruence.
Qed.

(** A wakeup in any cluster that obeys the laws. *)
Lemma scaler_WakeUp_inv c1 spec t live :
  let '(r, s') := scaler_WakeUp observe spec (mkRestoreData t data live) (mkRun c1 [] tt) in
  r <> Panic /\ wake_inv c1 s'.
Proof.
  unfold scaler_WakeUp. unfold st_bind at 1. cbn [st_modify set_run_waiting run_target run_acc rd_Data].
  assert (wake_inv c1 (mkRun c1 [] tt)) as H0 by (split; [done|]; intros id; by left).
  destruct (bool_decide _); [done|]. unfold st_bind at 1. rewrite parse_params_run.
  destruct (spec_params spec) as [params|]; [|done]. unfold st_bind at 1, build_clients.
  destruct (clientFactory spec); [|cbn; by split]. cbn [st_ret].
  change (set_run_waiting [] (mkRun c1 [] tt)) with (mkRun (W:=WorkloadState) c1 [] tt).
  set (stats0 := mkStats _ _ _).
  destruct (wake_items_inv c1 params (restore_order data) stats0 _ H0) as [Hc Hw].
  unfold st_bind at 1. destruct (wake_entries _ _ _ _ _) as [[stats|e| |] s1]; try done.
  unfold st_bind. awaited (waitForReplicasScaled_no_panic observe ws_Replicas) r Hnp Hne Hoff. by destruct r.
Qed.

(** A wakeup in a healthy cluster restores what is recorded, unless a wait that
    was asked for never ends. *)
Lemma scaler_WakeUp_total c1 spec params t live :
  spec_params spec = Some params -> clientFactory spec = true ->
  consistent c1 -> sc_healthy c1 ->
  let '(r, s') := scaler_WakeUp observe spec (mkRestoreData t data live) (mkRun c1 [] tt) in
  sc_healthy (run_target s') /\ wake_inv c1 s' /\
  (forall st, scaled_in st -> sc_replicas (run_target s') (state_id st) = Some (ws_Replicas st)) /\
  (await_Enabled (wsp_AwaitCompletion params) = false -> exists result, r = Ok result) /\
  (forall e, r <> Err e).
Proof.
  intros Hp Hf Hc Hh. unfold scaler_WakeUp. unfold st_bind at 1. cbn [st_modify set_run_waiting run_target run_acc rd_Data].
  assert (wake_inv c1 (mkRun c1 [] tt)) as H0 by (split; [done|]; intros id; by left).
  case_bool_decide as Hd.
  { split_and!; try done; [|by eexists]. intros st (k & text & Hk & _). by rewrite Hd, lookup_empty in Hk. }
  unfold st_bind at 1. rewrite parse_params_run, Hp. unfold st_bind at 1, build_clients. rewrite Hf. cbn [st_ret].
  change (set_run_waiting [] (mkRun c1 [] tt)) with (mkRun (W:=WorkloadState) c1 [] tt).
  set (stats0 := mkStats _ _ _). unfold st_bind at 1.
  destruct (wake_items_total c1 params (restore_order data) stats0 (mkRun c1 [] tt) Hc Hh H0) as (stats & s1 & -> & Hh1 & Hw & Hall).
  unfold st_bind. awaited (waitForReplicasScaled_no_panic observe ws_Replicas) r Hnp Hne Hoff.
  assert (forall st, scaled_in st -> sc_replicas (run_target s1) (state_id st) = Some (ws_Replicas st)) as Hres.
  { intros st Hst. apply Hall; [done|]. left. destruct Hst as (k & text & Hk & Hpa & _).
    exists k, text. split; [by eapply elem_of_restore_order|done]. }
  destruct r as [msg|e| |]; [|by destruct (Hne e)|done|]; split_and!; try done.
  - by eexists.
  - intros H. by specialize (Hoff H).
Qed.
End wakeup.

(** ** Shutdown in a healthy cluster *)

Section healthy_shutdown.
Context {HS : ScaleClient} {HSO : ScaleObservers} {HL : ScaleLaws}.
Context {HT : JSONText} {HP : ParamsJSON} {HM : MapOrder}.
Context (observe : WorkloadState -> Target * list (poll_event Target)).
Context (clock : nat -> time) (params : WorkloadScalerParameters).
Notation callback := (Some (acc_add clock)).

(** The workloads [ids] go to zero, if they have a scale; nothing else changes. *)
Record zeroed (ids : list workload_id) (c c' : Target) : Prop := {
  ze_listing : same_listing c c';
  ze_healthy : sc_healthy c';
  ze_replicas id : sc_replicas c' id =
    if decide (id ∈ ids) then (fun _ => 0) <$> sc_replicas c id else sc_replicas c id;
}.

Lemma zeroed_nil c : sc_healthy c -> zeroed [] c c.
Proof. intros H. by split. Qed.

Lemma zeroed_app ids ids' c c' c'' : zeroed ids c c' -> zeroed ids' c' c'' -> zeroed (ids ++ ids') c c''.
Proof.
  intros [H1 H2 H3] [H4 H5 H6]. split; [by eapply same_listing_trans|done|]. intros id.
  rewrite H6, H3. pose proof (elem_of_app ids ids' id) as Happ.
  destruct (decide (id ∈ ids)), (decide (id ∈ ids')), (decide (id ∈ ids ++ ids')); try tauto; by destruct (sc_replicas c id).
Qed.

(** [m] returns and zeroes the workloads [ids], which may depend on the listing. *)
Definition zeroes {B} (ids : Target -> list workload_id) (m : M (A:=Accumulator) B) : Prop :=
  succeeds (fun s => sc_healthy (run_target s)) m (fun _ _ => True) /\
  forall s, sc_healthy (run_target s) -> zeroed (ids (run_target s)) (run_target s) (run_target (m s).2).

Lemma zeroes_bind {B C} ids ids' (m : M B) (k : B -> M C) :
  (forall c c', same_listing c c' -> ids' c' = ids' c) ->
  zeroes ids m -> (forall b, zeroes ids' (k b)) -> zeroes (fun c => ids c ++ ids' c) (st_bind m k).
Proof.
  intros Hids [Hm1 Hm2] Hk. split.
  - intros s Hs. specialize (Hm2 s Hs). destruct (Hm1 s Hs) as (b & s' & Hr & _). unfold st_bind. rewrite Hr in *.
    apply (Hk b). apply Hm2.
  - intros s Hs. specialize (Hm2 s Hs). destruct (Hm1 s Hs) as (b & s' & Hr & _). unfold st_bind. rewrite Hr in *.
    cbn in Hm2. eapply zeroed_app; [done|]. rewrite <- (Hids _ _ (ze_listing _ _ _ Hm2)). apply (Hk b), Hm2.
Qed.

Lemma zeroes_ret {B} (b : B) : zeroes (fun _ => []) (st_ret b).
Proof. split; [by apply succeeds_ret|]. intros s Hs. by apply zeroed_nil. Qed.

Lemma report_total key st (s : Run Target WorkloadState Accumulator) :
  exists acc, report (E:=ScalerError) callback key st s = (Ok tt, set_run_acc acc s).
Proof. by eexists. Qed.

Local Arguments report : simpl never.

Lemma scale_down_item_zeroes gvr ns item stats :
  zeroes (fun _ => [(gvr, ns, item_Name item)]) (scale_down_item callback params gvr ns item stats).
Proof.
  assert (forall s, sc_healthy (run_target s) -> exists stats' s',
    scale_down_item callback params gvr ns item stats s = (Ok stats', s') /\
    zeroed [(gvr, ns, item_Name item)] (run_target s) (run_target s')) as H.
  2: { split.
       - intros s Hs. destruct (H s Hs) as (stats' & s' & Hr & _). by exists stats', s'.
       - intros s Hs. destruct (H s Hs) as (stats' & s' & Hr & Hz). by rewrite Hr. }
  intros [c l acc] Hc. cbn in Hc. unfold scale_down_item. set (q := GetScale gvr ns (item_Name item)).
  unfold st_bind at 1. rewrite try_request. cbn [run_target].
  pose proof (serve_replicas q c) as Hq. pose proof (serve_same_listing q c) as Hl.
  pose proof (healthy_serve q c Hc) as Hh. pose proof (healthy_get gvr ns (item_Name item) c Hc) as Hg. fold q in Hg.
  destruct (serve_scale q c) as [[e|scale] c2]; cbn in Hq, Hl, Hh, Hg |- *.
  - destruct Hq as [Hq _].
    assert (zeroed [(gvr, ns, item_Name item)] c c2) as Hz.
    { split; [done..|]. intros id. rewrite Hq. case_decide as Hd; [|done].
      apply list_elem_of_singleton in Hd as ->. destruct (sc_replicas c _) eqn:E; [|done]. by destruct Hg. }
    exists (match e with NotFound => inc_skipped (inc_processed stats) | _ => inc_processed stats end), (mkRun c2 l acc).
    split; [by destruct e|done].
  - destruct Hq as [Hq (Hname & n & Hn & Hspec)]. rewrite Hspec. unfold served_spec. destruct (n =? 0) eqn:E0; cbn.
    + reflect. subst n. unfold st_bind.
      match goal with |- context [report _ ?k ?st ?s] => destruct (report_total k st s) as [acc' ->] end.
      eexists _, _. split; [done|]. cbn. split; [done..|]. intros id. rewrite Hq. case_decide as Hd; [|done].
      apply list_elem_of_singleton in Hd as ->. by rewrite Hn.
    + set (q2 := UpdateScale _ _ _). unfold st_bind at 1. rewrite try_request. cbn [run_target set_run_target].
      pose proof (serve_replicas q2 c2) as Hq2. pose proof (serve_same_listing q2 c2) as Hl2.
      pose proof (healthy_serve q2 c2 Hh) as Hh2.
      pose proof (healthy_update gvr ns (mkScale (scale_Name scale) (NestedFound 0) (scale_status scale)) c2 Hh) as Hu.
      fold q2 in Hu. cbn in Hu. rewrite Hname, Hq, Hn in Hu. destruct (Hu ltac:(by eexists) ltac:(done)) as [u Hu'].
      destruct (serve_scale q2 c2) as [r c3]. cbn in Hu', Hq2, Hl2, Hh2 |- *. subst r. cbn.
      destruct Hq2 as [_ Hq2]. rewrite Hname in Hq2. unfold st_bind.
      match goal with |- context [wait_for _ ?st ?s] => destruct (wait_for_run (E:=ScalerError) (wsp_AwaitCompletion params) st s) as [l' ->] end.
      match goal with |- context [report _ ?k ?st ?s] => destruct (report_total k st s) as [acc' ->] end.
      eexists _, _. split; [done|]. cbn. split; [by eapply same_listing_trans|done|].
      intros id. rewrite Hq2, Hq. destruct (decide (id = (gvr, ns, item_Name item))) as [->|Hd].
      * rewrite decide_True by (by apply list_elem_of_singleton). by rewrite Hn.
      * by rewrite decide_False by (by intros Hin; apply list_elem_of_singleton in Hin).
Qed.

(** Along the loops. *)
Lemma scale_down_items_zeroes gvr ns items stats :
  zeroes (fun _ => (fun item => (gvr, ns, item_Name item)) <$> items)
    (scale_down_items callback params gvr ns items stats).
Proof.
  revert stats. induction items as [|item items IH]; intros stats; [apply zeroes_ret|].
  apply (zeroes_bind (fun _ => [(gvr, ns, item_Name item)])); [done|apply scale_down_item_zeroes|done].
Qed.

Lemma scaleDownWorkloads_zeroes gvr ns sel :
  LabelSelectorAsSelector (wsp_WorkloadSelector params) = Some sel ->
  zeroes (fun c => (workloads_at c gvr ns sel).*2) (scaleDownWorkloads callback params gvr ns).
Proof.
  intros Hsel. unfold scaleDownWorkloads. rewrite Hsel. set (q := ListWorkloads gvr ns sel).
  assert (forall s : Run Target WorkloadState Accumulator, sc_healthy (run_target s) ->
    exists items c2, serve_scale q (run_target s) = (inr items, c2) /\ items = sc_items (run_target s) gvr ns sel /\
      zeroed [] (run_target s) c2) as Hq.
  { intros s Hs. destruct (healthy_list gvr ns sel (run_target s) Hs) as [items Hi]. fold q in Hi.
    pose proof (serve_replicas q (run_target s)) as Hr. pose proof (list_answer gvr ns sel (run_target s)) as Ha.
    pose proof (serve_same_listing q (run_target s)) as Hl. pose proof (healthy_serve q (run_target s) Hs) as Hh.
    fold q in Ha. destruct (serve_scale q (run_target s)) as [r c2]. cbn in *. subst r. exists items, c2.
    split_and!; [done|by apply Ha|]. split; [done..|]. intros id. by rewrite Hr, decide_False by apply not_elem_of_nil. }
  split.
  - intros s Hs. unfold st_bind. rewrite try_request. destruct (Hq s Hs) as (items & c2 & -> & -> & Hz). cbn.
    apply (scale_down_items_zeroes gvr ns _ no_stats). apply Hz.
  - intros s Hs. unfold st_bind. rewrite try_request. destruct (Hq s Hs) as (items & c2 & -> & -> & Hz). cbn.
    destruct (scale_down_items_zeroes gvr ns (sc_items (run_target s) gvr ns sel) no_stats) as [_ Hit].
    specialize (Hit (set_run_target c2 s) (ze_healthy _ _ _ Hz)). cbn in Hit.
    pose proof (zeroed_app _ _ _ _ _ Hz Hit) as H. cbn in H. unfold workloads_at. by rewrite <- list_fmap_compose.
Qed.

Lemma scale_down_kinds_zeroes ns kinds stats sel :
  LabelSelectorAsSelector (wsp_WorkloadSelector params) = Some sel ->
  Forall (fun kind => is_Some (resolveGVR kind)) kinds ->
  zeroes (fun c => (workloads_in params c kinds ns).*2) (scale_down_kinds callback params ns kinds stats).
Proof.
  intros Hsel Hk. revert stats. induction Hk as [|kind kinds [gvr Hg] Hk IH]; intros stats; [apply zeroes_ret|].
  cbn [scale_down_kinds]. rewrite Hg.
  assert (forall c, (workloads_in params c (kind :: kinds) ns).*2 =
                    (workloads_at c gvr ns sel).*2 ++ (workloads_in params c kinds ns).*2) as Heq.
  { intros c. unfold workloads_in. simpl. unfold workloads_of at 1. by rewrite Hg, Hsel, fmap_app. }
  split.
  - apply (zeroes_bind (fun c => (workloads_at c gvr ns sel).*2) (fun c => (workloads_in params c kinds ns).*2));
      [|by apply scaleDownWorkloads_zeroes|done]. intros c c' Hl. by rewrite (workloads_in_same params c c').
  - intros s Hs. rewrite Heq. revert s Hs.
    apply (zeroes_bind (fun c => (workloads_at c gvr ns sel).*2) (fun c => (workloads_in params c kinds ns).*2));
      [|by apply scaleDownWorkloads_zeroes|done]. intros c c' Hl. by rewrite (workloads_in_same params c c').
Qed.

Lemma scale_down_namespaces_zeroes namespaces stats sel :
  LabelSelectorAsSelector (wsp_WorkloadSelector params) = Some sel ->
  Forall (fun kind => is_Some (resolveGVR kind)) (included_groups params) ->
  zeroes (fun c => (namespaces ≫= workloads_in params c (included_groups params)).*2)
    (scale_down_namespaces callback params (included_groups params) namespaces stats).
Proof.
  intros Hsel Hk. revert stats. induction namespaces as [|ns namespaces IH]; intros stats; [apply zeroes_ret|].
  assert (forall c, ((ns :: namespaces) ≫= workloads_in params c (included_groups params)).*2 =
     (workloads_in params c (included_groups params) ns).*2 ++
     (namespaces ≫= workloads_in params c (included_groups params)).*2) as Heq by (intros c; apply fmap_app).
  assert (forall c c', same_listing c c' ->
     (namespaces ≫= workloads_in params c' (included_groups params)).*2 =
     (namespaces ≫= workloads_in params c (included_groups params)).*2) as Hsame.
  { intros c c' Hl. f_equal. apply list_bind_ext; [|done]. intros n. by apply workloads_in_same. }
  pose proof (zeroes_bind _ _ _ _ Hsame (scale_down_kinds_zeroes ns (included_groups params) stats sel Hsel Hk) IH) as [Ht Hz].
  split; [exact Ht|]. intros s Hs. rewrite Heq. by apply Hz.
Qed.

(** The whole operation. *)
Lemma scaler_Shutdown_total c1 spec l sel :
  spec_params spec = Some params -> clientFactory spec = true ->
  LabelSelectorAsSelector (wsp_WorkloadSelector params) = Some sel ->
  Forall (fun kind => is_Some (resolveGVR kind)) (included_groups params) ->
  target_namespaces params c1 <> [] -> sc_healthy c1 ->
  let '(r, s') := scaler_Shutdown observe spec callback (mkRun c1 l NewAccumulator) in
  zeroed (selected params c1).*2 c1 (run_target s') /\ (forall e, r <> Err e) /\
  (await_Enabled (wsp_AwaitCompletion params) = false -> exists result, r = Ok result).
Proof.
  intros Hp Hf Hsel Hk Hne Hh. unfold scaler_Shutdown. unfold st_bind at 1, st_modify, set_run_waiting. cbn [run_target run_acc].
  unfold st_bind at 1. rewrite parse_params_run, Hp. unfold st_bind at 1, build_clients. rewrite Hf. cbn [st_ret].
  assert (exists c2, discoverNamespaces (wsp_Namespace params) (mkRun c1 [] NewAccumulator) =
    (Ok (target_namespaces params c1), mkRun c2 [] NewAccumulator) /\ zeroed [] c1 c2) as (c2 & Hns & Hz).
  { unfold discoverNamespaces, target_namespaces in *.
    destruct (bool_decide (nss_Literals _ <> [])); [exists c1; split; [done|by apply zeroed_nil]|].
    destruct (bool_decide (nss_Selector _ <> ∅)); [|done]. set (nsel := SelectorFromSet _).
    unfold st_wrap, request, st_lift, ask. cbn [run_target].
    destruct (healthy_namespaces nsel c1 Hh) as [nss Hi]. set (q := ListNamespaces nsel) in *.
    pose proof (serve_replicas q c1) as Hr. pose proof (namespaces_answer nsel c1) as Ha.
    pose proof (serve_same_listing q c1) as Hl. pose proof (healthy_serve q c1 Hh) as Hh2.
    fold q in Ha. destruct (serve_scale q c1) as [r c2]. cbn in *. subst r. exists c2. rewrite (Ha nss eq_refl).
    split; [done|]. split; [done..|]. intros id. by rewrite Hr, decide_False by apply not_elem_of_nil. }
  unfold st_bind at 1. rewrite Hns. rewrite bool_decide_eq_false_2 by done.
  destruct (scale_down_namespaces_zeroes (target_namespaces params c1) no_stats sel Hsel Hk) as [Ht Hz2].
  destruct (Ht (mkRun c2 [] NewAccumulator) (ze_healthy _ _ _ Hz)) as (stats & s2 & Hrun & _).
  specialize (Hz2 (mkRun c2 [] NewAccumulator) (ze_healthy _ _ _ Hz)). rewrite Hrun in Hz2. cbn in Hz2.
  unfold st_bind at 1. rewrite Hrun.
  assert (zeroed (selected params c1).*2 c1 (run_target s2)) as Hz3.
  { pose proof (zeroed_app _ _ _ _ _ Hz Hz2) as H. cbn in H.
    rewrite <- (selected_same params c1 c2) by apply Hz. unfold selected.
    assert (target_namespaces params c2 = target_namespaces params c1) as ->; [|done].
    unfold target_namespaces. by rewrite (proj2 (ze_listing _ _ _ Hz)). }
  unfold st_bind. awaited (waitForReplicasScaled_no_panic observe (fun _ => 0)) r Hnp Hne2 Hoff.
  destruct r as [msg|e| |]; [|by destruct (Hne2 e)|done|]; split_and!; try done.
  - by eexists.
  - intros H. by specialize (Hoff H).
Qed.
End healthy_shutdown.

(** ** The workload scaler in the runner

    The workload scaler keeps the contract of [Cycle]; its resources are the
    workloads of the target cluster, with their replica counts. *)

Local Arguments scaler_Shutdown : simpl never.
Local Arguments scaler_WakeUp : simpl never.

Lemma NoDup_fmap_inj {A B} (f : A -> B) l x y : NoDup (f <$> l) -> x ∈ l -> y ∈ l -> f x = f y -> x = y.
Proof.
  induction l as [|z l IH]; [by intros _ ?%elem_of_nil|]. cbn. rewrite NoDup_cons, !elem_of_cons.
  intros [Hn Hd] [->|Hx] [->|Hy] He; try done.
  - exfalso. apply Hn. rewrite He. by apply list_elem_of_fmap_2.
  - exfalso. apply Hn. rewrite <- He. by apply list_elem_of_fmap_2.
  - by apply IH.
Qed.

Section instance.
Context {HS : ScaleClient} {HSO : ScaleObservers} {HL : ScaleLaws}.
Context {HT : JSONText} {HTL : JSONTextLaws} {HP : ParamsJSON} {HM : MapOrder}.
Context (spec : Spec) (params : WorkloadScalerParameters).
Hypothesis Hparams : spec_params spec = Some params.

Record captured_wf (st : WorkloadState) : Prop := {
  cw_wf : state_wf st;
  cw_range : 0 <= ws_Replicas st < 2 ^ 31;
  cw_scaled : ws_WasScaled st = negb (ws_Replicas st =? 0);
}.

#[export] Instance scaler_hibernation : Hibernation Target := {|
  h_resource := workload_id;
  h_resource_dec := _;
  h_value := Z;
  h_state := WorkloadState;
  h_look := sc_replicas;
  h_linked c k id := (k, id) ∈ selected params c;
  h_ready c := distinct (selected params c);
  h_healthy c := sc_healthy c /\ clientFactory spec = true;
  h_awaits := await_Enabled (wsp_AwaitCompletion params);
  st_key := state_key;
  st_id := state_id;
  st_value := ws_Replicas;
  st_down _ := Some 0;
  st_scaled := ws_WasScaled;
  st_fields := workload_fields;
  st_wf := captured_wf;
|}.

Lemma fields_inj st st' :
  state_wf st -> state_wf st' -> workload_fields st = workload_fields st' -> st = st'.
Proof.
  intros H H' He. pose proof (parse_workload_fields st H) as Hp. rewrite He, parse_workload_fields in Hp by done.
  congruence.
Qed.

Lemma distinct_key l (k : string) (i i' : workload_id) : distinct l -> (k, i) ∈ l -> (k, i') ∈ l -> i = i'.
Proof.
  intros [Hk _] H H'. apply (f_equal snd (x := (k, i)) (y := (k, i'))).
  by apply (NoDup_fmap_inj fst l).
Qed.

Lemma distinct_id l (k k' : string) (i : workload_id) : distinct l -> (k, i) ∈ l -> (k', i) ∈ l -> k = k'.
Proof.
  intros [_ Hi] H H'. apply (f_equal fst (x := (k, i)) (y := (k', i))).
  by apply (NoDup_fmap_inj snd l).
Qed.

Lemma listing_links c c' : same_listing c c' -> same_links c c'.
Proof. intros H k i. cbn. by rewrite (selected_same params c c'). Qed.

Lemma listing_ready c c' : same_listing c c' -> h_ready c -> h_ready c'.
Proof. intros H Hc. cbn. by rewrite (selected_same params c c'). Qed.

(** The invariant of the shutdown is the contract. *)
Lemma shut_inv_post c s : h_ready c -> shut_inv params c [] s -> shut_post c (run_target s) (run_acc s).
Proof.
  intros Hc [Hl Hr Hv Ha _]. split; [by eapply listing_ready|by apply listing_links|done| |].
  - intros k v Hk. destruct (Hr k v Hk) as (st & -> & -> & [H1 H2 H3 H4 H5]). exists st. split_and!; [done..|].
    split; [|done..]. split; [done| |done]. by eapply replicas_range.
  - intros i. destruct (Hv i) as [H|(st & Hk & Hid & Hsc & Hwf)]; [by left|]. right. exists st.
    destruct (Hr _ _ Hk) as (st' & He & _ & [H1 H2 H3 H4 H5]). apply AnyMap_inj in He.
    assert (st' = st) as -> by (symmetry; by apply fields_inj).
    split_and!; [done..| |by rewrite <- Hid]. split; [done| |done]. by eapply replicas_range.
Qed.

(** What a wakeup reads in the data it is given. *)
Lemma holds_scaled data st : encoded data -> scaled_in data st <-> holds data st /\ ws_WasScaled st = true.
Proof.
  intros Henc. split.
  - intros (k & text & Hk & Hp & Hsc). destruct (Henc k text Hk) as (st' & -> & -> & Hwf).
    cbn in Hp. rewrite parse_workload_fields in Hp by apply Hwf. injection Hp as ->. done.
  - intros [[Hk Hwf] Hsc]. exists (state_key st), (object_text (workload_fields st)).
    split_and!; [done| |done]. apply parse_workload_fields, Hwf.
Qed.

Lemma fitting_consistent data c : fitting data c -> consistent data c.
Proof.
  intros [He Hl Hv Ha]. split_and!.
  - intros st st' [H Hsc]%holds_scaled [H' Hsc']%holds_scaled Hid; [|done..]. by apply Ha.
  - intros st [H Hsc]%holds_scaled; [|done]. split; [|apply H].
    destruct (Hv st H Hsc) as [Hc|Hc]; cbn in Hc; rewrite Hc; by eexists.
  - intros k text Hk. destruct (He k text Hk) as (st & -> & -> & Hwf). exists st. apply parse_workload_fields, Hwf.
Qed.

#[export] Instance scaler_hibernates : HibernationLaws workloadscaler spec.
Proof.
  split.
  - intros c. apply distinct_key.
  - intros c. apply distinct_id.
  - intros st st' [] [] _. by apply fields_inj.
  - intros st []. by apply workload_fields_canonical.
  - done.
  - intros st st' _ [_ _ Hsc] _ [= H]. cbn. rewrite Hsc. by apply negb_false_iff, Z.eqb_eq.
  - intros st st' _ _ Hsc Hd. cbn in Hsc, Hd. change (ws_WasScaled st' = false) in Hd. congruence.
  - intros observe clock c Hc. cbn.
    pose proof (scaler_Shutdown_inv clock params observe c spec [] Hparams Hc) as H.
    destruct (scaler_Shutdown _ _ _ _) as [r s]. destruct H as [Hr Hs]. split; [done|]. by apply shut_inv_post.
  - intros observe t data live c Hc Henc. cbn.
    pose proof (scaler_WakeUp_inv observe data c spec t live) as H.
    destruct (scaler_WakeUp _ _ _ _) as [r s]. destruct H as [Hr [Hl Hv]]. split; [done|].
    split; [by eapply listing_ready|by apply listing_links|].
    intros i. destruct (Hv i) as [H|(st & Hst & Hid & H & _)]; [by left|]. right. exists st.
    apply holds_scaled in Hst as [Hst Hsc]; [|done]. done.
  - intros observe t data live c Hc [Hh Hf] Hfit. cbn.
    pose proof (scaler_WakeUp_total observe data c spec params t live Hparams Hf (fitting_consistent data c Hfit) Hh) as H.
    destruct (scaler_WakeUp _ _ _ _) as [r s]. destruct H as (_ & _ & Hall & Hok & Hne).
    split_and!; [|done|done]. intros st Hst Hsc. apply Hall, holds_scaled; [apply Hfit|done].
Qed.
End instance.

Section claims.
Context {HK : KubeApi} {HKL : KubeLaws} {HJ : JSON} {HJL : JSONLaws}.
Context {HS : ScaleClient} {HSO : ScaleObservers} {HL : ScaleLaws}.
Context {HT : JSONText} {HTL : JSONTextLaws} {HP : ParamsJSON} {HM : MapOrder}.
Context (cfg : Config) (spec : Spec) (params : WorkloadScalerParameters).
Hypothesis Hparams : spec_params spec = Some params.

(** C3: after the runs of a cycle, a wakeup in a healthy cluster gives every
    workload the replica count that it had before the cycle, and does not fail. The
    runs of the cycle are shutdowns and wakeups, one after another, in any order,
    the first of them a shutdown; nothing else changes the workloads or the restore
    data meanwhile. Requests to the target's cluster may fail anywhere in the runs,
    but those that fail have changed nothing; requests to the hub, where the restore
    data are kept, do not fail, and the report of every shutdown is saved. Restore
    data that the cycle finds are of an earlier cycle. The selected workloads have
    different keys (the same kind is not listed twice), the client can be built, and
    at the time of the last wakeup the cluster answers. *)
Theorem wakeup_restores s0 s existing observe clk r s' :
  distinct (selected params (rs_target s0)) -> no_faults (rs_hub s0) ->
  loaded (rs_hub s0) (cfg_Namespace cfg) (cfg_Plan cfg) (cfg_Target cfg) = Ok existing ->
  (forall d, existing = Some d -> data_CycleID d <> cfg_CycleID cfg /\
     forall k, 0 <= StaleCount (status_of (data_Status d) k)) ->
  cycle_runs workloadscaler cfg spec s0 s -> sc_healthy (rs_target s) -> clientFactory spec = true ->
  executeOperation (workloadscaler observe) (set_operation "wakeup" cfg) clk spec s = (r, s') ->
  (forall id, sc_replicas (rs_target s') id = sc_replicas (rs_target s0) id) /\
  (forall e, r <> Err e) /\
  (await_Enabled (wsp_AwaitCompletion params) = false -> exists result, r = Ok result).
Proof.
  intros Hd Hf Hl Hex Hruns Hh Hc Hrun.
  exact (cycle_restores workloadscaler cfg spec (HH := scaler_hibernation spec params)
    (HL := scaler_hibernates spec params Hparams) s0 s existing observe clk r s' Hd Hf Hl Hex Hruns (conj Hh Hc) Hrun).
Qed.

(** C31: a shutdown in a healthy cluster scales every selected workload to zero, and
    nothing else, whatever becomes of its reports; it fails only by waiting. *)
Theorem shutdown_zeroes s observe clk sel r s' :
  cfg_Operation cfg = "shutdown"%string ->
  LabelSelectorAsSelector (wsp_WorkloadSelector params) = Some sel ->
  Forall (fun kind => is_Some (resolveGVR kind)) (included_groups params) ->
  target_namespaces params (rs_target s) <> [] -> sc_healthy (rs_target s) -> clientFactory spec = true ->
  executeOperation (workloadscaler observe) cfg clk spec s = (r, s') ->
  (forall id, sc_replicas (rs_target s') id =
     if decide (id ∈ (selected params (rs_target s)).*2)
     then (fun _ => 0) <$> sc_replicas (rs_target s) id else sc_replicas (rs_target s) id) /\
  (forall e, r <> Err e) /\
  (await_Enabled (wsp_AwaitCompletion params) = false -> exists result, r = Ok result).
Proof.
  intros Hop Hsel Hk Hne Hh Hc. unfold executeOperation. rewrite Hop. cbn.
  pose proof (scaler_Shutdown_total observe (rc_reports clk) params (rs_target s) spec [] sel
    Hparams Hc Hsel Hk Hne Hh) as Ht.
  destruct (shutdown_run_target (workloadscaler observe) cfg clk spec s) as [Hr1 Ht1].
  destruct (shutdown_run _ _ _ _ _) as [[o fl] s2]. cbn in Hr1, Ht1.
  destruct (scaler_Shutdown observe spec _ _) as [o' s1]. cbn in Hr1, Ht1. subst o.
  destruct Ht as ([_ _ Hz] & He & Ha). intros [= <- <-]. rewrite Ht1. split_and!; [done| |].
  - destruct o' as [a|e| |]; try done. by destruct (He e).
  - intros H. destruct (Ha H) as [a ->]. by eexists.
Qed.

End claims.
