(* ===== verification/RunnerSamples.v ===== *)
(** * A cluster in memory for the runner, and its runs

    [ScaleClient] has an instance that obeys the laws; the cluster lists what it is
    told to and answers from a list of outcomes.  The samples
    show what the hypotheses of the claims are for. *)
From S2P Require Import Prelude Monad GoString GoTime Types Cluster Memory Restore RestoreSpec.
From S2P Require Import Params Executor Operation ExecutorSamples WorkloadScaler Runner ScalerSpec ScalerWake Cycle.
From stdpp Require Import countable.
From Stdlib Require Import Lia.

Local Open Scope Z_scope.

(** ** The target cluster *)

#[export] Instance GVR_countable : Countable GroupVersionResource :=
  inj_countable' (fun g => (gvr_Group g, gvr_Version g, gvr_Resource g))
    (fun p => mkGVR p.1.1 p.1.2 p.2) ltac:(by intros []).

Record Workloads := mkWorkloads {
  wl_replicas : gmap workload_id Z;
  wl_items : list (GroupVersionResource * Item);
  wl_namespaces : list string;
  wl_faults : list (option ApiError);
}.

Definition set_wl_replicas (m : gmap workload_id Z) (c : Workloads) : Workloads :=
  mkWorkloads m (wl_items c) (wl_namespaces c) (wl_faults c).
Definition set_wl_faults (l : list (option ApiError)) (c : Workloads) : Workloads :=
  mkWorkloads (wl_replicas c) (wl_items c) (wl_namespaces c) l.

Definition listed (c : Workloads) (gvr : GroupVersionResource) (ns : string) : list Item :=
  snd <$> filter (fun p => p.1 = gvr /\ item_Namespace p.2 = ns) (wl_items c).

(** Counts outside of the range of the API are not served. *)
Definition count (c : Workloads) (id : workload_id) : option Z :=
  n ← wl_replicas c !! id; if (0 <=? n) && (n <? 2 ^ 31) then Some n else None.

(** Names that are not ASCII are not listed. *)
Definition names_ok (gvr : GroupVersionResource) (ns : string) (item : Item) : bool :=
  forallb is_ascii [gvr_Group gvr; gvr_Version gvr; gvr_Resource gvr; item_Kind item; ns; item_Name item].

Definition answer_scale {A} (q : ScaleRequest A) (c : Workloads) : (ApiError + A) * Workloads :=
  match q in ScaleRequest A return (ApiError + A) * Workloads with
  | ListNamespaces _ => (inr (wl_namespaces c), c)
  | ListWorkloads gvr ns _ => (inr (filter (fun item => names_ok gvr ns item = true) (listed c gvr ns)), c)
  | GetScale gvr ns name =>
      (match count c (gvr, ns, name) with
       | Some n => inr (mkScale name (served_spec n) (NestedFound n))
       | None => inl NotFound
       end, c)
  | UpdateScale gvr ns scale =>
      match count c (gvr, ns, scale_Name scale) with
      | Some _ =>
          let n := written_replicas (scale_spec scale) in
          if (0 <=? n) && (n <? 2 ^ 31)
          then (inr scale, set_wl_replicas (<[(gvr, ns, scale_Name scale) := n]> (wl_replicas c)) c)
          else (inl (ApiFailure "invalid"), c)
      | None => (inl NotFound, c)
      end
  end.

Definition serve_workloads {A} (q : ScaleRequest A) (c : Workloads) : (ApiError + A) * Workloads :=
  match wl_faults c with
  | [] => answer_scale q c
  | None :: l => answer_scale q (set_wl_faults l c)
  | Some e :: l => (inl e, set_wl_faults l c)
  end.

#[export] Instance workloads_client : ScaleClient := {|
  scale_service := {| World := Workloads; serve A q := serve_workloads q |};
  clientFactory _ := true;
  SelectorFromSet _ := "";
  selector_text _ := Some "";
|}.

#[export] Instance workloads_observers : ScaleObservers := {|
  sc_replicas c := count c;
  sc_items c gvr ns _ := filter (fun item => names_ok gvr ns item = true) (listed c gvr ns);
  sc_namespaces c _ := wl_namespaces c;
  sc_healthy c := wl_faults c = [];
|}.

Lemma answer_frame {A} (q : ScaleRequest A) c :
  wl_items (answer_scale q c).2 = wl_items c /\ wl_namespaces (answer_scale q c).2 = wl_namespaces c /\
  wl_faults (answer_scale q c).2 = wl_faults c.
Proof. destruct q; cbn; try done; by repeat split_match. Qed.

Lemma serve_frame {A} (q : ScaleRequest A) c :
  wl_items (serve_workloads q c).2 = wl_items c /\ wl_namespaces (serve_workloads q c).2 = wl_namespaces c /\
  wl_faults (serve_workloads q c).2 = tail (wl_faults c).
Proof.
  unfold serve_workloads. destruct (wl_faults c) as [|[e|] l] eqn:E; [|done|].
  - destruct (answer_frame q c) as (?&?&?). by rewrite E in *.
  - apply (answer_frame q (set_wl_faults l c)).
Qed.

Lemma count_insert c id n id' : 0 <= n < 2 ^ 31 ->
  count (set_wl_replicas (<[id := n]> (wl_replicas c)) c) id' = if decide (id' = id) then Some n else count c id'.
Proof.
  intros Hn. unfold count. cbn. case_decide as H.
  - subst id'. rewrite lookup_insert_eq. simpl. rewrite (proj2 (andb_true_iff _ _)); [done|].
    split; [apply Z.leb_le|apply Z.ltb_lt]; lia.
  - by rewrite lookup_insert_ne.
Qed.

Lemma answer_replicas {A} (q : ScaleRequest A) c :
  replicas_after q (answer_scale q c).1 (count c) (count (answer_scale q c).2).
Proof.
  destruct q as [sel|gvr ns sel|gvr ns name|gvr ns scale]; cbn; [done..| |].
  - split; [done|]. destruct (count c (gvr, ns, name)) as [n|] eqn:E; [|done]. split; [done|]. by exists n.
  - destruct (count c (gvr, ns, scale_Name scale)) as [n|] eqn:E; [|done].
    destruct (_ && _) eqn:Er; [|done]. reflect. split; [by eexists|]. intros id. by apply count_insert.
Qed.

#[export] Instance workloads_laws : ScaleLaws.
Proof.
  split.
  - intros A q c gvr ns sel. cbn. unfold listed. by rewrite (proj1 (serve_frame q c)).
  - intros A q c sel. cbn. apply (serve_frame q c).
  - intros A q c. cbn. unfold serve_workloads. destruct (wl_faults c) as [|[e|] l]; [apply answer_replicas| |].
    + destruct q; cbn; by try split.
    + apply (answer_replicas q (set_wl_faults l c)).
  - intros c id n. cbn. unfold count. destruct (wl_replicas c !! id) as [m|]; [|done]. simpl.
    destruct (_ && _) eqn:E; [|done]. intros [= ->]. reflect. lia.
  - intros gvr ns sel c items. cbn. unfold serve_workloads. destruct (wl_faults c) as [|[e|] l]; cbn; by intros [= <-].
  - intros sel c l. cbn. unfold serve_workloads. destruct (wl_faults c) as [|[e|] l']; cbn; by intros [= <-].
  - intros c gvr ns sel item. cbn. rewrite list_elem_of_filter. unfold listed. rewrite list_elem_of_fmap.
    intros [Hn ([g i] & -> & Hi)]. apply list_elem_of_filter in Hi as [[Hg Hns] _]. cbn in Hg, Hns |- *. split; [done|].
    reflect. by repeat constructor.
  - intros A q c. cbn. intros Hc. destruct (serve_frame q c) as (_&_&->). by rewrite Hc.
  - intros gvr ns sel c. cbn. intros Hc. unfold serve_workloads. rewrite Hc. by eexists.
  - intros sel c. cbn. intros Hc. unfold serve_workloads. rewrite Hc. by eexists.
  - intros gvr ns name c. cbn. intros Hc [n Hn]. unfold serve_workloads. rewrite Hc. cbn. rewrite Hn. by eexists.
  - intros gvr ns scale c. cbn. intros Hc [n Hn] Hr. unfold serve_workloads. rewrite Hc. cbn. rewrite Hn.
    rewrite (proj2 (andb_true_iff _ _)); [by eexists|]. split; [apply Z.leb_le|apply Z.ltb_lt]; lia.
Qed.

(** ** A target *)

Module RunnerSamples.
Import RestoreSpec.RestoreSamples.
Definition deployments : GroupVersionResource := mkGVR "apps" "v1" "deployments".
Definition workload (name : string) : workload_id := (deployments, "shop", name).
Definition deployment (name : string) : GroupVersionResource * Item := (deployments, mkItem name "shop" "Deployment").

(** Three deployments, one of which is at zero already; and another namespace. *)
Definition shop (faults : list (option ApiError)) : Workloads :=
  mkWorkloads {[ workload "web" := 3; workload "api" := 2; workload "job" := 0;
                 (deployments, "other", "db") := 7 ]}
    [deployment "web"; deployment "api"; deployment "job"] [] faults.

Definition shop_params (groups : list string) : WorkloadScalerParameters :=
  mkScalerParameters groups (mkNamespaceSelector ["shop"] ∅) None (mkAwaitCompletion false "").

#[export] Instance sample_params : ParamsJSON := {|
  parse_ec2_params _ := None;
  parse_rds_params _ := None;
  parse_eks_params _ := None;
  parse_karpenter_params _ := None;
  parse_gke_params _ := None;
  parse_cloudsql_params _ := None;
  parse_scaler_params text :=
    if (text =? "shop")%string then Some (shop_params [])
    else if (text =? "twice")%string then Some (shop_params ["Deployment"; "apps/v1/deployments"])
    else None;
  parse_noop_params _ := None;
|}.

Definition shop_spec (params : string) : Spec :=
  mkSpec "apps" "workloadscaler" params
    (mkConnectorConfig None (Some (mkK8SConnectorConfig "" "" "" "" "" false None))).
Definition shop_cfg (op : string) : Config :=
  mkConfig op "apps" "workloadscaler" "plan" "ns" "c1" "shop" "K8SCluster" "k" "ns".

(** No waiting is asked for. *)
Definition nothing (_ : WorkloadState) : Workloads * list (poll_event Workloads) := (shop [], []).
Definition shop_executor : Executor Target := workloadscaler nothing.
Definition clk : RunClock := mkRunClock (fun _ => t0) t0 t0 1500000000.
Definition shop_start (faults : list (option ApiError)) : RunnerState (T := Target) :=
  mkRunnerState (T := Target) empty_cluster (shop faults).

Definition shutdown_shop (params : string) (s : RunnerState (T := Target)) := shutdown_run shop_executor (shop_cfg "shutdown") clk (shop_spec params) s.
Definition wakeup_shop (params : string) (s : RunnerState (T := Target)) :=
  executeOperation shop_executor (set_operation "wakeup" (shop_cfg "shutdown")) clk (shop_spec params) s.

Definition counts (s : RunnerState (T := Target)) : list (option Z) :=
  map (fun name => sc_replicas (rs_target (T := Target) s) (workload name)) ["web"; "api"; "job"].

(** The first run scales [web] and fails at [api]; the second finishes. *)
Definition failed_run := shutdown_shop "shop" (shop_start [None; None; None; None; Some (ApiFailure "timeout")]).
Definition second_run := shutdown_shop "shop" failed_run.2.

Example failed_run_state :
  failed_run.1 = (Err (ErrUpdateScale (ApiFailure "timeout")), Some (Ok tt)) /\
  counts failed_run.2 = [Some 0; Some 2; Some 0].
Proof. vm_compute. split; reflexivity. Qed.

Example second_run_state :
  second_run.1 = (Ok (mkResult "scaled 1 workload(s) to zero across 1 namespace(s)" 0), Some (Ok tt)) /\
  counts second_run.2 = [Some 0; Some 0; Some 0].
Proof. vm_compute. split; reflexivity. Qed.

(** The workload that was at zero is not restored. *)
Example woken_shop :
  (wakeup_shop "shop" second_run.2).1 = Ok (mkResult "restored 2 workload(s), skipped 1 stale workload(s)" 1500) /\
  counts (wakeup_shop "shop" second_run.2).2 = [Some 3; Some 2; Some 0].
Proof. vm_compute. split; reflexivity. Qed.

(** A kind that is listed twice is visited twice: the second report, of a
    workload at zero, replaces the first, and the counts are lost. *)
Definition twice_run := shutdown_shop "twice" (shop_start []).

Example repeated_kind_loses_counts :
  twice_run.1.2 = Some (Ok tt) /\ ~ distinct (selected (shop_params ["Deployment"; "apps/v1/deployments"]) (shop [])) /\
  (wakeup_shop "twice" twice_run.2).1 = Ok (mkResult "restored 0 workload(s), skipped 3 stale workload(s)" 1500) /\
  counts (wakeup_shop "twice" twice_run.2).2 = [Some 0; Some 0; Some 0].
Proof.
  split_and!; [by vm_compute| |by vm_compute|by vm_compute].
  intros [H _]. vm_compute in H. inversion H as [|? ? Hin _]. apply Hin. set_solver.
Qed.

(** The reports of a successful shutdown cannot be saved: the run succeeds, and
    there is nothing to wake up from. *)
Definition unsaved_start : RunnerState (T := Target) :=
  mkRunnerState (T := Target) (set_mem_faults [Some (ApiFailure "timeout")] empty_cluster) (shop []).

Example failed_save_succeeds :
  let run := executeOperation shop_executor (shop_cfg "shutdown") clk (shop_spec "shop") unsaved_start in
  (shutdown_shop "shop" unsaved_start).1.2 = Some (Err (ErrLoadExisting (ErrGet (ApiFailure "timeout")))) /\
  run.1 = Ok (mkResult "scaled 2 workload(s) to zero across 1 namespace(s)" 1500) /\
  (wakeup_shop "shop" run.2).1 = Err (ErrLoadData ErrNoRestoreData) /\
  counts run.2 = [Some 0; Some 0; Some 0].
Proof. vm_compute. split_and!; reflexivity. Qed.

(** Requests that fail although they were carried out break the laws: the workload
    is at zero and was not reported. *)
Definition careless {A} (q : ScaleRequest A) (c : Workloads) : (ApiError + A) * Workloads :=
  match wl_faults c with
  | Some e :: l => (inl e, (answer_scale q (set_wl_faults l c)).2)
  | _ => serve_workloads q c
  end.
Definition carried_out : ScaleClient := {|
  scale_service := {| World := Workloads; serve A q := careless q |};
  clientFactory _ := true;
  SelectorFromSet _ := "";
  selector_text _ := Some "";
|}.
Definition careless_executor : Executor Workloads := workloadscaler (HS := carried_out) nothing.

Example unreported_update_loses_count :
  let first := shutdown_run careless_executor (shop_cfg "shutdown") clk (shop_spec "shop")
                 (mkRunnerState empty_cluster (shop [None; None; Some (ApiFailure "timeout")])) in
  let second := shutdown_run careless_executor (shop_cfg "shutdown") clk (shop_spec "shop") first.2 in
  let woken := executeOperation careless_executor (shop_cfg "wakeup") clk (shop_spec "shop") second.2 in
  first.1.1 = Err (ErrUpdateScale (ApiFailure "timeout")) /\ second.1.2 = Some (Ok tt) /\
  count (rs_target woken.2) (workload "web") = Some 0 /\ count (rs_target woken.2) (workload "api") = Some 2.
Proof. vm_compute. split_and!; reflexivity. Qed.

(** The whole run of the process, from the registry, and what it leaves. *)
#[export] Instance sample_env : RunnerEnv := {|
  normalize_params s := Some s;
  BuildConnectorConfig _ _ _ _ :=
    Ok (mkConnectorConfig None (Some (mkK8SConnectorConfig "" "" "" "" "" false None)));
|}.

Definition shop_registry : Registry Target := registerTo {[ "workloadscaler" := shop_executor ]} "" ∅.

Example whole_runs :
  let down := run_registry shop_registry (shop_cfg "shutdown") clk (shop_start []) in
  let up := run_registry shop_registry (shop_cfg "wakeup") clk down.2 in
  termination_message (fun _ => "failed") down.1 = Some "scaled 2 workload(s) to zero across 1 namespace(s)" /\
  termination_message (fun _ => "failed") up.1 = Some "restored 2 workload(s), skipped 1 stale workload(s)" /\
  counts up.2 = [Some 3; Some 2; Some 0] /\
  run_result (MarkAllTargetsRestored "ns" "plan" ["apps"]) (rs_hub up.2) = Ok true /\
  (run_registry (registerTo {[ "workloadscaler" := shop_executor ]} "eks, noop" ∅)
     (shop_cfg "shutdown") clk (shop_start [])).1 = Err tt.
Proof. vm_compute. split_and!; reflexivity. Qed.
End RunnerSamples.
Import RunnerSamples.

Lemma wakeup_restores_witness :
  counts (shop_start []) = [Some 3; Some 2; Some 0] /\
  forall id, sc_replicas (rs_target (wakeup_shop "shop" second_run.2).2) id =
             sc_replicas (rs_target (shop_start [None; None; None; None; Some (ApiFailure "timeout")])) id.
Proof.
  split; [by vm_compute|].
  refine (proj1 (wakeup_restores (HS := workloads_client) (shop_cfg "shutdown") (shop_spec "shop") (shop_params []) eq_refl
    (shop_start [None; None; None; None; Some (ApiFailure "timeout")]) second_run.2 None nothing clk _ _ _ _ _ _ _ _ eq_refl _)).
  - split; vm_compute; repeat constructor; rewrite ?elem_of_cons, ?elem_of_nil; naive_solver.
  - vm_compute. reflexivity.
  - vm_compute. reflexivity.
  - done.
  - apply (RunShutdown (workloadscaler (HS := workloads_client)) _ _ nothing clk second_run.1.1 _ failed_run.2).
    + apply (RunFirst (workloadscaler (HS := workloads_client)) _ _ nothing clk failed_run.1.1). apply split_run. vm_compute. reflexivity.
    + apply split_run. vm_compute. reflexivity.
  - vm_compute. reflexivity.
  - apply surjective_pairing.
Defined.

Lemma shutdown_zeroes_witness :
  counts (shop_start []) = [Some 3; Some 2; Some 0] /\
  forall id, sc_replicas (rs_target (executeOperation shop_executor (shop_cfg "shutdown") clk (shop_spec "shop") (shop_start [])).2) id =
    if decide (id ∈ (selected (shop_params []) (shop [])).*2)
    then (fun _ => 0) <$> sc_replicas (shop []) id else sc_replicas (shop []) id.
Proof.
  split; [by vm_compute|].
  refine (proj1 (shutdown_zeroes (HS := workloads_client) (shop_cfg "shutdown") (shop_spec "shop") (shop_params []) eq_refl
    (shop_start []) nothing clk "" _ _ eq_refl eq_refl _ _ _ eq_refl _)).
  - by repeat constructor.
  - done.
  - vm_compute. reflexivity.
  - apply surjective_pairing.
Defined.
