(* ===== verification/EKS.v ===== *)
(** * The EKS executor ([internal/executor/eks])

    Scales managed node groups to zero through the EKS API and restores their
    sizes.  EKS and the Kubernetes API of the cluster are the service behind
    [EKSRequest]. *)
From S2P Require Import Prelude Monad GoString GoTime Types Cluster Restore Params Executor AwsUtil Operation.
From Stdlib Require Import Lia.

Local Open Scope Z_scope.

(** ** The service *)

(** The errors the code tells apart: [types.ResourceNotFoundException]. *)
Inductive AWSError :=
| ResourceNotFound
| AWSFailure (msg : string).

(** [NodegroupScalingConfig] as [aws.ToInt32] reads it. *)
Record ScalingConfig := mkScaling {
  sg_MinSize : Z;
  sg_DesiredSize : Z;
  sg_MaxSize : Z;
}.

Record Nodegroup := mkNodegroup {
  ng_Scaling : ScalingConfig;
  ng_Status : string;
}.

(** [Cluster] of [DescribeClusterOutput], which always holds the struct of the
    certificate authority; an unset string is empty. *)
Record EKSCluster := mkEKSCluster {
  ec_Endpoint : string;
  ec_CertificateAuthority : string;
}.

Inductive EKSRequest : Type -> Type :=
| DescribeCluster (name : string) : EKSRequest (option EKSCluster)
| ListNodegroups (clusterName : string) : EKSRequest (list string)
| DescribeNodegroup (clusterName name : string) : EKSRequest Nodegroup
| UpdateNodegroupConfig (clusterName name : string) (scaling : ScalingConfig) : EKSRequest unit
| ListNode (selector : string) : EKSRequest nat.

(** What the SDKs provide: the loading of configurations, the decoding of base64,
    and the construction of the Kubernetes client. *)
Class EKSClients := {
  #[global] eks_service :: Service EKSRequest AWSError;
  #[global] eks_loader :: AWSLoader;
  base64_decode : string -> option string;
  eks_k8sFactory : K8SConnectorConfig -> bool;
}.
Notation EKSWorld := (World EKSRequest).

Inductive EKSError :=
| EErrAWSRequired
| EErrRegionRequired
| EErrParseParameters
| EErrClusterNameRequired
| EErrLoadAWSConfig
| EErrDescribeCluster (e : AWSError)
| EErrClusterNotFound
| EErrNoEndpoint
| EErrNoCertificateAuthority
| EErrDecodeCertificateAuthority
| EErrCreateClient
| EErrListNodegroups (e : AWSError)
| EErrNoNodegroups
| EErrScaleNodegroup (name : string) (e : AWSError)
| EErrUnmarshalState (name : string)
| EErrRestoreNodegroup (name : string) (e : AWSError)
| EErrObserve (e : AWSError).

(** ** Data *)

Record NodeGroupState := mkNodeGroupState {
  ngs_DesiredSize : Z;
  ngs_MinSize : Z;
  ngs_MaxSize : Z;
  ngs_WasScaled : bool;
}.

Definition nodegroup_fields (s : NodeGroupState) : gmap string scalar :=
  {[ "desired" := SOther (sprint_d (ngs_DesiredSize s)); "min" := SOther (sprint_d (ngs_MinSize s));
     "max" := SOther (sprint_d (ngs_MaxSize s)); "wasScaled" := SBool (ngs_WasScaled s) ]}.

Definition parse_nodegroup `{JSONText} (text : string) : option NodeGroupState :=
  m ← object_of_text text;
  desired ← int32_member m "desired";
  min ← int32_member m "min";
  max ← int32_member m "max";
  wasScaled ← bool_field m "wasScaled";
  Some (mkNodeGroupState desired min max wasScaled).

Definition eks_formatShutdownMessage (clusterName : string) (stats : operationStats) : string :=
  appendCountSegment
    ("scaled " ++ sprint_d (st_applied stats) ++ " node group(s) to zero in EKS cluster " ++ clusterName)
    "skipped" (st_skippedStale stats) "stale node group".

Definition eks_formatWakeUpMessage (clusterName : string) (stats : operationStats) : string :=
  appendCountSegment
    ("restored " ++ sprint_d (st_applied stats) ++ " node group(s) in EKS cluster " ++ clusterName)
    "skipped" (st_skippedStale stats) "stale node group".

(** ** Operations *)

Section operations.
Context {HS : EKSClients} {HT : JSONText} {HP : ParamsJSON} {HO : MapOrder}.
(** What the waits observe: for the nodes of a node group, and for its status. *)
Context (observe : string -> EKSWorld * list (poll_event EKSWorld)).
Context {A : Type}.

Definition EM (B : Type) : Type := ST (Run EKSWorld string A) EKSError B.

Definition eks_parseParams (spec : Spec) : EM EKSParameters :=
  match decode_params zero_EKSParameters parse_eks_params (es_Parameters spec) with
  | Some params => st_ret params
  | None => st_throw EErrParseParameters
  end.

(** The region of the configuration; [awsConfigLoader] is nil. *)
Definition eks_loadAWSConfig (spec : Spec) : EM string :=
  match BuildAWSConfig (cc_AWS (es_ConnectorConfig spec)) with
  | None => st_throw EErrLoadAWSConfig
  | Some cfg => st_ret (ac_Region cfg)
  end.

(** Endpoint and decoded certificate authority. *)
Definition getClusterInfo (clusterName : string) : EM (string * string) :=
  let! cluster := st_wrap EErrDescribeCluster (request (DescribeCluster clusterName)) in
  match cluster with
  | None => st_throw EErrClusterNotFound
  | Some c =>
      if (ec_Endpoint c =? "")%string then st_throw EErrNoEndpoint
      else if (ec_CertificateAuthority c =? "")%string then st_throw EErrNoCertificateAuthority
      else match base64_decode (ec_CertificateAuthority c) with
           | None => st_throw EErrDecodeCertificateAuthority
           | Some data => st_ret (ec_Endpoint c, data)
           end
  end.

Definition setupK8SClient (region : string) (spec : Spec) (clusterName : string) : EM unit :=
  let! info := getClusterInfo clusterName in
  if eks_k8sFactory (mkK8SConnectorConfig clusterName region "" info.1 info.2 true (cc_AWS (es_ConnectorConfig spec)))
  then st_ret tt else st_throw EErrCreateClient.

Definition determineTargetNodeGroups (clusterName : string) (params : EKSParameters) : EM (list string) :=
  let! targets := (match eks_NodeGroups params with
                   | [] => st_wrap EErrListNodegroups (request (ListNodegroups clusterName))
                   | names => st_ret names
                   end) in
  if bool_decide (targets = []) then st_throw EErrNoNodegroups else st_ret targets.

Definition scaleNodeGroupToZero (callback : option (ReportStateCallback A)) (params : EKSParameters)
  (clusterName name : string) : ST (Run EKSWorld string A) AWSError operationOutcome :=
  let! desc := st_try (request (DescribeNodegroup clusterName name)) in
  match desc with
  | inl ResourceNotFound => st_ret operationOutcomeSkippedStale
  | inl e => st_throw e
  | inr ng =>
      let desiredSize := sg_DesiredSize (ng_Scaling ng) in
      let maxSize := sg_MaxSize (ng_Scaling ng) in
      let wasScaled := 0 <? desiredSize in
      let state := mkNodeGroupState desiredSize (sg_MinSize (ng_Scaling ng)) maxSize wasScaled in
      let reported :=
        do! report callback name (ReportStruct (object_text (nodegroup_fields state))) in
        st_ret operationOutcomeApplied in
      if wasScaled then
        let! updated := st_try (request (UpdateNodegroupConfig clusterName name (mkScaling 0 0 maxSize))) in
        match updated with
        | inl ResourceNotFound => st_ret operationOutcomeSkippedStale
        | inl e => st_throw e
        | inr _ => do! wait_for (eks_AwaitCompletion params) name in reported
        end
      else reported
  end.

(** ** Waiting *)

Definition eks_DefaultWaitTimeout : string := "10m".

(** [checkFn] of the two waits, in a state of the world. *)
Definition nodes_deleted (name : string) (c : EKSWorld) : res EKSError bool :=
  match (serve (ListNode ("eks.amazonaws.com/nodegroup=" ++ name)) c).1 with
  | inl e => Err (EErrObserve e)
  | inr nodeCount => Ok (Nat.eqb nodeCount 0)
  end.

Definition nodegroup_active (clusterName name : string) (c : EKSWorld) : res EKSError bool :=
  match (serve (DescribeNodegroup clusterName name) c).1 with
  | inl e => Err (EErrObserve e)
  | inr ng => Ok (ng_Status ng =? "ACTIVE")%string
  end.

Definition waitForNodesDeleted (timeout name : string) : res unit unit :=
  wait_until (nodes_deleted name) (observe name) timeout.

Definition waitForNodeGroupActive (clusterName timeout name : string) : res unit unit :=
  wait_until (nodegroup_active clusterName name) (observe name) timeout.

Definition eks_Shutdown (spec : Spec) (callback : option (ReportStateCallback A)) : EM Result :=
  do! st_modify (set_run_waiting []) in
  let! params := eks_parseParams spec in
  let! region := eks_loadAWSConfig spec in
  let clusterName := eks_ClusterName params in
  do! setupK8SClient region spec clusterName in
  let! targets := determineTargetNodeGroups clusterName params in
  let! stats := count_each
                  (fun name => st_wrap (EErrScaleNodegroup name) (scaleNodeGroupToZero callback params clusterName name))
                  targets (mkStats (Z.of_nat (length targets)) 0 0) in
  let! msg := await_message (eks_AwaitCompletion params) eks_DefaultWaitTimeout waitForNodesDeleted
                " node group(s) still have nodes after " "; all nodes terminated"
                (eks_formatShutdownMessage clusterName stats) in
  st_ret (mkResult msg 0).

(** ** Wakeup *)

Definition restoreNodeGroup (params : EKSParameters) (clusterName name : string) (state : NodeGroupState) :
  ST (Run EKSWorld string A) AWSError operationOutcome :=
  let! desc := st_try (request (DescribeNodegroup clusterName name)) in
  match desc with
  | inl ResourceNotFound => st_ret operationOutcomeSkippedStale
  | inl e => st_throw e
  | inr _ =>
      let! updated := st_try (request (UpdateNodegroupConfig clusterName name
                        (mkScaling (ngs_MinSize state) (ngs_DesiredSize state) (ngs_MaxSize state)))) in
      match updated with
      | inl ResourceNotFound => st_ret operationOutcomeSkippedStale
      | inl e => st_throw e
      | inr _ => do! wait_for (eks_AwaitCompletion params) name in st_ret operationOutcomeApplied
      end
  end.

(** One iteration of the loop of [WakeUp]. *)
Definition restore_nodegroup_entry (params : EKSParameters) (clusterName name text : string) (stats : operationStats) :
  EM operationStats :=
  match parse_nodegroup text with
  | None => st_throw (EErrUnmarshalState name)
  | Some state =>
      if ngs_WasScaled state then
        let! outcome := st_wrap (EErrRestoreNodegroup name) (restoreNodeGroup params clusterName name state) in
        st_ret (count_outcome outcome stats)
      else st_ret (inc_skipped stats)
  end.

Definition eks_WakeUp (spec : Spec) (restore : RestoreData) : EM Result :=
  do! st_modify (set_run_waiting []) in
  if bool_decide (rd_Data restore = ∅)
  then st_ret (mkResult "wakeup completed for EKS (no restore data)" 0)
  else
    let! params := eks_parseParams spec in
    let! _ := eks_loadAWSConfig spec in
    let clusterName := eks_ClusterName params in
    let! stats := wake_entries (restore_nodegroup_entry params clusterName) (rd_Data restore)
                    (restore_order (rd_Data restore)) (mkStats (Z.of_nat (size (rd_Data restore))) 0 0) in
    let! msg := await_message (eks_AwaitCompletion params) eks_DefaultWaitTimeout
                  (waitForNodeGroupActive clusterName)
                  " node group(s) not yet active after " "; all node groups active"
                  (eks_formatWakeUpMessage clusterName stats) in
    st_ret (mkResult msg 0).
End operations.

(** ** The executor *)

Definition eks_Validate `{HP : ParamsJSON} (spec : Spec) : res EKSError unit :=
  match cc_AWS (es_ConnectorConfig spec) with
  | None => Err EErrAWSRequired
  | Some aws =>
      if (aws_Region aws =? "")%string then Err EErrRegionRequired
      else match decode_params zero_EKSParameters parse_eks_params (es_Parameters spec) with
           | None => Err EErrParseParameters
           | Some params => if (eks_ClusterName params =? "")%string then Err EErrClusterNameRequired else Ok tt
           end
  end.

Definition EKSExecutorType : string := "eks".

Definition eks_executor `{HS : EKSClients} `{HT : JSONText} `{HP : ParamsJSON}
  `{HO : MapOrder} (observe : string -> EKSWorld * list (poll_event EKSWorld)) : Executor EKSWorld := {|
  ExecutorError := EKSError;
  executor_Type := EKSExecutorType;
  Validate := eks_Validate;
  Shutdown A spec callback := fun s =>
    let '(r, s') := eks_Shutdown observe spec callback (mkRun s.1 [] s.2) in
    (r, (run_target s', run_acc s'));
  WakeUp spec restore := fun c =>
    let '(r, s') := eks_WakeUp observe spec restore (mkRun c [] tt) in (r, run_target s');
|}.
