(* ===== verification/EKSSpec.v ===== *)
(** * The EKS executor in the runner

    [EKSLaws] states what the executor relies on: a node group that is described
    has the sizes that were last written, an update writes all three, and a
    request that fails changes nothing.  Under these laws the executor keeps the
    contract of [Cycle]. *)
From S2P Require Import Prelude Monad GoString GoTime Types Cluster Restore RestoreSpec Params Executor Operation.
From S2P Require Import AwsUtil Runner Cycle EKS.
From Stdlib Require Import Lia.

Local Open Scope Z_scope.

Local Arguments report : simpl never.
Local Arguments wait_for : simpl never.
Local Arguments await_message : simpl never.

(** A node group: its cluster and its name. *)
Notation nodegroup_id := (string * string)%type.

#[export] Instance ScalingConfig_eq_dec : EqDecision ScalingConfig.
Proof. solve_decision. Defined.

#[export] Instance AWSError_eq_dec : EqDecision AWSError.
Proof. solve_decision. Defined.

Class EKSObservers `{EKSClients} := {
  eks_sizes : EKSWorld -> nodegroup_id -> option ScalingConfig;
  eks_listing : EKSWorld -> string -> list string;
  (** The service answers. *)
  eks_healthy : EKSWorld -> Prop;
  (** An update of the group is running: EKS refuses another one meanwhile. *)
  eks_updating : EKSWorld -> nodegroup_id -> bool;
}.

(** What the API accepts and serves. *)
Definition valid_scaling (c : ScalingConfig) : Prop :=
  0 <= sg_MinSize c <= sg_DesiredSize c /\ sg_DesiredSize c <= sg_MaxSize c < 2 ^ 31.

Definition sizes_after {A} (q : EKSRequest A) :
  AWSError + A -> (nodegroup_id -> option ScalingConfig) -> (nodegroup_id -> option ScalingConfig) -> Prop :=
  match q in EKSRequest A return
    AWSError + A -> (nodegroup_id -> option ScalingConfig) -> (nodegroup_id -> option ScalingConfig) -> Prop with
  | DescribeNodegroup cluster name => fun r before after =>
      (forall id, after id = before id) /\
      match r with inr ng => before (cluster, name) = Some (ng_Scaling ng) | inl _ => True end
  | UpdateNodegroupConfig cluster name scaling => fun r before after =>
      match r with
      | inr _ => is_Some (before (cluster, name)) /\
          forall id, after id = if decide (id = (cluster, name)) then Some scaling else before id
      | inl _ => forall id, after id = before id
      end
  | _ => fun _ before after => forall id, after id = before id
  end.

(** The group that a request updates. *)
Definition updates {A} (q : EKSRequest A) : option nodegroup_id :=
  match q with UpdateNodegroupConfig cluster name _ => Some (cluster, name) | _ => None end.

Class EKSLaws `{HS : EKSClients} {HO : EKSObservers} : Prop := {
  eks_serve_listing {A} (q : EKSRequest A) c cluster :
    eks_listing (serve q c).2 cluster = eks_listing c cluster;
  eks_serve_sizes {A} (q : EKSRequest A) c :
    sizes_after q (serve q c).1 (eks_sizes c) (eks_sizes (serve q c).2);
  eks_valid c id sc : eks_sizes c id = Some sc -> valid_scaling sc;
  eks_list_answer cluster c l : (serve (ListNodegroups cluster) c).1 = inr l -> l = eks_listing c cluster;
  eks_healthy_serve {A} (q : EKSRequest A) c : eks_healthy c -> eks_healthy (serve q c).2;
  eks_healthy_describe cluster name c : eks_healthy c -> is_Some (eks_sizes c (cluster, name)) ->
    exists ng, (serve (DescribeNodegroup cluster name) c).1 = inr ng;
  eks_serve_updating {A} (q : EKSRequest A) c id :
    updates q <> Some id -> eks_updating c id = false -> eks_updating (serve q c).2 id = false;
  eks_healthy_update cluster name scaling c : eks_healthy c -> is_Some (eks_sizes c (cluster, name)) ->
    eks_updating c (cluster, name) = false -> valid_scaling scaling -> (serve (UpdateNodegroupConfig cluster name scaling) c).1 = inr tt;
}.

(** ** States *)

Record nodegroup_wf (s : NodeGroupState) : Prop := {
  nw_valid : valid_scaling (mkScaling (ngs_MinSize s) (ngs_DesiredSize s) (ngs_MaxSize s));
  nw_scaled : ngs_WasScaled s = (0 <? ngs_DesiredSize s);
}.

Section encoding.
Context {HT : JSONText} {HTL : JSONTextLaws}.

Lemma nodegroup_range s : nodegroup_wf s ->
  in_int32 (ngs_DesiredSize s) /\ in_int32 (ngs_MinSize s) /\ in_int32 (ngs_MaxSize s).
Proof. intros [[] _]. cbn in *. unfold in_int32. lia. Qed.

Lemma nodegroup_fields_canonical s : nodegroup_wf s -> map_Forall (fun _ v => scalar_canonical v) (nodegroup_fields s).
Proof.
  intros (H1 & H2 & H3)%nodegroup_range. unfold nodegroup_fields.
  repeat (apply map_Forall_insert_2; [by apply number_canonical|]). by apply map_Forall_singleton.
Qed.

Lemma parse_nodegroup_fields s : nodegroup_wf s -> parse_nodegroup (object_text (nodegroup_fields s)) = Some s.
Proof.
  intros Hwf. destruct (nodegroup_range s Hwf) as (H1 & H2 & H3). unfold parse_nodegroup.
  rewrite object_roundtrip by (by apply nodegroup_fields_canonical). cbn [mbind option_bind].
  rewrite (int32_member_sprint _ "desired" (ngs_DesiredSize s)), (int32_member_sprint _ "min" (ngs_MinSize s)),
    (int32_member_sprint _ "max" (ngs_MaxSize s)) by done. by destruct s.
Qed.
End encoding.

(** ** Resources *)

Section instance.
Context {HS : EKSClients} {HSO : EKSObservers} {HL : EKSLaws}.
Context {HT : JSONText} {HTL : JSONTextLaws} {HP : ParamsJSON} {HM : MapOrder}.
Context (spec : Spec) (params : EKSParameters).
Hypothesis Hparams : decode_params zero_EKSParameters parse_eks_params (es_Parameters spec) = Some params.

Notation cluster := (eks_ClusterName params).

(** The node groups of a shutdown. *)
Definition target_nodegroups (c : EKSWorld) : list string :=
  match eks_NodeGroups params with [] => eks_listing c cluster | names => names end.

#[export] Instance eks_hibernation : Hibernation EKSWorld := {|
  h_resource := nodegroup_id;
  h_resource_dec := _;
  h_value := ScalingConfig;
  h_state := string * NodeGroupState;
  h_look := eks_sizes;
  h_linked _ k id := id = (cluster, k);
  h_ready c := NoDup (target_nodegroups c);
  h_healthy c := (eks_healthy c /\ forall name, eks_updating c (cluster, name) = false) /\
    is_Some (BuildAWSConfig (cc_AWS (es_ConnectorConfig spec)));
  h_awaits := await_Enabled (eks_AwaitCompletion params);
  st_key st := st.1;
  st_id st := (cluster, st.1);
  st_value st := mkScaling (ngs_MinSize st.2) (ngs_DesiredSize st.2) (ngs_MaxSize st.2);
  st_down st := Some (mkScaling 0 0 (ngs_MaxSize st.2));
  st_scaled st := ngs_WasScaled st.2;
  st_fields st := nodegroup_fields st.2;
  st_wf st := nodegroup_wf st.2;
|}.

(** A request as a step of the loops. *)
Lemma eks_ready {B} (q : EKSRequest B) c : h_ready c -> h_ready (serve q c).2.
Proof. cbn. unfold target_nodegroups. by rewrite eks_serve_listing. Qed.

Lemma eks_links c c' : same_links c c'.
Proof. done. Qed.

Notation ERun A := (Run EKSWorld string A).

Lemma shutting_read {B} (q : EKSRequest B) c1 rest (s : ERun Accumulator) :
  (forall id, eks_sizes (serve q (run_target s)).2 id = eks_sizes (run_target s) id) ->
  shutting c1 rest (run_target s) (run_acc s) ->
  shutting c1 rest (serve q (run_target s)).2 (run_acc s).
Proof.
  intros Hv Hs. apply (shutting_same c1 rest (run_target s)); [|done..].
  apply eks_ready, (sp_ready _ _ _ (sh_post _ _ _ _ Hs)).
Qed.

Context (clock : nat -> time).
Notation callback := (Some (acc_add clock)).
Notation at_state P := (fun s : ERun Accumulator => P (run_target s) (run_acc s)).

Lemma scaleNodeGroupToZero_inv c1 name rest :
  name ∉ rest ->
  hoare (at_state (shutting c1 (name :: rest))) (scaleNodeGroupToZero callback params cluster name)
    (fun _ => at_state (shutting c1 rest)) (fun _ => at_state (shutting c1 [])).
Proof.
  intros Hn. unfold scaleNodeGroupToZero. apply hoare_request. intros s Hs.
  set (q := DescribeNodegroup cluster name). pose proof (eks_serve_sizes q (run_target s)) as Hq.
  pose proof (fun H => shutting_read q c1 (name :: rest) s H Hs) as Hs2. cbn in Hq.
  pose proof (eks_ready q (run_target s) (sp_ready _ _ _ (sh_post _ _ _ _ Hs))) as Hr.
  destruct (serve q (run_target s)) as [[e|ng] c2]; cbn in Hq, Hs2, Hr |- *; destruct Hq as [Hsame Hng].
  - specialize (Hs2 Hsame). destruct e; [apply hoare_ret|apply hoare_throw]; intros ? ->; cbn;
      (eapply shutting_rest; [|exact Hs2]); set_solver.
  - specialize (Hs2 Hsame). destruct ng as [[min desired max] status]. cbn in Hng |- *.
    set (st := (name, mkNodeGroupState desired min max (0 <? desired))).
    destruct (sh_rest _ _ _ _ Hs name (cluster, name) ltac:(by left) eq_refl) as [_ Hc1]. cbn in Hc1.
    assert (reports_of c1 st) as Hrep.
    { split; [|done|cbn; congruence]. split; [|done]. cbn. by eapply eks_valid. }
    assert (map_Forall (fun _ v => scalar_canonical v) (st_fields st)) as Hcan
      by (apply nodegroup_fields_canonical, Hrep).
    assert (forall k, h_linked c1 k (st_id st) -> k = st_key st) as Huniq by (by intros k [= ->]).
    destruct (0 <? desired) eqn:E0.
    + apply hoare_request. intros s2 ->. cbn. set (q2 := UpdateNodegroupConfig _ _ _).
      pose proof (eks_serve_sizes q2 c2) as Hq2. pose proof (eks_ready q2 c2 Hr) as Hr2.
      pose proof (shutting_read q2 c1 (name :: rest) (set_run_target c2 s)) as Hs3. cbn in Hq2, Hs3.
      destruct (serve q2 c2) as [[e|u] c3]; cbn in Hq2, Hr2, Hs3 |- *.
      * specialize (Hs3 Hq2 Hs2). destruct e; [apply hoare_ret|apply hoare_throw]; intros ? ->; cbn;
          (eapply shutting_rest; [|exact Hs3]); set_solver.
      * destruct Hq2 as [_ Hq2]. intros s3 ->. unfold st_bind.
        destruct (wait_for_run (E:=AWSError) (eks_AwaitCompletion params) name
                    (set_run_target c3 (set_run_target c2 s))) as [l ->].
        change (nodegroup_fields _) with (st_fields st). rewrite report_accumulates by done. cbn.
        apply (shutting_visit (HH:=eks_hibernation) clock c1 rest (run_target s) (run_acc s) st c3); try done.
        -- intros i Hi. cbn in Hi |- *. rewrite Hq2, decide_False by done. apply Hsame.
        -- cbn. rewrite Hq2. by rewrite decide_True.
    + intros s2 ->. unfold st_bind. change (nodegroup_fields _) with (st_fields st).
      rewrite report_accumulates by done. cbn.
      apply (shutting_visit (HH:=eks_hibernation) clock c1 rest (run_target s) (run_acc s) st c2); try done.
      all: intros; apply Hsame.
Qed.

(** Before the loop: nothing is reported and nothing has changed. *)
Definition before_loop (c1 : EKSWorld) (s : ERun Accumulator) : Prop :=
  shutting c1 (target_nodegroups c1) (run_target s) (run_acc s) /\
  eks_listing (run_target s) cluster = eks_listing c1 cluster.

Lemma before_loop_post c1 s : before_loop c1 s -> shutting c1 [] (run_target s) (run_acc s).
Proof. intros [Hs _]. eapply shutting_rest; [|exact Hs]. set_solver. Qed.

Lemma hoare_quiet {B} (f : AWSError -> EKSError) (q : EKSRequest B) c1 :
  (forall c id, eks_sizes (serve q c).2 id = eks_sizes c id) ->
  hoare (before_loop c1) (st_wrap f (request (W:=string) q))
    (fun b s => before_loop c1 s /\ exists c, (serve q c).1 = inr b /\ eks_listing c cluster = eks_listing c1 cluster)
    (fun _ => before_loop c1).
Proof.
  intros Hq s [Hs Hl]. rewrite wrap_request. pose proof (shutting_read q c1 _ s (Hq _) Hs) as Hs2.
  assert (before_loop c1 (set_run_target (serve q (run_target s)).2 s)) as Hb.
  { split; [done|]. cbn. by rewrite eks_serve_listing. }
  destruct (serve q (run_target s)).1 eqn:E; [done|]. split; [done|]. by exists (run_target s).
Qed.

Lemma setupK8SClient_inv region c1 :
  hoare (before_loop c1) (setupK8SClient region spec cluster) (fun _ => before_loop c1) (fun _ => before_loop c1).
Proof.
  unfold setupK8SClient, getClusterInfo. apply (hoare_bind (fun _ => before_loop c1)).
  - eapply hoare_bind; [apply hoare_quiet; intros c; apply (eks_serve_sizes (DescribeCluster cluster))|].
    intros a. eapply hoare_pre; [|by intros s [Hs _]].
    destruct a as [c|]; [|by apply hoare_throw].
    repeat (case_match; [by apply hoare_throw|]). case_match; [by apply hoare_ret|by apply hoare_throw].
  - intros info. case_match; [by apply hoare_ret|by apply hoare_throw].
Qed.

Lemma determineTargetNodeGroups_inv c1 :
  hoare (before_loop c1) (determineTargetNodeGroups cluster params)
    (fun l s => before_loop c1 s /\ l = target_nodegroups c1) (fun _ => before_loop c1).
Proof.
  unfold determineTargetNodeGroups.
  apply (hoare_bind (fun l s => before_loop c1 s /\ l = target_nodegroups c1)).
  - unfold target_nodegroups. destruct (eks_NodeGroups params) as [|n l] eqn:E; [|by apply hoare_ret].
    eapply hoare_conseq; [apply (hoare_quiet _ (ListNodegroups cluster) c1)|done| |done].
    + intros c. apply (eks_serve_sizes (ListNodegroups cluster)).
    + intros l s [Hs (c & Hc & Hl)]. split; [done|]. by rewrite (eks_list_answer _ _ _ Hc).
  - intros l. case_bool_decide; [apply hoare_throw; by intros s [Hs _]|by apply hoare_ret].
Qed.

Lemma prefix_completes region :
  completes (eks_loadAWSConfig (A:=Accumulator) spec) /\ completes (setupK8SClient (A:=Accumulator) region spec cluster) /\
  completes (determineTargetNodeGroups (A:=Accumulator) cluster params).
Proof.
  split_and!.
  - intros s. unfold eks_loadAWSConfig. by repeat case_match.
  - unfold setupK8SClient, getClusterInfo. apply completes_bind; [apply completes_bind|].
    + apply completes_wrap, completes_lift. intros c. apply (completes_ask (DescribeCluster cluster)).
    + intros [c|]; [|done]. repeat case_match; done.
    + intros info. by case_match.
  - unfold determineTargetNodeGroups. apply completes_bind; [|intros l; by case_match].
    destruct (eks_NodeGroups params); [|done]. apply completes_wrap, completes_lift.
    intros c. apply (completes_ask (ListNodegroups cluster)).
Qed.

Lemma scaleNodeGroupToZero_completes name :
  completes (scaleNodeGroupToZero callback params cluster name).
Proof.
  unfold scaleNodeGroupToZero. apply completes_bind; [apply completes_request|]. intros [e|ng]; [by destruct e|].
  assert (forall v, completes (do! report callback name v in st_ret (S:=ERun Accumulator) (E:=AWSError) operationOutcomeApplied)) as Hrep.
  { intros v. apply completes_bind; [|done]. apply report_completes. by intros f [= <-] a. }
  case_match; [|apply Hrep]. apply completes_bind; [apply completes_request|]. intros [e|u]; [by destruct e|].
  apply completes_bind; [apply wait_for_completes|]. intros _. apply Hrep.
Qed.

Context (observe : string -> EKSWorld * list (poll_event EKSWorld)).

Lemma eks_waits_no_panic timeout name :
  waitForNodesDeleted observe timeout name <> Panic /\
  waitForNodeGroupActive observe cluster timeout name <> Panic.
Proof.
  split; apply wait_until_no_panic; intros c.
  - unfold nodes_deleted. by destruct (serve _ c).1.
  - unfold nodegroup_active. by destruct (serve _ c).1.
Qed.

Lemma eks_parseParams_run {A} (s : ERun A) : eks_parseParams spec s = (Ok params, s).
Proof. unfold eks_parseParams. by rewrite Hparams. Qed.

(** A shutdown, whichever requests fail. *)
Lemma eks_Shutdown_post c1 :
  h_ready c1 ->
  let '(r, s') := eks_Shutdown observe spec callback (mkRun c1 [] NewAccumulator) in
  r <> Panic /\ shut_post c1 (run_target s') (run_acc s').
Proof.
  intros Hd. set (Post := fun o : res EKSError Result * ERun Accumulator =>
    o.1 <> Panic /\ shut_post c1 (run_target o.2) (run_acc o.2)).
  enough (Post (eks_Shutdown observe spec callback (mkRun c1 [] NewAccumulator))) as H.
  { unfold Post in H. by destruct (eks_Shutdown _ _ _ _). }
  assert (forall e s, before_loop c1 s -> Post (Err e, s)) as Herr.
  { intros e s Hs. split; [done|]. apply (before_loop_post c1 s Hs). }
  unfold eks_Shutdown. unfold st_bind at 1. cbn [st_modify set_run_waiting run_target run_acc].
  unfold st_bind at 1. rewrite eks_parseParams_run.
  assert (before_loop c1 (mkRun c1 [] NewAccumulator)) as H0 by (split; [by apply shutting_start|done]).
  eapply (bind_step (before_loop c1) (fun _ => before_loop c1) (fun _ => before_loop c1));
    [apply (prefix_completes "")| |exact H0| |by apply Herr].
  { unfold eks_loadAWSConfig. case_match; first [by apply hoare_ret|by apply hoare_throw]. }
  intros region s1 Hs1. eapply (bind_step (before_loop c1)); [apply prefix_completes|apply setupK8SClient_inv|done| |apply Herr].
  intros [] s2 Hs2. eapply (bind_step (before_loop c1));
    [apply (prefix_completes "")|apply determineTargetNodeGroups_inv|done| |apply Herr].
  intros l s3 [Hs3 ->].
  eapply (bind_step (fun s => shutting c1 (target_nodegroups c1) (run_target s) (run_acc s))).
  - apply completes_count_each. intros name. apply completes_wrap, scaleNodeGroupToZero_completes.
  - apply (hoare_count_each (fun l s => shutting c1 l (run_target s) (run_acc s))
             (fun _ s => shutting c1 [] (run_target s) (run_acc s))); [|done].
    intros name rest Hn _. apply hoare_wrap, scaleNodeGroupToZero_inv. by apply NoDup_cons in Hn as [? _].
  - apply Hs3.
  - intros stats s4 Hs4. unfold st_bind.
    awaited (fun t x => proj1 (eks_waits_no_panic t x)) r Hnp Hne Hoff. split; [by destruct r|].
    by destruct r; apply Hs4.
  - intros e s4 Hs4. split; [done|apply Hs4].
Qed.

(** ** Wakeup *)

Section wakeup.
Context (data : gmap string string) (c1 : EKSWorld).
Hypothesis Henc : encoded data.

Lemma entry_state name text : data !! name = Some text ->
  exists st, parse_nodegroup text = Some st /\ holds data (name, st).
Proof.
  intros Hk. destruct (Henc name text Hk) as ([n st] & Hn & Ht & Hwf). cbn in Hn, Ht, Hwf. subst n text.
  exists st. split; [by apply parse_nodegroup_fields|by split].
Qed.

(** One node group: the world afterwards, and when it is restored. *)
Lemma restoreNodeGroup_spec name st (s : ERun unit) :
  holds data (name, st) -> ngs_WasScaled st = true -> wake_post data c1 (run_target s) ->
  exists r c2 l, restoreNodeGroup params cluster name st s = (r, mkRun c2 l tt) /\ completed r /\
    wake_post data c1 c2 /\
    (forall id, id <> (cluster, name) -> eks_updating (run_target s) id = false -> eks_updating c2 id = false) /\
    (eks_healthy (run_target s) -> eks_updating (run_target s) (cluster, name) = false ->
     is_Some (eks_sizes (run_target s) (cluster, name)) ->
       r = Ok operationOutcomeApplied /\ eks_healthy c2 /\
       forall id, eks_sizes c2 id = if decide (id = (cluster, name))
         then Some (mkScaling (ngs_MinSize st) (ngs_DesiredSize st) (ngs_MaxSize st))
         else eks_sizes (run_target s) id).
Proof.
  intros Hst Hsc Hs. unfold restoreNodeGroup. set (q := DescribeNodegroup cluster name).
  unfold st_bind at 1. rewrite try_request. destruct s as [c l []]. cbn [run_target] in *.
  pose proof (eks_serve_sizes q c) as Hq. pose proof (eks_ready q c (wp_ready _ _ _ Hs)) as Hr.
  pose proof (eks_healthy_serve q c) as Hh. pose proof (eks_healthy_describe cluster name c) as Hg. fold q in Hg.
  pose proof (fun id => eks_serve_updating q c id ltac:(done)) as Hup.
  destruct (serve q c) as [[e|ng] c2]; cbn in Hq, Hr, Hh, Hg, Hup |- *; destruct Hq as [Hq Hng].
  - assert (wake_post data c1 c2) as Hw by (apply (wake_post_same data c1 c c2); done).
    exists (if decide (e = ResourceNotFound) then Ok operationOutcomeSkippedStale else Err e), c2, l.
    split_and!; [by destruct e|by destruct e|done|by auto|]. intros Hc _ Hid. by destruct (Hg Hc Hid).
  - set (q2 := UpdateNodegroupConfig _ _ _). unfold st_bind at 1. rewrite try_request. cbn [run_target set_run_target].
    pose proof (eks_serve_sizes q2 c2) as Hq2. pose proof (eks_ready q2 c2 Hr) as Hr2.
    pose proof (eks_healthy_serve q2 c2) as Hh2.
    pose proof (eks_healthy_update cluster name (mkScaling (ngs_MinSize st) (ngs_DesiredSize st) (ngs_MaxSize st)) c2) as Hu.
    fold q2 in Hu. pose proof (fun id => eks_serve_updating q2 c2 id) as Hup2.
    destruct (serve q2 c2) as [[e|u] c3]; cbn in Hq2, Hr2, Hh2, Hu, Hup2 |- *.
    + exists (if decide (e = ResourceNotFound) then Ok operationOutcomeSkippedStale else Err e), c3, l.
      split_and!; [by destruct e|by destruct e| | |].
      * apply (wake_post_same data c1 c c3); [done|done| |done]. intros id. cbn. by rewrite Hq2.
      * intros id Hid Hi. apply Hup2; [congruence|by apply Hup].
      * intros Hc Hi Hid. specialize (Hu (Hh Hc)). rewrite Hq in Hu. by specialize (Hu Hid (Hup _ Hi) (nw_valid _ (proj2 Hst))).
    + destruct (wait_for_run (E:=AWSError) (eks_AwaitCompletion params) name (mkRun c3 l tt)) as [l' Hwait].
      unfold st_bind. change (set_run_target c3 (set_run_target c2 (mkRun c l tt))) with (mkRun c3 l tt).
      rewrite Hwait. exists (Ok operationOutcomeApplied), c3, l'. destruct Hq2 as [_ Hq2].
      assert (forall id, eks_sizes c3 id = if decide (id = (cluster, name))
        then Some (mkScaling (ngs_MinSize st) (ngs_DesiredSize st) (ngs_MaxSize st)) else eks_sizes c id) as Hc3.
      { intros id. rewrite Hq2. case_decide; [done|]. apply Hq. }
      split_and!; [done|done| | |].
      * apply (wake_post_restore (HH:=eks_hibernation) data c1 c c3 (name, st)); try done.
        -- intros i Hi. cbn in Hi |- *. by rewrite Hc3, decide_False.
        -- cbn. by rewrite Hc3, decide_True.
      * intros id Hid Hi. apply Hup2; [congruence|by apply Hup].
      * intros Hc _ _. split_and!; [done|by auto|done].
Qed.

Lemma restore_entry_inv name text stats : data !! name = Some text ->
  hoare (fun s : ERun unit => wake_post data c1 (run_target s))
    (restore_nodegroup_entry params cluster name text stats)
    (fun _ s => wake_post data c1 (run_target s)) (fun _ s => wake_post data c1 (run_target s)).
Proof.
  intros Hk s Hs. destruct (entry_state name text Hk) as (st & Hp & Hst). unfold restore_nodegroup_entry.
  rewrite Hp. destruct (ngs_WasScaled st) eqn:E; [|done].
  destruct (restoreNodeGroup_spec name st s Hst E Hs) as (r & c2 & l & Hrun & _ & Hw & _).
  unfold st_bind, st_wrap. rewrite Hrun. by destruct r.
Qed.

Lemma restore_entry_completes name text stats :
  completes (restore_nodegroup_entry (A:=unit) params cluster name text stats).
Proof.
  unfold restore_nodegroup_entry. destruct (parse_nodegroup text) as [st|]; [|done].
  destruct (ngs_WasScaled st); [|done]. apply completes_bind; [|done]. apply completes_wrap.
  unfold restoreNodeGroup. apply completes_bind; [apply completes_request|]. intros [e|ng]; [by destruct e|].
  apply completes_bind; [apply completes_request|]. intros [e|u]; [by destruct e|].
  apply completes_bind; [apply wait_for_completes|done].
Qed.

Lemma eks_WakeUp_post t live : h_ready c1 ->
  let '(r, s') := eks_WakeUp observe spec (mkRestoreData t data live) (mkRun c1 [] tt) in
  r <> Panic /\ wake_post data c1 (run_target s').
Proof.
  intros Hd. set (Post := fun o : res EKSError Result * ERun unit => o.1 <> Panic /\ wake_post data c1 (run_target o.2)).
  enough (Post (eks_WakeUp observe spec (mkRestoreData t data live) (mkRun c1 [] tt))) as H.
  { unfold Post in H. by destruct (eks_WakeUp _ _ _ _). }
  pose proof (wake_post_start data c1 Hd) as H0.
  unfold eks_WakeUp. unfold st_bind at 1. cbn [st_modify set_run_waiting run_target run_acc rd_Data].
  case_bool_decide; [done|]. unfold st_bind at 1. rewrite eks_parseParams_run.
  set (Inv := fun s : ERun unit => wake_post data c1 (run_target s)).
  eapply (bind_step Inv (fun _ => Inv) (fun _ => Inv)); [| |done| |done].
  { intros s. unfold eks_loadAWSConfig. by repeat case_match. }
  { unfold eks_loadAWSConfig. case_match; first [by apply hoare_ret|by apply hoare_throw]. }
  intros region s1 Hs1. eapply (bind_step Inv (fun _ => Inv) (fun _ => Inv)); [| |done| |done].
  - apply completes_wake_entries, restore_entry_completes.
  - apply hoare_wake_entries, restore_entry_inv.
  - intros stats s2 Hs2. unfold st_bind.
    awaited (fun t x => proj2 (eks_waits_no_panic t x)) r Hnp Hne Hoff. by destruct r.
Qed.

(** The records are there: as they were, or at zero. *)
Lemma eks_WakeUp_total t live : h_ready c1 -> h_healthy c1 -> fitting data c1 ->
  let '(r, s') := eks_WakeUp observe spec (mkRestoreData t data live) (mkRun c1 [] tt) in
  (forall st, holds data st -> st_scaled st = true -> h_look (run_target s') (st_id st) = Some (st_value st)) /\
  (forall e, r <> Err e) /\ (h_awaits = false -> exists result, r = Ok result).
Proof.
  intros Hd [[Hh Hidle] Haws] Hfit.
  set (Goal' := fun s : ERun unit =>
    forall st, holds data st -> st_scaled st = true -> h_look (run_target s) (st_id st) = Some (st_value st)).
  set (Post := fun o : res EKSError Result * ERun unit => Goal' o.2 /\ (forall e, o.1 <> Err e) /\
    (await_Enabled (eks_AwaitCompletion params) = false -> exists result, o.1 = Ok result)).
  enough (Post (eks_WakeUp observe spec (mkRestoreData t data live) (mkRun c1 [] tt))) as H.
  { unfold Post, Goal' in H. destruct (eks_WakeUp _ _ _ _) as [r s']. done. }
  unfold eks_WakeUp. unfold st_bind at 1. cbn [st_modify set_run_waiting run_target run_acc rd_Data].
  case_bool_decide as He.
  { split_and!; try done; [|by eexists]. intros st [Hk _]. by rewrite He, lookup_empty in Hk. }
  unfold st_bind at 1. rewrite eks_parseParams_run.
  set (Inv := fun (rest : list string) (s : ERun unit) =>
    wake_post data c1 (run_target s) /\ eks_healthy (run_target s) /\
    forall name, name ∈ rest -> eks_updating (run_target s) (cluster, name) = false).
  assert (Inv (restore_order data) (mkRun c1 [] tt)) as H0 by (split_and!; [by apply wake_post_start|done..]).
  eapply (bind_total (Inv (restore_order data)) (fun _ => Inv (restore_order data))); [|exact H0|].
  { intros s Hs. unfold eks_loadAWSConfig. destruct Haws as [cfg Hcfg].
    rewrite Hcfg. by eexists _, _. }
  intros region s1 Hs1.
  set (D := fun (name : string) (s : ERun unit) => forall st : NodeGroupState, holds (HH:=eks_hibernation) data (name, st) -> ngs_WasScaled st = true ->
    eks_sizes (run_target s) (cluster, name) = Some (mkScaling (ngs_MinSize st) (ngs_DesiredSize st) (ngs_MaxSize st))).
  eapply (bind_total (Inv (restore_order data))); [|exact Hs1|].
  - apply (succeeds_wake_entries Inv D); [| | |apply restore_order_NoDup].
    + intros name text stats rest l Hk Hrest s [(Hw & Hhs & Hi) Hl]. destruct (entry_state name text Hk) as (st & Hp & Hst).
      unfold restore_nodegroup_entry. rewrite Hp.
      assert (forall st' : NodeGroupState, holds (HH:=eks_hibernation) data (name, st') -> st' = st) as Huniq.
      { intros st' [Hk' Hwf']. cbn in Hk', Hwf'. rewrite Hk in Hk'. injection Hk' as ->.
        rewrite parse_nodegroup_fields in Hp by done. congruence. }
      destruct (ngs_WasScaled st) eqn:E.
      * destruct (restoreNodeGroup_spec name st s Hst E Hw) as (r & c2 & l2 & Hrun & _ & Hw2 & Hup & Htot).
        assert (is_Some (eks_sizes (run_target s) (cluster, name))) as Hsome.
        { destruct (wp_changes _ _ _ Hw (cluster, name)) as [H|(st' & _ & _ & _ & H)]; cbn in H; rewrite H; [|by eexists].
          destruct (fit_value (HH:=eks_hibernation) _ _ Hfit (name, st) Hst E) as [H'|H']; cbn in H'; rewrite H'; by eexists. }
        destruct (Htot Hhs (Hi name ltac:(by left)) Hsome) as (-> & Hh2 & Hc2). unfold st_bind, st_wrap. rewrite Hrun. cbn.
        eexists _, _. split; [done|]. split.
        { split_and!; [done..|]. intros n Hn. apply Hup; [congruence|]. apply Hi. by right. }
        constructor.
        -- intros st' Hst' _. rewrite (Huniq st' Hst'). cbn. by rewrite Hc2, decide_True.
        -- apply (Forall_impl _ _ _ Hl). intros n Hn st' Hst' Hsc'. cbn. rewrite Hc2. case_decide as Hid; [|by apply Hn].
           injection Hid as ->. by rewrite (Huniq st' Hst').
      * eexists _, _. split; [done|]. split; [split_and!; [done..|]; intros n Hn; apply Hi; by right|]. constructor; [|done].
        intros st' Hst' Hsc'. rewrite (Huniq st' Hst') in Hsc'. congruence.
    + intros name s Hk st [Hk' _] _. cbn in Hk'. congruence.
    + intros name rest s (Hw & Hhs & Hi). split_and!; [done..|]. intros n Hn. apply Hi. by right.
  - intros stats s2 [_ Hall].
    assert (Goal' s2) as Hgoal.
    { intros [name st] Hst Hsc. cbn in Hsc |- *. rewrite Forall_forall in Hall.
      apply (Hall name); [|done..]. eapply elem_of_restore_order. apply Hst. }
    unfold st_bind. awaited (fun t x => proj2 (eks_waits_no_panic t x)) r Hnp Hne Hoff.
    destruct r as [msg|e| |]; [|by destruct (Hne e)|done|]; split_and!; try done.
    + by eexists.
    + intros H. by specialize (Hoff H).
Qed.
End wakeup.
End instance.

Local Arguments eks_Shutdown : simpl never.
Local Arguments eks_WakeUp : simpl never.

Lemma eks_hibernates `{HS : EKSClients} `{HSO : !EKSObservers} `{HL : !EKSLaws} `{HT : JSONText} `{HTL : !JSONTextLaws}
  `{HP : ParamsJSON} `{HM : MapOrder} spec params :
  decode_params zero_EKSParameters parse_eks_params (es_Parameters spec) = Some params ->
  HibernationLaws (HH := eks_hibernation spec params) eks_executor spec.
Proof.
  intros Hparams. split.
  - by intros c k i i' _ -> ->.
  - by intros c k k' i _ -> [= ->].
  - intros [n st] [n' st'] Hwf Hwf' Hn He. cbn in *. subst n'. f_equal.
    pose proof (parse_nodegroup_fields st Hwf) as H1. rewrite He, parse_nodegroup_fields in H1 by done. congruence.
  - intros [n st] Hwf. by apply nodegroup_fields_canonical.
  - done.
  - intros [n st] [n' st'] _ [_ Hsc] _ Hd. cbn in Hd, Hsc |- *. injection Hd as _ Hd _. by rewrite Hsc, <- Hd.
  - intros [n st] [n' st'] _ _ Hsc Hd. cbn in Hsc, Hd. change (ngs_WasScaled st' = false) in Hd. congruence.
  - intros observe clock c Hc. cbn.
    pose proof (eks_Shutdown_post spec params Hparams clock observe c Hc) as H.
    by destruct (eks_Shutdown _ _ _ _) as [r s].
  - intros observe t data live c Hc Henc. cbn.
    pose proof (eks_WakeUp_post spec params Hparams observe data c Henc t live Hc) as H.
    by destruct (eks_WakeUp _ _ _ _) as [r s].
  - intros observe t data live c Hc Hh Hfit. cbn.
    pose proof (eks_WakeUp_total spec params Hparams observe data c (fit_encoded _ _ Hfit) t live Hc Hh Hfit) as H.
    by destruct (eks_WakeUp _ _ _ _) as [r s].
Qed.

(** C4: after the runs of a cycle, a wakeup while EKS answers gives every node group
    the sizes that it had before the cycle, and does not fail. The runs of the cycle
    are shutdowns and wakeups, one after another, in any order, the first of them a
    shutdown; nothing else changes the node groups or the restore data meanwhile.
    Requests to EKS may fail anywhere in the runs, but those that fail have changed
    nothing; requests to the hub, where the restore data are kept, do not fail, and
    the report of every shutdown is saved. Restore data that the cycle finds are of
    an earlier cycle. No node group is named twice, the AWS configuration is valid,
    and when the last wakeup begins the service answers and no update of a node
    group of the cluster is running, since EKS would refuse another one. *)
Theorem eks_wakeup_restores `{HK : KubeApi} `{HKL : !KubeLaws} `{HJ : JSON} `{HJL : !JSONLaws}
  `{HS : EKSClients} `{HSO : !EKSObservers} `{HL : !EKSLaws} `{HT : JSONText} `{HTL : !JSONTextLaws}
  `{HP : ParamsJSON} `{HM : MapOrder} cfg spec params s0 s existing observe clk r s' :
  decode_params zero_EKSParameters parse_eks_params (es_Parameters spec) = Some params ->
  NoDup (target_nodegroups params (rs_target s0)) -> no_faults (rs_hub s0) ->
  loaded (rs_hub s0) (cfg_Namespace cfg) (cfg_Plan cfg) (cfg_Target cfg) = Ok existing ->
  (forall d, existing = Some d -> data_CycleID d <> cfg_CycleID cfg /\
     forall k, 0 <= StaleCount (status_of (data_Status d) k)) ->
  cycle_runs eks_executor cfg spec s0 s ->
  eks_healthy (rs_target s) -> (forall name, eks_updating (rs_target s) (eks_ClusterName params, name) = false) ->
  is_Some (BuildAWSConfig (cc_AWS (es_ConnectorConfig spec))) ->
  executeOperation (eks_executor observe) (set_operation "wakeup" cfg) clk spec s = (r, s') ->
  (forall id, eks_sizes (rs_target s') id = eks_sizes (rs_target s0) id) /\
  (forall e, r <> Err e) /\
  (await_Enabled (eks_AwaitCompletion params) = false -> exists result, r = Ok result).
Proof.
  intros Hp Hd Hf Hl Hex Hruns Hh Hi Hc Hrun.
  exact (cycle_restores eks_executor cfg spec (HH := eks_hibernation spec params)
    (HL := eks_hibernates spec params Hp) s0 s existing observe clk r s' Hd Hf Hl Hex Hruns (conj (conj Hh Hi) Hc) Hrun).
Qed.

(** ** Node groups in memory, and runs on them *)

From S2P Require Import Memory ExecutorSamples.

(** ** The service *)

Notation Groups := (gmap nodegroup_id ScalingConfig).

Definition valid_scalingb (c : ScalingConfig) : bool :=
  (0 <=? sg_MinSize c) && (sg_MinSize c <=? sg_DesiredSize c) && (sg_DesiredSize c <=? sg_MaxSize c) &&
  (sg_MaxSize c <? 2 ^ 31).

Lemma valid_scalingb_true c : valid_scalingb c = true <-> valid_scaling c.
Proof.
  unfold valid_scalingb, valid_scaling. rewrite !andb_true_iff, !Z.leb_le, Z.ltb_lt. tauto.
Qed.

(** Sizes that the API would not have accepted are not served. *)
Definition sizes (c : Groups) (id : nodegroup_id) : option ScalingConfig :=
  sc ← c !! id; if valid_scalingb sc then Some sc else None.

Definition names_in (c : Groups) (cluster : string) : list string :=
  snd <$> filter (fun id => id.1 = cluster) (fst <$> map_to_list c).

Definition answer_eks {A} (q : EKSRequest A) (w : Groups * list string) : (AWSError + A) * (Groups * list string) :=
  match q in EKSRequest A return (AWSError + A) * (Groups * list string) with
  | DescribeCluster _ => (inr (Some (mkEKSCluster "https://eks" "Y2E=")), w)
  | ListNodegroups _ => (inr w.2, w)
  | DescribeNodegroup cluster name =>
      (match sizes w.1 (cluster, name) with
       | Some sc => inr (mkNodegroup sc "ACTIVE")
       | None => inl ResourceNotFound
       end, w)
  | UpdateNodegroupConfig cluster name sc =>
      match sizes w.1 (cluster, name) with
      | Some _ => if valid_scalingb sc then (inr tt, (<[(cluster, name) := sc]> w.1, w.2))
                  else (inl (AWSFailure "InvalidParameterException"), w)
      | None => (inl ResourceNotFound, w)
      end
  | ListNode _ => (inr 0%nat, w)
  end.

Definition serve_eks {A} (q : EKSRequest A) := serve_faulty (@answer_eks) q.

#[export] Instance groups_clients : EKSClients := {|
  eks_service := {| World := Faulty AWSError (Groups * list string); serve A q := serve_eks q |};
  eks_loader := default_loader;
  base64_decode s := Some s;
  eks_k8sFactory _ := true;
|}.

#[export] Instance groups_observers : EKSObservers := {|
  eks_sizes w := sizes (fy_world w).1;
  eks_listing w _ := (fy_world w).2;
  eks_healthy w := fy_faults w = [];
  eks_updating _ _ := false;
|}.

Lemma answer_sizes {A} (q : EKSRequest A) w :
  sizes_after q (answer_eks q w).1 (sizes w.1) (sizes (answer_eks q w).2.1) /\ (answer_eks q w).2.2 = w.2.
Proof.
  destruct q as [n|cl|cl n|cl n sc|sel]; cbn; try done.
  - destruct (sizes w.1 (cl, n)) eqn:E; by split_and!.
  - destruct (sizes w.1 (cl, n)) as [sc0|] eqn:E; [|done]. destruct (valid_scalingb sc) eqn:Ev; [|done]. cbn.
    split; [|done]. split; [by eexists|]. intros id. unfold sizes. case_decide as H.
    + subst id. rewrite lookup_insert_eq. cbn. by rewrite Ev.
    + by rewrite lookup_insert_ne.
Qed.

Lemma failed_sizes {A} (q : EKSRequest A) e before after :
  (forall id, after id = before id) -> sizes_after q (inl e) before after.
Proof. intros H. destruct q; cbn; by try split. Qed.

#[export] Instance groups_laws : EKSLaws.
Proof.
  split.
  - intros A q w cl. cbn. destruct (serve_faulty_cases (@answer_eks) q w) as [(e & _ & H)|[_ H]]; unfold serve_eks; rewrite H; [done|].
    apply answer_sizes.
  - intros A q w. cbn. unfold serve_eks. destruct (serve_faulty_cases (@answer_eks) q w) as [(e & He & H)|[He H]]; rewrite He, H.
    + by apply failed_sizes.
    + apply answer_sizes.
  - intros w id sc. cbn. unfold sizes. destruct ((fy_world w).1 !! id) as [sc'|]; [|done]. cbn.
    destruct (valid_scalingb sc') eqn:E; [|done]. intros [= ->]. by apply valid_scalingb_true.
  - intros cl w l. cbn. unfold serve_eks. destruct (serve_faulty_cases (@answer_eks) (ListNodegroups cl) w) as [(e & He & H)|[He H]];
      rewrite He; [done|by intros [= <-]].
  - intros A q w. cbn. intros Hw. by apply serve_faulty_healthy.
  - intros cl n w. cbn. intros Hw [sc Hsc]. unfold serve_eks.
    destruct (serve_faulty_healthy (@answer_eks) (DescribeNodegroup cl n) w Hw) as (-> & _ & _). cbn. rewrite Hsc. by eexists.
  - done.
  - intros cl n sc w. cbn. intros Hw [sc0 Hsc] _ Hv%valid_scalingb_true. unfold serve_eks.
    destruct (serve_faulty_healthy (@answer_eks) (UpdateNodegroupConfig cl n sc) w Hw) as (-> & _ & _). cbn. by rewrite Hsc, Hv.
Qed.

(** ** Runs *)

Module EKSSamples.
Import RestoreSpec.RestoreSamples.

Definition general : nodegroup_id := ("prod", "general").
Definition spot : nodegroup_id := ("prod", "spot").
Definition idle : nodegroup_id := ("prod", "idle").

(** Three node groups, one of which is at zero already. *)
Definition prod (faults : list (option AWSError)) : EKSWorld :=
  mkFaulty ({[ general := mkScaling 2 3 5; spot := mkScaling 0 4 10; idle := mkScaling 0 0 3 ]} : Groups,
            ["general"; "spot"; "idle"]) faults.

Definition prod_params (names : list string) : EKSParameters := mkEKSParameters "prod" names no_await.

#[export] Instance sample_eks_params : ParamsJSON := {|
  parse_ec2_params _ := None;
  parse_rds_params _ := None;
  parse_eks_params text :=
    if (text =? "all")%string then Some (prod_params [])
    else if (text =? "twice")%string then Some (prod_params ["general"; "general"]) else None;
  parse_karpenter_params _ := None;
  parse_gke_params _ := None;
  parse_cloudsql_params _ := None;
  parse_scaler_params _ := None;
  parse_noop_params _ := None;
|}.

Definition eks_spec (params : string) : Spec :=
  mkSpec "nodes" "eks" params (mkConnectorConfig (Some (mkAWSConnectorConfig "eu-west-1" "" "" "" "" "")) None).
Definition eks_cfg (op : string) : Config := mkConfig op "nodes" "eks" "plan" "ns" "c1" "all" "CloudProvider" "aws" "ns".

Definition nothing_seen (_ : string) : EKSWorld * list (poll_event EKSWorld) := (prod [], []).
Definition nodes_executor : Executor EKSWorld := eks_executor nothing_seen.
Definition eks_clk : RunClock := mkRunClock (fun _ => t0) t0 t0 1500000000.
Definition prod_start (faults : list (option AWSError)) : RunnerState (T := EKSWorld) :=
  mkRunnerState (T := EKSWorld) empty_cluster (prod faults).

Definition shutdown_nodes (params : string) (s : RunnerState (T := EKSWorld)) :=
  shutdown_run nodes_executor (eks_cfg "shutdown") eks_clk (eks_spec params) s.
Definition wakeup_nodes (params : string) (s : RunnerState (T := EKSWorld)) :=
  executeOperation nodes_executor (set_operation "wakeup" (eks_cfg "shutdown")) eks_clk (eks_spec params) s.

Definition nodes (s : RunnerState (T := EKSWorld)) : list (option ScalingConfig) :=
  map (eks_sizes (rs_target s)) [general; spot; idle].

(** The first run scales [general] and fails at [spot]; the second finishes. *)
Definition nodes_failed := shutdown_nodes "all" (prod_start [None; None; None; None; None; Some (AWSFailure "throttled")]).
Definition nodes_second := shutdown_nodes "all" nodes_failed.2.

Example nodes_failed_state :
  nodes_failed.1 = (Err (EErrScaleNodegroup "spot" (AWSFailure "throttled")), Some (Ok tt)) /\
  nodes nodes_failed.2 = [Some (mkScaling 0 0 5); Some (mkScaling 0 4 10); Some (mkScaling 0 0 3)].
Proof. vm_compute. split; reflexivity. Qed.

Example nodes_second_state :
  nodes_second.1 = (Ok (mkResult "scaled 3 node group(s) to zero in EKS cluster prod" 0), Some (Ok tt)) /\
  nodes nodes_second.2 = [Some (mkScaling 0 0 5); Some (mkScaling 0 0 10); Some (mkScaling 0 0 3)].
Proof. vm_compute. split; reflexivity. Qed.

(** The sizes come back; the group at zero counts as skipped. *)
Example nodes_woken :
  (wakeup_nodes "all" nodes_second.2).1 =
    Ok (mkResult "restored 2 node group(s) in EKS cluster prod, skipped 1 stale node group(s)" 1500) /\
  nodes (wakeup_nodes "all" nodes_second.2).2 = nodes (prod_start []).
Proof. vm_compute. split; reflexivity. Qed.

(** A group that is named twice is visited twice, and the second report replaces
    the first: its sizes are lost. *)
Example named_twice_loses_sizes :
  let down := shutdown_nodes "twice" (prod_start []) in
  let up := wakeup_nodes "twice" down.2 in
  down.1.2 = Some (Ok tt) /\
  up.1 = Ok (mkResult "restored 0 node group(s) in EKS cluster prod, skipped 1 stale node group(s)" 1500) /\
  eks_sizes (rs_target up.2) general = Some (mkScaling 0 0 5).
Proof. vm_compute. split_and!; reflexivity. Qed.

(** The specification that the validation accepts. *)
Example eks_validates :
  eks_Validate (eks_spec "all") = Ok tt /\
  eks_Validate (eks_spec "none") = Err EErrParseParameters /\
  eks_Validate (eks_spec "") = Err EErrClusterNameRequired.
Proof. vm_compute. split_and!; reflexivity. Qed.
End EKSSamples.
Import EKSSamples.

Lemma eks_wakeup_restores_witness :
  nodes (prod_start []) = [Some (mkScaling 2 3 5); Some (mkScaling 0 4 10); Some (mkScaling 0 0 3)] /\
  forall id, eks_sizes (rs_target (wakeup_nodes "all" nodes_second.2).2) id = eks_sizes (prod []) id.
Proof.
  split; [by vm_compute|].
  refine (proj1 (eks_wakeup_restores (HS := groups_clients) (eks_cfg "shutdown") (eks_spec "all") (prod_params [])
    (prod_start [None; None; None; None; None; Some (AWSFailure "throttled")]) nodes_second.2 None nothing_seen eks_clk
    _ _ eq_refl _ _ _ _ _ eq_refl _ _ _)).
  - by repeat constructor; set_solver.
  - vm_compute. reflexivity.
  - vm_compute. reflexivity.
  - done.
  - apply (RunShutdown (eks_executor (HS := groups_clients)) _ _ nothing_seen eks_clk nodes_second.1.1 _ nodes_failed.2).
    + apply (RunFirst (eks_executor (HS := groups_clients)) _ _ nothing_seen eks_clk nodes_failed.1.1).
      apply split_run. vm_compute. reflexivity.
    + apply split_run. vm_compute. reflexivity.
  - done.
  - by eexists.
  - apply surjective_pairing.
Defined.
