(* ===== verification/Karpenter.v ===== *)
(** * The Karpenter executor ([internal/executor/karpenter])

    Deletes NodePools, so that Karpenter removes their nodes, and creates them
    again from the reported specification and labels.  Objects of the dynamic
    client are modelled by the fields that the code reads and writes; a
    specification is its JSON text. *)
From S2P Require Import Prelude Monad GoString GoTime Types Cluster Restore Params Executor Operation.
From Stdlib Require Import Lia.

Local Open Scope Z_scope.

(** ** The service *)

(** A condition of a NodePool; [None] for an entry that is not an object. *)
Record Condition := mkCondition {
  cond_Type : string;
  cond_Status : string;
}.

(** [status.conditions]: absent, or of another type. *)
Inductive conditions :=
| ConditionsMissing
| ConditionsInvalid
| ConditionsFound (l : list (option Condition)).

(** A NodePool: its [spec] when there is one, an object, and its labels. *)
Record NodePool := mkNodePool {
  np_Spec : option string;
  np_Labels : gmap string string;
  np_Conditions : conditions;
}.

Inductive PoolRequest : Type -> Type :=
| ListNodePools (selector : string) : PoolRequest (list string)
| GetNodePool (name : string) : PoolRequest NodePool
| DeleteNodePool (name : string) : PoolRequest unit
| CreateNodePool (name : string) (spec : string) (labels : gmap string string) : PoolRequest unit
| ListPoolNodes (selector : string) : PoolRequest nat.

(** The clients, and the texts of label selectors, which may be invalid. *)
Class PoolClients := {
  #[global] pool_service :: Service PoolRequest ApiError;
  pool_clientFactory : Spec -> bool;
  pool_selector_text : LabelSelector -> option string;
}.
Notation PoolWorld := (World PoolRequest).

Inductive KarpenterError :=
| KErrK8SRequired
| KErrClusterNameRequired
| KErrRegionRequired
| KErrParseParameters
| KErrExclusive
| KErrBuildClient
| KErrInvalidSelector
| KErrList (e : ApiError)
| KErrGet (name : string) (e : ApiError)
| KErrSpec (name : string)
| KErrDelete (name : string) (e : ApiError)
| KErrUnmarshalState (name : string)
| KErrCreate (name : string) (e : ApiError)
| KErrConditions
| KErrObserve (e : ApiError).

(** ** Data *)

Record NodePoolState := mkNodePoolState {
  nps_Name : string;
  nps_Spec : string;
  nps_Labels : gmap string string;
}.

Section json.
Context {HT : JSONText}.

Definition labels_text (labels : gmap string string) : string :=
  object_text ((fun v => SOther (quote v)) <$> labels).

(** A member that is not a string fails; null is the empty string. *)
Definition parse_labels (text : string) : option (gmap string string) :=
  m ← object_of_text text;
  if forallb (fun kv => bool_decide (is_Some (string_member m kv.1))) (map_to_list m)
  then Some (map_imap (fun k _ => string_member m k) m) else None.

(** [labels] is omitted when there are none. *)
Definition nodepool_fields (s : NodePoolState) : gmap string scalar :=
  let m := {[ "name" := SOther (quote (nps_Name s)); "spec" := SOther (nps_Spec s) ]} in
  if bool_decide (nps_Labels s = ∅) then m else <["labels" := SOther (labels_text (nps_Labels s))]> m.

(** [json.Unmarshal] into a [NodePoolState]; no [spec] is a nil map. *)
Definition parse_nodepool (text : string) : option NodePoolState :=
  m ← object_of_text text;
  name ← string_member m "name";
  spec ← match m !! "spec" with
         | None => Some "null"%string
         | Some (SOther t) => generic_object t
         | Some (SBool _) => None
         end;
  labels ← match m !! "labels" with
           | None => Some ∅
           | Some (SOther t) => parse_labels t
           | Some (SBool _) => None
           end;
  Some (mkNodePoolState name spec labels).
End json.

Definition karpenter_formatShutdownMessage (stats : operationStats) : string :=
  appendCountSegment ("scaled down " ++ sprint_d (st_applied stats) ++ " Karpenter NodePool(s)")
    "skipped" (st_skippedStale stats) "stale NodePool".

Definition karpenter_formatWakeUpMessage (stats : operationStats) : string :=
  appendCountSegment ("restored " ++ sprint_d (st_applied stats) ++ " Karpenter NodePool(s)")
    "skipped" (st_skippedStale stats) "stale NodePool".

(** ** Operations *)

Section operations.
Context {HS : PoolClients} {HT : JSONText} {HP : ParamsJSON} {HO : MapOrder}.
(** What the waits observe. *)
Context (observe : string -> PoolWorld * list (poll_event PoolWorld)).
Context {A : Type}.

Definition KM (B : Type) : Type := ST (Run PoolWorld string A) KarpenterError B.

Definition karpenter_parseParams (spec : Spec) : KM KarpenterParameters :=
  match decode_params zero_KarpenterParameters parse_karpenter_params (es_Parameters spec) with
  | Some params => st_ret params
  | None => st_throw KErrParseParameters
  end.

Definition buildClients (spec : Spec) : KM unit :=
  if pool_clientFactory spec then st_ret tt else st_throw KErrBuildClient.

Definition listAllNodePools : KM (list string) :=
  st_wrap KErrList (request (ListNodePools "")).

Definition listNodePoolsBySelector (selector : string) : KM (list string) :=
  st_wrap KErrList (request (ListNodePools selector)).

(** A selector that is present but empty selects by labels, and so everything. *)
Definition target_nodepools (params : KarpenterParameters) : KM (list string) :=
  match kp_NodeSelector params with
  | Some nodeSelector =>
      match pool_selector_text nodeSelector with
      | None => st_throw KErrInvalidSelector
      | Some selector => listNodePoolsBySelector selector
      end
  | None =>
      match kp_NodePools params with
      | [] => listAllNodePools
      | names => st_ret names
      end
  end.

Definition scaleDownNodePool (callback : option (ReportStateCallback A)) (params : KarpenterParameters)
  (name : string) : KM operationOutcome :=
  let! got := st_try (request (GetNodePool name)) in
  match got with
  | inl NotFound => st_ret operationOutcomeSkippedStale
  | inl e => st_throw (KErrGet name e)
  | inr nodePool =>
      match np_Spec nodePool with
      | None => st_throw (KErrSpec name)
      | Some spec =>
          let state := mkNodePoolState name spec (np_Labels nodePool) in
          let! deleted := st_try (request (DeleteNodePool name)) in
          match deleted with
          | inl NotFound => st_ret operationOutcomeSkippedStale
          | inl e => st_throw (KErrDelete name e)
          | inr _ =>
              do! wait_for (kp_AwaitCompletion params) name in
              do! report callback name (ReportStruct (object_text (nodepool_fields state))) in
              st_ret operationOutcomeApplied
          end
      end
  end.

(** ** Waiting *)

Definition karpenter_DefaultWaitTimeout : string := "5m".

(** [checkFn] of the two waits, in a state of the world. *)
Definition pool_nodes_deleted (name : string) (c : PoolWorld) : res KarpenterError bool :=
  match (serve (ListPoolNodes ("karpenter.sh/nodepool=" ++ name)) c).1 with
  | inl e => Err (KErrObserve e)
  | inr nodeCount => Ok (Nat.eqb nodeCount 0)
  end.

(** The first condition of type Ready decides. *)
Fixpoint ready_condition (l : list (option Condition)) : bool :=
  match l with
  | [] => false
  | None :: l' => ready_condition l'
  | Some c :: l' => if (cond_Type c =? "Ready")%string then (cond_Status c =? "True")%string else ready_condition l'
  end.

Definition nodepool_ready (name : string) (c : PoolWorld) : res KarpenterError bool :=
  match (serve (GetNodePool name) c).1 with
  | inl e => Err (KErrObserve e)
  | inr nodePool =>
      match np_Conditions nodePool with
      | ConditionsInvalid => Err KErrConditions
      | ConditionsMissing => Ok false
      | ConditionsFound l => Ok (ready_condition l)
      end
  end.

Definition waitForNodePoolDeleted (timeout name : string) : res unit unit :=
  wait_until (pool_nodes_deleted name) (observe name) timeout.

Definition waitForNodePoolReady (timeout name : string) : res unit unit :=
  wait_until (nodepool_ready name) (observe name) timeout.

Definition karpenter_Shutdown (spec : Spec) (callback : option (ReportStateCallback A)) : KM Result :=
  do! st_modify (set_run_waiting []) in
  let! params := karpenter_parseParams spec in
  do! buildClients spec in
  let! targets := target_nodepools params in
  if bool_decide (targets = [])
  then st_ret (mkResult "shutdown completed for Karpenter (no NodePools found)" 0)
  else
    let! stats := count_each (scaleDownNodePool callback params) targets
                    (mkStats (Z.of_nat (length targets)) 0 0) in
    let! msg := await_message (kp_AwaitCompletion params) karpenter_DefaultWaitTimeout waitForNodePoolDeleted
                  " NodePool(s) still have nodes after " "; all nodes terminated"
                  (karpenter_formatShutdownMessage stats) in
    st_ret (mkResult msg 0).

(** ** Wakeup *)

Definition restoreNodePool (params : KarpenterParameters) (name : string) (state : NodePoolState) :
  KM operationOutcome :=
  let! created := st_try (request (CreateNodePool name (nps_Spec state) (nps_Labels state))) in
  match created with
  | inl AlreadyExists => st_ret operationOutcomeSkippedStale
  | inl e => st_throw (KErrCreate name e)
  | inr _ => do! wait_for (kp_AwaitCompletion params) name in st_ret operationOutcomeApplied
  end.

(** One iteration of the loop of [WakeUp]. *)
Definition restore_nodepool_entry (params : KarpenterParameters) (name text : string) (stats : operationStats) :
  KM operationStats :=
  match parse_nodepool text with
  | None => st_throw (KErrUnmarshalState name)
  | Some state => let! outcome := restoreNodePool params name state in st_ret (count_outcome outcome stats)
  end.

Definition karpenter_WakeUp (spec : Spec) (restore : RestoreData) : KM Result :=
  do! st_modify (set_run_waiting []) in
  if bool_decide (rd_Data restore = ∅)
  then st_ret (mkResult "wakeup completed for Karpenter (no restore data)" 0)
  else
    let! params := karpenter_parseParams spec in
    do! buildClients spec in
    let! stats := wake_entries (restore_nodepool_entry params) (rd_Data restore)
                    (restore_order (rd_Data restore)) (mkStats (Z.of_nat (size (rd_Data restore))) 0 0) in
    let! msg := await_message (kp_AwaitCompletion params) karpenter_DefaultWaitTimeout waitForNodePoolReady
                  " NodePool(s) not yet ready after " "; all NodePools ready"
                  (karpenter_formatWakeUpMessage stats) in
    st_ret (mkResult msg 0).
End operations.

(** ** The executor *)

Definition karpenter_Validate `{HP : ParamsJSON} (spec : Spec) : res KarpenterError unit :=
  match cc_K8S (es_ConnectorConfig spec) with
  | None => Err KErrK8SRequired
  | Some k8s =>
      if (k8s_ClusterName k8s =? "")%string then Err KErrClusterNameRequired
      else if (k8s_Region k8s =? "")%string then Err KErrRegionRequired
      else match decode_params zero_KarpenterParameters parse_karpenter_params (es_Parameters spec) with
           | None => Err KErrParseParameters
           | Some params =>
               if negb (bool_decide (kp_NodePools params = [])) && has_label_selector (kp_NodeSelector params)
               then Err KErrExclusive else Ok tt
           end
  end.

Definition KarpenterExecutorType : string := "karpenter".

Definition karpenter_executor `{HS : PoolClients} `{HT : JSONText} `{HP : ParamsJSON}
  `{HO : MapOrder} (observe : string -> PoolWorld * list (poll_event PoolWorld)) : Executor PoolWorld := {|
  ExecutorError := KarpenterError;
  executor_Type := KarpenterExecutorType;
  Validate := karpenter_Validate;
  Shutdown A spec callback := fun s =>
    let '(r, s') := karpenter_Shutdown observe spec callback (mkRun s.1 [] s.2) in
    (r, (run_target s', run_acc s'));
  WakeUp spec restore := fun c =>
    let '(r, s') := karpenter_WakeUp observe spec restore (mkRun c [] tt) in (r, run_target s');
|}.
