(* ===== verification/KarpenterSpec.v ===== *)
(** * The Karpenter executor in the runner

    [PoolLaws] states what the executor relies on: a NodePool that is read has the
    specification and labels it was created with, a deletion removes it, a creation
    succeeds for names that are free, and a request that fails changes nothing.
    Under these laws the executor keeps the contract of [Cycle]; a NodePool that is
    shut down is gone, and its report is all that is left of it. *)
From S2P Require Import Prelude Monad GoString GoTime Types Cluster Restore RestoreSpec Params Executor Operation.
From S2P Require Import Runner Cycle Karpenter.
From Stdlib Require Import Lia.

Local Open Scope Z_scope.

Local Arguments report : simpl never.
Local Arguments wait_for : simpl never.
Local Arguments await_message : simpl never.

(** A NodePool as far as the program restores it. *)
Notation pool_value := (option string * gmap string string)%type.

Class PoolObservers `{PoolClients} := {
  pl_pools : PoolWorld -> string -> option pool_value;
  pl_healthy : PoolWorld -> Prop;
}.

(** What the API server keeps of a NodePool: an object whose JSON is canonical, and
    labels of ASCII characters. *)
Definition valid_pool `{JSONText} (name spec : string) (labels : gmap string string) : Prop :=
  is_ascii name = true /\ json_canonical spec /\ generic_object spec = Some spec /\ spec <> "null"%string /\
  map_Forall (fun _ v => is_ascii v = true) labels.

Definition pools_after {A} (q : PoolRequest A) :
  ApiError + A -> (string -> option pool_value) -> (string -> option pool_value) -> Prop :=
  match q in PoolRequest A return
    ApiError + A -> (string -> option pool_value) -> (string -> option pool_value) -> Prop with
  | ListNodePools _ => fun r before after =>
      (forall i, after i = before i) /\ match r with inr l => NoDup l | inl _ => True end
  | GetNodePool name => fun r before after =>
      (forall i, after i = before i) /\
      match r with inr np => before name = Some (np_Spec np, np_Labels np) | inl _ => True end
  | DeleteNodePool name => fun r before after =>
      match r with
      | inr _ => forall i, after i = if decide (i = name) then None else before i
      | inl _ => forall i, after i = before i
      end
  | CreateNodePool name spec labels => fun r before after =>
      match r with
      | inr _ => forall i, after i =
          if decide (i = name) then Some (if (spec =? "null")%string then None else Some spec, labels) else before i
      | inl _ => forall i, after i = before i
      end
  | ListPoolNodes _ => fun _ before after => forall i, after i = before i
  end.

Class PoolLaws `{HS : PoolClients} {HO : PoolObservers} {HT : JSONText} : Prop := {
  pl_serve_pools {A} (q : PoolRequest A) c : pools_after q (serve q c).1 (pl_pools c) (pl_pools (serve q c).2);
  pl_valid c name spec labels : pl_pools c name = Some (Some spec, labels) -> valid_pool name spec labels;
  pl_healthy_serve {A} (q : PoolRequest A) c : pl_healthy c -> pl_healthy (serve q c).2;
  pl_healthy_create name spec labels c : pl_healthy c -> valid_pool name spec labels ->
    (serve (CreateNodePool name spec labels) c).1 =
      match pl_pools c name with None => inr tt | Some _ => inl AlreadyExists end;
}.

(** ** States *)

Definition nodepool_wf `{JSONText} (s : NodePoolState) : Prop :=
  valid_pool (nps_Name s) (nps_Spec s) (nps_Labels s).

Section encoding.
Context {HT : JSONText} {HTL : JSONTextLaws}.

Lemma parse_labels_text labels :
  map_Forall (fun _ v => is_ascii v = true) labels -> parse_labels (labels_text labels) = Some labels.
Proof.
  intros Hl. unfold parse_labels, labels_text. rewrite object_roundtrip.
  2: { intros k v. rewrite lookup_fmap, fmap_Some. intros (x & Hx & ->). cbn. by apply quote_canonical, (Hl k). }
  cbn [mbind option_bind].
  assert (forall k, string_member ((fun v => SOther (quote v)) <$> labels) k = Some (default "" (labels !! k))) as Hm.
  { intros k. unfold string_member. rewrite lookup_fmap. destruct (labels !! k) as [v|] eqn:E; [|done]. cbn.
    rewrite quote_not_null by (by apply (Hl k)). by apply quote_roundtrip, (Hl k). }
  assert (forallb (fun kv => bool_decide (is_Some (string_member ((fun v => SOther (quote v)) <$> labels) kv.1)))
            (map_to_list ((fun v => SOther (quote v)) <$> labels)) = true) as ->.
  { apply forallb_forall. intros kv _. apply bool_decide_eq_true. rewrite Hm. by eexists. }
  f_equal. apply map_eq. intros k. rewrite map_lookup_imap, lookup_fmap, Hm. by destruct (labels !! k).
Qed.

Lemma nodepool_lookups s :
  nodepool_fields s !! "name" = Some (SOther (quote (nps_Name s))) /\
  nodepool_fields s !! "spec" = Some (SOther (nps_Spec s)) /\
  nodepool_fields s !! "labels" = if bool_decide (nps_Labels s = ∅) then None else Some (SOther (labels_text (nps_Labels s))).
Proof. unfold nodepool_fields. case_bool_decide; by repeat split. Qed.

Lemma nodepool_fields_canonical s : nodepool_wf s -> map_Forall (fun _ v => scalar_canonical v) (nodepool_fields s).
Proof.
  intros (Hn & Hc & _ & _ & Hl). unfold nodepool_fields.
  assert (map_Forall (fun _ v => scalar_canonical v)
    ({[ "name" := SOther (quote (nps_Name s)); "spec" := SOther (nps_Spec s) ]} : gmap string scalar)) as Hm.
  { apply map_Forall_insert_2; [by apply quote_canonical|]. by apply map_Forall_singleton. }
  case_bool_decide; [done|]. apply map_Forall_insert_2; [|done]. cbn. unfold labels_text. apply object_canonical.
  intros k v. rewrite lookup_fmap, fmap_Some. intros (x & Hx & ->). cbn. by apply quote_canonical, (Hl k).
Qed.

Lemma parse_nodepool_fields s : nodepool_wf s -> parse_nodepool (object_text (nodepool_fields s)) = Some s.
Proof.
  intros Hwf. pose proof Hwf as (Hn & _ & Hs & _ & Hl). destruct (nodepool_lookups s) as (H1 & H2 & H3).
  unfold parse_nodepool. rewrite object_roundtrip by (by apply nodepool_fields_canonical). cbn [mbind option_bind].
  rewrite (string_member_quote _ "name" (nps_Name s)) by done. rewrite H2. cbn [mbind option_bind]. rewrite Hs.
  cbn [mbind option_bind]. rewrite H3. destruct s as [name spec labels]. cbn in *. case_bool_decide; [by subst|].
  by rewrite parse_labels_text.
Qed.

(** No member of the state says that it is demanded. *)
Lemma nodepool_undemanded s : demanded (AnyMap (nodepool_fields s)) = false.
Proof.
  cbn. unfold isDemandedState, bool_member.
  assert (forall k, k <> "name"%string -> k <> "spec"%string -> k <> "labels"%string -> nodepool_fields s !! k = None) as H.
  { intros k H1 H2 H3. unfold nodepool_fields. case_bool_decide;
      rewrite ?(lookup_insert_ne (M:=gmap string) _ "labels"), (lookup_insert_ne (M:=gmap string)), lookup_singleton_ne by done; done. }
  by rewrite !H.
Qed.
End encoding.

(** ** Resources *)

Section instance.
Context {HS : PoolClients} {HSO : PoolObservers} {HT : JSONText} {HTL : JSONTextLaws} {HL : PoolLaws}.
Context {HP : ParamsJSON} {HM : MapOrder}.
Context (spec : Spec) (params : KarpenterParameters).
Hypothesis Hparams : decode_params zero_KarpenterParameters parse_karpenter_params (es_Parameters spec) = Some params.

#[export] Instance karpenter_hibernation : Hibernation PoolWorld := {|
  h_resource := string;
  h_resource_dec := _;
  h_value := pool_value;
  h_state := NodePoolState;
  h_look := pl_pools;
  h_linked _ k name := name = k;
  h_ready _ := NoDup (kp_NodePools params);
  h_healthy c := pl_healthy c /\ pool_clientFactory spec = true;
  h_awaits := await_Enabled (kp_AwaitCompletion params);
  st_key := nps_Name;
  st_id := nps_Name;
  st_value st := (Some (nps_Spec st), nps_Labels st);
  st_down _ := None;
  st_scaled _ := true;
  st_fields := nodepool_fields;
  st_wf := nodepool_wf;
|}.

Lemma karpenter_links c c' : same_links c c'.
Proof. done. Qed.

Notation PRun A := (Run PoolWorld string A).

Section shutdown.
Context (clock : nat -> time).
Notation callback := (Some (acc_add clock)).
Notation at_state P := (fun s : PRun Accumulator => P (run_target s) (run_acc s)).

Lemma pool_shutting_same c1 rest c c2 acc :
  (forall i, pl_pools c2 i = pl_pools c i) -> shutting c1 rest c acc -> shutting c1 rest c2 acc.
Proof. intros Hv Hs. apply (shutting_same c1 rest c); [apply (sp_ready _ _ _ (sh_post _ _ _ _ Hs))|done..]. Qed.

Lemma scaleDownNodePool_inv c1 name rest :
  name ∉ rest ->
  hoare (at_state (shutting c1 (name :: rest))) (scaleDownNodePool callback params name)
    (fun _ => at_state (shutting c1 rest)) (fun _ => at_state (shutting c1 [])).
Proof.
  intros Hn. unfold scaleDownNodePool. apply hoare_request. intros s Hs.
  set (q := GetNodePool name). pose proof (pl_serve_pools q (run_target s)) as Hq. cbn in Hq.
  pose proof (fun c2 H => pool_shutting_same c1 (name :: rest) (run_target s) c2 (run_acc s) H Hs) as Hs2.
  destruct (serve q (run_target s)) as [[e|np] c2]; cbn in Hq |- *; destruct Hq as [Hsame Hnp]; specialize (Hs2 c2 Hsame).
  - destruct e; first [apply hoare_ret|apply hoare_throw]; intros ? ->; cbn;
      (eapply shutting_rest; [|exact Hs2]); set_solver.
  - destruct np as [[text|] labels conds]; cbn in Hnp |- *.
    2: { apply hoare_throw. intros ? ->. cbn. eapply shutting_rest; [|exact Hs2]. set_solver. }
    apply hoare_request. intros s2 ->. cbn. set (q2 := DeleteNodePool name).
    pose proof (pl_serve_pools q2 c2) as Hq2. cbn in Hq2.
    destruct (serve q2 c2) as [[e|u] c3]; cbn in Hq2 |- *.
    + pose proof (pool_shutting_same c1 (name :: rest) c2 c3 _ Hq2 Hs2) as Hs3.
      destruct e; first [apply hoare_ret|apply hoare_throw]; intros ? ->; cbn;
        (eapply shutting_rest; [|exact Hs3]); set_solver.
    + set (st := mkNodePoolState name text labels).
      destruct (sh_rest _ _ _ _ Hs name name ltac:(by left) eq_refl) as [_ Hc1]. cbn in Hc1.
      assert (reports_of c1 st) as Hrep.
      { split; [|done|cbn; congruence]. cbn. eapply (pl_valid c1). cbn. congruence. }
      assert (map_Forall (fun _ v => scalar_canonical v) (st_fields st)) as Hcan
        by (apply nodepool_fields_canonical, Hrep).
      intros s3 ->. unfold st_bind.
      destruct (wait_for_run (E:=KarpenterError) (kp_AwaitCompletion params) name
                  (set_run_target c3 (set_run_target c2 s))) as [l ->].
      change (nodepool_fields _) with (st_fields st). rewrite report_accumulates by done. cbn.
      apply (shutting_visit (HH:=karpenter_hibernation) clock c1 rest (run_target s) (run_acc s) st c3); try done.
      * apply (sp_ready _ _ _ (sh_post _ _ _ _ Hs)).
      * intros i Hi. cbn in Hi |- *. by rewrite Hq2, decide_False.
      * cbn. rewrite Hq2. by rewrite decide_True.
Qed.

Lemma scaleDownNodePool_completes name : completes (scaleDownNodePool callback params name).
Proof.
  unfold scaleDownNodePool. apply completes_bind; [apply completes_request|]. intros [e|np]; [by destruct e|].
  destruct (np_Spec np); [|done].
  apply completes_bind; [apply completes_request|]. intros [e|u]; [by destruct e|].
  apply completes_bind; [apply wait_for_completes|]. intros _. apply completes_bind; [|done].
  apply report_completes. by intros f [= <-] a.
Qed.

(** The names to visit: nothing has changed, and no name comes twice. *)
Definition untouched (c1 : PoolWorld) (s : PRun Accumulator) : Prop :=
  forall rest, shutting c1 rest (run_target s) (run_acc s).

Lemma list_untouched sel c1 :
  hoare (untouched c1) (st_wrap KErrList (request (W:=string) (ListNodePools sel)))
    (fun l s => untouched c1 s /\ NoDup l) (fun _ => untouched c1).
Proof.
  intros s Hs. rewrite wrap_request. pose proof (pl_serve_pools (ListNodePools sel) (run_target s)) as [Hq Hl].
  assert (untouched c1 (set_run_target (serve (ListNodePools sel) (run_target s)).2 s)) as Hs2.
  { intros rest. cbn. eapply pool_shutting_same; [exact Hq|apply Hs]. }
  by destruct (serve (ListNodePools sel) (run_target s)).1.
Qed.

Lemma target_nodepools_inv c1 : NoDup (kp_NodePools params) ->
  hoare (untouched c1) (target_nodepools params) (fun l s => untouched c1 s /\ NoDup l) (fun _ => untouched c1).
Proof.
  intros Hd. unfold target_nodepools, listNodePoolsBySelector, listAllNodePools.
  destruct (kp_NodeSelector params); [case_match; [apply list_untouched|by apply hoare_throw]|].
  destruct (kp_NodePools params); [apply list_untouched|by apply hoare_ret].
Qed.

Lemma target_nodepools_completes : completes (target_nodepools (A:=Accumulator) params).
Proof.
  unfold target_nodepools, listNodePoolsBySelector, listAllNodePools.
  assert (forall sel, completes (st_wrap KErrList (request (W:=string) (A:=Accumulator) (ListNodePools sel)))) as H.
  { intros sel. apply completes_wrap, completes_lift. intros c. apply (completes_ask (ListNodePools sel)). }
  repeat case_match; first [apply H|done].
Qed.
End shutdown.

Context (observe : string -> PoolWorld * list (poll_event PoolWorld)).

Lemma karpenter_waits_no_panic timeout name :
  waitForNodePoolDeleted observe timeout name <> Panic /\ waitForNodePoolReady observe timeout name <> Panic.
Proof.
  split; apply wait_until_no_panic; intros c.
  - unfold pool_nodes_deleted. by destruct (serve _ c).1.
  - unfold nodepool_ready. destruct (serve _ c).1 as [e|np]; [done|]. by destruct (np_Conditions np).
Qed.

Lemma karpenter_parseParams_run {A} (s : PRun A) : karpenter_parseParams spec s = (Ok params, s).
Proof. unfold karpenter_parseParams. by rewrite Hparams. Qed.

(** A shutdown, whichever requests fail. *)
Lemma karpenter_Shutdown_post clock c1 :
  h_ready c1 ->
  let '(r, s') := karpenter_Shutdown observe spec (Some (acc_add clock)) (mkRun c1 [] NewAccumulator) in
  r <> Panic /\ shut_post c1 (run_target s') (run_acc s').
Proof.
  intros Hd. set (Post := fun o : res KarpenterError Result * PRun Accumulator =>
    o.1 <> Panic /\ shut_post c1 (run_target o.2) (run_acc o.2)).
  enough (Post (karpenter_Shutdown observe spec (Some (acc_add clock)) (mkRun c1 [] NewAccumulator))) as H.
  { unfold Post in H. by destruct (karpenter_Shutdown _ _ _ _). }
  assert (forall s : PRun Accumulator, untouched c1 s -> shut_post c1 (run_target s) (run_acc s)) as Hun
    by (intros s Hs; apply (Hs [])).
  unfold karpenter_Shutdown. unfold st_bind at 1. cbn [st_modify set_run_waiting run_target run_acc].
  unfold st_bind at 1. rewrite karpenter_parseParams_run.
  assert (untouched c1 (mkRun c1 [] NewAccumulator)) as H0 by (intros rest; by apply shutting_start).
  unfold st_bind at 1, buildClients. destruct (pool_clientFactory spec); cbn [st_ret st_throw]; [|by split; [|apply Hun] ].
  eapply (bind_step (untouched c1)); [apply target_nodepools_completes|by apply target_nodepools_inv|exact H0| |].
  2: { intros e s Hs. split; [done|by apply Hun]. }
  intros l s1 [Hs1 Hl]. case_bool_decide; [by split; [|apply Hun] |].
  eapply (bind_step (fun s => shutting c1 l (run_target s) (run_acc s))).
  - apply completes_count_each. intros name. apply scaleDownNodePool_completes.
  - apply (hoare_count_each (fun l s => shutting c1 l (run_target s) (run_acc s))
             (fun _ s => shutting c1 [] (run_target s) (run_acc s))); [|done].
    intros name rest Hn _. apply scaleDownNodePool_inv. by apply NoDup_cons in Hn as [? _].
  - apply Hs1.
  - intros stats s4 Hs4. unfold st_bind.
    awaited (fun t x => proj1 (karpenter_waits_no_panic t x)) r Hnp Hne Hoff. split; [by destruct r|].
    by destruct r; apply Hs4.
  - intros e s4 Hs4. split; [done|apply Hs4].
Qed.

(** ** Wakeup *)

Section wakeup.
Context (data : gmap string string) (c1 : PoolWorld).
Hypothesis Henc : encoded data.

Lemma pool_entry_state name text : data !! name = Some text ->
  exists st, parse_nodepool text = Some st /\ nps_Name st = name /\ holds data st.
Proof.
  intros Hk. destruct (Henc name text Hk) as (st & Hn & Ht & Hwf). cbn in Hn, Ht, Hwf. subst name text.
  exists st. split_and!; [by apply parse_nodepool_fields|done|by split].
Qed.

(** One NodePool: the world afterwards, and when it is there. *)
Lemma restoreNodePool_spec st (s : PRun unit) :
  holds data st -> wake_post data c1 (run_target s) ->
  exists r c2 l, restoreNodePool params (nps_Name st) st s = (r, mkRun c2 l tt) /\ completed r /\
    wake_post data c1 c2 /\
    (pl_healthy (run_target s) ->
       pl_pools (run_target s) (nps_Name st) = Some (st_value st) \/ pl_pools (run_target s) (nps_Name st) = None ->
       (exists o, r = Ok o) /\ pl_healthy c2 /\
       forall id, pl_pools c2 id = if decide (id = nps_Name st) then Some (st_value st) else pl_pools (run_target s) id).
Proof.
  intros Hst Hs. pose proof (proj2 Hst) as Hwf. cbn in Hwf. unfold restoreNodePool.
  set (q := CreateNodePool _ _ _). unfold st_bind at 1. rewrite try_request. destruct s as [c l []]. cbn [run_target] in *.
  pose proof (pl_serve_pools q c) as Hq. pose proof (pl_healthy_serve q c) as Hh.
  pose proof (fun H => pl_healthy_create _ _ _ c H Hwf) as Hg. fold q in Hg.
  destruct (serve q c) as [[e|u] c2]; cbn in Hq, Hh, Hg |- *.
  - assert (wake_post data c1 c2) as Hw by by (apply (wake_post_same data c1 c c2); [apply (wp_ready _ _ _ Hs)|done..]).
    exists (if decide (e = AlreadyExists) then Ok operationOutcomeSkippedStale else Err (KErrCreate (nps_Name st) e)), c2, l.
    split_and!; [by destruct e|by destruct e|done|]. intros Hc Hid. specialize (Hg Hc).
    destruct Hid as [Hid|Hid]; rewrite Hid in Hg; [injection Hg as ->|done].
    split_and!; [by eexists|by auto|]. intros id. rewrite Hq. by case_decide as H; [rewrite H|].
  - destruct (wait_for_run (E:=KarpenterError) (kp_AwaitCompletion params) (nps_Name st) (mkRun c2 l tt)) as [l' Hwait].
    unfold st_bind. change (set_run_target c2 (mkRun c l tt)) with (mkRun c2 l tt). rewrite Hwait.
    exists (Ok operationOutcomeApplied), c2, l'.
    assert ((nps_Spec st =? "null")%string = false) as Hnull by apply String.eqb_neq, Hwf. rewrite Hnull in Hq.
    split_and!; [done|done| |].
    + apply (wake_post_restore (HH:=karpenter_hibernation) data c1 c c2 st); try done.
      * apply (wp_ready _ _ _ Hs).
      * intros i Hi. cbn in Hi |- *. by rewrite Hq, decide_False.
      * cbn. by rewrite Hq, decide_True.
    + intros Hc _. split_and!; [by eexists|by auto|done].
Qed.

Lemma restore_pool_inv name text stats : data !! name = Some text ->
  hoare (fun s : PRun unit => wake_post data c1 (run_target s))
    (restore_nodepool_entry params name text stats)
    (fun _ s => wake_post data c1 (run_target s)) (fun _ s => wake_post data c1 (run_target s)).
Proof.
  intros Hk s Hs. destruct (pool_entry_state name text Hk) as (st & Hp & <- & Hst). unfold restore_nodepool_entry.
  rewrite Hp. destruct (restoreNodePool_spec st s Hst Hs) as (r & c2 & l & Hrun & _ & Hw & _).
  unfold st_bind. rewrite Hrun. by destruct r.
Qed.

Lemma restore_pool_completes name text stats :
  completes (restore_nodepool_entry (A:=unit) params name text stats).
Proof.
  unfold restore_nodepool_entry. destruct (parse_nodepool text) as [st|]; [|done]. apply completes_bind; [|done].
  unfold restoreNodePool. apply completes_bind; [apply completes_request|]. intros [e|u]; [by destruct e|].
  apply completes_bind; [apply wait_for_completes|done].
Qed.

Lemma karpenter_WakeUp_post t live : h_ready c1 ->
  let '(r, s') := karpenter_WakeUp observe spec (mkRestoreData t data live) (mkRun c1 [] tt) in
  r <> Panic /\ wake_post data c1 (run_target s').
Proof.
  intros Hd. set (Post := fun o : res KarpenterError Result * PRun unit => o.1 <> Panic /\ wake_post data c1 (run_target o.2)).
  enough (Post (karpenter_WakeUp observe spec (mkRestoreData t data live) (mkRun c1 [] tt))) as H.
  { unfold Post in H. by destruct (karpenter_WakeUp _ _ _ _). }
  pose proof (wake_post_start data c1 Hd) as H0.
  unfold karpenter_WakeUp. unfold st_bind at 1. cbn [st_modify set_run_waiting run_target run_acc rd_Data].
  case_bool_decide; [done|]. unfold st_bind at 1. rewrite karpenter_parseParams_run.
  set (Inv := fun s : PRun unit => wake_post data c1 (run_target s)).
  unfold st_bind at 1, buildClients. destruct (pool_clientFactory spec); cbn [st_ret st_throw]; [|done].
  eapply (bind_step Inv (fun _ => Inv) (fun _ => Inv)); [| |done| |done].
  - apply completes_wake_entries, restore_pool_completes.
  - apply hoare_wake_entries, restore_pool_inv.
  - intros stats s2 Hs2. unfold st_bind.
    awaited (fun t x => proj2 (karpenter_waits_no_panic t x)) r Hnp Hne Hoff. by destruct r.
Qed.

(** The records are there, as they were, or gone. *)
Lemma karpenter_WakeUp_total t live : h_ready c1 -> h_healthy c1 -> fitting data c1 ->
  let '(r, s') := karpenter_WakeUp observe spec (mkRestoreData t data live) (mkRun c1 [] tt) in
  (forall st, holds data st -> st_scaled st = true -> h_look (run_target s') (st_id st) = Some (st_value st)) /\
  (forall e, r <> Err e) /\ (h_awaits = false -> exists result, r = Ok result).
Proof.
  intros Hd [Hh Hcl] Hfit.
  set (Goal' := fun s : PRun unit => pl_healthy (run_target s) /\
    forall st, holds data st -> st_scaled st = true -> h_look (run_target s) (st_id st) = Some (st_value st)).
  set (Post := fun o : res KarpenterError Result * PRun unit => Goal' o.2 /\ (forall e, o.1 <> Err e) /\
    (await_Enabled (kp_AwaitCompletion params) = false -> exists result, o.1 = Ok result)).
  enough (Post (karpenter_WakeUp observe spec (mkRestoreData t data live) (mkRun c1 [] tt))) as H.
  { unfold Post, Goal' in H. destruct (karpenter_WakeUp _ _ _ _) as [r s']. by destruct H as ([_ H2] & H3 & H4). }
  unfold karpenter_WakeUp. unfold st_bind at 1. cbn [st_modify set_run_waiting run_target run_acc rd_Data].
  case_bool_decide as He.
  { split_and!; try done; [|by eexists]. split; [done|]. intros st [Hk _]. by rewrite He, lookup_empty in Hk. }
  unfold st_bind at 1. rewrite karpenter_parseParams_run. unfold st_bind at 1, buildClients. rewrite Hcl. cbn [st_ret].
  set (Inv := fun s : PRun unit => wake_post data c1 (run_target s) /\ pl_healthy (run_target s)).
  assert (Inv (mkRun c1 [] tt)) as H0 by (split; [by apply wake_post_start|done]).
  set (D := fun (name : string) (s : PRun unit) => forall st : NodePoolState,
    holds (HH:=karpenter_hibernation) data st -> nps_Name st = name ->
    pl_pools (run_target s) name = Some (Some (nps_Spec st), nps_Labels st)).
  eapply (bind_total Inv); [|exact H0|].
  - apply (succeeds_wake_entries (fun _ => Inv) D); [| |done|apply restore_order_NoDup].
    + intros name text stats rest l Hk _ s [[Hw Hhs] Hl]. destruct (pool_entry_state name text Hk) as (st & Hp & <- & Hst).
      unfold restore_nodepool_entry. rewrite Hp.
      assert (forall st', holds (HH:=karpenter_hibernation) data st' -> nps_Name st' = nps_Name st -> st' = st) as Huniq.
      { intros st' [Hk' Hwf'] Hn. cbn in Hk', Hwf'. rewrite Hn, Hk in Hk'. injection Hk' as ->.
        rewrite parse_nodepool_fields in Hp by done. congruence. }
      destruct (restoreNodePool_spec st s Hst Hw) as (r & c2 & l2 & Hrun & _ & Hw2 & Htot).
      destruct Htot as ([o ->] & Hh2 & Hc2); [done| |].
      { destruct (wp_changes _ _ _ Hw (nps_Name st)) as [H|(st' & Hst' & _ & Hid & H)]; cbn in H; rewrite H.
        - by apply (fit_value (HH:=karpenter_hibernation) _ _ Hfit st Hst).
        - left. by rewrite (Huniq st' Hst' Hid). }
      unfold st_bind. rewrite Hrun. cbn. eexists _, _. split; [done|]. split; [by split|]. constructor.
      * intros st' Hst' Hn. rewrite (Huniq st' Hst' Hn). cbn. by rewrite Hc2, decide_True.
      * apply (Forall_impl _ _ _ Hl). intros n Hn st' Hst' Hn'. cbn. rewrite Hc2. case_decide as Hid; [|by apply Hn].
        subst n. by rewrite (Huniq st' Hst' Hid).
    + intros name s Hk st [Hk' _] <-. cbn in Hk'. congruence.
  - intros stats s2 [[Hw2 Hh2] Hall].
    assert (Goal' s2) as Hgoal.
    { split; [done|]. intros st Hst _. rewrite Forall_forall in Hall.
      apply (Hall (nps_Name st)); [|done..]. eapply elem_of_restore_order. apply Hst. }
    unfold st_bind. awaited (fun t x => proj2 (karpenter_waits_no_panic t x)) r Hnp Hne Hoff.
    destruct r as [msg|e| |]; [|by destruct (Hne e)|done|]; split_and!; try done.
    + by eexists.
    + intros H. by specialize (Hoff H).
Qed.
End wakeup.
End instance.

Local Arguments karpenter_Shutdown : simpl never.
Local Arguments karpenter_WakeUp : simpl never.

Lemma karpenter_hibernates `{HS : PoolClients} `{HSO : !PoolObservers} `{HT : JSONText} `{HTL : !JSONTextLaws}
  `{HL : !PoolLaws} `{HP : ParamsJSON} `{HM : MapOrder} spec params :
  decode_params zero_KarpenterParameters parse_karpenter_params (es_Parameters spec) = Some params ->
  HibernationLaws (HH := karpenter_hibernation spec params) karpenter_executor spec.
Proof.
  intros Hparams. split.
  - by intros c k i i' _ -> ->.
  - by intros c k k' i _ <- <-.
  - intros st st' Hwf Hwf' _ He. cbn in *.
    pose proof (parse_nodepool_fields st Hwf) as H1. rewrite He, parse_nodepool_fields in H1 by done. congruence.
  - intros st Hwf. by apply nodepool_fields_canonical.
  - done.
  - done.
  - intros [n text ls] [n' text' ls'] _ _ _ _ Hk _ Hv. specialize (Hv eq_refl). injection Hv as -> ->. cbn in Hk. congruence.
  - intros observe clock c Hc. cbn.
    pose proof (karpenter_Shutdown_post spec params Hparams observe clock c Hc) as H.
    by destruct (karpenter_Shutdown _ _ _ _) as [r s].
  - intros observe t data live c Hc Henc. cbn.
    pose proof (karpenter_WakeUp_post spec params Hparams observe data c Henc t live Hc) as H.
    by destruct (karpenter_WakeUp _ _ _ _) as [r s].
  - intros observe t data live c Hc Hh Hfit. cbn.
    pose proof (karpenter_WakeUp_total spec params Hparams observe data c (fit_encoded _ _ Hfit) t live Hc Hh Hfit) as H.
    by destruct (karpenter_WakeUp _ _ _ _) as [r s].
Qed.

(** C5: after the runs of a cycle, a wakeup while the API server answers creates
    again every NodePool that the cycle deleted, with its specification and its
    labels, leaves the others alone, and does not fail. The runs of the cycle are
    shutdowns and wakeups, one after another, in any order, the first of them a
    shutdown; nothing else changes the NodePools or the restore data meanwhile.
    Requests to the API server of the NodePools may fail anywhere in the runs, but
    those that fail have changed nothing; requests to the hub, where the restore
    data are kept, do not fail, and the report of every shutdown is saved. Restore
    data that the cycle finds are of an earlier cycle. No NodePool is named twice,
    and when the last wakeup begins the client can be built and the server answers.
    *)
Theorem karpenter_wakeup_restores `{HK : KubeApi} `{HKL : !KubeLaws} `{HJ : JSON} `{HJL : !JSONLaws}
  `{HS : PoolClients} `{HSO : !PoolObservers} `{HT : JSONText} `{HTL : !JSONTextLaws} `{HL : !PoolLaws}
  `{HP : ParamsJSON} `{HM : MapOrder} cfg spec params s0 s existing observe clk r s' :
  decode_params zero_KarpenterParameters parse_karpenter_params (es_Parameters spec) = Some params ->
  NoDup (kp_NodePools params) -> no_faults (rs_hub s0) ->
  loaded (rs_hub s0) (cfg_Namespace cfg) (cfg_Plan cfg) (cfg_Target cfg) = Ok existing ->
  (forall d, existing = Some d -> data_CycleID d <> cfg_CycleID cfg /\
     forall k, 0 <= StaleCount (status_of (data_Status d) k)) ->
  cycle_runs karpenter_executor cfg spec s0 s ->
  pl_healthy (rs_target s) -> pool_clientFactory spec = true ->
  executeOperation (karpenter_executor observe) (set_operation "wakeup" cfg) clk spec s = (r, s') ->
  (forall name, pl_pools (rs_target s') name = pl_pools (rs_target s0) name) /\
  (forall e, r <> Err e) /\
  (await_Enabled (kp_AwaitCompletion params) = false -> exists result, r = Ok result).
Proof.
  intros Hp Hd Hf Hl Hex Hruns Hh Hc Hrun.
  exact (cycle_restores karpenter_executor cfg spec (HH := karpenter_hibernation spec params)
    (HL := karpenter_hibernates spec params Hp) s0 s existing observe clk r s' Hd Hf Hl Hex Hruns (conj Hh Hc) Hrun).
Qed.

(** ** NodePools in memory, and runs on them *)

From S2P Require Import Memory ExecutorSamples.

(** ** The service *)

(** NodePools by name, and the number of nodes that are left. *)
Notation Pools := (gmap string (string * gmap string string)).

Definition valid_poolb (name spec : string) (labels : gmap string string) : bool :=
  is_ascii name && negb (spec =? "")%string && negb (spec =? "null")%string &&
  bool_decide (map_Forall (fun _ v => is_ascii v = true) labels).

Lemma valid_poolb_true name spec labels : valid_poolb name spec labels = true <-> valid_pool name spec labels.
Proof.
  unfold valid_poolb, valid_pool. rewrite !andb_true_iff, !negb_true_iff, bool_decide_eq_true, !String.eqb_neq. cbn.
  split.
  - intros [[[H1 H2] H3] H4]. split_and!; try done. by apply String.eqb_neq in H2 as ->.
  - intros (H1 & _ & H2 & H3 & H4). split_and!; try done. intros ->. done.
Qed.

(** A NodePool that the server would not have accepted is not served. *)
Definition pools (c : Pools) (name : string) : option pool_value :=
  p ← c !! name; if valid_poolb name p.1 p.2 then Some (Some p.1, p.2) else None.

Definition pool_names (c : Pools) (selector : string) : list string :=
  filter (fun name => selector = "" \/ is_Some (p ← c !! name; p.2 !! selector)) (map fst (map_to_list c)).

Definition ready_pool (p : pool_value) : NodePool :=
  mkNodePool p.1 p.2 (ConditionsFound [Some (mkCondition "Initialized" "False"); Some (mkCondition "Ready" "True")]).

Definition answer_pools {A} (q : PoolRequest A) (w : Pools) : (ApiError + A) * Pools :=
  match q in PoolRequest A return (ApiError + A) * Pools with
  | ListNodePools selector => (inr (pool_names w selector), w)
  | GetNodePool name =>
      (match pools w name with Some p => inr (ready_pool p) | None => inl NotFound end, w)
  | DeleteNodePool name =>
      match pools w name with Some _ => (inr tt, delete name w) | None => (inl NotFound, w) end
  | CreateNodePool name spec labels =>
      match pools w name with
      | Some _ => (inl AlreadyExists, w)
      | None => if valid_poolb name spec labels then (inr tt, <[name := (spec, labels)]> w)
                else (inl (ApiFailure "invalid"), w)
      end
  | ListPoolNodes _ => (inr 0%nat, w)
  end.

Definition serve_pools {A} (q : PoolRequest A) := serve_faulty (@answer_pools) q.

#[export] Instance pools_clients : PoolClients := {|
  pool_service := {| World := Faulty ApiError Pools; serve A q := serve_pools q |};
  pool_clientFactory _ := true;
  pool_selector_text s := Some (match map_to_list (ls_MatchLabels s) with kv :: _ => kv.1 | [] => "" end);
|}.

#[export] Instance pools_observers : PoolObservers := {|
  pl_pools w := pools (fy_world w);
  pl_healthy w := fy_faults w = [];
|}.

Lemma NoDup_pool_names c selector : NoDup (pool_names c selector).
Proof. apply NoDup_filter. apply NoDup_fst_map_to_list. Qed.

Lemma answer_pools_after {A} (q : PoolRequest A) w :
  pools_after q (answer_pools q w).1 (pools w) (pools (answer_pools q w).2).
Proof.
  destruct q as [sel|n|n|n spec labels|sel]; cbn; try done.
  - split; [done|apply NoDup_pool_names].
  - destruct (pools w n) as [[spec labels]|] eqn:E; by split.
  - destruct (pools w n) as [p|] eqn:E; [|done]. cbn. intros i. unfold pools at 1. case_decide as H.
    + subst i. by rewrite lookup_delete_eq.
    + by rewrite lookup_delete_ne.
  - destruct (pools w n) as [p|] eqn:E; [done|]. destruct (valid_poolb n spec labels) eqn:Ev; [|done]. cbn.
    intros i. unfold pools at 1. case_decide as H.
    + subst i. rewrite lookup_insert_eq. cbn. rewrite Ev. apply valid_poolb_true in Ev as (_ & _ & _ & Hn & _).
      by apply String.eqb_neq in Hn as ->.
    + by rewrite lookup_insert_ne.
Qed.

Lemma failed_pools {A} (q : PoolRequest A) e before after :
  (forall i, after i = before i) -> pools_after q (inl e) before after.
Proof. intros H. destruct q; cbn; by try split. Qed.

#[export] Instance pools_laws : PoolLaws.
Proof.
  split.
  - intros A q w. cbn. unfold serve_pools. destruct (serve_faulty_cases (@answer_pools) q w) as [(e & He & H)|[He H]]; rewrite He, H.
    + by apply failed_pools.
    + apply answer_pools_after.
  - intros w n spec labels. cbn. unfold pools. destruct (fy_world w !! n) as [p|]; [|done]. cbn.
    destruct (valid_poolb n p.1 p.2) eqn:E; [|done]. intros [= <- <-]. by apply valid_poolb_true.
  - intros A q w. cbn. intros Hw. by apply serve_faulty_healthy.
  - intros n spec labels w. cbn. intros Hw Hv%valid_poolb_true. unfold serve_pools.
    destruct (serve_faulty_healthy (@answer_pools) (CreateNodePool n spec labels) w Hw) as (-> & _ & _). cbn.
    destruct (pools (fy_world w) n); [done|]. by rewrite Hv.
Qed.

(** ** Runs *)

Module KarpenterSamples.
Import RestoreSpec.RestoreSamples.

Definition general_spec : string := "{weight:10}".
Definition spot_spec : string := "{limits:{}}".

Definition pools_start (faults : list (option ApiError)) : PoolWorld :=
  mkFaulty ({[ "general" := (general_spec, {[ "team" := "core" ]}); "spot" := (spot_spec, ∅) ]} : Pools) faults.

#[export] Instance sample_karpenter_params : ParamsJSON := {|
  parse_ec2_params _ := None;
  parse_rds_params _ := None;
  parse_eks_params _ := None;
  parse_karpenter_params text :=
    if (text =? "all")%string then Some zero_KarpenterParameters
    else if (text =? "team")%string
    then Some (mkKarpenterParameters [] (Some (mkLabelSelector {[ "team" := "core" ]} [])) no_await)
    else if (text =? "both")%string
    then Some (mkKarpenterParameters ["spot"] (Some (mkLabelSelector {[ "team" := "core" ]} [])) no_await)
    else if (text =? "empty")%string
    then Some (mkKarpenterParameters ["spot"] (Some (mkLabelSelector ∅ [])) no_await) else None;
  parse_gke_params _ := None;
  parse_cloudsql_params _ := None;
  parse_scaler_params _ := None;
  parse_noop_params _ := None;
|}.

Definition karpenter_spec (params : string) : Spec :=
  mkSpec "pools" "karpenter" params
    (mkConnectorConfig None (Some (mkK8SConnectorConfig "prod" "eu-west-1" "" "" "" false None))).
Definition karpenter_cfg (op : string) : Config :=
  mkConfig op "pools" "karpenter" "plan" "ns" "c1" "all" "K8SCluster" "prod" "ns".

Definition nothing_observed (_ : string) : PoolWorld * list (poll_event PoolWorld) := (pools_start [], []).
Definition pools_executor : Executor PoolWorld := karpenter_executor nothing_observed.
Definition pools_clk : RunClock := mkRunClock (fun _ => t0) t0 t0 1500000000.
Definition fleet (faults : list (option ApiError)) : RunnerState (T := PoolWorld) :=
  mkRunnerState (T := PoolWorld) empty_cluster (pools_start faults).

Definition shutdown_pools (params : string) (s : RunnerState (T := PoolWorld)) :=
  shutdown_run pools_executor (karpenter_cfg "shutdown") pools_clk (karpenter_spec params) s.
Definition wakeup_pools (params : string) (s : RunnerState (T := PoolWorld)) :=
  executeOperation pools_executor (set_operation "wakeup" (karpenter_cfg "shutdown")) pools_clk (karpenter_spec params) s.

Definition pools_of (s : RunnerState (T := PoolWorld)) : list (option pool_value) :=
  map (pl_pools (rs_target s)) ["general"; "spot"].

(** The first run deletes one NodePool and fails to delete the other; the second
    finishes. *)
Definition pools_failed := shutdown_pools "all" (fleet [None; None; None; None; Some (ApiFailure "timeout")]).
Definition pools_second := shutdown_pools "all" pools_failed.2.

Example pools_failed_state :
  pools_failed.1 = (Err (KErrDelete "spot" (ApiFailure "timeout")), Some (Ok tt)) /\
  pools_of pools_failed.2 = [None; Some (Some spot_spec, ∅)].
Proof. vm_compute. split; reflexivity. Qed.

Example pools_second_state :
  pools_second.1 = (Ok (mkResult "scaled down 1 Karpenter NodePool(s)" 0), Some (Ok tt)) /\
  pools_of pools_second.2 = [None; None].
Proof. vm_compute. split; reflexivity. Qed.

Example pools_woken :
  (wakeup_pools "all" pools_second.2).1 = Ok (mkResult "restored 2 Karpenter NodePool(s)" 1500) /\
  pools_of (wakeup_pools "all" pools_second.2).2 = pools_of (fleet []).
Proof. vm_compute. split; reflexivity. Qed.

(** A selector restricts the pools; an empty one does not, although names are
    given, and the validation accepts that. *)
Example selector_restricts :
  pools_of (shutdown_pools "team" (fleet [])).2 = [None; Some (Some spot_spec, ∅)].
Proof. vm_compute. reflexivity. Qed.

Example empty_selector_takes_all :
  karpenter_Validate (karpenter_spec "empty") = Ok tt /\
  karpenter_Validate (karpenter_spec "both") = Err KErrExclusive /\
  pools_of (shutdown_pools "empty" (fleet [])).2 = [None; None].
Proof. vm_compute. split_and!; reflexivity. Qed.

(** The Ready condition decides, whatever stands before it. *)
Example general_ready : nodepool_ready "general" (pools_start []) = Ok true.
Proof. vm_compute. reflexivity. Qed.
End KarpenterSamples.
Import KarpenterSamples.

Lemma karpenter_wakeup_restores_witness :
  pools_of (fleet []) = [Some (Some general_spec, {[ "team" := "core" ]}); Some (Some spot_spec, ∅)] /\
  forall name, pl_pools (rs_target (wakeup_pools "all" pools_second.2).2) name = pl_pools (pools_start []) name.
Proof.
  split; [by vm_compute|].
  refine (proj1 (karpenter_wakeup_restores (HS := pools_clients) (karpenter_cfg "shutdown") (karpenter_spec "all")
    zero_KarpenterParameters (fleet [None; None; None; None; Some (ApiFailure "timeout")]) pools_second.2
    None nothing_observed pools_clk _ _ eq_refl _ _ _ _ _ eq_refl eq_refl _)).
  - constructor.
  - vm_compute. reflexivity.
  - vm_compute. reflexivity.
  - done.
  - apply (RunShutdown (karpenter_executor (HS := pools_clients)) _ _ nothing_observed pools_clk pools_second.1.1 _ pools_failed.2).
    + apply (RunFirst (karpenter_executor (HS := pools_clients)) _ _ nothing_observed pools_clk pools_failed.1.1).
      apply split_run. vm_compute. reflexivity.
    + apply split_run. vm_compute. reflexivity.
  - apply surjective_pairing.
Defined.
