(* ===== verification/EC2.v ===== *)
(** * The EC2 executor ([internal/executor/ec2])

    Stops the running instances that a selector finds, and starts those again that
    were running before.  EC2 is the service behind [EC2Request]. *)
From S2P Require Import Prelude Monad GoString GoTime Types Cluster Restore Params AwsUtil Executor Operation.
From Stdlib Require Import Lia.

Local Open Scope Z_scope.

(** ** The service *)

(** The errors the code tells apart: the code [InvalidInstanceID.NotFound]. *)
Inductive EC2ApiError :=
| InstanceNotFound
| EC2Failure (msg : string).

Definition isInstanceNotFound (e : EC2ApiError) : bool :=
  match e with InstanceNotFound => true | EC2Failure _ => false end.

Record Filter := mkFilter {
  f_Name : string;
  f_Values : list string;
}.

Record DescribeInstancesInput := mkDescribeInput {
  di_InstanceIds : list string;
  di_Filters : list Filter;
}.

(** The answer to [DescribeInstances] are reservations, lists of instances. *)
Inductive EC2Request : Type -> Type :=
| DescribeInstances (input : DescribeInstancesInput) : EC2Request (list (list Instance))
| StopInstances (ids : list string) : EC2Request unit
| StartInstances (ids : list string) : EC2Request unit.

Class EC2Clients := {
  #[global] ec2_service :: Service EC2Request EC2ApiError;
  #[global] ec2_loader :: AWSLoader;
}.
Notation EC2World := (World EC2Request).

Inductive EC2Error :=
| CErrAWSRequired
| CErrSelectorRequired
| CErrTagsAndIds
| CErrTagsAndSelector
| CErrParseParameters
| CErrLoadAWSConfig
| CErrFindInstances (e : EC2ApiError)
| CErrStopInstances (e : EC2ApiError)
| CErrUnmarshalState (id : string)
| CErrStartInstances (e : EC2ApiError)
| CErrStartInstance (id : string) (e : EC2ApiError)
| CErrObserve (e : EC2ApiError).

(** ** Data *)

Record InstanceState := mkInstanceState {
  is_InstanceID : string;
  is_WasRunning : bool;
}.

Definition instance_fields `{JSONText} (s : InstanceState) : gmap string scalar :=
  {[ "instanceId" := SOther (quote (is_InstanceID s)); "wasRunning" := SBool (is_WasRunning s) ]}.

Definition parse_instance `{JSONText} (text : string) : option InstanceState :=
  m ← object_of_text text;
  id ← string_member m "instanceId";
  wasRunning ← bool_field m "wasRunning";
  Some (mkInstanceState id wasRunning).

(** ** Operations *)

Section operations.
Context {HS : EC2Clients} {HT : JSONText} {HP : ParamsJSON} {HO : MapOrder}.
(** What the waits observe. *)
Context (observe : list string -> EC2World * list (poll_event EC2World)).
Context {A : Type}.

Definition CM (B : Type) : Type := ST (Run EC2World string A) EC2Error B.

Definition ec2_parseParams (spec : Spec) : CM EC2Parameters :=
  match decode_params zero_EC2Parameters parse_ec2_params (es_Parameters spec) with
  | Some params => st_ret params
  | None => st_throw CErrParseParameters
  end.

Definition ec2_loadAWSConfig (spec : Spec) : CM AwsConfig :=
  match BuildAWSConfig (cc_AWS (es_ConnectorConfig spec)) with
  | None => st_throw CErrLoadAWSConfig
  | Some cfg => st_ret cfg
  end.

Definition live_states : list string := ["pending"; "running"; "stopping"; "stopped"].

(** The filters for tags, in the order of the iteration over the map. *)
Definition tag_filters (tags : gmap string string) : list Filter :=
  let entries := omap (fun key => value ← tags !! key; Some (key, value)) (map_order (map fst (map_to_list tags))) in
  let keyOnly := map fst (filter (fun kv => kv.2 = ""%string) entries) in
  map (fun kv => mkFilter ("tag:" ++ kv.1) [kv.2]) (filter (fun kv => kv.2 <> ""%string) entries) ++
  (if bool_decide (keyOnly = []) then [] else [mkFilter "tag-key" keyOnly]).

(** Explicit IDs bypass every other filter of the request. *)
Definition describe_input (selector : EC2Selector) : DescribeInstancesInput :=
  match es2_InstanceIDs selector with
  | [] => mkDescribeInput [] (mkFilter "instance-state-name" live_states :: tag_filters (es2_Tags selector))
  | ids => mkDescribeInput ids []
  end.

(** A later tag of the same key wins. *)
Definition tag_map (tags : list (string * string)) : gmap string string :=
  fold_left (fun m tag => <[tag.1 := tag.2]> m) tags ∅.

Definition filterInstancesByTagSelector (instances : list Instance) (selector : option TagSelector) : list Instance :=
  filter (fun inst => Match (tag_map (inst_Tags inst)) selector = true) instances.

(** What becomes of the instances that EC2 has found. *)
Definition select_instances (selector : EC2Selector) (reservations : list (list Instance)) : list Instance :=
  let instances := concat reservations in
  let selected := (if has_tag_selector (es2_TagSelector selector)
                   then filterInstancesByTagSelector instances (es2_TagSelector selector) else instances) in
  ApplyExclusions selected [ExcludeByASGManaged; ExcludeByKarpenterManaged].

Definition findInstances (selector : EC2Selector) : CM (list Instance) :=
  let! reservations := st_wrap CErrFindInstances (request (DescribeInstances (describe_input selector))) in
  st_ret (select_instances selector reservations).

(** ** Waiting *)

Definition ec2_DefaultWaitTimeout : string := "5m".

(** [checkFunc] of the two waits: how many of the instances have come to a state. *)
Definition instances_in (state : string) (ids : list string) (c : EC2World) : res EC2Error bool :=
  match (serve (DescribeInstances (mkDescribeInput ids [])) c).1 with
  | inl e => Err (CErrObserve e)
  | inr reservations =>
      Ok (Nat.eqb (length (filter (fun inst => inst_State inst = state) (concat reservations))) (length ids))
  end.

Definition waitForInstancesStopped (ids : list string) (timeout : string) : res unit unit :=
  wait_until (instances_in "stopped" ids) (observe ids) timeout.

Definition waitForInstancesRunning (ids : list string) (timeout : string) : res unit unit :=
  wait_until (instances_in "running" ids) (observe ids) timeout.

(** The part of a message on the wait for all instances. *)
Definition await_instances (await : AwaitCompletion) (wait : string -> res unit unit) (done msg : string) : CM string :=
  if await_Enabled await then
    let timeout := wait_timeout ec2_DefaultWaitTimeout await in
    fun s =>
      (match wait timeout with
       | Ok _ => Ok (msg ++ "; all instances confirmed " ++ done)%string
       | Err _ => Ok (msg ++ "; not all instances confirmed " ++ done ++ " after " ++ timeout ++ " timeout")%string
       | Panic => Panic
       | NoReturn => NoReturn
       end, s)
  else st_ret msg.

(** ** Shutdown *)

(** The reports on all instances, running or not. *)
Fixpoint report_instances (callback : option (ReportStateCallback A)) (instances : list Instance) : CM unit :=
  match instances with
  | [] => st_ret tt
  | inst :: instances' =>
      let state := mkInstanceState (inst_InstanceId inst) (inst_State inst =? "running")%string in
      do! report callback (inst_InstanceId inst) (ReportStruct (object_text (instance_fields state))) in
      report_instances callback instances'
  end.

Definition running_ids (instances : list Instance) : list string :=
  map inst_InstanceId (filter (fun inst => inst_State inst = "running"%string) instances).

Definition ec2_Shutdown (spec : Spec) (callback : option (ReportStateCallback A)) : CM Result :=
  let! params := ec2_parseParams spec in
  let! _ := ec2_loadAWSConfig spec in
  let! instances := findInstances (ec2_Selector params) in
  do! report_instances callback instances in
  let instancesToStop := running_ids instances in
  let msg := ("stopped " ++ sprint_d (Z.of_nat (length instancesToStop)) ++ " of " ++
              sprint_d (Z.of_nat (length instances)) ++ " EC2 instance(s)")%string in
  if bool_decide (instancesToStop = []) then st_ret (mkResult msg 0)
  else
    do! st_wrap CErrStopInstances (request (StopInstances instancesToStop)) in
    let! msg := await_instances (ec2_AwaitCompletion params) (waitForInstancesStopped instancesToStop) "stopped" msg in
    st_ret (mkResult msg 0).

(** ** Wakeup *)

(** The IDs that were running; the key stands for an ID that is missing. *)
Fixpoint previously_running (data : gmap string string) (keys : list string) (found : gset string) : CM (gset string) :=
  match keys with
  | [] => st_ret found
  | key :: keys' =>
      match data !! key with
      | None => previously_running data keys' found
      | Some text =>
          match parse_instance text with
          | None => st_throw (CErrUnmarshalState key)
          | Some inst =>
              let id := if (is_InstanceID inst =? "")%string then key else is_InstanceID inst in
              previously_running data keys' (if is_WasRunning inst then {[id]} ∪ found else found)
          end
      end
  end.

Definition startable (wasRunning : gset string) (inst : Instance) : bool :=
  bool_decide (inst_InstanceId inst ∈ wasRunning) &&
  ((inst_State inst =? "stopped")%string || (inst_State inst =? "stopping")%string).

(** The retry of one instance after the other: what was started, and how many are
    missing. *)
Fixpoint start_each (ids : list string) (started : list string) (skippedMissing : Z) : CM (list string * Z) :=
  match ids with
  | [] => st_ret (started, skippedMissing)
  | id :: ids' =>
      let! r := st_try (request (StartInstances [id])) in
      match r with
      | inl e => if isInstanceNotFound e then start_each ids' started (skippedMissing + 1)
                 else st_throw (CErrStartInstance id e)
      | inr _ => start_each ids' (started ++ [id]) skippedMissing
      end
  end.

Definition startInstancesWithMissingTolerance (ids : list string) : CM (list string * Z) :=
  let! r := st_try (request (StartInstances ids)) in
  match r with
  | inr _ => st_ret (ids, 0)
  | inl e => if isInstanceNotFound e then start_each ids [] 0 else st_throw (CErrStartInstances e)
  end.

Definition ec2_WakeUp (spec : Spec) (restore : RestoreData) : CM Result :=
  if bool_decide (rd_Data restore = ∅)
  then st_ret (mkResult "wakeup completed for EC2 (no restore data)" 0)
  else
    let! params := ec2_parseParams spec in
    let! _ := ec2_loadAWSConfig spec in
    let! wasRunning := previously_running (rd_Data restore) (restore_order (rd_Data restore)) ∅ in
    let! instances := findInstances (ec2_Selector params) in
    let instancesToStart := map inst_InstanceId (filter (fun inst => startable wasRunning inst = true) instances) in
    let started_msg n := ("started " ++ sprint_d (Z.of_nat n) ++ " EC2 instance(s)")%string in
    if bool_decide (instancesToStart = []) then st_ret (mkResult (started_msg 0%nat) 0)
    else
      let! st := startInstancesWithMissingTolerance instancesToStart in
      let '(started, skippedMissing) := st in
      let msg := (started_msg (length started) ++
                  if (0 <? skippedMissing)%Z then "; skipped " ++ sprint_d skippedMissing ++ " missing instance(s)" else "")%string in
      if bool_decide (started = []) then st_ret (mkResult msg 0)
      else
        let! msg := await_instances (ec2_AwaitCompletion params) (waitForInstancesRunning started) "running" msg in
        st_ret (mkResult msg 0).
End operations.

(** ** The executor *)

Definition ec2_Validate `{HP : ParamsJSON} (spec : Spec) : res EC2Error unit :=
  match cc_AWS (es_ConnectorConfig spec) with
  | None => Err CErrAWSRequired
  | Some _ =>
      match decode_params zero_EC2Parameters parse_ec2_params (es_Parameters spec) with
      | None => Err CErrParseParameters
      | Some params =>
          let sel := ec2_Selector params in
          let hasTags := negb (bool_decide (es2_Tags sel = ∅)) in
          let hasInstanceIDs := negb (bool_decide (es2_InstanceIDs sel = [])) in
          let hasTagSelector := has_tag_selector (es2_TagSelector sel) in
          if negb hasTags && negb hasTagSelector && negb hasInstanceIDs then Err CErrSelectorRequired
          else if hasTags && hasInstanceIDs then Err CErrTagsAndIds
          else if hasTags && hasTagSelector then Err CErrTagsAndSelector
          else Ok tt
      end
  end.

Definition EC2ExecutorType : string := "ec2".

Definition ec2_executor `{HS : EC2Clients} `{HT : JSONText} `{HP : ParamsJSON}
  `{HO : MapOrder} (observe : list string -> EC2World * list (poll_event EC2World)) : Executor EC2World := {|
  ExecutorError := EC2Error;
  executor_Type := EC2ExecutorType;
  Validate := ec2_Validate;
  Shutdown A spec callback := fun s =>
    let '(r, s') := ec2_Shutdown observe spec callback (mkRun s.1 [] s.2) in
    (r, (run_target s', run_acc s'));
  WakeUp spec restore := fun c =>
    let '(r, s') := ec2_WakeUp observe spec restore (mkRun c [] tt) in (r, run_target s');
|}.
