(* ===== verification/EC2Spec.v ===== *)
(** * The EC2 executor in the runner

    [EC2Laws] states what the executor relies on: which instances a description
    finds, and that they are in the state that was last asked for; a stop or a start
    is for all instances of the request or for none.  An instance on its way up
    counts as up, one on its way down as down; the latter cannot be started.  Under these laws the executor keeps
    the contract of [Cycle]. *)
From S2P Require Import Prelude Monad GoString GoTime Types Cluster Restore RestoreSpec Params Executor Operation.
From S2P Require Import AwsUtil Runner Cycle EC2.
From Stdlib Require Import Lia.

Local Open Scope Z_scope.

Local Arguments report : simpl never.

Definition up_of_state (state : string) : option bool :=
  if (state =? "running")%string || (state =? "pending")%string then Some true
  else if (state =? "stopped")%string || (state =? "stopping")%string then Some false
  else None.

(** Whether an instance is up, if there is one, and whether it is still on its way
    down; and the instances that a request for descriptions is about, with their
    tags. *)
Class EC2Observers `{EC2Clients} := {
  c2_up : EC2World -> string -> option bool;
  c2_stopping : EC2World -> string -> bool;
  c2_selection : EC2World -> DescribeInstancesInput -> list (string * list (string * string));
  c2_healthy : EC2World -> Prop;
}.

Definition switched (ids : list string) (up : bool) (before after : string -> option bool) : Prop :=
  forall i, after i = if decide (i ∈ ids) then (fun _ => up) <$> before i else before i.

Definition up_after {A} (q : EC2Request A) :
  EC2ApiError + A -> (string -> option bool) -> (string -> option bool) -> Prop :=
  match q in EC2Request A return EC2ApiError + A -> (string -> option bool) -> (string -> option bool) -> Prop with
  | DescribeInstances _ => fun r before after =>
      (forall i, after i = before i) /\
      match r with
      | inr l => forall inst, inst ∈ concat l ->
          before (inst_InstanceId inst) = up_of_state (inst_State inst) /\ is_ascii (inst_InstanceId inst) = true
      | inl _ => True
      end
  | StopInstances ids => fun r before after =>
      match r with inr _ => switched ids false before after | inl _ => forall i, after i = before i end
  | StartInstances ids => fun r before after =>
      match r with inr _ => switched ids true before after | inl _ => forall i, after i = before i end
  end.

(** Only a stop sends an instance down. *)
Definition stopping_after {A} (q : EC2Request A) (before after : bool) : Prop :=
  match q with StopInstances _ => True | _ => before = false -> after = false end.

Definition tagged (inst : Instance) : string * list (string * string) := (inst_InstanceId inst, inst_Tags inst).

Class EC2Laws `{HS : EC2Clients} {HO : EC2Observers} : Prop := {
  c2_serve_selection {A} (q : EC2Request A) c input : c2_selection (serve q c).2 input = c2_selection c input;
  c2_selection_ids c input : NoDup (c2_selection c input).*1;
  c2_describe_answer input c l :
    (serve (DescribeInstances input) c).1 = inr l -> map tagged (concat l) = c2_selection c input;
  c2_serve_up {A} (q : EC2Request A) c : up_after q (serve q c).1 (c2_up c) (c2_up (serve q c).2);
  c2_healthy_serve {A} (q : EC2Request A) c : c2_healthy c -> c2_healthy (serve q c).2;
  (** An ID that does not exist is an error. *)
  c2_healthy_describe input c : c2_healthy c -> di_InstanceIds input ⊆ (c2_selection c input).*1 ->
    exists l, (serve (DescribeInstances input) c).1 = inr l;
  c2_serve_stopping {A} (q : EC2Request A) c id : stopping_after q (c2_stopping c id) (c2_stopping (serve q c).2 id);
  (** What is still on its way down cannot be started. *)
  c2_healthy_start ids c : c2_healthy c -> (forall id, id ∈ ids -> is_Some (c2_up c id) /\ c2_stopping c id = false) ->
    (serve (StartInstances ids) c).1 = inr tt;
}.

(** The service answers, and no instance is on its way down. *)
Definition c2_settled `{EC2Observers} (c : EC2World) : Prop := c2_healthy c /\ forall id, c2_stopping c id = false.

Lemma settled_describe `{EC2Laws} input c : c2_settled c -> c2_settled (serve (DescribeInstances input) c).2.
Proof.
  intros [Hh Hs]. split; [by apply c2_healthy_serve|]. intros id. by apply (c2_serve_stopping (DescribeInstances input) c id).
Qed.

Lemma settled_start `{EC2Laws} ids c : c2_settled c -> c2_settled (serve (StartInstances ids) c).2.
Proof.
  intros [Hh Hs]. split; [by apply c2_healthy_serve|]. intros id. by apply (c2_serve_stopping (StartInstances ids) c id).
Qed.

Lemma settled_starts `{EC2Laws} ids c : c2_settled c -> (forall id, id ∈ ids -> is_Some (c2_up c id)) ->
  (serve (StartInstances ids) c).1 = inr tt.
Proof. intros [Hh Hs] Hids. apply c2_healthy_start; auto. Qed.

Lemma NoDup_filter_fst {B C} (P : B * C -> Prop) `{forall x, Decision (P x)} (l : list (B * C)) :
  NoDup l.*1 -> NoDup (filter P l).*1.
Proof.
  intros Hd. induction l as [|x l IH]; [constructor|]. rewrite filter_cons. cbn in Hd.
  apply NoDup_cons in Hd as [Hx Hd]. case_decide; [|by apply IH]. cbn. constructor; [|by apply IH].
  intros (y & He & [_ Hy]%list_elem_of_filter)%list_elem_of_fmap. apply Hx. rewrite He. by apply list_elem_of_fmap_2.
Qed.

(** ** States *)

Section encoding.
Context {HT : JSONText} {HTL : JSONTextLaws}.

Definition instance_wf (s : InstanceState) : Prop := is_ascii (is_InstanceID s) = true.

Lemma instance_fields_canonical s : instance_wf s -> map_Forall (fun _ v => scalar_canonical v) (instance_fields s).
Proof.
  intros H. unfold instance_fields. apply map_Forall_insert_2; [by apply quote_canonical|]. by apply map_Forall_singleton.
Qed.

Lemma instance_demanded s : demanded (AnyMap (instance_fields s)) = is_WasRunning s.
Proof.
  cbn. unfold isDemandedState, bool_member, instance_fields.
  rewrite !(lookup_insert_ne (M:=gmap string)), lookup_singleton_eq, lookup_singleton_ne by done. apply orb_false_r.
Qed.

Lemma parse_instance_fields s : instance_wf s -> parse_instance (object_text (instance_fields s)) = Some s.
Proof.
  intros Hwf. unfold parse_instance. rewrite object_roundtrip by (by apply instance_fields_canonical). cbn [mbind option_bind].
  rewrite (string_member_quote _ "instanceId" (is_InstanceID s)) by done. by destruct s.
Qed.
End encoding.

(** ** Resources *)

Section instance.
Context {HS : EC2Clients} {HSO : EC2Observers} {HL : EC2Laws}.
Context {HT : JSONText} {HTL : JSONTextLaws} {HP : ParamsJSON} {HM : MapOrder}.
Context (spec : Spec) (params : EC2Parameters).
Hypothesis Hparams : decode_params zero_EC2Parameters parse_ec2_params (es_Parameters spec) = Some params.

Notation selector := (ec2_Selector params).

(** The instances of the target; tags do not change. *)
Definition target_ids (c : EC2World) : list string :=
  map inst_InstanceId
    (select_instances selector [map (fun it => mkInstance it.1 "" it.2) (c2_selection c (describe_input selector))]).

(** The instances that are named exist. *)
Definition describable (c : EC2World) : Prop :=
  di_InstanceIds (describe_input selector) ⊆ (c2_selection c (describe_input selector)).*1.

#[export] Instance ec2_hibernation : Hibernation EC2World := {|
  h_resource := string;
  h_resource_dec := _;
  h_value := bool;
  h_state := InstanceState;
  h_look := c2_up;
  h_linked c k id := id = k /\ id ∈ target_ids c;
  h_ready _ := True;
  h_healthy c := (c2_settled c /\ describable c) /\ is_Some (BuildAWSConfig (cc_AWS (es_ConnectorConfig spec)));
  h_awaits := await_Enabled (ec2_AwaitCompletion params);
  st_key := is_InstanceID;
  st_id := is_InstanceID;
  st_value := is_WasRunning;
  st_down _ := Some false;
  st_scaled := is_WasRunning;
  st_fields := instance_fields;
  st_wf := instance_wf;
|}.

Lemma target_ids_serve {B} (q : EC2Request B) c : target_ids (serve q c).2 = target_ids c.
Proof. unfold target_ids. by rewrite c2_serve_selection. Qed.

Lemma describable_serve {B} (q : EC2Request B) c : describable (serve q c).2 <-> describable c.
Proof. unfold describable. by rewrite c2_serve_selection. Qed.

Lemma links_serve {B} (q : EC2Request B) c : same_links c (serve q c).2.
Proof. intros k i. cbn. by rewrite target_ids_serve. Qed.

(** The selection looks at tags only. *)
Lemma map_filter {B C} (f : B -> C) (P : C -> Prop) (Q : B -> Prop) `{forall x, Decision (P x)} `{forall x, Decision (Q x)} l :
  (forall x, Q x <-> P (f x)) -> map f (filter Q l) = filter P (map f l).
Proof.
  intros HQ. induction l as [|x l IH]; [done|]. cbn [map]. rewrite !filter_cons.
  destruct (decide (Q x)) as [Hx|Hx]; rewrite HQ in Hx; [rewrite decide_True by done|rewrite decide_False by done]; cbn [map]; congruence.
Qed.

Notation excluded_tags t :=
  (existsb (fun rule => rule (mkInstance t.1 "" t.2)) [ExcludeByASGManaged; ExcludeByKarpenterManaged]).

Lemma select_instances_map l :
  map tagged (select_instances selector l) =
    filter (fun t => excluded_tags t = false)
      (if has_tag_selector (es2_TagSelector selector)
       then filter (fun t => Match (tag_map t.2) (es2_TagSelector selector) = true) (map tagged (concat l))
       else map tagged (concat l)).
Proof.
  unfold select_instances, ApplyExclusions, filterInstancesByTagSelector.
  erewrite (map_filter tagged (fun t => excluded_tags t = false)
    (fun inst => existsb (fun rule => rule inst) [ExcludeByASGManaged; ExcludeByKarpenterManaged] = false)) by done.
  f_equal. destruct (has_tag_selector _); [|done].
  by apply (map_filter tagged (fun t => Match (tag_map t.2) (es2_TagSelector selector) = true)
    (fun inst => Match (tag_map (inst_Tags inst)) (es2_TagSelector selector) = true)).
Qed.

(** What a description finds are the instances of the target. *)
Lemma found_ids c l :
  (serve (DescribeInstances (describe_input selector)) c).1 = inr l ->
  map inst_InstanceId (select_instances selector l) = target_ids c.
Proof.
  intros Hl%c2_describe_answer. unfold target_ids.
  assert (forall l, map inst_InstanceId l = map fst (map tagged l)) as Hm by (intros l'; by rewrite map_map).
  rewrite !Hm, !select_instances_map, Hl. f_equal. cbn [concat]. rewrite app_nil_r, map_map.
  cbn. by rewrite (map_ext _ id), map_id by (by intros []).
Qed.

Lemma NoDup_target_ids c : NoDup (target_ids c).
Proof.
  assert (forall l, map inst_InstanceId l = map fst (map tagged l)) as Hm by (intros l'; by rewrite map_map).
  unfold target_ids. rewrite Hm, select_instances_map. cbn [concat]. rewrite app_nil_r, map_map.
  cbn. rewrite (map_ext _ id), map_id by (by intros []).
  apply NoDup_filter_fst. destruct (has_tag_selector _); [apply NoDup_filter_fst|]; apply c2_selection_ids.
Qed.

Notation CRun A := (Run EC2World string A).

(** ** Reports *)

Section shutdown.
Context (clock : nat -> time).
Notation callback := (Some (acc_add clock)).

Definition state_of_instance (inst : Instance) : InstanceState :=
  mkInstanceState (inst_InstanceId inst) (inst_State inst =? "running")%string.

Definition reported_acc (l : list Instance) (acc : Accumulator) : Accumulator :=
  fold_left (fun acc inst => accumulate clock (inst_InstanceId inst) (state_of_instance inst) acc) l acc.

Lemma report_instances_run l (s : CRun Accumulator) :
  Forall (fun inst => is_ascii (inst_InstanceId inst) = true) l ->
  report_instances callback l s = (Ok tt, set_run_acc (reported_acc l (run_acc s)) s).
Proof.
  revert s. induction l as [|inst l IH]; intros s Hl; [by destruct s|]. apply Forall_cons in Hl as [Hi Hl].
  cbn [report_instances]. unfold st_bind.
  change (instance_fields _) with (st_fields (state_of_instance inst)).
  rewrite report_accumulates by (by apply instance_fields_canonical). by rewrite IH.
Qed.

Lemma reported_dom l acc :
  dom (acc_reportedAt acc) = dom (acc_state acc) ->
  dom (acc_reportedAt (reported_acc l acc)) = dom (acc_state (reported_acc l acc)).
Proof.
  revert acc. induction l as [|inst l IH]; intros acc Hd; [done|]. cbn. apply IH. cbn. by rewrite !dom_insert_L, Hd.
Qed.

Lemma reported_old l acc k :
  k ∉ map inst_InstanceId l -> acc_state (reported_acc l acc) !! k = acc_state acc !! k.
Proof.
  revert acc. induction l as [|inst l IH]; intros acc Hk; [done|]. cbn in Hk |- *. apply not_elem_of_cons in Hk as [H1 H2].
  rewrite IH by done. cbn. by rewrite lookup_insert_ne.
Qed.

Lemma reported_new l acc inst :
  NoDup (map inst_InstanceId l) -> inst ∈ l ->
  acc_state (reported_acc l acc) !! inst_InstanceId inst = Some (AnyMap (instance_fields (state_of_instance inst))).
Proof.
  revert acc. induction l as [|x l IH]; intros acc Hd Hin; [by apply elem_of_nil in Hin|].
  cbn in Hd |- *. apply NoDup_cons in Hd as [Hx Hd]. apply elem_of_cons in Hin as [->|Hin]; [|by apply IH].
  rewrite reported_old by done. cbn. by rewrite lookup_insert_eq.
Qed.

Lemma reported_only l k v :
  NoDup (map inst_InstanceId l) -> acc_state (reported_acc l NewAccumulator) !! k = Some v ->
  exists inst, inst ∈ l /\ k = inst_InstanceId inst /\ v = AnyMap (instance_fields (state_of_instance inst)).
Proof.
  intros Hd Hk. destruct (decide (k ∈ map inst_InstanceId l)) as [Hin|Hin].
  - apply list_elem_of_fmap in Hin as (inst & -> & Hin). exists inst. rewrite reported_new in Hk by done.
    by injection Hk as <-.
  - by rewrite reported_old in Hk.
Qed.

(** What a description has found. *)
Record found (c : EC2World) (l : list Instance) : Prop := {
  fo_ids : map inst_InstanceId l = target_ids c;
  fo_up inst : inst ∈ l -> c2_up c (inst_InstanceId inst) = up_of_state (inst_State inst);
  fo_ascii : Forall (fun inst => is_ascii (inst_InstanceId inst) = true) l;
}.

Lemma select_instances_subset l inst : inst ∈ select_instances selector l -> inst ∈ concat l.
Proof.
  unfold select_instances, ApplyExclusions, filterInstancesByTagSelector. intros [_ H]%list_elem_of_filter.
  destruct (has_tag_selector _); [by apply list_elem_of_filter in H as [_ ?]|done].
Qed.

Lemma describe_found c l :
  (serve (DescribeInstances (describe_input selector)) c).1 = inr l -> found c (select_instances selector l).
Proof.
  intros Hl. pose proof (c2_serve_up (DescribeInstances (describe_input selector)) c) as [_ Hu]. rewrite Hl in Hu.
  split; [by apply found_ids|..].
  - intros inst Hin. by apply Hu, select_instances_subset.
  - apply Forall_forall. intros inst Hin. by apply Hu, select_instances_subset.
Qed.

Lemma NoDup_found c l : found c l -> NoDup (map inst_InstanceId l).
Proof. intros [-> _ _]. apply NoDup_target_ids. Qed.

(** The reports are made before anything is stopped. *)
Lemma reports_post c1 c2 l :
  found c1 l -> same_links c1 c2 ->
  (forall i, c2_up c2 i = c2_up c1 i \/ i ∈ running_ids l /\ c2_up c2 i = Some false) ->
  shut_post c1 c2 (reported_acc l NewAccumulator).
Proof.
  intros Hf Hl Hv. pose proof (NoDup_found _ _ Hf) as Hd. destruct Hf as [Hids Hup Ha]. rewrite Forall_forall in Ha.
  split; [done|done|by apply reported_dom| |].
  - intros k v Hk. destruct (reported_only l k v Hd Hk) as (inst & Hin & -> & ->).
    exists (state_of_instance inst). split_and!; [done..|]. split; [by apply Ha| |].
    + cbn. split; [done|]. rewrite <- Hids. by apply (list_elem_of_fmap_2 inst_InstanceId).
    + cbn. intros Hr. rewrite (Hup inst Hin). apply String.eqb_eq in Hr as ->. done.
  - intros i. destruct (Hv i) as [H|[Hi H]]; [by left|]. right.
    unfold running_ids in Hi. apply list_elem_of_fmap in Hi as (inst & -> & [Hr Hin]%list_elem_of_filter).
    exists (state_of_instance inst). cbn. split_and!; try done.
    + by apply reported_new.
    + by rewrite Hr.
    + by apply Ha.
Qed.

Lemma await_instances_run {A} await wait done msg (s : CRun A) :
  (forall t, wait t <> Panic) ->
  let '(r, s') := await_instances await wait done msg s in
  s' = s /\ r <> Panic /\ (forall e, r <> Err e) /\ (await_Enabled await = false -> r = Ok msg).
Proof.
  intros Hw. unfold await_instances. destruct (await_Enabled await); [|done].
  pose proof (Hw (wait_timeout ec2_DefaultWaitTimeout await)). by destruct (wait _).
Qed.

Context (observe : list string -> EC2World * list (poll_event EC2World)).

Lemma ec2_waits_no_panic ids timeout :
  waitForInstancesStopped observe ids timeout <> Panic /\ waitForInstancesRunning observe ids timeout <> Panic.
Proof. split; apply wait_until_no_panic; intros c; unfold instances_in; by destruct (serve _ c).1. Qed.

Lemma ec2_parseParams_run {A} (s : CRun A) : ec2_parseParams spec s = (Ok params, s).
Proof. unfold ec2_parseParams. by rewrite Hparams. Qed.

Local Arguments report_instances : simpl never.
Local Arguments await_instances : simpl never.

(** A shutdown, whichever requests fail. *)
Lemma ec2_Shutdown_post c1 :
  let '(r, s') := ec2_Shutdown observe spec callback (mkRun c1 [] NewAccumulator) in
  r <> Panic /\ shut_post c1 (run_target s') (run_acc s').
Proof.
  set (Post := fun o : res EC2Error Result * CRun Accumulator =>
    o.1 <> Panic /\ shut_post c1 (run_target o.2) (run_acc o.2)).
  enough (Post (ec2_Shutdown observe spec callback (mkRun c1 [] NewAccumulator))) as H.
  { unfold Post in H. by destruct (ec2_Shutdown _ _ _ _). }
  assert (forall c2, same_links c1 c2 -> (forall i, c2_up c2 i = c2_up c1 i) -> shut_post c1 c2 NewAccumulator) as H0.
  { intros c2 Hl Hv. split; try done. intros i. left. apply Hv. }
  unfold ec2_Shutdown. unfold st_bind at 1. rewrite ec2_parseParams_run.
  unfold st_bind at 1, ec2_loadAWSConfig. destruct (BuildAWSConfig _) as [cfg|]; cbn [st_ret st_throw]; [|split; [done|by apply H0] ].
  unfold findInstances, st_bind at 1 2. rewrite wrap_request. cbn [run_target].
  set (q := DescribeInstances _). pose proof (c2_serve_up q c1) as [Hsame _]. pose proof (links_serve q c1) as Hlinks.
  pose proof (describe_found c1) as Hfound. fold q in Hfound.
  destruct (serve q c1) as [[e|l] c2]; cbn [fst snd] in *; [split; [done|by apply H0]|]. cbn [st_ret set_run_target].
  specialize (Hfound l eq_refl). set (insts := select_instances selector l) in *. pose proof (fo_ascii _ _ Hfound) as Ha.
  unfold st_bind at 1. rewrite report_instances_run by done. cbn [run_target run_acc].
  case_bool_decide as Hstop.
  { split; [done|]. apply reports_post; [done..|]. by left. }
  unfold st_bind at 1. rewrite wrap_request. cbn [run_target run_acc run_waiting set_run_acc set_run_target].
  set (q2 := StopInstances _). pose proof (c2_serve_up q2 c2) as Hq2. cbn in Hq2. pose proof (links_serve q2 c2) as Hl2.
  destruct (serve q2 c2) as [[e|u] c3]; cbn [fst snd] in *.
  { split; [done|]. apply reports_post; [done| |].
    - intros k i. etrans; [apply Hl2|apply Hlinks].
    - intros i. left. by rewrite Hq2. }
  unfold st_bind.
  match goal with |- context [await_instances ?a ?w ?d ?m ?s] =>
    pose proof (await_instances_run a w d m s (fun t => proj1 (ec2_waits_no_panic _ t))) as Haw;
    destruct (await_instances a w d m s) as [r s'] end.
  destruct Haw as (-> & Hnp & Hne & _).
  assert (shut_post c1 c3 (reported_acc insts NewAccumulator)) as Hpost.
  { apply reports_post; [done| |].
    - intros k i. etrans; [apply Hl2|apply Hlinks].
    - intros i. rewrite Hq2. case_decide as Hi; [|by left]. rewrite Hsame.
      destruct (c2_up c1 i) eqn:E; [right; by split|by left]. }
  destruct r; split; done.
Qed.
End shutdown.

(** ** Wakeup *)

Section wakeup.
Context (observe : list string -> EC2World * list (poll_event EC2World)).
Context (data : gmap string string) (c1 : EC2World).
Hypothesis Henc : encoded data.

(** The data say that the instance was running. *)
Definition was_running (id : string) : Prop :=
  exists st, holds data st /\ is_WasRunning st = true /\ is_InstanceID st = id.

Lemma instance_entry key text : data !! key = Some text ->
  exists st, parse_instance text = Some st /\ is_InstanceID st = key /\ holds data st.
Proof.
  intros Hk. destruct (Henc key text Hk) as (st & Hn & Ht & Hwf). cbn in Hn, Ht, Hwf. subst key text.
  exists st. split_and!; [by apply parse_instance_fields|done|by split].
Qed.

Lemma holds_unique st st' : holds data st -> holds data st' -> is_InstanceID st = is_InstanceID st' -> st = st'.
Proof.
  intros [Hk Hwf] [Hk' Hwf'] He. cbn in *. rewrite He, Hk' in Hk. injection Hk as Ht.
  pose proof (parse_instance_fields st Hwf) as H. rewrite <- Ht, parse_instance_fields in H by done. congruence.
Qed.

Lemma previously_running_run keys found (s : CRun unit) :
  exists set, previously_running data keys found s = (Ok set, s) /\
    forall id, id ∈ set <-> id ∈ found \/ (id ∈ keys /\ was_running id).
Proof.
  revert found. induction keys as [|key keys IH]; intros found.
  { exists found. split; [done|]. set_solver. }
  cbn [previously_running]. destruct (data !! key) as [text|] eqn:Ek.
  - destruct (instance_entry key text Ek) as (st & -> & Hid & Hst).
    assert ((if (is_InstanceID st =? "")%string then key else is_InstanceID st) = key) as ->
      by (rewrite Hid; by destruct (key =? "")%string).
    destruct (IH (if is_WasRunning st then {[key]} ∪ found else found)) as (set & Hrun & Hset).
    exists set. split; [done|]. intros id. rewrite Hset, elem_of_cons.
    assert (was_running key <-> is_WasRunning st = true) as Hkey.
    { split; [|by intros H; exists st]. intros (st' & Hst' & Hr & Hid'). by rewrite (holds_unique st st') by congruence. }
    destruct (is_WasRunning st) eqn:E; [set_solver|]. split; [tauto|]. intros [?|[[->|?] ?]]; [tauto| |tauto].
    by apply Hkey in H.
  - destruct (IH found) as (set & Hrun & Hset). exists set. split; [done|]. intros id. rewrite Hset, elem_of_cons.
    split; [tauto|]. intros [?|[[->|?] Hr]]; [tauto| |tauto]. destruct Hr as (st & [Hk _] & _ & Hid). cbn in Hk. congruence.
Qed.

Lemma previously_running_all (s : CRun unit) :
  exists set, previously_running data (restore_order data) ∅ s = (Ok set, s) /\ forall id, id ∈ set <-> was_running id.
Proof.
  destruct (previously_running_run (restore_order data) ∅ s) as (set & Hrun & Hset). exists set. split; [done|].
  intros id. rewrite Hset. split; [set_solver|]. intros Hr. right. split; [|done].
  destruct Hr as (st & [Hk _] & _ & <-). by eapply elem_of_restore_order.
Qed.

(** Starting what was running. *)
Lemma wake_started c ids :
  (forall id, id ∈ ids -> was_running id) -> wake_post data c1 c -> wake_post data c1 (serve (StartInstances ids) c).2.
Proof.
  intros Hids [H1 H2 H3]. pose proof (c2_serve_up (StartInstances ids) c) as Hq. cbn in Hq.
  pose proof (links_serve (StartInstances ids) c) as Hl. split; [done| |].
  - intros k i. etrans; [apply Hl|apply H2].
  - intros i. cbn. destruct (serve (StartInstances ids) c).1 as [e|u].
    + rewrite Hq. apply H3.
    + rewrite Hq. case_decide as Hi; [|apply H3]. destruct (Hids i Hi) as (st & Hst & Hr & Hid).
      cbn in H3. destruct (H3 i) as [H|(st' & Hst' & Hr' & Hid' & H)]; rewrite H.
      * destruct (c2_up c1 i) eqn:E; [right|by left]. exists st. cbn. by rewrite Hr.
      * right. exists st'. cbn. cbn in Hr'. by rewrite Hr'.
Qed.

Lemma start_each_inv ids started missing (s : CRun unit) :
  (forall id, id ∈ ids -> was_running id) -> wake_post data c1 (run_target s) ->
  exists r c2, start_each ids started missing s = (r, set_run_target c2 s) /\ completed r /\ wake_post data c1 c2.
Proof.
  revert started missing s. induction ids as [|id ids IH]; intros started missing s Hids Hs.
  { eexists _, (run_target s). destruct s. by split_and!. }
  cbn [start_each]. unfold st_bind. rewrite try_request.
  pose proof (wake_started (run_target s) [id] ltac:(set_solver) Hs) as Hw.
  destruct (serve (StartInstances [id]) (run_target s)) as [[e|u] c2]; cbn [fst snd] in *.
  - destruct (isInstanceNotFound e); [|by eexists _, c2].
    destruct (IH started (missing + 1) (set_run_target c2 s)) as (r & c3 & Hrun & Hc & Hw3); [set_solver|done|].
    rewrite Hrun. by eexists r, c3.
  - destruct (IH (started ++ [id]) missing (set_run_target c2 s)) as (r & c3 & Hrun & Hc & Hw3); [set_solver|done|].
    rewrite Hrun. by eexists r, c3.
Qed.

Lemma start_inv ids (s : CRun unit) :
  (forall id, id ∈ ids -> was_running id) -> wake_post data c1 (run_target s) ->
  exists r c2, startInstancesWithMissingTolerance ids s = (r, set_run_target c2 s) /\ completed r /\
    wake_post data c1 c2 /\
    (c2_settled (run_target s) -> (forall id, id ∈ ids -> is_Some (c2_up (run_target s) id)) ->
       r = Ok (ids, 0) /\ c2_settled c2 /\ (describable (run_target s) -> describable c2) /\
       forall i, c2_up c2 i = if decide (i ∈ ids) then Some true else c2_up (run_target s) i).
Proof.
  intros Hids Hs. unfold startInstancesWithMissingTolerance, st_bind. rewrite try_request.
  pose proof (wake_started (run_target s) ids Hids Hs) as Hw. set (q := StartInstances ids) in *.
  pose proof (c2_serve_up q (run_target s)) as Hq. pose proof (settled_start ids (run_target s)) as Hh.
  pose proof (settled_starts ids (run_target s)) as Hg. fold q in Hg, Hh.
  pose proof (proj2 (describable_serve q (run_target s))) as Hde.
  destruct (serve q (run_target s)) as [[e|u] c2]; cbn [fst snd] in *; cbn in Hq.
  - assert (c2_settled (run_target s) -> (forall id, id ∈ ids -> is_Some (c2_up (run_target s) id)) -> False) as Hno
      by (intros H1 H2; by specialize (Hg H1 H2)).
    destruct (isInstanceNotFound e).
    + destruct (start_each_inv ids [] 0 (set_run_target c2 s) Hids Hw) as (r & c3 & -> & Hc & Hw3).
      exists r, c3. split_and!; [done..|]. intros H1 H2. by destruct (Hno H1 H2).
    + exists (Err (CErrStartInstances e)), c2. split_and!; [done..|]. intros H1 H2. by destruct (Hno H1 H2).
  - exists (Ok (ids, 0)), c2. split_and!; [done..|]. intros H1 H2. split_and!; [done|by auto|done|].
    intros i. rewrite Hq. case_decide as Hi; [|done]. by destruct (H2 i Hi) as [b ->].
Qed.

Notation to_start set l := (map inst_InstanceId (filter (fun inst => startable set inst = true) l)).

Lemma startable_true set inst : startable set inst = true <->
  inst_InstanceId inst ∈ set /\ up_of_state (inst_State inst) = Some false.
Proof.
  unfold startable, up_of_state. rewrite andb_true_iff, bool_decide_eq_true, orb_true_iff, !String.eqb_eq.
  split; intros [H1 H2]; (split; [done|]).
  - by destruct H2 as [->| ->].
  - destruct (_ || _); [done|]. destruct (inst_State inst =? "stopped")%string eqn:E1; [left; by apply String.eqb_eq|].
    destruct (inst_State inst =? "stopping")%string eqn:E2; [right; by apply String.eqb_eq|done].
Qed.

Lemma to_start_spec set l c id : found c l ->
  id ∈ to_start set l <-> id ∈ set /\ id ∈ target_ids c /\ c2_up c id = Some false.
Proof.
  intros [Hids Hup _]. rewrite list_elem_of_fmap. split.
  - intros (inst & -> & [[H1 H2]%startable_true Hin]%list_elem_of_filter). split_and!; [done| |by rewrite Hup].
    rewrite <- Hids. by apply (list_elem_of_fmap_2 inst_InstanceId).
  - rewrite <- Hids. intros (H1 & (inst & -> & Hin)%list_elem_of_fmap & H3). rewrite Hup in H3 by done.
    exists inst. split; [done|]. apply list_elem_of_filter. by rewrite startable_true.
Qed.

Local Arguments await_instances : simpl never.
Local Arguments previously_running : simpl never.
Local Arguments startInstancesWithMissingTolerance : simpl never.

Definition all_up (c : EC2World) : Prop := forall st, holds data st -> is_WasRunning st = true -> c2_up c (is_InstanceID st) = Some true.

Lemma ec2_WakeUp_run t live :
  let '(r, s') := ec2_WakeUp observe spec (mkRestoreData t data live) (mkRun c1 [] tt) in
  r <> Panic /\ wake_post data c1 (run_target s') /\
  (h_healthy c1 -> fitting data c1 ->
     c2_settled (run_target s') /\ describable (run_target s') /\ all_up (run_target s') /\ (forall e, r <> Err e) /\
     (await_Enabled (ec2_AwaitCompletion params) = false -> exists result, r = Ok result)).
Proof.
  set (Post := fun o : res EC2Error Result * CRun unit =>
    o.1 <> Panic /\ wake_post data c1 (run_target o.2) /\
    (h_healthy c1 -> fitting data c1 -> c2_settled (run_target o.2) /\ describable (run_target o.2) /\ all_up (run_target o.2) /\ (forall e, o.1 <> Err e) /\
       (await_Enabled (ec2_AwaitCompletion params) = false -> exists result, o.1 = Ok result))).
  enough (Post (ec2_WakeUp observe spec (mkRestoreData t data live) (mkRun c1 [] tt))) as H.
  { unfold Post in H. by destruct (ec2_WakeUp _ _ _ _). }
  pose proof (wake_post_start (HH:=ec2_hibernation) data c1 I) as H0.
  unfold ec2_WakeUp. cbn [rd_Data]. case_bool_decide as He.
  { split_and!; [done..|]. intros [[Hh Hde] _] _. split_and!; [done|done| |done|by eexists]. intros st [Hk _]. by rewrite He, lookup_empty in Hk. }
  unfold st_bind at 1. rewrite ec2_parseParams_run.
  unfold st_bind at 1, ec2_loadAWSConfig. destruct (BuildAWSConfig _) as [cfg|] eqn:Ecfg; cbn [st_ret st_throw].
  2: { split_and!; [done..|]. intros [_ H]. rewrite Ecfg in H. by destruct H. }
  unfold st_bind at 1. destruct (previously_running_all (mkRun c1 [] tt)) as (set & -> & Hset).
  unfold findInstances, st_bind at 1 2. rewrite wrap_request. cbn [run_target run_acc run_waiting set_run_target].
  set (q := DescribeInstances _). pose proof (c2_serve_up q c1) as [Hsame _]. pose proof (links_serve q c1) as Hlinks.
  pose proof (describe_found c1) as Hfound. fold q in Hfound. pose proof (settled_describe (describe_input selector) c1) as Hh2. fold q in Hh2.
  pose proof (fun H : c2_settled c1 => c2_healthy_describe (describe_input selector) c1 (proj1 H)) as Hd. fold q in Hd.
  pose proof (proj2 (describable_serve q c1)) as Hde2.
  destruct (serve q c1) as [[e|l] c2]; cbn [fst snd] in *.
  { split_and!; [done|by apply (wake_post_same data c1 c1)|]. intros [[Hh Hde] _]. by destruct (Hd Hh Hde). }
  cbn [st_ret]. specialize (Hfound l eq_refl). set (insts := select_instances selector l) in *.
  assert (wake_post data c1 c2) as Hw2 by (by apply (wake_post_same data c1 c1)).
  assert (forall id, id ∈ to_start set insts -> was_running id) as Hids.
  { intros id (H & _ & _)%(to_start_spec set insts c1 id Hfound). by apply Hset. }
  assert (fitting data c1 -> forall st, holds data st -> is_WasRunning st = true ->
    c2_up c1 (is_InstanceID st) = Some true \/ is_InstanceID st ∈ to_start set insts) as Hfit.
  { intros Hf st Hst Hr. destruct (fit_value _ _ Hf st Hst Hr) as [H|H]; cbn in H.
    - left. by rewrite H, Hr.
    - right. apply (to_start_spec set insts c1 _ Hfound). split_and!; [apply Hset; by exists st| |done].
      apply (fit_linked _ _ Hf st Hst). }
  case_bool_decide as Hnone.
  { split_and!; [done..|]. intros [[Hh Hde] _] Hf. split_and!; [by auto|by auto| |done|by eexists]. intros st Hst Hr. cbn. rewrite Hsame.
    destruct (Hfit Hf st Hst Hr) as [H|H]; [done|]. rewrite Hnone in H. by apply elem_of_nil in H. }
  unfold st_bind at 1. destruct (start_inv (to_start set insts) (set_run_target c2 (mkRun c1 [] tt)) Hids Hw2) as (r & c3 & Hrun & Hc & Hw3 & Htot).
  cbn [run_target set_run_target] in Htot. rewrite Hrun. clear Hrun.
  assert (h_healthy c1 -> fitting data c1 -> r = Ok (to_start set insts, 0) /\ c2_settled c3 /\ describable c3 /\ all_up c3) as Hall.
  { intros [[Hh Hde] _] Hf. destruct Htot as (-> & Hh3 & Hde3 & H3); [by auto| |].
    - intros id (_ & _ & H)%(to_start_spec set insts c1 id Hfound). rewrite Hsame, H. by eexists.
    - split_and!; [done|done|by auto|]. intros st Hst Hr. rewrite H3. case_decide as Hi; [done|]. rewrite Hsame.
      by destruct (Hfit Hf st Hst Hr). }
  destruct r as [[started missing]|e| |]; [|by split_and!; [done..|]; intros H1 H2; destruct (Hall H1 H2)|done|done].
  case_bool_decide as Hst.
  { split_and!; [done..|]. intros H1 H2. destruct (Hall H1 H2) as (Hr & Hh3 & Hde3 & Hup). split_and!; [done..|by eexists]. }
  unfold st_bind.
  match goal with |- context [await_instances ?a ?w ?d ?m ?s] =>
    pose proof (await_instances_run a w d m s (fun t => proj2 (ec2_waits_no_panic observe _ t))) as Haw;
    destruct (await_instances a w d m s) as [r s'] end.
  destruct Haw as (-> & Hnp & Hne & Hoff).
  destruct r as [msg|e| |]; [|by destruct (Hne e)|done|]; split_and!; try done; intros H1 H2;
    destruct (Hall H1 H2) as (_ & Hh3 & Hde3 & Hup); split_and!; try done.
  - by eexists.
  - intros H. by specialize (Hoff H).
Qed.
End wakeup.
End instance.

Local Arguments ec2_Shutdown : simpl never.
Local Arguments ec2_WakeUp : simpl never.

Lemma ec2_hibernates `{HS : EC2Clients} `{HSO : !EC2Observers} `{HL : !EC2Laws} `{HT : JSONText} `{HTL : !JSONTextLaws}
  `{HP : ParamsJSON} `{HM : MapOrder} spec params :
  decode_params zero_EC2Parameters parse_ec2_params (es_Parameters spec) = Some params ->
  HibernationLaws (HH := ec2_hibernation spec params) ec2_executor spec.
Proof.
  intros Hparams. split.
  - by intros c k i i' _ [-> _] [-> _].
  - by intros c k k' i _ [-> _] [-> _].
  - intros st st' Hwf Hwf' _ He. cbn in *.
    pose proof (parse_instance_fields st Hwf) as H1. rewrite He, parse_instance_fields in H1 by done. congruence.
  - intros st Hwf. by apply instance_fields_canonical.
  - intros st. cbn -[demanded]. by rewrite instance_demanded.
  - intros st st' _ _ _ [= He]. cbn. by rewrite <- He.
  - intros st st' _ _ Hsc Hd. cbn -[demanded] in Hsc, Hd. by rewrite instance_demanded, Hsc in Hd.
  - intros observe clock c _. cbn.
    pose proof (ec2_Shutdown_post spec params Hparams clock observe c) as H.
    by destruct (ec2_Shutdown _ _ _ _) as [r s].
  - intros observe t data live c _ Henc. cbn.
    pose proof (ec2_WakeUp_run spec params Hparams observe data c Henc t live) as H.
    destruct (ec2_WakeUp _ _ _ _) as [r s]. by destruct H as (? & ? & _).
  - intros observe t data live c _ Hh Hfit. cbn.
    pose proof (ec2_WakeUp_run spec params Hparams observe data c (fit_encoded _ _ Hfit) t live) as H.
    destruct (ec2_WakeUp _ _ _ _) as [r s]. destruct H as (_ & _ & H). destruct (H Hh Hfit) as (_ & _ & H2 & H3 & H4).
    split_and!; [|done|done]. intros st Hst Hr. cbn. rewrite (H2 st Hst Hr). by rewrite <- Hr.
Qed.

(** C9: after the runs of a cycle, a wakeup while EC2 answers leaves every instance
    as it was before the cycle: what was up is up again, and nothing else is
    started, and the wakeup does not fail. The runs of the cycle are shutdowns and
    wakeups, one after another, in any order, the first of them a shutdown; nothing
    else changes the instances or the restore data meanwhile. Requests to EC2 may
    fail anywhere in the runs, but those that fail have changed nothing; requests to
    the hub, where the restore data are kept, do not fail, and the report of every
    shutdown is saved. Restore data that the cycle finds are of an earlier cycle.
    When the last wakeup begins the AWS configuration is valid, the service answers,
    the instances that the target names exist, and no instance is still on its way
    down, since EC2 would refuse to start it. *)
Theorem ec2_wakeup_restores `{HK : KubeApi} `{HKL : !KubeLaws} `{HJ : JSON} `{HJL : !JSONLaws}
  `{HS : EC2Clients} `{HSO : !EC2Observers} `{HL : !EC2Laws} `{HT : JSONText} `{HTL : !JSONTextLaws}
  `{HP : ParamsJSON} `{HM : MapOrder} cfg spec params s0 s existing observe clk r s' :
  decode_params zero_EC2Parameters parse_ec2_params (es_Parameters spec) = Some params ->
  no_faults (rs_hub s0) ->
  loaded (rs_hub s0) (cfg_Namespace cfg) (cfg_Plan cfg) (cfg_Target cfg) = Ok existing ->
  (forall d, existing = Some d -> data_CycleID d <> cfg_CycleID cfg /\
     forall k, 0 <= StaleCount (status_of (data_Status d) k)) ->
  cycle_runs ec2_executor cfg spec s0 s ->
  c2_settled (rs_target s) -> describable params (rs_target s) -> is_Some (BuildAWSConfig (cc_AWS (es_ConnectorConfig spec))) ->
  executeOperation (ec2_executor observe) (set_operation "wakeup" cfg) clk spec s = (r, s') ->
  (forall id, c2_up (rs_target s') id = c2_up (rs_target s0) id) /\
  (forall e, r <> Err e) /\
  (await_Enabled (ec2_AwaitCompletion params) = false -> exists result, r = Ok result).
Proof.
  intros Hp Hf Hl Hex Hruns Hh Hde Hc Hrun.
  exact (cycle_restores ec2_executor cfg spec (HH := ec2_hibernation spec params)
    (HL := ec2_hibernates spec params Hp) s0 s existing observe clk r s' I Hf Hl Hex Hruns (conj (conj Hh Hde) Hc) Hrun).
Qed.

(** ** Instances in memory, and runs on them *)

From S2P Require Import Memory ExecutorSamples.

(** ** The service *)

(** The account: IDs and tags.  The world says which instances are up. *)
Definition account : list (string * list (string * string)) :=
  [("i-1", [("env", "dev"); ("Name", "web-1")]);
   ("i-2", [("env", "dev"); ("Name", "db")]);
   ("i-3", [("env", "dev"); ("Name", "web-2"); ("karpenter.sh/nodepool", "default")]);
   ("i-4", [("env", "prod"); ("Name", "web-3")])].

Notation Machines := (gmap string bool).

(** A filter of the request: live states are not a restriction here. *)
Definition passes (tags : list (string * string)) (f : Filter) : bool :=
  if (f_Name f =? "instance-state-name")%string then true
  else if (f_Name f =? "tag-key")%string then existsb (fun t => existsb (String.eqb t.1) (f_Values f)) tags
  else existsb (fun t => ("tag:" ++ t.1 =? f_Name f)%string && existsb (String.eqb t.2) (f_Values f)) tags.

Definition asked_for (input : DescribeInstancesInput) (id : string) (tags : list (string * string)) : bool :=
  is_ascii id &&
  match di_InstanceIds input with
  | [] => forallb (passes tags) (di_Filters input)
  | ids => existsb (String.eqb id) ids
  end.

Definition asked (input : DescribeInstancesInput) : list (string * list (string * string)) :=
  filter (fun it => asked_for input it.1 it.2 = true) account.

Definition machines_up (w : Machines) (id : string) : option bool :=
  if bool_decide (id ∈ account.*1) then Some (default false (w !! id)) else None.

Definition machine (w : Machines) (it : string * list (string * string)) : Instance :=
  mkInstance it.1 (if default false (w !! it.1) then "running" else "stopped") it.2.

Definition switch (ids : list string) (up : bool) (w : Machines) : Machines :=
  fold_right (fun id w => <[id := up]> w) w ids.

Definition answer_ec2 {A} (q : EC2Request A) (w : Machines) : (EC2ApiError + A) * Machines :=
  match q in EC2Request A return (EC2ApiError + A) * Machines with
  | DescribeInstances input =>
      (if bool_decide (di_InstanceIds input ⊆ (asked input).*1) then inr [map (machine w) (asked input)]
       else inl InstanceNotFound, w)
  | StopInstances ids => (inr tt, switch ids false w)
  | StartInstances ids =>
      if bool_decide (Forall (fun id => is_Some (machines_up w id)) ids) then (inr tt, switch ids true w)
      else (inl InstanceNotFound, w)
  end.

Definition serve_ec2 {A} (q : EC2Request A) := serve_faulty (@answer_ec2) q.

#[export] Instance machines_clients : EC2Clients := {|
  ec2_service := {| World := Faulty EC2ApiError Machines; serve A q := serve_ec2 q |};
  ec2_loader := default_loader;
|}.

#[export] Instance machines_observers : EC2Observers := {|
  c2_up w := machines_up (fy_world w);
  c2_stopping _ _ := false;
  c2_selection _ := asked;
  c2_healthy w := fy_faults w = [];
|}.

#[local] Arguments asked : simpl never.
#[local] Arguments machines_up : simpl never.

Lemma asked_account input it : it ∈ asked input -> is_ascii it.1 = true /\ it ∈ account.
Proof.
  unfold asked. intros [Ha Hin]%list_elem_of_filter. unfold asked_for in Ha. by apply andb_true_iff in Ha as [Ha _].
Qed.

Lemma switch_up ids up w : switched ids up (machines_up w) (machines_up (switch ids up w)).
Proof.
  intros i. unfold machines_up. case_bool_decide; [|by case_decide].
  assert (switch ids up w !! i = if decide (i ∈ ids) then Some up else w !! i) as ->.
  { induction ids as [|id ids IH]; [done|].
    change (switch (id :: ids) up w) with (<[id := up]> (switch ids up w)). destruct (decide (i = id)) as [->|Hi].
    - by rewrite lookup_insert_eq, decide_True by left.
    - rewrite lookup_insert_ne, IH by done. repeat case_decide; set_solver. }
  by case_decide.
Qed.

Lemma answer_ec2_up {A} (q : EC2Request A) w :
  up_after q (answer_ec2 q w).1 (machines_up w) (machines_up (answer_ec2 q w).2).
Proof.
  destruct q as [input|ids|ids]; cbn.
  - split; [done|]. case_bool_decide; [|done]. cbn. rewrite app_nil_r.
    intros inst ([id tags] & -> & [Ha Hin]%asked_account)%list_elem_of_fmap. split; [|done]. cbn [machine inst_InstanceId inst_State fst].
    unfold machines_up. rewrite bool_decide_eq_true_2 by (by apply (list_elem_of_fmap_2 fst account (id, tags))).
    by destruct (default false (w !! id)).
  - apply switch_up.
  - case_bool_decide; [apply switch_up|done].
Qed.

Lemma failed_up {A} (q : EC2Request A) e before after :
  (forall i, after i = before i) -> up_after q (inl e) before after.
Proof. intros H. destruct q; cbn; by try split. Qed.

#[export] Instance machines_laws : EC2Laws.
Proof.
  split.
  - done.
  - intros w input. apply (NoDup_filter_fst (fun it => asked_for input it.1 it.2 = true)).
    by apply (bool_decide_unpack (NoDup account.*1)); vm_compute.
  - intros input w l. cbn. unfold serve_ec2. destruct (serve_faulty_cases (@answer_ec2) (DescribeInstances input) w) as [(e & He & H)|[He H]];
      rewrite He; [done|]. cbn. case_bool_decide; [|done]. intros [= <-]. cbn. rewrite app_nil_r, map_map.
    cbn. rewrite (map_ext _ id); [by rewrite map_id|by intros []].
  - intros A q w. cbn. unfold serve_ec2. destruct (serve_faulty_cases (@answer_ec2) q w) as [(e & He & H)|[He H]]; rewrite He, H.
    + by apply failed_up.
    + apply answer_ec2_up.
  - intros A q w. cbn. intros Hw. by apply serve_faulty_healthy.
  - intros input w. cbn. intros Hw Hin. unfold serve_ec2.
    destruct (serve_faulty_healthy (@answer_ec2) (DescribeInstances input) w Hw) as (-> & _ & _). cbn.
    rewrite bool_decide_eq_true_2 by done. by eexists.
  - intros A q w id. by destruct q.
  - intros ids w. cbn. intros Hw Hin. unfold serve_ec2.
    destruct (serve_faulty_healthy (@answer_ec2) (StartInstances ids) w Hw) as (-> & _ & _). cbn.
    rewrite bool_decide_eq_true_2; [done|]. apply Forall_forall. intros id Hid. by destruct (Hin id Hid).
Qed.

(** ** Runs *)

Module EC2Samples.
Import RestoreSpec.RestoreSamples.

Definition by_tags (tags : gmap string string) : EC2Parameters := mkEC2Parameters (mkEC2Selector tags None []) no_await.
Definition by_ids (ids : list string) : EC2Parameters := mkEC2Parameters (mkEC2Selector ∅ None ids) no_await.
Definition by_selector (s : TagSelector) : EC2Parameters := mkEC2Parameters (mkEC2Selector ∅ (Some s) []) no_await.
Definition web_machines : TagSelector := mkTagSelector ∅ [mkTagRequirement "Name" "Matches" ["web-*"]].

#[export] Instance sample_ec2_params : ParamsJSON := {|
  parse_ec2_params text :=
    if (text =? "dev")%string then Some (by_tags {[ "env" := "dev" ]})
    else if (text =? "web")%string then Some (by_selector web_machines)
    else if (text =? "gone")%string then Some (by_ids ["i-1"; "i-9"]) else None;
  parse_rds_params _ := None;
  parse_eks_params _ := None;
  parse_karpenter_params _ := None;
  parse_gke_params _ := None;
  parse_cloudsql_params _ := None;
  parse_scaler_params _ := None;
  parse_noop_params _ := None;
|}.

Definition ec2_spec (params : string) : Spec :=
  mkSpec "machines" "ec2" params (mkConnectorConfig (Some (mkAWSConnectorConfig "eu-west-1" "" "" "" "" "")) None).
Definition ec2_cfg (op : string) : Config := mkConfig op "machines" "ec2" "plan" "ns" "c1" "dev" "CloudProvider" "aws" "ns".

(** [i-2] is down. *)
Definition machines (faults : list (option EC2ApiError)) : EC2World :=
  mkFaulty ({[ "i-1" := true; "i-2" := false; "i-3" := true; "i-4" := true ]} : Machines) faults.

Definition unobserved (_ : list string) : EC2World * list (poll_event EC2World) := (machines [], []).
Definition machines_executor : Executor EC2World := ec2_executor unobserved.
Definition ec2_clk : RunClock := mkRunClock (fun _ => t0) t0 t0 1500000000.
Definition account_start (faults : list (option EC2ApiError)) : RunnerState (T := EC2World) :=
  mkRunnerState (T := EC2World) empty_cluster (machines faults).

Definition shutdown_machines (params : string) (s : RunnerState (T := EC2World)) :=
  shutdown_run machines_executor (ec2_cfg "shutdown") ec2_clk (ec2_spec params) s.
Definition wakeup_machines (params : string) (s : RunnerState (T := EC2World)) :=
  executeOperation machines_executor (set_operation "wakeup" (ec2_cfg "shutdown")) ec2_clk (ec2_spec params) s.

Definition all_machines (s : RunnerState (T := EC2World)) : list (option bool) :=
  map (c2_up (rs_target s)) ["i-1"; "i-2"; "i-3"; "i-4"].

(** The first stop fails; its report, that [i-1] was running, is saved. *)
Definition machines_failed := shutdown_machines "dev" (account_start [None; Some (EC2Failure "throttled")]).
Definition machines_second := shutdown_machines "dev" machines_failed.2.

Example machines_failed_state :
  machines_failed.1 = (Err (CErrStopInstances (EC2Failure "throttled")), Some (Ok tt)) /\
  all_machines machines_failed.2 = [Some true; Some false; Some true; Some true].
Proof. vm_compute. split; reflexivity. Qed.

(** The instance of Karpenter and the one of another environment stay. *)
Example machines_second_state :
  machines_second.1 = (Ok (mkResult "stopped 1 of 2 EC2 instance(s)" 0), Some (Ok tt)) /\
  all_machines machines_second.2 = [Some false; Some false; Some true; Some true].
Proof. vm_compute. split; reflexivity. Qed.

Example machines_woken :
  (wakeup_machines "dev" machines_second.2).1 = Ok (mkResult "started 1 EC2 instance(s)" 1500) /\
  all_machines (wakeup_machines "dev" machines_second.2).2 = all_machines (account_start []).
Proof. vm_compute. split; reflexivity. Qed.

Example web_only :
  all_machines (shutdown_machines "web" (account_start [])).2 = [Some false; Some false; Some true; Some false].
Proof. vm_compute. reflexivity. Qed.

(** An instance ID that no longer exists makes the description fail, and with it
    the wakeup: the tolerance of missing instances comes only after it. *)
Example missing_id_fails_wakeup :
  (wakeup_machines "gone" machines_second.2).1 = Err (ErrOperation (CErrFindInstances InstanceNotFound)) /\
  all_machines (wakeup_machines "gone" machines_second.2).2 = [Some false; Some false; Some true; Some true].
Proof. vm_compute. split; reflexivity. Qed.

(** An instance on its way up is reported as not running and is not stopped. *)
Example pending_is_left :
  let pending := mkInstance "i-5" "pending" [] in
  running_ids [pending] = [] /\ up_of_state (inst_State pending) = Some true.
Proof. vm_compute. split; reflexivity. Qed.
End EC2Samples.
Import EC2Samples.

Lemma ec2_wakeup_restores_witness :
  all_machines (account_start []) = [Some true; Some false; Some true; Some true] /\
  forall id, c2_up (rs_target (wakeup_machines "dev" machines_second.2).2) id = c2_up (machines []) id.
Proof.
  split; [by vm_compute|].
  refine (proj1 (ec2_wakeup_restores (HS := machines_clients) (ec2_cfg "shutdown") (ec2_spec "dev")
    (by_tags {[ "env" := "dev" ]}) (account_start [None; Some (EC2Failure "throttled")]) machines_second.2
    None unobserved ec2_clk _ _ eq_refl _ _ _ _ (conj eq_refl (fun _ => eq_refl)) _ _ _)).
  - vm_compute. reflexivity.
  - vm_compute. reflexivity.
  - done.
  - apply (RunShutdown (ec2_executor (HS := machines_clients)) _ _ unobserved ec2_clk machines_second.1.1 _ machines_failed.2).
    + apply (RunFirst (ec2_executor (HS := machines_clients)) _ _ unobserved ec2_clk machines_failed.1.1).
      apply split_run. vm_compute. reflexivity.
    + apply split_run. vm_compute. reflexivity.
  - intros id Hid. by apply elem_of_nil in Hid.
  - by eexists.
  - apply surjective_pairing.
Defined.
