(* ===== verification/RDS.v ===== *)
(** * The RDS executor ([internal/executor/rds])

    Stops DB instances and DB clusters, after a snapshot if one is asked for, and
    starts those that were available.  One strategy per type of resource; what
    differs between the two is in [StrategyApi].  Resources in between two states
    are left to goroutines that wait for them ([Threads]).  RDS is the service
    behind [RDSRequest]; [executor.ErrorList] (errorlist.go) is a list. *)
From S2P Require Import Prelude Monad GoString GoTime Types Cluster Restore Params AwsUtil Executor Operation Threads.
From Stdlib Require Import Lia.

Local Open Scope Z_scope.

(** ** The service *)

Inductive ResourceType := ResourceTypeInstance | ResourceTypeCluster.
#[export] Instance ResourceType_dec : EqDecision ResourceType.
Proof. solve_decision. Defined.

Definition resource_word (rt : ResourceType) : string :=
  match rt with ResourceTypeInstance => "instance" | ResourceTypeCluster => "cluster" end.

(** The error codes the code tells apart. *)
Inductive RDSApiError :=
| DBInstanceNotFound
| DBClusterNotFoundFault
| RDSFailure (msg : string).

(** What the code reads of a DB instance or of a DB cluster, which has no class. *)
Record DBResource := mkDBResource {
  db_Identifier : string;
  db_Arn : string;
  db_Status : string;
  db_Class : string;
}.

(** [None]: all.  [SnapshotAvailable] is the waiter of the SDK for a snapshot. *)
Inductive RDSRequest : Type -> Type :=
| DescribeDBInstances (id : option string) : RDSRequest (list DBResource)
| DescribeDBClusters (id : option string) : RDSRequest (list DBResource)
| ListTagsForResource (arn : string) : RDSRequest (list (string * string))
| CreateDBSnapshot (id snapshotID : string) : RDSRequest unit
| DBSnapshotAvailable (snapshotID : string) : RDSRequest unit
| CreateDBClusterSnapshot (id snapshotID : string) : RDSRequest unit
| DBClusterSnapshotAvailable (snapshotID : string) : RDSRequest unit
| StopDBInstance (id : string) : RDSRequest unit
| StopDBCluster (id : string) : RDSRequest unit
| StartDBInstance (id : string) : RDSRequest unit
| StartDBCluster (id : string) : RDSRequest unit.

Inductive RDSError :=
| RErrAWSRequired
| RErrSelectorRequired
| RErrTagsAndExcludeTags
| RErrTagSelectorAndTags
| RErrIncludeAll
| RErrParseParameters
| RErrLoadAWSConfig
| RErrApi (e : RDSApiError)
| RErrNotFound (rt : ResourceType) (id : string)
| RErrDescribe (rt : ResourceType) (e : RDSApiError)
| RErrListTags (id : string) (e : RDSApiError)
| RErrDiscover (rt : ResourceType) (e : RDSError)
| RErrCreateSnapshot (rt : ResourceType) (e : RDSApiError)
| RErrWaitSnapshot (rt : ResourceType) (e : RDSApiError)
| RErrStop (rt : ResourceType) (id : string) (e : RDSError)
| RErrStart (rt : ResourceType) (id : string) (e : RDSError)
| RErrUnmarshal (rt : ResourceType) (id : string)
| RErrTimeoutFormat
| RErrPoll (e : PollError RDSError).

(** [rds_error_text]: the text of an error and of those it wraps. *)
Class RDSClients := {
  #[global] rds_service :: Service RDSRequest RDSApiError;
  #[global] rds_loader :: AWSLoader;
  rds_error_text : RDSError -> string;
}.
Notation RDSWorld := (World RDSRequest).
Notation rds_proc X := (proc RDSRequest RDSApiError (res RDSError X)).

Local Notation "'let?' x := m 'in' k" := (then_ok m (fun x => k))
  (at level 10, x name, m at level 100, k at level 200).

(** ** Data *)

Record DBInstanceState := mkDBInstanceState {
  dbi_InstanceId : string;
  dbi_WasRunning : bool;
  dbi_SnapshotId : string;
  dbi_InstanceType : string;
}.

Record DBClusterState := mkDBClusterState {
  dbc_ClusterId : string;
  dbc_WasRunning : bool;
  dbc_SnapshotId : string;
}.

(** The interface [ResourceState]; the outcome, which is not persisted, is the
    result of the operations. *)
Inductive ResourceState :=
| StateOfInstance (s : DBInstanceState)
| StateOfCluster (s : DBClusterState).

Definition WasResourceRunning (s : ResourceState) : bool :=
  match s with StateOfInstance s => dbi_WasRunning s | StateOfCluster s => dbc_WasRunning s end.

Inductive rdsOutcome := rdsOutcomeApplied | rdsOutcomeSkippedStale | rdsOutcomePending.

Record rdsStats := mkRdsStats {
  rst_processed : Z;
  rst_applied : Z;
  rst_skippedStale : Z;
  rst_skippedKey : Z;
  rst_pending : Z;
  rst_failed : Z;
}.
Definition add_rds_stats (s t : rdsStats) : rdsStats :=
  mkRdsStats (rst_processed s + rst_processed t) (rst_applied s + rst_applied t)
    (rst_skippedStale s + rst_skippedStale t) (rst_skippedKey s + rst_skippedKey t)
    (rst_pending s + rst_pending t) (rst_failed s + rst_failed t).
Definition rds_processed (n : Z) : rdsStats := mkRdsStats n 0 0 0 0 0.
Definition rds_applied (n : Z) : rdsStats := mkRdsStats 0 n 0 0 0 0.
Definition rds_skippedStale : rdsStats := mkRdsStats 0 0 1 0 0 0.
Definition rds_skippedKey : rdsStats := mkRdsStats 0 0 0 1 0 0.
Definition rds_pending (n : Z) : rdsStats := mkRdsStats 0 0 0 0 n 0.
Definition rds_failed (n : Z) : rdsStats := mkRdsStats 0 0 0 0 0 n.

Definition formatShutdownMessage (stats : rdsStats) : string :=
  let msg := ("stopped " ++ sprint_d (rst_applied stats) ++ " RDS resource(s)")%string in
  let msg := appendCountSegment msg "skipped" (rst_skippedStale stats) "stale resource" in
  appendCountSegment msg "pending" (rst_pending stats) "resource awaiting state transition".

Definition formatWakeUpMessage (stats : rdsStats) : string :=
  let msg := ("started " ++ sprint_d (rst_applied stats) ++ " RDS resource(s)")%string in
  let msg := appendCountSegment msg "skipped" (rst_skippedStale stats) "stale resource" in
  let msg := appendCountSegment msg "skipped" (rst_skippedKey stats) "unrecognized restore key" in
  appendCountSegment msg "pending" (rst_pending stats) "resource awaiting state transition".

(** An entry of the tracker of a type: a resource that the operation has been
    applied to, or one that it is still to be applied to ([pendingResource]). *)
Inductive tracked :=
| TrackWaiting (rt : ResourceType) (id : string)
| TrackPending (rt : ResourceType) (id : string) (snapshotBefore : bool).

Definition getAllWaitingIDs (rt : ResourceType) (l : list tracked) : list string :=
  omap (fun t => match t with TrackWaiting rt' id => if decide (rt' = rt) then Some id else None | _ => None end) l.
Definition getAllPending (rt : ResourceType) (l : list tracked) : list (string * bool) :=
  omap (fun t => match t with TrackPending rt' id b => if decide (rt' = rt) then Some (id, b) else None | _ => None end) l.

Definition GetResourceKey (rt : ResourceType) (id : string) : string := resource_word rt ++ ":" ++ id.

Section states.
Context {HT : JSONText}.

Definition omit_empty (key value : string) (m : gmap string scalar) : gmap string scalar :=
  if (value =? "")%string then m else <[key := SOther (quote value)]> m.

Definition state_fields (s : ResourceState) : gmap string scalar :=
  match s with
  | StateOfInstance s =>
      omit_empty "snapshotId" (dbi_SnapshotId s) (omit_empty "instanceType" (dbi_InstanceType s)
        {[ "instanceId" := SOther (quote (dbi_InstanceId s)); "wasRunning" := SBool (dbi_WasRunning s) ]})
  | StateOfCluster s =>
      omit_empty "snapshotId" (dbc_SnapshotId s)
        {[ "clusterId" := SOther (quote (dbc_ClusterId s)); "wasRunning" := SBool (dbc_WasRunning s) ]}
  end.

Definition ParseState (rt : ResourceType) (text : string) : option ResourceState :=
  m ← object_of_text text;
  wasRunning ← bool_field m "wasRunning";
  snapshotId ← string_member m "snapshotId";
  match rt with
  | ResourceTypeInstance =>
      id ← string_member m "instanceId";
      instanceType ← string_member m "instanceType";
      Some (StateOfInstance (mkDBInstanceState id wasRunning snapshotId instanceType))
  | ResourceTypeCluster =>
      id ← string_member m "clusterId";
      Some (StateOfCluster (mkDBClusterState id wasRunning snapshotId))
  end.
End states.

(** ** Strategies *)

(** What differs between the two strategies. *)
Record StrategyApi := mkStrategyApi {
  api_Type : ResourceType;
  api_Describe : option string -> RDSRequest (list DBResource);
  api_CreateSnapshot : string -> string -> RDSRequest unit;
  api_SnapshotAvailable : string -> RDSRequest unit;
  api_Stop : string -> RDSRequest unit;
  api_Start : string -> RDSRequest unit;
  api_NotFound : RDSApiError -> bool;
  (** Identifiers of resources that belong to a restore job of AWS. *)
  api_Skip : string -> bool;
  api_Ids : RDSSelector -> list string;
  (** From the ID, the snapshot and the class. *)
  api_State : string -> bool -> string -> string -> ResourceState;
}.

Definition instanceStrategy : StrategyApi := {|
  api_Type := ResourceTypeInstance;
  api_Describe := DescribeDBInstances;
  api_CreateSnapshot := CreateDBSnapshot;
  api_SnapshotAvailable := DBSnapshotAvailable;
  api_Stop := StopDBInstance;
  api_Start := StartDBInstance;
  api_NotFound e := match e with DBInstanceNotFound => true | _ => false end;
  api_Skip := has_prefix "aws-restore-";
  api_Ids := rs_InstanceIds;
  api_State id wasRunning snapshot class := StateOfInstance (mkDBInstanceState id wasRunning snapshot class);
|}.

Definition clusterStrategy : StrategyApi := {|
  api_Type := ResourceTypeCluster;
  api_Describe := DescribeDBClusters;
  api_CreateSnapshot := CreateDBClusterSnapshot;
  api_SnapshotAvailable := DBClusterSnapshotAvailable;
  api_Stop := StopDBCluster;
  api_Start := StartDBCluster;
  api_NotFound e := match e with DBClusterNotFoundFault => true | _ => false end;
  api_Skip _ := false;
  api_Ids := rs_ClusterIds;
  api_State id wasRunning snapshot _ := StateOfCluster (mkDBClusterState id wasRunning snapshot);
|}.

(** The registry. *)
Definition strategy_of (rt : ResourceType) : StrategyApi :=
  match rt with ResourceTypeInstance => instanceStrategy | ResourceTypeCluster => clusterStrategy end.

(** ** Operations *)

Section operations.
Context {HS : RDSClients} {HT : JSONText} {HP : ParamsJSON} {HO : MapOrder}.
(** The second at which a snapshot of a resource is named. *)
Context (unix_now : string -> Z).

(** [matchesTags]. *)
Definition matchesTags (resourceTags selectorTags : gmap string string) : bool :=
  forallb (fun kv => match resourceTags !! kv.1 with
                     | None => false
                     | Some v => negb (negb (kv.2 =? "")%string && negb (v =? kv.2)%string)
                     end) (map_to_list selectorTags).

Definition effectiveSelector (sel : RDSSelector) : option TagSelector :=
  match rs_TagSelector sel with
  | Some s => Some s
  | None => if bool_decide (rs_Tags sel = ∅) then None else ToTagSelector (rs_Tags sel)
  end.

Definition included_by_tags (sel : RDSSelector) (tags : gmap string string) : bool :=
  match effectiveSelector sel with
  | Some s => Match tags (Some s)
  | None => if bool_decide (rs_ExcludeTags sel = ∅) then false else negb (matchesTags tags (rs_ExcludeTags sel))
  end.

Definition list_tag_map (tags : list (string * string)) : gmap string string :=
  fold_left (fun m tag => <[tag.1 := tag.2]> m) tags ∅.

Fixpoint discover_by_tags (api : StrategyApi) (sel : RDSSelector) (found : list DBResource) (ids : list string) :
  rds_proc (list string) :=
  match found with
  | [] => PRet (Ok ids)
  | d :: found' =>
      if api_Skip api (db_Identifier d) then discover_by_tags api sel found' ids
      else
        let? tags := ask_as (RErrListTags (db_Identifier d)) (ListTagsForResource (db_Arn d)) in
        discover_by_tags api sel found'
          (if included_by_tags sel (list_tag_map tags) then ids ++ [db_Identifier d] else ids)
  end.

Definition Discover (api : StrategyApi) (sel : RDSSelector) : rds_proc (list string) :=
  if bool_decide (api_Ids api sel <> []) then PRet (Ok (api_Ids api sel))
  else
    let? found := ask_as (RErrDescribe (api_Type api)) (api_Describe api None) in
    if rs_IncludeAll sel then PRet (Ok (map db_Identifier found))
    else discover_by_tags api sel found [].

(** [createInstanceSnapshot], [createClusterSnapshot]. *)
Definition create_snapshot (api : StrategyApi) (id : string) : rds_proc string :=
  let snapshotID := (id ++ "-hibernate-" ++ sprint_d (unix_now id))%string in
  let? _ := ask_as (RErrCreateSnapshot (api_Type api)) (api_CreateSnapshot api id snapshotID) in
  let? _ := ask_as (RErrWaitSnapshot (api_Type api)) (api_SnapshotAvailable api snapshotID) in
  PRet (Ok snapshotID).

(** A resource that does not exist is skipped. *)
Definition skip_missing (api : StrategyApi) (e : RDSApiError) : rds_proc rdsOutcome :=
  PRet (if api_NotFound api e then Ok rdsOutcomeSkippedStale else Err (RErrApi e)).

(** For a resource in between two states. *)
Definition transitional (params : RDSParameters) : rds_proc rdsOutcome :=
  PRet (Ok (if await_Enabled (rds_AwaitCompletion params) then rdsOutcomePending else rdsOutcomeSkippedStale)).

Definition report_state (s : ResourceState) (key : string) : rds_proc rdsOutcome :=
  PReport key (ReportStruct (object_text (state_fields s))) (PRet (Ok rdsOutcomeApplied)).

(** What [Stop] does with an available resource. *)
Definition stop_available (api : StrategyApi) (id : string) (snapshotBefore : bool) (class : string) : rds_proc rdsOutcome :=
  let? snapshot := (if snapshotBefore then create_snapshot api id else PRet (Ok ""%string)) in
  PAsk (api_Stop api id) (fun r =>
    match r with
    | inl e => skip_missing api e
    | inr _ => report_state (api_State api id true snapshot class) (GetResourceKey (api_Type api) id)
    end).

Definition Stop (api : StrategyApi) (params : RDSParameters) (id : string) (snapshotBefore : bool) : rds_proc rdsOutcome :=
  PAsk (api_Describe api (Some id)) (fun r =>
    match r with
    | inl e => skip_missing api e
    | inr [] => PRet (Err (RErrNotFound (api_Type api) id))
    | inr (d :: _) =>
        if (db_Status d =? "available")%string then stop_available api id snapshotBefore (db_Class d)
        else if (db_Status d =? "stopped")%string
        then report_state (api_State api id false "" (db_Class d)) (GetResourceKey (api_Type api) id)
        else transitional params
    end).

Definition Start (api : StrategyApi) (params : RDSParameters) (id : string) : rds_proc rdsOutcome :=
  PAsk (api_Describe api (Some id)) (fun r =>
    match r with
    | inl e => skip_missing api e
    | inr [] => PRet (Err (RErrNotFound (api_Type api) id))
    | inr (d :: _) =>
        if (db_Status d =? "available")%string then PRet (Ok rdsOutcomeSkippedStale)
        else if negb (db_Status d =? "stopped")%string then transitional params
        else
          PAsk (api_Start api id) (fun r =>
            match r with inl e => skip_missing api e | inr _ => PRet (Ok rdsOutcomeApplied) end)
    end).

(** [checkFunc] of the waits. *)
Definition has_status (api : StrategyApi) (status id : string) : rds_proc bool :=
  let? found := ask_as RErrApi (api_Describe api (Some id)) in
  match found with
  | [] => PRet (Err (RErrNotFound (api_Type api) id))
  | d :: _ => PRet (Ok (db_Status d =? status)%string)
  end.

Definition rds_DefaultWaitTimeout : string := "15m".

(** ** Completion *)

(** What the goroutines count. *)
Record awaited := mkAwaited {
  aw_timedOut : Z;
  aw_pendingApplied : Z;
  aw_failures : list (ResourceType * string * RDSError);
}.
Definition none_awaited : awaited := mkAwaited 0 0 [].
Definition add_timedOut (a : awaited) : awaited := mkAwaited (aw_timedOut a + 1) (aw_pendingApplied a) (aw_failures a).
Definition add_pendingApplied (a : awaited) : awaited := mkAwaited (aw_timedOut a) (aw_pendingApplied a + 1) (aw_failures a).
Definition add_failure (rt : ResourceType) (id : string) (e : RDSError) (a : awaited) : awaited :=
  mkAwaited (aw_timedOut a) (aw_pendingApplied a) (aw_failures a ++ [(rt, id, e)]).

Notation rds_thread := (thread RDSRequest RDSApiError awaited).

Definition wait_status (api : StrategyApi) (status id timeout : string) (ticks : nat) (k : res RDSError unit -> rds_thread) : rds_thread :=
  match NewWaiter [WithTimeoutString timeout] with
  | Ok w => poll_thread (has_status api status id) (w_timeout w) ticks (fun r => k (res_map_err RErrPoll r))
  | Err _ => k (Err RErrTimeoutFormat)
  | Panic => k Panic
  | NoReturn => k NoReturn
  end.

Definition WaitForAvailable (api : StrategyApi) : string -> string -> nat -> (res RDSError unit -> rds_thread) -> rds_thread :=
  wait_status api "available".
Definition WaitForStopped (api : StrategyApi) (id timeout : string) : nat -> (res RDSError unit -> rds_thread) -> rds_thread :=
  wait_status api "stopped" id (if (timeout =? "")%string then rds_DefaultWaitTimeout else timeout).

Definition waiter_of := StrategyApi -> string -> string -> nat -> (res RDSError unit -> rds_thread) -> rds_thread.

(** A resource that was changed: wait for the state it is to reach. *)
Definition waiting_thread (reach : waiter_of) (timeout : string) (ticks : nat) (rt : ResourceType) (id : string) : rds_thread :=
  reach (strategy_of rt) id timeout ticks (fun r => match r with Err _ => TNote add_timedOut TEnd | _ => TEnd end).

(** A pending resource: wait until it can be changed, change it, and wait. *)
Definition pending_thread (before reach : waiter_of) (act : StrategyApi -> string -> rds_proc rdsOutcome)
  (timeout : string) (ticks : nat) (rt : ResourceType) (id : string) : rds_thread :=
  let s := strategy_of rt in
  before s id timeout ticks (fun r =>
    match r with
    | Err e => TNote (add_failure rt id e) TEnd
    | Ok _ =>
        TCall (act s id) (fun r =>
          match r with
          | Err e => TNote (add_failure rt id e) TEnd
          | Ok rdsOutcomeApplied => TNote add_pendingApplied (waiting_thread reach timeout ticks rt id)
          | _ => TEnd
          end)
    | _ => TEnd
    end).

Definition completion_threads (before reach : waiter_of) (act : StrategyApi -> string -> bool -> rds_proc rdsOutcome)
  (timeout : string) (ticks : nat) (l : list tracked) (rt : ResourceType) : list rds_thread :=
  map (fun p => pending_thread before reach (fun s id => act s id p.2) timeout ticks rt p.1) (getAllPending rt l) ++
  map (waiting_thread reach timeout ticks rt) (getAllWaitingIDs rt l).

(** An invalid timeout stands for the default. *)
Definition await_duration (timeout : string) : Z :=
  match ParseDuration timeout with Ok d => d | _ => 15 * Minute end.

Definition failure_text (f : ResourceType * string * RDSError) : string :=
  (resource_word f.1.1 ++ " " ++ f.1.2 ++ ": " ++ rds_error_text f.2)%string.

(** The counts after the completion, and the message. *)
Definition completion_stats (a : awaited) (stats : rdsStats) : rdsStats :=
  let n := aw_pendingApplied a in
  let failed := Z.of_nat (length (aw_failures a)) in
  let stats := (if 0 <? n then add_rds_stats stats (add_rds_stats (rds_applied n) (rds_pending (- n))) else stats) in
  if 0 <? failed then add_rds_stats stats (add_rds_stats (rds_failed failed) (rds_pending (- failed))) else stats.

Definition completion_suffix (a : awaited) (totalOperations : Z) (timeout not_yet confirmed : string) : string :=
  let failedCount := Z.of_nat (length (aw_failures a)) in
  ((if (0 <? failedCount)%Z
    then "; " ++ sprint_d failedCount ++ " pending " ++ (if (1 <? failedCount)%Z then "resources" else "resource") ++
         " failed to transition: " ++ Join ", " (map failure_text (aw_failures a))
    else "") ++
   (if (0 <? aw_timedOut a)%Z
    then "; " ++ sprint_d (aw_timedOut a) ++ " of " ++ sprint_d totalOperations ++ " resource(s) not yet " ++ not_yet ++
         " after " ++ timeout ++ " timeout"
    else if (failedCount =? 0)%Z then "; all resources confirmed " ++ confirmed else ""))%string.

(** A tick comes every [DefaultPollInterval] until the common deadline. *)
Definition await_ticks (duration : Z) : nat := Z.to_nat (duration / DefaultPollInterval).

Context (sched : list sched_event).
Context {A : Type}.
Notation RdsRun := (Run RDSWorld tracked A).
Definition DM (B : Type) : Type := ST RdsRun RDSError B.

(** All resources share the deadline; the goroutines run concurrently. *)
Definition await_completion (callback : option (ReportStateCallback A)) (before reach : waiter_of)
  (act : StrategyApi -> string -> bool -> rds_proc rdsOutcome) (await : AwaitCompletion)
  (format : rdsStats -> string) (not_yet confirmed : string) (stats : rdsStats) : DM string := fun s =>
  let timeout := wait_timeout rds_DefaultWaitTimeout await in
  let duration := await_duration timeout in
  let threads := concat (map (completion_threads before reach act timeout (await_ticks duration) (run_waiting s))
                   [ResourceTypeInstance; ResourceTypeCluster]) in
  let sh := wait_all callback sched threads
              (mkShared (run_target s) (run_acc s) none_awaited (if duration <=? 0 then Some true else None)) in
  let stats := completion_stats (sh_counts sh) stats in
  (Ok (format stats ++ completion_suffix (sh_counts sh) (Z.of_nat (length threads)) timeout not_yet confirmed)%string,
   set_run_acc (sh_acc sh) (set_run_target (sh_target sh) s)).

Definition handleShutdownAwaitCompletion (callback : option (ReportStateCallback A)) (params : RDSParameters) (stats : rdsStats) : DM string :=
  await_completion callback WaitForAvailable WaitForStopped (fun s id snapshotBefore => Stop s params id snapshotBefore)
    (rds_AwaitCompletion params) formatShutdownMessage "stopped" "stopped" stats.

Definition handleWakeupAwaitCompletion (params : RDSParameters) (stats : rdsStats) : DM string :=
  await_completion None WaitForStopped WaitForAvailable (fun s id _ => Start s params id)
    (rds_AwaitCompletion params) formatWakeUpMessage "available" "available" stats.

(** ** Shutdown and wakeup *)

Definition rds_parseParams (spec : Spec) : DM RDSParameters :=
  match decode_params zero_RDSParameters parse_rds_params (es_Parameters spec) with
  | Some params => st_ret params
  | None => st_throw RErrParseParameters
  end.

Definition rds_loadAWSConfig (spec : Spec) : DM AwsConfig :=
  match BuildAWSConfig (cc_AWS (es_ConnectorConfig spec)) with
  | None => st_throw RErrLoadAWSConfig
  | Some cfg => st_ret cfg
  end.

Definition track (t : tracked) : DM unit := st_modify (fun s => set_run_waiting (run_waiting s ++ [t]) s).

(** The [switch] on the outcome. *)
Definition count_rds_outcome (rt : ResourceType) (id : string) (snapshotBefore : bool) (o : rdsOutcome) (stats : rdsStats) : DM rdsStats :=
  match o with
  | rdsOutcomeApplied => do! track (TrackWaiting rt id) in st_ret (add_rds_stats stats (rds_applied 1))
  | rdsOutcomeSkippedStale => st_ret (add_rds_stats stats rds_skippedStale)
  | rdsOutcomePending => do! track (TrackPending rt id snapshotBefore) in st_ret (add_rds_stats stats (rds_pending 1))
  end.

Definition process_resource (callback : option (ReportStateCallback A)) (params : RDSParameters) (rt : ResourceType)
  (stats : rdsStats) (id : string) : DM rdsStats :=
  let! outcome := st_wrap (RErrStop rt id) (run_proc callback (Stop (strategy_of rt) params id (rds_SnapshotBeforeStop params))) in
  count_rds_outcome rt id (rds_SnapshotBeforeStop params) outcome stats.

Fixpoint process_ids (callback : option (ReportStateCallback A)) (params : RDSParameters) (rt : ResourceType)
  (ids : list string) (stats : rdsStats) : DM rdsStats :=
  match ids with
  | [] => st_ret stats
  | id :: ids' =>
      let! stats := process_resource callback params rt stats id in
      process_ids callback params rt ids' stats
  end.

Definition processResources (callback : option (ReportStateCallback A)) (params : RDSParameters) (rt : ResourceType)
  (stats : rdsStats) : DM rdsStats :=
  let! ids := st_wrap (RErrDiscover rt) (run_proc callback (Discover (strategy_of rt) (rds_Selector params))) in
  process_ids callback params rt ids (add_rds_stats stats (rds_processed (Z.of_nat (length ids)))).

(** Explicit IDs say which types are meant. *)
Definition determineResourceTypes (params : RDSParameters) : bool * bool :=
  let sel := rds_Selector params in
  let instances := bool_decide (rs_InstanceIds sel <> []) in
  let clusters := bool_decide (rs_ClusterIds sel <> []) in
  if instances || clusters then (instances, clusters)
  else (rs_DiscoverInstances sel, rs_DiscoverClusters sel).

Definition rds_Shutdown (spec : Spec) (callback : option (ReportStateCallback A)) : DM Result :=
  let! params := rds_parseParams spec in
  let! _ := rds_loadAWSConfig spec in
  let '(discoverInstances, discoverClusters) := determineResourceTypes params in
  let stats := mkRdsStats 0 0 0 0 0 0 in
  let! stats := (if discoverInstances then processResources callback params ResourceTypeInstance stats else st_ret stats) in
  let! stats := (if discoverClusters then processResources callback params ResourceTypeCluster stats else st_ret stats) in
  let! msg := (if await_Enabled (rds_AwaitCompletion params)
               then handleShutdownAwaitCompletion callback params stats
               else st_ret (formatShutdownMessage stats)) in
  st_ret (mkResult msg 0).

(** The type and the ID that a key of the restore data names. *)
Definition parse_key (key : string) : option (ResourceType * string) :=
  if has_prefix "instance:" key then Some (ResourceTypeInstance, TrimPrefix key "instance:")
  else if has_prefix "cluster:" key then Some (ResourceTypeCluster, TrimPrefix key "cluster:")
  else None.

Definition restoreResource (params : RDSParameters) (key text : string) (stats : rdsStats) : DM rdsStats :=
  match parse_key key with
  | None => st_ret (add_rds_stats stats rds_skippedKey)
  | Some (rt, id) =>
      match ParseState rt text with
      | None => st_throw (RErrUnmarshal rt id)
      | Some persistedState =>
          if negb (WasResourceRunning persistedState) then st_ret (add_rds_stats stats rds_skippedStale)
          else
            let! outcome := st_wrap (RErrStart rt id) (run_proc None (Start (strategy_of rt) params id)) in
            count_rds_outcome rt id false outcome stats
      end
  end.

Definition rds_WakeUp (spec : Spec) (restore : RestoreData) : DM Result :=
  if bool_decide (rd_Data restore = ∅)
  then st_ret (mkResult "wakeup completed for RDS (no restore data)" 0)
  else
    let! params := rds_parseParams spec in
    let! _ := rds_loadAWSConfig spec in
    let! stats := wake_entries (restoreResource params) (rd_Data restore) (restore_order (rd_Data restore))
                    (rds_processed (Z.of_nat (size (rd_Data restore)))) in
    let! msg := (if await_Enabled (rds_AwaitCompletion params)
                 then handleWakeupAwaitCompletion params stats
                 else st_ret (formatWakeUpMessage stats)) in
    st_ret (mkResult msg 0).
End operations.

(** ** The executor *)

Definition rds_Validate `{HP : ParamsJSON} (spec : Spec) : res RDSError unit :=
  match cc_AWS (es_ConnectorConfig spec) with
  | None => Err RErrAWSRequired
  | Some _ =>
      match decode_params zero_RDSParameters parse_rds_params (es_Parameters spec) with
      | None => Err RErrParseParameters
      | Some params =>
          let sel := rds_Selector params in
          let hasTags := negb (bool_decide (rs_Tags sel = ∅)) in
          let hasExcludeTags := negb (bool_decide (rs_ExcludeTags sel = ∅)) in
          let hasTagSelector := has_tag_selector (rs_TagSelector sel) in
          let hasInstanceIds := negb (bool_decide (rs_InstanceIds sel = [])) in
          let hasClusterIds := negb (bool_decide (rs_ClusterIds sel = [])) in
          if negb (hasTags || hasExcludeTags || hasTagSelector || hasInstanceIds || hasClusterIds || rs_IncludeAll sel)
          then Err RErrSelectorRequired
          else if hasTags && hasExcludeTags then Err RErrTagsAndExcludeTags
          else if hasTagSelector && (hasTags || hasExcludeTags) then Err RErrTagSelectorAndTags
          else if rs_IncludeAll sel && (hasTags || hasExcludeTags || hasTagSelector || hasInstanceIds || hasClusterIds)
          then Err RErrIncludeAll
          else Ok tt
      end
  end.

Definition RDSExecutorType : string := "rds".

(** What comes from outside: the clock for the names of snapshots, and the order
    in which the goroutines run. *)
Record RdsOracle := mkRdsOracle {
  or_unix_now : string -> Z;
  or_sched : list sched_event;
}.

Definition rds_executor `{HS : RDSClients} `{HT : JSONText} `{HP : ParamsJSON} `{HO : MapOrder} (o : RdsOracle) :
  Executor RDSWorld := {|
  ExecutorError := RDSError;
  executor_Type := RDSExecutorType;
  Validate := rds_Validate;
  Shutdown A spec callback := fun s =>
    let '(r, s') := rds_Shutdown (or_unix_now o) (or_sched o) spec callback (mkRun s.1 [] s.2) in
    (r, (run_target s', run_acc s'));
  WakeUp spec restore := fun c =>
    let '(r, s') := rds_WakeUp (or_sched o) spec restore (mkRun c [] tt) in (r, run_target s');
|}.
