(* ===== verification/RDSSpec.v ===== *)
(** * The RDS executor in the runner

    [RDSLaws] states what the executor relies on: a resource that is described as
    available is up, one that is stopped is down, and only a stop or a start of a
    resource changes whether it is up.  Under these laws the executor keeps the
    contract of [Cycle], in every interleaving of the goroutines that complete the
    work: between the stop of a resource and its report nobody else touches it. *)
From S2P Require Import Prelude Monad GoString GoTime Types Cluster Restore RestoreSpec Params Executor Operation.
From S2P Require Import Threads AwsUtil Runner Cycle RDS.
From Stdlib Require Import Lia.

Local Open Scope Z_scope.

Notation resource := (ResourceType * string)%type.

(** ** What the service promises *)

(** The requests that change a resource, and whether it is up afterwards. *)
Definition rds_action {B} (q : RDSRequest B) : option (resource * bool) :=
  match q with
  | StopDBInstance id => Some ((ResourceTypeInstance, id), false)
  | StopDBCluster id => Some ((ResourceTypeCluster, id), false)
  | StartDBInstance id => Some ((ResourceTypeInstance, id), true)
  | StartDBCluster id => Some ((ResourceTypeCluster, id), true)
  | _ => None
  end.

(** What the answer to a description of one resource says of it. *)
Definition described {B} (q : RDSRequest B) : RDSApiError + B -> option (resource * DBResource) :=
  match q in RDSRequest B return RDSApiError + B -> option (resource * DBResource) with
  | DescribeDBInstances (Some id) => fun r =>
      match r with inr (d :: _) => Some ((ResourceTypeInstance, id), d) | _ => None end
  | DescribeDBClusters (Some id) => fun r =>
      match r with inr (d :: _) => Some ((ResourceTypeCluster, id), d) | _ => None end
  | _ => fun _ => None
  end.

(** The resources of a listing are different; identifiers and classes are ASCII. *)
Definition distinct (r : RDSApiError + list DBResource) : Prop :=
  match r with inr l => NoDup (map db_Identifier l) | inl _ => True end.
Definition rds_answer B (q : RDSRequest B) : RDSApiError + B -> Prop :=
  match q in RDSRequest B return RDSApiError + B -> Prop with
  | DescribeDBInstances None => distinct
  | DescribeDBClusters None => distinct
  | q => fun r => match described q r with
                  | Some (x, d) => is_ascii x.2 = true /\ is_ascii (db_Class d) = true
                  | None => True
                  end
  end.

Class RDSObservers `{RDSClients} := {
  rds_up : RDSWorld -> resource -> option bool;
  rds_healthy : RDSWorld -> Prop;
}.

Definition up_as_described (up : option bool) (d : DBResource) : Prop :=
  (db_Status d = "available"%string -> up = Some true) /\ (db_Status d = "stopped"%string -> up = Some false).

Class RDSLaws `{HS : RDSClients} {HO : RDSObservers} : Prop := {
  rds_serve_answer B (q : RDSRequest B) c : rds_answer B q (serve q c).1;
  rds_serve_described B (q : RDSRequest B) c x d :
    described q (serve q c).1 = Some (x, d) -> up_as_described (rds_up c x) d;
  rds_serve_up B (q : RDSRequest B) c x :
    rds_up (serve q c).2 x =
      match rds_action q, (serve q c).1 with
      | Some (y, up), inr _ => if decide (x = y) then (fun _ => up) <$> rds_up c x else rds_up c x
      | _, _ => rds_up c x
      end;
  (** A healthy service answers, and a resource that is down has stopped. *)
  rds_healthy_serve B (q : RDSRequest B) c :
    (forall x, rds_action q <> Some (x, false)) -> rds_healthy c -> rds_healthy (serve q c).2;
  rds_healthy_describe rt id c : rds_healthy c -> is_Some (rds_up c (rt, id)) ->
    exists d l, (serve (api_Describe (strategy_of rt) (Some id)) c).1 = inr (d :: l) /\
      (rds_up c (rt, id) = Some false -> db_Status d = "stopped"%string);
  rds_healthy_start rt id c : rds_healthy c -> is_Some (rds_up c (rt, id)) ->
    (serve (api_Start (strategy_of rt) id) c).1 = inr tt;
}.

Lemma stop_action rt id : rds_action (api_Stop (strategy_of rt) id) = Some ((rt, id), false).
Proof. by destruct rt. Qed.
Lemma start_action rt id : rds_action (api_Start (strategy_of rt) id) = Some ((rt, id), true).
Proof. by destruct rt. Qed.
Lemma describe_action rt o : rds_action (api_Describe (strategy_of rt) o) = None.
Proof. by destruct rt. Qed.
Lemma snapshot_action rt id sid : rds_action (api_CreateSnapshot (strategy_of rt) id sid) = None.
Proof. by destruct rt. Qed.
Lemma available_action rt sid : rds_action (api_SnapshotAvailable (strategy_of rt) sid) = None.
Proof. by destruct rt. Qed.
Lemma describe_described rt id d l :
  described (api_Describe (strategy_of rt) (Some id)) (inr (d :: l)) = Some ((rt, id), d).
Proof. by destruct rt. Qed.
Lemma describe_answer rt id d l :
  rds_answer _ (api_Describe (strategy_of rt) (Some id)) (inr (d :: l)) -> is_ascii id = true /\ is_ascii (db_Class d) = true.
Proof. by destruct rt. Qed.
Lemma api_Type_of rt : api_Type (strategy_of rt) = rt.
Proof. by destruct rt. Qed.

(** ** Keys and states *)

Lemma substring_all t n : (String.length t <= n)%nat -> String.substring 0 n t = t.
Proof.
  revert n. induction t as [|a t IH]; intros [|n] Hn; cbn in *; [done..|lia|]. by rewrite IH by lia.
Qed.

Lemma TrimPrefix_append p t : TrimPrefix (p ++ t)%string p = t.
Proof.
  unfold TrimPrefix. rewrite has_prefix_append.
  enough (forall n, (String.length t <= n)%nat -> String.substring (String.length p) n (p ++ t)%string = t) as H
    by (apply H; rewrite length_append; lia).
  induction p as [|a p IH]; intros n Hn; cbn; [by apply substring_all|by apply IH].
Qed.

Lemma parse_key_GetResourceKey rt id : parse_key (GetResourceKey rt id) = Some (rt, id).
Proof.
  assert (forall rt, GetResourceKey rt id = ((resource_word rt ++ ":") ++ id)%string) as Hk by (by intros []).
  unfold parse_key. rewrite Hk. destruct rt; cbn [resource_word].
  - change "instance:"%string with ("instance" ++ ":")%string. by rewrite has_prefix_append, TrimPrefix_append.
  - change "cluster:"%string with ("cluster" ++ ":")%string. by rewrite has_prefix_append, TrimPrefix_append.
Qed.

Lemma GetResourceKey_inj rt id rt' id' : GetResourceKey rt id = GetResourceKey rt' id' -> (rt, id) = (rt', id').
Proof. intros H%(f_equal parse_key). rewrite !parse_key_GetResourceKey in H. congruence. Qed.

Lemma is_ascii_append s t : is_ascii (s ++ t)%string = is_ascii s && is_ascii t.
Proof. induction s as [|a s IH]; [done|]. change (String a s ++ t)%string with (String a (s ++ t)). cbn [is_ascii]. by rewrite IH, andb_assoc. Qed.

Lemma is_ascii_pretty_N_go (x : N) s : is_ascii s = true -> is_ascii (pretty_N_go x s) = true.
Proof.
  revert s. induction (N.lt_wf_0 x) as [x _ IH]; intros s Hs.
  destruct (decide (x = 0%N)) as [->|Hx]; [by rewrite pretty_N_go_0|]. rewrite pretty_N_go_step by lia.
  apply IH; [apply N.div_lt; lia|]. cbn. rewrite Hs, andb_true_r.
  assert (forall y, (N_of_ascii (pretty_N_char y) <? 128)%N = true) as Hc
    by (intros y; unfold pretty_N_char; repeat case_match; reflexivity).
  apply Hc.
Qed.

Lemma is_ascii_sprint_d n : is_ascii (sprint_d n) = true.
Proof.
  assert (forall x : N, is_ascii (pretty x) = true) as Hx.
  { intros x. unfold pretty, pretty_N. case_decide; [done|]. by apply is_ascii_pretty_N_go. }
  destruct n as [|p|p]; [done|apply Hx|]. exact (Hx (N.pos p)).
Qed.

Definition state_type (s : ResourceState) : ResourceType :=
  match s with StateOfInstance _ => ResourceTypeInstance | StateOfCluster _ => ResourceTypeCluster end.
Definition state_id (s : ResourceState) : string :=
  match s with StateOfInstance s => dbi_InstanceId s | StateOfCluster s => dbc_ClusterId s end.
Definition state_key (s : ResourceState) : string := GetResourceKey (state_type s) (state_id s).
Definition state_resource (s : ResourceState) : resource := (state_type s, state_id s).

Definition state_wf (s : ResourceState) : Prop :=
  match s with
  | StateOfInstance s => is_ascii (dbi_InstanceId s) = true /\ is_ascii (dbi_SnapshotId s) = true /\ is_ascii (dbi_InstanceType s) = true
  | StateOfCluster s => is_ascii (dbc_ClusterId s) = true /\ is_ascii (dbc_SnapshotId s) = true
  end.

Section encoding.
Context {HT : JSONText} {HTL : JSONTextLaws}.

Lemma omit_empty_canonical key value m :
  is_ascii value = true -> map_Forall (fun _ v => scalar_canonical v) m ->
  map_Forall (fun _ v => scalar_canonical v) (omit_empty key value m).
Proof.
  intros Hv Hm. unfold omit_empty. destruct (_ =? _)%string; [done|]. apply map_Forall_insert_2; [by apply quote_canonical|done].
Qed.

Lemma omit_empty_member key value m :
  is_ascii value = true -> m !! key = None -> string_member (omit_empty key value m) key = Some value.
Proof.
  intros Hv Hm. unfold omit_empty. destruct (value =? "")%string eqn:E.
  - unfold string_member. rewrite Hm. by apply String.eqb_eq in E as ->.
  - apply string_member_quote; [done|]. apply lookup_insert_eq.
Qed.

Lemma omit_empty_ne key value m k : k <> key -> omit_empty key value m !! k = m !! k.
Proof. intros Hk. unfold omit_empty. destruct (_ =? _)%string; [done|]. by apply lookup_insert_ne. Qed.

Lemma string_member_lookup m m' k : m !! k = m' !! k -> string_member m k = string_member m' k.
Proof. intros H. unfold string_member. by rewrite H. Qed.

Lemma state_fields_canonical s : state_wf s -> map_Forall (fun _ v => scalar_canonical v) (state_fields s).
Proof.
  destruct s as [s|s]; cbn; [intros (H1 & H2 & H3)|intros (H1 & H2)]; repeat (apply omit_empty_canonical; [done|]);
    (apply map_Forall_insert_2; [by apply quote_canonical|]); by apply map_Forall_singleton.
Qed.

Lemma bool_member_running s : state_fields s !! "wasRunning" = Some (SBool (WasResourceRunning s)).
Proof.
  destruct s as [s|s]; cbn; rewrite !omit_empty_ne by done; rewrite lookup_insert_ne by done; apply lookup_singleton_eq.
Qed.

Lemma state_demanded s : demanded (AnyMap (state_fields s)) = WasResourceRunning s.
Proof.
  cbn. unfold isDemandedState, bool_member. rewrite bool_member_running.
  assert (state_fields s !! "wasScaled" = None) as ->.
  { destruct s as [s|s]; cbn; rewrite !omit_empty_ne by done; by rewrite lookup_insert_ne, lookup_singleton_ne by done. }
  apply orb_false_r.
Qed.

Lemma ParseState_fields s : state_wf s -> ParseState (state_type s) (object_text (state_fields s)) = Some s.
Proof.
  intros Hwf. unfold ParseState. rewrite object_roundtrip by (by apply state_fields_canonical). cbn [mbind option_bind].
  unfold bool_field. rewrite bool_member_running. cbn [mbind option_bind].
  destruct s as [[id b snap class]|[id b snap]]; cbn in Hwf |- *; [destruct Hwf as (H1 & H2 & H3)|destruct Hwf as (H1 & H2)].
  - rewrite omit_empty_member by (done || by rewrite omit_empty_ne by done). cbn [mbind option_bind].
    rewrite (string_member_quote _ "instanceId" id) by (done || by rewrite !omit_empty_ne by done). cbn [mbind option_bind].
    rewrite (string_member_lookup _ (omit_empty "instanceType" class
      {["instanceId" := SOther (quote id); "wasRunning" := SBool b]})) by (by apply omit_empty_ne).
    by rewrite omit_empty_member.
  - rewrite omit_empty_member by done. cbn [mbind option_bind].
    by rewrite (string_member_quote _ "clusterId" id) by (done || by rewrite !omit_empty_ne by done).
Qed.
End encoding.

(** ** Resources *)

Section instance.
Context {HS : RDSClients} {HSO : RDSObservers} {HL : RDSLaws}.
Context {HT : JSONText} {HTL : JSONTextLaws} {HP : ParamsJSON} {HM : MapOrder}.
Context (spec : Spec) (params : RDSParameters).
Hypothesis Hparams : decode_params zero_RDSParameters parse_rds_params (es_Parameters spec) = Some params.

#[export] Instance rds_hibernation : Hibernation RDSWorld := {|
  h_resource := resource;
  h_resource_dec := _;
  h_value := bool;
  h_state := ResourceState;
  h_look := rds_up;
  h_linked _ k x := k = GetResourceKey x.1 x.2;
  h_ready _ := True;
  h_healthy c := rds_healthy c /\ is_Some (BuildAWSConfig (cc_AWS (es_ConnectorConfig spec)));
  h_awaits := false;
  st_key := state_key;
  st_id := state_resource;
  st_value := WasResourceRunning;
  st_down _ := Some false;
  st_scaled := WasResourceRunning;
  st_fields := state_fields;
  st_wf := state_wf;
|}.

Notation RdsRun A := (Run RDSWorld tracked A).

(** ** The protocol of a shutdown

    A resource is untouched; it may be known to be up; when it has been stopped
    its report is owed; after the report it is settled. *)
Inductive shut_phase := Untouched | KnownUp | Owed | Settled.
Definition open_phase (ph : shut_phase) : Prop := ph = Untouched \/ ph = KnownUp.
Definition closed_phase (ph : shut_phase) : Prop := ph <> Owed.

Definition may_stop B (x : resource) (q : RDSRequest B) (ph : shut_phase) : Prop :=
  match rds_action q with None => True | Some (y, up) => y = x /\ up = false /\ ph = KnownUp end.

Definition after_stop B (x : resource) (q : RDSRequest B) (r : RDSApiError + B) (ph : shut_phase) : shut_phase :=
  match rds_action q with
  | Some _ => match r with inr _ => Owed | inl _ => ph end
  | None =>
      match ph, described q r with
      | Untouched, Some (y, d) => if decide (y = x /\ db_Status d = "available"%string) then KnownUp else ph
      | _, _ => ph
      end
  end.

Definition may_tell (x : resource) (key : string) (value : reported) (ph : shut_phase) : Prop :=
  exists s, state_wf s /\ state_resource s = x /\ key = state_key s /\ value = ReportStruct (object_text (state_fields s)) /\
    if WasResourceRunning s then ph = Owed else open_phase ph.
Definition after_tell (x : resource) (key : string) (value : reported) (ph : shut_phase) : shut_phase := Settled.

Section shutdown.
Context (clock : nat -> time) (c1 : RDSWorld).
Notation callback := (Some (acc_add clock)).
Notation key_of x := (GetResourceKey x.1 x.2).

Definition phase_holds (ph : shut_phase) (x : resource) (up : option bool) (acc : Accumulator) : Prop :=
  match ph with
  | Untouched => acc_state acc !! key_of x = None /\ up = rds_up c1 x
  | KnownUp => acc_state acc !! key_of x = None /\ up = rds_up c1 x /\ rds_up c1 x = Some true
  | Owed => acc_state acc !! key_of x = None /\ up = Some false /\ rds_up c1 x = Some true
  | Settled => up = rds_up c1 x \/ exists st, acc_state acc !! key_of x = Some (AnyMap (state_fields st)) /\
      state_resource st = x /\ WasResourceRunning st = true /\ state_wf st /\ up = Some false
  end.

Record stopping (ph : resource -> shut_phase) (c : RDSWorld) (acc : Accumulator) : Prop := {
  sg_reportedAt : dom (acc_reportedAt acc) = dom (acc_state acc);
  sg_reports k v : acc_state acc !! k = Some v ->
    exists st, v = AnyMap (state_fields st) /\ k = state_key st /\ reports_of c1 st;
  sg_phase x : phase_holds (ph x) x (rds_up c x) acc;
}.

Definition set_phase (ph : resource -> shut_phase) (x : resource) (p : shut_phase) : resource -> shut_phase :=
  fun y => if decide (y = x) then p else ph y.
Lemma set_phase_eq ph x p : set_phase ph x p x = p.
Proof. unfold set_phase. by rewrite decide_True. Qed.
Lemma set_phase_moved ph x p : moved x ph (set_phase ph x p).
Proof. intros y Hy. unfold set_phase. by rewrite decide_False. Qed.

Lemma stopping_ask B x (q : RDSRequest B) ph c acc :
  stopping ph c acc -> may_stop B x q (ph x) ->
  exists ph', stopping ph' (serve q c).2 acc /\ ph' x = after_stop B x q (serve q c).1 (ph x) /\ moved x ph ph'.
Proof.
  intros [H1 H2 H3] Hq. set (p := after_stop B x q (serve q c).1 (ph x)). exists (set_phase ph x p).
  split_and!; [|apply set_phase_eq|apply set_phase_moved]. split; [done..|]. intros y. rewrite rds_serve_up. unfold set_phase.
  pose proof (H3 y) as Hy. unfold may_stop, after_stop in *. destruct (rds_action q) as [[z up]|].
  - destruct Hq as (-> & -> & Hph). subst p. rewrite Hph. destruct (serve q c).1; (case_decide; [subst y|done]).
    + by rewrite Hph in Hy.
    + rewrite Hph in Hy. destruct Hy as (Ha & He & Hu). by rewrite He, Hu.
  - case_decide as Hd; [subst y|done]. subst p. destruct (ph x) eqn:Eph; try done.
    destruct (described q (serve q c).1) as [[y d]|] eqn:Ed; [|done]. case_decide as Hs; [|done]. destruct Hs as [-> Hs].
    destruct (rds_serve_described _ _ _ _ _ Ed) as [Ha _]. destruct Hy as [Hn He]. split_and!; [done..|]. by rewrite <- He, Ha.
Qed.

Lemma deliver_state st acc : state_wf st ->
  deliver callback (state_key st) (ReportStruct (object_text (state_fields st))) acc =
    accumulate (HH:=rds_hibernation) clock (state_key st) st acc.
Proof.
  intros Hwf. unfold deliver, acc_add, st_modify, accumulated, accumulate. cbn.
  by rewrite object_roundtrip by (by apply state_fields_canonical).
Qed.

Lemma stopping_tell x key value ph c acc :
  stopping ph c acc -> may_tell x key value (ph x) ->
  exists ph', stopping ph' c (deliver callback key value acc) /\ ph' x = after_tell x key value (ph x) /\ moved x ph ph'.
Proof.
  intros [H1 H2 H3] (st & Hwf & <- & -> & -> & Hph). exists (set_phase ph (state_resource st) Settled).
  split_and!; [|apply set_phase_eq|apply set_phase_moved]. rewrite deliver_state by done.
  assert (reports_of c1 st) as Hrep.
  { split; [done|done|]. cbn. intros Hr. rewrite Hr in Hph. pose proof (H3 (state_resource st)) as H. rewrite Hph in H.
    destruct H as (_ & _ & ->). by rewrite Hr. }
  split.
  - cbn. by rewrite !dom_insert_L, H1.
  - cbn. intros k v. rewrite lookup_insert_Some. intros [[<- <-]|[_ Hk] ]; [by exists st|by apply H2].
  - intros y. unfold set_phase. pose proof (H3 y) as Hy. case_decide as Hd.
    + subst y. cbn. destruct (WasResourceRunning st) eqn:Er.
      * rewrite Hph in Hy. right. exists st. unfold state_key, state_resource in *. cbn in *. rewrite lookup_insert_eq.
        split_and!; try done. by destruct Hy as (_ & ? & _).
      * left. destruct Hph as [Hph|Hph]; rewrite Hph in Hy; by destruct Hy as (_ & ? & _) || by destruct Hy.
    + assert (state_key st <> key_of y) as Hk.
      { unfold state_key. intros Hk%GetResourceKey_inj. apply Hd. by destruct y. }
      unfold phase_holds, accumulate in *. cbn. by rewrite !lookup_insert_ne by done.
Qed.

Lemma stopping_start : stopping (fun _ => Untouched) c1 NewAccumulator.
Proof. split; [done..|]. intros x. done. Qed.

Lemma stopping_post ph c acc : stopping ph c acc -> (forall x, closed_phase (ph x)) -> shut_post c1 c acc.
Proof.
  intros [H1 H2 H3] Hc. split; [done|done|done|done|]. intros x. cbn. pose proof (H3 x) as H. specialize (Hc x).
  unfold closed_phase in Hc. unfold phase_holds in H.
  destruct (ph x); [left; by destruct H|left; by destruct H as (_ & ? & _)|done|].
  destruct H as [H|(st & H4 & <- & H5 & H6 & H7)]; [by left|right]. by exists st.
Qed.
End shutdown.

(** ** The operations keep to the protocol *)

Section keeps.
Context (unix_now : string -> Z).
Notation pok := (proc_ok may_stop after_stop may_tell after_tell rds_answer).
Notation tok := (thread_ok (C:=awaited) may_stop after_stop may_tell after_tell rds_answer closed_phase).

(** The phase after requests that change nothing. *)
Definition looked (ph ph' : shut_phase) : Prop := ph' = ph \/ (ph = Untouched /\ ph' = KnownUp).

Lemma looked_refl ph : looked ph ph.
Proof. by left. Qed.
Lemma looked_trans ph1 ph2 ph3 : looked ph1 ph2 -> looked ph2 ph3 -> looked ph1 ph3.
Proof. unfold looked. naive_solver. Qed.
Lemma looked_open ph ph' : looked ph ph' -> open_phase ph -> open_phase ph'.
Proof. unfold looked, open_phase. naive_solver. Qed.
Lemma looked_closed ph ph' : looked ph ph' -> closed_phase ph -> closed_phase ph'.
Proof. unfold looked, closed_phase. naive_solver. Qed.
Lemma open_closed ph : open_phase ph -> closed_phase ph.
Proof. unfold open_phase, closed_phase. naive_solver. Qed.

Lemma look_may B x (q : RDSRequest B) ph : rds_action q = None -> may_stop B x q ph.
Proof. intros H. unfold may_stop. by rewrite H. Qed.
Lemma look_after B x (q : RDSRequest B) r ph : rds_action q = None -> looked ph (after_stop B x q r ph).
Proof.
  intros H. unfold after_stop. rewrite H. destruct ph; try by left.
  destruct (described q r) as [[y d]|]; [|by left]. case_decide; [by right|by left].
Qed.

(** A request that looks, and what is done with its answer. *)
Lemma pok_look {B X} x (q : RDSRequest B) (k : RDSApiError + B -> proc RDSRequest RDSApiError X) ph (post : X -> shut_phase -> Prop) :
  rds_action q = None ->
  (forall r ph', rds_answer B q r -> looked ph ph' -> ph' = after_stop B x q r ph -> pok x (k r) ph' post) ->
  pok x (PAsk q k) ph post.
Proof. intros Hq Hk. split; [by apply look_may|]. intros r Hr. by apply Hk; [|apply look_after|]. Qed.

Lemma pok_ask_as {B F} x (f : RDSApiError -> F) (q : RDSRequest B) ph (post : res F B -> shut_phase -> Prop) :
  rds_action q = None ->
  (forall r ph', looked ph ph' -> post r ph') ->
  pok x (ask_as f q) ph post.
Proof. intros Hq Hp. apply pok_look; [done|]. intros r ph' _ Hl _. by apply Hp. Qed.

(** What is left of a resource by a stop. *)
Definition stop_result (r : res RDSError rdsOutcome) (ph : shut_phase) : Prop :=
  match r with
  | Ok rdsOutcomeApplied => ph = Settled
  | Ok rdsOutcomePending => open_phase ph
  | Ok rdsOutcomeSkippedStale => closed_phase ph
  | Err _ => closed_phase ph
  | _ => False
  end.

Lemma skip_missing_ok api e x ph : closed_phase ph -> pok x (skip_missing api e) ph stop_result.
Proof. intros H. unfold skip_missing. cbn. by destruct (api_NotFound api e). Qed.

Lemma report_state_ok s ph :
  state_wf s -> (if WasResourceRunning s then ph = Owed else open_phase ph) ->
  pok (state_resource s) (report_state s (state_key s)) ph stop_result.
Proof. intros Hwf Hph. cbn. split; [|done]. by exists s. Qed.

Lemma api_State_resource rt id b snap class :
  let s := api_State (strategy_of rt) id b snap class in
  state_resource s = (rt, id) /\ state_key s = GetResourceKey rt id /\ WasResourceRunning s = b /\
  (is_ascii id = true -> is_ascii snap = true -> is_ascii class = true -> state_wf s).
Proof. by destruct rt. Qed.

Lemma create_snapshot_ok rt id ph :
  is_ascii id = true ->
  pok (rt, id) (create_snapshot unix_now (strategy_of rt) id) ph
    (fun r ph' => looked ph ph' /\ match r with Ok snap => is_ascii snap = true | Err _ => True | _ => False end).
Proof.
  intros Hid. unfold create_snapshot, then_ok. cbn [proc_bind ask_as].
  apply pok_look; [apply snapshot_action|]. intros [e|[]] ph1 _ H1 _; cbn [proc_bind]; [done|].
  apply pok_look; [apply available_action|]. intros [e|[]] ph2 _ H2 _; cbn [proc_bind].
  - split; [by eapply looked_trans|done].
  - split; [by eapply looked_trans|]. by rewrite !is_ascii_append, Hid, is_ascii_sprint_d.
Qed.

Lemma stop_available_ok rt id snapshotBefore class :
  is_ascii id = true -> is_ascii class = true ->
  pok (rt, id) (stop_available unix_now (strategy_of rt) id snapshotBefore class) KnownUp stop_result.
Proof.
  intros Hid Hc. unfold stop_available, then_ok. apply proc_ok_bind.
  apply (proc_ok_mono _ _ _ _ _ _ _ _
    (fun r ph' => ph' = KnownUp /\ match r with Ok snap => is_ascii snap = true | Err _ => True | _ => False end)).
  2: { destruct snapshotBefore; [|done]. eapply proc_ok_mono; [|by apply create_snapshot_ok].
       intros r ph' [Hl Hr]. split; [|done]. by destruct Hl as [->|[? _]]. }
  intros r ph' [-> Hr]. destruct r as [snap|e| |]; try done. cbn [proc_ok]. split; [unfold may_stop; by rewrite stop_action|].
  intros [e|u] _; unfold after_stop; rewrite stop_action.
  - by apply skip_missing_ok.
  - rewrite api_Type_of. destruct (api_State_resource rt id true snap class) as (H1 & H2 & H3 & H4).
    rewrite <- H1, <- H2. apply report_state_ok; [by apply H4|]. by rewrite H3.
Qed.

Lemma Stop_ok rt id snapshotBefore ph :
  open_phase ph -> pok (rt, id) (Stop unix_now (strategy_of rt) params id snapshotBefore) ph stop_result.
Proof.
  intros Ho. unfold Stop. apply pok_look; [apply describe_action|]. intros r ph' Ha Hl He.
  pose proof (looked_open _ _ Hl Ho) as Ho'. pose proof (open_closed _ Ho') as Hc.
  destruct r as [e|[|d l]]; [by apply skip_missing_ok|done|]. destruct (describe_answer _ _ _ _ Ha) as [Hid Hcl].
  destruct (db_Status d =? "available")%string eqn:E1.
  - assert (ph' = KnownUp) as ->.
    { subst ph'. unfold after_stop. rewrite describe_action, describe_described. apply String.eqb_eq in E1.
      destruct Ho as [->| ->]; [|done]. by rewrite decide_True. }
    by apply stop_available_ok.
  - destruct (db_Status d =? "stopped")%string.
    + rewrite api_Type_of. destruct (api_State_resource rt id false "" (db_Class d)) as (H1 & H2 & H3 & H4).
      rewrite <- H1, <- H2. apply report_state_ok; [by apply H4|]. by rewrite H3.
    + unfold transitional. cbn. by destruct (await_Enabled _).
Qed.

Lemma has_status_ok rt status id x ph :
  pok x (has_status (strategy_of rt) status id) ph (fun _ ph' => looked ph ph').
Proof.
  unfold has_status, then_ok. apply proc_ok_bind. apply pok_ask_as; [apply describe_action|].
  intros r ph' Hl. by destruct r as [[|d l]|e| |].
Qed.

Lemma poll_thread_ok rt status id x timeout ticks k ph :
  (forall r ph', looked ph ph' -> tok x (k r) ph') ->
  tok x (poll_thread (has_status (strategy_of rt) status id) timeout ticks k) ph.
Proof.
  revert ph. induction ticks as [|ticks IH]; intros ph Hk; cbn [poll_thread thread_ok];
    (eapply proc_ok_mono; [|apply has_status_ok]); intros r ph' Hl; destruct r as [[]|e| |]; try by apply Hk.
  cbn [thread_ok]. intros [d|]; [by apply Hk|]. apply IH. intros r ph2 Hl2. apply Hk. by eapply looked_trans.
Qed.

Lemma wait_status_ok rt status id timeout ticks x k ph :
  (forall r ph', looked ph ph' -> tok x (k r) ph') ->
  tok x (wait_status (strategy_of rt) status id timeout ticks k) ph.
Proof.
  intros Hk. unfold wait_status. destruct (NewWaiter _) as [w|e| |]; try by apply Hk, looked_refl.
  apply poll_thread_ok. intros r ph' Hl. by apply Hk.
Qed.

Lemma waiting_thread_ok status timeout ticks rt id x ph :
  closed_phase ph -> tok x (waiting_thread (fun s id t => wait_status s status id t) timeout ticks rt id) ph.
Proof.
  intros Hc. apply wait_status_ok. intros r ph' Hl. pose proof (looked_closed _ _ Hl Hc). by destruct r.
Qed.

Lemma pending_thread_ok snapshotBefore timeout ticks rt id ph :
  open_phase ph ->
  tok (rt, id) (pending_thread WaitForAvailable WaitForStopped
    (fun s id => Stop unix_now s params id snapshotBefore) timeout ticks rt id) ph.
Proof.
  intros Ho. apply wait_status_ok. intros r ph' Hl. pose proof (looked_open _ _ Hl Ho) as Ho'. pose proof (open_closed _ Ho') as Hc.
  destruct r as [u|e| |]; try done. cbn [thread_ok]. eapply proc_ok_mono; [|by apply Stop_ok].
  intros r2 ph2 H2. destruct r2 as [[]|e| |]; cbn in H2; try done.
  - subst ph2. cbn [thread_ok]. apply wait_status_ok. intros r3 ph3 Hl3. assert (closed_phase ph3) by (by eapply looked_closed).
    by destruct r3.
  - cbn. by apply open_closed.
Qed.
End keeps.

(** ** Discovery *)

Section looking.
Context {A : Type} (callback : option (ReportStateCallback A)) (c0 : RDSWorld) (a0 : A).

(** A part that only looks: the world is the same, and nothing is reported. *)
Definition looks (_ : unit -> unit) (c : RDSWorld) (a : A) : Prop := (forall x, rds_up c x = rds_up c0 x) /\ a = a0.
Definition may_look B (_ : unit) (q : RDSRequest B) (_ : unit) : Prop := rds_action q = None.
Notation lok := (proc_ok may_look (fun _ _ _ _ _ => ()) (fun _ _ _ _ => False) (fun _ _ _ _ => ()) rds_answer ()).

Lemma looks_ask B x (q : RDSRequest B) ph c a :
  looks ph c a -> may_look B x q (ph x) -> exists ph', looks ph' (serve q c).2 a /\ ph' x = () /\ moved x ph ph'.
Proof.
  intros [H1 H2] Hq. exists ph. split_and!; [split; [|done]|by destruct (ph x)|done].
  intros y. rewrite rds_serve_up. unfold may_look in Hq. by rewrite Hq.
Qed.

Lemma looks_run {X} (p : proc RDSRequest RDSApiError X) (post : X -> unit -> Prop) :
  lok p () post ->
  let '(x, (c, a)) := proc_run callback p c0 a0 in post x () /\ (forall y, rds_up c y = rds_up c0 y) /\ a = a0.
Proof.
  intros Hp. pose proof (proc_ok_run callback may_look (fun _ _ _ _ _ => ()) (fun _ _ _ _ => False) (fun _ _ _ _ => ())
    looks rds_answer rds_serve_answer looks_ask ltac:(done) () p (fun _ => ()) c0 a0 post) as H.
  destruct (proc_run _ _ _ _) as [x [c a]]. destruct H as (ph & [H1 H2] & H3 & _); [done..|]. by destruct (ph ()).
Qed.

Definition finds_distinct (r : res RDSError (list string)) (_ : unit) : Prop :=
  match r with Ok ids => NoDup ids | Err _ => True | _ => False end.

Lemma discover_by_tags_ok api found ids :
  NoDup (ids ++ map db_Identifier found) -> lok (discover_by_tags api (rds_Selector params) found ids) () finds_distinct.
Proof.
  revert ids. induction found as [|d found IH]; intros ids Hd; [by rewrite app_nil_r in Hd|]. cbn [map discover_by_tags] in *.
  assert (NoDup (ids ++ map db_Identifier found)) as Hd1.
  { eapply sublist_NoDup; [exact Hd|]. apply sublist_app; [done|]. by apply sublist_cons. }
  destruct (api_Skip api (db_Identifier d)); [by apply IH|]. cbn [then_ok ask_as proc_bind proc_ok]. split; [done|].
  intros [e|tags] _; cbn [proc_bind]; [done|]. apply IH. destruct (included_by_tags _ _); [|done]. by rewrite <- app_assoc.
Qed.

Lemma Discover_ok rt :
  NoDup (api_Ids (strategy_of rt) (rds_Selector params)) -> lok (Discover (strategy_of rt) (rds_Selector params)) () finds_distinct.
Proof.
  intros Hd. unfold Discover. case_bool_decide; [done|]. cbn [then_ok ask_as proc_bind proc_ok]. split; [apply describe_action|].
  intros [e|found] Ha; cbn [proc_bind]; [done|].
  assert (NoDup (map db_Identifier found)) by (by destruct rt).
  destruct (rs_IncludeAll _); [done|by apply discover_by_tags_ok].
Qed.
End looking.

(** ** Shutdown *)

Definition tracked_resource (t : tracked) : resource :=
  match t with TrackWaiting rt id => (rt, id) | TrackPending rt id _ => (rt, id) end.

(** The owners of the goroutines. *)
Definition type_owners (l : list tracked) (rt : ResourceType) : list resource :=
  map (fun p => (rt, p.1)) (getAllPending rt l) ++ map (pair rt) (getAllWaitingIDs rt l).
Definition owners (l : list tracked) : list resource := concat (map (type_owners l) [ResourceTypeInstance; ResourceTypeCluster]).

Lemma type_owners_cons t l rt :
  type_owners (t :: l) rt ≡ₚ if decide ((tracked_resource t).1 = rt) then tracked_resource t :: type_owners l rt else type_owners l rt.
Proof.
  unfold type_owners, getAllPending, getAllWaitingIDs. destruct t as [rt' id|rt' id b]; cbn; (case_decide; [subst rt'|done]); [|done].
  cbn. by rewrite <- Permutation_middle.
Qed.

Lemma owners_tracked l : owners l ≡ₚ map tracked_resource l.
Proof.
  unfold owners. cbn [map concat]. rewrite app_nil_r. induction l as [|t l IH]; [done|]. rewrite !type_owners_cons. cbn [map].
  rewrite <- IH. destruct (tracked_resource t) as [[] id]; cbn [fst].
  - by rewrite decide_True, decide_False by done.
  - rewrite decide_False, decide_True by done. symmetry. apply Permutation_middle.
Qed.

Section shut.
Context (unix_now : string -> Z) (sched : list sched_event) (clock : nat -> time) (c1 : RDSWorld).
Notation callback := (Some (acc_add clock)).
Notation SRun := (RdsRun Accumulator).

(** In the middle of a shutdown: the resources in [F] are still to come. *)
Definition shut_inv (F : resource -> Prop) (s : SRun) : Prop :=
  exists ph, stopping c1 ph (run_target s) (run_acc s) /\ (forall x, closed_phase (ph x)) /\
    (forall x, F x -> ph x = Untouched /\ x ∉ map tracked_resource (run_waiting s)) /\
    NoDup (map tracked_resource (run_waiting s)) /\
    (forall rt id b, TrackPending rt id b ∈ run_waiting s -> open_phase (ph (rt, id))).
Definition shut_done (s : SRun) : Prop := shut_post c1 (run_target s) (run_acc s).

Lemma shut_inv_done F s : shut_inv F s -> shut_done s.
Proof. intros (ph & H1 & H2 & _). by eapply stopping_post. Qed.

Lemma shut_inv_mono (F F' : resource -> Prop) s : (forall x, F' x -> F x) -> shut_inv F s -> shut_inv F' s.
Proof. intros HF (ph & H1 & H2 & H3 & H4). exists ph. split_and!; [done|done| |by destruct H4..]. intros x Hx. by apply H3, HF. Qed.

(** A resource is tracked, in a phase that fits. *)
Lemma shut_inv_track F ph s t :
  stopping c1 ph (run_target s) (run_acc s) -> (forall x, closed_phase (ph x)) ->
  (forall x, F x \/ x = tracked_resource t -> x ∉ map tracked_resource (run_waiting s)) ->
  ~ F (tracked_resource t) -> (forall x, F x -> ph x = Untouched) ->
  NoDup (map tracked_resource (run_waiting s)) ->
  (forall rt id b, TrackPending rt id b ∈ run_waiting s -> open_phase (ph (rt, id))) ->
  match t with TrackPending rt id _ => open_phase (ph (rt, id)) | _ => True end ->
  shut_inv F (set_run_waiting (run_waiting s ++ [t]) s).
Proof.
  intros H1 H2 H3 Hn HF Hd Hp Ht. exists ph. cbn. rewrite map_app. cbn [map]. split_and!; [done|done| | |].
  - intros x Hx. split; [by apply HF|]. rewrite elem_of_app, list_elem_of_singleton. intros [H| ->]; [|done].
    eapply H3; [by left|done].
  - apply NoDup_app. split_and!; [done| |apply NoDup_singleton]. intros x Hx ->%list_elem_of_singleton. eapply H3; [by right|done].
  - intros rt id b [H| <-%list_elem_of_singleton]%elem_of_app; [by eapply Hp|done].
Qed.

Lemma process_resource_ends F rt stats id :
  ~ F (rt, id) ->
  ends (shut_inv (fun x => F x \/ x = (rt, id))) (process_resource unix_now callback params rt stats id)
    (fun _ => shut_inv F) shut_done.
Proof.
  intros Hn s (ph & H1 & H2 & H3 & H4 & H5). unfold process_resource, st_bind, st_wrap, run_proc.
  pose proof (proc_ok_run callback may_stop after_stop may_tell after_tell (stopping c1) rds_answer rds_serve_answer
    (stopping_ask c1) (stopping_tell clock c1) (rt, id) _ ph (run_target s) (run_acc s) _ H1
    (Stop_ok unix_now rt id (rds_SnapshotBeforeStop params) _ (or_introl (proj1 (H3 (rt, id) (or_intror eq_refl)))))) as H.
  destruct (proc_run _ _ _ _) as [r [c' a']]. destruct H as (ph' & H1' & Hr & Hm). set (s' := set_run_acc a' (set_run_target c' s)).
  assert (forall x, closed_phase (ph' x)) as H2'.
  { intros x. destruct (decide (x = (rt, id))) as [->|Hx]; [|rewrite Hm; done].
    destruct r as [[]|e| |]; cbn in Hr; try done; [by rewrite Hr|by apply open_closed]. }
  assert (forall x, F x -> ph' x = Untouched) as HF.
  { intros x Hx. rewrite Hm by (by intros ->). by apply H3; left. }
  assert (forall x, F x \/ x = (rt, id) -> x ∉ map tracked_resource (run_waiting s')) as Hnot by (by intros x Hx; apply H3).
  assert (forall rt' id' b, TrackPending rt' id' b ∈ run_waiting s' -> open_phase (ph' (rt', id'))) as H5'.
  { intros rt' id' b Hin. rewrite Hm; [by eapply H5|]. intros He. apply (Hnot (rt, id)); [by right|]. rewrite <- He.
    by apply (list_elem_of_fmap_2 tracked_resource _ _ Hin). }
  destruct r as [o|e| |]; cbn [res_map_err]; [|by apply (shut_inv_done (fun _ => False)); exists ph'; split_and!|done|done].
  destruct o; cbn.
  - by apply (shut_inv_track F ph' s').
  - exists ph'. split_and!; try done. intros x Hx. split; [by apply HF|]. apply Hnot. by left.
  - by apply (shut_inv_track F ph' s').
Qed.

Lemma process_ids_ends F rt ids stats :
  NoDup ids -> (forall id, id ∈ ids -> ~ F (rt, id)) ->
  ends (shut_inv (fun x => F x \/ x.1 = rt /\ x.2 ∈ ids)) (process_ids unix_now callback params rt ids stats)
    (fun _ => shut_inv F) shut_done.
Proof.
  intros Hd HF. revert stats. induction ids as [|id ids IH]; intros stats.
  - apply ends_ret. intros s. apply shut_inv_mono. by left.
  - apply NoDup_cons in Hd as [Hid Hd]. cbn [process_ids].
    eapply (ends_bind (fun _ => shut_inv (fun x => F x \/ x.1 = rt /\ x.2 ∈ ids))).
    + eapply ends_conseq; [apply (process_resource_ends (fun x => F x \/ x.1 = rt /\ x.2 ∈ ids) rt stats id)| |done|done].
      * intros [H|[_ H] ]; [|done]. eapply HF; [by left|done].
      * intros s. apply shut_inv_mono. intros x [[H|[H1 H2]]| ->]; [by left| |].
        -- right. split; [done|by right].
        -- right. split; [done|by left].
    + intros st. apply IH; [done|]. intros id' H'. apply HF. by right.
Qed.

Lemma processResources_ends F rt stats :
  NoDup (api_Ids (strategy_of rt) (rds_Selector params)) -> (forall id, ~ F (rt, id)) ->
  ends (shut_inv (fun x => F x \/ x.1 = rt)) (processResources unix_now callback params rt stats) (fun _ => shut_inv F) shut_done.
Proof.
  intros Hd HF s Hs. unfold processResources, st_bind, st_wrap, run_proc.
  pose proof (looks_run callback (run_target s) (run_acc s) _ _ (Discover_ok rt Hd)) as H.
  destruct (proc_run _ _ _ _) as [r [c a]]. destruct H as (Hr & Hup & ->).
  assert (shut_inv (fun x => F x \/ x.1 = rt) (set_run_acc (run_acc s) (set_run_target c s))) as Hs'.
  { destruct Hs as (ph & [H1 H2 H3] & Hs). exists ph. split; [|done]. split; [done..|]. intros x. cbn. rewrite Hup. apply H3. }
  destruct r as [ids|e| |]; cbn [res_map_err]; [|by eapply shut_inv_done|done|done].
  eapply (ends_conseq _ _ (shut_inv (fun x => F x \/ x.1 = rt /\ x.2 ∈ ids)) _ (fun _ => shut_inv F) _ shut_done);
    [by apply process_ids_ends| |done|done|exact Hs'].
  intros s2. apply shut_inv_mono. tauto.
Qed.

(** The goroutines. *)
Lemma completion_threads_ok timeout ticks l ph rt :
  (forall x, closed_phase (ph x)) -> (forall rt id b, TrackPending rt id b ∈ l -> open_phase (ph (rt, id))) ->
  Forall2 (fun x t => thread_ok may_stop after_stop may_tell after_tell rds_answer closed_phase x t (ph x)) (type_owners l rt)
    (completion_threads WaitForAvailable WaitForStopped (fun s id b => Stop unix_now s params id b) timeout ticks l rt).
Proof.
  intros Hc Hp. unfold type_owners, completion_threads. apply Forall2_app; apply Forall2_fmap_2, Forall_Forall2_diag, Forall_forall.
  - intros [id b] Hin. apply pending_thread_ok. unfold getAllPending in Hin.
    apply list_elem_of_omap in Hin as ([|rt' id' b'] & Hin & He); [done|]. case_decide; [|done]. injection He as <- <-. subst rt'.
    by eapply Hp.
  - intros id _. apply wait_status_ok. intros r ph' Hl. pose proof (looked_closed _ _ Hl (Hc (rt, id))). by destruct r.
Qed.

Lemma handleShutdown_ends stats :
  ends (shut_inv (fun _ => False)) (handleShutdownAwaitCompletion unix_now sched callback params stats) (fun _ => shut_done) shut_done.
Proof.
  intros s (ph & H1 & H2 & _ & H4 & H5). unfold handleShutdownAwaitCompletion, await_completion.
  set (timeout := wait_timeout _ _). set (ticks := await_ticks _). set (sh := mkShared _ _ _ _).
  set (ts := concat _). cbn [run_target run_acc set_run_acc set_run_target].
  destruct (wait_all_ok callback may_stop after_stop may_tell after_tell (stopping c1) rds_answer rds_serve_answer
    (stopping_ask c1) (stopping_tell clock c1) closed_phase sched (owners (run_waiting s)) ts ph sh) as (ph' & Hs & Hf & Ho).
  - by rewrite owners_tracked.
  - unfold owners, ts, threads_ok. cbn [map concat]. apply Forall2_app; [|apply Forall2_app; [|done] ]; by apply completion_threads_ok.
  - done.
  - eapply stopping_post; [exact Hs|]. intros x. destruct (decide (x ∈ owners (run_waiting s))) as [Hx|Hx]; [by apply Hf|].
    by rewrite Ho.
Qed.

Hypothesis Hnodup : forall rt, NoDup (api_Ids (strategy_of rt) (rds_Selector params)).

Lemma rds_Shutdown_ends :
  ends (fun s => s = mkRun c1 [] NewAccumulator) (rds_Shutdown unix_now sched spec callback) (fun _ => shut_done) shut_done.
Proof.
  assert (shut_inv (fun _ => True) (mkRun c1 [] NewAccumulator)) as H0.
  { exists (fun _ => Untouched). split_and!; [apply stopping_start|done| |constructor|].
    - intros x _. split; [done|]. apply not_elem_of_nil.
    - intros rt id b H. by apply elem_of_nil in H. }
  assert (forall rt b (F G : resource -> Prop) stats, (forall id, ~ F (rt, id)) -> (forall x, F x \/ x.1 = rt -> G x) ->
    ends (shut_inv G) (if b : bool then processResources unix_now callback params rt stats else st_ret stats)
      (fun _ => shut_inv F) shut_done) as Hpart.
  { intros rt b F G stats HF HG. destruct b.
    - eapply ends_conseq; [by apply (processResources_ends F rt stats)| |done|done]. intros s. by apply shut_inv_mono.
    - apply ends_ret. intros s. apply shut_inv_mono. intros x Hx. apply HG. by left. }
  intros s ->. unfold rds_Shutdown. unfold rds_parseParams. rewrite Hparams. unfold st_bind at 1, st_ret at 1.
  unfold rds_loadAWSConfig. destruct (BuildAWSConfig _) as [cfg|]; cbn [st_bind st_ret st_throw].
  2: { by eapply shut_inv_done. }
  destruct (determineResourceTypes params) as [bi bc].
  match goal with |- match (let! x := ?m in @?k x) ?s with _ => _ end =>
    refine ((_ : ends (shut_inv (fun _ => True)) (st_bind m k) (fun _ => shut_done) shut_done) _ H0) end.
  eapply ends_bind; [apply (Hpart ResourceTypeInstance bi (fun x => x.1 = ResourceTypeCluster)); [by intros id [=]|done]|]. intros stats1.
  eapply ends_bind; [apply (Hpart ResourceTypeCluster bc (fun _ => False)); cbn; naive_solver|]. intros stats2.
  eapply (ends_bind (fun _ => shut_done)); [|intros msg; by apply ends_ret].
  destruct (await_Enabled _); [apply handleShutdown_ends|]. apply ends_ret. intros s. apply shut_inv_done.
Qed.
End shut.

(** ** Wakeup *)

Section wake.
Context (sched : list sched_event) (data : gmap string string) (c1 : RDSWorld).
Hypothesis Henc : encoded data.
Notation WRun := (RdsRun unit).

(** What was stopped may be started. *)
Definition startable (x : resource) : Prop :=
  exists st, holds data st /\ WasResourceRunning st = true /\ state_resource st = x.

Section healthy.
(** Whether the service is healthy. *)
Context (H : Prop).

(** In the middle of a wakeup: the resources in [K] have been started. *)
Record waking (K : resource -> Prop) (c : RDSWorld) : Prop := {
  wk_post : wake_post data c1 c;
  wk_healthy : H -> rds_healthy c;
  wk_up x : K x -> rds_up c x = Some true;
}.

Definition may_start B (_ : nat) (q : RDSRequest B) (_ : unit) : Prop :=
  match rds_action q with None => True | Some (x, up) => up = true /\ startable x end.

Lemma waking_serve K B (q : RDSRequest B) c : waking K c -> may_start B 0 q () -> waking K (serve q c).2.
Proof.
  intros [Hp Hh Hu] Hq. destruct Hp as [H1 H2 H3]. unfold may_start in Hq. split.
  - split; [done|done|]. intros x. cbn. rewrite rds_serve_up. destruct (rds_action q) as [[y up]|]; [|apply H3].
    destruct Hq as [-> (st & Hst & Hr & <-)]. destruct (serve q c).1; [apply H3|]. case_decide as Hx; [subst x|apply H3].
    cbn in H3. destruct (H3 (state_resource st)) as [He|(st' & Hst' & Hr' & Hid & He)]; rewrite He.
    + destruct (rds_up c1 (state_resource st)) eqn:E; [right|by left]. exists st. cbn. by rewrite Hr.
    + right. exists st'. cbn. cbn in Hr'. by rewrite Hr'.
  - intros Hh'. apply rds_healthy_serve; [|by apply Hh]. intros x Hx. rewrite Hx in Hq. by destruct Hq.
  - intros x Hx. rewrite rds_serve_up. destruct (rds_action q) as [[y up]|]; [|by apply Hu].
    destruct Hq as [-> _]. destruct (serve q c).1; [by apply Hu|]. case_decide; [by rewrite (Hu x Hx)|by apply Hu].
Qed.

Notation WInv K := (fun (_ : nat -> unit) c (_ : unit) => waking K c).

Lemma waking_ask K B i (q : RDSRequest B) ph c (a : unit) :
  waking K c -> may_start B i q (ph i) -> exists ph' : nat -> unit, waking K (serve q c).2 /\ ph' i = () /\ moved i ph ph'.
Proof. intros Hw Hq. exists ph. split_and!; [by apply waking_serve|by destruct (ph i)|done]. Qed.

Notation sok := (proc_ok may_start (fun _ _ _ _ _ => ()) (fun _ _ _ _ => False) (fun _ _ _ _ => ()) rds_answer 0%nat).
Notation swok := (thread_ok (C:=awaited) may_start (fun _ _ _ _ _ => ()) (fun _ _ _ _ => False) (fun _ _ _ _ => ()) rds_answer (fun _ => True)).

Lemma look_start B i (q : RDSRequest B) ph : rds_action q = None -> may_start B i q ph.
Proof. intros Hq. unfold may_start. by rewrite Hq. Qed.

Lemma Start_ok i rt id :
  startable (rt, id) ->
  proc_ok may_start (fun _ _ _ _ _ => ()) (fun _ _ _ _ => False) (fun _ _ _ _ => ()) rds_answer i
    (Start (strategy_of rt) params id) () (fun r _ => completed r).
Proof.
  intros Hs. unfold Start. split; [apply look_start, describe_action|]. intros [e|[|d l]] _; [|done|].
  - unfold skip_missing. cbn. by destruct (api_NotFound _ e).
  - destruct (_ =? _)%string; [done|]. destruct (negb _); [done|]. split.
    + unfold may_start. by rewrite start_action.
    + intros [e|u] _; [|done]. unfold skip_missing. cbn. by destruct (api_NotFound _ e).
Qed.

Lemma wait_status_starts i rt status id timeout ticks k :
  (forall r, swok i (k r) ()) -> swok i (wait_status (strategy_of rt) status id timeout ticks k) ().
Proof.
  intros Hk. unfold wait_status. destruct (NewWaiter _) as [w|e| |]; try apply Hk.
  induction ticks as [|ticks IH]; cbn [poll_thread thread_ok has_status then_ok ask_as proc_bind proc_ok];
    (split; [apply look_start, describe_action|]); intros [e|[|d l]] _; cbn [proc_bind proc_ok]; try apply Hk.
  - destruct (_ =? _)%string; apply Hk.
  - destruct (_ =? _)%string; [apply Hk|]. cbn [thread_ok]. intros [b|]; [apply Hk|apply IH].
Qed.

Lemma wakeup_threads_ok timeout ticks l rt i t :
  (forall rt id b, TrackPending rt id b ∈ l -> startable (rt, id)) ->
  t ∈ completion_threads WaitForStopped WaitForAvailable (fun s id _ => Start s params id) timeout ticks l rt ->
  swok i t ().
Proof.
  intros Hp Ht. unfold completion_threads in Ht. apply elem_of_app in Ht as [Ht|Ht].
  - apply list_elem_of_fmap in Ht as ([id b] & -> & Hin). apply wait_status_starts. intros [u|e| |]; try done. cbn [thread_ok].
    eapply proc_ok_mono; [|apply Start_ok].
    + intros [[]|e| |] [] Hr; try done. cbn [thread_ok]. apply wait_status_starts. by intros [].
    + unfold getAllPending in Hin. apply list_elem_of_omap in Hin as ([|rt' id' b'] & Hin & He); [done|]. case_decide; [|done].
      injection He as <- <-. subst rt'. by eapply Hp.
  - apply list_elem_of_fmap in Ht as (id & -> & _). apply wait_status_starts. by intros [].
Qed.

Lemma handleWakeup_run K stats (s : WRun) :
  waking K (run_target s) -> (forall rt id b, TrackPending rt id b ∈ run_waiting s -> startable (rt, id)) ->
  exists msg s', handleWakeupAwaitCompletion sched params stats s = (Ok msg, s') /\ waking K (run_target s').
Proof.
  intros Hw Hp. unfold handleWakeupAwaitCompletion, await_completion. eexists _, _. split; [reflexivity|].
  cbn [run_target set_run_acc set_run_target]. set (ts := concat _). set (sh := mkShared _ _ _ _).
  destruct (wait_all_ok None may_start (fun _ _ _ _ _ => ()) (fun _ _ _ _ => False) (fun _ _ _ _ => ()) (WInv K) rds_answer rds_serve_answer
    (waking_ask K) ltac:(done) (fun _ => True) sched (seq 0 (length ts)) ts (fun _ => ()) sh) as (ph & Hi & _).
  - apply NoDup_seq.
  - unfold threads_ok. apply Forall2_same_length_lookup. split; [by rewrite length_seq|]. intros i j t _ Ht.
    apply list_elem_of_lookup_2 in Ht. unfold ts in Ht. cbn [map concat] in Ht. rewrite app_nil_r in Ht.
    apply elem_of_app in Ht as [Ht|Ht]; by eapply wakeup_threads_ok.
  - done.
  - exact Hi.
Qed.

(** In a healthy world a start succeeds. *)
Lemma Start_healthy rt id c (a : unit) :
  rds_healthy c -> is_Some (rds_up c (rt, id)) ->
  let '(r, (c', _)) := proc_run None (Start (strategy_of rt) params id) c a in
  (exists o, r = Ok o) /\ rds_up c' (rt, id) = Some true.
Proof.
  intros Hh [up Hup]. unfold Start. cbn [proc_run]. destruct (rds_healthy_describe rt id c Hh) as (d & l & Hd & Hs); [by rewrite Hup|].
  pose proof (rds_serve_described _ (api_Describe (strategy_of rt) (Some id)) c (rt, id) d) as Hst.
  rewrite Hd, describe_described in Hst. specialize (Hst eq_refl). destruct Hst as [Ha Hb].
  pose proof (rds_serve_up _ (api_Describe (strategy_of rt) (Some id)) c (rt, id)) as Hu. rewrite describe_action in Hu.
  rewrite Hd. destruct (db_Status d =? "available")%string eqn:E1.
  - cbn. split; [by eexists|]. rewrite Hu. apply Ha. by apply String.eqb_eq.
  - destruct up.
    + assert (db_Status d =? "stopped" = false)%string as ->.
      { destruct (db_Status d =? "stopped")%string eqn:E2; [|done]. apply String.eqb_eq in E2. by rewrite Hb in Hup. }
      cbn. split; [by eexists|]. by rewrite Hu.
    + rewrite (Hs Hup). cbn [negb String.eqb Ascii.eqb Bool.eqb proc_run]. set (c2 := (serve _ c).2) in *.
      assert (rds_healthy c2) as Hh2 by (apply rds_healthy_serve; [by rewrite describe_action|done]).
      pose proof (rds_healthy_start rt id c2 Hh2) as Hok. rewrite Hu, Hup in Hok. specialize (Hok ltac:(by eexists)).
      pose proof (rds_serve_up _ (api_Start (strategy_of rt) id) c2 (rt, id)) as Hu2. rewrite start_action, Hok, decide_True in Hu2 by done.
      rewrite Hok. cbn. split; [by eexists|]. by rewrite Hu2, Hu, Hup.
Qed.

(** The resources of the records of [keys]. *)
Definition started (keys : list string) (x : resource) : Prop :=
  exists st, holds data st /\ WasResourceRunning st = true /\ state_key st ∈ keys /\ state_resource st = x.

Definition tracks_startable (s : WRun) : Prop := forall rt id b, TrackPending rt id b ∈ run_waiting s -> startable (rt, id).
Hypothesis Hfit : H -> fitting data c1.

Lemma waking_exists K c st : H -> waking K c -> holds data st -> WasResourceRunning st = true -> is_Some (rds_up c (state_resource st)).
Proof.
  intros Hh [Hp _ _] Hst Hr. destruct (wp_changes _ _ _ Hp (state_resource st)) as [He|(st' & _ & _ & _ & He)]; cbn in He; rewrite He; [|by eexists].
  destruct (fit_value _ _ (Hfit Hh) st Hst Hr) as [Hv|Hv]; cbn in Hv; rewrite Hv; by eexists.
Qed.

Lemma count_rds_outcome_run rt id b o stats (s : WRun) :
  exists stats' l, count_rds_outcome rt id b o stats s = (Ok stats', set_run_waiting (run_waiting s ++ l) s) /\
    forall rt' id' b', TrackPending rt' id' b' ∈ l -> (rt', id') = (rt, id).
Proof.
  destruct o; cbn; eexists _; [exists [TrackWaiting rt id]|exists []|exists [TrackPending rt id b]].
  - split; [done|]. by intros ? ? ? ?%list_elem_of_singleton.
  - rewrite app_nil_r. split; [by destruct s|]. by intros ? ? ? ?%elem_of_nil.
  - split; [done|]. by intros ? ? ? [= -> -> ->]%list_elem_of_singleton.
Qed.

Lemma restoreResource_run keys key text stats (s : WRun) :
  data !! key = Some text -> waking (started keys) (run_target s) -> tracks_startable s ->
  let '(r, s') := restoreResource params key text stats s in
  completed r /\ waking (started keys) (run_target s') /\ tracks_startable s' /\
  (H -> (exists a, r = Ok a) /\ waking (started (key :: keys)) (run_target s')).
Proof.
  intros Hk Hw Ht. destruct (Henc key text Hk) as (st & -> & -> & Hwf).
  change (data !! state_key st = Some (object_text (state_fields st))) in Hk.
  assert (holds data st) as Hst by done. unfold restoreResource. change (st_key st) with (GetResourceKey (state_type st) (state_id st)).
  rewrite parse_key_GetResourceKey. change (st_fields st) with (state_fields st). rewrite ParseState_fields by done.
  assert (forall st', holds data st' -> state_key st' = state_key st -> st' = st) as Huniq.
  { intros st' [Hk' Hwf'] Hkey. cbn in Hk'. rewrite Hkey, Hk in Hk'. injection Hk' as Hf.
    assert (state_type st' = state_type st) as Hty by (unfold state_key in Hkey; apply GetResourceKey_inj in Hkey; congruence).
    pose proof (ParseState_fields st' Hwf') as Hp. rewrite Hty, <- Hf, ParseState_fields in Hp by done. congruence. }
  assert (forall c, waking (started keys) c -> (WasResourceRunning st = true -> rds_up c (state_resource st) = Some true) ->
    waking (started (GetResourceKey (state_type st) (state_id st) :: keys)) c) as Hnew.
  { intros c [H1 H2 H3] Hup. split; [done..|]. intros x (st' & Hst' & Hr & [Hkey|Hin]%elem_of_cons & <-); [|apply H3; by exists st'].
    pose proof (Huniq st' Hst' Hkey) as He. subst st'. by apply Hup. }
  destruct (WasResourceRunning st) eqn:Er; cbn [negb].
  2: { cbn. split_and!; [done..|]. intros _. split; [by eexists|]. by apply Hnew. }
  unfold st_bind, st_wrap, run_proc. assert (startable (state_type st, state_id st)) as Hs by (by exists st).
  pose proof (proc_ok_run None may_start (fun _ _ _ _ _ => ()) (fun _ _ _ _ => False) (fun _ _ _ _ => ()) (WInv (started keys)) rds_answer rds_serve_answer
    (waking_ask (started keys)) ltac:(done) 0%nat _ (fun _ => ()) (run_target s) (run_acc s) _ Hw (Start_ok 0 _ _ Hs)) as Hrun.
  assert (H -> let '(r, (c', _)) := proc_run None (Start (strategy_of (state_type st)) params (state_id st)) (run_target s) (run_acc s) in
    (exists o, r = Ok o) /\ rds_up c' (state_type st, state_id st) = Some true) as Hgood.
  { intros Hh. apply Start_healthy; [by apply (wk_healthy _ _ Hw)|]. by apply (waking_exists _ _ st Hh Hw). }
  destruct (proc_run _ _ _ _) as [r [c a]]. destruct Hrun as (_ & Hw' & Hr & _).
  destruct r as [o|e| |]; cbn [res_map_err]; [|by split_and!; [done..|]; intros Hh; destruct (Hgood Hh) as [[o ?] _]|done|done].
  destruct (count_rds_outcome_run (state_type st) (state_id st) false o stats (set_run_acc a (set_run_target c s))) as (stats' & l & -> & Hl).
  cbn [run_target set_run_waiting set_run_acc set_run_target]. split_and!; [done|done| |].
  - intros rt id b [Hin|Hin]%elem_of_app; [by eapply Ht|]. by rewrite (Hl _ _ _ Hin).
  - intros Hh. split; [by eexists|]. apply Hnew; [done|]. intros _. by apply Hgood.
Qed.

Lemma wake_entries_run keys0 keys stats (s : WRun) :
  waking (started keys0) (run_target s) -> tracks_startable s ->
  let '(r, s') := wake_entries (restoreResource params) data keys stats s in
  completed r /\ waking (started keys0) (run_target s') /\ tracks_startable s' /\
  (H -> (exists a, r = Ok a) /\ waking (started (keys ++ keys0)) (run_target s')).
Proof.
  revert keys0 stats s. induction keys as [|key keys IH]; intros keys0 stats s Hw Ht; cbn [wake_entries].
  { cbn. split_and!; [done..|]. intros _. split; [by eexists|done]. }
  destruct (data !! key) as [text|] eqn:Ek.
  - unfold st_bind. pose proof (restoreResource_run keys0 key text stats s Ek Hw Ht) as Hr.
    destruct (restoreResource _ _ _ _ _) as [r s1]. destruct Hr as (Hc & Hw1 & Ht1 & Hg).
    destruct r as [st|e| |]; [|by split_and!; [done..|]; intros Hh; destruct (Hg Hh) as [[a ?] _]|done|done].
    pose proof (IH keys0 st s1 Hw1 Ht1) as Hr. pose proof (fun Hh => IH (key :: keys0) st s1 (proj2 (Hg Hh)) Ht1) as Hr2.
    destruct (wake_entries _ _ _ _ _) as [r s2]. destruct Hr as (Hc2 & Hw2 & Ht2 & _). split_and!; [done..|].
    intros Hh. destruct (Hr2 Hh) as (_ & _ & _ & Hgood). destruct (Hgood Hh) as [Ha Hw3]. split; [done|].
    destruct Hw3 as [G1 G2 G3]. split; [done..|]. intros x (st' & H1 & H2 & H3 & H4). apply G3. exists st'.
    split_and!; [done..| |done]. by rewrite <- Permutation_middle in *.
  - pose proof (IH keys0 stats s Hw Ht) as Hr. destruct (wake_entries _ _ _ _ _) as [r s1]. destruct Hr as (Hc & Hw1 & Ht1 & Hg).
    split_and!; [done..|]. intros Hh. destruct (Hg Hh) as [Ha [G1 G2 G3]]. split; [done|]. split; [done..|].
    intros x (st & Hst & Hr & [Hkey|Hin]%elem_of_cons & Hx); [|apply G3; by exists st].
    destruct Hst as [Hk _]. cbn in Hk. by rewrite Hkey, Ek in Hk.
Qed.

Lemma rds_WakeUp_run t live :
  rds_healthy c1 \/ ~ H -> (H -> is_Some (BuildAWSConfig (cc_AWS (es_ConnectorConfig spec)))) ->
  let '(r, s') := rds_WakeUp sched spec (mkRestoreData t data live) (mkRun c1 [] tt) in
  completed r /\ wake_post data c1 (run_target s') /\
  (H -> rds_healthy (run_target s') /\ (exists a, r = Ok a) /\
     forall st, holds data st -> WasResourceRunning st = true -> rds_up (run_target s') (state_resource st) = Some true).
Proof.
  intros Hh Hcfg. pose proof (wake_post_start (HH:=rds_hibernation) data c1 I) as H0. unfold rds_WakeUp. cbn [rd_Data].
  case_bool_decide as He.
  { cbn. split_and!; [done..|]. intros HH. split_and!; [by destruct Hh|by eexists|]. intros st [Hk _]. by rewrite He, lookup_empty in Hk. }
  unfold rds_parseParams. rewrite Hparams. unfold st_bind at 1, st_ret at 1.
  unfold rds_loadAWSConfig. destruct (BuildAWSConfig _) as [cfg|]; cbn [st_ret st_throw].
  2: { unfold st_bind at 1. cbn. split_and!; [done..|]. intros HH. by destruct (Hcfg HH). }
  unfold st_bind at 1. cbn [st_ret].
  assert (waking (started []) c1) as Hw.
  { split; [done| |]; [intros HH; by destruct Hh|]. intros x (st & _ & _ & Hin & _). by apply elem_of_nil in Hin. }
  pose proof (wake_entries_run [] (restore_order data) (rds_processed (Z.of_nat (size data))) (mkRun c1 [] tt) Hw) as Hr.
  unfold st_bind. destruct (wake_entries _ _ _ _ _) as [r s1].
  destruct Hr as (Hc & Hw1 & Ht1 & Hg); [by intros rt id b Hin%elem_of_nil|].
  destruct r as [stats|e| |]; [|by split_and!; [done|apply Hw1|]; intros HH; destruct (Hg HH) as [[a ?] _]|done|done].
  assert (forall K s2, waking K (run_target s2) -> waking (started []) (run_target (s2 : WRun))) as Hdrop.
  { intros K s2 [G1 G2 _]. split; [done..|]. intros x (st & _ & _ & Hin & _). by apply elem_of_nil in Hin. }
  cbn beta iota. match goal with |- context [match ?m s1 with _ => _ end] => set (say := m) end.
  assert (forall K, waking K (run_target s1) -> exists msg s2, say s1 = (Ok msg, s2) /\ waking K (run_target s2)) as Hmsg.
  { intros K HK. unfold say. destruct (await_Enabled _); [by apply handleWakeup_run|]. by eexists _, _. }
  destruct (Hmsg _ Hw1) as (msg & s2 & Hrun & Hw2). rewrite Hrun. cbn. split_and!; [done|apply Hw2|].
  intros HH. destruct (Hg HH) as [_ Hw3]. destruct (Hmsg _ Hw3) as (msg' & s2' & Hrun' & Hw4). rewrite Hrun in Hrun'. injection Hrun' as <- <-.
  split_and!; [by apply (wk_healthy _ _ Hw4)|by eexists|]. intros st Hst Hr. apply (wk_up _ _ Hw4). exists st. split_and!; [done..| |done].
  rewrite app_nil_r. destruct Hst as [Hk _]. by eapply elem_of_restore_order.
Qed.
End healthy.
End wake.
End instance.

Local Arguments rds_Shutdown : simpl never.
Local Arguments rds_WakeUp : simpl never.

(** No resource is named twice. *)
Definition named_once (params : RDSParameters) : Prop :=
  forall rt, NoDup (api_Ids (strategy_of rt) (rds_Selector params)).

Lemma rds_hibernates `{HS : RDSClients} `{HSO : !RDSObservers} `{HL : !RDSLaws} `{HT : JSONText} `{HTL : !JSONTextLaws}
  `{HP : ParamsJSON} `{HM : MapOrder} spec params :
  decode_params zero_RDSParameters parse_rds_params (es_Parameters spec) = Some params -> named_once params ->
  HibernationLaws (HH := rds_hibernation spec) rds_executor spec.
Proof.
  intros Hparams Hn. split.
  - intros c k [rt id] [rt' id'] _ -> H. by apply GetResourceKey_inj.
  - by intros c k k' [rt id] _ -> ->.
  - intros st st' Hwf Hwf' Hk He. cbn in *.
    assert (state_type st' = state_type st) as Hty by (apply GetResourceKey_inj in Hk; congruence).
    pose proof (ParseState_fields st Hwf) as H1. rewrite <- Hty, He, ParseState_fields in H1 by done. congruence.
  - intros st Hwf. by apply state_fields_canonical.
  - intros st. cbn -[demanded]. by rewrite state_demanded.
  - intros st st' _ _ _ [= He]. cbn. by rewrite <- He.
  - intros st st' _ _ Hsc Hd. cbn -[demanded] in Hsc, Hd. by rewrite state_demanded, Hsc in Hd.
  - intros o clock c _. cbn.
    pose proof (rds_Shutdown_ends spec params Hparams (or_unix_now o) (or_sched o) clock c Hn _ eq_refl) as H.
    destruct (rds_Shutdown _ _ _ _ _) as [[a|e| |] s]; by split.
  - intros o t data live c _ Henc. cbn.
    pose proof (rds_WakeUp_run spec params Hparams (or_sched o) data c Henc False ltac:(done) t live (or_intror (fun f => f)) ltac:(done)) as H.
    destruct (rds_WakeUp _ _ _ _) as [r s]. destruct H as (Hc & Hw & _). split; [by intros ->|done].
  - intros o t data live c _ Hh Hfit. cbn.
    pose proof (rds_WakeUp_run spec params Hparams (or_sched o) data c (fit_encoded _ _ Hfit) True ltac:(done) t live
      (or_introl (proj1 Hh)) (fun _ => proj2 Hh)) as H.
    destruct (rds_WakeUp _ _ _ _) as [r s]. destruct H as (_ & _ & H). destruct (H I) as (_ & [a ->] & H3).
    split_and!; [|done|by eexists]. intros st Hst Hr. cbn. cbn in Hr. by rewrite (H3 st Hst Hr), Hr.
Qed.

(** C7: after the runs of a cycle, a wakeup while RDS answers brings up every
    instance and every cluster that was up before the cycle, and no other, and
    succeeds; this holds in every interleaving of the goroutines that completed the
    runs, and whether or not the wakeup awaits its completion. The runs of the cycle
    are shutdowns and wakeups, one after another, in any order, the first of them a
    shutdown; nothing else changes the resources or the restore data meanwhile.
    Requests to RDS may fail anywhere in the runs, but those that fail have changed
    nothing; requests to the hub, where the restore data are kept, do not fail, and
    the report of every shutdown is saved. Restore data that the cycle finds are of
    an earlier cycle. No resource is named twice, the AWS configuration is valid,
    and when the last wakeup begins the service answers and what is down has reached
    the status stopped: a resource that is still stopping is skipped
    ([stopping_is_skipped]). *)
Theorem rds_wakeup_restores `{HK : KubeApi} `{HKL : !KubeLaws} `{HJ : JSON} `{HJL : !JSONLaws}
  `{HS : RDSClients} `{HSO : !RDSObservers} `{HL : !RDSLaws} `{HT : JSONText} `{HTL : !JSONTextLaws}
  `{HP : ParamsJSON} `{HM : MapOrder} cfg spec params s0 s existing o clk r s' :
  decode_params zero_RDSParameters parse_rds_params (es_Parameters spec) = Some params -> named_once params ->
  no_faults (rs_hub s0) ->
  loaded (rs_hub s0) (cfg_Namespace cfg) (cfg_Plan cfg) (cfg_Target cfg) = Ok existing ->
  (forall d, existing = Some d -> data_CycleID d <> cfg_CycleID cfg /\
     forall k, 0 <= StaleCount (status_of (data_Status d) k)) ->
  cycle_runs rds_executor cfg spec s0 s ->
  rds_healthy (rs_target s) -> is_Some (BuildAWSConfig (cc_AWS (es_ConnectorConfig spec))) ->
  executeOperation (rds_executor o) (set_operation "wakeup" cfg) clk spec s = (r, s') ->
  (forall x, rds_up (rs_target s') x = rds_up (rs_target s0) x) /\ exists result, r = Ok result.
Proof.
  intros Hp Hn Hf Hl Hex Hruns Hh Hc Hrun.
  destruct (cycle_restores rds_executor cfg spec (HH := rds_hibernation spec)
    (HL := rds_hibernates spec params Hp Hn) s0 s existing o clk r s' I Hf Hl Hex Hruns (conj Hh Hc) Hrun) as (H1 & _ & H3).
  split; [exact H1|by apply H3].
Qed.


(** ** Databases in memory, and runs on them *)

From S2P Require Import Memory ExecutorSamples.

(** ** The service *)

(** Of each resource, by its key: whether it is up, and how many descriptions it
    takes until it has settled. *)
Notation Fleet := (gmap string (bool * nat)).
Notation key_of x := (GetResourceKey x.1 x.2).

(** The identifiers in the account. *)
Definition db_names (rt : ResourceType) : list string :=
  match rt with ResourceTypeInstance => ["db-1"; "db-2"; "aws-restore-7"] | ResourceTypeCluster => ["aurora"] end.

Definition db_tags (arn : string) : list (string * string) :=
  if (arn =? "db-2")%string then [("env", "prod")] else [("env", "dev")].

Definition db_status (s : bool * nat) : string :=
  match s with
  | (true, O) => "available" | (true, S _) => "starting" | (false, O) => "stopped" | (false, S _) => "stopping"
  end.

Definition fleet_at (w : Fleet) (x : resource) : option (bool * nat) := if is_ascii x.2 then w !! key_of x else None.
Definition fleet_up (w : Fleet) (x : resource) : option bool := fst <$> fleet_at w x.

Definition db_missing (rt : ResourceType) : RDSApiError :=
  match rt with ResourceTypeInstance => DBInstanceNotFound | ResourceTypeCluster => DBClusterNotFoundFault end.

Definition describe_one (rt : ResourceType) (id : string) (w : Fleet) : (RDSApiError + list DBResource) * Fleet :=
  match fleet_at w (rt, id) with
  | None => (inl (db_missing rt), w)
  | Some s => (inr [mkDBResource id id (db_status s) "db.t3"], <[GetResourceKey rt id := (s.1, Nat.pred s.2)]> w)
  end.

Definition describe_all (rt : ResourceType) (w : Fleet) : (RDSApiError + list DBResource) * Fleet :=
  (inr (map (fun id => mkDBResource id id (from_option db_status "gone"%string (fleet_at w (rt, id))) "db.t3") (db_names rt)), w).

Definition turn (rt : ResourceType) (id : string) (up : bool) (w : Fleet) : (RDSApiError + unit) * Fleet :=
  match fleet_at w (rt, id) with
  | None => (inl (db_missing rt), w)
  | Some _ => (inr tt, <[GetResourceKey rt id := (up, 2%nat)]> w)
  end.

Definition answer_rds {B} (q : RDSRequest B) (w : Fleet) : (RDSApiError + B) * Fleet :=
  match q in RDSRequest B return (RDSApiError + B) * Fleet with
  | DescribeDBInstances (Some id) => describe_one ResourceTypeInstance id w
  | DescribeDBInstances None => describe_all ResourceTypeInstance w
  | DescribeDBClusters (Some id) => describe_one ResourceTypeCluster id w
  | DescribeDBClusters None => describe_all ResourceTypeCluster w
  | ListTagsForResource arn => (inr (db_tags arn), w)
  | CreateDBSnapshot _ _ => (inr tt, w)
  | DBSnapshotAvailable _ => (inr tt, w)
  | CreateDBClusterSnapshot _ _ => (inr tt, w)
  | DBClusterSnapshotAvailable _ => (inr tt, w)
  | StopDBInstance id => turn ResourceTypeInstance id false w
  | StopDBCluster id => turn ResourceTypeCluster id false w
  | StartDBInstance id => turn ResourceTypeInstance id true w
  | StartDBCluster id => turn ResourceTypeCluster id true w
  end.

Definition serve_rds {B} (q : RDSRequest B) := serve_faulty (@answer_rds) q.

#[export] Instance fleet_clients : RDSClients := {|
  rds_service := {| World := Faulty RDSApiError Fleet; serve B q := serve_rds q |};
  rds_loader := default_loader;
  rds_error_text e := match e with RErrPoll (ErrCheckFailed _) => "check failed" | RErrPoll _ => "timeout" | _ => "error" end;
|}.

Definition settled (w : Fleet) : Prop := forall x n, fleet_at w x = Some (false, n) -> n = O.

#[export] Instance fleet_observers : RDSObservers := {|
  rds_up w := fleet_up (fy_world w);
  rds_healthy w := fy_faults w = [] /\ settled (fy_world w);
|}.

Lemma fleet_at_insert w x y s :
  is_ascii y.2 = true -> fleet_at (<[key_of y := s]> w) x = if decide (x = y) then Some s else fleet_at w x.
Proof.
  intros Hy. unfold fleet_at. case_decide as Hx; [subst x; by rewrite Hy, lookup_insert_eq|].
  destruct (is_ascii x.2); [|done]. rewrite lookup_insert_ne; [done|]. intros Hk%GetResourceKey_inj. apply Hx. by destruct x, y.
Qed.

Lemma fleet_at_ascii w x s : fleet_at w x = Some s -> is_ascii x.2 = true.
Proof. unfold fleet_at. by destruct (is_ascii x.2). Qed.

(** A description changes nothing but the time that is left. *)
Lemma describe_one_at rt id w x :
  fleet_at (describe_one rt id w).2 x =
    if decide (x = (rt, id)) then (fun s => (s.1, Nat.pred s.2)) <$> fleet_at w x else fleet_at w x.
Proof.
  unfold describe_one. destruct (fleet_at w (rt, id)) as [s|] eqn:E; cbn.
  - rewrite (fleet_at_insert w x (rt, id)) by (by apply (fleet_at_ascii w (rt, id) s)). case_decide as Hx; [subst x; by rewrite E|done].
  - case_decide as Hx; [subst x; by rewrite E|done].
Qed.

Lemma turn_at rt id up w x :
  fleet_at (turn rt id up w).2 x =
    if decide (x = (rt, id)) then (fun _ => (up, 2%nat)) <$> fleet_at w x else fleet_at w x.
Proof.
  unfold turn. destruct (fleet_at w (rt, id)) as [s|] eqn:E; cbn.
  - rewrite (fleet_at_insert w x (rt, id)) by (by apply (fleet_at_ascii w (rt, id) s)). case_decide as Hx; [subst x; by rewrite E|done].
  - case_decide as Hx; [subst x; by rewrite E|done].
Qed.

(** ** The laws *)

Lemma answer_rds_answer B (q : RDSRequest B) w : rds_answer B q (answer_rds q w).1.
Proof.
  assert (forall rt, NoDup (db_names rt)) as Hn by (intros []; by apply (bool_decide_unpack (NoDup _)); vm_compute).
  destruct q as [[id|]|[id|]| | | | | | | | |]; cbn -[describe_one describe_all turn]; try done.
  all: try (apply (Hn ResourceTypeInstance)); try (apply (Hn ResourceTypeCluster)).
  all: unfold describe_one; match goal with |- context [fleet_at ?v ?y] => destruct (fleet_at v y) as [s|] eqn:E; [|done] end;
    by apply fleet_at_ascii in E.
Qed.

Lemma answer_rds_described B (q : RDSRequest B) w x d :
  described q (answer_rds q w).1 = Some (x, d) -> up_as_described (fleet_up w x) d.
Proof.
  assert (forall rt id y, match (describe_one rt id w).1 with inr (d' :: _) => Some ((rt, id), d') | _ => None end = Some (y, d) ->
    up_as_described (fleet_up w y) d) as H.
  { intros rt id y. unfold describe_one, fleet_up. destruct (fleet_at w (rt, id)) as [s|] eqn:E; [|done]. cbn.
    intros [= <- <-]. rewrite E. by destruct s as [[] []]; split. }
  destruct q as [[id|]|[id|]| | | | | | | | |]; cbn -[describe_one describe_all turn]; try done; apply H.
Qed.

Lemma answer_rds_up B (q : RDSRequest B) w x :
  fleet_up (answer_rds q w).2 x =
    match rds_action q, (answer_rds q w).1 with
    | Some (y, up), inr _ => if decide (x = y) then (fun _ => up) <$> fleet_up w x else fleet_up w x
    | _, _ => fleet_up w x
    end.
Proof.
  assert (forall rt id, fleet_up (describe_one rt id w).2 x = fleet_up w x) as Hd.
  { intros rt id. unfold fleet_up. rewrite describe_one_at. case_decide; [|done]. by destruct (fleet_at w x) as [[]|]. }
  assert (forall rt id up, fleet_up (turn rt id up w).2 x =
    match (turn rt id up w).1 with inr _ => if decide (x = (rt, id)) then (fun _ => up) <$> fleet_up w x else fleet_up w x | inl _ => fleet_up w x end) as Ht.
  { intros rt id up. unfold fleet_up. rewrite turn_at. unfold turn. destruct (fleet_at w (rt, id)) as [s|] eqn:E; cbn.
    - case_decide; [|done]. by destruct (fleet_at w x).
    - case_decide as Hx; [subst x; by rewrite E|done]. }
  destruct q as [[id|]|[id|]| | | | | | | | |]; cbn -[describe_one describe_all turn]; try done; apply Hd || apply Ht.
Qed.

Lemma answer_rds_settled B (q : RDSRequest B) w :
  (forall x, rds_action q <> Some (x, false)) -> settled w -> settled (answer_rds q w).2.
Proof.
  intros Hq Hs. assert (forall rt id, settled (describe_one rt id w).2) as Hd.
  { intros rt id x n. rewrite describe_one_at. case_decide; [|apply Hs]. destruct (fleet_at w x) as [[[] m]|] eqn:E; cbn; [done| |done].
    intros [= <-]. by rewrite (Hs x m E). }
  assert (forall rt id, settled (turn rt id true w).2) as Ht.
  { intros rt id x n. rewrite turn_at. case_decide; [|apply Hs]. by destruct (fleet_at w x). }
  destruct q as [[id|]|[id|]| | | | | |id|id| |]; cbn -[describe_one describe_all turn]; try done; try apply Hd; try apply Ht.
  - by destruct (Hq (ResourceTypeInstance, id)).
  - by destruct (Hq (ResourceTypeCluster, id)).
Qed.

#[export] Instance fleet_laws : RDSLaws.
Proof.
  split.
  - intros B q w. cbn. unfold serve_rds. destruct (serve_faulty_cases (@answer_rds) q w) as [(e & He & _)|[He _]]; rewrite He.
    + by destruct q as [[id|]|[id|]| | | | | | | | |].
    + apply answer_rds_answer.
  - intros B q w x d. cbn. unfold serve_rds. destruct (serve_faulty_cases (@answer_rds) q w) as [(e & He & _)|[He _]]; rewrite He.
    + by destruct q as [[id|]|[id|]| | | | | | | | |].
    + apply answer_rds_described.
  - intros B q w x. cbn. unfold serve_rds. destruct (serve_faulty_cases (@answer_rds) q w) as [(e & He & Hw)|[He Hw]]; rewrite He, Hw.
    + by destruct (rds_action q) as [[y up]|].
    + apply answer_rds_up.
  - intros B q w Hq [Hf Hs]. cbn. destruct (serve_faulty_healthy (@answer_rds) q w Hf) as (_ & Hw & Hf').
    unfold serve_rds. rewrite Hw. split; [done|by apply answer_rds_settled].
  - intros rt id w [Hf Hs] Hup. cbn in *. unfold serve_rds.
    destruct (serve_faulty_healthy (@answer_rds) (api_Describe (strategy_of rt) (Some id)) w Hf) as (-> & _ & _).
    destruct (fleet_at (fy_world w) (rt, id)) as [s|] eqn:E; [|unfold fleet_up in Hup; rewrite E in Hup; by destruct Hup].
    exists (mkDBResource id id (db_status s) "db.t3"), []. split.
    + destruct rt; cbn; unfold describe_one; by rewrite E.
    + unfold fleet_up. rewrite E. destruct s as [up n]. cbn. intros [= ->]. by rewrite (Hs (rt, id) n E).
  - intros rt id w [Hf Hs] Hup. cbn in *. unfold serve_rds.
    destruct (serve_faulty_healthy (@answer_rds) (api_Start (strategy_of rt) id) w Hf) as (-> & _ & _).
    destruct (fleet_at (fy_world w) (rt, id)) as [s|] eqn:E; [|unfold fleet_up in Hup; rewrite E in Hup; by destruct Hup].
    destruct rt; cbn; unfold turn; by rewrite E.
Qed.

(** ** Runs *)

Module RDSSamples.
Import RestoreSpec.RestoreSamples.

Definition selecting (tags exclude : gmap string string) (s : option TagSelector) (ids : list string) : RDSSelector :=
  mkRDSSelector tags exclude s ids [] false true true.
Definition waiting : AwaitCompletion := mkAwaitCompletion true "".
Definition dev : gmap string string := {[ "env" := "dev" ]}.
Definition dev_params : RDSParameters := mkRDSParameters true (selecting dev ∅ None []) waiting.
Definition twice_params : RDSParameters := mkRDSParameters false (selecting ∅ ∅ None ["db-1"; "db-1"]) no_await.
Definition now_params : RDSParameters := mkRDSParameters false (selecting dev ∅ None []) no_await.
Definition exclude_params : RDSParameters :=
  mkRDSParameters false (selecting ∅ {[ "env" := "prod" ]} (Some (mkTagSelector ∅ [])) []) no_await.
Definition all_params : RDSParameters := mkRDSParameters false (mkRDSSelector ∅ ∅ None [] [] true true false) no_await.

#[export] Instance sample_rds_params : ParamsJSON := {|
  parse_ec2_params _ := None;
  parse_rds_params text :=
    if (text =? "dev")%string then Some dev_params
    else if (text =? "twice")%string then Some twice_params
    else if (text =? "now")%string then Some now_params
    else if (text =? "exclude")%string then Some exclude_params
    else if (text =? "all")%string then Some all_params else None;
  parse_eks_params _ := None;
  parse_karpenter_params _ := None;
  parse_gke_params _ := None;
  parse_cloudsql_params _ := None;
  parse_scaler_params _ := None;
  parse_noop_params _ := None;
|}.

Definition rds_spec (params : string) : Spec :=
  mkSpec "databases" "rds" params (mkConnectorConfig (Some (mkAWSConnectorConfig "eu-west-1" "" "" "" "" "")) None).
Definition rds_cfg (op : string) : Config := mkConfig op "databases" "rds" "plan" "ns" "c1" "dev" "CloudProvider" "aws" "ns".

(** [db-1] is on its way up, [aurora] and [db-2] are up. *)
Definition fleet (faults : list (option RDSApiError)) : RDSWorld :=
  mkFaulty ({[ "instance:db-1" := (true, 3%nat); "instance:db-2" := (true, 0%nat); "instance:aws-restore-7" := (true, 0%nat);
               "cluster:aurora" := (true, 0%nat) ]} : Fleet) faults.

(** The goroutines for [db-1] and [aurora] take turns. *)
Definition turns : RdsOracle :=
  mkRdsOracle (fun _ => 1700000000) (concat (repeat [SStep 0 false; SStep 1 false; SStep 1 true; SStep 0 true] 12)).
(** The deadline comes first. *)
Definition too_late : RdsOracle := mkRdsOracle (fun _ => 1700000000) (SEnd true :: concat (repeat [SStep 0 true; SStep 1 true] 6)).

Definition rds_clk : RunClock := mkRunClock (fun _ => t0) t0 t0 1500000000.
Definition fleet_start (faults : list (option RDSApiError)) : RunnerState (T := RDSWorld) :=
  mkRunnerState (T := RDSWorld) empty_cluster (fleet faults).
Definition shutdown_fleet (o : RdsOracle) (params : string) (s : RunnerState (T := RDSWorld)) :=
  shutdown_run (rds_executor o) (rds_cfg "shutdown") rds_clk (rds_spec params) s.
Definition wakeup_fleet (o : RdsOracle) (params : string) (s : RunnerState (T := RDSWorld)) :=
  executeOperation (rds_executor o) (set_operation "wakeup" (rds_cfg "shutdown")) rds_clk (rds_spec params) s.
Definition whole_fleet (s : RunnerState (T := RDSWorld)) : list (option bool) :=
  map (rds_up (rs_target s))
    [(ResourceTypeInstance, "db-1"%string); (ResourceTypeInstance, "db-2"%string); (ResourceTypeInstance, "aws-restore-7"%string);
     (ResourceTypeCluster, "aurora"%string)].

(** [aurora] is stopped at once, [db-1] by its goroutine. *)
Definition slept := shutdown_fleet turns "dev" (fleet_start []).
Example slept_state :
  slept.1 = (Ok (mkResult "stopped 2 RDS resource(s); all resources confirmed stopped" 0), Some (Ok tt)) /\
  whole_fleet slept.2 = [Some false; Some true; Some true; Some false].
Proof. vm_compute. split; reflexivity. Qed.

Example fleet_woken :
  (wakeup_fleet turns "dev" slept.2).1 = Ok (mkResult "started 2 RDS resource(s); all resources confirmed available" 1500) /\
  whole_fleet (wakeup_fleet turns "dev" slept.2).2 = whole_fleet (fleet_start []).
Proof. vm_compute. split; reflexivity. Qed.

(** Nothing is stopped after the deadline; what was not stopped is not reported. *)
Definition late := shutdown_fleet too_late "dev" (fleet_start []).
Example late_state :
  late.1 = (Ok (mkResult ("stopped 1 RDS resource(s); 1 pending resource failed to transition: instance db-1: timeout" ++
                          "; 1 of 2 resource(s) not yet stopped after 15m timeout") 0), Some (Ok tt)) /\
  whole_fleet late.2 = [Some true; Some true; Some true; Some false].
Proof. vm_compute. split; reflexivity. Qed.

(** A wakeup that is repeated while a database starts waits for it to stop. *)
Example repeated_wakeup_waits :
  let woken := wakeup_fleet too_late "dev" slept.2 in
  (wakeup_fleet too_late "dev" woken.2).1 =
    Ok (mkResult ("started 0 RDS resource(s); 2 pending resources failed to transition: instance db-1: timeout, " ++
                  "cluster aurora: timeout") 1500).
Proof. vm_compute. reflexivity. Qed.

(** A resource that is still stopping is skipped as stale and stays down. *)
Example stopping_is_skipped :
  let slept := shutdown_fleet turns "now" (fleet_start []) in
  whole_fleet slept.2 = [Some true; Some true; Some true; Some false] /\
  (wakeup_fleet turns "now" slept.2).1 = Ok (mkResult "started 0 RDS resource(s), skipped 1 stale resource(s)" 1500) /\
  whole_fleet (wakeup_fleet turns "now" slept.2).2 = whole_fleet slept.2.
Proof. vm_compute. split_and!; reflexivity. Qed.

(** An instance that is named twice: the second visit finds it stopped. *)
Example named_twice_loses_state :
  let w := mkRunnerState (T := RDSWorld) empty_cluster
             (mkFaulty ({[ "instance:db-1" := (true, 0%nat) ]} : Fleet) []) in
  let visits := acc_state (run_acc (process_ids (fun _ => 0) (Some (acc_add (fun _ => t0))) twice_params ResourceTypeInstance
                  ["db-1"%string] (rds_processed 1)
                  (mkRun (mkFaulty ({[ "instance:db-1" := (false, 0%nat) ]} : Fleet) []) []
                     (run_acc (process_ids (fun _ => 0) (Some (acc_add (fun _ => t0))) twice_params ResourceTypeInstance
                        ["db-1"%string] (rds_processed 1) (mkRun (rs_target w) [] NewAccumulator)).2))).2) in
  demanded (default (AnyOther "") (visits !! "instance:db-1"%string)) = false.
Proof. vm_compute. reflexivity. Qed.

(** A tag selector that is present but empty hides the tags to exclude. *)
Example empty_selector_takes_excluded :
  rds_Validate (rds_spec "exclude") = Ok tt /\
  whole_fleet (shutdown_fleet turns "exclude" (fleet_start [])).2 = [Some true; Some false; Some true; Some false].
Proof. vm_compute. split; reflexivity. Qed.

(** All instances, the one of a restore job of AWS among them. *)
Example all_takes_restore_job :
  whole_fleet (shutdown_fleet turns "all" (fleet_start [])).2 = [Some true; Some false; Some false; Some true].
Proof. vm_compute. reflexivity. Qed.

(** The first stop of [aurora] fails; the second run shuts everything down. *)
Definition cut_short := shutdown_fleet turns "dev" (fleet_start (repeat None 9 ++ [Some (RDSFailure "throttled")])).
Definition slept_again := shutdown_fleet turns "dev" cut_short.2.
Example cut_short_state :
  cut_short.1 = (Err (RErrStop ResourceTypeCluster "aurora" (RErrApi (RDSFailure "throttled"))), Some (Ok tt)) /\
  whole_fleet cut_short.2 = [Some true; Some true; Some true; Some true] /\
  whole_fleet slept_again.2 = [Some false; Some true; Some true; Some false].
Proof. vm_compute. split_and!; reflexivity. Qed.
End RDSSamples.
Import RDSSamples.


Lemma settled_map w : map_Forall (fun _ s => s.1 = true \/ s.2 = O) w -> settled w.
Proof.
  intros Hw x n Hx. unfold fleet_at in Hx. destruct (is_ascii x.2); [|done]. by destruct (Hw _ _ Hx).
Qed.

Lemma rds_wakeup_restores_witness :
  whole_fleet slept_again.2 = [Some false; Some true; Some true; Some false] /\
  forall x, rds_up (rs_target (wakeup_fleet turns "dev" slept_again.2).2) x = rds_up (fleet []) x.
Proof.
  split; [vm_compute; reflexivity|].
  refine (proj1 (rds_wakeup_restores (HS := fleet_clients) (rds_cfg "shutdown") (rds_spec "dev") dev_params
    (fleet_start (repeat None 9 ++ [Some (RDSFailure "throttled")])) slept_again.2
    None turns rds_clk _ _ eq_refl _ _ _ _ _ _ _ _)).
  - intros []; constructor.
  - vm_compute. reflexivity.
  - vm_compute. reflexivity.
  - done.
  - apply (RunShutdown (rds_executor (HS := fleet_clients)) _ _ turns rds_clk slept_again.1.1 _ cut_short.2).
    + apply (RunFirst (rds_executor (HS := fleet_clients)) _ _ turns rds_clk cut_short.1.1).
      apply split_run. vm_compute. reflexivity.
    + apply split_run. vm_compute. reflexivity.
  - split; [vm_compute; reflexivity|]. apply settled_map, (bool_decide_unpack _). vm_compute. reflexivity.
  - by eexists.
  - apply surjective_pairing.
Defined.

