(* ===== verification/ParamsSpec.v ===== *)
(** * Parameters that were admitted

    What the webhook accepts, the executor accepts: when a plan was admitted, the
    validation of its executor does not fail on the parameters of a target, except
    for the noop executor, whose parameters the webhook does not look at.  The
    validation of the executors that have no service in this development (gke,
    cloudsql and noop) is here too. *)
From S2P Require Import Prelude Monad GoString GoTime Types Restore World Execution PlanWebhook PlanWebhookSpec.
From S2P Require Import Params AwsUtil ParamsValidation Executor Operation ExecutorSamples WorkloadScaler EKS Karpenter EC2 RDS.
From S2P Require Import StateSamples RDSSpec.
From Stdlib Require Import Lia.

Local Open Scope Z_scope.

(** ** Validation in gke, cloudsql and noop *)

Inductive GKEError := GErrK8SRequired | GErrClusterNameRequired | GErrRegionRequired | GErrParseParameters | GErrNodePoolsRequired.

Inductive CloudSQLError := SErrParseParameters | SErrInstanceNameRequired | SErrProjectRequired.

Inductive NoOpError := NErrConnectorRequired | NErrUnmarshalParameters | NErrRandomDelay | NErrFailureMode (mode : string).

(** [json.Unmarshal] of the parameters as they are: no text is no JSON. *)
Definition unmarshal_params {P} (parse : string -> option P) (text : string) : option P :=
  if (text =? "")%string then None else parse text.

Section validation.
Context {HP : ParamsJSON}.

Definition gke_Validate (spec : Spec) : res GKEError unit :=
  match cc_K8S (es_ConnectorConfig spec) with
  | None => Err GErrK8SRequired
  | Some k8s =>
      if (k8s_ClusterName k8s =? "")%string then Err GErrClusterNameRequired
      else if (k8s_Region k8s =? "")%string then Err GErrRegionRequired
      else match unmarshal_params parse_gke_params (es_Parameters spec) with
           | None => Err GErrParseParameters
           | Some params => if bool_decide (gke_NodePools params = []) then Err GErrNodePoolsRequired else Ok tt
           end
  end.

Definition cloudsql_Validate (spec : Spec) : res CloudSQLError unit :=
  match unmarshal_params parse_cloudsql_params (es_Parameters spec) with
  | None => Err SErrParseParameters
  | Some params =>
      if (csql_InstanceName params =? "")%string then Err SErrInstanceNameRequired
      else if (csql_Project params =? "")%string then Err SErrProjectRequired
      else Ok tt
  end.

(** The defaults are applied to what was decoded. *)
Definition noop_parseParams (raw : string) : res NoOpError NoOpParameters :=
  match decode_params zero_NoOpParameters parse_noop_params raw with
  | None => Err NErrUnmarshalParameters
  | Some params =>
      Ok (mkNoOpParameters
            (if noop_RandomDelaySeconds params =? 0 then 1 else noop_RandomDelaySeconds params)
            (if (noop_FailureMode params =? "")%string then "none" else noop_FailureMode params)
            (noop_FailureMessage params))
  end.

Definition noop_validateParams (params : NoOpParameters) : res NoOpError unit :=
  if (noop_RandomDelaySeconds params <? 0) || (30 <? noop_RandomDelaySeconds params) then Err NErrRandomDelay
  else if negb (bool_decide (noop_FailureMode params ∈ ["none"; "shutdown"; "wakeup"; "both"]%string))
  then Err (NErrFailureMode (noop_FailureMode params))
  else Ok tt.

Definition noop_Validate (spec : Spec) : res NoOpError unit :=
  match cc_AWS (es_ConnectorConfig spec), cc_K8S (es_ConnectorConfig spec) with
  | None, None => Err NErrConnectorRequired
  | _, _ => let* params := noop_parseParams (es_Parameters spec) in noop_validateParams params
  end.
End validation.

(** ** What the webhook has checked *)

Section admitted.
Context {HP : ParamsJSON} {HT : JSONText} {HV : LabelValidation} {HM : MapOrder}.

(** The parameters are those of the target, and the connector is of the kind that
    the type asks for. *)
Record spec_of_target (t : Types.Target) (spec : Spec) : Prop := {
  so_parameters : es_Parameters spec = default ""%string (tgt_Parameters t);
  so_aws : tgt_Type t ∈ ["ec2"; "rds"; "eks"]%string -> exists aws, cc_AWS (es_ConnectorConfig spec) = Some aws /\ aws_Region aws <> ""%string;
  so_k8s : tgt_Type t ∈ ["karpenter"; "workloadscaler"; "gke"]%string -> exists k8s,
    cc_K8S (es_ConnectorConfig spec) = Some k8s /\ k8s_ClusterName k8s <> ""%string /\ k8s_Region k8s <> ""%string;
}.

(** What the validator of a type has found, from the answer of the webhook. *)
Lemma admitted_errors executorType entry params :
  validators !! executorType = Some entry -> ValidateParams executorType params = [] ->
  pr_Errors (ve_validator entry params) = [].
Proof. intros He H. by rewrite (validate_params_errors _ entry) in H. Qed.

Lemma admitted_decodes {P} (zero : P) parse empty f params :
  pr_Errors (with_params parse empty f params) = [] ->
  (pr_Errors empty = [] /\ params = ""%string /\ decode_params zero parse params = Some zero) \/
  exists p, decode_params zero parse params = Some p /\ params <> ""%string /\ pr_Errors (f p no_result) = [].
Proof.
  rewrite with_params_nil. unfold decode_params. destruct (params =? "")%string eqn:E.
  - intros H. left. by apply String.eqb_eq in E.
  - intros (p & Hp & Hf). right. exists p. split_and!; [done|by apply String.eqb_neq|done].
Qed.

Lemma ec2_admitted spec : ValidateParams "ec2" (es_Parameters spec) = [] ->
  is_Some (cc_AWS (es_ConnectorConfig spec)) -> ec2_Validate spec = Ok tt.
Proof.
  intros H [aws Haws]. apply (admitted_errors "ec2" (mkValidatorEntry validateEC2Params ["selector"; "awaitCompletion"])) in H; [|done].
  apply (admitted_decodes zero_EC2Parameters) in H as [[? _]|(p & Hp & _ & H)]; [done|]. unfold ec2_Validate. rewrite Haws, Hp.
  rewrite check_await_nil, check_tag_selector_nil, !add_if_nil in H. destruct H as [[(H1 & H2 & H3 & _) _] _].
  by rewrite H3, H2, H1.
Qed.

Lemma eks_admitted spec : ValidateParams "eks" (es_Parameters spec) = [] ->
  (exists aws, cc_AWS (es_ConnectorConfig spec) = Some aws /\ aws_Region aws <> ""%string) -> eks_Validate spec = Ok tt.
Proof.
  intros H (aws & Haws & Hr%String.eqb_neq).
  apply (admitted_errors "eks" (mkValidatorEntry validateEKSParams ["clusterName"; "nodeGroups"; "awaitCompletion"])) in H; [|done].
  apply (admitted_decodes zero_EKSParameters) in H as [[? _]|(p & Hp & _ & H)]; [done|]. unfold eks_Validate. rewrite Haws, Hr, Hp.
  rewrite check_await_nil, add_if_nil in H. destruct H as [[H _] _]. by rewrite H.
Qed.

Lemma karpenter_admitted spec : ValidateParams "karpenter" (es_Parameters spec) = [] ->
  (exists k8s, cc_K8S (es_ConnectorConfig spec) = Some k8s /\ k8s_ClusterName k8s <> ""%string /\ k8s_Region k8s <> ""%string) ->
  karpenter_Validate spec = Ok tt.
Proof.
  intros H (k8s & Hk & Hn%String.eqb_neq & Hr%String.eqb_neq). unfold karpenter_Validate. rewrite Hk, Hn, Hr.
  apply (admitted_errors "karpenter" (mkValidatorEntry validateKarpenterParams ["nodePools"; "awaitCompletion"])) in H; [|done].
  apply (admitted_decodes zero_KarpenterParameters) in H as [(_ & _ & ->)|(p & -> & _ & H)]; [done|].
  rewrite check_await_nil, !add_if_nil in H. destruct H as [(_ & H & _) _]. by rewrite H.
Qed.

Lemma scaler_admitted spec : ValidateParams "workloadscaler" (es_Parameters spec) = [] ->
  is_Some (cc_K8S (es_ConnectorConfig spec)) -> scaler_Validate spec = Ok tt.
Proof.
  intros H [k8s Hk]. unfold scaler_Validate. rewrite Hk.
  apply (admitted_errors "workloadscaler" (mkValidatorEntry validateWorkloadScalerParams
    ["includedGroups"; "namespace"; "workloadSelector"; "awaitCompletion"])) in H; [|done].
  apply (admitted_decodes zero_ScalerParameters) in H as [[? _]|(p & -> & _ & H)]; [done|].
  rewrite check_await_nil, !add_if_nil in H. destruct H as [(_ & H1 & H2 & _) _]. cbn.
  rewrite !bool_decide_not. by rewrite H2, H1.
Qed.

Lemma add_warning_nil (b : bool) msg r : pr_Errors (if b then AddWarning msg r else r) = pr_Errors r.
Proof. by destruct b. Qed.

Lemma rds_admitted spec : ValidateParams "rds" (es_Parameters spec) = [] ->
  is_Some (cc_AWS (es_ConnectorConfig spec)) -> rds_Validate spec = Ok tt.
Proof.
  intros H [aws Haws].
  apply (admitted_errors "rds" (mkValidatorEntry validateRDSParams ["selector"; "snapshotBeforeStop"; "awaitCompletion"])) in H; [|done].
  apply (admitted_decodes zero_RDSParameters) in H as [[? _]|(p & Hp & _ & H)]; [done|]. unfold rds_Validate. rewrite Haws, Hp.
  rewrite check_await_nil, add_if_nil, add_warning_nil, check_tag_selector_nil, !add_if_nil in H.
  destruct H as [[_ [(H1 & H2 & H3 & H4 & _) _]] _]. revert H1 H2 H3 H4. cbn zeta.
  generalize (bool_decide (rs_Tags (rds_Selector p) = ∅)) (bool_decide (rs_ExcludeTags (rds_Selector p) = ∅))
    (has_tag_selector (rs_TagSelector (rds_Selector p))) (bool_decide (rs_InstanceIds (rds_Selector p) = []))
    (bool_decide (rs_ClusterIds (rds_Selector p) = [])) (rs_IncludeAll (rds_Selector p)).
  intros [] [] [] [] [] []; done.
Qed.

Lemma gke_admitted spec : ValidateParams "gke" (es_Parameters spec) = [] ->
  (exists k8s, cc_K8S (es_ConnectorConfig spec) = Some k8s /\ k8s_ClusterName k8s <> ""%string /\ k8s_Region k8s <> ""%string) ->
  gke_Validate spec = Ok tt.
Proof.
  intros H (k8s & Hk & Hn%String.eqb_neq & Hr%String.eqb_neq). unfold gke_Validate. rewrite Hk, Hn, Hr.
  apply (admitted_errors "gke" (mkValidatorEntry validateGKEParams ["nodePools"])) in H; [|done].
  apply (admitted_decodes (mkGKEParameters [])) in H as [[? _]|(p & Hp & Hne%String.eqb_neq & H)]; [done|].
  unfold decode_params in Hp. unfold unmarshal_params. rewrite Hne in *. rewrite Hp.
  rewrite add_if_nil in H. destruct H as [H _]. by rewrite H.
Qed.

Lemma cloudsql_admitted spec : ValidateParams "cloudsql" (es_Parameters spec) = [] -> cloudsql_Validate spec = Ok tt.
Proof.
  intros H. unfold cloudsql_Validate.
  apply (admitted_errors "cloudsql" (mkValidatorEntry validateCloudSQLParams ["instanceName"; "project"])) in H; [|done].
  apply (admitted_decodes (mkCloudSQLParameters "" "")) in H as [[? _]|(p & Hp & Hne%String.eqb_neq & H)]; [done|].
  unfold decode_params in Hp. unfold unmarshal_params. rewrite Hne in *. rewrite Hp.
  rewrite !add_if_nil in H. destruct H as (H1 & H2 & _). by rewrite H1, H2.
Qed.

(** The types of an admitted plan. *)
Lemma targets_types_valid seen i l t : targets_errors seen i l = [] -> t ∈ l -> tgt_Type t ∈ validTypes.
Proof.
  revert seen i. induction l as [|t' l IH]; intros seen i H Ht; [by apply elem_of_nil in Ht|].
  cbn [targets_errors] in H. unfold target_field_errors in H. rewrite !app_nil, !err_if_nil in H.
  destruct H as ( (_ & _ & _ & Hv & _) & Hl). apply elem_of_cons in Ht as [->|Ht]; [|by eapply IH].
  apply negb_false_iff, bool_decide_eq_true in Hv. exact Hv.
Qed.
End admitted.

(** What the executor of a target says of its specification: no other type has an
    executor. *)
Definition executor_accepts `{HP : ParamsJSON} (executorType : string) (spec : Spec) : Prop :=
  match executorType with
  | "ec2"%string => ec2_Validate spec = Ok tt
  | "rds"%string => rds_Validate spec = Ok tt
  | "eks"%string => eks_Validate spec = Ok tt
  | "karpenter"%string => karpenter_Validate spec = Ok tt
  | "workloadscaler"%string => scaler_Validate spec = Ok tt
  | "gke"%string => gke_Validate spec = Ok tt
  | "cloudsql"%string => cloudsql_Validate spec = Ok tt
  | "noop"%string => noop_Validate spec = Ok tt
  | _ => False
  end.

(** C8: what the admission webhook accepts, the executors accept: every target of an
    admitted plan, if it is not a noop target, is of a type that has an executor, and
    the validation of that executor succeeds on the parameters of the target, given a
    connector of the kind that the type asks for, with a region (and the name of the
    cluster, for the types that work in one).  The two are separate code, run in
    different processes.  The webhook has no validator for noop targets:
    [noop_admitted_rejected] is one whose executor rejects what was admitted. *)
Theorem admitted_parameters_valid `{HP : ParamsJSON} `{HT : JSONText} `{HV : LabelValidation} `{HM : MapOrder} plan t spec :
  ValidateCreate_plan plan = Some [] -> t ∈ spec_Targets (plan_Spec plan) -> tgt_Type t <> "noop"%string -> spec_of_target t spec ->
  executor_accepts (tgt_Type t) spec.
Proof.
  intros H Ht Hnoop Hs. unfold ValidateCreate_plan, validate_plan in H. apply bind_Some in H as (serrs & _ & H).
  injection H as H. apply app_nil in H as [_ H]. apply app_nil in H as [Htgt _].
  pose proof (targets_types_valid _ _ _ t Htgt Ht) as Hty.
  apply targets_errors_nil in Htgt as [_ Hpar]. destruct (Hpar t Ht) as [_ Hp]. clear Hpar.
  destruct Hs as [Hsp Haws Hk8s]. rewrite <- Hsp in Hp. clear Hsp Ht. revert Hp Haws Hk8s Hty Hnoop. generalize (tgt_Type t). intros ty Hp Haws Hk8s Hty Hnoop.
  destruct (decide (ty = "ec2"%string)) as [->|N1].
  { apply ec2_admitted; [done|]. destruct Haws as (aws & -> & _); [set_solver|by eexists]. }
  destruct (decide (ty = "rds"%string)) as [->|N2].
  { apply rds_admitted; [done|]. destruct Haws as (aws & -> & _); [set_solver|by eexists]. }
  destruct (decide (ty = "eks"%string)) as [->|N3]; [by apply eks_admitted; [|apply Haws; set_solver]|].
  destruct (decide (ty = "karpenter"%string)) as [->|N4]; [by apply karpenter_admitted; [|apply Hk8s; set_solver]|].
  destruct (decide (ty = "workloadscaler"%string)) as [->|N5].
  { apply scaler_admitted; [done|]. destruct Hk8s as (k & -> & _); [set_solver|by eexists]. }
  destruct (decide (ty = "gke"%string)) as [->|N6]; [by apply gke_admitted; [|apply Hk8s; set_solver]|].
  destruct (decide (ty = "cloudsql"%string)) as [->|N7]; [by apply cloudsql_admitted|].
  exfalso. unfold validTypes in Hty. set_solver.
Qed.

Module ParamsSamples.
Import StateSamples PlanWebhookSpec.PlanWebhookSamples RDSSamples.

#[export] Instance any_label_selector : LabelValidation := {| valid_label_selector _ := true |}.

Definition databases : Types.Target := mkTarget "databases" "rds" connector (Some "dev"%string).
Definition database_plan : HibernatePlan :=
  plan (Types.mkSpec (Types.mkSchedule "UTC" [nights]) (mkStrategy StrategySequential None [] []) strict false [databases])
    ∅ (status PhaseActive OperationUnset [] 0).

Example database_plan_admitted : ValidateCreate_plan (HV := params_validator) database_plan = Some [].
Proof. vm_compute. reflexivity. Qed.

(** A noop target that is to fail "sometimes" is admitted; its executor knows no such
    mode. *)
#[local] Instance noop_params : ParamsJSON := {|
  parse_ec2_params _ := None;
  parse_rds_params _ := None;
  parse_eks_params _ := None;
  parse_karpenter_params _ := None;
  parse_gke_params _ := None;
  parse_cloudsql_params _ := None;
  parse_scaler_params _ := None;
  parse_noop_params text := Some (mkNoOpParameters 5 text "");
|}.

Definition flaky : Types.Target := mkTarget "flaky" "noop" connector (Some "sometimes"%string).
Definition flaky_spec (mode : string) : Spec :=
  mkSpec "flaky" "noop" mode (mkConnectorConfig (Some (mkAWSConnectorConfig "eu-west-1" "" "" "" "" "")) None).
Definition flaky_plan : HibernatePlan :=
  plan (Types.mkSpec (Types.mkSchedule "UTC" [nights]) (mkStrategy StrategySequential None [] []) strict false [flaky])
    ∅ (status PhaseActive OperationUnset [] 0).

Example noop_admitted_rejected :
  ValidateCreate_plan (HV := params_validator (HP := noop_params)) flaky_plan = Some [] /\
  noop_Validate (HP := noop_params) (flaky_spec "sometimes") = Err (NErrFailureMode "sometimes") /\
  noop_Validate (HP := noop_params) (flaky_spec "both") = Ok tt.
Proof. vm_compute. split_and!; reflexivity. Qed.
End ParamsSamples.

Lemma admitted_parameters_valid_witness :
  ParamsSamples.databases ∈ spec_Targets (plan_Spec ParamsSamples.database_plan) /\
  rds_Validate (HP := RDSSamples.sample_rds_params) (RDSSamples.rds_spec "dev") = Ok tt.
Proof.
  assert (ParamsSamples.databases ∈ spec_Targets (plan_Spec ParamsSamples.database_plan)) as Hin by (by left).
  split; [exact Hin|].
  refine (admitted_parameters_valid ParamsSamples.database_plan ParamsSamples.databases (RDSSamples.rds_spec "dev") _ Hin _ _).
  - exact ParamsSamples.database_plan_admitted.
  - done.
  - split; [reflexivity| |intros H; exfalso; set_solver].
    intros _. eexists. split; [reflexivity|done].
Defined.
