(* ===== verification/Notification.v ===== *)
(** * Notifications: the resource and its bindings

    [HibernateNotification] (api/v1alpha1) asks that some events of the plans that
    its selector matches be sent to its sinks.  This file has the resource and its
    validation, the requests that the hooks of a plan submit
    ([plan/state/state_notify.go]), the bindings of plans and notifications that the
    provider publishes, and the processor that keeps the status of a notification
    ([processor/notification]).  Types of Go that are names of [string] are strings
    where the code only passes them on. *)
From S2P Require Import Prelude Monad GoString GoTime Types Cluster Delivery PlanWebhook.
From S2P Require Import ExecutionUtils Params ParamsValidation.

Local Open Scope Z_scope.

(** ** The resource ([hibernatenotification_types.go]) *)

Inductive NotificationEvent :=
| EventStart
| EventSuccess
| EventFailure
| EventRecovery
| EventPhaseChange
| EventExecutionProgress
| EventOther (s : string).
#[export] Instance NotificationEvent_eq_dec : EqDecision NotificationEvent.
Proof. solve_decision. Defined.

Record ObjectKeyReference := mkObjectKeyReference {
  okr_Name : string;
  okr_Key : option string;
}.

Record NotificationSink := mkNotificationSink {
  nsk_Name : string;
  nsk_Type : string;
  nsk_SecretRef : ObjectKeyReference;
  nsk_TemplateRef : option ObjectKeyReference;
}.

Inductive NotificationState :=
| NotificationStateBound
| NotificationStateDetached
| NotificationStateOther (s : string).
#[export] Instance NotificationState_eq_dec : EqDecision NotificationState.
Proof. solve_decision. Defined.

(** [PlanReference] (shared types). *)
Record PlanReference := mkPlanReference {
  pr_Name : string;
  pr_Namespace : string;
}.

Definition MaxSinkStatusCyclesPerPlan : Z := 2.
Definition MaxSinkStatusEntries : nat := 500.

Record NotificationSinkStatus := mkSinkStatus {
  ss_SinkName : string;
  ss_PlanRef : PlanReference;
  ss_CycleID : string;
  ss_Operation : string;
  ss_Success : bool;
  ss_TransitionTimestamp : time;
  ss_SuccessCount : Z;
  ss_FailureCount : Z;
  ss_LastSuccessTime : option time;
  ss_LastFailureTime : option time;
  ss_Message : string;
  ss_States : gmap string string;
}.

Record HibernateNotificationStatus := mkNotificationStatus {
  ns_State : NotificationState;
  ns_WatchedPlans : list PlanReference;
  ns_LastDeliveryTime : option time;
  ns_LastFailureTime : option time;
  ns_SinkStatuses : gmap string NotificationSinkStatus;
  ns_ObservedGeneration : Z;
}.

Definition set_ns_State (v : NotificationState) (r : HibernateNotificationStatus) : HibernateNotificationStatus :=
  mkNotificationStatus v (ns_WatchedPlans r) (ns_LastDeliveryTime r) (ns_LastFailureTime r) (ns_SinkStatuses r) (ns_ObservedGeneration r).
Definition set_ns_WatchedPlans (v : list PlanReference) (r : HibernateNotificationStatus) : HibernateNotificationStatus :=
  mkNotificationStatus (ns_State r) v (ns_LastDeliveryTime r) (ns_LastFailureTime r) (ns_SinkStatuses r) (ns_ObservedGeneration r).
Definition set_ns_LastDeliveryTime (v : option time) (r : HibernateNotificationStatus) : HibernateNotificationStatus :=
  mkNotificationStatus (ns_State r) (ns_WatchedPlans r) v (ns_LastFailureTime r) (ns_SinkStatuses r) (ns_ObservedGeneration r).
Definition set_ns_LastFailureTime (v : option time) (r : HibernateNotificationStatus) : HibernateNotificationStatus :=
  mkNotificationStatus (ns_State r) (ns_WatchedPlans r) (ns_LastDeliveryTime r) v (ns_SinkStatuses r) (ns_ObservedGeneration r).
Definition set_ns_SinkStatuses (v : gmap string NotificationSinkStatus) (r : HibernateNotificationStatus) : HibernateNotificationStatus :=
  mkNotificationStatus (ns_State r) (ns_WatchedPlans r) (ns_LastDeliveryTime r) (ns_LastFailureTime r) v (ns_ObservedGeneration r).
Definition set_ns_ObservedGeneration (v : Z) (r : HibernateNotificationStatus) : HibernateNotificationStatus :=
  mkNotificationStatus (ns_State r) (ns_WatchedPlans r) (ns_LastDeliveryTime r) (ns_LastFailureTime r) (ns_SinkStatuses r) v.

(** [HibernateNotification]: metadata, spec and status; [hn_Deleting] is a non-zero
    deletion timestamp.  A nil map reads like an empty one, and the one place that
    writes to it makes it first. *)
Record HibernateNotification := mkNotification {
  hn_Name : string;
  hn_Namespace : string;
  hn_UID : string;
  hn_ResourceVersion : string;
  hn_Generation : Z;
  hn_Deleting : bool;
  hn_Finalizers : list string;
  hn_Selector : LabelSelector;
  hn_OnEvents : list NotificationEvent;
  hn_Sinks : list NotificationSink;
  hn_Status : HibernateNotificationStatus;
}.

Definition set_hn_Finalizers (v : list string) (r : HibernateNotification) : HibernateNotification :=
  mkNotification (hn_Name r) (hn_Namespace r) (hn_UID r) (hn_ResourceVersion r) (hn_Generation r) (hn_Deleting r) v (hn_Selector r) (hn_OnEvents r) (hn_Sinks r) (hn_Status r).
Definition set_hn_Status (v : HibernateNotificationStatus) (r : HibernateNotification) : HibernateNotification :=
  mkNotification (hn_Name r) (hn_Namespace r) (hn_UID r) (hn_ResourceVersion r) (hn_Generation r) (hn_Deleting r) (hn_Finalizers r) (hn_Selector r) (hn_OnEvents r) (hn_Sinks r) v.

(** Assignments to fields of the status. *)
Definition on_notification (f : HibernateNotificationStatus -> HibernateNotificationStatus) (n : HibernateNotification)
  : HibernateNotification := set_hn_Status (f (hn_Status n)) n.

(** [client.ObjectKeyFromObject]. *)
Definition notification_key (n : HibernateNotification) : NamespacedName := (hn_Namespace n, hn_Name n).

(** ** Validation ([hibernatenotification_validator.go]) *)

Section validation.
Context {HV : LabelValidation}.

Definition validateSelector (notif : HibernateNotification) : list FieldError :=
  err_if (negb (valid_label_selector (hn_Selector notif))) FieldInvalid (Child "spec" "selector").

(** The loop of [validateSinkNameUniqueness]. *)
Fixpoint sink_name_errors (seen : gset string) (i : nat) (sinks : list NotificationSink) : list FieldError :=
  match sinks with
  | [] => []
  | s :: sinks' =>
      err_if (bool_decide (nsk_Name s ∈ seen)) FieldInvalid (Child (Index (Child "spec" "sinks") i) "name") ++
      sink_name_errors ({[nsk_Name s]} ∪ seen) (S i) sinks'
  end.

Definition validateSinkNameUniqueness (notif : HibernateNotification) : list FieldError :=
  sink_name_errors ∅ 0 (hn_Sinks notif).

(** [ValidateCreate] and [ValidateUpdate]. *)
Definition validate_notification (notif : HibernateNotification) : list FieldError :=
  validateSelector notif ++ validateSinkNameUniqueness notif.
End validation.

(** [labels.Selector.Matches], of a selector that is valid. *)
Class LabelMatching := { label_matches : LabelSelector -> gmap string string -> bool }.

(** ** Requests ([internal/notification/types.go], [sink/sink.go]) *)

Record PlanInfo := mkPlanInfo {
  pi_Name : string;
  pi_Namespace : string;
  pi_Labels : gmap string string;
  pi_Annotations : gmap string string;
}.

Record ConnectorInfo := mkConnectorInfo {
  ci_Kind : string;
  ci_Name : string;
  ci_Provider : string;
  ci_AccountID : string;
  ci_ProjectID : string;
  ci_Region : string;
  ci_ClusterName : string;
}.

Record TargetInfo := mkTargetInfo {
  ti_Name : string;
  ti_Executor : string;
  ti_State : ExecutionState;
  ti_Message : string;
  ti_Connector : ConnectorInfo;
}.

Record Payload := mkPayload {
  pl_Plan : PlanInfo;
  pl_Event : NotificationEvent;
  pl_Timestamp : time;
  pl_Phase : PlanPhase;
  pl_PreviousPhase : string;
  pl_Operation : PlanOperation;
  pl_CycleID : string;
  pl_Targets : list TargetInfo;
  pl_TargetExecution : option TargetInfo;
  pl_ErrorMessage : string;
  pl_RetryCount : Z;
  pl_SinkName : string;
  pl_SinkType : string;
}.

Definition set_pl_PreviousPhase (v : string) (r : Payload) : Payload :=
  mkPayload (pl_Plan r) (pl_Event r) (pl_Timestamp r) (pl_Phase r) v (pl_Operation r) (pl_CycleID r) (pl_Targets r) (pl_TargetExecution r) (pl_ErrorMessage r) (pl_RetryCount r) (pl_SinkName r) (pl_SinkType r).
Definition set_pl_Targets (v : list TargetInfo) (r : Payload) : Payload :=
  mkPayload (pl_Plan r) (pl_Event r) (pl_Timestamp r) (pl_Phase r) (pl_PreviousPhase r) (pl_Operation r) (pl_CycleID r) v (pl_TargetExecution r) (pl_ErrorMessage r) (pl_RetryCount r) (pl_SinkName r) (pl_SinkType r).
Definition set_pl_TargetExecution (v : option TargetInfo) (r : Payload) : Payload :=
  mkPayload (pl_Plan r) (pl_Event r) (pl_Timestamp r) (pl_Phase r) (pl_PreviousPhase r) (pl_Operation r) (pl_CycleID r) (pl_Targets r) v (pl_ErrorMessage r) (pl_RetryCount r) (pl_SinkName r) (pl_SinkType r).

(** [notification.Request]. *)
Record NotificationRequest := mkNotificationRequest {
  rq_Payload : Payload;
  rq_SinkName : string;
  rq_SinkType : string;
  rq_SecretRef : ObjectKeyReference;
  rq_TemplateRef : option ObjectKeyReference;
  rq_NotificationRef : NamespacedName;
}.

(** [PlanInfo.String] and [types.NamespacedName.String]. *)
Definition slashed (namespace name : string) : string := (namespace ++ "/" ++ name)%string.
Definition PlanInfo_String (p : PlanInfo) : string := slashed (pi_Namespace p) (pi_Name p).

(** The key of a sink and plan, of the cycle and the operation: [Request.ShortName]. *)
Definition ShortName (r : NotificationRequest) : string :=
  (rq_SinkName r ++ "|" ++ PlanInfo_String (pl_Plan (rq_Payload r)) ++ "|" ++ pl_CycleID (rq_Payload r) ++ "|" ++
   operation_string (pl_Operation (rq_Payload r)))%string.

Definition Request_String (r : NotificationRequest) : string :=
  (slashed (rq_NotificationRef r).1 (rq_NotificationRef r).2 ++ "|" ++ ShortName r)%string.

(** [DeliveryResult]; an error is its text. *)
Record DeliveryResult := mkDeliveryResult {
  dr_ID : string;
  dr_NotificationRef : NamespacedName;
  dr_SinkName : string;
  dr_PlanNamespace : string;
  dr_PlanName : string;
  dr_CycleID : string;
  dr_Operation : string;
  dr_Timestamp : time;
  dr_Success : bool;
  dr_Error : option string;
  dr_States : gmap string string;
}.

(** [FromRequest(req).At(now).WithOutcome(success, err).WithStates(states)]. *)
Definition FromRequest (req : NotificationRequest) (now : time) (success : bool) (err : option string)
  (states : gmap string string) : DeliveryResult :=
  let p := rq_Payload req in
  mkDeliveryResult (ShortName req) (rq_NotificationRef req) (rq_SinkName req) (pi_Namespace (pl_Plan p))
    (pi_Name (pl_Plan p)) (pl_CycleID p) (operation_string (pl_Operation p)) now success err states.

(** ** Connectors ([cloudprovider_types.go], [k8scluster_types.go])

    [CloudProvider] and [K8SCluster] by the fields that are read here. *)

Record StaticAuth := mkStaticAuth { sa_SecretName : string; sa_SecretNamespace : string }.

(** [AWSConfig], with its [AWSAuth]. *)
Record AWSConfig := mkAWSConfig {
  awsc_AccountId : string;
  awsc_Region : string;
  awsc_AssumeRoleArn : string;
  awsc_ServiceAccount : bool;
  awsc_Static : option StaticAuth;
}.

Record CloudProvider := mkCloudProvider {
  cp_Type : string;
  cp_AWS : option AWSConfig;
}.

Definition CloudProviderAWS : string := "aws".

(** [CloudProviderValidator.validate] (cloudprovider_validator.go). *)
Definition validate_cloud_provider (cp : CloudProvider) : list FieldError :=
  if (cp_Type cp =? CloudProviderAWS)%string then
    match cp_AWS cp with
    | None => [mkFieldError FieldRequired (Child "spec" "aws")]
    | Some aws =>
        err_if (negb (awsc_ServiceAccount aws) && bool_decide (awsc_Static aws = None)) FieldRequired
          (Child (Child "spec" "aws") "auth")
    end
  else [].

Record EKSConfig := mkEKSConfig { eksc_Name : string; eksc_Region : string }.
Record GKEConfig := mkGKEConfig { gkec_Name : string; gkec_Project : string; gkec_Location : string }.

(** [K8SClusterSpec]; of the generic access only [InCluster] is kept. *)
Record K8SCluster := mkK8SCluster {
  kc_ProviderRef : option (string * string);
  kc_EKS : option EKSConfig;
  kc_GKE : option GKEConfig;
  kc_K8S_InCluster : option bool;
}.

(** The reads of connectors; each takes the namespace and the name. *)
Class ConnectorReader := {
  CReader : Type;
  cr_cloud_provider : string -> string -> CReader -> (ApiError + CloudProvider) * CReader;
  cr_k8s_cluster : string -> string -> CReader -> (ApiError + K8SCluster) * CReader;
}.

(** ** The hooks of a plan ([plan/state/state_notify.go]) *)

Section hooks.
Context {HR : ConnectorReader}.

(** A hook reads connectors and submits requests. *)
Record HookState := mkHookState {
  hs_reader : CReader;
  hs_submitted : list NotificationRequest;
}.

Definition HM (A : Type) : Type := ST HookState string A.

Definition hook_read {A} (f : CReader -> (ApiError + A) * CReader) : HM (ApiError + A) := fun s =>
  let '(r, c) := f (hs_reader s) in (Ok r, mkHookState c (hs_submitted s)).
Definition submit (req : NotificationRequest) : HM unit :=
  st_modify (fun s => mkHookState (hs_reader s) (hs_submitted s ++ [req])).

Definition subscribesToEvent (notif : HibernateNotification) (event : NotificationEvent) : bool :=
  bool_decide (event ∈ hn_OnEvents notif).

Definition request_for (notif : HibernateNotification) (payload : Payload) (sink : NotificationSink) : NotificationRequest :=
  mkNotificationRequest payload (nsk_Name sink) (nsk_Type sink) (nsk_SecretRef sink) (nsk_TemplateRef sink)
    (notification_key notif).

(** The loop over the sinks; [done] has the names of those that were served. *)
Fixpoint submit_sinks (notif : HibernateNotification) (payload : Payload) (done : gset string) (sinks : list NotificationSink)
  : HM unit :=
  match sinks with
  | [] => st_ret tt
  | sink :: sinks' =>
      if bool_decide (nsk_Name sink ∈ done) then submit_sinks notif payload done sinks'
      else
        do! submit (request_for notif payload sink) in
        submit_sinks notif payload ({[nsk_Name sink]} ∪ done) sinks'
  end.

Definition submitForNotification (event : NotificationEvent) (payload : Payload) (notif : HibernateNotification) : HM unit :=
  if subscribesToEvent notif event then submit_sinks notif payload ∅ (hn_Sinks notif) else st_ret tt.

Definition no_connector : ConnectorInfo := mkConnectorInfo "" "" "" "" "" "" "".

(** The map [specTargets] keeps the last target of a name. *)
Definition spec_target (plan : HibernatePlan) (name : string) : option Target :=
  find_first (fun t => (tgt_Name t =? name)%string) (rev (spec_Targets (plan_Spec plan))).

Definition target_info (plan : HibernatePlan) (exec : ExecutionStatus) : TargetInfo :=
  mkTargetInfo (exec_Target exec) (exec_Executor exec) (exec_State exec) (exec_Message exec)
    match spec_target plan (exec_Target exec) with
    | Some spec => mkConnectorInfo (conn_Kind (tgt_ConnectorRef spec)) (conn_Name (tgt_ConnectorRef spec)) "" "" "" "" ""
    | None => no_connector
    end.

(** The labels of a plan are an argument. *)
Definition buildPayload (labels : gmap string string) (plan : HibernatePlan) (event : NotificationEvent) (now : time) : Payload :=
  let st := plan_Status plan in
  mkPayload (mkPlanInfo (plan_Name plan) (plan_Namespace plan) labels (plan_Annotations plan))
    event now (plan_Phase plan) "" (st_CurrentOperation st) (st_CurrentCycleID st)
    (map (target_info plan) (st_Executions st)) None (st_ErrorMessage st) (st_RetryCount st) "" "".

(** What a [CloudProvider] adds to a connector whose region is kept when [keep]. *)
Definition with_provider (keep : bool) (cp : CloudProvider) (ci : ConnectorInfo) : ConnectorInfo :=
  let '(account, region) :=
    match cp_AWS cp with
    | Some aws =>
        (awsc_AccountId aws, if keep && negb (ci_Region ci =? "")%string then ci_Region ci else awsc_Region aws)
    | None => (ci_AccountID ci, ci_Region ci)
    end in
  mkConnectorInfo (ci_Kind ci) (ci_Name ci) (cp_Type cp) account (ci_ProjectID ci) region (ci_ClusterName ci).

Definition with_cluster (kc : K8SCluster) (ci : ConnectorInfo) : ConnectorInfo :=
  let mk project region cluster :=
    mkConnectorInfo (ci_Kind ci) (ci_Name ci) (ci_Provider ci) (ci_AccountID ci) project region cluster in
  match kc_EKS kc, kc_GKE kc, kc_K8S_InCluster kc with
  | Some eks, _, _ => mk (ci_ProjectID ci) (eksc_Region eks) (eksc_Name eks)
  | None, Some gke, _ => mk (gkec_Project gke) (gkec_Location gke) (gkec_Name gke)
  | None, None, Some inCluster => mk (ci_ProjectID ci) (ci_Region ci) (if inCluster then "in-cluster" else "remote")%string
  | None, None, None => ci
  end.

Definition enrich_connector (namespace : string) (ci : ConnectorInfo) : HM ConnectorInfo :=
  if ((ci_Kind ci =? "") || (ci_Name ci =? ""))%string then st_ret ci
  else if (ci_Kind ci =? "CloudProvider")%string then
    let! r := hook_read (cr_cloud_provider namespace (ci_Name ci)) in
    st_ret match r with inl _ => ci | inr cp => with_provider false cp ci end
  else if (ci_Kind ci =? "K8SCluster")%string then
    let! r := hook_read (cr_k8s_cluster namespace (ci_Name ci)) in
    match r with
    | inl _ => st_ret ci
    | inr kc =>
        let ci := with_cluster kc ci in
        match kc_ProviderRef kc with
        | None => st_ret ci
        | Some (name, provNS) =>
            let! r := hook_read (cr_cloud_provider (if (provNS =? "")%string then namespace else provNS) name) in
            st_ret match r with inl _ => ci | inr cp => with_provider true cp ci end
        end
    end
  else st_ret ci.

Fixpoint enrichConnectorInfo (namespace : string) (targets : list TargetInfo) : HM (list TargetInfo) :=
  match targets with
  | [] => st_ret []
  | t :: targets' =>
      let! ci := enrich_connector namespace (ti_Connector t) in
      let! rest := enrichConnectorInfo namespace targets' in
      st_ret (mkTargetInfo (ti_Name t) (ti_Executor t) (ti_State t) (ti_Message t) ci :: rest)
  end.

(** The function that [notifyHook] returns, for the notifications of the plan
    context; without any there is no hook. *)
Definition notifyHook (notifications : list HibernateNotification) (event : NotificationEvent)
  (payloadFn : HibernatePlan -> Payload) (plan : HibernatePlan) : HM unit :=
  let payload := payloadFn plan in
  let! targets := enrichConnectorInfo (plan_Namespace plan) (pl_Targets payload) in
  st_iter (submitForNotification event (set_pl_Targets targets payload)) notifications.

Definition phaseChangePostHook (notifications : list HibernateNotification) (labels : gmap string string) (now : time)
  (previousPhase : PlanPhase) (plan : HibernatePlan) : HM unit :=
  notifyHook notifications EventPhaseChange
    (fun plan => set_pl_PreviousPhase (phase_string previousPhase) (buildPayload labels plan EventPhaseChange now)) plan.

(** [chainHooks]: the hooks run until one fails. *)
Definition chainHooks (hooks : list (HibernatePlan -> HM unit)) (plan : HibernatePlan) : HM unit :=
  st_iter (fun h => h plan) hooks.

(** [prevSnapshot] has the states that the targets had before; every target whose
    state is another one now is reported. *)
Definition executionProgressPostHook (notifications : list HibernateNotification) (labels : gmap string string) (now : time)
  (prevSnapshot : gmap string executionSnapshot) (plan : HibernatePlan) : HM unit :=
  let payload := buildPayload labels plan EventExecutionProgress now in
  let! targets := enrichConnectorInfo (plan_Namespace plan) (pl_Targets payload) in
  st_iter (fun target =>
      if bool_decide (xs_State <$> prevSnapshot !! ti_Name target = Some (ti_State target)) then st_ret tt
      else st_iter (submitForNotification EventExecutionProgress
                      (set_pl_TargetExecution (Some target) (set_pl_Targets targets payload))) notifications)
    targets.
End hooks.

(** ** Bindings of notifications and plans ([internal/message/types.go]) *)

Record NotificationBindingKey := mkBindingKey {
  bk_Namespace : string;
  bk_NotificationName : string;
  bk_PlanName : string;
}.
#[export] Instance NotificationBindingKey_eq_dec : EqDecision NotificationBindingKey.
Proof. solve_decision. Defined.
#[export] Instance NotificationBindingKey_countable : Countable NotificationBindingKey.
Proof.
  refine (inj_countable' (fun k => (bk_Namespace k, bk_NotificationName k, bk_PlanName k))
    (fun t => mkBindingKey t.1.1 t.1.2 t.2) _). by intros [].
Defined.

Definition NewNotificationBindingKey (notif plan : NamespacedName) : option NotificationBindingKey :=
  if negb (notif.1 =? plan.1)%string then None else Some (mkBindingKey notif.1 notif.2 plan.2).

Definition GetNotificationKey (k : NotificationBindingKey) : NamespacedName := (bk_Namespace k, bk_NotificationName k).

Record NotificationContext := mkNotificationContext {
  nc_Notification : option HibernateNotification;
  nc_PlanKey : NamespacedName;
  nc_PlanLabels : gmap string string;
  nc_Matches : bool;
}.

(** The comparison of two maps in [Equal] and [selectorEqual]: the sizes, and the
    values of the keys of the first, where a missing key reads as the empty string. *)
Definition labels_equal (a b : gmap string string) : bool :=
  bool_decide (size a = size b) &&
  forallb (fun kv => (default "" (b !! kv.1) =? kv.2)%string) (map_to_list a).

Definition requirement_equal (a b : LabelSelectorRequirement) : bool :=
  (lsr_Key a =? lsr_Key b)%string && (lsr_Operator a =? lsr_Operator b)%string &&
  EqualFunc String.eqb (lsr_Values a) (lsr_Values b).

Definition selectorEqual (a b : LabelSelector) : bool :=
  labels_equal (ls_MatchLabels a) (ls_MatchLabels b) &&
  EqualFunc requirement_equal (ls_MatchExpressions a) (ls_MatchExpressions b).

(** [notificationsEqual], on the whole resources. *)
Definition same_notification (a b : HibernateNotification) : bool :=
  notificationsEqual (mkVersioned (hn_UID a) (hn_ResourceVersion a) (notification_key a))
    (mkVersioned (hn_UID b) (hn_ResourceVersion b) (notification_key b)).

Definition NotificationContext_Equal (nc other : NotificationContext) : bool :=
  Bool.eqb (nc_Matches nc) (nc_Matches other) &&
  bool_decide (nc_PlanKey nc = nc_PlanKey other) &&
  labels_equal (nc_PlanLabels nc) (nc_PlanLabels other) &&
  match nc_Notification nc, nc_Notification other with
  | Some a, Some b => selectorEqual (hn_Selector a) (hn_Selector b) && same_notification a b
  | None, None => true
  | _, _ => false
  end.

(** ** Publication ([provider.go], [notificationBindingTracker] in types.go) *)

(** [watchable.Map] of the bindings: its content, and the updates that were delivered
    to its subscriber: a value that equals the one before is not. *)
Inductive BindingUpdate :=
| BindingStored (key : NotificationBindingKey) (value : NotificationContext)
| BindingDeleted (key : NotificationBindingKey) (last : NotificationContext).

Record Bindings := mkBindings {
  bn_map : gmap NotificationBindingKey NotificationContext;
  bn_updates : list BindingUpdate;
  bn_tracker : gmap NamespacedName (gset NotificationBindingKey);
}.

Definition binding_Store (key : NotificationBindingKey) (value : NotificationContext) (s : Bindings) : Bindings :=
  let changed := match bn_map s !! key with Some old => negb (NotificationContext_Equal old value) | None => true end in
  mkBindings (<[key := value]> (bn_map s)) (bn_updates s ++ (if changed then [BindingStored key value] else [])) (bn_tracker s).
Definition binding_Delete (key : NotificationBindingKey) (s : Bindings) : Bindings :=
  mkBindings (delete key (bn_map s))
    (bn_updates s ++ match bn_map s !! key with Some last => [BindingDeleted key last] | None => [] end) (bn_tracker s).

Section publish.
Context {HV : LabelValidation} {HL : LabelMatching}.
(** The order in which a set of keys is iterated. *)
Context (key_order : list NotificationBindingKey -> list NotificationBindingKey).

(** [LabelSelectorAsSelector] and [Matches]: [None] for a selector that is invalid. *)
Definition selects (notif : HibernateNotification) (labels : gmap string string) : option bool :=
  if valid_label_selector (hn_Selector notif) then Some (label_matches (hn_Selector notif) labels) else None.

Definition delete_all (keys : gset NotificationBindingKey) (s : Bindings) : Bindings :=
  fold_left (fun s k => binding_Delete k s) (key_order (elements keys)) s.

(** [notificationBindingTracker.Reconcile]. *)
Definition tracker_Reconcile (planKey : NamespacedName) (currentKeys : gset NotificationBindingKey) (s : Bindings) : Bindings :=
  let s := delete_all (default ∅ (bn_tracker s !! planKey) ∖ currentKeys) s in
  mkBindings (bn_map s) (bn_updates s) (<[planKey := currentKeys]> (bn_tracker s)).

(** [deleteNotificationBindings] and [notificationBindingTracker.DeletePlan]. *)
Definition deleteNotificationBindings (planKey : NamespacedName) (s : Bindings) : Bindings :=
  let s := delete_all (default ∅ (bn_tracker s !! planKey)) s in
  mkBindings (bn_map s) (bn_updates s) (delete planKey (bn_tracker s)).

(** The loop of [fetchAndPublishNotifications] over the items of the list: the matched
    ones and the keys that were stored, or the error of a key. *)
Fixpoint publish_loop (planKey : NamespacedName) (labels : gmap string string) (items : list HibernateNotification)
  (matched : list HibernateNotification) (currentKeys : gset NotificationBindingKey) (s : Bindings)
  : option (list HibernateNotification * gset NotificationBindingKey) * Bindings :=
  match items with
  | [] => (Some (matched, currentKeys), s)
  | notif :: items' =>
      match selects notif labels with
      | None => publish_loop planKey labels items' matched currentKeys s
      | Some matches =>
          match NewNotificationBindingKey (notification_key notif) planKey with
          | None => (None, s)
          | Some key =>
              publish_loop planKey labels items' (if matches then matched ++ [notif] else matched) ({[key]} ∪ currentKeys)
                (binding_Store key (mkNotificationContext (Some notif) planKey labels matches) s)
          end
      end
  end.

(** [fetchAndPublishNotifications]: [items] is the answer of the list. *)
Definition fetchAndPublishNotifications (planKey : NamespacedName) (labels : gmap string string)
  (items : ApiError + list HibernateNotification) (s : Bindings) : option (list HibernateNotification) * Bindings :=
  match items with
  | inl _ => (None, s)
  | inr items =>
      match publish_loop planKey labels items [] ∅ s with
      | (None, s) => (None, s)
      | (Some (matched, currentKeys), s) => (Some matched, tracker_Reconcile planKey currentKeys s)
      end
  end.

(** [findPlansForNotification]: the plans to reconcile when a notification changes;
    [plans] are the plans of its namespace with their labels. *)
Definition findPlansForNotification (notif : HibernateNotification)
  (plans : ApiError + list (NamespacedName * gmap string string)) : list NamespacedName :=
  if negb (valid_label_selector (hn_Selector notif)) then []
  else
    match plans with
    | inl _ => []
    | inr plans =>
        let matches p := label_matches (hn_Selector notif) p.2 = true in
        let matchedPlans := map fst (filter matches plans) in
        let unMatchedPlans := map fst (filter (fun p => ~ matches p) plans) in
        if bool_decide (matchedPlans = []) then unMatchedPlans else matchedPlans
    end.
End publish.

(** ** The lifecycle ([processor/notification/lifecycle.go]) *)

Definition NotificationFinalizerName : string := "hibernator.ardikabs.com/notification-finalizer".

(** The client of the processor, with the notifications that are stored. *)
Class NotificationClient := {
  NClient : Type;
  nt_stored : NClient -> NamespacedName -> option HibernateNotification;
  nt_get (key : NamespacedName) : NClient -> (ApiError + HibernateNotification) * NClient;
  nt_patch (orig new : HibernateNotification) : NClient -> (ApiError + HibernateNotification) * NClient;
}.

(** A status update that is queued for the writer of a notification. *)
Record NotificationUpdate := mkNotificationUpdate {
  nu_Key : NamespacedName;
  nu_Mutator : HibernateNotification -> HibernateNotification;
}.

Section lifecycle.
Context {HC : NotificationClient} {HS : SortSlice} {HO : MapOrder}.

Record Notify := mkNotify {
  nf_client : NClient;
  nf_queue : list NotificationUpdate;
}.

Definition NM (A : Type) : Type := ST Notify Empty_set A.

Definition nt_request {A} (f : NClient -> (ApiError + A) * NClient) : NM (ApiError + A) := fun s =>
  let '(r, c) := f (nf_client s) in (Ok r, mkNotify c (nf_queue s)).

(** [Send].  It also runs the mutator on the resource of the update, which the
    processor does not read afterwards. *)
Definition send (key : NamespacedName) (f : HibernateNotification -> HibernateNotification) : NM unit :=
  st_modify (fun s => mkNotify (nf_client s) (nf_queue s ++ [mkNotificationUpdate key f])).

Definition has_finalizer (n : HibernateNotification) : bool :=
  bool_decide (NotificationFinalizerName ∈ hn_Finalizers n).
Definition add_finalizer (n : HibernateNotification) : HibernateNotification :=
  set_hn_Finalizers (hn_Finalizers n ++ [NotificationFinalizerName]) n.
Definition remove_finalizer (n : HibernateNotification) : HibernateNotification :=
  set_hn_Finalizers (filter (fun f => f <> NotificationFinalizerName) (hn_Finalizers n)) n.

(** Errors are only logged. *)
Definition ensureFinalizer (key : NamespacedName) : NM unit :=
  let! r := nt_request (nt_get key) in
  match r with
  | inl _ => st_ret tt
  | inr notif =>
      if has_finalizer notif then st_ret tt
      else let! r := nt_request (nt_patch notif (add_finalizer notif)) in st_ret tt
  end.

Definition removeFinalizer (key : NamespacedName) : NM unit :=
  let! r := nt_request (nt_get key) in
  match r with
  | inl _ => st_ret tt
  | inr notif =>
      if negb (has_finalizer notif) then st_ret tt
      else let! r := nt_request (nt_patch notif (remove_finalizer notif)) in st_ret tt
  end.

Definition is_plan (planName : string) (ref : PlanReference) : bool := (pr_Name ref =? planName)%string.

(** The mutators of the three updates. *)
Definition clear_plans : HibernateNotification -> HibernateNotification :=
  on_notification (fun st => set_ns_State NotificationStateDetached (set_ns_WatchedPlans [] st)).

Definition name_less (a b : PlanReference) : bool := String.ltb (pr_Name a) (pr_Name b).

Definition upsert_plan (planName : string) (n : HibernateNotification) : HibernateNotification :=
  let watched := ns_WatchedPlans (hn_Status n) in
  let watched :=
    if existsb (is_plan planName) watched then watched
    else sort_Slice name_less (watched ++ [mkPlanReference planName ""]) in
  on_notification (fun st =>
    set_ns_ObservedGeneration (hn_Generation n) (set_ns_State NotificationStateBound (set_ns_WatchedPlans watched st))) n.

Definition without_plan (planName : string) (watched : list PlanReference) : list PlanReference :=
  filter (fun ref => is_plan planName ref = false) watched.

Definition remove_plan (planName : string) (n : HibernateNotification) : HibernateNotification :=
  let remaining := without_plan planName (ns_WatchedPlans (hn_Status n)) in
  let n := on_notification (set_ns_WatchedPlans remaining) n in
  if bool_decide (remaining = []) then on_notification (set_ns_State NotificationStateDetached) n else n.

Definition handleNotificationDeletion (key : NamespacedName) : NM unit :=
  let! r := nt_request (nt_get key) in
  match r with
  | inl _ => st_ret tt
  | inr notif =>
      do! (if negb (bool_decide (ns_WatchedPlans (hn_Status notif) = [])) ||
              negb (bool_decide (ns_State (hn_Status notif) = NotificationStateDetached))
           then send key clear_plans else st_ret tt) in
      removeFinalizer key
  end.

Definition upsertPlanRef (key : NotificationBindingKey) (notif : HibernateNotification) : NM unit :=
  let st := hn_Status notif in
  if existsb (is_plan (bk_PlanName key)) (ns_WatchedPlans st) &&
     (ns_ObservedGeneration st =? hn_Generation notif) &&
     bool_decide (ns_State st = NotificationStateBound)
  then st_ret tt
  else send (GetNotificationKey key) (upsert_plan (bk_PlanName key)).

Definition removePlanRef (key : NotificationBindingKey) (notif : HibernateNotification) : NM unit :=
  let watched := ns_WatchedPlans (hn_Status notif) in
  if negb (existsb (is_plan (bk_PlanName key)) watched) then st_ret tt
  else
    do! send (GetNotificationKey key) (remove_plan (bk_PlanName key)) in
    if bool_decide (without_plan (bk_PlanName key) watched = []) then removeFinalizer (GetNotificationKey key)
    else st_ret tt.

Definition handleBinding (key : NotificationBindingKey) (nc : NotificationContext) : NM unit :=
  match nc_Notification nc with
  | None => st_ret tt
  | Some notif =>
      if hn_Deleting notif then handleNotificationDeletion (GetNotificationKey key)
      else if nc_Matches nc then
        do! ensureFinalizer (GetNotificationKey key) in upsertPlanRef key notif
      else removePlanRef key notif
  end.

(** What [Start] does with an update. *)
Definition on_binding (update : BindingUpdate) : NM unit :=
  match update with
  | BindingStored key nc => handleBinding key nc
  | BindingDeleted key last =>
      match nc_Notification last with
      | Some notif => removePlanRef key notif
      | None => st_panic
      end
  end.

(** *** Delivery results *)

Definition delivery_entry (result : DeliveryResult) (old : option NotificationSinkStatus) : NotificationSinkStatus :=
  let ts := dr_Timestamp result in
  let '(name, plan, cycle, op, successes, failures, lastSuccess, lastFailure) :=
    match old with
    | Some e => (ss_SinkName e, ss_PlanRef e, ss_CycleID e, ss_Operation e, ss_SuccessCount e, ss_FailureCount e,
                 ss_LastSuccessTime e, ss_LastFailureTime e)
    | None => (dr_SinkName result, mkPlanReference (dr_PlanName result) (dr_PlanNamespace result), dr_CycleID result,
               dr_Operation result, 0, 0, None, None)
    end in
  if dr_Success result then
    mkSinkStatus name plan cycle op true ts (int32 (successes + 1)) failures (Some ts) lastFailure
      ("Successfully sent notification for " ++ dr_SinkName result) (dr_States result)
  else
    mkSinkStatus name plan cycle op false ts successes (int32 (failures + 1)) lastSuccess (Some ts)
      (default ("Failed to send notification for " ++ dr_SinkName result)%string (dr_Error result)) (dr_States result).

(** The entries of the map in the order of its iteration, then the newest first. *)
Definition newest_first (m : gmap string NotificationSinkStatus) : list (string * NotificationSinkStatus) :=
  sort_Slice (fun a b => After (ss_TransitionTimestamp a.2) (ss_TransitionTimestamp b.2))
    (omap (fun k => pair k <$> m !! k) (map_order (map fst (map_to_list m)))).

Definition plan_group (e : NotificationSinkStatus) : string :=
  (ss_SinkName e ++ "|" ++ pr_Namespace (ss_PlanRef e) ++ "/" ++ pr_Name (ss_PlanRef e))%string.

Fixpoint prune_groups (counts : gmap string Z) (all : list (string * NotificationSinkStatus))
  (m : gmap string NotificationSinkStatus) : gmap string NotificationSinkStatus :=
  match all with
  | [] => m
  | (key, e) :: all' =>
      let count := default 0 (counts !! plan_group e) + 1 in
      prune_groups (<[plan_group e := count]> counts) all'
        (if MaxSinkStatusCyclesPerPlan <? count then delete key m else m)
  end.

Definition pruneSinkStatusesPerPlan (m : gmap string NotificationSinkStatus) : gmap string NotificationSinkStatus :=
  if bool_decide (size m <= 1)%nat then m else prune_groups ∅ (newest_first m) m.

Definition pruneSinkStatusesToMaxEntries (m : gmap string NotificationSinkStatus) : gmap string NotificationSinkStatus :=
  if bool_decide (size m <= MaxSinkStatusEntries)%nat then m
  else fold_left (fun m kv => delete kv.1 m) (drop MaxSinkStatusEntries (newest_first m)) m.

(** The mutator of [HandleDeliveryResult]. *)
Definition record_delivery (result : DeliveryResult) : HibernateNotification -> HibernateNotification :=
  on_notification (fun st =>
    let m := ns_SinkStatuses st in
    let m := <[dr_ID result := delivery_entry result (m !! dr_ID result)]> m in
    let st :=
      if dr_Success result then set_ns_LastDeliveryTime (Some (dr_Timestamp result)) st
      else set_ns_LastFailureTime (Some (dr_Timestamp result)) st in
    set_ns_SinkStatuses (pruneSinkStatusesToMaxEntries (pruneSinkStatusesPerPlan m)) st).

Definition HandleDeliveryResult (result : DeliveryResult) : NM unit :=
  if ((dr_NotificationRef result).2 =? "")%string then st_ret tt
  else send (dr_NotificationRef result) (record_delivery result).
End lifecycle.
