(* ===== verification/NotificationSpec.v ===== *)
(** * What is promised of notifications

    The history of deliveries in the status of a notification is bounded and keeps the
    newest; the state of a notification agrees with the plans it watches; and after a
    reconciliation of a plan the notifications watch it exactly when their selectors
    match it. *)
From S2P Require Import Prelude Monad GoString GoTime Types Cluster Delivery PlanWebhook.
From S2P Require Import ExecutionUtils Params ParamsValidation Notification.
From Stdlib Require Import Lia.

Local Open Scope Z_scope.

(** ** The order of names *)

Lemma string_compare_cons a s b t : String.compare (String a s) (String b t) =
  match (N_of_ascii a ?= N_of_ascii b)%N with Eq => String.compare s t | Lt => Lt | Gt => Gt end.
Proof. reflexivity. Qed.

Lemma ltb_trans s t u : String.ltb s t = true -> String.ltb t u = true -> String.ltb s u = true.
Proof.
  unfold String.ltb. revert t u. induction s as [|a s IH]; intros [|b t] [|c u]; try done.
  rewrite !string_compare_cons.
  destruct (N.compare_spec (N_of_ascii a) (N_of_ascii b)) as [->| |]; [|destruct (N.compare_spec (N_of_ascii b) (N_of_ascii c)) as [<-| |]|]; try done.
  - destruct (N_of_ascii b ?= N_of_ascii c)%N; try done. apply IH.
  - intros _ _. by rewrite (proj2 (N.compare_lt_iff _ _)).
  - intros _ _. rewrite (proj2 (N.compare_lt_iff _ _)); [done|lia].
Qed.

Lemma ltb_irrefl s : String.ltb s s = false.
Proof.
  unfold String.ltb. induction s as [|a s IH]; [done|]. rewrite string_compare_cons, N.compare_refl. exact IH.
Qed.

Lemma ltb_total s t : String.ltb s t = false -> s <> t -> String.ltb t s = true.
Proof.
  unfold String.ltb. rewrite (String.compare_antisym s t). destruct (String.compare t s) eqn:E; try done.
  apply String.compare_eq_iff in E. by rewrite E.
Qed.

Lemma ltb_asym s t : String.ltb s t = true -> String.ltb t s = false.
Proof.
  intros H. apply not_true_is_false. intros H'. pose proof (ltb_trans _ _ _ H H') as Hs. by rewrite ltb_irrefl in Hs.
Qed.

Lemma ltb_negtrans s t u : String.ltb s t = false -> String.ltb t u = false -> String.ltb s u = false.
Proof.
  intros Hst Htu. destruct (decide (s = t)) as [->|Hn]; [done|]. destruct (decide (t = u)) as [<-|Hm]; [done|].
  apply ltb_asym. by eapply ltb_trans; apply ltb_total.
Qed.

(** ** The history of deliveries *)

Section history.
Context {HS : SortSlice} {HO : MapOrder}.
Implicit Types (m : gmap string NotificationSinkStatus) (l : list (string * NotificationSinkStatus)).

(** The first is not earlier than the second. *)
Definition not_earlier (x y : string * NotificationSinkStatus) : Prop :=
  After (ss_TransitionTimestamp y.2) (ss_TransitionTimestamp x.2) = false.
#[local] Instance not_earlier_dec x y : Decision (not_earlier x y).
Proof. unfold not_earlier. apply _. Defined.

(** How many entries of a history satisfy a property. *)
Definition entries (P : string * NotificationSinkStatus -> Prop) {HP : forall x, Decision (P x)} l : nat := length (filter P l).

Lemma newest_first_perm m : newest_first m ≡ₚ map_to_list m.
Proof.
  unfold newest_first. rewrite sort_Slice_perm, map_order_perm.
  assert (forall l, (forall kv, kv ∈ l -> m !! kv.1 = Some kv.2) ->
    omap (fun k => pair k <$> m !! k) (map fst l) = l) as H.
  { induction l as [|[k e] l IH]; intros Hl; [done|]. cbn.
    pose proof (Hl (k, e) ltac:(by left)) as Hk. cbn in Hk. rewrite Hk. cbn. f_equal. apply IH. intros kv Hkv. apply Hl. by right. }
  rewrite H; [done|]. intros [k e] Hk. by apply elem_of_map_to_list in Hk.
Qed.

Lemma not_earlier_trans x y z : not_earlier x y -> not_earlier y z -> not_earlier x z.
Proof. unfold not_earlier, After. intros. reflect. apply Z.ltb_ge. lia. Qed.

Lemma newest_first_sorted m : StronglySorted not_earlier (newest_first m).
Proof.
  unfold newest_first, not_earlier. apply sort_Slice_sorted; unfold After; intros; reflect; apply Z.ltb_ge; lia.
Qed.

(** The entries that [prune_groups] leaves. *)
Fixpoint kept (counts : gmap string Z) l : list (string * NotificationSinkStatus) :=
  match l with
  | [] => []
  | x :: l' =>
      let count := default 0 (counts !! plan_group x.2) + 1 in
      let rest := kept (<[plan_group x.2 := count]> counts) l' in
      if MaxSinkStatusCyclesPerPlan <? count then rest else x :: rest
  end.

Lemma delete_rest m k e l : map_to_list m ≡ₚ (k, e) :: l -> map_to_list (delete k m) ≡ₚ l.
Proof.
  intros H. assert (m !! k = Some e) as Hk by (apply elem_of_map_to_list; rewrite H; by left).
  apply (Permutation_cons_inv (a := (k, e))). by rewrite map_to_list_delete.
Qed.

Lemma prune_groups_kept l counts m rest :
  map_to_list m ≡ₚ l ++ rest -> map_to_list (prune_groups counts l m) ≡ₚ kept counts l ++ rest.
Proof.
  revert counts m rest. induction l as [|[k e] l IH]; intros counts m rest H; [done|]. cbn.
  destruct (MaxSinkStatusCyclesPerPlan <? _).
  - apply IH. by eapply delete_rest.
  - rewrite (IH _ _ ((k, e) :: rest)); [symmetry; apply Permutation_middle|]. rewrite H. apply Permutation_middle.
Qed.

Lemma kept_sublist l counts : kept counts l `sublist_of` l.
Proof.
  revert counts. induction l as [|x l IH]; intros counts; [done|]. cbn.
  destruct (_ <? _); [by apply sublist_cons|by apply sublist_skip].
Qed.

Definition in_group (g : string) (x : string * NotificationSinkStatus) : Prop := plan_group x.2 = g.
#[local] Instance in_group_dec g x : Decision (in_group g x).
Proof. unfold in_group. apply _. Defined.

Lemma kept_bounded l counts g :
  0 <= default 0 (counts !! g) ->
  default 0 (counts !! g) + Z.of_nat (entries (in_group g) (kept counts l)) <= Z.max (default 0 (counts !! g)) 2.
Proof.
  unfold entries. revert counts. induction l as [|x l IH]; intros counts Hc; cbn; [lia|].
  remember (default 0 (counts !! plan_group x.2) + 1) as c eqn:Hcd.
  specialize (IH (<[plan_group x.2 := c]> counts)).
  destruct (decide (plan_group x.2 = g)) as [<-|Hg].
  - rewrite lookup_insert_eq in IH. cbn in IH. specialize (IH ltac:(lia)).
    destruct (MaxSinkStatusCyclesPerPlan <? c) eqn:E; unfold MaxSinkStatusCyclesPerPlan in E; reflect; [lia|].
    rewrite filter_cons_True by done. cbn. lia.
  - rewrite lookup_insert_ne in IH by done. specialize (IH Hc).
    destruct (MaxSinkStatusCyclesPerPlan <? c); [done|]. by rewrite filter_cons_False.
Qed.

(** What is left out has two of its group before it. *)
Lemma kept_newest l counts x :
  StronglySorted not_earlier l -> x ∈ l -> x ∉ kept counts l ->
  2 <= default 0 (counts !! plan_group x.2) +
    Z.of_nat (entries (fun y => in_group (plan_group x.2) y /\ not_earlier y x) (kept counts l)).
Proof.
  unfold entries. revert counts. induction l as [|y l IH]; intros counts Hs Hx Hk; [by apply elem_of_nil in Hx|].
  apply StronglySorted_inv in Hs as [Hs Hy]. cbn in *.
  remember (default 0 (counts !! plan_group y.2) + 1) as c eqn:Hcd.
  specialize (IH (<[plan_group y.2 := c]> counts) Hs).
  destruct (MaxSinkStatusCyclesPerPlan <? c) eqn:E; unfold MaxSinkStatusCyclesPerPlan in E; reflect.
  - apply elem_of_cons in Hx as [->|Hx]; [lia|]. specialize (IH Hx Hk).
    destruct (decide (plan_group y.2 = plan_group x.2)) as [He|He].
    + rewrite <- He. lia.
    + by rewrite lookup_insert_ne in IH.
  - apply elem_of_cons in Hx as [->|Hx]; [set_solver|].
    assert (x ∉ kept (<[plan_group y.2 := c]> counts) l) as Hk' by set_solver.
    specialize (IH Hx Hk'). rewrite Forall_forall in Hy. specialize (Hy x Hx).
    destruct (decide (plan_group y.2 = plan_group x.2)) as [He|He].
    + rewrite He, lookup_insert_eq in IH. cbn in IH. rewrite filter_cons_True by done. cbn.
      rewrite He in Hcd |- *. lia.
    + rewrite lookup_insert_ne in IH by done. rewrite filter_cons_False; [done|]. unfold in_group. naive_solver.
Qed.

(** The entries that [pruneSinkStatusesToMaxEntries] leaves. *)
Lemma prune_rest l m rest :
  map_to_list m ≡ₚ rest ++ l -> map_to_list (fold_left (fun m kv => delete kv.1 m) l m) ≡ₚ rest.
Proof.
  revert m. induction l as [|[k e] l IH]; intros m H; cbn; [by rewrite app_nil_r in H|].
  apply IH. apply (delete_rest m k e). by rewrite H, Permutation_middle.
Qed.

Lemma length_kept_group l g : (entries (in_group g) (kept ∅ l) <= 2)%nat.
Proof. pose proof (kept_bounded l ∅ g). rewrite lookup_empty in H. cbn in H. lia. Qed.

#[local] Instance entries_proper P {HP : forall x, Decision (P x)} : Proper (Permutation ==> eq) (entries P).
Proof. intros l k H. unfold entries. by rewrite H. Qed.

Lemma entries_sublist P {HP : forall x, Decision (P x)} l k : l `sublist_of` k -> (entries P l <= entries P k)%nat.
Proof.
  unfold entries. induction 1 as [|x l k _ IH|x l k _ IH]; [done| |].
  - destruct (decide (P x)); [rewrite !filter_cons_True by done; cbn; lia|by rewrite !filter_cons_False].
  - destruct (decide (P x)); [rewrite (filter_cons_True _ _ k) by done; cbn; lia|by rewrite (filter_cons_False _ _ k)].
Qed.

Lemma entries_length P {HP : forall x, Decision (P x)} l : (entries P l <= length l)%nat.
Proof. apply length_filter. Qed.

Lemma entries_all P {HP : forall x, Decision (P x)} l : (forall x, x ∈ l -> P x) -> entries P l = length l.
Proof.
  unfold entries. induction l as [|x l IH]; intros H; [done|].
  rewrite filter_cons_True by (apply H; by left). cbn. f_equal. apply IH. intros y Hy. apply H. by right.
Qed.

Lemma elem_of_sublist {A} (l k : list A) x : l `sublist_of` k -> x ∈ l -> x ∈ k.
Proof. intros H Hx. by eapply elem_of_submseteq; [|apply sublist_submseteq]. Qed.

Lemma pruned_subset m m' l : map_to_list m' ≡ₚ l -> l `sublist_of` newest_first m -> m' ⊆ m.
Proof.
  intros Hl Hs. apply map_subseteq_spec. intros k e Hk. apply elem_of_map_to_list in Hk. rewrite Hl in Hk.
  apply (elem_of_sublist _ _ _ Hs) in Hk. rewrite newest_first_perm in Hk. by apply elem_of_map_to_list.
Qed.

(** The first prune. *)
Lemma prune_per_plan m (m' := pruneSinkStatusesPerPlan m) :
  m' ⊆ m /\ (forall g, entries (in_group g) (map_to_list m') <= 2)%nat /\
  forall k e, m !! k = Some e -> m' !! k = None ->
    (2 <= entries (fun y => in_group (plan_group e) y /\ not_earlier y (k, e)) (map_to_list m'))%nat.
Proof.
  unfold m', pruneSinkStatusesPerPlan. case_bool_decide as Hs.
  - split; [done|]. split; [|congruence].
    intros g. etrans; [apply entries_length|]. rewrite length_map_to_list. lia.
  - assert (map_to_list (prune_groups ∅ (newest_first m) m) ≡ₚ kept ∅ (newest_first m)) as Hp.
    { rewrite (prune_groups_kept _ _ _ []); [by rewrite app_nil_r|]. by rewrite app_nil_r, newest_first_perm. }
    split; [exact (pruned_subset _ _ _ Hp (kept_sublist _ _))|]. split; [intros g; rewrite Hp; apply length_kept_group|].
    intros k e Hk Hn. rewrite Hp. pose proof (kept_newest (newest_first m) ∅ (k, e) (newest_first_sorted m)) as H.
    rewrite lookup_empty in H. cbn in H. assert ((k, e) ∈ newest_first m) as Hin by (rewrite newest_first_perm; by apply elem_of_map_to_list).
    specialize (H Hin). rewrite <- Hp, elem_of_map_to_list, Hn in H. specialize (H ltac:(done)). rewrite Hp in H. lia.
Qed.

(** The second. *)
Lemma prune_to_max m (m' := pruneSinkStatusesToMaxEntries m) :
  m' ⊆ m /\ (size m' <= MaxSinkStatusEntries)%nat /\
  forall k e, m !! k = Some e -> m' !! k = None ->
    size m' = MaxSinkStatusEntries /\ forall y, y ∈ map_to_list m' -> not_earlier y (k, e).
Proof.
  unfold m', pruneSinkStatusesToMaxEntries. case_bool_decide as Hs; [split; [done|split; [done|congruence] ]|].
  set (n := MaxSinkStatusEntries) in *. set (m2 := fold_left _ _ _).
  pose proof (take_drop n (newest_first m)) as Hsplit.
  assert (map_to_list m2 ≡ₚ take n (newest_first m)) as Hp by (apply prune_rest; by rewrite Hsplit, newest_first_perm).
  assert (size m2 = n) as Hn.
  { rewrite <- length_map_to_list, Hp, length_take, newest_first_perm, length_map_to_list. lia. }
  split; [exact (pruned_subset _ _ _ Hp (sublist_take _ _))|]. split; [lia|].
  intros k e Hk Hd. split; [exact Hn|]. intros y Hy. rewrite Hp in Hy.
  assert ((k, e) ∈ newest_first m) as Hin by (rewrite newest_first_perm; by apply elem_of_map_to_list).
  rewrite <- Hsplit in Hin. apply elem_of_app in Hin as [Hin|Hin].
  - rewrite <- Hp in Hin. apply elem_of_map_to_list in Hin. congruence.
  - pose proof (newest_first_sorted m) as Hsort. rewrite <- Hsplit in Hsort.
    exact (StronglySorted_app_1_elem_of _ _ _ _ _ Hsort Hy Hin).
Qed.

Lemma entries_mono P {HP : forall x, Decision (P x)} m m' : m' ⊆ m ->
  (entries P (map_to_list m') <= entries P (map_to_list m))%nat.
Proof.
  intros Hs. unfold entries. apply submseteq_length, NoDup_submseteq; [apply NoDup_filter, NoDup_map_to_list|].
  intros [k e] Hy. rewrite list_elem_of_filter, elem_of_map_to_list in Hy |- *. destruct Hy as [Hp Hy].
  split; [exact Hp|]. by eapply lookup_weaken.
Qed.

Lemma entries_shrink P {HP : forall x, Decision (P x)} m m' : m' ⊆ m ->
  (forall k e, m !! k = Some e -> P (k, e) -> m' !! k <> None) -> (entries P (map_to_list m) <= entries P (map_to_list m'))%nat.
Proof.
  intros Hs Hk. unfold entries. apply submseteq_length, NoDup_submseteq; [apply NoDup_filter, NoDup_map_to_list|].
  intros [k e] Hy. apply list_elem_of_filter in Hy as [Hp Hy]. apply elem_of_map_to_list in Hy.
  apply list_elem_of_filter. split; [exact Hp|]. apply elem_of_map_to_list. specialize (Hk k e Hy Hp).
  destruct (m' !! k) as [e'|] eqn:E; [|done]. apply (lookup_weaken _ m) in E; [congruence|done].
Qed.

Lemma recorded_history result n :
  ns_SinkStatuses (hn_Status (record_delivery result n)) =
  pruneSinkStatusesToMaxEntries (pruneSinkStatusesPerPlan
    (<[dr_ID result := delivery_entry result (ns_SinkStatuses (hn_Status n) !! dr_ID result)]> (ns_SinkStatuses (hn_Status n)))).
Proof. unfold record_delivery, on_notification. by destruct n, (dr_Success result). Qed.

(** C25: A delivery is entered in the history of its notification, which then has at most
    500 entries and two for each sink and plan; what is dropped is not newer than two
    entries of its sink and plan that stay, or than 500 that stay. *)
Theorem record_delivery_history (result : DeliveryResult) (n : HibernateNotification) :
  let m := ns_SinkStatuses (hn_Status n) in
  let m1 := <[dr_ID result := delivery_entry result (m !! dr_ID result)]> m in
  let m' := ns_SinkStatuses (hn_Status (record_delivery result n)) in
  m' ⊆ m1 /\ (size m' <= 500)%nat /\
  (forall g, entries (in_group g) (map_to_list m') <= 2)%nat /\
  forall k e, m1 !! k = Some e -> m' !! k = None ->
    (2 <= entries (fun y => in_group (plan_group e) y /\ not_earlier y (k, e)) (map_to_list m') \/
     500 <= entries (fun y => not_earlier y (k, e)) (map_to_list m'))%nat.
Proof.
  intros m m1 m'.
  assert (m' = pruneSinkStatusesToMaxEntries (pruneSinkStatusesPerPlan m1)) as -> by apply recorded_history.
  destruct (prune_per_plan m1) as (H21 & Hg2 & Hold2). set (m2 := pruneSinkStatusesPerPlan m1) in *.
  destruct (prune_to_max m2) as (H2 & Hlen & Hold). set (m' := pruneSinkStatusesToMaxEntries m2) in *.
  split; [by etrans|]. split; [exact Hlen|]. split.
  { intros g. rewrite <- (Hg2 g). by apply entries_mono. }
  intros k e Hk Hd.
  assert (forall k2 e2, m2 !! k2 = Some e2 -> m' !! k2 = None -> not_earlier (k2, e2) (k, e) ->
    (500 <= entries (fun y => not_earlier y (k, e)) (map_to_list m'))%nat) as Hfull.
  { intros k2 e2 Hk2 Hd2 Hle. destruct (Hold k2 e2 Hk2 Hd2) as [Hs Hy].
    rewrite entries_all; [rewrite length_map_to_list, Hs; done|]. intros y Hin. by eapply not_earlier_trans; [apply Hy|]. }
  destruct (m2 !! k) as [e2|] eqn:Ek.
  { pose proof (lookup_weaken _ _ _ _ Ek H21) as He. rewrite Hk in He. injection He as <-.
    right. apply (Hfull k e Ek Hd). unfold not_earlier, After. apply Z.ltb_irrefl. }
  specialize (Hold2 k e Hk Ek). set (P := fun y => in_group (plan_group e) y /\ not_earlier y (k, e)) in *.
  destruct (decide (Exists (fun y => P y /\ m' !! y.1 = None) (map_to_list m2))) as [Hex|Hall].
  - apply Exists_exists in Hex as ([k2 e2] & Hy & [_ Hle] & Hd2). apply elem_of_map_to_list in Hy.
    right. exact (Hfull k2 e2 Hy Hd2 Hle).
  - left. etrans; [exact Hold2|]. apply entries_shrink; [exact H2|]. intros k2 e2 Hk2 Hp Hd2. apply Hall.
    apply Exists_exists. exists (k2, e2). by rewrite elem_of_map_to_list.
Qed.
End history.

(** ** The status of a notification *)

Section status.
Context {HS : SortSlice} {HO : MapOrder}.

Definition plan_names (st : HibernateNotificationStatus) : list string := map pr_Name (ns_WatchedPlans st).

(** A notification is bound exactly when it watches a plan; plans are listed once, in
    the order of their names, and the history is bounded. *)
Definition status_ok (st : HibernateNotificationStatus) : Prop :=
  (ns_State st = NotificationStateBound <-> ns_WatchedPlans st <> []) /\
  StronglySorted (fun a b => String.ltb a b = true) (plan_names st) /\
  (size (ns_SinkStatuses st) <= MaxSinkStatusEntries)%nat.

Definition keeps_ok (f : HibernateNotification -> HibernateNotification) : Prop :=
  forall n, status_ok (hn_Status n) -> status_ok (hn_Status (f n)).

Lemma watches_names name st : existsb (is_plan name) (ns_WatchedPlans st) = true <-> name ∈ plan_names st.
Proof.
  unfold plan_names, is_plan. rewrite existsb_spec, list_elem_of_fmap.
  split; intros (r & H1 & H2); exists r; [apply String.eqb_eq in H2; done|]. subst. by rewrite String.eqb_refl.
Qed.

Lemma sorted_names_NoDup (l : list string) : StronglySorted (fun a b => String.ltb a b = true) l -> NoDup l.
Proof.
  induction 1 as [|x l _ IH Hx]; [constructor|]. constructor; [|done]. intros Hin. rewrite Forall_forall in Hx.
  specialize (Hx x Hin). by rewrite ltb_irrefl in Hx.
Qed.

Lemma sort_names l : NoDup (map pr_Name l) ->
  StronglySorted (fun a b => String.ltb a b = true) (map pr_Name (sort_Slice name_less l)).
Proof.
  intros Hn. pose proof (sort_Slice_perm name_less l) as Hp. rewrite <- Hp in Hn.
  pose proof (sort_Slice_sorted name_less l (fun x y => ltb_asym _ _) (fun x y z => ltb_negtrans _ _ _)) as Hs.
  clear Hp. induction Hs as [|x k _ IH Hx]; cbn in *; [constructor|]. apply NoDup_cons in Hn as [Hni Hn].
  constructor; [by apply IH|]. apply Forall_fmap, Forall_forall. intros y Hy. rewrite Forall_forall in Hx.
  apply ltb_total; [by apply Hx|]. intros He. apply Hni. rewrite <- He. by apply list_elem_of_fmap_2.
Qed.

Lemma sorted_filter (P : PlanReference -> Prop) {HP : forall r, Decision (P r)} l :
  StronglySorted (fun a b => String.ltb a b = true) (map pr_Name l) ->
  StronglySorted (fun a b => String.ltb a b = true) (map pr_Name (filter P l)).
Proof.
  induction l as [|r l IH]; [done|]. intros H. cbn [map] in H. apply StronglySorted_inv in H as [Hs Hr].
  destruct (decide (P r)); [rewrite filter_cons_True by done|by rewrite filter_cons_False; [apply IH|] ].
  cbn. constructor; [by apply IH|]. rewrite Forall_forall in Hr |- *. intros y (z & -> & Hz)%list_elem_of_fmap.
  apply Hr. apply list_elem_of_filter in Hz as [_ Hz]. by apply list_elem_of_fmap_2.
Qed.

Lemma clear_plans_ok : keeps_ok clear_plans.
Proof. intros n (_ & _ & Hm). split; [done|]. split; [constructor|exact Hm]. Qed.

Lemma upsert_plan_ok name : keeps_ok (upsert_plan name).
Proof.
  intros n (_ & Hs & Hm). unfold upsert_plan. set (st := hn_Status n) in *.
  destruct (existsb _ _) eqn:E; (split; [split; [intros _|done]|split; [|exact Hm] ]); cbn.
  - intros Hn. by rewrite Hn in E.
  - exact Hs.
  - intros Hn. pose proof (sort_Slice_perm name_less (ns_WatchedPlans st ++ [mkPlanReference name ""])) as Hp.
    rewrite Hn in Hp. apply Permutation_length in Hp. rewrite length_app in Hp. cbn in Hp. lia.
  - apply sort_names. rewrite map_app. apply NoDup_app. split; [by apply sorted_names_NoDup|]. split; [|apply NoDup_singleton].
    intros x Hx ->%list_elem_of_singleton. apply watches_names in Hx. cbn in Hx. congruence.
Qed.

Lemma remove_plan_ok name : keeps_ok (remove_plan name).
Proof.
  intros n (Hb & Hs & Hm). unfold remove_plan, without_plan. set (st := hn_Status n) in *.
  case_bool_decide as E; (split; [|split; [cbn; by apply sorted_filter|exact Hm] ]); cbn.
  - by rewrite E.
  - split; [done|]. intros _. apply Hb. intros Hn. apply E. by rewrite Hn.
Qed.

Lemma record_delivery_ok result : keeps_ok (record_delivery result).
Proof.
  intros n (Hb & Hs & Hm).
  split; [|split].
  - unfold record_delivery. by destruct n, (dr_Success result).
  - unfold record_delivery, plan_names. by destruct n, (dr_Success result).
  - rewrite recorded_history. apply prune_to_max.
Qed.
End status.

(** ** Histories of a notification *)

Section histories.
Context {HC : NotificationClient} {HS : SortSlice} {HO : MapOrder}.

(** The notifications of the second client are among those of the first, with the
    status they had. *)
Definition same_statuses (c c' : NClient) : Prop := forall k n,
  nt_stored c' k = Some n -> exists n0, nt_stored c k = Some n0 /\ hn_Status n = hn_Status n0.

(** The requests of the processor are reads and patches of metadata; a notification
    may be gone after its last finalizer was removed. *)
Class NotificationLaws : Prop := {
  nt_get_status key c : same_statuses c (nt_get key c).2;
  nt_patch_status orig new c : same_statuses c (nt_patch orig new c).2;
}.
Context {HL : NotificationLaws}.

Definition fresh_status (st : HibernateNotificationStatus) : Prop :=
  ns_State st <> NotificationStateBound /\ ns_WatchedPlans st = [] /\ ns_SinkStatuses st = ∅.

(** What users do: they create and delete notifications, and change all but the status. *)
Definition edited (c c' : NClient) : Prop := forall k n, nt_stored c' k = Some n ->
  fresh_status (hn_Status n) \/ exists n0, nt_stored c k = Some n0 /\ hn_Status n = hn_Status n0.

(** What the status writer does with an update: it is written or it is not. *)
Definition written (u : NotificationUpdate) (c c' : NClient) : Prop := forall k n, nt_stored c' k = Some n ->
  exists n0, nt_stored c k = Some n0 /\
  (hn_Status n = hn_Status n0 \/
   k = nu_Key u /\ exists fresh, hn_Status fresh = hn_Status n0 /\ hn_Status n = hn_Status (nu_Mutator u fresh)).

Inductive notify_step (s : Notify) : Notify -> Prop :=
| step_binding u : notify_step s (on_binding u s).2
| step_delivery r : notify_step s (HandleDeliveryResult r s).2
| step_written q1 u q2 c' : nf_queue s = q1 ++ u :: q2 -> (forall v, v ∈ q1 -> nu_Key v <> nu_Key u) ->
    written u (nf_client s) c' -> notify_step s (mkNotify c' (q1 ++ q2))
| step_edited c' : edited (nf_client s) c' -> notify_step s (mkNotify c' (nf_queue s)).

Definition notify_ok (s : Notify) : Prop :=
  (forall k n, nt_stored (nf_client s) k = Some n -> status_ok (hn_Status n)) /\
  Forall (fun u => keeps_ok (nu_Mutator u)) (nf_queue s).

Lemma fresh_status_ok st : fresh_status st -> status_ok st.
Proof.
  intros (Hn & Hw & Hm). unfold status_ok, plan_names. rewrite Hw, Hm, map_size_empty.
  split; [done|]. split; [constructor|]. unfold MaxSinkStatusEntries. lia.
Qed.

Lemma same_statuses_ok c c' q : same_statuses c c' -> notify_ok (mkNotify c q) -> notify_ok (mkNotify c' q).
Proof. intros Hs [Hc Hq]. split; [|done]. intros k n Hk. destruct (Hs k n Hk) as (n0 & H0 & ->). by eapply Hc. Qed.

Lemma send_ok key f : keeps_ok f -> preserves notify_ok (send key f).
Proof.
  intros Hf. apply preserves_modify. intros s [Hc Hq]. split; [done|]. cbn. apply Forall_app. split; [done|]. by constructor.
Qed.

Lemma request_ok {A} (f : NClient -> (ApiError + A) * NClient) :
  (forall c, same_statuses c (f c).2) -> preserves notify_ok (nt_request f).
Proof.
  intros Hf [c q] Hs. unfold nt_request. cbn. specialize (Hf c). destruct (f c) as [r c']. cbn in *.
  by eapply same_statuses_ok.
Qed.

Lemma get_ok key : preserves notify_ok (nt_request (nt_get key)).
Proof. apply request_ok. intros c. apply nt_get_status. Qed.
Lemma patch_ok orig new : preserves notify_ok (nt_request (nt_patch orig new)).
Proof. apply request_ok. intros c. apply nt_patch_status. Qed.

Ltac notify_preserves :=
  repeat first
    [ apply preserves_ret | apply preserves_panic
    | apply get_ok | apply patch_ok
    | apply send_ok; auto using clear_plans_ok, upsert_plan_ok, remove_plan_ok, record_delivery_ok
    | apply preserves_bind; [|intros ?]
    | split_match ].

Lemma on_binding_ok u : preserves notify_ok (on_binding u).
Proof.
  unfold on_binding, handleBinding, handleNotificationDeletion, upsertPlanRef, removePlanRef, ensureFinalizer, removeFinalizer.
  notify_preserves.
Qed.

Lemma HandleDeliveryResult_ok r : preserves notify_ok (HandleDeliveryResult r).
Proof. unfold HandleDeliveryResult. notify_preserves. Qed.

Lemma notify_step_ok s s' : notify_step s s' -> notify_ok s -> notify_ok s'.
Proof.
  intros [u|r|q1 u q2 c' Hq _ Hw|c' He] Hs; [by apply on_binding_ok|by apply HandleDeliveryResult_ok| |]; destruct Hs as [Hc Hf].
  - rewrite Hq in Hf. apply Forall_app in Hf as [Hf1 [Hu Hf2]%Forall_cons]. split; [|by apply Forall_app].
    intros k n Hk. destruct (Hw k n Hk) as (n0 & H0 & [->|(-> & f & Hf & ->)]); [by eapply Hc|].
    apply Hu. rewrite Hf. by eapply Hc.
  - split; [|done]. intros k n Hk. destruct (He k n Hk) as [Hn|(n0 & H0 & ->)]; [by apply fresh_status_ok|by eapply Hc].
Qed.

(** C24: Whatever bindings are handled, deliveries are recorded and updates are written
    or lost, in whatever order, and however requests end, a stored notification is
    bound exactly when it watches a plan, lists its plans once and in order, and has a
    bounded history. *)
Theorem notification_status_invariant s s' key n :
  (forall k n, nt_stored (nf_client s) k = Some n -> fresh_status (hn_Status n)) -> nf_queue s = [] ->
  rtc notify_step s s' -> nt_stored (nf_client s') key = Some n -> status_ok (hn_Status n).
Proof.
  intros Hf Hq Hr Hn. assert (notify_ok s) as Hs.
  { split; [|by rewrite Hq]. intros k m Hk. apply fresh_status_ok. by eapply Hf. }
  clear Hf Hq. induction Hr as [s|s s1 s2 Hstep _ IH]; [by eapply Hs|].
  apply IH; [done|]. by eapply notify_step_ok.
Qed.
End histories.

(** ** A reconciliation and the plans that are watched *)

Section synchronise.
Context {HC : NotificationClient} {HS : SortSlice} {HO : MapOrder} {HV : LabelValidation} {HM : LabelMatching}.
Context (key_order : list NotificationBindingKey -> list NotificationBindingKey)
  (key_order_perm : forall l, key_order l ≡ₚ l).

Definition watches (planName : string) (n : HibernateNotification) : bool :=
  existsb (is_plan planName) (ns_WatchedPlans (hn_Status n)).

(** The updates for a notification, applied in the order in which they were queued. *)
Definition apply_queued (key : NamespacedName) (us : list NotificationUpdate) (n : HibernateNotification) : HibernateNotification :=
  fold_left (fun n u => if bool_decide (nu_Key u = key) then nu_Mutator u n else n) us n.

Lemma apply_other key us n : Forall (fun u => nu_Key u <> key) us -> apply_queued key us n = n.
Proof. induction 1 as [|u us Hu _ IH]; [done|]. cbn. by rewrite bool_decide_eq_false_2. Qed.

Lemma apply_queued_app key us vs n : apply_queued key (us ++ vs) n = apply_queued key vs (apply_queued key us n).
Proof. apply fold_left_app. Qed.

Lemma watches_elem name st : existsb (is_plan name) st = true <-> exists r, r ∈ st /\ pr_Name r = name.
Proof. unfold is_plan. rewrite existsb_spec. by setoid_rewrite String.eqb_eq. Qed.

Lemma upsert_watches p q n : watches q (upsert_plan p n) = (q =? p)%string || watches q n.
Proof.
  apply eq_true_iff_eq. rewrite orb_true_iff, String.eqb_eq. unfold watches, upsert_plan. cbn.
  destruct (existsb (is_plan p) _) eqn:E; rewrite !watches_elem; [rewrite watches_elem in E; naive_solver|].
  setoid_rewrite sort_Slice_perm. setoid_rewrite elem_of_app. setoid_rewrite list_elem_of_singleton. naive_solver.
Qed.

Lemma without_plan_elem p r l : r ∈ without_plan p l <-> r ∈ l /\ pr_Name r <> p.
Proof. unfold without_plan, is_plan. rewrite list_elem_of_filter, String.eqb_neq. tauto. Qed.

Lemma remove_watches p q n : watches q (remove_plan p n) = negb (q =? p)%string && watches q n.
Proof.
  apply eq_true_iff_eq. rewrite andb_true_iff, negb_true_iff, String.eqb_neq.
  assert (ns_WatchedPlans (hn_Status (remove_plan p n)) = without_plan p (ns_WatchedPlans (hn_Status n))) as E.
  { unfold remove_plan. by case_bool_decide. }
  unfold watches. rewrite E, !watches_elem. setoid_rewrite without_plan_elem. naive_solver.
Qed.

Definition update_context (u : BindingUpdate) : NotificationContext :=
  match u with BindingStored _ nc => nc | BindingDeleted _ last => last end.
Definition update_key (u : BindingUpdate) : NotificationBindingKey :=
  match u with BindingStored key _ => key | BindingDeleted key _ => key end.

(** The binding of a notification that is not being deleted, or the end of one. *)
Definition of_live (u : BindingUpdate) : Prop :=
  match u with
  | BindingStored _ nc => exists n, nc_Notification nc = Some n /\ hn_Deleting n = false
  | BindingDeleted _ last => nc_Notification last <> None
  end.

(** What handling an update queues: it is for the notification of the update; it
    leaves other plans alone; and when the notification that is stored watches the
    plan exactly if the one of the binding did, it watches it afterwards exactly if
    it matches. *)
Definition queues (u : BindingUpdate) (us : list NotificationUpdate) : Prop :=
  let key := GetNotificationKey (update_key u) in
  Forall (fun v => nu_Key v = key) us /\
  (forall n q, q <> bk_PlanName (update_key u) -> watches q (apply_queued key us n) = watches q n) /\
  match u with
  | BindingStored k nc => forall n n', nc_Notification nc = Some n ->
      watches (bk_PlanName k) n' = watches (bk_PlanName k) n ->
      watches (bk_PlanName k) (apply_queued key us n') = nc_Matches nc
  | BindingDeleted _ _ => True
  end.

(** The run ends, and has queued these updates. *)
Definition ran (m : NM unit) (s : Notify) (us : list NotificationUpdate) : Prop :=
  exists c, m s = (Ok tt, mkNotify c (nf_queue s ++ us)).

Lemma ran_finalizer key s : ran (ensureFinalizer key) s [] /\ ran (removeFinalizer key) s [].
Proof.
  unfold ran, ensureFinalizer, removeFinalizer, st_bind, nt_request, st_ret. rewrite app_nil_r.
  destruct (nt_get key (nf_client s)) as [ [e|n] c]; cbn; [eauto|].
  destruct (has_finalizer n); cbn; split; eauto; destruct (nt_patch _ _ _) as [r c']; eauto.
Qed.

Lemma ran_bind m k s us vs : ran m s us -> (forall s, ran (k tt) s vs) -> ran (st_bind m k) s (us ++ vs).
Proof.
  intros [c Hm] Hk. unfold ran, st_bind. rewrite Hm. destruct (Hk (mkNotify c (nf_queue s ++ us))) as [c' ->].
  exists c'. by rewrite app_assoc.
Qed.

Lemma ran_nothing s : ran (st_ret tt) s [].
Proof. unfold ran. rewrite app_nil_r. destruct s. by eexists. Qed.

Lemma ran_removePlanRef key notif s : exists us, ran (removePlanRef key notif) s us /\
  Forall (fun v => nu_Key v = GetNotificationKey key) us /\
  (forall n q, q <> bk_PlanName key -> watches q (apply_queued (GetNotificationKey key) us n) = watches q n) /\
  forall n', watches (bk_PlanName key) n' = watches (bk_PlanName key) notif ->
    watches (bk_PlanName key) (apply_queued (GetNotificationKey key) us n') = false.
Proof.
  unfold removePlanRef. destruct (existsb _ _) eqn:E; cbn [negb].
  - exists ([mkNotificationUpdate (GetNotificationKey key) (remove_plan (bk_PlanName key))] ++ []).
    assert (forall n, apply_queued (GetNotificationKey key)
      ([mkNotificationUpdate (GetNotificationKey key) (remove_plan (bk_PlanName key))] ++ []) n = remove_plan (bk_PlanName key) n) as Hap
      by (intros n; cbn; by rewrite bool_decide_eq_true_2).
    split; [|split; [by repeat constructor|split] ].
    + apply ran_bind; [by eexists|]. intros s'. case_bool_decide; [apply ran_finalizer|apply ran_nothing].
    + intros n q Hq. by rewrite Hap, remove_watches, (proj2 (String.eqb_neq _ _) Hq).
    + intros n' _. by rewrite Hap, remove_watches, String.eqb_refl.
  - exists []. split; [apply ran_nothing|]. split; [constructor|]. split; [done|]. intros n' Hn'. etrans; [exact Hn'|exact E].
Qed.

Lemma ran_upsertPlanRef key notif s : exists us, ran (upsertPlanRef key notif) s us /\
  Forall (fun v => nu_Key v = GetNotificationKey key) us /\
  (forall n q, q <> bk_PlanName key -> watches q (apply_queued (GetNotificationKey key) us n) = watches q n) /\
  forall n', watches (bk_PlanName key) n' = watches (bk_PlanName key) notif ->
    watches (bk_PlanName key) (apply_queued (GetNotificationKey key) us n') = true.
Proof.
  unfold upsertPlanRef. destruct (_ && _ && _) eqn:E.
  - apply andb_true_iff in E as [ [E _]%andb_true_iff _].
    exists []. split; [apply ran_nothing|]. split; [constructor|]. split; [done|]. intros n' Hn'. etrans; [exact Hn'|exact E].
  - exists [mkNotificationUpdate (GetNotificationKey key) (upsert_plan (bk_PlanName key))].
    assert (forall n, apply_queued (GetNotificationKey key)
      [mkNotificationUpdate (GetNotificationKey key) (upsert_plan (bk_PlanName key))] n = upsert_plan (bk_PlanName key) n) as Hap
      by (intros n; cbn; by rewrite bool_decide_eq_true_2).
    split; [by eexists|]. split; [by repeat constructor|]. split.
    + intros n q Hq. by rewrite Hap, upsert_watches, (proj2 (String.eqb_neq _ _) Hq).
    + intros n' _. by rewrite Hap, upsert_watches, String.eqb_refl.
Qed.

Lemma ran_on_binding u s : of_live u -> exists us, ran (on_binding u) s us /\ queues u us.
Proof.
  destruct u as [key nc|key last]; cbn [of_live on_binding].
  - intros (notif & En & Ed). unfold handleBinding. rewrite En, Ed. destruct (nc_Matches nc) eqn:Em.
    + destruct (ran_finalizer (GetNotificationKey key) s) as [ [c Hc] _].
      destruct (ran_upsertPlanRef key notif (mkNotify c (nf_queue s))) as (us & Hr & Hk & Ho & Hw). exists us. split.
      * destruct Hr as [c' Hr]. exists c'. rewrite app_nil_r in Hc. unfold st_bind. by rewrite Hc, Hr.
      * split; [done|]. split; [done|]. intros n n' Hn Hs. rewrite En in Hn. injection Hn as <-. rewrite Em. by apply Hw.
    + destruct (ran_removePlanRef key notif s) as (us & Hr & Hk & Ho & Hw). exists us. split; [exact Hr|].
      split; [done|]. split; [done|]. intros n n' Hn Hs. rewrite En in Hn. injection Hn as <-. rewrite Em. by apply Hw.
  - intros Hl. destruct (nc_Notification last) as [notif|]; [|done].
    destruct (ran_removePlanRef key notif s) as (us & Hr & Hk & Ho & _). by exists us.
Qed.

Lemma ran_on_bindings us s : Forall of_live us ->
  exists vss, Forall2 queues us vss /\ ran (st_iter on_binding us) s (concat vss).
Proof.
  intros H. revert s. induction H as [|u us Hu _ IH]; intros s.
  - exists []. split; [constructor|]. apply ran_nothing.
  - destruct (ran_on_binding u s Hu) as (vs & [c Hr] & Hq).
    destruct (IH (mkNotify c (nf_queue s ++ vs))) as (vss & Hqs & [c' Hrs]). exists (vs :: vss).
    split; [by constructor|]. exists c'. cbn [st_iter concat]. unfold st_bind. rewrite Hr, Hrs. cbn. by rewrite app_assoc.
Qed.

Lemma queued_elsewhere key us vss : Forall2 queues us vss ->
  Forall (fun u => GetNotificationKey (update_key u) <> key) us -> Forall (fun v => nu_Key v <> key) (concat vss).
Proof.
  induction 1 as [|u vs us vss Hq _ IH]; [constructor|]. intros [Hu Hus]%Forall_cons. cbn. apply Forall_app.
  split; [|by apply IH]. destruct Hq as [Hk _]. eapply Forall_impl; [exact Hk|]. cbn. congruence.
Qed.

(** Updates about one plan leave the others alone. *)
Lemma other_plans p key q us vss n : Forall2 queues us vss -> Forall (fun u => bk_PlanName (update_key u) = p) us ->
  q <> p -> watches q (apply_queued key (concat vss) n) = watches q n.
Proof.
  intros H Hp Hq. revert n Hp. induction H as [|u vs us vss Hu _ IH]; intros n Hp; [done|].
  apply Forall_cons in Hp as [Hp Hps]. cbn [concat]. rewrite apply_queued_app, IH by done.
  destruct Hu as (Hk & Ho & _). destruct (decide (GetNotificationKey (update_key u) = key)) as [<-|Hne].
  - apply Ho. congruence.
  - rewrite apply_other; [done|]. eapply Forall_impl; [exact Hk|]. cbn. congruence.
Qed.

(** When one of the updates is for a notification, it decides. *)
Lemma one_update us1 key nc us2 vss n n' : Forall2 queues (us1 ++ BindingStored key nc :: us2) vss ->
  Forall (fun u => GetNotificationKey (update_key u) <> GetNotificationKey key) (us1 ++ us2) ->
  nc_Notification nc = Some n -> watches (bk_PlanName key) n' = watches (bk_PlanName key) n ->
  watches (bk_PlanName key) (apply_queued (GetNotificationKey key) (concat vss) n') = nc_Matches nc.
Proof.
  intros Hq Ho Hn Hs. apply Forall2_app_inv_l in Hq as (vss1 & vss2 & H1 & H2 & ->).
  apply Forall2_cons_inv_l in H2 as (vs & vss2' & (_ & _ & Hw) & H2 & ->). apply Forall_app in Ho as [Ho1 Ho2].
  rewrite concat_app. cbn. rewrite !apply_queued_app.
  rewrite (apply_other _ (concat vss1)) by (by eapply queued_elsewhere).
  rewrite (apply_other _ (concat vss2')) by (by eapply queued_elsewhere). by apply (Hw n).
Qed.

(** *** Publication *)

(** What the provider keeps of its bindings: they have a notification, those of a
    plan are tracked under its key, and only those. *)
Record well_published (b : Bindings) : Prop := {
  published_notification : forall k nc, bn_map b !! k = Some nc -> nc_Notification nc <> None;
  published_key : forall pk ks k, bn_tracker b !! pk = Some ks -> k ∈ ks -> bk_Namespace k = pk.1 /\ bk_PlanName k = pk.2;
  published_tracked : forall k nc, bn_map b !! k = Some nc -> k ∈ default ∅ (bn_tracker b !! (bk_Namespace k, bk_PlanName k));
}.

(** The notifications that are stored watch a plan exactly if their last binding to
    it says that it matches. *)
Definition agrees (st : NamespacedName -> option HibernateNotification) (b : Bindings) : Prop :=
  forall k nc n, bn_map b !! k = Some nc -> st (GetNotificationKey k) = Some n -> watches (bk_PlanName k) n = nc_Matches nc.

Definition binding_key (planKey : NamespacedName) (n : HibernateNotification) : NotificationBindingKey :=
  mkBindingKey (hn_Namespace n) (hn_Name n) planKey.2.
Definition binding_of (planKey : NamespacedName) (labels : gmap string string) (n : HibernateNotification) : NotificationContext :=
  mkNotificationContext (Some n) planKey labels (label_matches (hn_Selector n) labels).

(** The binding of a notification is not equal to the one before, so that it is
    delivered. *)
Definition is_news (planKey : NamespacedName) (labels : gmap string string) (b : Bindings) (n : HibernateNotification) : bool :=
  match bn_map b !! binding_key planKey n with
  | Some old => negb (NotificationContext_Equal old (binding_of planKey labels n))
  | None => true
  end.

Definition stored_update planKey labels (n : HibernateNotification) : BindingUpdate :=
  BindingStored (binding_key planKey n) (binding_of planKey labels n).

Lemma binding_key_inj planKey n n' : binding_key planKey n = binding_key planKey n' -> notification_key n = notification_key n'.
Proof. unfold binding_key, notification_key. intros [= -> ->]. done. Qed.

Lemma binding_key_fresh planKey n items :
  notification_key n ∉ map notification_key items -> binding_key planKey n ∉ map (binding_key planKey) items.
Proof.
  intros Hn (n' & He & Hn')%list_elem_of_fmap. apply Hn. rewrite (binding_key_inj _ _ _ He). by apply list_elem_of_fmap_2.
Qed.

(** The loop stores the binding of every item, and delivers the new ones. *)
Lemma publish_loop_run planKey labels items matched keys b :
  NoDup (map notification_key items) ->
  (forall n, n ∈ items -> hn_Namespace n = planKey.1 /\ valid_label_selector (hn_Selector n) = true) ->
  exists b', publish_loop planKey labels items matched keys b =
    (Some (matched ++ filter (fun n => label_matches (hn_Selector n) labels = true) items,
           list_to_set (map (binding_key planKey) items) ∪ keys), b') /\
  bn_updates b' = bn_updates b ++ map (stored_update planKey labels) (filter (fun n => is_news planKey labels b n = true) items) /\
  bn_tracker b' = bn_tracker b /\
  (forall n, n ∈ items -> bn_map b' !! binding_key planKey n = Some (binding_of planKey labels n)) /\
  (forall k, k ∉ map (binding_key planKey) items -> bn_map b' !! k = bn_map b !! k).
Proof.
  revert matched keys b. induction items as [|n items IH]; intros matched keys b Hnd Hi.
  { exists b. cbn. rewrite !app_nil_r, (left_id_L ∅ (∪)). split; [done|]. split; [done|]. split; [done|]. split; [set_solver|done]. }
  apply NoDup_cons in Hnd as [Hn Hnd]. destruct (Hi n ltac:(by left)) as (Hns & Hv).
  pose proof (binding_key_fresh planKey n items Hn) as Hfr.
  cbn [publish_loop]. unfold selects, NewNotificationBindingKey. rewrite Hv. cbn [notification_key fst snd].
  rewrite Hns, String.eqb_refl. cbn [negb]. rewrite <- Hns. fold (binding_key planKey n) (binding_of planKey labels n).
  set (b1 := binding_Store (binding_key planKey n) (binding_of planKey labels n) b).
  assert (bn_updates b1 = bn_updates b ++ if is_news planKey labels b n then [stored_update planKey labels n] else []) as Hu by done.
  assert (forall k, k <> binding_key planKey n -> bn_map b1 !! k = bn_map b !! k) as Hm1
    by (intros k Hk; apply lookup_insert_ne; congruence).
  destruct (IH (if label_matches (hn_Selector n) labels then matched ++ [n] else matched)
              ({[binding_key planKey n]} ∪ keys) b1 Hnd) as (b' & Hp & Hup & Ht & Hs & Hm).
  { intros n' Hn'. apply Hi. by right. }
  exists b'. split; [|split; [|split; [by rewrite Ht|split] ] ].
  - rewrite Hp. f_equal. f_equal. f_equal.
    + destruct (label_matches (hn_Selector n) labels) eqn:El; [rewrite filter_cons_True by done; by rewrite <- app_assoc|].
      by rewrite filter_cons_False by congruence.
    + cbn. set_solver.
  - rewrite Hup, Hu, <- app_assoc. f_equal.
    assert (filter (fun n => is_news planKey labels b1 n = true) items = filter (fun n => is_news planKey labels b n = true) items) as ->.
    { apply filter_true_ext. intros n' Hn'. unfold is_news. rewrite Hm1; [done|].
      intros He. apply Hfr. rewrite <- He. by apply list_elem_of_fmap_2. }
    rewrite filter_cons. by destruct (is_news planKey labels b n).
  - intros n' [->|Hn']%elem_of_cons; [|by apply Hs]. rewrite Hm by done. apply lookup_insert_eq.
  - intros k Hk. cbn [map] in Hk. rewrite Hm by set_solver. apply Hm1. set_solver.
Qed.

(** Stale bindings are deleted. *)
Lemma delete_all_run (keys : gset NotificationBindingKey) b :
  (forall k nc, bn_map b !! k = Some nc -> nc_Notification nc <> None) ->
  exists dels, bn_updates (delete_all key_order keys b) = bn_updates b ++ dels /\
  Forall (fun u => of_live u /\ update_key u ∈ keys) dels /\
  (forall k, bn_map (delete_all key_order keys b) !! k = if decide (k ∈ keys) then None else bn_map b !! k) /\
  bn_tracker (delete_all key_order keys b) = bn_tracker b.
Proof.
  intros Hb. unfold delete_all.
  assert (forall l, (forall k, k ∈ l -> k ∈ keys) -> exists dels,
    bn_updates (fold_left (fun s k => binding_Delete k s) l b) = bn_updates b ++ dels /\
    Forall (fun u => of_live u /\ update_key u ∈ keys) dels /\
    (forall k, bn_map (fold_left (fun s k => binding_Delete k s) l b) !! k = if decide (k ∈ l) then None else bn_map b !! k) /\
    bn_tracker (fold_left (fun s k => binding_Delete k s) l b) = bn_tracker b) as H.
  { intros l. revert b Hb. induction l as [|k l IH]; intros b Hb Hl.
    - exists []. rewrite app_nil_r. done.
    - destruct (IH (binding_Delete k b)) as (dels & Hu & Hf & Hm & Ht).
      + intros k' nc. cbn. rewrite lookup_delete_Some. intros [_ H]. by eapply Hb.
      + intros k' Hk. apply Hl. by right.
      + cbn [fold_left]. rewrite Hu, Ht. eexists. split; [cbn; by rewrite <- app_assoc|]. split; [|split; [|done] ].
        * apply Forall_app. split; [|done]. destruct (bn_map b !! k) as [last|] eqn:E; [|done].
          constructor; [|done]. split; [by eapply Hb|]. apply Hl. by left.
        * intros k'. rewrite Hm. cbn [bn_map binding_Delete]. destruct (decide (k' ∈ l)) as [Hin|Hni].
          -- by rewrite decide_True by (by right).
          -- destruct (decide (k' = k)) as [->|Hne]; [rewrite decide_True by (by left); apply lookup_delete_eq|].
             rewrite decide_False by (by intros [->|?]%elem_of_cons). by apply lookup_delete_ne. }
  destruct (H (key_order (elements keys))) as (dels & H1 & H2 & H3 & H4).
  { intros k. rewrite key_order_perm. by rewrite elem_of_elements. }
  exists dels. split; [done|]. split; [done|]. split; [|done]. intros k. rewrite H3.
  destruct (decide (k ∈ key_order (elements keys))) as [Hk|Hk], (decide (k ∈ keys)); try done;
    rewrite key_order_perm, elem_of_elements in Hk; done.
Qed.

(** The updates of one reconciliation: of the plan, and each of a notification that is
    listed, once, or of one that is not. *)
Lemma tracked_elsewhere planKey items ks k n :
  (forall k, k ∈ ks -> bk_Namespace k = planKey.1 /\ bk_PlanName k = planKey.2) ->
  k ∈ ks ∖ (list_to_set (map (binding_key planKey) items) : gset NotificationBindingKey) -> n ∈ items ->
  GetNotificationKey k <> notification_key n.
Proof.
  intros Ht [Hk Hnk]%elem_of_difference Hn He. apply Hnk, elem_of_list_to_set, list_elem_of_fmap. exists n. split; [|done].
  destruct (Ht k Hk) as [_ Hp]. unfold binding_key. destruct k as [ns nm pn]. cbn in *.
  unfold GetNotificationKey, notification_key in He. cbn in He. injection He as -> ->. by rewrite Hp.
Qed.

Lemma notification_key_inj items n n' :
  NoDup (map notification_key items) -> n ∈ items -> n' ∈ items -> notification_key n = notification_key n' -> n = n'.
Proof.
  intros Hnd Hn Hn' He. apply list_elem_of_lookup in Hn as [i Hi]. apply list_elem_of_lookup in Hn' as [j Hj].
  assert (i = j) as ->.
  { apply (NoDup_lookup _ i j (notification_key n) Hnd); rewrite list_lookup_fmap; [by rewrite Hi|by rewrite Hj, He]. }
  rewrite Hi in Hj. by injection Hj.
Qed.

Lemma NoDup_map_filter {A B} (f : A -> B) (p : A -> bool) l : NoDup (map f l) -> NoDup (map f (filter (fun x => p x = true) l)).
Proof.
  induction l as [|x l IH]; [done|]. cbn [map]. intros [Hx Hl]%NoDup_cons. rewrite filter_cons.
  case_decide; [|by apply IH]. cbn [map]. constructor; [|by apply IH].
  intros (y & He & [_ Hy]%list_elem_of_filter)%list_elem_of_fmap. apply Hx. rewrite He. by apply list_elem_of_fmap_2.
Qed.

(** The notifications that are listed, after the updates of the reconciliation. *)
Lemma listed_settled planKey labels items ks b st dels vss n n' :
  agrees st b -> NoDup (map notification_key items) ->
  (forall k, k ∈ ks -> bk_Namespace k = planKey.1 /\ bk_PlanName k = planKey.2) ->
  Forall (fun u => update_key u ∈ ks ∖ (list_to_set (map (binding_key planKey) items) : gset NotificationBindingKey)) dels ->
  Forall2 queues (map (stored_update planKey labels) (filter (fun n => is_news planKey labels b n = true) items) ++ dels) vss ->
  n ∈ items -> st (notification_key n) = Some n' -> watches planKey.2 n' = watches planKey.2 n ->
  watches planKey.2 (apply_queued (notification_key n) (concat vss) n') = label_matches (hn_Selector n) labels.
Proof.
  intros Hag Hnd Hks Hd Hq Hn Hst Hw. pose proof (NoDup_map_filter notification_key (is_news planKey labels b) items Hnd) as Hndf.
  assert (Forall (fun u => GetNotificationKey (update_key u) <> notification_key n) dels) as Hdels.
  { apply (Forall_impl _ _ _ Hd). intros u Hu. by apply (tracked_elsewhere planKey items ks). }
  destruct (is_news planKey labels b n) eqn:Enews.
  - assert (n ∈ filter (fun n => is_news planKey labels b n = true) items) as Hin by by apply list_elem_of_filter.
    apply list_elem_of_split in Hin as (l1 & l2 & El). rewrite El in Hq, Hndf.
    rewrite map_app, map_cons, <- app_assoc in Hq. cbn [app] in Hq.
    apply (one_update _ (binding_key planKey n) (binding_of planKey labels n) _ _ n n') in Hq; [exact Hq| |done|exact Hw].
    rewrite map_app, map_cons in Hndf. apply NoDup_app in Hndf as (_ & Hx1 & [Hx2 _]%NoDup_cons).
    change (GetNotificationKey (binding_key planKey n)) with (notification_key n).
    rewrite !Forall_app, !Forall_fmap. split; [|split; [|done] ]; apply Forall_forall; intros m Hm He.
    + apply (Hx1 (notification_key m)); [by apply list_elem_of_fmap_2|].
      change (notification_key m = notification_key n) in He. rewrite He. by left.
    + change (notification_key m = notification_key n) in He. apply Hx2. rewrite <- He. by apply list_elem_of_fmap_2.
  - rewrite apply_other.
    + unfold is_news in Enews. destruct (bn_map b !! binding_key planKey n) as [old|] eqn:E; [|done].
      apply negb_false_iff in Enews. unfold NotificationContext_Equal in Enews.
      apply andb_true_iff in Enews as [ [ [Em _]%andb_true_iff _]%andb_true_iff _]. apply Bool.eqb_prop in Em.
      change (watches (bk_PlanName (binding_key planKey n)) n' = nc_Matches (binding_of planKey labels n)).
      rewrite <- Em. by apply (Hag (binding_key planKey n)).
    + eapply queued_elsewhere; [exact Hq|]. apply Forall_app. split; [|exact Hdels]. apply Forall_fmap, Forall_forall.
      intros m [Hm Hmi]%list_elem_of_filter He. change (notification_key m = notification_key n) in He.
      rewrite (notification_key_inj items m n Hnd Hmi Hn He) in Hm. congruence.
Qed.

(** What a reconciliation leaves in the map: the bindings of the listed notifications,
    and those of the other plans. *)
Definition rebound (planKey : NamespacedName) labels (items : list HibernateNotification) (b b' : Bindings) : Prop :=
  forall k nc, bn_map b' !! k = Some nc ->
    (exists n, n ∈ items /\ k = binding_key planKey n /\ nc = binding_of planKey labels n) \/
    bn_map b !! k = Some nc /\ (bk_Namespace k, bk_PlanName k) <> planKey.

Lemma rebound_well_published planKey labels items b b' :
  well_published b -> (forall n, n ∈ items -> hn_Namespace n = planKey.1) -> rebound planKey labels items b b' ->
  bn_tracker b' = <[planKey := list_to_set (map (binding_key planKey) items)]> (bn_tracker b) -> well_published b'.
Proof.
  intros [Hb Ht Htr] Hns Hre Etr. split.
  - intros k nc Hk. destruct (Hre k nc Hk) as [(n & _ & _ & ->)|[H _] ]; [done|by eapply Hb].
  - rewrite Etr. intros pk ks k [ [<- <-]|[_ H] ]%lookup_insert_Some; [|by eapply Ht].
    rewrite elem_of_list_to_set, list_elem_of_fmap. intros (n & -> & Hn). split; [by apply Hns|done].
  - rewrite Etr. intros k nc Hk. destruct (Hre k nc Hk) as [(n & Hn & -> & _)|[H Hne] ].
    + replace (bk_Namespace (binding_key planKey n), bk_PlanName (binding_key planKey n)) with planKey
        by (destruct planKey; cbn; f_equal; symmetry; by apply Hns).
      rewrite lookup_insert_eq. cbn. apply elem_of_list_to_set. by apply list_elem_of_fmap_2.
    + rewrite lookup_insert_ne by congruence. by eapply Htr.
Qed.

Lemma reconciled_map planKey labels items b b1 :
  well_published b ->
  (forall n, n ∈ items -> bn_map b1 !! binding_key planKey n = Some (binding_of planKey labels n)) ->
  (forall k, k ∉ map (binding_key planKey) items -> bn_map b1 !! k = bn_map b !! k) ->
  forall b', (forall k, bn_map b' !! k =
    if decide (k ∈ default ∅ (bn_tracker b !! planKey) ∖ list_to_set (map (binding_key planKey) items)) then None
    else bn_map b1 !! k) -> rebound planKey labels items b b'.
Proof.
  intros [_ _ Htr] Hs Hm b' Hb' k nc. rewrite Hb'. destruct (decide (k ∈ _ ∖ _)) as [|Hnd]; [done|]. intros Hk.
  destruct (decide (k ∈ map (binding_key planKey) items)) as [Hin|Hni].
  - apply list_elem_of_fmap in Hin as (n & -> & Hn). rewrite Hs in Hk by done. injection Hk as <-. left. eauto.
  - right. rewrite Hm in Hk by done. split; [done|]. intros He. apply Hnd, elem_of_difference. split.
    + rewrite <- He. by eapply Htr.
    + by rewrite elem_of_list_to_set.
Qed.

(** C23: A reconciliation of a plan keeps the bindings and the watched plans in step.
    Given that the notifications of its namespace could be listed, each once, none of
    them being deleted or with an invalid selector; that those that are stored watch a
    plan exactly when their last binding to it matched; and that a notification, as it
    was listed, watches this plan exactly when it does so as it is stored: after the
    bindings have been published, the updates that were delivered have been handled,
    and what these queued has been written, every listed notification watches the plan
    exactly when its selector matches the labels of the plan, also those whose binding
    was equal to the one before and was not delivered, every stored notification
    watches the other plans as before, and bindings and watched plans are in step
    again. *)
Theorem bindings_synchronise planKey labels items b s st :
  well_published b -> agrees st b -> NoDup (map notification_key items) ->
  (forall n, n ∈ items -> hn_Namespace n = planKey.1 /\ hn_Deleting n = false /\
    valid_label_selector (hn_Selector n) = true /\
    forall n', st (notification_key n) = Some n' -> watches planKey.2 n' = watches planKey.2 n) ->
  exists b' us c vs,
    fetchAndPublishNotifications key_order planKey labels (inr items) b =
      (Some (filter (fun n => label_matches (hn_Selector n) labels = true) items), b') /\
    bn_updates b' = bn_updates b ++ us /\
    st_iter on_binding us s = (Ok tt, mkNotify c (nf_queue s ++ vs)) /\
    (forall n n', n ∈ items -> st (notification_key n) = Some n' ->
      watches planKey.2 (apply_queued (notification_key n) vs n') = label_matches (hn_Selector n) labels) /\
    (forall key q n', q <> planKey.2 -> watches q (apply_queued key vs n') = watches q n') /\
    well_published b' /\ agrees (fun key => apply_queued key vs <$> st key) b'.
Proof.
  intros Hwp Hag Hnd Hi.
  destruct (publish_loop_run planKey labels items [] ∅ b Hnd) as (b1 & Hp & Hu1 & Ht1 & Hs1 & Hm1); [naive_solver|].
  rewrite (right_id_L ∅ (∪)) in Hp.
  assert (forall k nc, bn_map b1 !! k = Some nc -> nc_Notification nc <> None) as Hb1.
  { intros k nc Hk. destruct (decide (k ∈ map (binding_key planKey) items)) as [Hin|Hni].
    - apply list_elem_of_fmap in Hin as (n & -> & Hn). rewrite Hs1 in Hk by done. by injection Hk as <-.
    - rewrite Hm1 in Hk by done. by apply (published_notification b Hwp k). }
  set (keys := list_to_set (map (binding_key planKey) items) : gset NotificationBindingKey) in *.
  set (ks := default ∅ (bn_tracker b !! planKey)).
  destruct (delete_all_run (ks ∖ keys) b1 Hb1) as (dels & Hu2 & Hd & Hm2 & Ht2).
  set (news := filter (fun n => is_news planKey labels b n = true) items) in *.
  assert (forall k, k ∈ ks -> bk_Namespace k = planKey.1 /\ bk_PlanName k = planKey.2) as Hks.
  { unfold ks. intros k Hk. destruct (bn_tracker b !! planKey) as [ks0|] eqn:E; [|set_solver].
    by apply (published_key b Hwp planKey ks0). }
  destruct (ran_on_bindings (map (stored_update planKey labels) news ++ dels) s) as (vss & Hq & c & Hr).
  { apply Forall_app. split; [|eapply Forall_impl; [exact Hd|]; by intros u [? _] ].
    apply Forall_fmap, Forall_forall. intros n [_ Hn]%list_elem_of_filter. exists n. split; [done|]. by destruct (Hi n Hn) as (_ & ? & _). }
  assert (forall n n', n ∈ items -> st (notification_key n) = Some n' ->
    watches planKey.2 (apply_queued (notification_key n) (concat vss) n') = label_matches (hn_Selector n) labels) as Hlisted.
  { intros n n' Hn Hst. destruct (Hi n Hn) as (_ & _ & _ & Hw).
    apply (listed_settled planKey labels items ks b st dels vss n n' Hag Hnd Hks); [|exact Hq|done|done|by apply Hw].
    apply (Forall_impl _ _ _ Hd). by intros u [_ Hu]. }
  assert (forall key q n', q <> planKey.2 -> watches q (apply_queued key (concat vss) n') = watches q n') as Hothers.
  { intros key q n' Hne. apply (other_plans planKey.2 key q _ _ n' Hq); [|done]. apply Forall_app. split.
    - by apply Forall_fmap, Forall_forall.
    - apply (Forall_impl _ _ _ Hd). intros u [_ [Hu _]%elem_of_difference]. by destruct (Hks _ Hu). }
  set (b' := tracker_Reconcile key_order planKey keys b1).
  assert (rebound planKey labels items b b') as Hre.
  { apply (reconciled_map planKey labels items b b1 Hwp Hs1 Hm1). unfold b', tracker_Reconcile. cbn [bn_map]. rewrite Ht1. exact Hm2. }
  exists b', (map (stored_update planKey labels) news ++ dels), c, (concat vss).
  split; [cbn [fetchAndPublishNotifications]; by rewrite Hp|].
  split; [unfold b', tracker_Reconcile; cbn [bn_updates]; rewrite Ht1; etrans; [exact Hu2|]; by rewrite Hu1, <- app_assoc|].
  split; [exact Hr|]. split; [exact Hlisted|]. split; [exact Hothers|]. split.
  - apply (rebound_well_published planKey labels items b b' Hwp); [by intros n Hn; destruct (Hi n Hn)|exact Hre|].
    unfold b', tracker_Reconcile. cbn [bn_tracker]. rewrite Ht1. f_equal. etrans; [exact Ht2|exact Ht1].
  - intros k nc n Hk Hst. apply fmap_Some in Hst as (n0 & Hst & ->).
    destruct (Hre k nc Hk) as [(m & Hm & -> & ->)|[Hold Hne] ]; [by apply Hlisted|].
    rewrite <- (Hag k nc n0 Hold Hst). destruct (decide (bk_PlanName k = planKey.2)) as [He|]; [|by apply Hothers].
    rewrite apply_other; [done|]. eapply queued_elsewhere; [exact Hq|].
    assert (bk_Namespace k <> planKey.1) as Hns by (intros Hns; apply Hne; rewrite Hns, He; by destruct planKey).
    apply Forall_app. split.
    + apply Forall_fmap, Forall_forall. intros m [_ Hm]%list_elem_of_filter Hkey.
      apply Hns. destruct (Hi m Hm) as [<- _]. cbn in Hkey. unfold GetNotificationKey in Hkey. cbn in Hkey. congruence.
    + apply (Forall_impl _ _ _ Hd). intros u [_ [Hu _]%elem_of_difference] Hkey. apply Hns.
      destruct (Hks _ Hu) as [<- _]. unfold GetNotificationKey in Hkey. congruence.
Qed.
End synchronise.

(** ** Notifications to evaluate the lifecycle on *)

Module NotificationSamples.
#[export] Instance labels_valid : LabelValidation := {| valid_label_selector _ := true |}.
#[export] Instance labels_match : LabelMatching := {|
  label_matches sel labels := forallb (fun kv => bool_decide (labels !! kv.1 = Some kv.2)) (map_to_list (ls_MatchLabels sel));
|}.
#[export] Instance listed_order : MapOrder := {| map_order l := l; map_order_perm l := Permutation_refl l |}.
#[export] Existing Instance MergeSort.merge_sort_slice.

(** A server without faults. *)
#[export] Instance notifications_in_memory : NotificationClient := {|
  NClient := gmap NamespacedName HibernateNotification;
  nt_stored c k := c !! k;
  nt_get k c := (match c !! k with Some n => inr n | None => inl NotFound end, c);
  nt_patch orig new c :=
    match c !! notification_key orig with
    | Some n => let n' := set_hn_Finalizers (hn_Finalizers new) n in (inr n', <[notification_key orig := n']> c)
    | None => (inl NotFound, c)
    end;
|}.

#[export] Instance notifications_in_memory_laws : NotificationLaws.
Proof.
  split.
  - intros key c k n Hk. exists n. done.
  - intros orig new c k n. cbn. split_match; cbn; [|intros Hk; exists n; done].
    destruct (decide (notification_key orig = k)) as [<-|Hn].
    + rewrite lookup_insert_eq. intros [= <-]. eexists. split; [done|]. by destruct h.
    + rewrite lookup_insert_ne by done. intros Hk. exists n. done.
Qed.

Definition no_status : HibernateNotificationStatus :=
  mkNotificationStatus (NotificationStateOther "") [] None None ∅ 0.
Definition watching (plans : list string) : HibernateNotificationStatus :=
  mkNotificationStatus NotificationStateBound (map (fun p => mkPlanReference p "") plans) None None ∅ 1.
Definition sample (name env : string) (st : HibernateNotificationStatus) : HibernateNotification :=
  mkNotification name "team" "uid" "1" 1 false [] (mkLabelSelector {[ "env" := env ]} []) [EventStart] [] st.

Definition shop : NamespacedName := ("team", "shop").
Definition dev_labels : gmap string string := {[ "env" := "dev" ]}.

Definition server (n : HibernateNotification) : Notify := mkNotify {[ notification_key n := n ]} [].
Definition bound_update (n : HibernateNotification) : BindingUpdate := stored_update shop dev_labels n.

(** The writer carries out the first update of the queue. *)
Definition write_first (s : Notify) : Notify :=
  match nf_queue s with
  | [] => s
  | u :: q => mkNotify (alter (fun n => set_hn_Status (hn_Status (nu_Mutator u n)) n) (nu_Key u) (nf_client s)) q
  end.

Lemma write_first_steps s : rtc notify_step s (write_first s).
Proof.
  unfold write_first. destruct (nf_queue s) as [|u q] eqn:Hq; [reflexivity|]. apply rtc_once.
  apply (step_written s [] u q); [exact Hq|by intros v ?%elem_of_nil|].
  intros k n. cbn. destruct (decide (nu_Key u = k)) as [<-|Hn].
  - rewrite lookup_alter_eq. intros (n0 & H0 & ->)%fmap_Some. exists n0. split; [exact H0|]. right. split; [done|].
    exists n0. by destruct n0.
  - rewrite lookup_alter_ne by done. intros Hk. exists n. split; [exact Hk|by left].
Qed.

Definition at_minute (m : Z) : time := mkTime (m * Minute) UTC.
Definition delivery (cycle op : string) (minute : Z) : DeliveryResult :=
  mkDeliveryResult ("chat|team/shop|" ++ cycle ++ "|" ++ op)%string ("team", "on-dev") "chat" "team" "shop" cycle op
    (at_minute minute) true None ∅.

Definition on_dev : HibernateNotification := sample "on-dev" "dev" no_status.
Definition on_prod : HibernateNotification := sample "on-prod" "prod" (watching ["shop"]).

Definition bound_server : Notify :=
  write_first (write_first (HandleDeliveryResult (delivery "c1" "shutdown" 1) (on_binding (bound_update on_dev) (server on_dev)).2).2).
Definition bound_notification : option HibernateNotification := nt_stored (nf_client bound_server) ("team", "on-dev").

Example bound_status :
  (fun n => (ns_State (hn_Status n), plan_names (hn_Status n), hn_Finalizers n)) <$> bound_notification =
  Some (NotificationStateBound, ["shop"], [NotificationFinalizerName]).
Proof. vm_compute. reflexivity. Qed.

Definition nothing_published : Bindings := mkBindings ∅ [] ∅.

Definition published : option (list HibernateNotification) * Bindings :=
  fetchAndPublishNotifications id shop dev_labels (inr [on_dev; on_prod]) nothing_published.

Example published_bindings :
  (map hn_Name <$> published.1, length (bn_updates published.2)) = (Some ["on-dev"], 2%nat).
Proof. vm_compute. reflexivity. Qed.

(** *** What the comments of the code do not expect *)

(** The selector of a notification has changed from the plan [shop] to the plan [pay]:
    only [pay] is reconciled, and the notification goes on watching [shop]. *)
Example unmatched_plan_not_reconciled :
  findPlansForNotification (sample "on-dev" "dev" (watching ["shop"]))
    (inr [(shop, {[ "env" := "prod" ]}); (("team", "pay"), {[ "env" := "dev" ]})]) = [("team", "pay")].
Proof. vm_compute. reflexivity. Qed.

(** Labels that differ in the key of an empty value compare as equal. *)
Example empty_labels_equal : labels_equal {[ "a" := "" ]} {[ "b" := "" ]} = true.
Proof. vm_compute. reflexivity. Qed.

(** The plan [pay] is bound and then [shop] unbound, of a notification that was listed
    when it watched [shop] alone: it ends as bound, without its finalizer. *)
Definition listed_before : HibernateNotification := set_hn_Finalizers [NotificationFinalizerName] (sample "on-dev" "dev" (watching ["shop"])).
Definition rebound : Notify :=
  write_first (write_first
    (st_iter on_binding
      [BindingStored (mkBindingKey "team" "on-dev" "pay") (mkNotificationContext (Some listed_before) ("team", "pay") dev_labels true);
       BindingStored (mkBindingKey "team" "on-dev" "shop") (mkNotificationContext (Some listed_before) shop ∅ false)]
      (server listed_before)).2).

Example bound_without_finalizer :
  (fun n => (ns_State (hn_Status n), plan_names (hn_Status n), hn_Finalizers n)) <$> nt_stored (nf_client rebound) ("team", "on-dev") =
  Some (NotificationStateBound, ["pay"], []).
Proof. vm_compute. reflexivity. Qed.

(** A plan that stops to match and matches again, both times with the notification as
    it was listed before the first change was written: it is not watched. *)
Definition matched_again : Notify :=
  write_first
    (st_iter on_binding
      [BindingStored (mkBindingKey "team" "on-dev" "shop") (mkNotificationContext (Some listed_before) shop ∅ false);
       BindingStored (mkBindingKey "team" "on-dev" "shop") (mkNotificationContext (Some listed_before) shop dev_labels true)]
      (server listed_before)).2.

Example stale_snapshot_unwatched :
  ((fun n => (ns_State (hn_Status n), plan_names (hn_Status n))) <$> nt_stored (nf_client matched_again) ("team", "on-dev"),
   length (nf_queue matched_again)) = (Some (NotificationStateDetached, []), 0%nat).
Proof. vm_compute. reflexivity. Qed.

(** Two entries are kept for a sink and plan, and a cycle has one for each of its
    operations: what is kept after the shutdown of the second cycle. *)
Example one_cycle_and_a_half :
  sort_strings (map fst (map_to_list (ns_SinkStatuses (hn_Status
    (record_delivery (delivery "c2" "shutdown" 30)
      (record_delivery (delivery "c1" "wakeup" 20) (record_delivery (delivery "c1" "shutdown" 10) on_dev))))))) =
  ["chat|team/shop|c1|wakeup"; "chat|team/shop|c2|shutdown"].
Proof. vm_compute. reflexivity. Qed.
End NotificationSamples.

Section witnesses.
Import NotificationSamples.

Lemma notification_status_invariant_witness :
  exists n, bound_notification = Some n /\ status_ok (hn_Status n) /\ ns_State (hn_Status n) = NotificationStateBound.
Proof.
  destruct bound_notification as [n|] eqn:E; [|by vm_compute in E]. exists n. split; [done|]. split.
  - apply (notification_status_invariant (server on_dev) bound_server ("team", "on-dev") n); [|done| |exact E].
    + intros k m Hk. cbn in Hk. apply lookup_singleton_Some in Hk as [_ <-]. by repeat split.
    + eapply rtc_l; [apply (step_binding _ (bound_update on_dev))|].
      eapply rtc_l; [apply (step_delivery _ (delivery "c1" "shutdown" 1))|].
      etrans; apply write_first_steps.
  - pose proof bound_status as H. rewrite E in H. by injection H.
Defined.

(** The plan [shop] was of the development and watched by [on_dev]; it moves to
    production, and [on_prod] watches it instead. *)
Definition prod_labels : gmap string string := {[ "env" := "prod" ]}.
Definition dev_watched : HibernateNotification := sample "on-dev" "dev" (watching ["shop"]).
Definition prod_idle : HibernateNotification := sample "on-prod" "prod" no_status.
Definition stored_notifications (key : NamespacedName) : option HibernateNotification :=
  if decide (key = ("team", "on-dev")) then Some dev_watched
  else if decide (key = ("team", "on-prod")) then Some prod_idle else None.
Definition dev_binding : NotificationBindingKey := mkBindingKey "team" "on-dev" "shop".
Definition dev_published : Bindings :=
  mkBindings {[ dev_binding := mkNotificationContext (Some on_dev) shop dev_labels true ]} [] {[ shop := {[ dev_binding ]} ]}.

Lemma bindings_synchronise_witness :
  exists b' us c vs,
    fetchAndPublishNotifications id shop prod_labels (inr [dev_watched; prod_idle]) dev_published = (Some [prod_idle], b') /\
    st_iter on_binding us (server on_dev) = (Ok tt, mkNotify c vs) /\
    watches "shop" (apply_queued ("team", "on-dev") vs dev_watched) = false /\
    watches "shop" (apply_queued ("team", "on-prod") vs prod_idle) = true.
Proof.
  destruct (bindings_synchronise id (fun l => Permutation_refl l) shop prod_labels [dev_watched; prod_idle] dev_published
              (server on_dev) stored_notifications)
    as (b' & us & c & vs & Hf & _ & Hr & Hw & _).
  - split.
    + intros k nc Hk. cbn [dev_published bn_map bn_tracker] in Hk. apply lookup_singleton_Some in Hk as [<- <-]. done.
    + intros pk ks k Hk. cbn [dev_published bn_map bn_tracker] in Hk. apply lookup_singleton_Some in Hk as [<- <-]. intros ->%elem_of_singleton. done.
    + intros k nc Hk. cbn [dev_published bn_map bn_tracker] in Hk. apply lookup_singleton_Some in Hk as [<- <-]. vm_compute. done.
  - intros k nc n Hk. cbn [dev_published bn_map bn_tracker] in Hk. apply lookup_singleton_Some in Hk as [<- <-]. vm_compute. by intros [= <-].
  - repeat constructor; set_solver.
  - intros n Hn. apply elem_of_cons in Hn as [->|Hn%list_elem_of_singleton]; [|subst n];
      (split; [done|]; split; [done|]; split; [done|]; vm_compute; by intros n' [= <-]).
  - exists b', us, c, vs. split; [exact Hf|]. split; [exact Hr|].
    split; [apply (Hw dev_watched); [by left|done]|apply (Hw prod_idle); [by right; left|done] ].
Defined.
End witnesses.
