(* ===== verification/Pipeline.v ===== *)
(** * Latest-wins handoff ([pkg/conflate], [LatestWinsSlot] in pkg/keyedworker/slot.go)

    A [Pipeline] keeps one value.  [Send] stores it under the mutex and then signals
    without blocking; the receiver waits for the signal and reads the value under the
    mutex.  The two halves of each are steps of their own, of any number of senders and
    of one receiver.  The plan worker takes its deliveries from such a slot. *)
From S2P Require Import Prelude.
From Stdlib Require Import Lia.

Section pipeline.
Context {V : Type}.

(** The value and the channel [ready], of capacity one; the number of senders that have
    stored and not signalled yet; whether the receiver has taken a signal and not read
    yet.  What was stored and what was received are kept, and how much had been stored
    when the slot was last drained. *)
Record Pipeline := mkPipeline {
  pp_val : option V;
  pp_ready : bool;
  pp_sending : nat;
  pp_signalled : bool;
  pp_stored : list V;
  pp_received : list V;
  pp_drained : nat;
}.

Definition new_pipeline : Pipeline := mkPipeline None false 0 false [] [] 0.

(** The first half of [Send]. *)
Definition send_store (v : V) (s : Pipeline) : Pipeline :=
  mkPipeline (Some v) (pp_ready s) (S (pp_sending s)) (pp_signalled s) (pp_stored s ++ [v]) (pp_received s) (pp_drained s).

(** The second: a signal that is pending already is enough. *)
Definition send_signal (s : Pipeline) : option Pipeline :=
  match pp_sending s with
  | O => None
  | S n => Some (mkPipeline (pp_val s) true n (pp_signalled s) (pp_stored s) (pp_received s) (pp_drained s))
  end.

(** [<-C()]. *)
Definition take_signal (s : Pipeline) : option Pipeline :=
  if pp_ready s && negb (pp_signalled s)
  then Some (mkPipeline (pp_val s) false (pp_sending s) true (pp_stored s) (pp_received s) (pp_drained s))
  else None.

(** [Recv], which is called after a signal. *)
Definition recv (s : Pipeline) : option Pipeline :=
  if pp_signalled s
  then Some (mkPipeline (pp_val s) (pp_ready s) (pp_sending s) false (pp_stored s)
               (pp_received s ++ match pp_val s with Some v => [v] | None => [] end) (pp_drained s))
  else None.

(** [Drain] and [Len] of the slot. *)
Definition drain (s : Pipeline) : Pipeline :=
  mkPipeline (pp_val s) false (pp_sending s) (pp_signalled s) (pp_stored s) (pp_received s) (length (pp_stored s)).
Definition slot_len (s : Pipeline) : nat := if pp_ready s then 1 else 0.

(** What is left of the calls that have begun. *)
Inductive finish_step (s : Pipeline) : Pipeline -> Prop :=
| step_signal s' : send_signal s = Some s' -> finish_step s s'
| step_take s' : take_signal s = Some s' -> finish_step s s'
| step_recv s' : recv s = Some s' -> finish_step s s'.

Inductive pipeline_step (s : Pipeline) : Pipeline -> Prop :=
| step_finish s' : finish_step s s' -> pipeline_step s s'
| step_store v : pipeline_step s (send_store v s)
| step_drain : pipeline_step s (drain s).

(** Nothing is under way and no signal is pending. *)
Definition quiet (s : Pipeline) : Prop := pp_sending s = 0%nat /\ pp_ready s = false /\ pp_signalled s = false.

(** *** The invariant *)

(** The values were read at the positions [at_] of what was stored; unless something is
    left to do, the last that was read is the last that was stored. *)
Record pipeline_inv (s : Pipeline) (at_ : list nat) : Prop := {
  inv_val : pp_val s = last (pp_stored s);
  inv_received : mapM (fun i => pp_stored s !! i) at_ = Some (pp_received s);
  inv_order : StronglySorted le at_;
  inv_drained : (pp_drained s <= length (pp_stored s))%nat;
  inv_pending : quiet s -> pp_drained s = length (pp_stored s) \/ exists i, last at_ = Some i /\ S i = length (pp_stored s);
  inv_stored : quiet s \/ pp_stored s <> [];
}.

Lemma mapM_app_one (f : nat -> option V) l k i v :
  mapM f l = Some k -> f i = Some v -> mapM f (l ++ [i]) = Some (k ++ [v]).
Proof. rewrite !mapM_Some. intros H Hi. apply Forall2_app; [done|by repeat constructor]. Qed.

Lemma mapM_bound (l : list V) at_ k : mapM (fun i => l !! i) at_ = Some k -> Forall (fun i => i < length l)%nat at_.
Proof.
  rewrite mapM_Some. induction 1 as [|i v at_ k Hi _ IH]; constructor; [|done]. by eapply lookup_lt_Some.
Qed.

Lemma last_lookup_length (l : list V) : l <> [] -> exists v, last l = Some v /\ l !! (length l - 1)%nat = Some v.
Proof.
  intros Hl. destruct (last l) as [v|] eqn:E; [|by apply last_None in E]. exists v. split; [done|].
  rewrite last_lookup in E. by rewrite Nat.sub_1_r.
Qed.

Lemma sorted_snoc (l : list nat) i : StronglySorted le l -> Forall (fun j => j <= i)%nat l -> StronglySorted le (l ++ [i]).
Proof.
  intros Hl Hi. apply StronglySorted_app_2; [|done|by repeat constructor].
  intros x y Hx ->%list_elem_of_singleton. rewrite Forall_forall in Hi. by apply Hi.
Qed.

Lemma pipeline_step_inv s s' at_ : pipeline_step s s' -> pipeline_inv s at_ ->
  exists at', pipeline_inv s' (at_ ++ at').
Proof.
  destruct s as [val ready sending sig stored received drained]. intros Hstep [Hv Hr Ho Hd Hp Hn]. cbn in *.
  destruct Hstep as [s' [s'' Hs|s'' Hs|s'' Hs]|v|]; unfold send_signal, take_signal, recv in *; cbn in *.
  - destruct sending as [|n]; [done|]. injection Hs as <-. exists []. rewrite app_nil_r.
    split; cbn; try done; [by intros (_ & ? & _)|]. right. by destruct Hn as [(? & _)|].
  - destruct ready, sig; try done. injection Hs as <-. exists []. rewrite app_nil_r.
    split; cbn; try done; [by intros (_ & _ & ?)|]. right. by destruct Hn as [(_ & ? & _)|].
  - destruct sig; [|done]. injection Hs as <-. assert (stored <> []) as Hne by (by destruct Hn as [(_ & _ & ?)|]).
    destruct (last_lookup_length stored Hne) as (v & Hl & Hi). exists [(length stored - 1)%nat].
    assert (0 < length stored)%nat by (destruct stored; [done|cbn; lia]).
    split; cbn; try done.
    + rewrite Hv, Hl. by apply mapM_app_one.
    + apply sorted_snoc; [done|]. eapply Forall_impl; [by eapply mapM_bound|]. cbn. lia.
    + intros _. right. exists (length stored - 1)%nat. rewrite last_snoc. split; [done|lia].
    + by right.
  - exists []. rewrite app_nil_r. split; cbn.
    + by rewrite last_snoc.
    + apply mapM_Some. apply mapM_Some in Hr. eapply Forall2_impl; [exact Hr|]. intros i w Hi. cbn in Hi |- *. by apply lookup_app_l_Some.
    + done.
    + rewrite length_app. lia.
    + by intros (? & _).
    + right. by destruct stored.
  - exists []. rewrite app_nil_r. split; cbn; try done; [intros _; by left|]. destruct Hn as [(H1 & _ & H3)|Hn]; [by left|by right].
Qed.

Lemma pipeline_reachable s : rtc pipeline_step new_pipeline s -> exists at_, pipeline_inv s at_.
Proof.
  intros H. cut (exists at_, pipeline_inv new_pipeline at_).
  - intros [at_ Hi]. revert at_ Hi. induction H as [s|s s1 s2 Hs _ IH]; intros at_ Hi; [by exists at_|].
    destruct (pipeline_step_inv _ _ _ Hs Hi) as [at' Hi']. by eapply IH.
  - exists []. split; cbn; try done; [constructor|by left|by left].
Qed.

(** *** Progress *)

Lemma finish_keeps s s' : rtc finish_step s s' -> pp_stored s' = pp_stored s /\ pp_drained s' = pp_drained s.
Proof.
  induction 1 as [s|s s1 s2 Hs _ [IH1 IH2] ]; [done|]. rewrite IH1, IH2. destruct s as [val ready sending sig stored received drained].
  destruct Hs as [s1 Hs|s1 Hs|s1 Hs]; unfold send_signal, take_signal, recv in Hs; cbn in Hs.
  - destruct sending; [done|]. by injection Hs as <-.
  - destruct (_ && _); [|done]. by injection Hs as <-.
  - destruct sig; [|done]. by injection Hs as <-.
Qed.

Lemma finish_all s : exists s', rtc finish_step s s' /\ quiet s'.
Proof.
  destruct s as [val ready sending sig stored received drained]. revert ready.
  induction sending as [|n IH]; intros ready.
  - assert (forall ready received, exists s', rtc finish_step (mkPipeline val ready 0 false stored received drained) s' /\ quiet s') as Hidle.
    { intros [|] received'; [|by eexists; split; [reflexivity|] ].
      eexists. split; [eapply rtc_l; [by eapply step_take|]; eapply rtc_l; [by eapply step_recv|]; reflexivity|done]. }
    destruct sig; [|apply Hidle].
    destruct (Hidle ready (received ++ match val with Some v => [v] | None => [] end)) as (s' & Hs & Hq).
    exists s'. split; [|exact Hq]. eapply rtc_l; [by eapply step_recv|]. exact Hs.
  - destruct (IH true) as (s' & Hs & Hq). exists s'. split; [|exact Hq]. eapply rtc_l; [by eapply step_signal|]. exact Hs.
Qed.

(** C29: In every interleaving, values are received in the order in which they were
    stored, and what is under way can end, by itself, with the last value received,
    unless it was drained. *)
Theorem latest_wins s : rtc pipeline_step new_pipeline s ->
  (exists at_, StronglySorted le at_ /\ mapM (fun i => pp_stored s !! i) at_ = Some (pp_received s)) /\
  (exists s', rtc finish_step s s' /\ quiet s') /\
  forall s', rtc finish_step s s' -> quiet s' ->
    pp_drained s = length (pp_stored s) \/ last (pp_received s') = last (pp_stored s).
Proof.
  intros Hs. destruct (pipeline_reachable s Hs) as [at_ Hi]. split; [exists at_; split; apply Hi|].
  split; [apply finish_all|]. intros s' Hf Hq. destruct (finish_keeps _ _ Hf) as [Hst Hdr].
  destruct (pipeline_reachable s') as [at' Hi'].
  { etrans; [exact Hs|]. clear -Hf. induction Hf as [s|s s1 s2 H _ IH]; [reflexivity|]. eapply rtc_l; [by apply step_finish|done]. }
  destruct (inv_pending _ _ Hi' Hq) as [Hd|(i & Hl & Hsi)]; rewrite Hst, ?Hdr in *; [by left|right].
  pose proof (inv_received _ _ Hi') as Hr. rewrite Hst in Hr. apply last_Some in Hl as [l ->].
  apply mapM_Some in Hr. apply Forall2_app_inv_l in Hr as (k1 & k2 & _ & Hk & ->).
  apply Forall2_cons_inv_l in Hk as (v & k3 & Hv & Hk & ->). apply Forall2_nil_inv_l in Hk as ->.
  rewrite last_snoc, last_lookup, <- Hv. f_equal. lia.
Qed.
End pipeline.
Arguments Pipeline V : clear implicits.

(** Two senders and a receiver that reads between their halves: the second value is
    received twice. *)
Module PipelineSamples.
Definition after_sends : Pipeline nat := send_store 2%nat (send_store 1%nat new_pipeline).

Example received_twice :
  (s1 ← send_signal after_sends; s2 ← take_signal s1; s3 ← recv s2;
   s4 ← send_signal s3; s5 ← take_signal s4; s6 ← recv s5; Some (pp_received s6)) = Some [2%nat; 2%nat].
Proof. vm_compute. reflexivity. Qed.
End PipelineSamples.

Lemma latest_wins_witness :
  exists s', rtc finish_step PipelineSamples.after_sends s' /\ quiet s' /\ last (pp_received s') = Some 2%nat.
Proof.
  destruct (latest_wins PipelineSamples.after_sends) as (_ & (s' & Hs & Hq) & Hl).
  - eapply rtc_l; [apply (step_store _ 1%nat)|]. eapply rtc_l; [apply (step_store _ 2%nat)|]. reflexivity.
  - exists s'. split; [exact Hs|]. split; [exact Hq|]. destruct (Hl s' Hs Hq) as [H|H]; [by vm_compute in H|exact H].
Defined.
