(* ===== verification/Cache.v ===== *)
(** * A cache with expiry ([pkg/cache/cache.go])

    Entries expire some time after they were added, or, in active mode, after they were
    last read; and the least recently used one makes room when the cache is full.  The
    latter is done by the library [golang-lru], the class [LRU].  Each operation runs as
    one step. *)
From S2P Require Import Prelude Monad GoString GoTime.

Local Open Scope Z_scope.

(** The library's cache, of string keys: what [Peek] sees of it. *)
Class LRU (V : Type) := {
  LruCache : Type;
  lru_Peek : LruCache -> string -> option V;
  lru_Add : string -> V -> LruCache -> LruCache;
  lru_Get : string -> LruCache -> option V * LruCache;
  lru_Remove : string -> LruCache -> LruCache;
}.
Arguments LruCache V {_}.

(** An addition may evict other entries; a read moves its entry to the front. *)
Class LRULaws (V : Type) {HL : LRU V} : Prop := {
  lru_Peek_Add k v c : lru_Peek (lru_Add k v c) k = Some v;
  lru_Peek_Add_other k v c k' : k <> k' ->
    lru_Peek (lru_Add k v c) k' = lru_Peek c k' \/ lru_Peek (lru_Add k v c) k' = None;
  lru_Get_Peek k c : (lru_Get k c).1 = lru_Peek c k;
  lru_Peek_Get k c k' : lru_Peek (lru_Get k c).2 k' = lru_Peek c k';
  lru_Peek_Remove k c k' : lru_Peek (lru_Remove k c) k' = if decide (k = k') then None else lru_Peek c k';
}.

Section cache.
Context {V : Type} {HL : LRU V}.

(** [Config], of a cache with [TTL > 0]; a callback for evictions is not used. *)
Record CacheConfig := mkCacheConfig {
  cc_TTL : Z;
  cc_Active : bool;
}.
Context (cfg : CacheConfig).

Record Cache := mkCache {
  ca_lru : LruCache V;
  ca_lastAccessed : gmap string time;
}.

Definition cache_Add (now : time) (key : string) (value : V) (c : Cache) : Cache :=
  mkCache (lru_Add key value (ca_lru c)) (<[key := now]> (ca_lastAccessed c)).

Definition expired (now t : time) : bool := cc_TTL cfg <? Sub now t.

Definition cache_Get (now : time) (key : string) (c : Cache) : option V * Cache :=
  let '(v, lru) := lru_Get key (ca_lru c) in
  match v with
  | None => (None, mkCache lru (ca_lastAccessed c))
  | Some v =>
      match ca_lastAccessed c !! key with
      | None => (None, mkCache lru (ca_lastAccessed c))
      | Some t =>
          if expired now t then (None, mkCache (lru_Remove key lru) (delete key (ca_lastAccessed c)))
          else (Some v, mkCache lru (if cc_Active cfg then <[key := now]> (ca_lastAccessed c) else ca_lastAccessed c))
      end
  end.

Definition cache_Remove (key : string) (c : Cache) : bool * Cache :=
  match lru_Peek (ca_lru c) key with
  | Some _ => (true, mkCache (lru_Remove key (ca_lru c)) (delete key (ca_lastAccessed c)))
  | None => (false, mkCache (lru_Remove key (ca_lru c)) (ca_lastAccessed c))
  end.

Definition cache_Contains (now : time) (key : string) (c : Cache) : bool * Cache :=
  match lru_Peek (ca_lru c) key, ca_lastAccessed c !! key with
  | Some _, Some t =>
      if expired now t then (false, mkCache (lru_Remove key (ca_lru c)) (delete key (ca_lastAccessed c))) else (true, c)
  | _, _ => (false, c)
  end.

(** The sweep of the background goroutine, over the entries in some order. *)
Definition sweep_key (cutoff : time) (c : Cache) (kt : string * time) : Cache :=
  let '(k, t) := kt in
  match lru_Peek (ca_lru c) k with
  | None => mkCache (ca_lru c) (delete k (ca_lastAccessed c))
  | Some _ => if Before t cutoff then mkCache (lru_Remove k (ca_lru c)) (delete k (ca_lastAccessed c)) else c
  end.
Definition sweep (order : list (string * time)) (now : time) (c : Cache) : Cache :=
  fold_left (sweep_key (Add now (- cc_TTL cfg))) order c.

(** What a fetch returns: a value to keep, one not to keep ([ErrDontCache]), or an
    error. *)
Inductive Fetched (E : Type) :=
| Fetch (v : V)
| FetchDontCache (v : V)
| FetchError (e : E).
Arguments Fetch {E} v.
Arguments FetchDontCache {E} v.
Arguments FetchError {E} e.

(** [GetOrFetch], of a caller that does not share its fetch: the second look is taken
    when the fetch begins. *)
Definition GetOrFetch {S E} (now : time) (key : string) (fetch : S -> Fetched E * S) (s : S) (c : Cache)
  : (E + V) * S * Cache :=
  match cache_Get now key c with
  | (Some v, c) => (inr v, s, c)
  | (None, c) =>
      match cache_Get now key c with
      | (Some v, c) => (inr v, s, c)
      | (None, c) =>
          match fetch s with
          | (Fetch v, s) => (inr v, s, cache_Add now key v c)
          | (FetchDontCache v, s) => (inr v, s, c)
          | (FetchError e, s) => (inl e, s, c)
          end
      end
  end.

(** ** What a reader sees *)

(** The value that [Get] would return. *)
Definition served (now : time) (key : string) (c : Cache) : option V :=
  match lru_Peek (ca_lru c) key, ca_lastAccessed c !! key with
  | Some v, Some t => if expired now t then None else Some v
  | _, _ => None
  end.

Context {HW : LRULaws V}.

Lemma cache_Get_served now key c : (cache_Get now key c).1 = served now key c.
Proof.
  unfold cache_Get, served. rewrite <- lru_Get_Peek. destruct (lru_Get key (ca_lru c)) as [ [v|] lru]; [|done].
  cbn. destruct (ca_lastAccessed c !! key); [|done]. by destruct (expired _ _).
Qed.

Lemma served_Add now key v c : 0 <= cc_TTL cfg -> served now key (cache_Add now key v c) = Some v.
Proof.
  intros H0. unfold served, cache_Add, expired. cbn. rewrite lru_Peek_Add, lookup_insert_eq.
  replace (Sub now now) with 0; [by rewrite (proj2 (Z.ltb_ge _ _) H0)|]. unfold Sub. by rewrite Z.sub_diag.
Qed.

Lemma served_Get now key c v : 0 <= cc_TTL cfg -> served now key c = Some v ->
  exists c', cache_Get now key c = (Some v, c') /\ served now key c' = Some v.
Proof.
  intros H0. unfold cache_Get, served. intros H. pose proof (lru_Get_Peek key (ca_lru c)) as Hg.
  pose proof (lru_Peek_Get key (ca_lru c) key) as Hp. destruct (lru_Get key (ca_lru c)) as [r lru]. cbn in *. subst r.
  destruct (lru_Peek (ca_lru c) key) as [v0|]; [|done]. destruct (ca_lastAccessed c !! key) as [t|] eqn:Et; [|done].
  destruct (expired now t) eqn:Ee; [done|]. injection H as ->. eexists. split; [done|]. cbn. rewrite Hp.
  destruct (cc_Active cfg); [|by rewrite Et, Ee]. rewrite lookup_insert_eq. unfold expired.
  replace (Sub now now) with 0; [by rewrite (proj2 (Z.ltb_ge _ _) H0)|]. unfold Sub. by rewrite Z.sub_diag.
Qed.
End cache.
Arguments Cache V {_}.
Arguments Fetch {V E} v.
Arguments FetchDontCache {V E} v.
Arguments FetchError {V E} e.
