(* ===== verification/Slack.v ===== *)
(** * The Slack sink ([internal/notification/sink/slack])

    A notification is a message of a channel, or, in thread mode, a reply to the root
    message of its thread, which shows the status of the operation.  The sink gets the
    states that it returned for the notification before.  Messages are modelled by what
    they are rendered from; Slack is the service behind [SlackRequest]. *)
From S2P Require Import Prelude Monad GoString GoTime Types Cluster Delivery Notification.

Local Open Scope Z_scope.

(** [strings.TrimSpace], for the white space of ASCII. *)
Definition is_space (c : ascii) : bool :=
  let n := Z.of_N (N_of_ascii c) in (n =? 32) || (9 <=? n) && (n <=? 13).
Fixpoint trim_left (s : string) : string :=
  match s with
  | String c s' => if is_space c then trim_left s' else s
  | EmptyString => EmptyString
  end.
Fixpoint trim_right (s : string) : string :=
  match s with
  | String c s' =>
      match trim_right s' with
      | EmptyString => if is_space c then EmptyString else String c EmptyString
      | s'' => String c s''
      end
  | EmptyString => EmptyString
  end.
Definition TrimSpace (s : string) : string := trim_right (trim_left s).

(** ** Configuration ([config.go]) *)

(** [config]; the rate limits are left out. *)
Record SlackConfig := mkSlackConfig {
  sl_WebhookURL : string;
  sl_BotToken : string;
  sl_ChannelID : string;
  sl_Format : string;
  sl_BlockLayout : string;
  sl_MaxTargets : Z;
  sl_AdditionalScopes : list string;
  sl_TimeDisplay : string;
  sl_Timezone : string;
  sl_TimeLayout : string;
  sl_DeliveryMode : string;
}.

Definition formatText : string := "text".
Definition formatJSON : string := "json".
Definition blockLayoutDefault : string := "default".
Definition blockLayoutCompact : string := "compact".
Definition blockLayoutAuto : string := "auto".
Definition deliveryModeChannel : string := "channel".
Definition deliveryModeThread : string := "thread".
Definition defaultTimeLayout : string := "Mon, 02 Jan 2006 15:04:05 MST".

Definition normalizeScope (scope : string) : string :=
  let s := ToLower (TrimSpace scope) in
  if (s =? "env")%string then "environment"
  else if existsb (String.eqb s) ["account_id"; "accountid"] then "account"
  else if existsb (String.eqb s) ["cluster_id"; "clusterid"] then "cluster"
  else s.

Fixpoint normalize_scopes (seen : gset string) (scopes : list string) : list string :=
  match scopes with
  | [] => []
  | raw :: scopes' =>
      let s := normalizeScope raw in
      if (s =? "")%string || bool_decide (s ∈ seen) then normalize_scopes seen scopes'
      else s :: normalize_scopes ({[s]} ∪ seen) scopes'
  end.
Definition normalizeScopeList (scopes : list string) : list string := normalize_scopes ∅ scopes.

Definition or_default (s d : string) : string := if (s =? "")%string then d else s.

Definition useDefaults (c : SlackConfig) : SlackConfig :=
  let timeDisplay := or_default (ToLower (TrimSpace (sl_TimeDisplay c))) "slack_dynamic" in
  let timezone := TrimSpace (sl_Timezone c) in
  mkSlackConfig (sl_WebhookURL c) (TrimSpace (sl_BotToken c)) (TrimSpace (sl_ChannelID c))
    (or_default (ToLower (TrimSpace (sl_Format c))) formatText)
    (or_default (ToLower (TrimSpace (sl_BlockLayout c))) blockLayoutDefault)
    (if sl_MaxTargets c <=? 0 then 8 else sl_MaxTargets c)
    (normalizeScopeList (sl_AdditionalScopes c))
    timeDisplay
    (if (timeDisplay =? "fixed")%string && (timezone =? "")%string then "UTC" else timezone)
    (or_default (TrimSpace (sl_TimeLayout c)) defaultTimeLayout)
    (or_default (ToLower (TrimSpace (sl_DeliveryMode c))) deliveryModeChannel).

Definition known_scopes : list string :=
  ["account"; "cluster"; "environment"; "region"; "project"; "provider"; "connector"].

(** [validate]: whether it returns no error; [location] says which zones load. *)
Definition validate_config (location : string -> bool) (c : SlackConfig) : bool :=
  let thread := (sl_DeliveryMode c =? deliveryModeThread)%string in
  let channel := (sl_DeliveryMode c =? deliveryModeChannel)%string in
  existsb (String.eqb (sl_Format c)) [formatText; formatJSON] && (thread || channel) &&
  (negb channel || negb (sl_WebhookURL c =? "")%string) &&
  (negb thread || negb (sl_BotToken c =? "")%string && negb (sl_ChannelID c =? "")%string) &&
  (negb (sl_Format c =? formatJSON)%string ||
   existsb (String.eqb (sl_BlockLayout c)) [blockLayoutDefault; blockLayoutCompact; blockLayoutAuto] &&
   existsb (String.eqb (sl_TimeDisplay c)) ["slack_dynamic"; "fixed"; "utc"] &&
   (negb (sl_TimeDisplay c =? "fixed")%string || location (sl_Timezone c)) &&
   forallb (fun scope => existsb (String.eqb scope) known_scopes) (sl_AdditionalScopes c)).

(** ** Requests *)

(** A custom template: its text and the name of its ConfigMap. *)
Record CustomTemplate := mkCustomTemplate {
  ct_Content : string;
  ct_Key : NamespacedName;
}.

(** [buildMessage] and [buildRootMessage]: the payload in the layout of a root or of an
    event. *)
Record SlackMessage := mkSlackMessage {
  sm_root : bool;
  sm_payload : Payload;
  sm_template : option CustomTemplate;
}.

Inductive SlackRequest :=
| PostWebhook (url : string) (msg : SlackMessage)
| PostMessage (token channel : string) (msg : SlackMessage) (thread : string)
| UpdateMessage (token channel ts : string) (msg : SlackMessage)
| AddReaction (token channel ts reaction : string)
| RemoveReaction (token channel ts reaction : string).

(** An answer is an error or a channel and a timestamp, which only messages have. *)
Definition SlackAnswer : Type := string + string * string.

Class SlackApi := {
  SlackWorld : Type;
  slack_serve : SlackRequest -> SlackWorld -> SlackAnswer * SlackWorld;
}.

(** Timestamps of messages are surrounded by no space. *)
Class SlackLaws {HA : SlackApi} : Prop := {
  slack_timestamp token channel msg thread w c ts w' :
    slack_serve (PostMessage token channel msg thread) w = (inr (c, ts), w') -> TrimSpace ts = ts;
}.

Section slack.
Context {HA : SlackApi}.

(** The requests that were made, and their answers. *)
Record SlackState := mkSlackState {
  sk_world : SlackWorld;
  sk_log : list (SlackRequest * SlackAnswer);
}.

Definition KM (A : Type) : Type := ST SlackState string A.

Definition slack_ask (q : SlackRequest) : KM SlackAnswer := fun s =>
  let '(a, w) := slack_serve q (sk_world s) in (Ok a, mkSlackState w (sk_log s ++ [(q, a)])).

Notation States := (gmap string string).

(** ** Decisions ([delivery.go]) *)

Definition key_ref : string := "slack.thread.ref".
Definition key_root : string := "slack.thread.root_ts".
Definition key_state : string := "slack.thread.state".
Definition key_reaction : string := "slack.thread.last_reaction".

(** Indexing of a Go map. *)
Definition state_of (states : States) (key : string) : string := default ""%string (states !! key).

Definition is_terminal_state (s : ExecutionState) : bool :=
  match s with StateCompleted | StateFailed | StateAborted => true | _ => false end.

Definition shouldSuppressExecutionProgress (payload : Payload) (cfg : SlackConfig) : bool :=
  (sl_Format cfg =? formatJSON)%string && bool_decide (pl_Event payload = EventExecutionProgress) &&
  existsb (String.eqb (sl_BlockLayout cfg)) [blockLayoutDefault; blockLayoutCompact] &&
  match pl_TargetExecution payload with
  | None => false
  | Some t => negb (is_terminal_state (ti_State t))
  end.

Definition isTerminalReaction (reaction : string) : bool :=
  existsb (String.eqb (TrimSpace reaction)) ["white_check_mark"; "x"].
Definition isNonTerminalEvent (event : NotificationEvent) : bool :=
  match event with EventStart | EventExecutionProgress | EventRecovery | EventPhaseChange => true | _ => false end.
Definition shouldPreserveTerminalRoot (prevReaction : string) (event : NotificationEvent) : bool :=
  isTerminalReaction prevReaction && isNonTerminalEvent event.

Definition shouldBumpReaction (prevReaction : string) (event : NotificationEvent) (bumpTS reaction : string) : bool :=
  if ((bumpTS =? "") || (reaction =? ""))%string then false
  else if bool_decide (event = EventStart) then true
  else negb (TrimSpace prevReaction =? reaction)%string.

Definition reactionForEvent (event : NotificationEvent) : string :=
  match event with
  | EventFailure => "x"
  | EventSuccess => "white_check_mark"
  | EventStart | EventExecutionProgress | EventRecovery => "loading"
  | _ => ""
  end.

Definition threadReference (payload : Payload) : string :=
  let ref := PlanInfo_String (pl_Plan payload) in
  if (pl_CycleID payload =? "")%string then ref
  else (ref ++ "/" ++ pl_CycleID payload ++ "/" ++ operation_string (pl_Operation payload))%string.

Definition resolveRootThreadTimestamp (payload : Payload) (sinkState : States) : string :=
  if bool_decide (pl_Event payload = EventStart) then ""
  else
    let prevRef := TrimSpace (state_of sinkState key_ref) in
    if negb (prevRef =? "")%string && negb (prevRef =? threadReference payload)%string then ""
    else TrimSpace (state_of sinkState key_root).

(** ** Requests of a thread *)

Definition send_error : string := "send slack notification".
Definition update_error : string := "update slack root notification".

Definition sendViaChatAPI (cfg : SlackConfig) (msg : SlackMessage) (thread : string) : KM string :=
  let! a := slack_ask (PostMessage (sl_BotToken cfg) (sl_ChannelID cfg) msg thread) in
  match a with
  | inl e => st_throw (send_error ++ ": " ++ e)%string
  | inr (channel, ts) =>
      if ((channel =? "") || (ts =? ""))%string
      then st_throw (send_error ++ ": missing channel/ts in Slack API response")%string
      else st_ret ts
  end.

Definition updateViaChatAPI (cfg : SlackConfig) (ts : string) (msg : SlackMessage) : KM unit :=
  if (TrimSpace ts =? "")%string then st_ret tt
  else
    let! a := slack_ask (UpdateMessage (sl_BotToken cfg) (sl_ChannelID cfg) ts msg) in
    match a with
    | inl e => st_throw (update_error ++ ": " ++ e)%string
    | inr (channel, updatedTS) =>
        if ((channel =? "") || (updatedTS =? ""))%string
        then st_throw (update_error ++ ": missing channel/ts in Slack API response")%string
        else st_ret tt
    end.

(** An error that says that nothing was to do is none. *)
Definition reaction_request (q : SlackRequest) (harmless : string) : KM unit :=
  let! a := slack_ask q in
  match a with
  | inl e => if Contains e harmless then st_ret tt else st_throw e
  | inr _ => st_ret tt
  end.
Definition bumpRootThreadEmoji (cfg : SlackConfig) (rootTS reaction : string) : KM unit :=
  reaction_request (AddReaction (sl_BotToken cfg) (sl_ChannelID cfg) rootTS reaction) "already_reacted".
Definition removeRootThreadEmoji (cfg : SlackConfig) (rootTS reaction : string) : KM unit :=
  reaction_request (RemoveReaction (sl_BotToken cfg) (sl_ChannelID cfg) rootTS reaction) "no_reaction".

Definition overrideRootThreadReaction (cfg : SlackConfig) (rootTS prevReaction nextReaction : string) : KM unit :=
  if ((nextReaction =? "") || (rootTS =? "") || (prevReaction =? nextReaction))%string then st_ret tt
  else
    do! (if (prevReaction =? "")%string then st_ret tt else removeRootThreadEmoji cfg rootTS prevReaction) in
    bumpRootThreadEmoji cfg rootTS nextReaction.

(** ** A delivery in a thread *)

(** [threadDeliveryFlow]. *)
Record ThreadFlow := mkThreadFlow {
  fl_event : NotificationEvent;
  fl_rootTS : string;
  fl_rootCreated : bool;
  fl_prevReaction : string;
  fl_preserveTerminalRoot : bool;
  fl_nextReaction : string;
  fl_effectiveReaction : string;
}.

Definition newThreadDeliveryFlow (payload : Payload) (sinkState : States) : ThreadFlow :=
  let event := pl_Event payload in
  let rootTS := resolveRootThreadTimestamp payload sinkState in
  let prevReaction := TrimSpace (state_of sinkState key_reaction) in
  mkThreadFlow event rootTS false prevReaction
    (negb (rootTS =? "")%string && shouldPreserveTerminalRoot prevReaction event)
    (reactionForEvent event) prevReaction.

Definition with_root (ts : string) (flow : ThreadFlow) : ThreadFlow :=
  mkThreadFlow (fl_event flow) ts true (fl_prevReaction flow) (fl_preserveTerminalRoot flow) (fl_nextReaction flow)
    (fl_effectiveReaction flow).
Definition with_reaction (flow : ThreadFlow) : ThreadFlow :=
  mkThreadFlow (fl_event flow) (fl_rootTS flow) (fl_rootCreated flow) (fl_prevReaction flow) (fl_preserveTerminalRoot flow)
    (fl_nextReaction flow) (fl_nextReaction flow).

(** An update of the root that fails is only logged. *)
Definition syncThreadRoot (cfg : SlackConfig) (payload : Payload) (flow : ThreadFlow) : KM ThreadFlow :=
  let root := mkSlackMessage true payload None in
  if (fl_rootTS flow =? "")%string then
    let! ts := sendViaChatAPI cfg root "" in st_ret (with_root ts flow)
  else if fl_preserveTerminalRoot flow then st_ret flow
  else let! r := st_try (updateViaChatAPI cfg (fl_rootTS flow) root) in st_ret flow.

Definition sendThreadReply (cfg : SlackConfig) (payload : Payload) (rootTS : string) : KM unit :=
  let! ts := sendViaChatAPI cfg (mkSlackMessage false payload None) rootTS in st_ret tt.

(** So is an error of a reaction. *)
Definition syncThreadRootReaction (cfg : SlackConfig) (flow : ThreadFlow) : KM ThreadFlow :=
  if fl_preserveTerminalRoot flow then st_ret flow
  else
    let shouldBump :=
      shouldBumpReaction (fl_prevReaction flow) (fl_event flow) (fl_rootTS flow) (fl_nextReaction flow) ||
      (fl_rootCreated flow && negb (fl_rootTS flow =? "")%string && negb (fl_nextReaction flow =? "")%string) in
    if negb shouldBump then st_ret flow
    else
      let prevReactionForBump :=
        if bool_decide (fl_event flow = EventStart) || fl_rootCreated flow then ""%string else fl_prevReaction flow in
      let! r := st_try (overrideRootThreadReaction cfg (fl_rootTS flow) prevReactionForBump (fl_nextReaction flow)) in
      st_ret (match r with inl _ => flow | inr _ => with_reaction flow end).

Definition buildThreadStates (payload : Payload) (flow : ThreadFlow) : States :=
  let states : States :=
    <[key_state := if fl_rootCreated flow then "root_sent" else "reply_sent"]>
      (<[key_root := fl_rootTS flow]> {[key_ref := threadReference payload]}) in
  if (fl_effectiveReaction flow =? "")%string then states else <[key_reaction := fl_effectiveReaction flow]> states.

(** [threadDelivery.deliver] and [channelDelivery.deliver]; nil states are empty. *)
Definition deliver_thread (cfg : SlackConfig) (sinkState : States) (payload : Payload) : KM States :=
  if shouldSuppressExecutionProgress payload cfg then st_ret ∅
  else
    let! flow := syncThreadRoot cfg payload (newThreadDeliveryFlow payload sinkState) in
    do! sendThreadReply cfg payload (fl_rootTS flow) in
    let! flow := syncThreadRootReaction cfg flow in
    st_ret (buildThreadStates payload flow).

Definition deliver_channel (cfg : SlackConfig) (template : option CustomTemplate) (payload : Payload) : KM States :=
  if shouldSuppressExecutionProgress payload cfg then st_ret ∅
  else
    let! a := slack_ask (PostWebhook (sl_WebhookURL cfg) (mkSlackMessage false payload template)) in
    match a with
    | inl e => st_throw (send_error ++ ": " ++ e)%string
    | inr _ => st_ret ∅
    end.

(** [Sink.Send]; [parse] decodes the configuration, which is JSON.  In thread mode a
    custom template is ignored. *)
Definition slack_Send (parse : string -> option SlackConfig) (location : string -> bool)
  (config : string) (template : option CustomTemplate) (sinkState : States) (payload : Payload) : KM States :=
  match parse config with
  | None => st_throw "parse slack sink config"%string
  | Some cfg =>
      let cfg := useDefaults cfg in
      if negb (validate_config location cfg) then st_throw "slack sink config"%string
      else if (sl_DeliveryMode cfg =? deliveryModeThread)%string then deliver_thread cfg sinkState payload
      else deliver_channel cfg template payload
  end.
End slack.
