(* ===== verification/Dispatcher.v ===== *)
(** * The notification dispatcher ([internal/notification/dispatcher.go], [sink/sink.go])

    A request is delivered by the worker of its stream (one plan, cycle, operation,
    notification and sink), one after the other: [Pool].  A dispatch reads the
    credentials, the template and the states of the sink, sends, and reports the
    outcome.  The states are kept in a cache until the status writer has stored them in
    the notification. *)
From S2P Require Import Prelude Monad GoString GoTime Types Cluster Delivery Notification Cache Slack.

Local Open Scope Z_scope.

Notation States := (gmap string string).

(** ** Streams *)

Record streamKey := mkStreamKey {
  sy_Plan : NamespacedName;
  sy_CycleID : string;
  sy_NotificationRef : NamespacedName;
  sy_SinkName : string;
  sy_SinkType : string;
  sy_Operation : string;
}.
#[export] Instance streamKey_eq_dec : EqDecision streamKey.
Proof. solve_decision. Defined.

Definition streamKeyFromRequest (req : NotificationRequest) : streamKey :=
  let p := rq_Payload req in
  mkStreamKey (pi_Namespace (pl_Plan p), pi_Name (pl_Plan p)) (pl_CycleID p) (rq_NotificationRef req)
    (rq_SinkName req) (rq_SinkType req) (operation_string (pl_Operation p)).

(** [DispatcherConfig] and its defaults; the timeout and the idle time bound waits that
    are not modelled. *)
Record DispatcherConfig := mkDispatcherConfig {
  dc_ChannelSize : Z;
  dc_DispatchTimeout : Z;
  dc_WorkerIdleTTL : Z;
}.
Definition withDefaults (c : DispatcherConfig) : DispatcherConfig :=
  mkDispatcherConfig (if dc_ChannelSize c <=? 0 then 256 else dc_ChannelSize c)
    (if dc_DispatchTimeout c <=? 0 then 5 * Minute else dc_DispatchTimeout c)
    (if dc_WorkerIdleTTL c <=? 0 then 30 * Minute else dc_WorkerIdleTTL c).

(** The cache of states: ten minutes after the last use. *)
Definition state_cache : CacheConfig := mkCacheConfig (10 * Minute) true.

(** ** States *)

(** [mergeStates]: an empty value deletes its key; nil is the empty map. *)
Definition mergeStates (base override : States) : States :=
  map_fold (fun k v out => if (v =? "")%string then delete k out else <[k := v]> out) base override.

(** ** Dispatch *)

(** [SendOptions]. *)
Record SendOptions := mkSendOptions {
  so_Config : string;
  so_CustomTemplate : option CustomTemplate;
  so_SinkState : States;
}.

(** The reads of the dispatcher: the data of a Secret and of a ConfigMap, and a
    notification. *)
Class DispatchClient := {
  DClient : Type;
  dp_secret : NamespacedName -> DClient -> (ApiError + gmap string string) * DClient;
  dp_configmap : NamespacedName -> DClient -> (ApiError + gmap string string) * DClient;
  dp_notification : NamespacedName -> DClient -> (ApiError + HibernateNotification) * DClient;
}.

Section dispatcher.
Context {HD : DispatchClient} {HL : LRU States}.
(** The world of the sinks, and the registered ones ([Registry]): a sink returns its
    states. *)
Context {W : Type} (registry : gmap string (Payload -> SendOptions -> ST W string States)).

Record Dispatcher := mkDispatcher {
  dt_client : DClient;
  dt_sinks : W;
  dt_cache : Cache States;
  dt_now : time;
  dt_results : list DeliveryResult;
}.

Definition DM (A : Type) : Type := ST Dispatcher string A.

Definition dt_read {A} (f : DClient -> (ApiError + A) * DClient) : DM (ApiError + A) := fun s =>
  let '(r, c) := f (dt_client s) in (Ok r, mkDispatcher c (dt_sinks s) (dt_cache s) (dt_now s) (dt_results s)).

Definition set_dt_sinks (w : W) (s : Dispatcher) : Dispatcher :=
  mkDispatcher (dt_client s) w (dt_cache s) (dt_now s) (dt_results s).

Definition defaultSecretConfigKey : string := "config".
Definition defaultTemplateKey : string := "template.gotpl".

(** [resolveSecret] and [resolveCustomTemplate]: the value of the key of the reference. *)
Definition resolve_key (read : NamespacedName -> DClient -> (ApiError + gmap string string) * DClient)
  (defaultKey namespace : string) (ref : ObjectKeyReference) : DM (option string) :=
  let! r := dt_read (read (namespace, okr_Name ref)) in
  st_ret match r with inl _ => None | inr data => data !! default defaultKey (okr_Key ref) end.
Definition resolveSecret : string -> ObjectKeyReference -> DM (option string) := resolve_key dp_secret defaultSecretConfigKey.
Definition resolveCustomTemplate : string -> ObjectKeyReference -> DM (option string) := resolve_key dp_configmap defaultTemplateKey.

(** The fetch of [resolveSinkState]. *)
Definition fetch_states (req : NotificationRequest) (c : DClient) : Fetched (V := States) ApiError * DClient :=
  let '(r, c) := dp_notification (rq_NotificationRef req) c in
  (match r with
   | inl e => FetchError e
   | inr notif =>
       match ns_SinkStatuses (hn_Status notif) !! ShortName req with
       | Some ss => if bool_decide (ss_States ss = ∅) then FetchDontCache ∅ else Fetch (ss_States ss)
       | None => FetchDontCache ∅
       end
   end, c).

Definition resolveSinkState (req : NotificationRequest) : DM States := fun s =>
  if ((rq_NotificationRef req).2 =? "")%string then (Ok ∅, s)
  else
    let '(r, c, cache) := GetOrFetch state_cache (dt_now s) (Request_String req) (fetch_states req) (dt_client s) (dt_cache s) in
    (Ok (match r with inl _ => ∅ | inr states => states end),
     mkDispatcher c (dt_sinks s) cache (dt_now s) (dt_results s)).

(** [reportDelivery]; the callback is [HandleDeliveryResult] of the lifecycle. *)
Definition reportDelivery (req : NotificationRequest) (success : bool) (err : option string) (states : States) : DM unit :=
  st_modify (fun s =>
    mkDispatcher (dt_client s) (dt_sinks s)
      (if bool_decide (states = ∅) then dt_cache s else cache_Add (dt_now s) (Request_String req) states (dt_cache s))
      (dt_now s) (dt_results s ++ [FromRequest req (dt_now s) success err states])).

(** The payload of the sink: the name and the type of the sink are added. *)
Definition sink_payload (req : NotificationRequest) : Payload :=
  let p := rq_Payload req in
  mkPayload (pl_Plan p) (pl_Event p) (pl_Timestamp p) (pl_Phase p) (pl_PreviousPhase p) (pl_Operation p) (pl_CycleID p)
    (pl_Targets p) (pl_TargetExecution p) (pl_ErrorMessage p) (pl_RetryCount p) (rq_SinkName req) (rq_SinkType req).

Definition dispatch (req : NotificationRequest) : DM unit :=
  match registry !! rq_SinkType req with
  | None => st_ret tt
  | Some send =>
      let namespace := pi_Namespace (pl_Plan (rq_Payload req)) in
      let! config := resolveSecret namespace (rq_SecretRef req) in
      match config with
      | None => st_ret tt
      | Some config =>
          let! template :=
            (match rq_TemplateRef req with
             | None => st_ret None
             | Some ref =>
                 let! t := resolveCustomTemplate namespace ref in
                 st_ret ((fun content => mkCustomTemplate content (namespace, okr_Name ref)) <$> t)
             end) in
          let! sinkState := resolveSinkState req in
          let! r := st_lift dt_sinks set_dt_sinks (st_try (send (sink_payload req) (mkSendOptions config template sinkState))) in
          match r with
          | inl e => reportDelivery req false (Some e) (mergeStates sinkState ∅)
          | inr states => reportDelivery req true None (mergeStates sinkState states)
          end
      end
  end.

(** The requests of a stream, as its worker takes them from the slot: until the slot is
    empty, whether it is idle, draining or running. *)
Definition dispatch_all (reqs : list NotificationRequest) : DM unit := st_iter dispatch reqs.
End dispatcher.

(** The Slack sink of a registry ([slacksink.New]). *)
Definition slack_sink {HA : SlackApi} (parse : string -> option SlackConfig) (location : string -> bool)
  (payload : Payload) (opts : SendOptions) : ST SlackState string States :=
  slack_Send parse location (so_Config opts) (so_CustomTemplate opts) (so_SinkState opts) payload.
