(* ===== verification/DispatcherSpec.v ===== *)
(** * What the dispatcher promises: a thread goes on

    After a notification was delivered in a Slack thread, the later ones of its stream
    are posted into the same thread until the next start of an operation, whatever
    Slack answers, as long as the cache keeps the states of the stream. *)
From S2P Require Import Prelude Monad GoString GoTime Types Cluster Delivery Notification Cache Slack Dispatcher.
From Stdlib Require Import Lia.

Local Open Scope Z_scope.

(** ** Strings *)

Lemma trim_right_idem s : trim_right (trim_right s) = trim_right s.
Proof.
  induction s as [|c s IH]; [done|]. cbn. destruct (trim_right s) as [|d t] eqn:E.
  - destruct (is_space c) eqn:Ec; [done|]. cbn. by rewrite Ec.
  - cbn [trim_right]. cbn in IH. rewrite IH. done.
Qed.

Lemma trim_left_head s : match trim_left s with String c _ => is_space c = false | EmptyString => True end.
Proof. induction s as [|c s IH]; [done|]. cbn. by destruct (is_space c) eqn:E. Qed.

Lemma trim_left_fixed s : match s with String c _ => is_space c = false | EmptyString => True end -> trim_left s = s.
Proof. destruct s as [|c s]; [done|]. cbn. by intros ->. Qed.

Lemma TrimSpace_idem s : TrimSpace (TrimSpace s) = TrimSpace s.
Proof.
  unfold TrimSpace. rewrite (trim_left_fixed (trim_right (trim_left s))); [apply trim_right_idem|].
  pose proof (trim_left_head s) as H. destruct (trim_left s) as [|c t]; [done|]. cbn.
  destruct (trim_right t); [|done]. by rewrite H.
Qed.

(** ** Merging *)

Lemma mergeStates_lookup base override k :
  mergeStates base override !! k =
  match override !! k with Some v => if (v =? "")%string then None else Some v | None => base !! k end.
Proof.
  unfold mergeStates. revert k.
  apply (map_fold_weak_ind (fun out m => forall k, out !! k =
    match m !! k with Some v => if (v =? "")%string then None else Some v | None => base !! k end)); [done|].
  intros i v m out Hi IH k. destruct (decide (i = k)) as [->|Hn].
  - rewrite lookup_insert_eq. destruct (v =? "")%string; [by rewrite lookup_delete_eq|by rewrite lookup_insert_eq].
  - rewrite (lookup_insert_ne m) by done. rewrite <- IH.
    destruct (v =? "")%string; [by rewrite lookup_delete_ne|by rewrite lookup_insert_ne].
Qed.

Section continuity.
Context {HA : SlackApi} {HS : SlackLaws}.

(** ** Deliveries in a thread *)

(** States that say that the thread of [ref] has the root [r]. *)
Definition in_thread (ref r : string) (states : States) : Prop :=
  state_of states key_ref = ref /\ state_of states key_root = r /\ TrimSpace r = r /\ r <> ""%string.

Definition log : Type := list (SlackRequest * SlackAnswer).

(** Messages are posted into threads with a property. *)
Definition posts (P : string -> Prop) (l : log) : Prop :=
  forall token channel msg thread a, (PostMessage token channel msg thread, a) ∈ l -> P thread.

(** What a run logs, and what it returns. *)
Definition logs {A} (m : KM A) (Q : log -> option A -> Prop) : Prop := forall s, exists l,
  sk_log (m s).2 = sk_log s ++ l /\
  match (m s).1 with Ok a => Q l (Some a) | Err _ => Q l None | _ => False end.

Lemma logs_ret {A} (a : A) (Q : log -> option A -> Prop) : Q [] (Some a) -> logs (st_ret a) Q.
Proof. intros H s. exists []. by rewrite app_nil_r. Qed.
Lemma logs_throw {A} e (Q : log -> option A -> Prop) : Q [] None -> logs (st_throw e) Q.
Proof. intros H s. exists []. by rewrite app_nil_r. Qed.
Lemma logs_ask q (Q : log -> option SlackAnswer -> Prop) :
  (forall w, Q [(q, (slack_serve q w).1)] (Some (slack_serve q w).1)) -> logs (slack_ask q) Q.
Proof.
  intros H s. unfold slack_ask. specialize (H (sk_world s)). destruct (slack_serve q (sk_world s)) as [a w]. by eexists.
Qed.
Lemma logs_bind {A B} (m : KM A) (k : A -> KM B) (Q : log -> option B -> Prop) :
  logs m (fun l r => match r with
    | Some a => logs (k a) (fun l' r' => Q (l ++ l') r')
    | None => Q l None
    end) -> logs (st_bind m k) Q.
Proof.
  intros H s. destruct (H s) as (l & Hl & Hr). unfold st_bind. destruct (m s) as [ [a|e| |] s1]; cbn in *; try done; [|by exists l].
  destruct (Hr s1) as (l' & Hl' & Hr'). exists (l ++ l'). by rewrite Hl', Hl, app_assoc.
Qed.
Lemma logs_try {A} (m : KM A) (Q : log -> option (string + A) -> Prop) :
  logs m (fun l r => match r with Some a => Q l (Some (inr a)) | None => forall e, Q l (Some (inl e)) end) ->
  logs (st_try m) Q.
Proof.
  intros H s. destruct (H s) as (l & Hl & Hr). unfold st_try. exists l.
  destruct (m s) as [ [a|e| |] s1]; cbn in *; auto.
Qed.
Lemma logs_conseq {A} (m : KM A) (Q Q' : log -> option A -> Prop) : logs m Q -> (forall l r, Q l r -> Q' l r) -> logs m Q'.
Proof.
  intros H HQ s. destruct (H s) as (l & Hl & Hr). exists l. split; [done|]. destruct (m s) as [ [a|e| |] s1]; try done; by apply HQ.
Qed.

Lemma posts_nil P : posts P [].
Proof. by intros ????? ?%elem_of_nil. Qed.
Lemma posts_app P l k : posts P (l ++ k) <-> posts P l /\ posts P k.
Proof. unfold posts. setoid_rewrite elem_of_app. naive_solver. Qed.
Lemma posts_one P q a :
  posts P [(q, a)] <-> match q with PostMessage _ _ _ thread => P thread | _ => True end.
Proof.
  unfold posts. setoid_rewrite list_elem_of_singleton. split.
  - intros H. destruct q; try done. by eapply H.
  - intros H token channel msg thread a' [= <- <-]. done.
Qed.

(** A message is posted into its thread; its timestamp is a root's. *)
Lemma sendViaChatAPI_logs cfg msg thread :
  logs (sendViaChatAPI cfg msg thread) (fun l r =>
    (exists a, l = [(PostMessage (sl_BotToken cfg) (sl_ChannelID cfg) msg thread, a)]) /\
    match r with Some ts => TrimSpace ts = ts /\ ts <> ""%string | None => True end).
Proof.
  unfold sendViaChatAPI. apply logs_bind, logs_ask. intros w.
  destruct (slack_serve _ w) as [a w'] eqn:E. cbn. destruct a as [e|[channel ts] ]; [apply logs_throw; eauto|].
  destruct (_ || _) eqn:Eb; [apply logs_throw; eauto|]. apply logs_ret. split; [by eexists|].
  split; [by eapply slack_timestamp|]. reflect. done.
Qed.

(** No message is posted. *)
Definition silent {A} (m : KM A) : Prop := logs m (fun l _ => forall P, posts P l).

Lemma silent_bind {A B} (m : KM A) (k : A -> KM B) : silent m -> (forall a, silent (k a)) -> silent (st_bind m k).
Proof.
  intros Hm Hk. apply logs_bind. eapply logs_conseq; [exact Hm|]. cbn. intros l [a|] Hl; [|exact Hl].
  eapply logs_conseq; [apply Hk|]. cbn. intros l' _ Hl' P. apply posts_app. auto.
Qed.
Lemma silent_ret {A} (a : A) : silent (st_ret a).
Proof. apply logs_ret. intros P. apply posts_nil. Qed.
Lemma silent_throw {A} e : silent (st_throw e : KM A).
Proof. apply logs_throw. intros P. apply posts_nil. Qed.
Lemma silent_try {A} (m : KM A) : silent m -> silent (st_try m).
Proof. intros H. apply logs_try. eapply logs_conseq; [exact H|]. cbn. intros l [a|]; auto. Qed.
Lemma silent_ask q : match q with PostMessage _ _ _ _ => False | _ => True end -> silent (slack_ask q).
Proof. intros H. apply logs_ask. intros w P. apply posts_one. by destruct q. Qed.

Ltac silently :=
  repeat first [apply silent_ret | apply silent_throw | apply silent_try | by apply silent_ask
    | apply silent_bind; [|intros ?] | split_match].

Lemma update_silent cfg ts msg : silent (updateViaChatAPI cfg ts msg).
Proof. unfold updateViaChatAPI. silently. Qed.
Lemma reaction_silent cfg ts prev next : silent (overrideRootThreadReaction cfg ts prev next).
Proof.
  unfold overrideRootThreadReaction, removeRootThreadEmoji, bumpRootThreadEmoji, reaction_request. silently.
Qed.

(** The root that a flow ends with. *)
Definition root_of (flow : ThreadFlow) (l : log) (r : option ThreadFlow) : Prop :=
  posts (fun thread => thread = fl_rootTS flow) l /\
  forall flow', r = Some flow' ->
    (fl_rootTS flow <> ""%string -> fl_rootTS flow' = fl_rootTS flow) /\
    (TrimSpace (fl_rootTS flow) = fl_rootTS flow -> TrimSpace (fl_rootTS flow') = fl_rootTS flow') /\ fl_rootTS flow' <> ""%string.

Lemma syncThreadRoot_logs cfg payload flow : logs (syncThreadRoot cfg payload flow) (root_of flow).
Proof.
  unfold syncThreadRoot. destruct (String.eqb_spec (fl_rootTS flow) "") as [E|E].
  - apply logs_bind. eapply logs_conseq; [apply sendViaChatAPI_logs|]. intros l r [ [a ->] Hr].
    assert (posts (fun thread => thread = fl_rootTS flow)
      [(PostMessage (sl_BotToken cfg) (sl_ChannelID cfg) (mkSlackMessage true payload None) "", a)]) as Hp by by apply posts_one.
    destruct r as [ts|]; [|by split]. apply logs_ret. rewrite app_nil_r. split; [exact Hp|]. intros flow' [= <-]. cbn.
    by destruct Hr.
  - destruct (fl_preserveTerminalRoot flow).
    + apply logs_ret. split; [apply posts_nil|]. by intros flow' [= <-].
    + apply logs_bind. eapply logs_conseq; [apply silent_try, update_silent|]. cbn. intros l [r|] Hl; [|by split].
      apply logs_ret. rewrite app_nil_r. split; [apply Hl|]. by intros flow' [= <-].
Qed.

Lemma syncThreadRootReaction_logs cfg flow :
  logs (syncThreadRootReaction cfg flow) (fun l r => (forall P, posts P l) /\
    match r with Some flow' => fl_rootTS flow' = fl_rootTS flow | None => True end).
Proof.
  unfold syncThreadRootReaction. destruct (fl_preserveTerminalRoot flow); [apply logs_ret; split; [intros P; apply posts_nil|done]|].
  destruct (negb _); [apply logs_ret; split; [intros P; apply posts_nil|done]|].
  apply logs_bind. eapply logs_conseq; [apply silent_try, reaction_silent|]. cbn. intros l [r|] Hl; [|done].
  apply logs_ret. rewrite app_nil_r. split; [exact Hl|]. by destruct r.
Qed.

Lemma buildThreadStates_in payload flow : TrimSpace (fl_rootTS flow) = fl_rootTS flow -> fl_rootTS flow <> ""%string ->
  in_thread (threadReference payload) (fl_rootTS flow) (buildThreadStates payload flow).
Proof.
  intros Ht Hn. unfold in_thread, buildThreadStates, state_of.
  destruct (fl_effectiveReaction flow =? "")%string; rewrite ?(lookup_insert_ne _ key_reaction) by done;
    rewrite !(lookup_insert_ne _ key_state) by done; rewrite lookup_insert_eq, lookup_insert_ne by done;
    rewrite lookup_singleton_eq; done.
Qed.

(** A delivery that returns states has posted a reply into the thread that they name,
    and that is the thread it was told of, if any. *)
Definition delivered (payload : Payload) (states : States) (l : log) (r : option States) : Prop :=
  let root := resolveRootThreadTimestamp payload states in
  (root <> ""%string -> posts (fun thread => thread = root) l) /\
  forall st, r = Some st -> st = ∅ /\ (forall P, posts P l) \/
    exists ts, in_thread (threadReference payload) ts st /\ (root <> ""%string -> ts = root) /\
    posts (fun thread => thread = ts \/ thread = ""%string) l.

Lemma resolve_trimmed payload states : TrimSpace (resolveRootThreadTimestamp payload states) = resolveRootThreadTimestamp payload states.
Proof. unfold resolveRootThreadTimestamp. do 2 (split_match; [done|]). apply TrimSpace_idem. Qed.

Lemma deliver_thread_logs cfg states payload : logs (deliver_thread cfg states payload) (delivered payload states).
Proof.
  unfold deliver_thread, delivered. set (root := resolveRootThreadTimestamp payload states).
  destruct (shouldSuppressExecutionProgress _ _).
  { apply logs_ret. split; [intros _; apply posts_nil|]. intros st [= <-]. left. split; [done|]. intros P. apply posts_nil. }
  apply logs_bind. eapply logs_conseq; [apply syncThreadRoot_logs|]. intros l r [Hp Hr]. cbn [newThreadDeliveryFlow fl_rootTS] in *.
  fold root in Hp, Hr. destruct r as [flow|]; [|by split]. destruct (Hr flow eq_refl) as (Hkeep & Ht & Hn).
  specialize (Ht (resolve_trimmed payload states)).
  apply logs_bind. unfold sendThreadReply. apply logs_bind. eapply logs_conseq; [apply sendViaChatAPI_logs|].
  intros l2 r2 [ [a ->] _].
  assert (posts (fun thread => thread = fl_rootTS flow)
    [(PostMessage (sl_BotToken cfg) (sl_ChannelID cfg) (mkSlackMessage false payload None) (fl_rootTS flow), a)]) as Hp2 by by apply posts_one.
  assert (root <> ""%string -> posts (fun thread => thread = root)
    (l ++ [(PostMessage (sl_BotToken cfg) (sl_ChannelID cfg) (mkSlackMessage false payload None) (fl_rootTS flow), a)])) as Hall.
  { intros Hroot. apply posts_app. split; [exact Hp|]. by rewrite <- (Hkeep Hroot). }
  destruct r2 as [ts|]; [|by split]. apply logs_ret. rewrite app_nil_r.
  apply logs_bind. eapply logs_conseq; [apply syncThreadRootReaction_logs|]. intros l3 r3 [Hp3 Hr3].
  destruct r3 as [flow'|]; [|split; [|done]; intros Hroot; rewrite app_assoc; apply posts_app; auto].
  apply logs_ret. rewrite app_nil_r. split; [intros Hroot; rewrite app_assoc; apply posts_app; auto|].
  intros st [= <-]. right. exists (fl_rootTS flow'). rewrite Hr3. split; [|split; [exact Hkeep|] ].
  - rewrite <- Hr3. apply buildThreadStates_in; by rewrite Hr3.
  - apply posts_app. split; [|apply posts_app; split; [|apply Hp3] ].
    + intros token channel msg thread a' Hin. specialize (Hp _ _ _ _ _ Hin). destruct (decide (root = ""%string)) as [E|E]; [right|left].
      * by rewrite Hp.
      * rewrite Hp. symmetry. by apply Hkeep.
    + intros token channel msg thread a' Hin. left. by eapply Hp2.
Qed.

Lemma slack_Send_logs parse location config template states payload :
  logs (slack_Send parse location config template states payload) (delivered payload states).
Proof.
  assert (delivered payload states [] None) as Hnone by (split; [intros _; apply posts_nil|done]).
  unfold slack_Send. destruct (parse config) as [cfg|]; [|by apply logs_throw].
  destruct (negb _); [by apply logs_throw|]. destruct (_ =? _)%string; [apply deliver_thread_logs|].
  assert (silent (deliver_channel (useDefaults cfg) template payload)) as Hs by (unfold deliver_channel; silently).
  intros s. destruct (Hs s) as (l & Hl & Hp). exists l. split; [exact Hl|].
  assert (forall st, (deliver_channel (useDefaults cfg) template payload s).1 = Ok st -> st = ∅) as He.
  { unfold deliver_channel, st_bind, slack_ask, st_ret, st_throw. intros st.
    destruct (shouldSuppressExecutionProgress _ _); [by intros [= <-]|].
    destruct (slack_serve _ _) as [ [e|a] w]; cbn; [done|by intros [= <-] ]. }
  destruct (deliver_channel _ _ _ s) as [ [st|e| |] s1]; cbn in *; try done.
  split; [intros _; apply Hp|]. intros st' [= <-]. left. split; [by apply He|exact Hp].
Qed.

(** ** Dispatches *)

Context {HD : DispatchClient} {HL : LRU States} {HW : LRULaws States}.
Context (parse : string -> option SlackConfig) (location : string -> bool).
Context (registry : gmap string (Payload -> SendOptions -> ST SlackState string States)).
Context (slack_registered : registry !! "slack" = Some (slack_sink parse location)).

Notation Dispatcher := (Dispatcher (W := SlackState)).
Implicit Types w : Dispatcher.

Definition stream_log w : list (SlackRequest * SlackAnswer) := sk_log (dt_sinks w).
(** The states that the cache would give to a request now. *)
Definition cached (key : string) w : option States := served state_cache (dt_now w) key (dt_cache w).

(** The requests of the stream of a thread. *)
Definition same_stream (key ref : string) (req : NotificationRequest) : Prop :=
  rq_SinkType req = "slack" /\ (rq_NotificationRef req).2 <> ""%string /\
  Request_String req = key /\ threadReference (rq_Payload req) = ref.

Lemma state_of_Some states k v : state_of states k = v -> v <> ""%string -> states !! k = Some v.
Proof. unfold state_of. destruct (states !! k); cbn; congruence. Qed.

Lemma threadReference_nonempty p : threadReference p <> ""%string.
Proof.
  unfold threadReference, PlanInfo_String, slashed. destruct (_ =? _)%string; by destruct (pi_Namespace (pl_Plan p)).
Qed.

Lemma in_thread_merge ref r base st : ref <> ""%string ->
  in_thread ref r st \/ st = ∅ /\ in_thread ref r base -> in_thread ref r (mergeStates base st).
Proof.
  intros Hr H. unfold in_thread, state_of. rewrite !mergeStates_lookup.
  destruct H as [(H1 & H2 & H3 & H4)|[-> (H1 & H2 & H3 & H4)] ].
  - rewrite (state_of_Some _ _ _ H1 Hr), (state_of_Some _ _ _ H2 H4).
    rewrite (proj2 (String.eqb_neq _ _) Hr), (proj2 (String.eqb_neq _ _) H4). done.
  - rewrite !lookup_empty. done.
Qed.

Lemma in_thread_nonempty ref r st : in_thread ref r st -> st <> ∅.
Proof. intros (_ & H & _ & Hr) ->. unfold state_of in H. by rewrite lookup_empty in H. Qed.

Lemma resolve_in_thread payload ref r st : in_thread ref r st -> threadReference payload = ref -> TrimSpace ref = ref ->
  pl_Event payload <> EventStart -> resolveRootThreadTimestamp payload st = r.
Proof.
  intros (H1 & H2 & H3 & _) Href Ht He. unfold resolveRootThreadTimestamp. rewrite bool_decide_eq_false_2 by done.
  rewrite H1, H2, Href, Ht, String.eqb_refl, andb_false_r. exact H3.
Qed.

(** What a dispatch does after it has read what it needs: the client and the cache have
    changed by then, and the cache serves what it did. *)
Definition send_and_report (req : NotificationRequest) (opts : SendOptions) : DM unit :=
  let! r := st_lift dt_sinks set_dt_sinks (st_try (slack_sink parse location (sink_payload req) opts)) in
  match r with
  | inl e => reportDelivery req false (Some e) (mergeStates (so_SinkState opts) ∅)
  | inr states => reportDelivery req true None (mergeStates (so_SinkState opts) states)
  end.

(** What reads only the API server. *)
Definition reads {A} (m : DM A) : Prop := forall w, exists a w', m w = (Ok a, w') /\
  dt_sinks w' = dt_sinks w /\ dt_cache w' = dt_cache w /\ dt_now w' = dt_now w /\ dt_results w' = dt_results w.

Lemma bind_run {A B} (m : DM A) (k : A -> DM B) w a w' : m w = (Ok a, w') -> st_bind m k w = k a w'.
Proof. unfold st_bind. by intros ->. Qed.
Lemma reads_ret {A} (a : A) : reads (st_ret a).
Proof. intros w. by exists a, w. Qed.
Lemma reads_bind {A B} (m : DM A) (k : A -> DM B) : reads m -> (forall a, reads (k a)) -> reads (st_bind m k).
Proof.
  intros Hm Hk w. destruct (Hm w) as (a & w1 & E & ? & ? & ? & ?). destruct (Hk a w1) as (b & w2 & E' & ? & ? & ? & ?).
  exists b, w2. unfold st_bind. rewrite E. repeat split; congruence.
Qed.
Lemma reads_key read d namespace ref : reads (resolve_key read d namespace ref).
Proof.
  apply reads_bind; [|intros r; apply reads_ret]. intros w. unfold dt_read. destruct (read _ _) as [r c].
  eexists _, _. split; [reflexivity|done].
Qed.

(** A dispatch ends at once, or it sends with the states of the cache. *)
Lemma dispatch_cases req w : rq_SinkType req = "slack" -> (rq_NotificationRef req).2 <> ""%string ->
  exists w1, dt_sinks w1 = dt_sinks w /\ dt_results w1 = dt_results w /\ dt_now w1 = dt_now w /\
    (dispatch registry req w = (Ok tt, w1) /\ dt_cache w1 = dt_cache w \/
     exists opts, dispatch registry req w = send_and_report req opts w1 /\
       forall st, cached (Request_String req) w = Some st ->
         so_SinkState opts = st /\ cached (Request_String req) w1 = Some st).
Proof.
  intros Hty Hname. unfold dispatch. rewrite Hty, slack_registered.
  destruct (reads_key dp_secret defaultSecretConfigKey (pi_Namespace (pl_Plan (rq_Payload req))) (rq_SecretRef req) w)
    as ([config|] & w1 & E & Hs1 & Hc1 & Hn1 & Hr1); unfold resolveSecret;
    rewrite (bind_run _ _ _ _ _ E); [|exists w1; eauto 10].
  match goal with |- context [st_bind ?m _ w1] => assert (reads m) as Hm end.
  { destruct (rq_TemplateRef req) as [ref|]; [|apply reads_ret]. apply reads_bind; [apply reads_key|intros t; apply reads_ret]. }
  destruct (Hm w1) as (t & w2 & E2 & Hs2 & Hc2 & Hn2 & Hr2). rewrite (bind_run _ _ _ _ _ E2).
  destruct (GetOrFetch state_cache (dt_now w2) (Request_String req) (fetch_states req) (dt_client w2) (dt_cache w2))
    as [ [r c'] cache] eqn:Eg.
  erewrite bind_run; [|unfold resolveSinkState; rewrite (proj2 (String.eqb_neq _ _) Hname), Eg; reflexivity].
  exists (mkDispatcher c' (dt_sinks w2) cache (dt_now w2) (dt_results w2)). cbn. split; [congruence|]. split; [congruence|]. split; [congruence|]. right.
  exists (mkSendOptions config t (match r with inl _ => ∅ | inr states => states end)). split; [reflexivity|]. intros st Hst. unfold cached in *. cbn.
  destruct (served_Get state_cache (dt_now w) (Request_String req) (dt_cache w) st) as (cache' & Hg & Hserved); [done|done|].
  unfold GetOrFetch in Eg. rewrite Hn2, Hn1, Hc2, Hc1, Hg in Eg. injection Eg as <- <- <-. by rewrite Hn2, Hn1.
Qed.

(** The end of a dispatch: what was logged, what was reported and what is cached. *)
Lemma send_and_report_end req opts w1 :
  let w2 := (send_and_report req opts w1).2 in
  exists l r, stream_log w2 = stream_log w1 ++ l /\ delivered (sink_payload req) (so_SinkState opts) l r /\
    dt_now w2 = dt_now w1 /\
    (exists res, dt_results w2 = dt_results w1 ++ [res] /\ dr_Success res = bool_decide (is_Some r)) /\
    let states := mergeStates (so_SinkState opts) (default ∅ r) in
    cached (Request_String req) w2 = if bool_decide (states = ∅) then cached (Request_String req) w1 else Some states.
Proof.
  unfold send_and_report, st_lift, st_try. unfold st_bind, slack_sink.
  destruct (slack_Send_logs parse location (so_Config opts) (so_CustomTemplate opts) (so_SinkState opts) (sink_payload req)
    (dt_sinks w1)) as (l & Hl & Hr).
  destruct (slack_Send _ _ _ _ _ _ _) as [ [st|e| |] s1]; cbn in Hl, Hr; try done; unfold reportDelivery, st_modify; cbn.
  - exists l, (Some st). refine (conj Hl (conj Hr (conj eq_refl (conj _ _)))); [eexists; split; [reflexivity|reflexivity]|]. unfold cached. cbn.
    case_bool_decide; [done|]. by apply served_Add.
  - exists l, None. refine (conj Hl (conj Hr (conj eq_refl (conj _ _)))); [eexists; split; [reflexivity|reflexivity]|]. unfold cached. cbn.
    case_bool_decide; [done|]. by apply served_Add.
Qed.

Lemma merged_cached ref r base st (o : option States) : ref <> ""%string ->
  in_thread ref r st \/ st = ∅ /\ in_thread ref r base ->
  let m := mergeStates base st in
  exists m', (if bool_decide (m = ∅) then o else Some m) = Some m' /\ in_thread ref r m'.
Proof.
  intros Hr H m. pose proof (in_thread_merge _ _ _ _ Hr H) as Hm. exists m. split; [|exact Hm].
  rewrite bool_decide_eq_false_2; [done|]. by eapply in_thread_nonempty.
Qed.

(** A request of the stream that is no start is posted into the thread that the cache
    knows, and the cache still knows it. *)
Lemma dispatch_kept key ref r req w st : same_stream key ref req -> TrimSpace ref = ref -> pl_Event (rq_Payload req) <> EventStart ->
  cached key w = Some st -> in_thread ref r st ->
  let w' := (dispatch registry req w).2 in
  exists l st', stream_log w' = stream_log w ++ l /\ posts (fun thread => thread = r) l /\
    cached key w' = Some st' /\ in_thread ref r st'.
Proof.
  intros (Hty & Hname & <- & Href) Ht He Hst Hin. cbn zeta.
  destruct (dispatch_cases req w Hty Hname) as (w1 & Hs & _ & Hn & [ [-> Hc]|(opts & -> & Hopts)]).
  { exists [], st. unfold stream_log, cached in *. cbn. rewrite Hs, Hn, Hc, app_nil_r. repeat split; try done; [apply posts_nil|apply Hin..]. }
  destruct (Hopts st Hst) as [Eo Hst1]. destruct (send_and_report_end req opts w1) as (l & o & Hl & [Hp Ho] & _ & _ & Hc).
  rewrite Eo in *. rewrite (resolve_in_thread _ ref r st Hin) in * by done.
  destruct (merged_cached ref r st (default ∅ o) (cached (Request_String req) w1)) as (m & Hm & Hinm).
  { rewrite <- Href. apply threadReference_nonempty. }
  { destruct o as [st'|]; [|by right]. destruct (Ho st' eq_refl) as [ [-> _]|(ts & Hts & Hroot & _)]; [by right|left].
    rewrite <- Href. rewrite <- (Hroot ltac:(apply Hin)). exact Hts. }
  exists l, m. split; [unfold stream_log in *; by rewrite Hl, Hs|]. split; [apply Hp, Hin|]. split; [by rewrite Hc|done].
Qed.

(** A delivery that succeeded in a thread is known to the cache. *)
Lemma dispatch_opened key ref r req w l : same_stream key ref req ->
  let w' := (dispatch registry req w).2 in
  stream_log w' = stream_log w ++ l ->
  (exists res, dt_results w' = dt_results w ++ [res] /\ dr_Success res = true) ->
  ~ posts (fun thread => thread <> r) l -> r <> ""%string ->
  exists st, cached key w' = Some st /\ in_thread ref r st.
Proof.
  intros (Hty & Hname & <- & Href) w' Hl (res & Hres & Hok) Hr Hr0. subst w'.
  destruct (dispatch_cases req w Hty Hname) as (w1 & Hs & Hrs & Hn & [ [E Hc]|(opts & E & _)]); rewrite E in *.
  { cbn in Hres. rewrite Hrs in Hres. apply (f_equal length) in Hres. rewrite length_app in Hres. cbn in Hres. lia. }
  destruct (send_and_report_end req opts w1) as (l' & o & Hl' & [_ Ho] & _ & (res' & Hres' & Hok') & Hc).
  rewrite Hres', Hrs in Hres. apply app_inv_head in Hres as [= ->]. rewrite Hok in Hok'. symmetry in Hok'.
  apply bool_decide_eq_true_1 in Hok' as [st ->]. unfold stream_log in *. rewrite Hl', Hs in Hl. apply app_inv_head in Hl as ->.
  destruct (Ho st eq_refl) as [ [_ Hno]|(ts & Hts & _ & Hp)]; [by destruct Hr; apply Hno|].
  assert (ts = r) as ->.
  { destruct (decide (ts = r)) as [|Hne]; [done|]. destruct Hr. intros token channel msg thread a Hin.
    destruct (Hp _ _ _ _ _ Hin) as [->| ->]; congruence. }
  rewrite Hc. cbn [default from_option id]. rewrite <- Href. eapply merged_cached; [apply threadReference_nonempty|by left].
Qed.

(** ** A stream

    The worker of a stream dispatches its requests one after the other; in between the
    other workers use the cache, which keeps the states of the stream.  [l] is what the
    dispatches of the stream ask of Slack. *)
Inductive stream_run (key ref : string) : Dispatcher -> list (SlackRequest * SlackAnswer) -> Dispatcher -> Prop :=
| stream_done w : stream_run key ref w [] w
| stream_other w w1 l w2 : cached key w1 = cached key w -> stream_run key ref w1 l w2 -> stream_run key ref w l w2
| stream_dispatch req w l1 l2 w2 : same_stream key ref req -> pl_Event (rq_Payload req) <> EventStart ->
    stream_log (dispatch registry req w).2 = stream_log w ++ l1 ->
    stream_run key ref (dispatch registry req w).2 l2 w2 -> stream_run key ref w (l1 ++ l2) w2.

Lemma stream_run_kept key ref r w l w' : TrimSpace ref = ref -> stream_run key ref w l w' ->
  (exists st, cached key w = Some st /\ in_thread ref r st) -> posts (fun thread => thread = r) l.
Proof.
  intros Ht H. induction H as [w|w w1 l w2 Hc _ IH|req w l1 l2 w2 Hs He Hl _ IH]; intros (st & Hst & Hin).
  - apply posts_nil.
  - apply IH. exists st. by rewrite Hc.
  - destruct (dispatch_kept key ref r req w st Hs Ht He Hst Hin) as (l & st' & Hl' & Hp & Hst' & Hin').
    rewrite Hl' in Hl. apply app_inv_head in Hl as ->. apply posts_app. split; [exact Hp|]. apply IH. by exists st'.
Qed.

(** C11: Once a notification of an operation was delivered in a thread, the later ones of
    its stream, until the operation starts anew, are all posted into this thread,
    whatever Slack answers. *)
Theorem thread_continuity key ref r req w l l' w' :
  TrimSpace ref = ref -> r <> ""%string -> same_stream key ref req ->
  stream_log (dispatch registry req w).2 = stream_log w ++ l ->
  (exists res, dt_results (dispatch registry req w).2 = dt_results w ++ [res] /\ dr_Success res = true) ->
  (exists token channel msg a, (PostMessage token channel msg r, a) ∈ l) ->
  stream_run key ref (dispatch registry req w).2 l' w' ->
  forall token channel msg thread a, (PostMessage token channel msg thread, a) ∈ l' -> thread = r.
Proof.
  intros Ht Hr Hs Hl Hok (token & channel & msg & a & Hin) Hrun. apply (stream_run_kept key ref r _ l' w' Ht Hrun).
  eapply dispatch_opened; [done..| |done]. intros Hp. by eapply Hp.
Qed.
End continuity.

(** ** A Slack in memory *)

Module SlackSamples.

(** The timestamp of a message: as many digits as messages before. *)
Fixpoint stamp (n : nat) : string := match n with O => "1" | S n => String "1" (stamp n) end.
Lemma stamp_trimmed n : TrimSpace (stamp n) = stamp n.
Proof.
  unfold TrimSpace. rewrite trim_left_fixed by by destruct n.
  induction n as [|n IH]; [done|]. cbn [stamp trim_right]. rewrite IH. by destruct n.
Qed.

(** Some requests fail; the world counts the messages. *)
#[export] Instance memory_slack : SlackApi := {|
  SlackWorld := (SlackRequest -> bool) * nat;
  slack_serve q '(broken, n) :=
    if broken q then (inl "ratelimited"%string, (broken, n))
    else match q with
    | PostMessage _ channel _ _ => (inr (channel, stamp n), (broken, S n))
    | UpdateMessage _ channel ts _ => (inr (channel, ts), (broken, n))
    | _ => (inr (""%string, ""%string), (broken, n))
    end |}.
#[export] Instance memory_slack_laws : SlackLaws.
Proof.
  split. intros token channel msg thread [broken n] c ts w'. cbn.
  destruct (broken _); [done|]. intros [= _ <- _]. apply stamp_trimmed.
Qed.

(** A cache without a bound. *)
#[export] Instance map_lru V : LRU V := {|
  LruCache := gmap string V;
  lru_Peek c k := c !! k;
  lru_Add k v c := <[k := v]> c;
  lru_Get k c := (c !! k, c);
  lru_Remove k c := delete k c |}.
#[export] Instance map_lru_laws V : LRULaws V.
Proof.
  split; cbn; try done.
  - intros. apply lookup_insert_eq.
  - intros k v c k' H. left. by apply lookup_insert_ne.
  - intros k c k'. case_decide as E; [rewrite E; apply lookup_delete_eq|by apply lookup_delete_ne].
Qed.

(** The API server has the secret of the sink, and a notification without states. *)
#[export] Instance sample_client : DispatchClient := {|
  DClient := unit;
  dp_secret _ c := (inr {["config" := ""]}, c);
  dp_configmap _ c := (inl NotFound, c);
  dp_notification _ c := (inl NotFound, c) |}.

Definition thread_config : SlackConfig := mkSlackConfig "" "xoxb" "C1" "json" "" 0 [] "" "" "" "Thread".
Definition sample_registry : gmap string (Payload -> SendOptions -> ST SlackState string States) :=
  {["slack" := slack_sink (fun _ => Some thread_config) (fun _ => true)]}.

Definition at_time (n : Z) : time := mkTime (n * Second) UTC.
Definition sample_request (event : NotificationEvent) (n : Z) : NotificationRequest :=
  mkNotificationRequest
    (mkPayload (mkPlanInfo "p" "ns" ∅ ∅) event (at_time n) PhaseHibernating "" OperationHibernate "c1" [] None "" 0 "" "")
    "team" "slack" (mkObjectKeyReference "secret" None) None ("ns", "n")%string.
Definition stream_key : string := "ns/n|team|ns/p|c1|shutdown".
Definition stream_ref : string := "ns/p/c1/shutdown".

Definition fresh (broken : SlackRequest -> bool) : Dispatcher (W := SlackState) :=
  mkDispatcher tt (mkSlackState (broken, 0%nat) []) (mkCache (HL := map_lru States) ∅ ∅) (at_time 0) [].
Definition after (reqs : list NotificationRequest) (s : Dispatcher (W := SlackState)) : Dispatcher (W := SlackState) :=
  (dispatch_all sample_registry reqs s).2.
(** The threads of the messages that were posted, and the timestamps they got. *)
Definition posted (s : Dispatcher (W := SlackState)) : list (string * option string) :=
  omap (fun qa => match qa with
    | (PostMessage _ _ _ thread, a) => Some (thread, match a with inr (_, ts) => Some ts | inl _ => None end)
    | _ => None
    end) (sk_log (dt_sinks s)).

Definition healthy : SlackRequest -> bool := fun _ => false.
Definition started := after [sample_request EventStart 0] (fresh healthy).

Example start_opens_thread : posted started = [("", Some "1"); ("1", Some "11")].
Proof. vm_compute. reflexivity. Qed.
Example progress_replies : posted (after [sample_request EventExecutionProgress 1; sample_request EventFailure 2] started) =
  [("", Some "1"); ("1", Some "11"); ("1", Some "111"); ("1", Some "1111")].
Proof. vm_compute. reflexivity. Qed.

(** A root whose reply fails is forgotten: the next notification makes a second one. *)
Definition replies_fail (q : SlackRequest) : bool :=
  match q with PostMessage _ _ _ thread => negb (thread =? "")%string | _ => false end.
Example second_root :
  posted (after [sample_request EventStart 0; sample_request EventExecutionProgress 1] (fresh replies_fail)) =
  [("", Some "1"); ("1", None); ("", Some "11"); ("11", None)].
Proof. vm_compute. reflexivity. Qed.

(** The roots that are updated. *)
Definition updated (s : Dispatcher (W := SlackState)) : list string :=
  omap (fun qa => match qa.1 with UpdateMessage _ _ ts _ => Some ts | _ => None end) (sk_log (dt_sinks s)).
Definition retried : list NotificationRequest :=
  [sample_request EventStart 0; sample_request EventFailure 1; sample_request EventStart 2; sample_request EventExecutionProgress 3].
(** When the reaction of a new root fails, the root inherits the reaction of the one
    before, and after a failure it is not updated while the operation runs. *)
Definition loading_fails (q : SlackRequest) : bool :=
  match q with AddReaction _ _ _ reaction => (reaction =? "loading")%string | _ => false end.
Example new_root_updated : updated (after retried (fresh healthy)) = ["1"; "1111"].
Proof. vm_compute. reflexivity. Qed.
Example new_root_frozen : updated (after retried (fresh loading_fails)) = ["1"].
Proof. vm_compute. reflexivity. Qed.
End SlackSamples.

Section witness.
Import SlackSamples.

Lemma thread_continuity_witness :
  exists l' w', stream_run sample_registry stream_key stream_ref started l' w' /\ length l' = 6%nat /\
    forall token channel msg thread a, (PostMessage token channel msg thread, a) ∈ l' -> thread = "1"%string.
Proof.
  set (w := after [sample_request EventExecutionProgress 1; sample_request EventFailure 2] started).
  assert (stream_run sample_registry stream_key stream_ref started
    (drop (length (stream_log started)) (stream_log (after [sample_request EventExecutionProgress 1] started)) ++
     drop (length (stream_log (after [sample_request EventExecutionProgress 1] started))) (stream_log w) ++ []) w) as Hrun.
  { eapply (stream_dispatch _ _ _ (sample_request EventExecutionProgress 1)); [by repeat split|done|by vm_compute|].
    eapply (stream_dispatch _ _ _ (sample_request EventFailure 2)); [by repeat split|done|by vm_compute|].
    apply stream_done. }
  eexists _, w. split; [exact Hrun|]. split; [by vm_compute|].
  apply (thread_continuity (fun _ => Some thread_config) (fun _ => true) sample_registry eq_refl stream_key stream_ref "1"
    (sample_request EventStart 0) (fresh healthy) (stream_log started) _ w);
    [reflexivity|discriminate|by repeat split|reflexivity| | |exact Hrun].
  - exists (FromRequest (sample_request EventStart 0) (at_time 0) true None
      (buildThreadStates (sample_request EventStart 0).(rq_Payload) (mkThreadFlow EventStart "1" true "" false "loading" "loading"))).
    split; by vm_compute.
  - eexists "xoxb"%string, "C1"%string, _, _. vm_compute. right. left.
Defined.
End witness.
